(* ===== verification/_CoqProject ===== *)
-Q . S2P
Prelude.v
Errno.v
Types.v
PolicyMatcher.v
Rbac.v
RbacInv.v
RbacSpec.v
FileCheck.v
FileCtx.v
Machine.v
OpenSSL.v
OpenSSLCfg.v
Adaptor.v
Api.v
Conn.v
Lifecycle.v
KeyUpdate.v
TlsSpec.v
Resources.v
Config.v
Connection.v
ConnSafe.v
ConnPool.v
ConnHeap.v
ConnSpec.v
Socket.v
SockSafe.v
Urma.v
Ledger.v
Loader.v
LoaderSpec.v
Crypto.v
CryptoSpec.v
Kae.v
KaeSpec.v
Startup.v
Local.v
Network.v
NetSafe.v
Engines.v
Typing.v
Callbacks.v
Sample.v
SampleSpec.v
Progress.v
Threads.v
RbacThreads.v
RefCount.v
CSample.v
CSampleSafe.v
CSampleSpec.v
