(* ===== verification/Prelude.v ===== *)
(** * scf-security: a verification library (root file)

    The Secure Communication Framework is a C++ library that gives an application TLS
    connections with a policy: which peer may use which resource (role based access control
    on certificates), which protocol versions, cipher suites and keys a connection may use,
    when its keys are renewed. This library models the parts of [src/] that decide
    something or own something, and proves what makes them correct.

    ** The program

    - The C API ([src/include/scf.h]) is implemented under [src/scf/]: policy contexts
      ([policy/policy.cpp]), certificates, pre-shared keys and sessions ([policy/auth/]),
      access control ([policy/auth/rbac/]), file contexts ([policy/file_context.cpp]),
      configuration files ([policy/config.cpp]), objects and connections ([connection/]).
    - It reaches the TLS library through one virtual interface, [AbstractTLSAdaptor]
      ([src/adaptor/base/]), implemented by [src/adaptor/openssl/openssl_adaptor.cpp], and
      counts traffic for key renewal in [src/adaptor/session_key_update.cpp].
    - [src/connection/scf_connection_impl.cpp] builds an easy object on top: a security level
      and some paths become a context, a transport, an object and a handshake.
    - Under it, [src/transport/] moves bytes (a TCP socket, and a stub for URMA),
      [src/crypto/] offers cryptographic engines (libcrypto, and the KAE provider with
      libcrypto behind it), and [src/adaptor/] loads libcrypto and libssl.
    - [src/common/] holds the error messages, the file checks and the JSON parser.

    A policy context is reference counted: the client holds one reference and every object
    (one TLS connection) another. Objects point to their context; the adaptor keeps an
    [SSL_CTX] in the context and an [SSL] in the object; three process globals say whether
    the library is up.

    ** The library

    - [Prelude]: notations, tactics ([branches], [bools]), machine integers with their
      wrap-around, C strings and buffers, and the Secure C functions ([memcpy_s] and the
      like, as the class [SecureC] of their documented contract).
    - [Errno] ([scf_errno.h], [policy_utils.cpp], [error_message_match_util.cpp]): the codes,
      the message table, the lookup through its static buffer.
    - [Types] ([scf_def.h], [constant_def.h], [scf_inner.h]): constants, the records of a
      context, an object and a file context.
    - [PolicyMatcher], [Rbac] ([policy_matcher.cpp], [rbac.cpp]): matching, the rule table,
      the node roles, the decision. [RbacInv]: the invariant of the store, over histories of
      operations. [RbacSpec]: the decision against an abstract [authorize], and the exact
      behaviour of each operation.
    - [FileCheck], [FileCtx] ([file_check.cpp], [file_ctx.cpp], [crypto_util.cpp],
      [file_context.cpp]): path checks and the buffers of paths, keys and passwords; what a
      function releases is a result, so that "scrubbed before release" is a statement.
    - [Machine]: the process. Live contexts and objects by address, the globals, and the
      history of calls into code outside [src/]; a state monad whose failure is undefined
      behaviour, and its weakest precondition [wp]. An external call is not defined: it
      appends to the history and its answer is an arbitrary function of it ([Library]).
    - [OpenSSL], [OpenSSLCfg] ([openssl_adaptor.cpp]): every method of the adaptor.
    - [Adaptor]: the interface as a class ([TlsAdaptor]), its contract ([TlsAdaptorSafe]: on
      live handles a method returns and changes the TLS fields only), OpenSSL as an instance
      of both (of the contract where [SSL_new] finds memory, [SslMemory]: the adaptor does not
      check it), and the rules of [safe] that derive such contracts.
    - [Api], [Conn]: the handlers of the C API, over any adaptor.
    - [Lifecycle]: reference counting and initialisation over histories of API calls, against
      the abstract state [Life] (the count of each context, the context of each object).
    - [KeyUpdate]: traffic accounting and key renewal. [TlsSpec]: what [SCF_SetPolicy],
      version lists, cipher lists, the pre-shared-key and password callbacks put into force.
    - [Resources]: ownership of the objects OpenSSL hands out (contexts, connections,
      sessions, certificates, keys, BIOs), by accounting over the history.
    - [Config] ([parse_config.cpp], [config.cpp]): the configuration file, over an abstract
      JSON document ([RapidJson]) whose accessors are defined where RapidJSON's preconditions
      hold; and every buffer that applying one releases, by its holder ([Released]).
    - [Connection] ([scf_connection_impl.cpp], [scf_connection.h]): the connection object,
      its methods in a monad [Meth] that threads [*this]. [ConnSafe]: what each method does
      to the abstract state. [ConnPool]: any number of connections in one process.
      [ConnSpec]: what a security level puts into force. [ConnHeap]: which contexts and
      objects live. [Engines]: who created the engine a connection uses. [Typing]: every field
      of a context and an object keeps its C++ type.
    - [Socket] ([socket_transport.cpp], [scf_transport.h]): addresses, options and the TCP
      transport. [SockSafe]: who owns which descriptor, over any number of transports; what
      [Connect] reports; addresses in network form and back. [Urma] ([urma_transport.cpp]):
      the stub, and [ITransport] as a class whose laws both transports keep.
    - [Ledger]: accounting for the handles of the loader and the engines ([moves]: a program
      returns, and changes what is outstanding by exactly what it owns).
    - [Loader] ([dlopen_lib_base.cpp], [lib_crypto_api.cpp], [lib_ssl_api.cpp]): the two
      library singletons, their tables of symbols and resets. [LoaderSpec]: loading is all
      or nothing.
    - [Crypto] ([default_crypto_engine.cpp], [scf_crypto_engine.h]): the software engine,
      calling through the loader's function objects. [CryptoSpec]: what it gives back, and
      what [DecryptAEAD] accepts. [Kae], [KaeSpec] ([kae_provider_engine.cpp]): the life of
      the KAE engine and its delegation. [Startup]: the adaptor's [Init] over the loader
      (where [OpenSSL] has external calls), and the engines on what it loaded.
    - [Local]: what a call may read of the history. [Network], [NetSafe]: connections over
      sockets; the calls of a connection on its transport are answered by [Socket], whose
      state is computed from the history ([NetLibrary]).
    - [Callbacks] ([custom_logger.cpp], [logger_callback.cpp], [crypto_callback.cpp],
      [crypto_util.cpp]): the logger and the cryptographic helper of the application.
    - [Sample] ([sample/client_main_new.cpp], [server_main_new.cpp]): the documented use of
      the connection object, as programs. [SampleSpec]: what they leave, against the
      interface [ClientHistory] of the histories of a disciplined client. [Progress]: the
      event loop of a non-blocking handshake.
    - [Threads]: threads under mutexes. A call is a program of guarded blocks and atomic
      accesses ([prog]); threads interleave access by access ([step]); the simulation
      [blocks_are_atomic] by steps of whole blocks, and the moments of a schedule at which a
      call's blocks ran ([replay_at_moments]). [RbacThreads] ([rbac.cpp]): the handlers
      of [Rbac] with their locks. [RefCount] ([policy.cpp], [obj.cpp]): the reference count
      as an atomic, with the compare-exchange loop.
    - [CSample] ([sample/client_main.cpp], [server_main.cpp], [client_main_tcp.cpp],
      [server_main_tcp.cpp], [test_utils/]): a client and a server of the C API that agree on
      a pre-shared key, their callbacks, the TCP client and the TCP server with its accepting
      thread, and the same exchange without TLS; programs on their globals ([Prg]) that end,
      loop or run out of memory. [CSampleSafe]: their runs, and when they end ([pw]: [wp] for
      programs). [CSampleSpec]: what they leave ([puses]: the books of [Resources] for
      programs), that the two callbacks agree, and what the port argument is read as.

    The state of a component is a [Record] with the fields of the struct or class; an
    operation is one definition with the guards in the order of the code ([return_if c with
    r ;; k] is [if (c) return r;]); loops are structural recursion on the list or the count
    they run over; unsigned arithmetic wraps explicitly ([wrap16], [wrap32], [wrap64]).

    ** What is shown

    - Memory and lifetime: no history of API calls or of connections touches a freed context
      or object, a context lives exactly as long as somebody refers to it, nothing OpenSSL
      handed out leaks or is released twice (certificate chains excepted, whose double free
      is a theorem of its own), a connection leaves nothing behind. These hold for every
      answer of OpenSSL, the network and the allocator but one, a null [SSL_new]. Under
      threads that own references the context is deleted once, and nothing is accessed after.
      No method is called on a deleted engine while an owner's sharers go first; the sample
      programs of both interfaces leave nothing. The session the sample client offers is the
      one the sample server finds.
    - Access control: the decision implements the abstract one; no cross-node access without
      a rule; deny overrides at equal specificity whatever the order of the table; frozen
      roles never change; ids are never reused; buffers of the caller are never overrun.
      Under threads the administrative calls and the queries are atomic, a permission check
      reads the flag, the mapping and the rules at three moments of the schedule.
    - TLS policy: what is recorded in a context and what OpenSSL was told agree, to the last
      configuration call on a new [SSL_CTX]; which version policies the check before a
      connection passes, and that no bounds mean no check; cipher text is exact; key renewal
      is due exactly when the counters say so, saturating instead of wrapping.
    - Secrets: what each released buffer holds. Decrypted passwords and keys are overwritten
      first, unless the decryption callback fails; copies of paths and the JSON document's
      encrypted pass phrase are not.
    - Parsing: a configuration file is accepted exactly when it holds the document described.
    - Transports: descriptors are owned by one transport each and closed once; success of
      [Connect] means a connection was started on a non-blocking descriptor; a literal
      address survives the way to network form and back. A connection over sockets uses its
      own open descriptor only and closes it once. A handshake the peer completes after [k]
      rounds ends the event loop.
    - Libraries and engines: a library is completely loaded or closed; no operation of an
      engine calls a missing function or keeps a handle; decryption succeeds only after the
      tag was verified (for lengths that fit [int], beyond which they are truncated); a KAE
      engine gives back what it took, with one exception the theorem names, and returns but
      where it has no memory for its software engine.

    ** Bounds and fuel

    Only one loop of the code has no bound of its own: [LoadCaChain] reads certificates until
    OpenSSL's reader ends. It carries fuel; [LoadCaChain_double_release] shows that one more
    than the number of certificates the reader has is enough, and the contract [safe] and the
    histories exclude that call. The event loop of a sample, [poll_handshake], spins until
    the handshake is decided: fuel [k + 1] is enough when the peer settles within [k] rounds
    ([Settles k]), and no fuel is when it never does ([handshake_for_ever]). The exchange loop
    of the reference count and the scheduler need none: they are step relations.
    The programs of [CSample] have three loops without a bound (the inner loop of the
    handshake, [SCFRead] and the connection attempt): more fuel than
    [TEST_READ_RETRY_MAX_CNT] is enough in an environment that is [Polite]; [Send] and [Recv]
    are given the fuel they can use, and never run out.
    [Num2HexStr], the list loops and the matchers recurse on
    their data. Lengths handed to Secure C are bounded by [SECUREC_MEM_MAX_LEN] as there: the
    theorems on passwords ask that a decryption answers less than 2 GiB.

    ** Not modelled

    - The contents of OpenSSL, RapidJSON, libc and Secure C: parameters, with their
      documented behaviour as hypotheses where a theorem needs it.
    - The connection object keeps its transport and its engine behind virtual interfaces, so
      there their methods are external calls, whatever implements them. [Network] answers
      those of the transport by the sockets; a factory of the application, and the engines
      under a connection, stay external. URMA itself is a stub in the source.
    - The data an engine encrypts or hashes: it is at an address, and libcrypto's business.
    - Threads elsewhere: outside [RbacThreads] and [RefCount] calls are run one at a time.
      [g_scfMutex] and the registry mutex of the connections guard whole calls; the globals
      they protect are also read without them, which is recorded as a finding. The accepting
      thread of a sample server makes its rounds where the main thread waits.
    - What the log says: a line of log is text for the application's function.
    - Output, clocks and sleeps of the samples; the tests; declarations and type synonyms of
      the headers. *)
From Stdlib Require Import ZArith Lia Ascii String.
From stdpp Require Import base list fin_maps gmap strings sorting relations.

Export Ascii.

Declare Scope scf_scope.
Delimit Scope scf_scope with scf.

(** [return_if c with r ;; k] is the C++ idiom [if (c) { return r; } k]. *)
Notation "'return_if' c 'with' r ;; k" := (if c then r else k)
  (at level 10, c at level 99, r at level 10, k at level 200,
   only parsing) : scf_scope.
Open Scope scf_scope.
Open Scope Z_scope.

(** ** Tactics of the development *)

(** Split every [if]/[match] whose scrutinee is visible in the goal. *)
Ltac split_cases := repeat (case_match; simplify_eq/=).

(** Turn boolean comparisons of the context into propositions. *)
Ltac bools :=
  repeat match goal with
  | H : (_ =? _) = true |- _ => apply Z.eqb_eq in H
  | H : (_ =? _) = false |- _ => apply Z.eqb_neq in H
  | H : (_ <? _) = true |- _ => apply Z.ltb_lt in H
  | H : (_ <? _) = false |- _ => apply Z.ltb_ge in H
  | H : (_ <=? _) = true |- _ => apply Z.leb_le in H
  | H : (_ <=? _) = false |- _ => apply Z.leb_gt in H
  | H : (_ || _)%bool = true |- _ => apply orb_true_iff in H
  | H : (_ || _)%bool = false |- _ => apply orb_false_iff in H; destruct H
  | H : (_ && _)%bool = true |- _ => apply andb_true_iff in H; destruct H
  | H : (_ && _)%bool = false |- _ => apply andb_false_iff in H
  | H : negb _ = true |- _ => apply negb_true_iff in H
  | H : negb _ = false |- _ => apply negb_false_iff in H
  | H : bool_decide _ = true |- _ => apply bool_decide_eq_true in H
  | H : bool_decide _ = false |- _ => apply bool_decide_eq_false in H
  end.

(** Close a goal that only needs case analysis on the visible branches. *)
Ltac branches := intros; split_cases; bools; try done; try lia; try congruence.

(** ** Machine integers *)

Definition UINT8_MAX : Z := 255.
Definition UINT16_MAX : Z := 65535.
Definition INT32_MAX : Z := 2147483647.
Definition INT32_MIN : Z := -2147483648.
Definition UINT32_MAX : Z := 4294967295.
Definition UINT64_MAX : Z := 18446744073709551615.

Definition wrap16 (x : Z) : Z := x mod 2 ^ 16.
Definition wrap32 (x : Z) : Z := x mod 2 ^ 32.
Definition wrap64 (x : Z) : Z := x mod 2 ^ 64.

(** Conversion of an unsigned 32-bit pattern to [int32_t]. *)
Definition to_int32 (x : Z) : Z :=
  if wrap32 x <=? INT32_MAX then wrap32 x else wrap32 x - 2 ^ 32.

(** Conversion of an unsigned 64-bit pattern to [int64_t]. *)
Definition to_int64 (x : Z) : Z := if wrap64 x <? 2 ^ 63 then wrap64 x else wrap64 x - 2 ^ 64.

Definition is_u32 (x : Z) : Prop := 0 <= x <= UINT32_MAX.
Definition is_u64 (x : Z) : Prop := 0 <= x <= UINT64_MAX.

Lemma wrap64_id x : is_u64 x -> wrap64 x = x.
Proof. unfold is_u64, wrap64, UINT64_MAX. intros. apply Z.mod_small. lia. Qed.

Lemma wrap32_id x : is_u32 x -> wrap32 x = x.
Proof. unfold is_u32, wrap32, UINT32_MAX. intros. apply Z.mod_small. lia. Qed.

Lemma wrap64_range x : is_u64 (wrap64 x).
Proof. unfold is_u64, wrap64, UINT64_MAX. pose proof (Z.mod_pos_bound x (2^64)). lia. Qed.

(** ** C strings and byte buffers

    A [std::string] is a [string] that may hold NUL bytes; a [const char *] is
    the [string] of the bytes before its terminator; a writable [char] buffer
    is the [list ascii] of its cells. *)

Definition NUL : ascii := Ascii.zero.

Fixpoint cstr (s : string) : string :=
  match s with
  | EmptyString => EmptyString
  | String c s' => if Ascii.eqb c NUL then EmptyString else String c (cstr s')
  end.

Fixpoint has_nul (s : string) : bool :=
  match s with
  | EmptyString => false
  | String c s' => Ascii.eqb c NUL || has_nul s'
  end.

Definition slen (s : string) : Z := Z.of_nat (String.length s).
Definition strnlen (s : string) (n : Z) : Z := Z.min (slen s) n.
Definition streq (a b : string) : bool := String.eqb a b.

(** The bytes of a buffer up to its first NUL, as a C string. *)
Fixpoint buf_cstr (b : list ascii) : string :=
  match b with
  | [] => EmptyString
  | c :: b' => if Ascii.eqb c NUL then EmptyString else String c (buf_cstr b')
  end.

Definition bytes (s : string) : list ascii := list_ascii_of_string s.

Lemma cstr_no_nul s : has_nul s = false -> cstr s = s.
Proof.
  induction s as [|c s IH]; simpl; [done|].
  destruct (Ascii.eqb c NUL); simpl; [done|]. intros H. by rewrite IH.
Qed.

Lemma cstr_has_no_nul s : has_nul (cstr s) = false.
Proof.
  induction s as [|c s IH]; simpl; [done|].
  destruct (Ascii.eqb c NUL) eqn:E; simpl; [done|]. by rewrite E, IH.
Qed.

Lemma slen_nonneg s : 0 <= slen s.
Proof. unfold slen. lia. Qed.

Lemma length_bytes s : length (bytes s) = String.length s.
Proof. induction s; simpl; congruence. Qed.

Lemma str_app_cons c a b : (String c a ++ b = String c (a ++ b))%string.
Proof. done. Qed.

Lemma str_app_nil_r a : (a ++ "" = a)%string.
Proof. induction a as [|c a IH]; [done|]. by rewrite str_app_cons, IH. Qed.

Lemma str_app_length a b :
  String.length (a ++ b)%string = (String.length a + String.length b)%nat.
Proof. induction a as [|c a IH]; [done|]. rewrite str_app_cons. simpl. by rewrite IH. Qed.

Lemma str_app_assoc (a b c : string) : (a ++ (b ++ c) = (a ++ b) ++ c)%string.
Proof. induction a as [|x a IH]; [done|]. by rewrite !str_app_cons, IH. Qed.

Lemma bytes_app a b : bytes (a ++ b)%string = bytes a ++ bytes b.
Proof.
  induction a as [|c a IH]; [done|]. rewrite str_app_cons. unfold bytes in *. simpl.
  by rewrite IH.
Qed.

Lemma slen_app a b : slen (a ++ b)%string = slen a + slen b.
Proof. unfold slen. rewrite str_app_length. lia. Qed.

Lemma slen_buf_cstr b : 0 <= slen (buf_cstr b) <= Z.of_nat (length b).
Proof.
  unfold slen. split; [lia|]. induction b as [|c b IH]; [done|]. simpl.
  destruct (Ascii.eqb c NUL); simpl; lia.
Qed.

Lemma buf_cstr_app s rest :
  has_nul s = false -> buf_cstr (bytes s ++ NUL :: rest) = s.
Proof.
  induction s as [|c s IH]; simpl; [done|].
  destruct (Ascii.eqb c NUL); simpl; [done|]. intros H. by rewrite IH.
Qed.

Lemma streq_eq a b : streq a b = true <-> a = b.
Proof. apply String.eqb_eq. Qed.

Lemma streq_neq a b : streq a b = false <-> a <> b.
Proof. apply String.eqb_neq. Qed.

Lemma streq_refl a : streq a a = true.
Proof. apply String.eqb_refl. Qed.

(** ** The bounds-checking C library

    [memcpy_s] comes from libboundscheck and is not part of the repository:
    its documented contract is a class, and the code is verified against it. *)

Definition EOK : Z := 0.
Definition SECUREC_MEM_MAX_LEN : Z := 2147483647.

Class SecureC : Type := {
  memcpy_s : list ascii -> Z -> list ascii -> Z * list ascii;
  memcpy_s_ok : forall dest destMax src,
    0 < destMax <= SECUREC_MEM_MAX_LEN -> destMax <= Z.of_nat (length dest) ->
    Z.of_nat (length src) <= destMax ->
    memcpy_s dest destMax src = (EOK, src ++ drop (length src) dest);
  memcpy_s_range : forall dest destMax src,
    destMax < Z.of_nat (length src) -> (memcpy_s dest destMax src).1 <> EOK;
  memcpy_s_zero : forall dest src,
    (memcpy_s dest 0 src).1 <> EOK /\ (memcpy_s dest 0 src).2 = dest;
  strncpy_s : list ascii -> Z -> string -> Z -> Z * list ascii;
  strncpy_s_ok : forall dest destMax src count,
    0 < destMax <= SECUREC_MEM_MAX_LEN -> destMax <= Z.of_nat (length dest) ->
    0 <= count -> strnlen src count < destMax -> has_nul src = false ->
    let n := Z.to_nat (strnlen src count) in
    strncpy_s dest destMax src count
    = (EOK, take n (bytes src) ++ NUL :: drop (S n) dest);
  memset_s : list ascii -> Z -> ascii -> Z -> Z * list ascii;
  memset_s_ok : forall dest destMax c count,
    0 < destMax <= SECUREC_MEM_MAX_LEN -> destMax <= Z.of_nat (length dest) ->
    0 <= count <= destMax ->
    memset_s dest destMax c count
    = (EOK, replicate (Z.to_nat count) c ++ drop (Z.to_nat count) dest)
}.

(** A concrete instance, used by the witnesses. *)
Definition ref_memcpy_s (dest : list ascii) (destMax : Z) (src : list ascii)
  : Z * list ascii :=
  if (destMax <=? 0) || (SECUREC_MEM_MAX_LEN <? destMax)
     || (destMax <? Z.of_nat (length src))
  then (34, dest) else (EOK, src ++ drop (length src) dest).

Definition ref_strncpy_s (dest : list ascii) (destMax : Z) (src : string) (count : Z)
  : Z * list ascii :=
  let n := Z.to_nat (strnlen src count) in
  (EOK, take n (bytes src) ++ NUL :: drop (S n) dest).

Definition ref_memset_s (dest : list ascii) (destMax : Z) (c : ascii) (count : Z)
  : Z * list ascii :=
  (EOK, replicate (Z.to_nat count) c ++ drop (Z.to_nat count) dest).

#[export] Program Instance RefSecureC : SecureC :=
  {| memcpy_s := ref_memcpy_s; strncpy_s := ref_strncpy_s; memset_s := ref_memset_s |}.
Next Obligation.
  intros. unfold ref_memcpy_s.
  replace (destMax <=? 0) with false by (symmetry; apply Z.leb_gt; lia).
  replace (SECUREC_MEM_MAX_LEN <? destMax) with false by (symmetry; apply Z.ltb_ge; lia).
  replace (destMax <? Z.of_nat (length src)) with false by (symmetry; apply Z.ltb_ge; lia).
  done.
Qed.
Next Obligation.
  intros. unfold ref_memcpy_s.
  replace (destMax <? Z.of_nat (length src)) with true by (symmetry; apply Z.ltb_lt; lia).
  rewrite orb_true_r. done.
Qed.
Next Obligation. done. Qed.
Next Obligation. done. Qed.
Next Obligation. done. Qed.

(** ** [std::map] with unsigned keys: an association list sorted by key *)
Module OMap.
Section omap.
Context {A : Type}.
Implicit Types (m : list (Z * A)) (k : Z) (a : A).

Fixpoint find k m : option A :=
  match m with
  | [] => None
  | (k', a) :: m' => if k =? k' then Some a else find k m'
  end.

Fixpoint insert k a m : list (Z * A) :=
  match m with
  | [] => [(k, a)]
  | (k', a') :: m' =>
      if k <? k' then (k, a) :: m
      else if k =? k' then m else (k', a') :: insert k a m'
  end.

(** [emplace]: the map and whether the key was inserted. *)
Definition emplace k a m : list (Z * A) * bool :=
  match find k m with
  | Some _ => (m, false)
  | None => (insert k a m, true)
  end.

Fixpoint erase k m : list (Z * A) :=
  match m with
  | [] => []
  | (k', a) :: m' => if k =? k' then m' else (k', a) :: erase k m'
  end.

Definition size m : Z := Z.of_nat (length m).

Definition wf m : Prop := StronglySorted Z.lt m.*1.

Lemma find_elem k a m : find k m = Some a -> (k, a) ∈ m.
Proof.
  induction m as [|[k' a'] m IH]; simpl; [done|].
  destruct (k =? k') eqn:E; intros H; simplify_eq.
  - apply Z.eqb_eq in E as ->. by left.
  - right. auto.
Qed.

Lemma wf_head_lt k a m k' a' : wf ((k, a) :: m) -> (k', a') ∈ m -> k < k'.
Proof.
  unfold wf. simpl. intros H Hin. inversion H as [|? ? _ Hall]; subst.
  rewrite Forall_forall in Hall. apply Hall.
  apply list_elem_of_fmap. by exists (k', a').
Qed.

Lemma wf_tail x m : wf (x :: m) -> wf m.
Proof. unfold wf. simpl. by inversion 1. Qed.

Lemma find_complete k a m : wf m -> (k, a) ∈ m -> find k m = Some a.
Proof.
  induction m as [|[k' a'] m IH]; intros Hwf Hin; [by apply not_elem_of_nil in Hin|].
  simpl. apply elem_of_cons in Hin as [[= -> ->]|Hin]; [by rewrite Z.eqb_refl|].
  pose proof (wf_head_lt _ _ _ _ _ Hwf Hin).
  replace (k =? k') with false by (symmetry; apply Z.eqb_neq; lia).
  eauto using wf_tail.
Qed.

Lemma insert_elem k a m x : x ∈ insert k a m -> x = (k, a) \/ x ∈ m.
Proof.
  induction m as [|[k' a'] m IH]; simpl.
  - rewrite list_elem_of_singleton. auto.
  - destruct (k <? k'); [rewrite elem_of_cons; tauto|].
    destruct (k =? k'); [tauto|]. rewrite !elem_of_cons. tauto.
Qed.

Lemma insert_mono k a m x : x ∈ m -> x ∈ insert k a m.
Proof.
  induction m as [|[k' a'] m IH]; simpl; [by rewrite elem_of_nil|].
  destruct (k <? k'); [rewrite !elem_of_cons; tauto|].
  destruct (k =? k'); [done|]. rewrite !elem_of_cons. tauto.
Qed.

Lemma insert_wf k a m : wf m -> wf (insert k a m).
Proof.
  induction m as [|[k' a'] m IH]; intros Hwf; simpl; [repeat constructor|].
  destruct (k <? k') eqn:E1; bools.
  - constructor; [done|]. simpl. constructor; [done|].
    apply Forall_forall. intros k'' Hin. apply list_elem_of_fmap in Hin as [[k1 a1] [-> Hin]].
    pose proof (wf_head_lt _ _ _ _ _ Hwf Hin). simpl. lia.
  - destruct (k =? k') eqn:E2; [done|]. bools.
    constructor; [by apply IH, (wf_tail (k', a'))|].
    apply Forall_forall. intros k'' Hin.
    apply list_elem_of_fmap in Hin as [[k1 a1] [-> Hin]]. simpl.
    apply insert_elem in Hin as [[= -> ->]|Hin]; [lia|].
    eauto using wf_head_lt.
Qed.

Lemma insert_find k a m : find k m = None -> find k (insert k a m) = Some a.
Proof.
  induction m as [|[k' a'] m IH]; simpl; [by rewrite Z.eqb_refl|].
  destruct (k =? k') eqn:E; [done|]. intros H.
  destruct (k <? k'); simpl; [by rewrite Z.eqb_refl|]. rewrite E. auto.
Qed.

Lemma insert_find_ne k k' a m : k <> k' -> find k' (insert k a m) = find k' m.
Proof.
  intros Hne. induction m as [|[k1 a1] m IH]; simpl.
  - replace (k' =? k) with false by (symmetry; apply Z.eqb_neq; lia). done.
  - destruct (k <? k1); simpl.
    + by replace (k' =? k) with false by (symmetry; apply Z.eqb_neq; lia).
    + destruct (k =? k1); simpl; [done|]. by rewrite IH.
Qed.

Lemma insert_length k a m :
  find k m = None -> length (insert k a m) = S (length m).
Proof.
  induction m as [|[k' a'] m IH]; simpl; [done|].
  destruct (k =? k') eqn:E; [done|]. intros H.
  destruct (k <? k'); simpl; [done|]. by rewrite IH.
Qed.

Lemma erase_elem k m x : x ∈ erase k m -> x ∈ m.
Proof.
  induction m as [|[k' a'] m IH]; simpl; [done|].
  destruct (k =? k'); rewrite ?elem_of_cons; tauto.
Qed.

Lemma erase_wf k m : wf m -> wf (erase k m).
Proof.
  induction m as [|[k' a'] m IH]; intros Hwf; simpl; [done|].
  destruct (k =? k') eqn:E; [eauto using wf_tail|].
  constructor; [by apply IH, (wf_tail (k', a'))|].
  apply Forall_forall. intros k'' Hin. apply list_elem_of_fmap in Hin as [[k1 a1] [-> Hin]].
  apply erase_elem in Hin. eauto using wf_head_lt.
Qed.

Lemma erase_find k m : wf m -> find k (erase k m) = None.
Proof.
  induction m as [|[k' a'] m IH]; intros Hwf; simpl; [done|].
  destruct (k =? k') eqn:E; [|simpl; rewrite E; eauto using wf_tail].
  bools. subst. destruct (find k' m) as [a|] eqn:F; [|done].
  apply find_elem in F. pose proof (wf_head_lt _ _ _ _ _ Hwf F). lia.
Qed.

Lemma erase_find_ne k k' m : k <> k' -> find k' (erase k m) = find k' m.
Proof.
  intros Hne. induction m as [|[k1 a1] m IH]; simpl; [done|].
  destruct (k =? k1) eqn:E; simpl; [|by rewrite IH].
  bools. subst. by replace (k' =? k1) with false by (symmetry; apply Z.eqb_neq; lia).
Qed.

Lemma erase_length k m :
  is_Some (find k m) -> S (length (erase k m)) = length m.
Proof.
  induction m as [|[k' a'] m IH]; simpl; [by inversion 1|].
  destruct (k =? k') eqn:E; simpl; [done|]. intros H. by rewrite IH.
Qed.
End omap.
End OMap.

Create HintDb scf.
#[export] Hint Resolve OMap.insert_wf OMap.erase_wf slen_nonneg wrap64_range : scf.
