(* ===== verification/Errno.v ===== *)
(** * Error codes and their messages

    [src/include/scf_errno.h]: the layout of an error code and every code;
    [src/common/utils/policy_utils.cpp] ([errorMap], [GetErrorMessageInternal])
    and [src/common/utils/error_message_match_util.cpp] ([GetErrorMessage]). *)
From Stdlib Require Import ZArith Lia Ascii String.
From stdpp Require Import base list strings.
From S2P Require Import Prelude.
Open Scope Z_scope.

Definition SCF_SUCCESS : Z := 0.
Definition SCF_ERROR : Z := 1.
Definition SCF_PROJECT_ID : Z := 0x75000000.
Definition SCF_MOD_MAKE (Mod : Z) : Z := Z.lor SCF_PROJECT_ID (wrap32 (Z.shiftl Mod 8)).

Definition SCF_MOD_COMMON : Z := SCF_MOD_MAKE 0x0000.
Definition SCF_MOD_CAL : Z := SCF_MOD_MAKE 0x0010.
Definition SCF_SUBMOD_SSL_RETRY : Z := SCF_MOD_MAKE 0x0020.
Definition SCF_SUBMOD_SSL : Z := SCF_MOD_MAKE 0x0021.
Definition SCF_MOD_CONFIG : Z := SCF_MOD_MAKE 0x0011.
Definition SCF_MOD_LOG : Z := SCF_MOD_MAKE 0x9000.
Definition SCF_MOD_RBAC : Z := SCF_MOD_MAKE 0x0030.

Definition SCF_ERRNO_MAKE (Mod Errno : Z) : Z := Z.lor Mod Errno.

(** Common *)
Definition SCF_ERRNO_NULL_INPUT : Z := SCF_ERRNO_MAKE SCF_MOD_COMMON 1.
Definition SCF_ERRNO_INVALID_PARAM : Z := SCF_ERRNO_MAKE SCF_MOD_COMMON 2.
Definition SCF_ERRNO_MEM_ALLOC : Z := SCF_ERRNO_MAKE SCF_MOD_COMMON 3.
Definition SCF_ERRNO_MEM_CPY : Z := SCF_ERRNO_MAKE SCF_MOD_COMMON 4.
Definition SCF_ERRNO_NOT_SUPPORT : Z := SCF_ERRNO_MAKE SCF_MOD_COMMON 5.
Definition SCF_ERRNO_INIT_BSM : Z := SCF_ERRNO_MAKE SCF_MOD_COMMON 6.
Definition SCF_ERRNO_LARGE_FILE : Z := SCF_ERRNO_MAKE SCF_MOD_COMMON 7.
Definition SCF_ERRNO_SYSTEM_TIME_ERROR : Z := SCF_ERRNO_MAKE SCF_MOD_COMMON 8.
Definition SCF_ERRNO_FILE_PATH_ERROR : Z := SCF_ERRNO_MAKE SCF_MOD_COMMON 9.
Definition SCF_ERRNO_READ_FILE_ERROR : Z := SCF_ERRNO_MAKE SCF_MOD_COMMON 10.

(** RBAC *)
Definition SCF_ERRNO_RBAC_DISABLED : Z := SCF_ERRNO_MAKE SCF_MOD_RBAC 1.
Definition SCF_ERRNO_RBAC_DENIED : Z := SCF_ERRNO_MAKE SCF_MOD_RBAC 2.
Definition SCF_ERRNO_RBAC_ROLE_UNKNOWN : Z := SCF_ERRNO_MAKE SCF_MOD_RBAC 3.
Definition SCF_ERRNO_RBAC_NODE_ID_EMPTY : Z := SCF_ERRNO_MAKE SCF_MOD_RBAC 4.
Definition SCF_ERRNO_RBAC_MAP_FULL : Z := SCF_ERRNO_MAKE SCF_MOD_RBAC 5.
Definition SCF_ERRNO_RBAC_MAP_NOT_FOUND : Z := SCF_ERRNO_MAKE SCF_MOD_RBAC 6.
Definition SCF_ERRNO_CERT_NODE_ID_ABSENT : Z := SCF_ERRNO_MAKE SCF_MOD_RBAC 7.
Definition SCF_ERRNO_CERT_ROLE_EXT_ABSENT : Z := SCF_ERRNO_MAKE SCF_MOD_RBAC 8.
Definition SCF_ERRNO_RBAC_POLICY_NOT_FOUND : Z := SCF_ERRNO_MAKE SCF_MOD_RBAC 9.
Definition SCF_ERRNO_RBAC_POLICY_FULL : Z := SCF_ERRNO_MAKE SCF_MOD_RBAC 10.
Definition SCF_ERRNO_RBAC_POLICY_DUPLICATE : Z := SCF_ERRNO_MAKE SCF_MOD_RBAC 11.
Definition SCF_ERRNO_RBAC_POLICY_INVALID : Z := SCF_ERRNO_MAKE SCF_MOD_RBAC 12.
Definition SCF_ERRNO_RBAC_MAP_FROZEN : Z := SCF_ERRNO_MAKE SCF_MOD_RBAC 13.

(** CAL *)
Definition SCF_ERRNO_INIT_HITLS_BSL : Z := SCF_ERRNO_MAKE SCF_MOD_CAL 1.
Definition SCF_ERRNO_INIT_HITLS_CRYPTO : Z := SCF_ERRNO_MAKE SCF_MOD_CAL 2.
Definition SCF_ERRNO_INIT_HITLS_TLS : Z := SCF_ERRNO_MAKE SCF_MOD_CAL 3.
Definition SCF_ERRNO_NULL_HITLS_CTX : Z := SCF_ERRNO_MAKE SCF_MOD_CAL 4.
Definition SCF_ERRNO_NULL_HITLS_CFG : Z := SCF_ERRNO_MAKE SCF_MOD_CAL 5.
Definition SCF_ERRNO_SECURE_TRANSPORT : Z := SCF_ERRNO_MAKE SCF_MOD_CAL 6.
Definition SCF_ERRNO_INIT_OPENSSL : Z := SCF_ERRNO_MAKE SCF_MOD_CAL 7.
Definition SCF_ERRNO_INIT_OPENSSL_ERR : Z := SCF_ERRNO_MAKE SCF_MOD_CAL 8.
Definition SCF_ERRNO_INIT_OPENSSL_CRYPTO : Z := SCF_ERRNO_MAKE SCF_MOD_CAL 9.
Definition SCF_ERRNO_INIT_OPENSSL_ALGO : Z := SCF_ERRNO_MAKE SCF_MOD_CAL 10.
Definition SCF_ERRNO_NULL_CALLBACK : Z := SCF_ERRNO_MAKE SCF_MOD_CAL 11.
Definition SCF_ERRNO_TLS_ALREADY_INIT : Z := SCF_ERRNO_MAKE SCF_MOD_CAL 12.
Definition SCF_ERRNO_INVALID_TLS_TYPE : Z := SCF_ERRNO_MAKE SCF_MOD_CAL 13.
Definition SCF_ERRNO_LOAD_LIB : Z := SCF_ERRNO_MAKE SCF_MOD_CAL 14.
Definition SCF_ERRNO_UNLOAD_LIB : Z := SCF_ERRNO_MAKE SCF_MOD_CAL 15.
Definition SCF_ERRNO_LOAD_SYMBOL : Z := SCF_ERRNO_MAKE SCF_MOD_CAL 16.
Definition SCF_ERRNO_INIT_HITLS_PSE : Z := SCF_ERRNO_MAKE SCF_MOD_CAL 17.
Definition SCF_ERRNO_INIT_SECUREC : Z := SCF_ERRNO_MAKE SCF_MOD_CAL 18.
Definition SCF_ERRNO_NOT_INIT : Z := SCF_ERRNO_MAKE SCF_MOD_CAL 19.

(** Config *)
Definition SCF_CFG_ERRNO_PARSE : Z := SCF_ERRNO_MAKE SCF_MOD_CONFIG 1.
Definition SCF_CFG_ERRNO_CERT_ARRAY_GET : Z := SCF_ERRNO_MAKE SCF_MOD_CONFIG 2.
Definition SCF_CFG_ERRNO_CERT_ITEM_GET : Z := SCF_ERRNO_MAKE SCF_MOD_CONFIG 3.
Definition SCF_CFG_ERRNO_CERT_ADD : Z := SCF_ERRNO_MAKE SCF_MOD_CONFIG 4.
Definition SCF_CFG_ERRNO_PRIVKEY_GET : Z := SCF_ERRNO_MAKE SCF_MOD_CONFIG 5.
Definition SCF_CFG_ERRNO_PRIVKEY_ADD : Z := SCF_ERRNO_MAKE SCF_MOD_CONFIG 6.
Definition SCF_CFG_ERRNO_CIPHER_SUITES_ARRAY_GET : Z := SCF_ERRNO_MAKE SCF_MOD_CONFIG 7.
Definition SCF_CFG_ERRNO_CIPHER_SUITES_ITEM_GET : Z := SCF_ERRNO_MAKE SCF_MOD_CONFIG 8.
Definition SCF_CFG_ERRNO_TLS_VERSION_GET : Z := SCF_ERRNO_MAKE SCF_MOD_CONFIG 9.
Definition SCF_CFG_ERRNO_TLS_VERSION_SET : Z := SCF_ERRNO_MAKE SCF_MOD_CONFIG 10.
Definition SCF_CFG_ERRNO_TLS_FORBID_VERSION_GET : Z := SCF_ERRNO_MAKE SCF_MOD_CONFIG 11.
Definition SCF_CFG_ERRNO_KEY_UPDATE : Z := SCF_ERRNO_MAKE SCF_MOD_CONFIG 12.

(** SSL retry *)
Definition SCF_SSL_ERR_SSL : Z := SCF_ERRNO_MAKE SCF_SUBMOD_SSL_RETRY 1.
Definition SCF_SSL_ERR_WANT_READ : Z := SCF_ERRNO_MAKE SCF_SUBMOD_SSL_RETRY 2.
Definition SCF_SSL_ERR_WANT_WRITE : Z := SCF_ERRNO_MAKE SCF_SUBMOD_SSL_RETRY 3.
Definition SCF_SSL_ERR_WANT_X509_LOOKUP : Z := SCF_ERRNO_MAKE SCF_SUBMOD_SSL_RETRY 4.
Definition SCF_SSL_ERR_SYSCALL : Z := SCF_ERRNO_MAKE SCF_SUBMOD_SSL_RETRY 5.
Definition SCF_SSL_ERR_ZERO_RETURN : Z := SCF_ERRNO_MAKE SCF_SUBMOD_SSL_RETRY 6.
Definition SCF_SSL_ERR_WANT_CONNECT : Z := SCF_ERRNO_MAKE SCF_SUBMOD_SSL_RETRY 7.
Definition SCF_SSL_ERR_WANT_ACCEPT : Z := SCF_ERRNO_MAKE SCF_SUBMOD_SSL_RETRY 8.
Definition SCF_SSL_ERR_WANT_ASYNC : Z := SCF_ERRNO_MAKE SCF_SUBMOD_SSL_RETRY 9.
Definition SCF_SSL_ERR_WANT_ASYNC_JOB : Z := SCF_ERRNO_MAKE SCF_SUBMOD_SSL_RETRY 10.
Definition SCF_SSL_ERR_WANT_CLIENT_HELLO_CB : Z := SCF_ERRNO_MAKE SCF_SUBMOD_SSL_RETRY 11.
Definition SCF_SSL_ERR_WANT_BACKEP : Z := SCF_ERRNO_MAKE SCF_SUBMOD_SSL_RETRY 12.

(** SSL *)
Definition SCF_SSL_ERR_FORMAT_TYPE : Z := SCF_ERRNO_MAKE SCF_SUBMOD_SSL 1.
Definition SCF_SSL_ERR_STORE_TYPE : Z := SCF_ERRNO_MAKE SCF_SUBMOD_SSL 2.
Definition SCF_SSL_ERR_PARSE_CERT : Z := SCF_ERRNO_MAKE SCF_SUBMOD_SSL 3.
Definition SCF_SSL_ERR_ADD_CERT_TO_STORE : Z := SCF_ERRNO_MAKE SCF_SUBMOD_SSL 4.
Definition SCF_SSL_ERR_LOAD_KEY : Z := SCF_ERRNO_MAKE SCF_SUBMOD_SSL 5.
Definition SCF_SSL_ERR_PATH_TOO_LONG : Z := SCF_ERRNO_MAKE SCF_SUBMOD_SSL 6.
Definition SCF_SSL_ERR_CHECK_PKEY : Z := SCF_ERRNO_MAKE SCF_SUBMOD_SSL 7.
Definition SCF_SSL_ERR_ROLE : Z := SCF_ERRNO_MAKE SCF_SUBMOD_SSL 8.
Definition SCF_SSL_ERR_INIT_TLS13 : Z := SCF_ERRNO_MAKE SCF_SUBMOD_SSL 9.
Definition SCF_SSL_ERR_PSK_CB_HASH : Z := SCF_ERRNO_MAKE SCF_SUBMOD_SSL 10.
Definition SCF_SSL_ERR_GET_VERSION : Z := SCF_ERRNO_MAKE SCF_SUBMOD_SSL 11.
Definition SCF_SSL_ERR_PSK_MISMATCH : Z := SCF_ERRNO_MAKE SCF_SUBMOD_SSL 12.
Definition SCF_SSL_ERR_VERSION : Z := SCF_ERRNO_MAKE SCF_SUBMOD_SSL 13.
Definition SCF_SSL_ERR_POLICY_VERSION : Z := SCF_ERRNO_MAKE SCF_SUBMOD_SSL 14.
Definition SCF_SSL_ERR_SET_PASS : Z := SCF_ERRNO_MAKE SCF_SUBMOD_SSL 15.
Definition SCF_SSL_ERR_PARSE_KEY : Z := SCF_ERRNO_MAKE SCF_SUBMOD_SSL 16.
Definition SCF_SSL_ERR_LOAD_CRL : Z := SCF_ERRNO_MAKE SCF_SUBMOD_SSL 17.
Definition SCF_SSL_ERR_SET_ROLE : Z := SCF_ERRNO_MAKE SCF_SUBMOD_SSL 18.
Definition SCF_SSL_ERR_SESS_SET_CIPHER : Z := SCF_ERRNO_MAKE SCF_SUBMOD_SSL 19.
Definition SCF_SSL_ERR_SESS_SET_KEY : Z := SCF_ERRNO_MAKE SCF_SUBMOD_SSL 20.
Definition SCF_SSL_ERR_SESS_SET_PROTOCOL_VER : Z := SCF_ERRNO_MAKE SCF_SUBMOD_SSL 21.
Definition SCF_SSL_ERR_READ : Z := SCF_ERRNO_MAKE SCF_SUBMOD_SSL 22.
Definition SCF_SSL_ERR_WRITE : Z := SCF_ERRNO_MAKE SCF_SUBMOD_SSL 23.
Definition SCF_SSL_ERR_CLOSE : Z := SCF_ERRNO_MAKE SCF_SUBMOD_SSL 24.
Definition SCF_SSL_ERR_SET_CIPHER : Z := SCF_ERRNO_MAKE SCF_SUBMOD_SSL 25.
Definition SCF_SSL_ERR_SET_PROTOCOL_VER : Z := SCF_ERRNO_MAKE SCF_SUBMOD_SSL 26.
Definition SCF_SSL_ERR_SET_VER_FORBID : Z := SCF_ERRNO_MAKE SCF_SUBMOD_SSL 27.
Definition SCF_SSL_ERR_GET_CIPHER : Z := SCF_ERRNO_MAKE SCF_SUBMOD_SSL 28.
Definition SCF_SSL_ERR_ADD_CA_CERT_TO_STORE : Z := SCF_ERRNO_MAKE SCF_SUBMOD_SSL 29.
Definition SCF_SSL_ERR_ADD_EE_CERT_TO_STORE : Z := SCF_ERRNO_MAKE SCF_SUBMOD_SSL 30.
Definition SCF_SSL_ERR_ADD_CRL_TO_STORE : Z := SCF_ERRNO_MAKE SCF_SUBMOD_SSL 31.
Definition SCF_SSL_ERR_INIT_TLS : Z := SCF_ERRNO_MAKE SCF_SUBMOD_SSL 32.
Definition SCF_SSL_ERR_SET_SEC_LEVEL : Z := SCF_ERRNO_MAKE SCF_SUBMOD_SSL 33.
Definition SCF_SSL_ERR_SET_SESS_TICKET : Z := SCF_ERRNO_MAKE SCF_SUBMOD_SSL 34.
Definition SCF_SSL_ERR_SET_SOCKET_FD : Z := SCF_ERRNO_MAKE SCF_SUBMOD_SSL 35.
Definition SCF_SSL_ERR_SEC_LEVEL_MISMATCH : Z := SCF_ERRNO_MAKE SCF_SUBMOD_SSL 36.
Definition SCF_SSL_ERR_GET_CERT_STORE : Z := SCF_ERRNO_MAKE SCF_SUBMOD_SSL 37.
Definition SCF_SSL_ERR_KEY_UPDATE : Z := SCF_ERRNO_MAKE SCF_SUBMOD_SSL 38.
Definition SCF_SSL_ERR_IS_INIT_FINISHED : Z := SCF_ERRNO_MAKE SCF_SUBMOD_SSL 39.
Definition SCF_SSL_ERR_SET_UPDATE_PARAM : Z := SCF_ERRNO_MAKE SCF_SUBMOD_SSL 40.
Definition SCF_SSL_ERR_SET_CRL_CHECK_FLAGS : Z := SCF_ERRNO_MAKE SCF_SUBMOD_SSL 41.
Definition SCF_SSL_ERR_LOAD_CA_CERT_CHAIN : Z := SCF_ERRNO_MAKE SCF_SUBMOD_SSL 42.
Definition SCF_SSL_ERR_ADD_EE_CHAIN_TO_STORE : Z := SCF_ERRNO_MAKE SCF_SUBMOD_SSL 43.
Definition SCF_SSL_ERR_X509_VERIFY_CHAIN : Z := SCF_ERRNO_MAKE SCF_SUBMOD_SSL 44.
Definition SCF_SSL_ERR_SET_EX_DATA : Z := SCF_ERRNO_MAKE SCF_SUBMOD_SSL 45.
Definition SCF_SSL_ERR_SESS_GET_CIPHER : Z := SCF_ERRNO_MAKE SCF_SUBMOD_SSL 46.
Definition SCF_SSL_ERR_SESS_GET_PROTOCOL_VER : Z := SCF_ERRNO_MAKE SCF_SUBMOD_SSL 47.
Definition SCF_SSL_ERR_CERT_EXT_ABSENT : Z := SCF_ERRNO_MAKE SCF_SUBMOD_SSL 48.

(** Every code the header declares, in its order. *)
Definition all_errno : list Z :=
  [SCF_ERRNO_NULL_INPUT;
   SCF_ERRNO_INVALID_PARAM;
   SCF_ERRNO_MEM_ALLOC;
   SCF_ERRNO_MEM_CPY;
   SCF_ERRNO_NOT_SUPPORT;
   SCF_ERRNO_INIT_BSM;
   SCF_ERRNO_LARGE_FILE;
   SCF_ERRNO_SYSTEM_TIME_ERROR;
   SCF_ERRNO_FILE_PATH_ERROR;
   SCF_ERRNO_READ_FILE_ERROR;
   SCF_ERRNO_RBAC_DISABLED;
   SCF_ERRNO_RBAC_DENIED;
   SCF_ERRNO_RBAC_ROLE_UNKNOWN;
   SCF_ERRNO_RBAC_NODE_ID_EMPTY;
   SCF_ERRNO_RBAC_MAP_FULL;
   SCF_ERRNO_RBAC_MAP_NOT_FOUND;
   SCF_ERRNO_CERT_NODE_ID_ABSENT;
   SCF_ERRNO_CERT_ROLE_EXT_ABSENT;
   SCF_ERRNO_RBAC_POLICY_NOT_FOUND;
   SCF_ERRNO_RBAC_POLICY_FULL;
   SCF_ERRNO_RBAC_POLICY_DUPLICATE;
   SCF_ERRNO_RBAC_POLICY_INVALID;
   SCF_ERRNO_RBAC_MAP_FROZEN;
   SCF_ERRNO_INIT_HITLS_BSL;
   SCF_ERRNO_INIT_HITLS_CRYPTO;
   SCF_ERRNO_INIT_HITLS_TLS;
   SCF_ERRNO_NULL_HITLS_CTX;
   SCF_ERRNO_NULL_HITLS_CFG;
   SCF_ERRNO_SECURE_TRANSPORT;
   SCF_ERRNO_INIT_OPENSSL;
   SCF_ERRNO_INIT_OPENSSL_ERR;
   SCF_ERRNO_INIT_OPENSSL_CRYPTO;
   SCF_ERRNO_INIT_OPENSSL_ALGO;
   SCF_ERRNO_NULL_CALLBACK;
   SCF_ERRNO_TLS_ALREADY_INIT;
   SCF_ERRNO_INVALID_TLS_TYPE;
   SCF_ERRNO_LOAD_LIB;
   SCF_ERRNO_UNLOAD_LIB;
   SCF_ERRNO_LOAD_SYMBOL;
   SCF_ERRNO_INIT_HITLS_PSE;
   SCF_ERRNO_INIT_SECUREC;
   SCF_ERRNO_NOT_INIT;
   SCF_CFG_ERRNO_PARSE;
   SCF_CFG_ERRNO_CERT_ARRAY_GET;
   SCF_CFG_ERRNO_CERT_ITEM_GET;
   SCF_CFG_ERRNO_CERT_ADD;
   SCF_CFG_ERRNO_PRIVKEY_GET;
   SCF_CFG_ERRNO_PRIVKEY_ADD;
   SCF_CFG_ERRNO_CIPHER_SUITES_ARRAY_GET;
   SCF_CFG_ERRNO_CIPHER_SUITES_ITEM_GET;
   SCF_CFG_ERRNO_TLS_VERSION_GET;
   SCF_CFG_ERRNO_TLS_VERSION_SET;
   SCF_CFG_ERRNO_TLS_FORBID_VERSION_GET;
   SCF_CFG_ERRNO_KEY_UPDATE;
   SCF_SSL_ERR_SSL;
   SCF_SSL_ERR_WANT_READ;
   SCF_SSL_ERR_WANT_WRITE;
   SCF_SSL_ERR_WANT_X509_LOOKUP;
   SCF_SSL_ERR_SYSCALL;
   SCF_SSL_ERR_ZERO_RETURN;
   SCF_SSL_ERR_WANT_CONNECT;
   SCF_SSL_ERR_WANT_ACCEPT;
   SCF_SSL_ERR_WANT_ASYNC;
   SCF_SSL_ERR_WANT_ASYNC_JOB;
   SCF_SSL_ERR_WANT_CLIENT_HELLO_CB;
   SCF_SSL_ERR_WANT_BACKEP;
   SCF_SSL_ERR_FORMAT_TYPE;
   SCF_SSL_ERR_STORE_TYPE;
   SCF_SSL_ERR_PARSE_CERT;
   SCF_SSL_ERR_ADD_CERT_TO_STORE;
   SCF_SSL_ERR_LOAD_KEY;
   SCF_SSL_ERR_PATH_TOO_LONG;
   SCF_SSL_ERR_CHECK_PKEY;
   SCF_SSL_ERR_ROLE;
   SCF_SSL_ERR_INIT_TLS13;
   SCF_SSL_ERR_PSK_CB_HASH;
   SCF_SSL_ERR_GET_VERSION;
   SCF_SSL_ERR_PSK_MISMATCH;
   SCF_SSL_ERR_VERSION;
   SCF_SSL_ERR_POLICY_VERSION;
   SCF_SSL_ERR_SET_PASS;
   SCF_SSL_ERR_PARSE_KEY;
   SCF_SSL_ERR_LOAD_CRL;
   SCF_SSL_ERR_SET_ROLE;
   SCF_SSL_ERR_SESS_SET_CIPHER;
   SCF_SSL_ERR_SESS_SET_KEY;
   SCF_SSL_ERR_SESS_SET_PROTOCOL_VER;
   SCF_SSL_ERR_READ;
   SCF_SSL_ERR_WRITE;
   SCF_SSL_ERR_CLOSE;
   SCF_SSL_ERR_SET_CIPHER;
   SCF_SSL_ERR_SET_PROTOCOL_VER;
   SCF_SSL_ERR_SET_VER_FORBID;
   SCF_SSL_ERR_GET_CIPHER;
   SCF_SSL_ERR_ADD_CA_CERT_TO_STORE;
   SCF_SSL_ERR_ADD_EE_CERT_TO_STORE;
   SCF_SSL_ERR_ADD_CRL_TO_STORE;
   SCF_SSL_ERR_INIT_TLS;
   SCF_SSL_ERR_SET_SEC_LEVEL;
   SCF_SSL_ERR_SET_SESS_TICKET;
   SCF_SSL_ERR_SET_SOCKET_FD;
   SCF_SSL_ERR_SEC_LEVEL_MISMATCH;
   SCF_SSL_ERR_GET_CERT_STORE;
   SCF_SSL_ERR_KEY_UPDATE;
   SCF_SSL_ERR_IS_INIT_FINISHED;
   SCF_SSL_ERR_SET_UPDATE_PARAM;
   SCF_SSL_ERR_SET_CRL_CHECK_FLAGS;
   SCF_SSL_ERR_LOAD_CA_CERT_CHAIN;
   SCF_SSL_ERR_ADD_EE_CHAIN_TO_STORE;
   SCF_SSL_ERR_X509_VERIFY_CHAIN;
   SCF_SSL_ERR_SET_EX_DATA;
   SCF_SSL_ERR_SESS_GET_CIPHER;
   SCF_SSL_ERR_SESS_GET_PROTOCOL_VER;
   SCF_SSL_ERR_CERT_EXT_ABSENT].

Definition ERROR_MSG_SIZE : Z := 64.

Definition errorMap : list (Z * string) :=
  [(SCF_ERRNO_NULL_INPUT, "Null input"%string);
   (SCF_ERRNO_INVALID_PARAM, "Invalid param"%string);
   (SCF_ERRNO_MEM_ALLOC, "Memory alloc error"%string);
   (SCF_ERRNO_MEM_CPY, "Memory copy error"%string);
   (SCF_ERRNO_NOT_SUPPORT, "Not support"%string);
   (SCF_ERRNO_INIT_BSM, "Init BSM errorr"%string);
   (SCF_ERRNO_LARGE_FILE, "Reading large file error"%string);
   (SCF_ERRNO_SYSTEM_TIME_ERROR, "System time error"%string);
   (SCF_ERRNO_FILE_PATH_ERROR, "File path error"%string);
   (SCF_ERRNO_READ_FILE_ERROR, "Read file error"%string);
   (SCF_ERRNO_RBAC_DISABLED, "RBAC is disabled"%string);
   (SCF_ERRNO_RBAC_DENIED, "RBAC access is denied"%string);
   (SCF_ERRNO_RBAC_ROLE_UNKNOWN, "RBAC node role is unknown"%string);
   (SCF_ERRNO_RBAC_MAP_FULL, "RBAC node role mapping is full"%string);
   (SCF_ERRNO_RBAC_MAP_NOT_FOUND, "RBAC node role mapping is not found"%string);
   (SCF_ERRNO_CERT_NODE_ID_ABSENT, "RBAC certificate node ID extension is absent"%string);
   (SCF_ERRNO_CERT_ROLE_EXT_ABSENT, "RBAC certificate role extension is absent"%string);
   (SCF_ERRNO_RBAC_MAP_FROZEN, "RBAC node role mapping is frozen"%string);
   (SCF_ERRNO_RBAC_POLICY_NOT_FOUND, "RBAC policy rule is not found"%string);
   (SCF_ERRNO_RBAC_POLICY_FULL, "RBAC policy rule capacity or ID space is exhausted"%string);
   (SCF_ERRNO_RBAC_POLICY_DUPLICATE, "RBAC policy rule is duplicated or conflicting"%string);
   (SCF_ERRNO_RBAC_POLICY_INVALID, "RBAC policy rule is invalid"%string);
   (SCF_ERRNO_INIT_HITLS_BSL, "Init HiTLS bsl error"%string);
   (SCF_ERRNO_INIT_HITLS_CRYPTO, "Init HiTLS crypto error"%string);
   (SCF_ERRNO_INIT_HITLS_TLS, "Init HiTLS TLS error"%string);
   (SCF_ERRNO_NULL_HITLS_CTX, "HiTLS CTX is null"%string);
   (SCF_ERRNO_NULL_HITLS_CFG, "HiTLS CFG is null"%string);
   (SCF_ERRNO_SECURE_TRANSPORT, "Secure transport error"%string);
   (SCF_ERRNO_INIT_OPENSSL, "Init OpenSSL lib error"%string);
   (SCF_ERRNO_INIT_OPENSSL_ERR, "Load OpenSSL error sting  error"%string);
   (SCF_ERRNO_INIT_OPENSSL_CRYPTO, "Init OpenSSL crypto error"%string);
   (SCF_ERRNO_INIT_OPENSSL_ALGO, "Init OpenSSL algo error"%string);
   (SCF_ERRNO_NULL_CALLBACK, "Callback function is null"%string);
   (SCF_ERRNO_TLS_ALREADY_INIT, "TLS already initialized"%string);
   (SCF_ERRNO_INVALID_TLS_TYPE, "Invalid TLS type"%string);
   (SCF_ERRNO_LOAD_LIB, "Failed to load library"%string);
   (SCF_ERRNO_UNLOAD_LIB, "Failed to unload library"%string);
   (SCF_ERRNO_LOAD_SYMBOL, "Failed to load symbol"%string);
   (SCF_ERRNO_INIT_HITLS_PSE, "Init Hitls pse error"%string);
   (SCF_ERRNO_INIT_SECUREC, "Init securec error"%string);
   (SCF_ERRNO_NOT_INIT, "System not initialize"%string);
   (SCF_CFG_ERRNO_PARSE, "CFG parse error"%string);
   (SCF_CFG_ERRNO_CERT_ARRAY_GET, "CFG cert array get error"%string);
   (SCF_CFG_ERRNO_CERT_ITEM_GET, "CFG cert item get error"%string);
   (SCF_CFG_ERRNO_CERT_ADD, "CFG cert add error"%string);
   (SCF_CFG_ERRNO_PRIVKEY_GET, "CFG private key get error"%string);
   (SCF_CFG_ERRNO_PRIVKEY_ADD, "CFG private key add error"%string);
   (SCF_CFG_ERRNO_CIPHER_SUITES_ARRAY_GET, "CFG cipher suites array get error"%string);
   (SCF_CFG_ERRNO_CIPHER_SUITES_ITEM_GET, "CFG cipher suites item get error"%string);
   (SCF_CFG_ERRNO_TLS_VERSION_GET, "CFG TLS version get error"%string);
   (SCF_CFG_ERRNO_TLS_VERSION_SET, "CFG TLS version set error"%string);
   (SCF_CFG_ERRNO_TLS_FORBID_VERSION_GET, "CFG forbidden TLS version get error"%string);
   (SCF_CFG_ERRNO_KEY_UPDATE, "CFG key update error"%string);
   (SCF_SSL_ERR_SSL, "SSL error"%string);
   (SCF_SSL_ERR_WANT_READ, "SSL want read error"%string);
   (SCF_SSL_ERR_WANT_WRITE, "SSL want write error"%string);
   (SCF_SSL_ERR_WANT_X509_LOOKUP, "SSL want X509 lookup error"%string);
   (SCF_SSL_ERR_SYSCALL, "SSL syscall error"%string);
   (SCF_SSL_ERR_ZERO_RETURN, "SSL zero return error"%string);
   (SCF_SSL_ERR_WANT_CONNECT, "SSL want connect error"%string);
   (SCF_SSL_ERR_WANT_ACCEPT, "SSL want accept error"%string);
   (SCF_SSL_ERR_WANT_ASYNC, "SSL want async error"%string);
   (SCF_SSL_ERR_WANT_ASYNC_JOB, "SSL want async job error"%string);
   (SCF_SSL_ERR_WANT_CLIENT_HELLO_CB, "SSL want client hello callback error"%string);
   (SCF_SSL_ERR_WANT_BACKEP, "SSL want back ep error"%string);
   (SCF_SSL_ERR_FORMAT_TYPE, "SSL format type error"%string);
   (SCF_SSL_ERR_STORE_TYPE, "SSL store type error"%string);
   (SCF_SSL_ERR_PARSE_CERT, "SSL parse certificate error"%string);
   (SCF_SSL_ERR_ADD_CERT_TO_STORE, "SSL add certificate to store error"%string);
   (SCF_SSL_ERR_LOAD_KEY, "SSL load key error"%string);
   (SCF_SSL_ERR_PATH_TOO_LONG, "SSL path too long error"%string);
   (SCF_SSL_ERR_CHECK_PKEY, "SSL check private key error"%string);
   (SCF_SSL_ERR_ROLE, "SSL role error"%string);
   (SCF_SSL_ERR_INIT_TLS13, "SSL initialize TLS 1.3 error"%string);
   (SCF_SSL_ERR_PSK_CB_HASH, "SSL PSK callback hash error"%string);
   (SCF_SSL_ERR_GET_VERSION, "SSL get version error"%string);
   (SCF_SSL_ERR_PSK_MISMATCH, "SSL PSK mismatch"%string);
   (SCF_SSL_ERR_VERSION, "SSL version error"%string);
   (SCF_SSL_ERR_POLICY_VERSION, "SSL policy version error"%string);
   (SCF_SSL_ERR_SET_PASS, "SSL set password error"%string);
   (SCF_SSL_ERR_PARSE_KEY, "SSL parse key error"%string);
   (SCF_SSL_ERR_LOAD_CRL, "SSL load CRL error"%string);
   (SCF_SSL_ERR_SET_ROLE, "SSL set role error"%string);
   (SCF_SSL_ERR_SESS_SET_CIPHER, "SSL session set cipher error"%string);
   (SCF_SSL_ERR_SESS_SET_KEY, "SSL session set key error"%string);
   (SCF_SSL_ERR_SESS_SET_PROTOCOL_VER, "SSL session set protocol version error"%string);
   (SCF_SSL_ERR_READ, "SSL read error"%string);
   (SCF_SSL_ERR_WRITE, "SSL write error"%string);
   (SCF_SSL_ERR_CLOSE, "SSL close error"%string);
   (SCF_SSL_ERR_SET_CIPHER, "SSL set cipher error"%string);
   (SCF_SSL_ERR_SET_PROTOCOL_VER, "SSL set protocol version error"%string);
   (SCF_SSL_ERR_SET_VER_FORBID, "SSL set forbidden version error"%string);
   (SCF_SSL_ERR_GET_CIPHER, "SSL get cipher error"%string);
   (SCF_SSL_ERR_ADD_CA_CERT_TO_STORE, "SSL add CA certificate to store error"%string);
   (SCF_SSL_ERR_ADD_EE_CERT_TO_STORE, "SSL add EE certificate to store error"%string);
   (SCF_SSL_ERR_ADD_CRL_TO_STORE, "SSL add CRL to store error"%string);
   (SCF_SSL_ERR_INIT_TLS, "SSL initialize TLS error"%string);
   (SCF_SSL_ERR_SET_SEC_LEVEL, "SSL set security level error"%string);
   (SCF_SSL_ERR_SET_SESS_TICKET, "SSL set session ticket error"%string);
   (SCF_SSL_ERR_SET_SOCKET_FD, "SSL set socket file descriptor error"%string);
   (SCF_SSL_ERR_SEC_LEVEL_MISMATCH, "SSL security level mismatch error"%string);
   (SCF_SSL_ERR_GET_CERT_STORE, "SSL get certificate store error"%string);
   (SCF_SSL_ERR_KEY_UPDATE, "SSL key update error"%string);
   (SCF_SSL_ERR_IS_INIT_FINISHED, "SSL is initialization finished error"%string);
   (SCF_SSL_ERR_SET_UPDATE_PARAM, "SSL set update parameter error"%string);
   (SCF_SSL_ERR_SET_CRL_CHECK_FLAGS, "SSL set CRL check flags error"%string);
   (SCF_SSL_ERR_LOAD_CA_CERT_CHAIN, "SSL load CA certificate chain error"%string);
   (SCF_SSL_ERR_ADD_EE_CHAIN_TO_STORE, "SSL add EE chain to store error"%string);
   (SCF_SSL_ERR_X509_VERIFY_CHAIN, "X509 certificate chain verification error"%string);
   (SCF_SSL_ERR_SET_EX_DATA, "SSL set extra data error"%string);
   (SCF_SSL_ERR_SESS_GET_CIPHER, "SSL session get cipher error"%string);
   (SCF_SSL_ERR_SESS_GET_PROTOCOL_VER, "SSL session get protocol version error"%string);
   (SCF_SSL_ERR_CERT_EXT_ABSENT, "SSL certificate extension is absent"%string)].

Definition UNKNOWN_ERROR : string := "Unknown error code."%string.

Definition GetErrorMessageInternal (errorCode : Z) : string :=
  match OMap.find errorCode errorMap with
  | Some msg => msg
  | None => UNKNOWN_ERROR
  end.

(** [GetErrorMessage] works on a static buffer: the function takes its cells
    and returns the new cells with the returned pointer ([None] = [nullptr]). *)
Section message.
Context `{SecureC}.

Definition GetErrorMessage (buffer : list ascii) (errorCode : Z)
  : list ascii * option string :=
  let errorMessageCpp := GetErrorMessageInternal errorCode in
  let '(ret, buffer1) :=
    strncpy_s buffer ERROR_MSG_SIZE (cstr errorMessageCpp) (ERROR_MSG_SIZE - 1) in
  return_if negb (ret =? EOK) with (buffer1, None) ;;
  let buffer2 := <[Z.to_nat (ERROR_MSG_SIZE - 1) := NUL]> buffer1 in
  (buffer2, Some (buf_cstr buffer2)).
End message.

(** ** Structure of the codes *)

(** The module and the reason a code carries, read back from its bits. *)
Definition errno_module (code : Z) : Z := Z.land (Z.shiftr code 8) 0xFFFF.
Definition errno_reason (code : Z) : Z := Z.land code 0xFF.

Lemma small_testbit x n i : 0 <= x < 2 ^ n -> n <= i -> Z.testbit x i = false.
Proof.
  intros Hx Hi. destruct (decide (x = 0)) as [->|]; [apply Z.testbit_0_l|].
  apply Z.bits_above_log2; [lia|].
  apply Z.lt_le_trans with n; [|done]. apply Z.log2_lt_pow2; lia.
Qed.

Lemma testbit_ones n i : 0 <= n -> Z.testbit (Z.ones n) i = bool_decide (0 <= i < n).
Proof.
  intros. destruct (decide (0 <= i < n)).
  - rewrite bool_decide_eq_true_2 by lia. apply Z.ones_spec_low. lia.
  - rewrite bool_decide_eq_false_2 by lia. destruct (decide (i < 0)).
    + apply Z.testbit_neg_r. lia.
    + apply Z.ones_spec_high. lia.
Qed.

Lemma project_id_low i : i < 24 -> Z.testbit SCF_PROJECT_ID i = false.
Proof.
  intros. replace SCF_PROJECT_ID with (Z.shiftl 0x75 24) by reflexivity.
  destruct (decide (i < 0)); [by apply Z.testbit_neg_r|].
  rewrite Z.shiftl_spec by lia. apply Z.testbit_neg_r. lia.
Qed.

(** The module and the reason of an error code are recovered from the code
    for every 16-bit module number and every reason below 256. *)
Theorem errno_roundtrip m e :
  0 <= m < 2 ^ 16 -> 0 <= e < 2 ^ 8 ->
  errno_module (SCF_ERRNO_MAKE (SCF_MOD_MAKE m) e) = m /\
  errno_reason (SCF_ERRNO_MAKE (SCF_MOD_MAKE m) e) = e.
Proof.
  intros Hm He.
  assert (Hw : wrap32 (Z.shiftl m 8) = Z.shiftl m 8).
  { apply wrap32_id. unfold is_u32, UINT32_MAX. rewrite Z.shiftl_mul_pow2 by lia. lia. }
  unfold errno_module, errno_reason, SCF_ERRNO_MAKE, SCF_MOD_MAKE. rewrite Hw.
  split; apply Z.bits_inj'; intros i Hi.
  - rewrite Z.land_spec, Z.shiftr_spec, !Z.lor_spec, Z.shiftl_spec by lia.
    replace 0xFFFF with (Z.ones 16) by reflexivity. rewrite testbit_ones by lia.
    rewrite (small_testbit e 8) by lia.
    replace (i + 8 - 8) with i by lia.
    case_bool_decide.
    + rewrite project_id_low by lia. by rewrite andb_true_r, orb_false_r.
    + rewrite (small_testbit m 16) by lia. by rewrite andb_false_r.
  - rewrite Z.land_spec, !Z.lor_spec, Z.shiftl_spec by lia.
    replace 0xFF with (Z.ones 8) by reflexivity. rewrite testbit_ones by lia.
    case_bool_decide.
    + rewrite project_id_low by lia. rewrite (Z.testbit_neg_r m) by lia.
      by rewrite andb_true_r.
    + rewrite (small_testbit e 8) by lia. by rewrite andb_false_r.
Qed.

Lemma errno_roundtrip_witness :
  (0 <= 0x30 < 2 ^ 16 /\ 0 <= 13 < 2 ^ 8) /\
  errno_module (SCF_ERRNO_MAKE (SCF_MOD_MAKE 0x30) 13) = 0x30 /\
  errno_reason (SCF_ERRNO_MAKE (SCF_MOD_MAKE 0x30) 13) = 13.
Proof. split; [lia|]. apply (errno_roundtrip 0x30 13); lia. Defined.

Fixpoint Zmem (x : Z) (l : list Z) : bool :=
  match l with [] => false | y :: l' => (x =? y) || Zmem x l' end.

Fixpoint Zdistinct (l : list Z) : bool :=
  match l with [] => true | x :: l' => negb (Zmem x l') && Zdistinct l' end.

Lemma Zmem_spec x l : Zmem x l = true <-> x ∈ l.
Proof.
  induction l as [|y l IH]; simpl; [by rewrite elem_of_nil|].
  rewrite orb_true_iff, Z.eqb_eq, IH, elem_of_cons. done.
Qed.

Lemma Zdistinct_spec l : Zdistinct l = true -> NoDup l.
Proof.
  induction l as [|x l IH]; simpl; [constructor|].
  rewrite andb_true_iff, negb_true_iff. intros [H1 H2]. constructor; [|auto].
  rewrite <- Zmem_spec. by rewrite H1.
Qed.

(** No two error codes coincide, none is [SCF_SUCCESS] or [SCF_ERROR], and
    every one is a positive [int32_t] of the project, so returning one through
    [int32_t] never turns it into success or into another error. *)
Theorem errno_distinct :
  NoDup (SCF_SUCCESS :: SCF_ERROR :: all_errno) /\
  Forall (fun c => 0x75000000 < c <= INT32_MAX /\ to_int32 c = c) all_errno.
Proof.
  split; [apply Zdistinct_spec; vm_compute; reflexivity|].
  assert (H : forallb (fun c => (0x75000000 <? c) && (c <=? INT32_MAX) && (to_int32 c =? c))
                all_errno = true) by (vm_compute; reflexivity).
  apply Forall_forall. intros c Hc. apply list_elem_of_In in Hc.
  apply (proj1 (forallb_forall _ _) H) in Hc. bools. lia.
Qed.

Lemma errorMap_msgs :
  Forall (fun m => slen m.2 <= ERROR_MSG_SIZE - 1 /\ has_nul m.2 = false) errorMap.
Proof.
  assert (H : forallb (fun m => (slen m.2 <=? ERROR_MSG_SIZE - 1) && negb (has_nul m.2))
                errorMap = true) by (vm_compute; reflexivity).
  apply Forall_forall. intros m Hm. apply list_elem_of_In in Hm.
  apply (proj1 (forallb_forall _ _) H) in Hm. bools. done.
Qed.

Lemma message_fits e :
  slen (GetErrorMessageInternal e) <= ERROR_MSG_SIZE - 1 /\
  has_nul (GetErrorMessageInternal e) = false.
Proof.
  unfold GetErrorMessageInternal. destruct (OMap.find e errorMap) eqn:E.
  - apply OMap.find_elem in E.
    by apply (proj1 (Forall_forall _ _) errorMap_msgs) in E.
  - split; [vm_compute; congruence | reflexivity].
Qed.

Lemma buf_cstr_insert s rest i :
  has_nul s = false -> (String.length s <= i)%nat ->
  buf_cstr (<[i := NUL]> (bytes s ++ NUL :: rest)) = s.
Proof.
  intros Hn Hi. destruct (decide (i = String.length s)) as [->|].
  - rewrite insert_app_r_alt by (rewrite length_bytes; lia).
    rewrite length_bytes, Nat.sub_diag. simpl. by apply buf_cstr_app.
  - rewrite insert_app_r_alt by (rewrite length_bytes; lia). rewrite length_bytes.
    destruct (i - String.length s)%nat eqn:E; [lia|]. simpl. by apply buf_cstr_app.
Qed.

(** [GetErrorMessage] never fails and never truncates: on its 64-byte static
    buffer it returns, for every code, the exact message of the table (or the
    unknown-code text), and the buffer keeps its size. *)
Theorem GetErrorMessage_exact `{SecureC} buffer e :
  Z.of_nat (length buffer) = ERROR_MSG_SIZE ->
  (GetErrorMessage buffer e).2 = Some (GetErrorMessageInternal e) /\
  Z.of_nat (length (GetErrorMessage buffer e).1) = ERROR_MSG_SIZE.
Proof.
  intros Hlen. destruct (message_fits e) as [Hs Hn].
  unfold GetErrorMessage. set (msg := GetErrorMessageInternal e) in *.
  pose proof (slen_nonneg msg).
  assert (Hsn : strnlen msg (ERROR_MSG_SIZE - 1) = slen msg) by (unfold strnlen; lia).
  rewrite (cstr_no_nul _ Hn).
  rewrite strncpy_s_ok; [|unfold ERROR_MSG_SIZE, SECUREC_MEM_MAX_LEN in *; lia..|done].
  rewrite Hsn. replace (Z.to_nat (slen msg)) with (String.length msg) by (unfold slen; lia).
  rewrite take_ge by (rewrite length_bytes; lia). simpl. split.
  - f_equal. apply buf_cstr_insert; [done|]. unfold slen, ERROR_MSG_SIZE in *. lia.
  - rewrite length_insert, length_app, length_bytes. simpl. rewrite length_drop.
    unfold slen, ERROR_MSG_SIZE in *. lia.
Qed.

Lemma GetErrorMessage_exact_witness :
  Z.of_nat (length (replicate 64 NUL)) = ERROR_MSG_SIZE /\
  (GetErrorMessage (replicate 64 NUL) SCF_ERRNO_RBAC_DENIED).2
  = Some (GetErrorMessageInternal SCF_ERRNO_RBAC_DENIED) /\
  Z.of_nat (length (GetErrorMessage (replicate 64 NUL) SCF_ERRNO_RBAC_DENIED).1)
  = ERROR_MSG_SIZE.
Proof.
  split; [reflexivity|].
  apply (GetErrorMessage_exact (replicate 64 NUL) SCF_ERRNO_RBAC_DENIED). reflexivity.
Defined.

(** Exactly one declared code, [SCF_ERRNO_RBAC_NODE_ID_EMPTY], has no message:
    every other code has an entry of its own in [errorMap], and the table has no
    entry twice. *)
Theorem errorMap_complete :
  NoDup errorMap.*1 /\
  forall e, e ∈ all_errno ->
    (is_Some (OMap.find e errorMap) <-> e <> SCF_ERRNO_RBAC_NODE_ID_EMPTY).
Proof.
  split; [apply Zdistinct_spec; vm_compute; reflexivity|].
  intros e He. apply list_elem_of_In in He.
  assert (H : forallb (fun c => Bool.eqb (match OMap.find c errorMap with
      Some _ => true | None => false end) (negb (c =? SCF_ERRNO_RBAC_NODE_ID_EMPTY)))
      all_errno = true) by (vm_compute; reflexivity).
  apply (proj1 (forallb_forall _ _) H) in He. apply Bool.eqb_prop in He.
  clear H. rewrite <- Z.eqb_neq. revert He. generalize (e =? SCF_ERRNO_RBAC_NODE_ID_EMPTY).
  intros b. destruct (OMap.find e errorMap) as [msg|]; intros He.
  - split; intros; [by destruct b|by exists msg].
  - split; [by intros [? ?]|]. intros ->. discriminate He.
Qed.

Lemma errorMap_complete_witness :
  SCF_ERRNO_RBAC_DENIED ∈ all_errno /\
  (is_Some (OMap.find SCF_ERRNO_RBAC_DENIED errorMap) <->
   SCF_ERRNO_RBAC_DENIED <> SCF_ERRNO_RBAC_NODE_ID_EMPTY).
Proof.
  assert (Hin : SCF_ERRNO_RBAC_DENIED ∈ all_errno)
    by (apply Zmem_spec; vm_compute; reflexivity).
  split; [exact Hin|]. exact (proj2 errorMap_complete _ Hin).
Defined.
