(* ===== verification/Types.v ===== *)
(** * Shared data: enumerations, limits, structures

    [src/include/scf_def.h], [src/common/constant/constant_def.h] and the structures
    of [src/common/utils/scf_inner.h]. A C enumeration is a plain integer, because
    the handlers receive and test values outside the enumerators. *)
From Stdlib Require Import ZArith Lia Ascii String.
From stdpp Require Import base list fin_maps gmap strings.
From S2P Require Import Prelude.
Open Scope Z_scope.

Definition nullptr : Z := 0.

(** ** Enumerations *)
Definition SCF_INIT_FLAG_OPENSSL : Z := 1.
Definition SCF_CRYPT_MD_UNKNOWN : Z := 0.
Definition SCF_CRYPT_MD_SHA256 : Z := 10006.
Definition SCF_CRYPT_MD_SHA384 : Z := 10007.
Definition MAX_NODE_ID_LEN : Z := 128.
Definition SCF_SSL_VERSION_TLS12 : Z := 0x0303.
Definition SCF_SSL_VERSION_TLS13 : Z := 0x0304.
Definition SCF_SSL_VERSION_TLS12_STR : string := "TLSv1.2".
Definition SCF_SSL_VERSION_TLS13_STR : string := "TLSv1.3".

(** [SCF_SSL_CipherSuite] *)
Definition SCF_SSL_ECDHE_ECDSA_WITH_AES_128_GCM_SHA256 : Z := 0xC02B.
Definition SCF_SSL_ECDHE_ECDSA_WITH_AES_256_GCM_SHA384 : Z := 0xC02C.
Definition SCF_SSL_ECDHE_RSA_WITH_AES_128_GCM_SHA256 : Z := 0xC02F.
Definition SCF_SSL_ECDHE_RSA_WITH_AES_256_GCM_SHA384 : Z := 0xC030.
Definition SCF_SSL_ECDHE_RSA_WITH_CHACHA20_POLY1305_SHA256 : Z := 0xCCA8.
Definition SCF_SSL_ECDHE_ECDSA_WITH_CHACHA20_POLY1305_SHA256 : Z := 0xCCA9.
Definition SCF_SSL_AES_128_GCM_SHA256 : Z := 0x1301.
Definition SCF_SSL_AES_256_GCM_SHA384 : Z := 0x1302.
Definition SCF_SSL_CHACHA20_POLY1305_SHA256 : Z := 0x1303.
Definition SCF_SSL_AES_128_CCM_SHA256 : Z := 0x1304.

(** [SCF_ROLE] *)
Definition SCF_ROLE_NONE : Z := 0.
Definition SCF_ROLE_CLIENT : Z := 1.
Definition SCF_ROLE_SERVER : Z := 2.

(** [SCF_VERIFY_MODE] *)
Definition SCF_VERIFY_MODE_NONE : Z := 0.
Definition SCF_VERIFY_DEFAULT : Z := 1.
Definition SCF_VERIFY_CUSTOMER : Z := 2.
Definition SCF_VERIFY_PEER : Z := 4.
Definition SCF_VERIFY_FAIL_IF_NO_PEER_CERT : Z := 8.

(** [SCF_POLICY_MODE] *)
Definition SCF_POLICY_HIGH : Z := 0.
Definition SCF_POLICY_MIDDLE : Z := 1.
Definition SCF_POLICY_CUSTOMER : Z := 2.

(** [SCF_STORE_TYPE], [SCF_STORE_FORMAT], [SCF_CERT_TYPE] *)
Definition SCF_STORE_FILE_PATH : Z := 0.
Definition SCF_STORE_BUFFER : Z := 1.
Definition SCF_STORE_ERROR : Z := 2.
Definition SCF_STORE_FORMAT_PEM : Z := 0.
Definition SCF_CERT_TYPE_CA : Z := 0.
Definition SCF_CERT_TYPE_EE : Z := 1.
Definition SCF_CERT_TYPE_CRL : Z := 2.
Definition SCF_CERT_TYPE_EE_CHAIN : Z := 3.

(** [SCF_RBAC_ROLE], [SCF_RESOURCE_ACTION], [SCF_RBAC_ROLE_SOURCE] *)
Definition SCF_RBAC_ROLE_UNKNOWN : Z := 0.
Definition SCF_RBAC_ROLE_MASTER : Z := 1.
Definition SCF_RBAC_ROLE_SLAVE : Z := 2.
Definition SCF_RES_ACTION_UNKNOWN : Z := 0.
Definition SCF_RES_ACTION_APPLY : Z := 1.
Definition SCF_RES_ACTION_RELEASE : Z := 2.
Definition SCF_RBAC_ROLE_SRC_NONE : Z := 0.
Definition SCF_RBAC_ROLE_SRC_CERT : Z := 1.
Definition SCF_RBAC_ROLE_SRC_MAPPING : Z := 2.

(** [SCF_RESOURCE_TYPE], [SCF_POLICY_EFFECT] *)
Definition SCF_RES_TYPE_NONE : Z := 0.
Definition SCF_RES_TYPE_FD : Z := 1.
Definition SCF_RES_TYPE_NUMA : Z := 2.
Definition SCF_RES_TYPE_ADDR : Z := 4.
Definition SCF_RES_TYPE_ALL : Z := 7.
Definition SCF_POLICY_EFFECT_ALLOW : Z := 0.
Definition SCF_POLICY_EFFECT_DENY : Z := 1.

(** ** Limits of [constant_def.h] *)
Definition MAX_SERINALNUM_HEX_LEN : Z := 41.
Definition DEFAULT_KEY_UPDATE_TIME : Z := 3600.
Definition MIN_KEY_UPDATE_TIME : Z := 1.
Definition MAX_KEY_UPDATE_TIME : Z := 31536000.
Definition DEFAULT_KEY_UPDATE_TRAFFIC : Z := 1024 * 1024 * 1024.
Definition MIN_KEY_UPDATE_TRAFFIC : Z := 1000.
Definition MAX_KEY_UPDATE_TRAFFIC : Z := UINT64_MAX.
Definition MAX_FILE_SIZE : Z := 10 * 1024 * 1024.
Definition BUF_MAX_LEN : Z := MAX_FILE_SIZE.
Definition MAX_DATETIME_LEN : Z := 24.
Definition HEX_NUM_BYTES : Z := 2.
Definition CHAR_MASK_LOW_4BITS : Z := 0x0f.
Definition CHAR_MASK_HIGH_4BITS : Z := 0xf0.
Definition SCF_OID_NODE_ID : string := "1.3.6.1.4.1.2011.999.1".
Definition SCF_OID_RBAC_ROLE : string := "1.3.6.1.4.1.2011.999.2".
Definition MAX_NODE_ROLE_MAP_SIZE : Z := 4096.
Definition MAX_POLICY_RULE_SIZE : Z := 8192.
Definition PATH_MAX : Z := 4096.

(** ** Structures *)

(** A custom policy rule ([SCF_PolicyRule]). *)
Record SCF_PolicyRule : Type := mkPolicyRule {
  rule_ruleId : Z;
  rule_subjectNodeId : string;
  rule_targetNodeId : string;
  rule_resourceTypeBitmap : Z;
  rule_actionBitmap : Z;
  rule_effect : Z
}.
Definition set_rule_ruleId (v : Z) (x : SCF_PolicyRule) : SCF_PolicyRule :=
  mkPolicyRule v (rule_subjectNodeId x) (rule_targetNodeId x) (rule_resourceTypeBitmap x) (rule_actionBitmap x) (rule_effect x).

(** The policy context ([SCFPolicyCtx]). Handles ([sslConfig], callbacks) are
    addresses with 0 for [nullptr]; the two mutexes make each handler atomic on
    the tables they guard and carry no data. *)
Record SCFPolicyCtx : Type := mkPolicyCtx {
  ctx_refCnt : Z;
  ctx_sslConfig : Z;
  ctx_policyMode : Z;
  ctx_verifyMode : Z;
  ctx_role : Z;
  ctx_isSetRole : bool;
  ctx_pskFindSessionCb : Z;
  ctx_pskUseSessionCb : Z;
  ctx_isNeedKeyUpdate : bool;
  ctx_keyUpdateTime : Z;
  ctx_keyUpdateTraffic : Z;
  ctx_isNullVersion : bool;
  ctx_nodeRoleMap : gmap string Z;
  ctx_nodeRoleMapFrozen : bool;
  ctx_rbacEnabled : bool;
  ctx_policyRuleMap : list (Z * SCF_PolicyRule);
  ctx_nextPolicyRuleId : Z
}.
Definition set_ctx_refCnt (v : Z) (x : SCFPolicyCtx) : SCFPolicyCtx :=
  mkPolicyCtx v (ctx_sslConfig x) (ctx_policyMode x) (ctx_verifyMode x) (ctx_role x) (ctx_isSetRole x) (ctx_pskFindSessionCb x) (ctx_pskUseSessionCb x) (ctx_isNeedKeyUpdate x) (ctx_keyUpdateTime x) (ctx_keyUpdateTraffic x) (ctx_isNullVersion x) (ctx_nodeRoleMap x) (ctx_nodeRoleMapFrozen x) (ctx_rbacEnabled x) (ctx_policyRuleMap x) (ctx_nextPolicyRuleId x).
Definition set_ctx_sslConfig (v : Z) (x : SCFPolicyCtx) : SCFPolicyCtx :=
  mkPolicyCtx (ctx_refCnt x) v (ctx_policyMode x) (ctx_verifyMode x) (ctx_role x) (ctx_isSetRole x) (ctx_pskFindSessionCb x) (ctx_pskUseSessionCb x) (ctx_isNeedKeyUpdate x) (ctx_keyUpdateTime x) (ctx_keyUpdateTraffic x) (ctx_isNullVersion x) (ctx_nodeRoleMap x) (ctx_nodeRoleMapFrozen x) (ctx_rbacEnabled x) (ctx_policyRuleMap x) (ctx_nextPolicyRuleId x).
Definition set_ctx_policyMode (v : Z) (x : SCFPolicyCtx) : SCFPolicyCtx :=
  mkPolicyCtx (ctx_refCnt x) (ctx_sslConfig x) v (ctx_verifyMode x) (ctx_role x) (ctx_isSetRole x) (ctx_pskFindSessionCb x) (ctx_pskUseSessionCb x) (ctx_isNeedKeyUpdate x) (ctx_keyUpdateTime x) (ctx_keyUpdateTraffic x) (ctx_isNullVersion x) (ctx_nodeRoleMap x) (ctx_nodeRoleMapFrozen x) (ctx_rbacEnabled x) (ctx_policyRuleMap x) (ctx_nextPolicyRuleId x).
Definition set_ctx_verifyMode (v : Z) (x : SCFPolicyCtx) : SCFPolicyCtx :=
  mkPolicyCtx (ctx_refCnt x) (ctx_sslConfig x) (ctx_policyMode x) v (ctx_role x) (ctx_isSetRole x) (ctx_pskFindSessionCb x) (ctx_pskUseSessionCb x) (ctx_isNeedKeyUpdate x) (ctx_keyUpdateTime x) (ctx_keyUpdateTraffic x) (ctx_isNullVersion x) (ctx_nodeRoleMap x) (ctx_nodeRoleMapFrozen x) (ctx_rbacEnabled x) (ctx_policyRuleMap x) (ctx_nextPolicyRuleId x).
Definition set_ctx_role (v : Z) (x : SCFPolicyCtx) : SCFPolicyCtx :=
  mkPolicyCtx (ctx_refCnt x) (ctx_sslConfig x) (ctx_policyMode x) (ctx_verifyMode x) v (ctx_isSetRole x) (ctx_pskFindSessionCb x) (ctx_pskUseSessionCb x) (ctx_isNeedKeyUpdate x) (ctx_keyUpdateTime x) (ctx_keyUpdateTraffic x) (ctx_isNullVersion x) (ctx_nodeRoleMap x) (ctx_nodeRoleMapFrozen x) (ctx_rbacEnabled x) (ctx_policyRuleMap x) (ctx_nextPolicyRuleId x).
Definition set_ctx_isSetRole (v : bool) (x : SCFPolicyCtx) : SCFPolicyCtx :=
  mkPolicyCtx (ctx_refCnt x) (ctx_sslConfig x) (ctx_policyMode x) (ctx_verifyMode x) (ctx_role x) v (ctx_pskFindSessionCb x) (ctx_pskUseSessionCb x) (ctx_isNeedKeyUpdate x) (ctx_keyUpdateTime x) (ctx_keyUpdateTraffic x) (ctx_isNullVersion x) (ctx_nodeRoleMap x) (ctx_nodeRoleMapFrozen x) (ctx_rbacEnabled x) (ctx_policyRuleMap x) (ctx_nextPolicyRuleId x).
Definition set_ctx_pskFindSessionCb (v : Z) (x : SCFPolicyCtx) : SCFPolicyCtx :=
  mkPolicyCtx (ctx_refCnt x) (ctx_sslConfig x) (ctx_policyMode x) (ctx_verifyMode x) (ctx_role x) (ctx_isSetRole x) v (ctx_pskUseSessionCb x) (ctx_isNeedKeyUpdate x) (ctx_keyUpdateTime x) (ctx_keyUpdateTraffic x) (ctx_isNullVersion x) (ctx_nodeRoleMap x) (ctx_nodeRoleMapFrozen x) (ctx_rbacEnabled x) (ctx_policyRuleMap x) (ctx_nextPolicyRuleId x).
Definition set_ctx_pskUseSessionCb (v : Z) (x : SCFPolicyCtx) : SCFPolicyCtx :=
  mkPolicyCtx (ctx_refCnt x) (ctx_sslConfig x) (ctx_policyMode x) (ctx_verifyMode x) (ctx_role x) (ctx_isSetRole x) (ctx_pskFindSessionCb x) v (ctx_isNeedKeyUpdate x) (ctx_keyUpdateTime x) (ctx_keyUpdateTraffic x) (ctx_isNullVersion x) (ctx_nodeRoleMap x) (ctx_nodeRoleMapFrozen x) (ctx_rbacEnabled x) (ctx_policyRuleMap x) (ctx_nextPolicyRuleId x).
Definition set_ctx_isNeedKeyUpdate (v : bool) (x : SCFPolicyCtx) : SCFPolicyCtx :=
  mkPolicyCtx (ctx_refCnt x) (ctx_sslConfig x) (ctx_policyMode x) (ctx_verifyMode x) (ctx_role x) (ctx_isSetRole x) (ctx_pskFindSessionCb x) (ctx_pskUseSessionCb x) v (ctx_keyUpdateTime x) (ctx_keyUpdateTraffic x) (ctx_isNullVersion x) (ctx_nodeRoleMap x) (ctx_nodeRoleMapFrozen x) (ctx_rbacEnabled x) (ctx_policyRuleMap x) (ctx_nextPolicyRuleId x).
Definition set_ctx_keyUpdateTime (v : Z) (x : SCFPolicyCtx) : SCFPolicyCtx :=
  mkPolicyCtx (ctx_refCnt x) (ctx_sslConfig x) (ctx_policyMode x) (ctx_verifyMode x) (ctx_role x) (ctx_isSetRole x) (ctx_pskFindSessionCb x) (ctx_pskUseSessionCb x) (ctx_isNeedKeyUpdate x) v (ctx_keyUpdateTraffic x) (ctx_isNullVersion x) (ctx_nodeRoleMap x) (ctx_nodeRoleMapFrozen x) (ctx_rbacEnabled x) (ctx_policyRuleMap x) (ctx_nextPolicyRuleId x).
Definition set_ctx_keyUpdateTraffic (v : Z) (x : SCFPolicyCtx) : SCFPolicyCtx :=
  mkPolicyCtx (ctx_refCnt x) (ctx_sslConfig x) (ctx_policyMode x) (ctx_verifyMode x) (ctx_role x) (ctx_isSetRole x) (ctx_pskFindSessionCb x) (ctx_pskUseSessionCb x) (ctx_isNeedKeyUpdate x) (ctx_keyUpdateTime x) v (ctx_isNullVersion x) (ctx_nodeRoleMap x) (ctx_nodeRoleMapFrozen x) (ctx_rbacEnabled x) (ctx_policyRuleMap x) (ctx_nextPolicyRuleId x).
Definition set_ctx_isNullVersion (v : bool) (x : SCFPolicyCtx) : SCFPolicyCtx :=
  mkPolicyCtx (ctx_refCnt x) (ctx_sslConfig x) (ctx_policyMode x) (ctx_verifyMode x) (ctx_role x) (ctx_isSetRole x) (ctx_pskFindSessionCb x) (ctx_pskUseSessionCb x) (ctx_isNeedKeyUpdate x) (ctx_keyUpdateTime x) (ctx_keyUpdateTraffic x) v (ctx_nodeRoleMap x) (ctx_nodeRoleMapFrozen x) (ctx_rbacEnabled x) (ctx_policyRuleMap x) (ctx_nextPolicyRuleId x).
Definition set_ctx_nodeRoleMap (v : gmap string Z) (x : SCFPolicyCtx) : SCFPolicyCtx :=
  mkPolicyCtx (ctx_refCnt x) (ctx_sslConfig x) (ctx_policyMode x) (ctx_verifyMode x) (ctx_role x) (ctx_isSetRole x) (ctx_pskFindSessionCb x) (ctx_pskUseSessionCb x) (ctx_isNeedKeyUpdate x) (ctx_keyUpdateTime x) (ctx_keyUpdateTraffic x) (ctx_isNullVersion x) v (ctx_nodeRoleMapFrozen x) (ctx_rbacEnabled x) (ctx_policyRuleMap x) (ctx_nextPolicyRuleId x).
Definition set_ctx_nodeRoleMapFrozen (v : bool) (x : SCFPolicyCtx) : SCFPolicyCtx :=
  mkPolicyCtx (ctx_refCnt x) (ctx_sslConfig x) (ctx_policyMode x) (ctx_verifyMode x) (ctx_role x) (ctx_isSetRole x) (ctx_pskFindSessionCb x) (ctx_pskUseSessionCb x) (ctx_isNeedKeyUpdate x) (ctx_keyUpdateTime x) (ctx_keyUpdateTraffic x) (ctx_isNullVersion x) (ctx_nodeRoleMap x) v (ctx_rbacEnabled x) (ctx_policyRuleMap x) (ctx_nextPolicyRuleId x).
Definition set_ctx_rbacEnabled (v : bool) (x : SCFPolicyCtx) : SCFPolicyCtx :=
  mkPolicyCtx (ctx_refCnt x) (ctx_sslConfig x) (ctx_policyMode x) (ctx_verifyMode x) (ctx_role x) (ctx_isSetRole x) (ctx_pskFindSessionCb x) (ctx_pskUseSessionCb x) (ctx_isNeedKeyUpdate x) (ctx_keyUpdateTime x) (ctx_keyUpdateTraffic x) (ctx_isNullVersion x) (ctx_nodeRoleMap x) (ctx_nodeRoleMapFrozen x) v (ctx_policyRuleMap x) (ctx_nextPolicyRuleId x).
Definition set_ctx_policyRuleMap (v : list (Z * SCF_PolicyRule)) (x : SCFPolicyCtx) : SCFPolicyCtx :=
  mkPolicyCtx (ctx_refCnt x) (ctx_sslConfig x) (ctx_policyMode x) (ctx_verifyMode x) (ctx_role x) (ctx_isSetRole x) (ctx_pskFindSessionCb x) (ctx_pskUseSessionCb x) (ctx_isNeedKeyUpdate x) (ctx_keyUpdateTime x) (ctx_keyUpdateTraffic x) (ctx_isNullVersion x) (ctx_nodeRoleMap x) (ctx_nodeRoleMapFrozen x) (ctx_rbacEnabled x) v (ctx_nextPolicyRuleId x).
Definition set_ctx_nextPolicyRuleId (v : Z) (x : SCFPolicyCtx) : SCFPolicyCtx :=
  mkPolicyCtx (ctx_refCnt x) (ctx_sslConfig x) (ctx_policyMode x) (ctx_verifyMode x) (ctx_role x) (ctx_isSetRole x) (ctx_pskFindSessionCb x) (ctx_pskUseSessionCb x) (ctx_isNeedKeyUpdate x) (ctx_keyUpdateTime x) (ctx_keyUpdateTraffic x) (ctx_isNullVersion x) (ctx_nodeRoleMap x) (ctx_nodeRoleMapFrozen x) (ctx_rbacEnabled x) (ctx_policyRuleMap x) v.

(** Key-update bookkeeping of an object ([SCF_KEY_UPDATE_INFO]). *)
Record SCF_KEY_UPDATE_INFO : Type := mkKeyUpdateInfo {
  kui_timeInterval : Z;
  kui_trafficThreshold : Z;
  kui_totalSizeOfWriteData : Z;
  kui_lastKeyUpdateTime : Z;
  kui_totalKeyUpdateCnt : Z;
  kui_isLastUpdateSuccess : bool
}.
Definition set_kui_timeInterval (v : Z) (x : SCF_KEY_UPDATE_INFO) : SCF_KEY_UPDATE_INFO :=
  mkKeyUpdateInfo v (kui_trafficThreshold x) (kui_totalSizeOfWriteData x) (kui_lastKeyUpdateTime x) (kui_totalKeyUpdateCnt x) (kui_isLastUpdateSuccess x).
Definition set_kui_trafficThreshold (v : Z) (x : SCF_KEY_UPDATE_INFO) : SCF_KEY_UPDATE_INFO :=
  mkKeyUpdateInfo (kui_timeInterval x) v (kui_totalSizeOfWriteData x) (kui_lastKeyUpdateTime x) (kui_totalKeyUpdateCnt x) (kui_isLastUpdateSuccess x).
Definition set_kui_totalSizeOfWriteData (v : Z) (x : SCF_KEY_UPDATE_INFO) : SCF_KEY_UPDATE_INFO :=
  mkKeyUpdateInfo (kui_timeInterval x) (kui_trafficThreshold x) v (kui_lastKeyUpdateTime x) (kui_totalKeyUpdateCnt x) (kui_isLastUpdateSuccess x).
Definition set_kui_lastKeyUpdateTime (v : Z) (x : SCF_KEY_UPDATE_INFO) : SCF_KEY_UPDATE_INFO :=
  mkKeyUpdateInfo (kui_timeInterval x) (kui_trafficThreshold x) (kui_totalSizeOfWriteData x) v (kui_totalKeyUpdateCnt x) (kui_isLastUpdateSuccess x).
Definition set_kui_totalKeyUpdateCnt (v : Z) (x : SCF_KEY_UPDATE_INFO) : SCF_KEY_UPDATE_INFO :=
  mkKeyUpdateInfo (kui_timeInterval x) (kui_trafficThreshold x) (kui_totalSizeOfWriteData x) (kui_lastKeyUpdateTime x) v (kui_isLastUpdateSuccess x).
Definition set_kui_isLastUpdateSuccess (v : bool) (x : SCF_KEY_UPDATE_INFO) : SCF_KEY_UPDATE_INFO :=
  mkKeyUpdateInfo (kui_timeInterval x) (kui_trafficThreshold x) (kui_totalSizeOfWriteData x) (kui_lastKeyUpdateTime x) (kui_totalKeyUpdateCnt x) v.

(** A policy object ([SCFPolicyObj]); [policyCtx] is the address of its context. *)
Record SCFPolicyObj : Type := mkPolicyObj {
  obj_policyCtx : Z;
  obj_sslCtx : Z;
  obj_policyMode : Z;
  obj_verifyMode : Z;
  obj_role : Z;
  obj_isSetRole : bool;
  obj_fd : Z;
  obj_pskFindSessionCb : Z;
  obj_pskUseSessionCb : Z;
  obj_keyUpdateInfo : SCF_KEY_UPDATE_INFO;
  obj_userData : Z
}.
Definition set_obj_policyCtx (v : Z) (x : SCFPolicyObj) : SCFPolicyObj :=
  mkPolicyObj v (obj_sslCtx x) (obj_policyMode x) (obj_verifyMode x) (obj_role x) (obj_isSetRole x) (obj_fd x) (obj_pskFindSessionCb x) (obj_pskUseSessionCb x) (obj_keyUpdateInfo x) (obj_userData x).
Definition set_obj_sslCtx (v : Z) (x : SCFPolicyObj) : SCFPolicyObj :=
  mkPolicyObj (obj_policyCtx x) v (obj_policyMode x) (obj_verifyMode x) (obj_role x) (obj_isSetRole x) (obj_fd x) (obj_pskFindSessionCb x) (obj_pskUseSessionCb x) (obj_keyUpdateInfo x) (obj_userData x).
Definition set_obj_policyMode (v : Z) (x : SCFPolicyObj) : SCFPolicyObj :=
  mkPolicyObj (obj_policyCtx x) (obj_sslCtx x) v (obj_verifyMode x) (obj_role x) (obj_isSetRole x) (obj_fd x) (obj_pskFindSessionCb x) (obj_pskUseSessionCb x) (obj_keyUpdateInfo x) (obj_userData x).
Definition set_obj_verifyMode (v : Z) (x : SCFPolicyObj) : SCFPolicyObj :=
  mkPolicyObj (obj_policyCtx x) (obj_sslCtx x) (obj_policyMode x) v (obj_role x) (obj_isSetRole x) (obj_fd x) (obj_pskFindSessionCb x) (obj_pskUseSessionCb x) (obj_keyUpdateInfo x) (obj_userData x).
Definition set_obj_role (v : Z) (x : SCFPolicyObj) : SCFPolicyObj :=
  mkPolicyObj (obj_policyCtx x) (obj_sslCtx x) (obj_policyMode x) (obj_verifyMode x) v (obj_isSetRole x) (obj_fd x) (obj_pskFindSessionCb x) (obj_pskUseSessionCb x) (obj_keyUpdateInfo x) (obj_userData x).
Definition set_obj_isSetRole (v : bool) (x : SCFPolicyObj) : SCFPolicyObj :=
  mkPolicyObj (obj_policyCtx x) (obj_sslCtx x) (obj_policyMode x) (obj_verifyMode x) (obj_role x) v (obj_fd x) (obj_pskFindSessionCb x) (obj_pskUseSessionCb x) (obj_keyUpdateInfo x) (obj_userData x).
Definition set_obj_fd (v : Z) (x : SCFPolicyObj) : SCFPolicyObj :=
  mkPolicyObj (obj_policyCtx x) (obj_sslCtx x) (obj_policyMode x) (obj_verifyMode x) (obj_role x) (obj_isSetRole x) v (obj_pskFindSessionCb x) (obj_pskUseSessionCb x) (obj_keyUpdateInfo x) (obj_userData x).
Definition set_obj_pskFindSessionCb (v : Z) (x : SCFPolicyObj) : SCFPolicyObj :=
  mkPolicyObj (obj_policyCtx x) (obj_sslCtx x) (obj_policyMode x) (obj_verifyMode x) (obj_role x) (obj_isSetRole x) (obj_fd x) v (obj_pskUseSessionCb x) (obj_keyUpdateInfo x) (obj_userData x).
Definition set_obj_pskUseSessionCb (v : Z) (x : SCFPolicyObj) : SCFPolicyObj :=
  mkPolicyObj (obj_policyCtx x) (obj_sslCtx x) (obj_policyMode x) (obj_verifyMode x) (obj_role x) (obj_isSetRole x) (obj_fd x) (obj_pskFindSessionCb x) v (obj_keyUpdateInfo x) (obj_userData x).
Definition set_obj_keyUpdateInfo (v : SCF_KEY_UPDATE_INFO) (x : SCFPolicyObj) : SCFPolicyObj :=
  mkPolicyObj (obj_policyCtx x) (obj_sslCtx x) (obj_policyMode x) (obj_verifyMode x) (obj_role x) (obj_isSetRole x) (obj_fd x) (obj_pskFindSessionCb x) (obj_pskUseSessionCb x) v (obj_userData x).
Definition set_obj_userData (v : Z) (x : SCFPolicyObj) : SCFPolicyObj :=
  mkPolicyObj (obj_policyCtx x) (obj_sslCtx x) (obj_policyMode x) (obj_verifyMode x) (obj_role x) (obj_isSetRole x) (obj_fd x) (obj_pskFindSessionCb x) (obj_pskUseSessionCb x) (obj_keyUpdateInfo x) v.

(** A file context ([SCFFileCtx]); a buffer is the cells it points to. *)
Record SCFFileCtx : Type := mkFileCtx {
  fc_storeType : Z;
  fc_buf : option (list ascii);
  fc_bufLen : Z;
  fc_passwd : option (list ascii);
  fc_passwdLen : Z;
  fc_format : Z
}.
Definition set_fc_storeType (v : Z) (x : SCFFileCtx) : SCFFileCtx :=
  mkFileCtx v (fc_buf x) (fc_bufLen x) (fc_passwd x) (fc_passwdLen x) (fc_format x).
Definition set_fc_buf (v : option (list ascii)) (x : SCFFileCtx) : SCFFileCtx :=
  mkFileCtx (fc_storeType x) v (fc_bufLen x) (fc_passwd x) (fc_passwdLen x) (fc_format x).
Definition set_fc_bufLen (v : Z) (x : SCFFileCtx) : SCFFileCtx :=
  mkFileCtx (fc_storeType x) (fc_buf x) v (fc_passwd x) (fc_passwdLen x) (fc_format x).
Definition set_fc_passwd (v : option (list ascii)) (x : SCFFileCtx) : SCFFileCtx :=
  mkFileCtx (fc_storeType x) (fc_buf x) (fc_bufLen x) v (fc_passwdLen x) (fc_format x).
Definition set_fc_passwdLen (v : Z) (x : SCFFileCtx) : SCFFileCtx :=
  mkFileCtx (fc_storeType x) (fc_buf x) (fc_bufLen x) (fc_passwd x) v (fc_format x).
Definition set_fc_format (v : Z) (x : SCFFileCtx) : SCFFileCtx :=
  mkFileCtx (fc_storeType x) (fc_buf x) (fc_bufLen x) (fc_passwd x) (fc_passwdLen x) v.

(** ** Process globals seen by a handler

    [g_scfInitialized], whether [g_adaptor] is set, and what the allocator answers
    to the n-th allocation of the call ([false] = [std::bad_alloc]/[nullptr]). *)
Record Env : Type := mkEnv {
  g_scfInitialized : bool;
  g_adaptor : bool;
  alloc : nat -> bool
}.

Definition ready (e : Env) : Prop := g_scfInitialized e = true /\ g_adaptor e = true.
Definition env_up : Env := mkEnv true true (fun _ => true).

(** The context [SCF_CreatePolicyCtx] hands out ([policy.cpp]). *)
Definition new_policy_ctx : SCFPolicyCtx :=
  mkPolicyCtx 1 nullptr SCF_POLICY_HIGH SCF_VERIFY_DEFAULT SCF_ROLE_NONE false nullptr nullptr
    false DEFAULT_KEY_UPDATE_TIME DEFAULT_KEY_UPDATE_TRAFFIC false ∅ false false [] 1.

Create HintDb scf_fields.
