(* ===== verification/PolicyMatcher.v ===== *)
(** * Custom policy rule matching

    [src/scf/policy/auth/rbac/policy_matcher.cpp] and [policy_matcher.h]: the rule
    filter, its specificity order and the deny-overrides selection loop, with a
    declarative decision function the loop is proved equal to. *)
From Stdlib Require Import ZArith Lia Ascii String.
From stdpp Require Import base list strings.
From S2P Require Import Prelude Errno Types.
Open Scope Z_scope.

Record PolicyMatchRequest : Type := mkRequest {
  req_subjectNodeId : string;
  req_targetNodeId : string;
  req_resourceType : Z;
  req_action : Z
}.

Definition IsRuleMatched (rule : SCF_PolicyRule) (request : PolicyMatchRequest) : bool :=
  streq (rule_subjectNodeId rule) (req_subjectNodeId request) &&
  (streq (rule_targetNodeId rule) (req_targetNodeId request)
   || streq (rule_targetNodeId rule) "*") &&
  negb (Z.land (rule_resourceTypeBitmap rule) (req_resourceType request) =? 0) &&
  negb (Z.land (rule_actionBitmap rule) (wrap32 (req_action request)) =? 0).

Definition GetMatchPriority (rule : SCF_PolicyRule) (request : PolicyMatchRequest) : Z :=
  let priority := 1 in
  let priority :=
    if streq (rule_targetNodeId rule) (req_targetNodeId request)
    then wrap32 (priority + 1) else priority in
  let priority :=
    if rule_resourceTypeBitmap rule =? req_resourceType request
    then wrap32 (priority + 1) else priority in
  if rule_actionBitmap rule =? wrap32 (req_action request)
  then wrap32 (priority + 1) else priority.

Definition ShouldReplaceMatch (priority effect highestPriority : Z) : bool :=
  (highestPriority <? priority)
  || ((priority =? highestPriority) && (effect =? SCF_POLICY_EFFECT_DENY)).

(** One iteration of the loop of [MatchPolicyRule] on [(highestPriority, *effect)]. *)
Definition match_iter (request : PolicyMatchRequest) (st : Z * Z)
    (item : Z * SCF_PolicyRule) : Z * Z :=
  let rule := item.2 in
  return_if negb (IsRuleMatched rule request) with st ;;
  let priority := GetMatchPriority rule request in
  return_if negb (ShouldReplaceMatch priority (rule_effect rule) st.1) with st ;;
  (priority, rule_effect rule).

(** The map is visited in key order; [effect = None] is the null pointer. *)
Definition MatchPolicyRule (rules : list (Z * SCF_PolicyRule))
    (request : PolicyMatchRequest) (effect : option Z) : bool * option Z :=
  match effect with
  | None => (false, None)
  | Some eff0 =>
      let '(highestPriority, eff) := foldl (match_iter request) (0, eff0) rules in
      (negb (highestPriority =? 0), Some eff)
  end.

(** ** The decision the loop implements *)
Section decision.
Variable request : PolicyMatchRequest.
Implicit Types (rules : list (Z * SCF_PolicyRule)).

(** Specificity of the best matching rule, 0 when none matches. *)
Fixpoint best_priority rules : Z :=
  match rules with
  | [] => 0
  | item :: rules' =>
      if IsRuleMatched item.2 request
      then Z.max (GetMatchPriority item.2 request) (best_priority rules')
      else best_priority rules'
  end.

(** A matching rule of specificity [p] denies. *)
Definition denies_at (p : Z) (item : Z * SCF_PolicyRule) : bool :=
  IsRuleMatched item.2 request && (GetMatchPriority item.2 request =? p)
  && (rule_effect item.2 =? SCF_POLICY_EFFECT_DENY).

Definition decision rules : option Z :=
  if best_priority rules =? 0 then None
  else Some (if existsb (denies_at (best_priority rules)) rules
             then SCF_POLICY_EFFECT_DENY else SCF_POLICY_EFFECT_ALLOW).

Definition effects_valid rules : Prop :=
  Forall (fun item => rule_effect item.2 = SCF_POLICY_EFFECT_ALLOW \/
                      rule_effect item.2 = SCF_POLICY_EFFECT_DENY) rules.

Lemma priority_bounds rule : 1 <= GetMatchPriority rule request <= 4.
Proof.
  unfold GetMatchPriority. repeat case_match; split; vm_compute; congruence.
Qed.

Lemma best_priority_nonneg rules : 0 <= best_priority rules <= 4.
Proof.
  induction rules as [|i rules IH]; simpl; [lia|].
  pose proof (priority_bounds i.2). case_match; lia.
Qed.

Lemma best_priority_ge rules item :
  item ∈ rules -> IsRuleMatched item.2 request = true ->
  GetMatchPriority item.2 request <= best_priority rules.
Proof.
  intros Hin Hm. induction rules as [|i rules IH]; [by apply elem_of_nil in Hin|].
  simpl. apply elem_of_cons in Hin as [->|Hin].
  - rewrite Hm. lia.
  - specialize (IH Hin). case_match; lia.
Qed.

Lemma best_priority_app rules1 rules2 :
  best_priority (rules1 ++ rules2) = Z.max (best_priority rules1) (best_priority rules2).
Proof.
  induction rules1 as [|i rules1 IH]; simpl.
  - pose proof (best_priority_nonneg rules2). lia.
  - case_match; lia.
Qed.

Lemma best_priority_attained rules :
  best_priority rules <> 0 -> exists item, item ∈ rules /\
    IsRuleMatched item.2 request = true /\
    GetMatchPriority item.2 request = best_priority rules.
Proof.
  induction rules as [|i rules IH]; simpl; [done|]. intros H.
  destruct (IsRuleMatched i.2 request) eqn:E.
  - destruct (Z.max_spec (GetMatchPriority i.2 request) (best_priority rules))
      as [[? Hmax]|[? Hmax]]; rewrite Hmax in *.
    + destruct IH as (j & ? & ? & ?); [done|]. exists j. split_and!; [by right|done..].
    + exists i. split_and!; [by left|done..].
  - destruct IH as (j & ? & ? & ?); [done|]. exists j. split_and!; [by right|done..].
Qed.

Lemma denies_at_above rules p :
  best_priority rules < p -> existsb (denies_at p) rules = false.
Proof.
  intros Hp. apply not_true_iff_false. rewrite existsb_exists.
  intros (i & Hin & Hd). apply list_elem_of_In in Hin. unfold denies_at in Hd. bools.
  pose proof (best_priority_ge _ _ Hin ltac:(done)). lia.
Qed.

Lemma denies_at_unmatched p item :
  IsRuleMatched item.2 request = false -> denies_at p item = false.
Proof. intros H. unfold denies_at. by rewrite H. Qed.

Lemma denies_at_matched p item :
  IsRuleMatched item.2 request = true ->
  denies_at p item = (GetMatchPriority item.2 request =? p)
                     && (rule_effect item.2 =? SCF_POLICY_EFFECT_DENY).
Proof. intros H. unfold denies_at. by rewrite H. Qed.

(** The loop invariant: after the prefix [rules] the state is the prefix's best
    specificity and, once a rule matched, the deny-overrides effect at it. *)
Lemma match_loop_state rules eff0 :
  effects_valid rules ->
  foldl (match_iter request) (0, eff0) rules
  = (best_priority rules, default eff0 (decision rules)).
Proof.
  induction rules as [|item rules IH] using rev_ind; intros Hv; [done|].
  apply Forall_app in Hv as [Hv [Hi _]%Forall_cons].
  rewrite foldl_app, (IH Hv). simpl. unfold match_iter.
  rewrite best_priority_app. simpl.
  pose proof (priority_bounds item.2) as Hb.
  pose proof (best_priority_nonneg rules) as Hn.
  unfold decision. rewrite best_priority_app. simpl.
  destruct (IsRuleMatched item.2 request) eqn:Em; simpl.
  2:{ rewrite (Z.max_l _ 0) by lia. case_match; [done|]. rewrite existsb_app. simpl.
      rewrite (denies_at_unmatched _ _ Em). simpl. by rewrite orb_false_r. }
  set (p := GetMatchPriority item.2 request) in *. rewrite (Z.max_l p 0) by lia.
  unfold ShouldReplaceMatch.
  replace (Z.max (best_priority rules) p =? 0) with false by (symmetry; apply Z.eqb_neq; lia).
  rewrite existsb_app. simpl. rewrite (denies_at_matched _ _ Em). fold p.
  destruct (Z.lt_trichotomy (best_priority rules) p) as [Hlt|[Heq|Hgt]].
  - replace (best_priority rules <? p) with true by (symmetry; apply Z.ltb_lt; lia). simpl.
    rewrite (Z.max_r _ p) by lia. rewrite denies_at_above, Z.eqb_refl by done. simpl.
    destruct Hi as [Hi|Hi]; rewrite Hi; done.
  - rewrite <- Heq, Z.max_id, Z.eqb_refl.
    replace (best_priority rules <? best_priority rules) with false
      by (symmetry; apply Z.ltb_ge; lia).
    replace (best_priority rules =? 0) with false by (symmetry; apply Z.eqb_neq; lia).
    simpl. destruct Hi as [Hi|Hi]; rewrite Hi; simpl.
    + by rewrite orb_false_r.
    + by rewrite orb_true_r.
  - replace (best_priority rules <? p) with false by (symmetry; apply Z.ltb_ge; lia).
    rewrite (Z.max_l _ p) by lia.
    replace (p =? best_priority rules) with false by (symmetry; apply Z.eqb_neq; lia).
    replace (best_priority rules =? 0) with false by (symmetry; apply Z.eqb_neq; lia).
    simpl. by rewrite orb_false_r.
Qed.

Lemma decision_None rules :
  decision rules = None <-> Forall (fun i => IsRuleMatched i.2 request = false) rules.
Proof.
  unfold decision. split.
  - case_match eqn:E; [|done]. bools. intros _. apply Forall_forall. intros i Hi.
    destruct (IsRuleMatched i.2 request) eqn:Em; [|done].
    pose proof (best_priority_ge _ _ Hi Em). pose proof (priority_bounds i.2). lia.
  - intros HF. case_match eqn:E; [done|]. bools.
    apply best_priority_attained in E as (i & Hi & Hm & _).
    rewrite Forall_forall in HF. by rewrite HF in Hm.
Qed.

Lemma best_priority_perm rules rules' :
  rules ≡ₚ rules' -> best_priority rules = best_priority rules'.
Proof. induction 1; simpl; repeat case_match; lia. Qed.

Lemma existsb_perm {A} (f : A -> bool) l l' : l ≡ₚ l' -> existsb f l = existsb f l'.
Proof.
  induction 1; simpl; [done|congruence| |congruence].
  by rewrite !orb_assoc, (orb_comm (f y)).
Qed.

Lemma decision_perm rules rules' :
  rules ≡ₚ rules' -> decision rules = decision rules'.
Proof.
  intros Hp. unfold decision. rewrite (best_priority_perm _ _ Hp). case_match; [done|].
  by rewrite (existsb_perm _ _ _ Hp).
Qed.

(** Some rule with effect [eff] matches, and every matching rule with the opposite
    effect is less specific ([lt] for ALLOW) or at most as specific (DENY). *)
Definition wins (eff : Z) (lt : Z -> Z -> Prop) rules : Prop :=
  exists k r, (k, r) ∈ rules /\ IsRuleMatched r request = true /\ rule_effect r = eff /\
    forall k' r', (k', r') ∈ rules -> IsRuleMatched r' request = true ->
      rule_effect r' <> eff -> lt (GetMatchPriority r' request) (GetMatchPriority r request).

Lemma best_denies rules :
  existsb (denies_at (best_priority rules)) rules = true <->
  exists k r, (k, r) ∈ rules /\ IsRuleMatched r request = true /\
    rule_effect r = SCF_POLICY_EFFECT_DENY /\
    GetMatchPriority r request = best_priority rules.
Proof.
  rewrite existsb_exists. unfold denies_at. split.
  - intros ([k r] & Hin & Hd). apply list_elem_of_In in Hin. bools. eauto 6.
  - intros (k & r & Hin & Hm & Hd & Hp). exists (k, r).
    split; [by apply list_elem_of_In|]. simpl. by rewrite Hm, Hp, Hd, Z.eqb_refl.
Qed.

Lemma matched_best_nonzero rules k r :
  (k, r) ∈ rules -> IsRuleMatched r request = true -> best_priority rules <> 0.
Proof.
  intros Hin Hm. pose proof (best_priority_ge _ _ Hin Hm). simpl in *.
  pose proof (priority_bounds r). lia.
Qed.

Lemma decision_allow rules :
  effects_valid rules ->
  decision rules = Some SCF_POLICY_EFFECT_ALLOW <-> wins SCF_POLICY_EFFECT_ALLOW Z.lt rules.
Proof.
  unfold decision, effects_valid, wins. rewrite Forall_forall. intros Hv. split.
  - destruct (_ =? 0) eqn:E0; [done|]. bools.
    destruct (existsb _ _) eqn:Ed; [done|]. intros _.
    destruct (best_priority_attained _ E0) as ([k r] & Hin & Hm & Hp).
    assert (Hnd : forall k' r', (k', r') ∈ rules -> IsRuleMatched r' request = true ->
      rule_effect r' = SCF_POLICY_EFFECT_DENY ->
      GetMatchPriority r' request <> best_priority rules).
    { intros k' r' Hin' Hm' Hd' Hp'. apply not_true_iff_false in Ed. apply Ed.
      apply best_denies. eauto 6. }
    exists k, r. split_and!; [done|done| |].
    + destruct (Hv _ Hin) as [?|Hd]; [done|]. by destruct (Hnd _ _ Hin Hm Hd).
    + intros k' r' Hin' Hm' He'. destruct (Hv _ Hin') as [?|Hd]; [done|].
      specialize (Hnd _ _ Hin' Hm' Hd). pose proof (best_priority_ge _ _ Hin' Hm').
      simpl in *. lia.
  - intros (k & r & Hin & Hm & Ha & Hmax).
    rewrite (proj2 (Z.eqb_neq _ _) (matched_best_nonzero _ _ _ Hin Hm)).
    destruct (existsb _ _) eqn:Ed; [exfalso|done].
    apply best_denies in Ed as (k' & r' & Hin' & Hm' & Hd & Hp).
    assert (Hlt : GetMatchPriority r' request < GetMatchPriority r request)
      by (apply (Hmax k'); [done..|by rewrite Hd]).
    pose proof (best_priority_ge _ _ Hin Hm). simpl in *. lia.
Qed.

Lemma decision_deny rules :
  effects_valid rules ->
  decision rules = Some SCF_POLICY_EFFECT_DENY <-> wins SCF_POLICY_EFFECT_DENY Z.le rules.
Proof.
  unfold decision, effects_valid, wins. rewrite Forall_forall. intros Hv. split.
  - destruct (_ =? 0) eqn:E0; [done|]. bools.
    destruct (existsb _ _) eqn:Ed; [|done]. intros _.
    apply best_denies in Ed as (k & r & Hin & Hm & Hd & Hp).
    exists k, r. split_and!; [done..|]. intros k' r' Hin' Hm' _.
    pose proof (best_priority_ge _ _ Hin' Hm'). simpl in *. lia.
  - intros (k & r & Hin & Hm & Ha & Hmax).
    pose proof (matched_best_nonzero _ _ _ Hin Hm) as Hnz.
    rewrite (proj2 (Z.eqb_neq _ _) Hnz).
    replace (existsb _ _) with true; [done|]. symmetry. apply best_denies.
    destruct (best_priority_attained _ Hnz) as ([k' r'] & Hin' & Hm' & Hp).
    pose proof (best_priority_ge _ _ Hin Hm). simpl in *.
    destruct (Hv _ Hin') as [Hal|Hde]; simpl in *; [|by eauto 6].
    assert (Hle : GetMatchPriority r' request <= GetMatchPriority r request)
      by (apply (Hmax k'); [done..|by rewrite Hal]).
    exists k, r. split_and!; [done..|lia].
Qed.
End decision.

Lemma MatchPolicyRule_eq rules request eff0 :
  effects_valid rules ->
  MatchPolicyRule rules request (Some eff0)
  = match decision request rules with
    | Some eff => (true, Some eff)
    | None => (false, Some eff0)
    end.
Proof.
  intros Hv. unfold MatchPolicyRule. rewrite (match_loop_state _ _ _ Hv).
  unfold decision. by case_match.
Qed.

(** (C19) The selection loop implements deny-overrides at the highest specificity. It
    reports no match, leaving [*effect] alone, exactly when no rule matches; it answers
    ALLOW exactly when a matching allow rule is strictly more specific than every
    matching deny rule, and DENY exactly when a matching deny rule is at least as
    specific as every matching allow rule. *)
Theorem MatchPolicyRule_decision rules request eff0 :
  effects_valid rules ->
  let res := MatchPolicyRule rules request (Some eff0) in
  (res = (false, Some eff0) <->
    forall k r, (k, r) ∈ rules -> IsRuleMatched r request = false) /\
  (res = (true, Some SCF_POLICY_EFFECT_ALLOW) <->
    wins request SCF_POLICY_EFFECT_ALLOW Z.lt rules) /\
  (res = (true, Some SCF_POLICY_EFFECT_DENY) <->
    wins request SCF_POLICY_EFFECT_DENY Z.le rules).
Proof.
  intros Hv res. unfold res. rewrite (MatchPolicyRule_eq _ _ _ Hv).
  rewrite <- (decision_allow _ _ Hv), <- (decision_deny _ _ Hv).
  split_and!; [|by destruct (decision _ _) as [eff|]; split; congruence..].
  transitivity (decision request rules = None).
  - destruct (decision _ _); split; congruence.
  - rewrite decision_None, Forall_forall. split; [intros H k r Hin; exact (H (k, r) Hin)|].
    intros H [k r] Hin. exact (H k r Hin).
Qed.

(** The outcome of a match does not depend on the order in which the rules are
    stored: any permutation of the rules (hence any assignment of rule ids) gives
    the same answer and the same effect. *)
Theorem MatchPolicyRule_order_irrelevant rules rules' request eff0 :
  effects_valid rules -> rules ≡ₚ rules' ->
  MatchPolicyRule rules request (Some eff0) = MatchPolicyRule rules' request (Some eff0).
Proof.
  intros Hv Hp. assert (Hv' : effects_valid rules') by (unfold effects_valid; by rewrite <- Hp).
  unfold MatchPolicyRule. rewrite (match_loop_state _ _ _ Hv), (match_loop_state _ _ _ Hv').
  by rewrite (best_priority_perm _ _ _ Hp), (decision_perm _ _ _ Hp).
Qed.

(** A deny rule naming the exact target, type and action beats a wildcard allow. *)
Definition ex_allow : SCF_PolicyRule :=
  mkPolicyRule 1 "nodeA" "*" SCF_RES_TYPE_ALL 3 SCF_POLICY_EFFECT_ALLOW.
Definition ex_deny : SCF_PolicyRule :=
  mkPolicyRule 2 "nodeA" "nodeB" SCF_RES_TYPE_FD SCF_RES_ACTION_APPLY SCF_POLICY_EFFECT_DENY.
Definition ex_request : PolicyMatchRequest :=
  mkRequest "nodeA" "nodeB" SCF_RES_TYPE_FD SCF_RES_ACTION_APPLY.

Lemma ex_effects_valid : effects_valid [(1, ex_allow); (2, ex_deny)].
Proof.
  apply Forall_cons; split; [by left|].
  apply Forall_cons; split; [by right|]. by apply Forall_nil.
Qed.

Lemma MatchPolicyRule_decision_witness :
  effects_valid [(1, ex_allow); (2, ex_deny)] /\
  MatchPolicyRule [(1, ex_allow); (2, ex_deny)] ex_request (Some 0)
  = (true, Some SCF_POLICY_EFFECT_DENY) /\
  wins ex_request SCF_POLICY_EFFECT_DENY Z.le [(1, ex_allow); (2, ex_deny)].
Proof.
  split_and!; [exact ex_effects_valid|reflexivity|].
  apply (MatchPolicyRule_decision _ ex_request 0 ex_effects_valid). reflexivity.
Defined.

Lemma MatchPolicyRule_order_irrelevant_witness :
  [(1, ex_allow); (2, ex_deny)] ≡ₚ [(2, ex_deny); (1, ex_allow)] /\
  MatchPolicyRule [(1, ex_allow); (2, ex_deny)] ex_request (Some 0)
  = MatchPolicyRule [(2, ex_deny); (1, ex_allow)] ex_request (Some 0).
Proof.
  assert (Hp : [(1, ex_allow); (2, ex_deny)] ≡ₚ [(2, ex_deny); (1, ex_allow)])
    by apply Permutation_swap.
  split; [exact Hp|].
  exact (MatchPolicyRule_order_irrelevant _ _ ex_request 0 ex_effects_valid Hp).
Defined.
