(* ===== verification/Rbac.v ===== *)
(** * Role-based access control

    [src/scf/policy/auth/rbac/rbac.cpp] and [src/common/utils/string_util.cpp]: the
    node-role table, the custom policy rules, identity from certificates and the
    resource permission check. A handler takes the globals it reads ([Env]), the
    policy context and its arguments ([None] is [nullptr]) and returns the code and
    the objects it may have written. The mutexes are
    RbacThreads.v's, which shows when a handler is one atomic step. *)
From Stdlib Require Import ZArith Lia Ascii String.
From stdpp Require Import base list fin_maps gmap strings sorting relations.
From S2P Require Import Prelude Errno Types PolicyMatcher.
Open Scope Z_scope.

(** ** What the certificate library promises

    [ISslAdaptor::GetCertExtensionByOid] for the configured TLS library: a code and
    the decoded extension value. *)
Class CertReader (Cert : Type) : Type := {
  GetCertExtensionByOid : Cert -> string -> Z * string
}.

(** The traversal order of an [unordered_map] is unspecified: some enumeration of
    its entries. *)
Class HashOrder : Type := {
  hash_order : gmap string Z -> list (string * Z);
  hash_order_perm : forall m, hash_order m ≡ₚ map_to_list m
}.

#[export] Instance RefHashOrder : HashOrder :=
  {| hash_order := map_to_list; hash_order_perm m := Permutation_refl (map_to_list m) |}.

(** ** Validation *)

Definition IsValidNodeId (nodeId : option string) : bool :=
  match nodeId with
  | None => false
  | Some id =>
      return_if streq id "*" with false ;;
      let length := strnlen id MAX_NODE_ID_LEN in
      (0 <? length) && (length <? MAX_NODE_ID_LEN)
  end.

Definition IsValidRole (role : Z) : bool :=
  (role =? SCF_RBAC_ROLE_MASTER) || (role =? SCF_RBAC_ROLE_SLAVE).

Definition IsValidBitmap (bitmap validBitmap : Z) : bool :=
  negb (bitmap =? 0) && (Z.land bitmap (wrap32 (Z.lnot validBitmap)) =? 0).

Definition IsValidPolicyEffect (effect : Z) : bool :=
  (effect =? SCF_POLICY_EFFECT_ALLOW) || (effect =? SCF_POLICY_EFFECT_DENY).

Definition IsSingleResourceType (resourceType : Z) : bool :=
  (resourceType =? SCF_RES_TYPE_FD) || (resourceType =? SCF_RES_TYPE_NUMA)
  || (resourceType =? SCF_RES_TYPE_ADDR).

Definition IsSingleResourceAction (action : Z) : bool :=
  (action =? SCF_RES_ACTION_APPLY) || (action =? SCF_RES_ACTION_RELEASE).

Definition IsSamePolicyRuleKey (left right : SCF_PolicyRule) : bool :=
  streq (rule_subjectNodeId left) (rule_subjectNodeId right) &&
  streq (rule_targetNodeId left) (rule_targetNodeId right) &&
  (rule_resourceTypeBitmap left =? rule_resourceTypeBitmap right) &&
  (rule_actionBitmap left =? rule_actionBitmap right).

(** [std::tolower] in the C locale, and [ToLower] of string_util.cpp. *)
Definition tolower (ch : ascii) : ascii :=
  let n := N_of_ascii ch in
  if (65 <=? n)%N && (n <=? 90)%N then ascii_of_N (n + 32) else ch.

Fixpoint ToLower (value : string) : string :=
  match value with
  | EmptyString => EmptyString
  | String ch value' => String (tolower ch) (ToLower value')
  end.

(** ** The rule table *)

(** [None]: [std::bad_alloc] escapes from [emplace]. The rule is passed by
    reference; its id is written before the insertion. *)
Definition InsertPolicyRule (e : Env) (ctx : SCFPolicyCtx) (rule : SCF_PolicyRule)
    : option (Z * SCFPolicyCtx * SCF_PolicyRule) :=
  return_if existsb (fun item => IsSamePolicyRuleKey item.2 rule) (ctx_policyRuleMap ctx)
    with (Some (SCF_ERRNO_RBAC_POLICY_DUPLICATE, ctx, rule)) ;;
  return_if (MAX_POLICY_RULE_SIZE <=? OMap.size (ctx_policyRuleMap ctx))
            || (ctx_nextPolicyRuleId ctx =? 0)
    with (Some (SCF_ERRNO_RBAC_POLICY_FULL, ctx, rule)) ;;
  let rule := set_rule_ruleId (ctx_nextPolicyRuleId ctx) rule in
  return_if negb (alloc e 1) with None ;;
  let '(rules, inserted) := OMap.emplace (rule_ruleId rule) rule (ctx_policyRuleMap ctx) in
  return_if negb inserted with (Some (SCF_ERRNO_RBAC_POLICY_FULL, ctx, rule)) ;;
  let ctx := set_ctx_policyRuleMap rules ctx in
  let ctx := set_ctx_nextPolicyRuleId
    (if ctx_nextPolicyRuleId ctx =? UINT32_MAX then 0
     else wrap32 (ctx_nextPolicyRuleId ctx + 1)) ctx in
  Some (SCF_SUCCESS, ctx, rule).

Definition SCF_AddPolicyRule (e : Env) (ctx : option SCFPolicyCtx)
    (subjectNodeId targetNodeId : option string)
    (resourceTypeBitmap actionBitmap effect : Z) (ruleId : option Z)
    : Z * option SCFPolicyCtx * option Z :=
  match ctx, subjectNodeId, targetNodeId, ruleId with
  | Some c, Some subject, Some target, Some _ =>
      return_if negb (IsValidNodeId subjectNodeId)
                || negb (IsValidNodeId targetNodeId || streq target "*")
                || negb (IsValidBitmap resourceTypeBitmap SCF_RES_TYPE_ALL)
                || negb (IsValidBitmap actionBitmap
                           (Z.lor SCF_RES_ACTION_APPLY SCF_RES_ACTION_RELEASE))
                || negb (IsValidPolicyEffect effect)
        with (SCF_ERRNO_RBAC_POLICY_INVALID, ctx, ruleId) ;;
      return_if negb (g_scfInitialized e) with (SCF_ERRNO_NOT_INIT, ctx, ruleId) ;;
      return_if negb (alloc e 0) with (SCF_ERRNO_MEM_ALLOC, ctx, ruleId) ;;
      let rule := mkPolicyRule 0 subject target resourceTypeBitmap actionBitmap effect in
      match InsertPolicyRule e c rule with
      | None => (SCF_ERRNO_MEM_ALLOC, ctx, ruleId)
      | Some (ret, c', rule') =>
          return_if negb (ret =? SCF_SUCCESS) with (ret, Some c', ruleId) ;;
          (SCF_SUCCESS, Some c', Some (rule_ruleId rule'))
      end
  | _, _, _, _ => (SCF_ERRNO_NULL_INPUT, ctx, ruleId)
  end.

Definition SCF_RemovePolicyRule (e : Env) (ctx : option SCFPolicyCtx) (ruleId : Z)
    : Z * option SCFPolicyCtx :=
  match ctx with
  | None => (SCF_ERRNO_NULL_INPUT, ctx)
  | Some c =>
      return_if ruleId =? 0 with (SCF_ERRNO_INVALID_PARAM, ctx) ;;
      return_if negb (g_scfInitialized e) with (SCF_ERRNO_NOT_INIT, ctx) ;;
      match OMap.find ruleId (ctx_policyRuleMap c) with
      | None => (SCF_ERRNO_RBAC_POLICY_NOT_FOUND, ctx)
      | Some _ =>
          (SCF_SUCCESS,
           Some (set_ctx_policyRuleMap (OMap.erase ruleId (ctx_policyRuleMap c)) c))
      end
  end.

(** The loop of [SCF_ListPolicyRules]; copying the i-th listed rule is allocation i,
    and [false] is the caught [std::bad_alloc]. *)
Fixpoint list_rules_loop (e : Env) (items : list (Z * SCF_PolicyRule)) (ruleCap : Z)
    (rules : list SCF_PolicyRule) (actualCount : Z) : bool * list SCF_PolicyRule * Z :=
  match items with
  | [] => (true, rules, actualCount)
  | item :: items' =>
      return_if actualCount =? ruleCap with (true, rules, actualCount) ;;
      return_if negb (alloc e (Z.to_nat actualCount)) with (false, rules, actualCount) ;;
      let rules := <[Z.to_nat actualCount := item.2]> rules in
      list_rules_loop e items' ruleCap rules (wrap32 (actualCount + 1))
  end.

Definition SCF_ListPolicyRules (e : Env) (ctx : option SCFPolicyCtx)
    (rules : option (list SCF_PolicyRule)) (ruleCap : Z) (actualCount : option Z)
    : Z * option (list SCF_PolicyRule) * option Z :=
  match ctx, rules, actualCount with
  | Some c, Some out, Some _ =>
      return_if ruleCap =? 0 with (SCF_ERRNO_INVALID_PARAM, rules, actualCount) ;;
      return_if negb (g_scfInitialized e) with (SCF_ERRNO_NOT_INIT, rules, actualCount) ;;
      let '(ok, out', n) := list_rules_loop e (ctx_policyRuleMap c) ruleCap out 0 in
      (if ok then SCF_SUCCESS else SCF_ERRNO_MEM_ALLOC, Some out', Some n)
  | _, _, _ => (SCF_ERRNO_NULL_INPUT, rules, actualCount)
  end.

(** ** The node-role table *)

Definition FreezeNodeRoleMapping (ctx : option SCFPolicyCtx) : option SCFPolicyCtx :=
  match ctx with
  | None => None
  | Some c => Some (set_ctx_nodeRoleMapFrozen true c)
  end.

Definition GetMappingRole (ctx : SCFPolicyCtx) (nodeId : option string) (role : Z) : Z * Z :=
  return_if negb (IsValidNodeId nodeId) with (SCF_ERRNO_RBAC_ROLE_UNKNOWN, role) ;;
  match ctx_nodeRoleMap ctx !! default EmptyString nodeId with
  | None => (SCF_ERRNO_RBAC_ROLE_UNKNOWN, role)
  | Some r => (SCF_SUCCESS, r)
  end.

Definition map_size (m : gmap string Z) : Z := Z.of_nat (size m).

Definition SCF_SetNodeRoleMapping (e : Env) (ctx : option SCFPolicyCtx)
    (nodeId : option string) (role : Z) : Z * option SCFPolicyCtx :=
  match ctx, nodeId with
  | Some c, Some id =>
      return_if negb (IsValidNodeId nodeId) || negb (IsValidRole role)
        with (SCF_ERRNO_INVALID_PARAM, ctx) ;;
      return_if negb (g_scfInitialized e) with (SCF_ERRNO_NOT_INIT, ctx) ;;
      return_if ctx_nodeRoleMapFrozen c with (SCF_ERRNO_RBAC_MAP_FROZEN, ctx) ;;
      return_if bool_decide (ctx_nodeRoleMap c !! id = None)
                && (MAX_NODE_ROLE_MAP_SIZE <=? map_size (ctx_nodeRoleMap c))
        with (SCF_ERRNO_RBAC_MAP_FULL, ctx) ;;
      return_if negb (alloc e 0) with (SCF_ERRNO_MEM_ALLOC, ctx) ;;
      (SCF_SUCCESS, Some (set_ctx_nodeRoleMap (<[id := role]> (ctx_nodeRoleMap c)) c))
  | _, _ => (SCF_ERRNO_NULL_INPUT, ctx)
  end.

Definition SCF_RemoveNodeRoleMapping (e : Env) (ctx : option SCFPolicyCtx)
    (nodeId : option string) : Z * option SCFPolicyCtx :=
  match ctx, nodeId with
  | Some c, Some id =>
      return_if negb (IsValidNodeId nodeId) with (SCF_ERRNO_INVALID_PARAM, ctx) ;;
      return_if negb (g_scfInitialized e) with (SCF_ERRNO_NOT_INIT, ctx) ;;
      return_if ctx_nodeRoleMapFrozen c with (SCF_ERRNO_RBAC_MAP_FROZEN, ctx) ;;
      match ctx_nodeRoleMap c !! id with
      | None => (SCF_ERRNO_RBAC_MAP_NOT_FOUND, ctx)
      | Some _ => (SCF_SUCCESS, Some (set_ctx_nodeRoleMap (delete id (ctx_nodeRoleMap c)) c))
      end
  | _, _ => (SCF_ERRNO_NULL_INPUT, ctx)
  end.

Definition SCF_EnableRbac (e : Env) (ctx : option SCFPolicyCtx) (enable : bool)
    : Z * option SCFPolicyCtx :=
  match ctx with
  | None => (SCF_ERRNO_NULL_INPUT, ctx)
  | Some c =>
      return_if negb (g_scfInitialized e) with (SCF_ERRNO_NOT_INIT, ctx) ;;
      (SCF_SUCCESS, Some (set_ctx_rbacEnabled enable c))
  end.

Definition SCF_IsMasterNode (e : Env) (ctx : option SCFPolicyCtx) (nodeId : option string)
    (isMaster : option bool) : Z * option bool :=
  match ctx, nodeId, isMaster with
  | Some c, Some id, Some _ =>
      return_if negb (IsValidNodeId nodeId) with (SCF_ERRNO_INVALID_PARAM, isMaster) ;;
      return_if negb (g_scfInitialized e) with (SCF_ERRNO_NOT_INIT, isMaster) ;;
      match ctx_nodeRoleMap c !! id with
      | None => (SCF_ERRNO_RBAC_MAP_NOT_FOUND, Some false)
      | Some r => (SCF_SUCCESS, Some (r =? SCF_RBAC_ROLE_MASTER))
      end
  | _, _, _ => (SCF_ERRNO_NULL_INPUT, isMaster)
  end.

Section master_nodes.
Context `{SecureC}.

(** The loop of [SCF_ListMasterNodes]; a row of the list is a [char[128]]. *)
Fixpoint list_masters_loop (mappings : list (string * Z)) (listCap : Z)
    (nodeIdList : list (list ascii)) (actualCount : Z) : Z * list (list ascii) * Z :=
  match mappings with
  | [] => (SCF_SUCCESS, nodeIdList, actualCount)
  | mapping :: mappings' =>
      return_if actualCount =? listCap with (SCF_SUCCESS, nodeIdList, actualCount) ;;
      return_if negb (mapping.2 =? SCF_RBAC_ROLE_MASTER)
        with (list_masters_loop mappings' listCap nodeIdList actualCount) ;;
      let i := Z.to_nat actualCount in
      let row := default [] (nodeIdList !! i) in
      let '(rc, row) := memcpy_s row MAX_NODE_ID_LEN (bytes mapping.1) in
      return_if negb (rc =? EOK)
        with (SCF_ERRNO_MEM_CPY, <[i := row]> nodeIdList, actualCount) ;;
      let row := <[String.length mapping.1 := NUL]> row in
      list_masters_loop mappings' listCap (<[i := row]> nodeIdList)
        (wrap32 (actualCount + 1))
  end.

Definition SCF_ListMasterNodes `{HashOrder} (e : Env) (ctx : option SCFPolicyCtx)
    (nodeIdList : option (list (list ascii))) (listCap : Z) (actualCount : option Z)
    : Z * option (list (list ascii)) * option Z :=
  match ctx, nodeIdList, actualCount with
  | Some c, Some rows, Some _ =>
      return_if listCap =? 0 with (SCF_ERRNO_INVALID_PARAM, nodeIdList, actualCount) ;;
      return_if negb (g_scfInitialized e)
        with (SCF_ERRNO_NOT_INIT, nodeIdList, actualCount) ;;
      let '(ret, rows', n) :=
        list_masters_loop (hash_order (ctx_nodeRoleMap c)) listCap rows 0 in
      (ret, Some rows', Some n)
  | _, _, _ => (SCF_ERRNO_NULL_INPUT, nodeIdList, actualCount)
  end.
End master_nodes.

(** ** Identity and role of a node *)
Section identity.
Context {Cert : Type} `{CertReader Cert} `{SecureC}.

Definition SCF_GetCertNodeId (e : Env) (cert : option Cert)
    (nodeIdBuffer : option (list ascii)) (bufferLen : Z) (nodeIdLen : option Z)
    : Z * option (list ascii) * option Z :=
  match cert, nodeIdBuffer, nodeIdLen with
  | Some crt, Some buf, Some _ =>
      return_if bufferLen =? 0 with (SCF_ERRNO_INVALID_PARAM, nodeIdBuffer, nodeIdLen) ;;
      return_if negb (g_scfInitialized e)
        with (SCF_ERRNO_NOT_INIT, nodeIdBuffer, nodeIdLen) ;;
      return_if negb (g_adaptor e)
        with (SCF_ERRNO_INVALID_PARAM, nodeIdBuffer, nodeIdLen) ;;
      let '(ret, nodeId) := GetCertExtensionByOid crt SCF_OID_NODE_ID in
      return_if ret =? SCF_SSL_ERR_CERT_EXT_ABSENT
        with (SCF_ERRNO_CERT_NODE_ID_ABSENT, nodeIdBuffer, nodeIdLen) ;;
      return_if negb (ret =? SCF_SUCCESS) with (ret, nodeIdBuffer, nodeIdLen) ;;
      return_if has_nul nodeId || negb (IsValidNodeId (Some (cstr nodeId)))
        with (SCF_SSL_ERR_PARSE_CERT, nodeIdBuffer, nodeIdLen) ;;
      return_if bufferLen <=? slen nodeId
        with (SCF_ERRNO_INVALID_PARAM, nodeIdBuffer, nodeIdLen) ;;
      let '(rc, buf) := memcpy_s buf bufferLen (bytes nodeId) in
      return_if negb (rc =? EOK) with (SCF_ERRNO_MEM_CPY, Some buf, nodeIdLen) ;;
      (SCF_SUCCESS, Some (<[String.length nodeId := NUL]> buf), Some (slen nodeId))
  | _, _, _ => (SCF_ERRNO_NULL_INPUT, nodeIdBuffer, nodeIdLen)
  end.

Definition SCF_GetCertRbacRole (e : Env) (cert : option Cert) (role : option Z)
    : Z * option Z :=
  match cert, role with
  | Some crt, Some _ =>
      return_if negb (g_scfInitialized e) with (SCF_ERRNO_NOT_INIT, role) ;;
      return_if negb (g_adaptor e) with (SCF_ERRNO_INVALID_PARAM, role) ;;
      let '(ret, value) := GetCertExtensionByOid crt SCF_OID_RBAC_ROLE in
      return_if ret =? SCF_SSL_ERR_CERT_EXT_ABSENT
        with (SCF_ERRNO_CERT_ROLE_EXT_ABSENT, role) ;;
      return_if negb (ret =? SCF_SUCCESS) with (ret, role) ;;
      let value := ToLower value in
      return_if streq value "master" with (SCF_SUCCESS, Some SCF_RBAC_ROLE_MASTER) ;;
      return_if streq value "slave" with (SCF_SUCCESS, Some SCF_RBAC_ROLE_SLAVE) ;;
      (SCF_SSL_ERR_PARSE_CERT, role)
  | _, _ => (SCF_ERRNO_NULL_INPUT, role)
  end.

(** The tail of [SCF_GetNodeRbacRole]: the mapping lookup. *)
Definition role_from_mapping (ctx : SCFPolicyCtx) (mappingNodeId : option string)
    (role src : Z) : Z * option Z * option Z :=
  let '(ret, role) := GetMappingRole ctx mappingNodeId role in
  return_if negb (ret =? SCF_SUCCESS)
    with (SCF_ERRNO_RBAC_ROLE_UNKNOWN, Some role, Some src) ;;
  (SCF_SUCCESS, Some role, Some SCF_RBAC_ROLE_SRC_MAPPING).

Definition SCF_GetNodeRbacRole (e : Env) (ctx : option SCFPolicyCtx) (cert : option Cert)
    (nodeId : option string) (role src : option Z) : Z * option Z * option Z :=
  match ctx, role, src with
  | Some c, Some _, Some _ =>
      return_if bool_decide (cert = None) && bool_decide (nodeId = None)
        with (SCF_ERRNO_NULL_INPUT, role, src) ;;
      return_if bool_decide (nodeId <> None) && negb (IsValidNodeId nodeId)
        with (SCF_ERRNO_INVALID_PARAM, role, src) ;;
      return_if negb (g_scfInitialized e) with (SCF_ERRNO_NOT_INIT, role, src) ;;
      let role := SCF_RBAC_ROLE_UNKNOWN in
      let src := SCF_RBAC_ROLE_SRC_NONE in
      match cert with
      | None => role_from_mapping c nodeId role src
      | Some _ =>
          let certNodeId := replicate (Z.to_nat MAX_NODE_ID_LEN) NUL in
          let '(certRoleRet, certRole) :=
            SCF_GetCertRbacRole e cert (Some SCF_RBAC_ROLE_UNKNOWN) in
          return_if negb (certRoleRet =? SCF_SUCCESS)
                    && negb (certRoleRet =? SCF_ERRNO_CERT_ROLE_EXT_ABSENT)
            with (certRoleRet, Some role, Some src) ;;
          let '(certNodeIdRet, certNodeId, _) :=
            SCF_GetCertNodeId e cert (Some certNodeId) MAX_NODE_ID_LEN (Some 0) in
          return_if negb (certNodeIdRet =? SCF_SUCCESS)
                    && negb (certNodeIdRet =? SCF_ERRNO_CERT_NODE_ID_ABSENT)
            with (certNodeIdRet, Some role, Some src) ;;
          let mappingNodeId :=
            if certNodeIdRet =? SCF_SUCCESS then buf_cstr <$> certNodeId else nodeId in
          return_if certRoleRet =? SCF_SUCCESS
            with (SCF_SUCCESS, certRole, Some SCF_RBAC_ROLE_SRC_CERT) ;;
          role_from_mapping c mappingNodeId role src
      end
  | _, _, _ => (SCF_ERRNO_NULL_INPUT, role, src)
  end.

Definition ResolveLocalIdentity (e : Env) (ctx : SCFPolicyCtx) (localCert : Cert)
    (localNodeId : list ascii) (localNodeIdSize : Z) (role : Z) : Z * list ascii * Z :=
  let '(ret, buf, _) :=
    SCF_GetCertNodeId e (Some localCert) (Some localNodeId) localNodeIdSize (Some 0) in
  return_if negb (ret =? SCF_SUCCESS) with (ret, default localNodeId buf, role) ;;
  let '(ret, role', _) :=
    SCF_GetNodeRbacRole e (Some ctx) (Some localCert) None (Some role)
      (Some SCF_RBAC_ROLE_SRC_NONE) in
  (ret, default localNodeId buf, default role role').

Definition GetCustomPolicyEffect (ctx : SCFPolicyCtx) (request : PolicyMatchRequest)
    (effect : Z) : bool * Z :=
  let '(matched, eff) := MatchPolicyRule (ctx_policyRuleMap ctx) request (Some effect) in
  (matched, default effect eff).

Definition CheckDefaultResourcePermission (role : Z) (localNodeId targetNodeId : string) : Z :=
  return_if role =? SCF_RBAC_ROLE_MASTER with SCF_SUCCESS ;;
  return_if (role =? SCF_RBAC_ROLE_SLAVE) && streq localNodeId targetNodeId
    with SCF_SUCCESS ;;
  return_if role =? SCF_RBAC_ROLE_SLAVE with SCF_ERRNO_RBAC_DENIED ;;
  SCF_ERRNO_RBAC_ROLE_UNKNOWN.

Definition SCF_CheckResourcePermission (e : Env) (ctx : option SCFPolicyCtx)
    (localCert : option Cert) (targetNodeId : option string) (resourceType action : Z) : Z :=
  match ctx, localCert, targetNodeId with
  | Some c, Some cert, Some target =>
      return_if negb (IsValidNodeId targetNodeId) || negb (IsSingleResourceType resourceType)
                || negb (IsSingleResourceAction action)
        with SCF_ERRNO_INVALID_PARAM ;;
      return_if negb (g_scfInitialized e) with SCF_ERRNO_NOT_INIT ;;
      return_if negb (ctx_rbacEnabled c) with SCF_ERRNO_RBAC_DISABLED ;;
      let localNodeId := replicate (Z.to_nat MAX_NODE_ID_LEN) NUL in
      let '(ret, localNodeId, role) :=
        ResolveLocalIdentity e c cert localNodeId MAX_NODE_ID_LEN SCF_RBAC_ROLE_UNKNOWN in
      return_if negb (ret =? SCF_SUCCESS) with ret ;;
      let request := mkRequest (buf_cstr localNodeId) target resourceType action in
      let '(matched, effect) := GetCustomPolicyEffect c request SCF_POLICY_EFFECT_DENY in
      return_if matched
        with (if effect =? SCF_POLICY_EFFECT_ALLOW then SCF_SUCCESS
              else SCF_ERRNO_RBAC_DENIED) ;;
      CheckDefaultResourcePermission role (buf_cstr localNodeId) target
  | _, _, _ => SCF_ERRNO_NULL_INPUT
  end.
End identity.
