(* ===== verification/RbacInv.v ===== *)
(** * Access control: the table invariant and its histories

    The well-formedness invariant of the RBAC part of a policy context, preserved by
    every operation of [Rbac.v] on every outcome, and the history properties of the
    operations: the frozen mapping never changes again and a rule id is never issued
    twice. *)
From Stdlib Require Import ZArith Lia Ascii String.
From stdpp Require Import base list fin_maps gmap strings sorting relations.
From S2P Require Import Prelude Errno Types PolicyMatcher Rbac.
Open Scope Z_scope.

(** ** The invariant *)

(** A stored node id: valid, and a C string. *)
Definition node_id_ok (id : string) : Prop :=
  IsValidNodeId (Some id) = true /\ has_nul id = false.

Definition rule_fields_ok (r : SCF_PolicyRule) : bool :=
  IsValidNodeId (Some (rule_subjectNodeId r))
  && (IsValidNodeId (Some (rule_targetNodeId r)) || streq (rule_targetNodeId r) "*")
  && IsValidBitmap (rule_resourceTypeBitmap r) SCF_RES_TYPE_ALL
  && IsValidBitmap (rule_actionBitmap r) (Z.lor SCF_RES_ACTION_APPLY SCF_RES_ACTION_RELEASE)
  && IsValidPolicyEffect (rule_effect r).

(** The key two stored rules may not share. *)
Definition rule_key (r : SCF_PolicyRule) : string * string * Z * Z :=
  (rule_subjectNodeId r, rule_targetNodeId r, rule_resourceTypeBitmap r, rule_actionBitmap r).

(** An id that has been issued when the counter is [next] (0: all of them). *)
Definition issued_before (id next : Z) : Prop :=
  1 <= id <= UINT32_MAX /\ (next = 0 \/ id < next).

Record rules_wf (c : SCFPolicyCtx) : Prop := {
  rw_sorted : OMap.wf (ctx_policyRuleMap c);
  rw_next : is_u32 (ctx_nextPolicyRuleId c);
  rw_item : forall id r, (id, r) ∈ ctx_policyRuleMap c ->
    rule_ruleId r = id /\ issued_before id (ctx_nextPolicyRuleId c) /\
    rule_fields_ok r = true;
  rw_keys : NoDup ((fun item => rule_key item.2) <$> ctx_policyRuleMap c);
  rw_size : OMap.size (ctx_policyRuleMap c) <= MAX_POLICY_RULE_SIZE
}.

Record nodes_wf (c : SCFPolicyCtx) : Prop := {
  nw_entry : forall id r, ctx_nodeRoleMap c !! id = Some r ->
    node_id_ok id /\ IsValidRole r = true;
  nw_size : map_size (ctx_nodeRoleMap c) <= MAX_NODE_ROLE_MAP_SIZE
}.

Definition rbac_wf (c : SCFPolicyCtx) : Prop := rules_wf c /\ nodes_wf c.

(** ** The operations as steps *)

Inductive rbac_op : Type :=
| OpAddPolicyRule (subject target : string) (resourceTypeBitmap actionBitmap effect : Z)
| OpRemovePolicyRule (ruleId : Z)
| OpSetNodeRoleMapping (nodeId : string) (role : Z)
| OpRemoveNodeRoleMapping (nodeId : string)
| OpFreezeNodeRoleMapping
| OpEnableRbac (enable : bool).

(** C callers pass NUL-terminated ids. *)
Definition op_ok (op : rbac_op) : Prop :=
  match op with
  | OpSetNodeRoleMapping nodeId _ => has_nul nodeId = false
  | _ => True
  end.

(** The code, the context after the call and the rule id written, 0 when none. *)
Definition run_op (e : Env) (op : rbac_op) (c : SCFPolicyCtx) : Z * SCFPolicyCtx * Z :=
  match op with
  | OpAddPolicyRule subject target rt act eff =>
      let '(ret, c', id) :=
        SCF_AddPolicyRule e (Some c) (Some subject) (Some target) rt act eff (Some 0) in
      (ret, default c c', default 0 id)
  | OpRemovePolicyRule id =>
      let '(ret, c') := SCF_RemovePolicyRule e (Some c) id in (ret, default c c', 0)
  | OpSetNodeRoleMapping nodeId role =>
      let '(ret, c') := SCF_SetNodeRoleMapping e (Some c) (Some nodeId) role in
      (ret, default c c', 0)
  | OpRemoveNodeRoleMapping nodeId =>
      let '(ret, c') := SCF_RemoveNodeRoleMapping e (Some c) (Some nodeId) in
      (ret, default c c', 0)
  | OpFreezeNodeRoleMapping =>
      (SCF_SUCCESS, default c (FreezeNodeRoleMapping (Some c)), 0)
  | OpEnableRbac b =>
      let '(ret, c') := SCF_EnableRbac e (Some c) b in (ret, default c c', 0)
  end.

Inductive rbac_step : SCFPolicyCtx -> SCFPolicyCtx -> Prop :=
| rbac_step_op e op c : op_ok op -> rbac_step c (run_op e op c).1.2.

Definition reachable (c : SCFPolicyCtx) : Prop := rtc rbac_step new_policy_ctx c.

(** The ids a history of calls issues, in order. *)
Fixpoint issued (h : list (Env * rbac_op)) (c : SCFPolicyCtx) : list Z :=
  match h with
  | [] => []
  | (e, op) :: h' =>
      let '(_, c', id) := run_op e op c in
      if id =? 0 then issued h' c' else id :: issued h' c'
  end.

(** ** Inserting a rule *)

Lemma same_key_true a b : IsSamePolicyRuleKey a b = true <-> rule_key a = rule_key b.
Proof.
  unfold IsSamePolicyRuleKey, rule_key.
  rewrite !andb_true_iff, !streq_eq, !Z.eqb_eq. split; [intros [[[-> ->] ->] ->]; done|].
  by intros [= -> -> -> ->].
Qed.

Lemma no_same_key (rules : list (Z * SCF_PolicyRule)) rule :
  existsb (fun item => IsSamePolicyRuleKey item.2 rule) rules = false ->
  forall id r, (id, r) ∈ rules -> rule_key r <> rule_key rule.
Proof.
  intros H id r Hin Hk. apply same_key_true in Hk.
  apply not_true_iff_false in H. apply H, existsb_exists.
  exists (id, r). split; [by apply list_elem_of_In|done].
Qed.

(** The counter after [id] was issued. *)
Definition next_id (id : Z) : Z := if id =? UINT32_MAX then 0 else wrap32 (id + 1).

(** The context after [rule] was stored under the next id. *)
Definition stored (c : SCFPolicyCtx) (rule : SCF_PolicyRule) : SCFPolicyCtx :=
  let id := ctx_nextPolicyRuleId c in
  set_ctx_nextPolicyRuleId (next_id id)
    (set_ctx_policyRuleMap
       (OMap.insert id (set_rule_ruleId id rule) (ctx_policyRuleMap c)) c).

Lemma InsertPolicyRule_inv e c rule ret c' rule' :
  InsertPolicyRule e c rule = Some (ret, c', rule') ->
  (ret <> SCF_SUCCESS /\ c' = c) \/
  (ret = SCF_SUCCESS /\ c' = stored c rule /\ ctx_nextPolicyRuleId c <> 0 /\
   rule' = set_rule_ruleId (ctx_nextPolicyRuleId c) rule /\
   OMap.find (ctx_nextPolicyRuleId c) (ctx_policyRuleMap c) = None /\
   OMap.size (ctx_policyRuleMap c) < MAX_POLICY_RULE_SIZE /\
   existsb (fun item => IsSamePolicyRuleKey item.2 rule) (ctx_policyRuleMap c) = false).
Proof.
  unfold InsertPolicyRule, OMap.emplace, stored, next_id. simpl.
  destruct (existsb _ _) eqn:Edup; [intros [= <- <- <-]; left; split; [by vm_compute|done]|].
  destruct (_ || _)%bool eqn:Efull; [intros [= <- <- <-]; left; split; [by vm_compute|done]|].
  destruct (alloc e 1); simpl; [|done].
  destruct (OMap.find _ _) eqn:Ef; simpl;
    [intros [= <- <- <-]; left; split; [by vm_compute|done]|].
  intros [= <- <- <-]. right. bools. by split_and!.
Qed.

Lemma next_id_range id : 1 <= id <= UINT32_MAX -> is_u32 (next_id id).
Proof.
  unfold next_id, is_u32, wrap32. intros H. case_match; [vm_compute; split; congruence|].
  bools. unfold UINT32_MAX in *. rewrite Z.mod_small; lia.
Qed.

Lemma next_id_issued id id' :
  1 <= id' <= UINT32_MAX -> issued_before id id' -> issued_before id (next_id id').
Proof.
  unfold issued_before, next_id. intros H [? ?]. split; [done|]. case_match; [by left|].
  bools. rewrite wrap32_id by (unfold is_u32 in *; lia). lia.
Qed.

Lemma next_id_self id : 1 <= id <= UINT32_MAX -> issued_before id (next_id id).
Proof.
  unfold issued_before, next_id. intros H. split; [done|]. case_match; [by left|].
  bools. rewrite wrap32_id by (unfold is_u32 in *; lia). lia.
Qed.

Lemma insert_perm {A} k (a : A) m :
  OMap.find k m = None -> OMap.insert k a m ≡ₚ (k, a) :: m.
Proof.
  induction m as [|[k' a'] m IH]; simpl; [done|].
  destruct (k =? k') eqn:E; [done|]. intros H.
  destruct (k <? k'); [done|]. rewrite IH by done. apply Permutation_swap.
Qed.

Lemma stored_rules_wf c rule :
  rules_wf c -> ctx_nextPolicyRuleId c <> 0 ->
  OMap.find (ctx_nextPolicyRuleId c) (ctx_policyRuleMap c) = None ->
  OMap.size (ctx_policyRuleMap c) < MAX_POLICY_RULE_SIZE ->
  existsb (fun item => IsSamePolicyRuleKey item.2 rule) (ctx_policyRuleMap c) = false ->
  rule_fields_ok rule = true -> rules_wf (stored c rule).
Proof.
  intros [Hs Hn Hi Hk Hz] Hn0 Hf Hsz Hdup Hok. unfold is_u32 in Hn.
  assert (Hid : 1 <= ctx_nextPolicyRuleId c <= UINT32_MAX) by lia.
  split; simpl; [by apply OMap.insert_wf|by apply next_id_range| | |].
  - intros id r Hin. apply OMap.insert_elem in Hin as [[= -> ->]|Hin].
    + split_and!; [done|by apply next_id_self|done].
    + destruct (Hi _ _ Hin) as (? & ? & ?). split_and!; [done|by apply next_id_issued|done].
  - rewrite (insert_perm _ _ _ Hf). simpl. constructor; [|done].
    intros Hin. apply list_elem_of_fmap in Hin as [[id r] [Heq Hin]].
    apply (no_same_key _ _ Hdup _ _ Hin). symmetry. exact Heq.
  - unfold OMap.size in *. rewrite OMap.insert_length by done. lia.
Qed.

Lemma erase_sublist {A} k (m : list (Z * A)) : OMap.erase k m `sublist_of` m.
Proof.
  induction m as [|[k' a'] m IH]; simpl; [done|].
  destruct (k =? k'); [by constructor|by constructor].
Qed.

Lemma removed_rules_wf c id :
  rules_wf c -> rules_wf (set_ctx_policyRuleMap (OMap.erase id (ctx_policyRuleMap c)) c).
Proof.
  intros [Hs Hn Hi Hk Hz]. pose proof (erase_sublist id (ctx_policyRuleMap c)) as Hsub.
  split; simpl; [by apply OMap.erase_wf|done| | |].
  - intros id' r Hin. apply OMap.erase_elem in Hin. auto.
  - eapply sublist_NoDup; [exact Hk|]. by apply fmap_sublist.
  - unfold OMap.size in *. apply sublist_length in Hsub. lia.
Qed.

(** ** What each operation does to the context *)

Lemma run_op_Add e c subject target rt act eff :
  let rule := mkPolicyRule 0 subject target rt act eff in
  let res := run_op e (OpAddPolicyRule subject target rt act eff) c in
  (res.1.1 <> SCF_SUCCESS /\ res.1.2 = c /\ res.2 = 0) \/
  (res.1.1 = SCF_SUCCESS /\ res.1.2 = stored c rule /\ res.2 = ctx_nextPolicyRuleId c /\
   ctx_nextPolicyRuleId c <> 0 /\ rule_fields_ok rule = true /\
   OMap.find (ctx_nextPolicyRuleId c) (ctx_policyRuleMap c) = None /\
   OMap.size (ctx_policyRuleMap c) < MAX_POLICY_RULE_SIZE /\
   existsb (fun item => IsSamePolicyRuleKey item.2 rule) (ctx_policyRuleMap c) = false).
Proof.
  intros rule. unfold run_op, SCF_AddPolicyRule.
  destruct (_ || _ || _ || _ || _)%bool eqn:Ev; [left; split; [by vm_compute|done]|].
  destruct (g_scfInitialized e); simpl; [|left; split; [by vm_compute|done]].
  destruct (alloc e 0); simpl; [|left; split; [by vm_compute|done]].
  fold rule. destruct (InsertPolicyRule e c rule) as [[[ret c'] rule']|] eqn:Ei; simpl;
    [|left; split; [by vm_compute|done]].
  apply InsertPolicyRule_inv in Ei as [[Hr ->]|(-> & -> & Hn & -> & Hf & Hs & Hd)].
  - left. destruct (ret =? SCF_SUCCESS) eqn:E; bools; done.
  - right. simpl. split_and!; try done.
    unfold rule_fields_ok. simpl rule_subjectNodeId. simpl rule_targetNodeId.
    rewrite !orb_false_iff, !negb_false_iff in Ev. by rewrite !andb_true_iff.
Qed.

Lemma run_op_Remove e c id :
  let res := run_op e (OpRemovePolicyRule id) c in
  res.2 = 0 /\
  (res.1.2 = c \/
   res.1.2 = set_ctx_policyRuleMap (OMap.erase id (ctx_policyRuleMap c)) c).
Proof.
  unfold run_op, SCF_RemovePolicyRule. destruct (id =? 0); [auto|].
  destruct (g_scfInitialized e); simpl; [|auto]. destruct (OMap.find _ _); simpl; auto.
Qed.

Lemma run_op_Set e c nodeId role :
  let res := run_op e (OpSetNodeRoleMapping nodeId role) c in
  res.2 = 0 /\
  (res.1.2 = c \/
   (ctx_nodeRoleMapFrozen c = false /\ IsValidNodeId (Some nodeId) = true /\
    IsValidRole role = true /\
    (is_Some (ctx_nodeRoleMap c !! nodeId) \/
     map_size (ctx_nodeRoleMap c) < MAX_NODE_ROLE_MAP_SIZE) /\
    res.1.2 = set_ctx_nodeRoleMap (<[nodeId := role]> (ctx_nodeRoleMap c)) c)).
Proof.
  unfold run_op, SCF_SetNodeRoleMapping.
  destruct (negb (IsValidNodeId (Some nodeId)) || negb (IsValidRole role))%bool eqn:Ev;
    [simpl; auto|].
  destruct (g_scfInitialized e); simpl; [|auto].
  destruct (ctx_nodeRoleMapFrozen c) eqn:Ef; simpl; [auto|].
  destruct (bool_decide _ && _)%bool eqn:Efull; simpl; [auto|].
  destruct (alloc e 0); simpl; [|auto]. split; [done|]. right.
  rewrite orb_false_iff, !negb_false_iff in Ev. destruct Ev. split_and!; try done.
  apply andb_false_iff in Efull as [E|E]; bools; [left|right; lia].
  destruct (_ !! _); [eauto|done].
Qed.

Lemma run_op_RemoveNode e c nodeId :
  let res := run_op e (OpRemoveNodeRoleMapping nodeId) c in
  res.2 = 0 /\
  (res.1.2 = c \/
   (ctx_nodeRoleMapFrozen c = false /\ is_Some (ctx_nodeRoleMap c !! nodeId) /\
    res.1.2 = set_ctx_nodeRoleMap (delete nodeId (ctx_nodeRoleMap c)) c)).
Proof.
  unfold run_op, SCF_RemoveNodeRoleMapping.
  destruct (negb (IsValidNodeId (Some nodeId))); [simpl; auto|].
  destruct (g_scfInitialized e); simpl; [|auto].
  destruct (ctx_nodeRoleMapFrozen c) eqn:Ef; simpl; [auto|].
  destruct (_ !! nodeId) eqn:El; simpl; [|auto]. split; [done|]. right. by eauto.
Qed.

Lemma run_op_Enable e c b :
  let res := run_op e (OpEnableRbac b) c in
  res.2 = 0 /\ (res.1.2 = c \/ res.1.2 = set_ctx_rbacEnabled b c).
Proof. unfold run_op, SCF_EnableRbac. destruct (g_scfInitialized e); simpl; auto. Qed.

(** ** Preservation *)

Lemma map_size_insert (m : gmap string Z) k v :
  map_size (<[k := v]> m) = map_size m \/
  (m !! k = None /\ map_size (<[k := v]> m) = map_size m + 1).
Proof.
  unfold map_size. rewrite map_size_insert. destruct (m !! k) eqn:E; simpl; [left; done|].
  right. split; [done|lia].
Qed.

Lemma set_node_wf c nodeId role :
  nodes_wf c -> IsValidNodeId (Some nodeId) = true -> has_nul nodeId = false ->
  IsValidRole role = true ->
  (is_Some (ctx_nodeRoleMap c !! nodeId) \/
   map_size (ctx_nodeRoleMap c) < MAX_NODE_ROLE_MAP_SIZE) ->
  nodes_wf (set_ctx_nodeRoleMap (<[nodeId := role]> (ctx_nodeRoleMap c)) c).
Proof.
  intros [He Hs] Hv Hn Hr Hsz. split; simpl.
  - intros id r. rewrite lookup_insert_Some. intros [[<- <-]|[_ Hl]]; [|auto].
    unfold node_id_ok. auto.
  - destruct (map_size_insert (ctx_nodeRoleMap c) nodeId role) as [->|[Hno ->]]; [done|].
    rewrite Hno in Hsz. destruct Hsz as [[? [=]]|]; lia.
Qed.

Lemma remove_node_wf c nodeId :
  nodes_wf c -> nodes_wf (set_ctx_nodeRoleMap (delete nodeId (ctx_nodeRoleMap c)) c).
Proof.
  intros [He Hs]. split; simpl.
  - intros id r. rewrite lookup_delete_Some. intros [_ Hl]. auto.
  - unfold map_size in *. rewrite map_size_delete. destruct (_ !! nodeId); simpl; lia.
Qed.

Lemma rules_wf_ext c c' :
  ctx_policyRuleMap c' = ctx_policyRuleMap c ->
  ctx_nextPolicyRuleId c' = ctx_nextPolicyRuleId c -> rules_wf c -> rules_wf c'.
Proof. intros Hm Hn [????]. split; rewrite ?Hm, ?Hn; done. Qed.

Lemma nodes_wf_ext c c' :
  ctx_nodeRoleMap c' = ctx_nodeRoleMap c -> nodes_wf c -> nodes_wf c'.
Proof. intros Hm [??]. split; rewrite ?Hm; done. Qed.

Lemma run_op_wf e op c : op_ok op -> rbac_wf c -> rbac_wf (run_op e op c).1.2.
Proof.
  intros Hop [Hr Hn]. destruct op as [s t rt act eff|id|nodeId role|nodeId| |b].
  - destruct (run_op_Add e c s t rt act eff) as [(_ & -> & _)|(_ & -> & _ & ? & ? & ? & ? & ?)];
      [by split|]. split; [by apply stored_rules_wf|by apply (nodes_wf_ext c)].
  - destruct (run_op_Remove e c id) as [_ [->| ->]]; [by split|].
    split; [by apply removed_rules_wf|by apply (nodes_wf_ext c)].
  - destruct (run_op_Set e c nodeId role) as [_ [->|(_ & ? & ? & ? & ->)]]; [by split|].
    split; [by apply (rules_wf_ext c)|by apply set_node_wf].
  - destruct (run_op_RemoveNode e c nodeId) as [_ [->|(_ & _ & ->)]]; [by split|].
    split; [by apply (rules_wf_ext c)|by apply remove_node_wf].
  - split; [by apply (rules_wf_ext c)|by apply (nodes_wf_ext c)].
  - destruct (run_op_Enable e c b) as [_ [->| ->]]; [by split|].
    split; [by apply (rules_wf_ext c)|by apply (nodes_wf_ext c)].
Qed.

Lemma new_ctx_wf : rbac_wf new_policy_ctx.
Proof.
  split; split; simpl.
  - constructor.
  - unfold is_u32, UINT32_MAX. lia.
  - intros id r Hin. by apply not_elem_of_nil in Hin.
  - constructor.
  - unfold OMap.size, MAX_POLICY_RULE_SIZE. simpl. lia.
  - intros id r Hl. by rewrite lookup_empty in Hl.
  - unfold map_size, MAX_NODE_ROLE_MAP_SIZE. rewrite map_size_empty. lia.
Qed.

Lemma steps_wf c c' : rtc rbac_step c c' -> rbac_wf c -> rbac_wf c'.
Proof.
  induction 1 as [|c c1 c' Hs _ IH]; [done|]. intros Hw. apply IH.
  inversion Hs; subst. by apply run_op_wf.
Qed.

(** (C31) Every context reachable from a fresh one by the RBAC operations, in any
    order, with any arguments, allocator answers and initialisation state, is well
    formed: rule ids are unique, in 1..UINT32_MAX and already issued, every stored
    rule passes validation, no two share subject, target, types and actions, every
    mapped node id and role is valid, and both tables respect their capacity. *)
Theorem reachable_rbac_wf c : reachable c -> rbac_wf c.
Proof. intros H. exact (steps_wf _ _ H new_ctx_wf). Qed.

(** ** Histories *)

(** A frozen mapping is final under one operation. *)
Lemma run_op_frozen e op c :
  ctx_nodeRoleMapFrozen c = true ->
  ctx_nodeRoleMapFrozen (run_op e op c).1.2 = true /\
  ctx_nodeRoleMap (run_op e op c).1.2 = ctx_nodeRoleMap c.
Proof.
  intros Hf. destruct op as [s t rt act eff|id|nodeId role|nodeId| |b].
  - destruct (run_op_Add e c s t rt act eff) as [(_ & -> & _)|(_ & -> & _)]; done.
  - destruct (run_op_Remove e c id) as [_ [->| ->]]; done.
  - destruct (run_op_Set e c nodeId role) as [_ [->|(? & _)]]; [done|congruence].
  - destruct (run_op_RemoveNode e c nodeId) as [_ [->|(? & _)]]; [done|congruence].
  - done.
  - destruct (run_op_Enable e c b) as [_ [->| ->]]; done.
Qed.

Lemma frozen_steps c c' :
  ctx_nodeRoleMapFrozen c = true -> rtc rbac_step c c' ->
  ctx_nodeRoleMapFrozen c' = true /\ ctx_nodeRoleMap c' = ctx_nodeRoleMap c.
Proof.
  intros Hf. induction 1 as [c|c c1 c' Hs _ IH]; [done|].
  inversion Hs; subst. destruct (run_op_frozen e op c Hf) as [Hf' <-]. by apply IH.
Qed.

(** (C36) Once the mapping is frozen (the first connection), no sequence of RBAC
    operations changes the role of any node. *)
Theorem frozen_mapping_immutable c c' :
  ctx_nodeRoleMapFrozen c = true -> rtc rbac_step c c' ->
  ctx_nodeRoleMapFrozen c' = true /\ ctx_nodeRoleMap c' = ctx_nodeRoleMap c.
Proof. apply frozen_steps. Qed.

(** The ids a history may still issue. *)
Definition still_free (id next : Z) : Prop := next <> 0 /\ next <= id <= UINT32_MAX.

Lemma run_op_next e op c :
  rules_wf c ->
  ((run_op e op c).2 = 0 /\ ctx_nextPolicyRuleId (run_op e op c).1.2 = ctx_nextPolicyRuleId c)
  \/ ((run_op e op c).2 = ctx_nextPolicyRuleId c /\ ctx_nextPolicyRuleId c <> 0 /\
      ctx_nextPolicyRuleId (run_op e op c).1.2 = next_id (ctx_nextPolicyRuleId c)).
Proof.
  intros Hw. destruct op as [s t rt act eff|id|nodeId role|nodeId| |b].
  - destruct (run_op_Add e c s t rt act eff) as [(_ & -> & ->)|(_ & -> & -> & ? & _)];
      [left; done|right; done].
  - left. destruct (run_op_Remove e c id) as [-> [->| ->]]; done.
  - left. destruct (run_op_Set e c nodeId role) as [-> [->|(_ & _ & _ & _ & ->)]]; done.
  - left. destruct (run_op_RemoveNode e c nodeId) as [-> [->|(_ & _ & ->)]]; done.
  - left. done.
  - left. destruct (run_op_Enable e c b) as [-> [->| ->]]; done.
Qed.

Lemma issued_free h c :
  Forall (fun call => op_ok call.2) h -> rbac_wf c ->
  StronglySorted Z.lt (issued h c) /\
  Forall (fun id => still_free id (ctx_nextPolicyRuleId c)) (issued h c).
Proof.
  revert c. induction h as [|[e op] h IH]; intros c Hok Hw; simpl; [split; constructor|].
  apply Forall_cons in Hok as [Hop Hok].
  pose proof (run_op_wf e op c Hop Hw) as Hw'. destruct Hw as [Hr _].
  pose proof (run_op_next e op c Hr) as Hnext. pose proof (rw_next _ Hr) as Hu.
  destruct (run_op e op c) as [[ret c'] id] eqn:E. simpl in *.
  destruct (IH c' Hok Hw') as [Hs Hf]. unfold is_u32 in Hu.
  destruct Hnext as [[-> Hc]|(-> & Hn0 & Hc)]; [simpl; by rewrite <- Hc|].
  rewrite (proj2 (Z.eqb_neq _ _) Hn0). rewrite Hc in Hf.
  assert (Hlt : Forall (fun id => ctx_nextPolicyRuleId c < id <= UINT32_MAX) (issued h c')).
  { eapply Forall_impl; [exact Hf|]. intros id [Hnz Hle]. unfold next_id in *.
    case_match; [done|]. bools. rewrite wrap32_id in Hle by (unfold is_u32; lia). lia. }
  split.
  - constructor; [done|]. eapply Forall_impl; [exact Hlt|]. simpl. lia.
  - constructor; [unfold still_free; lia|]. eapply Forall_impl; [exact Hlt|].
    unfold still_free. simpl. lia.
Qed.

(** Over the whole life of a context no rule id is ever issued twice, removals
    and counter exhaustion included: the issued ids strictly increase and stay in
    1..UINT32_MAX. *)
Theorem rule_ids_never_reused h :
  Forall (fun call => op_ok call.2) h ->
  StronglySorted Z.lt (issued h new_policy_ctx) /\
  Forall (fun id => 1 <= id <= UINT32_MAX) (issued h new_policy_ctx).
Proof.
  intros Hok. destruct (issued_free h new_policy_ctx Hok new_ctx_wf) as [Hs Hf].
  split; [done|]. eapply Forall_impl; [exact Hf|]. unfold still_free. simpl. lia.
Qed.

(** ** Concrete histories *)

Definition run_ops (h : list (Env * rbac_op)) (c : SCFPolicyCtx) : SCFPolicyCtx :=
  foldl (fun c call => (run_op call.1 call.2 c).1.2) c h.

Lemma run_ops_steps h c :
  Forall (fun call => op_ok call.2) h -> rtc rbac_step c (run_ops h c).
Proof.
  revert c. induction h as [|[e op] h IH]; intros c Hok; [apply rtc_refl|].
  apply Forall_cons in Hok as [Hop Hok]. eapply rtc_l; [by apply (rbac_step_op e op)|].
  by apply IH.
Qed.

Definition ex_history : list (Env * rbac_op) :=
  [ (env_up, OpEnableRbac true);
    (env_up, OpSetNodeRoleMapping "nodeA" SCF_RBAC_ROLE_SLAVE);
    (env_up, OpSetNodeRoleMapping "nodeB" SCF_RBAC_ROLE_MASTER);
    (env_up, OpAddPolicyRule "nodeA" "*" SCF_RES_TYPE_FD 3 SCF_POLICY_EFFECT_ALLOW);
    (env_up, OpRemovePolicyRule 1);
    (env_up, OpAddPolicyRule "nodeA" "*" SCF_RES_TYPE_ALL 3 SCF_POLICY_EFFECT_ALLOW);
    (env_up, OpFreezeNodeRoleMapping) ].

Lemma ex_history_ok : Forall (fun call => op_ok call.2) ex_history.
Proof. unfold ex_history. by rewrite !Forall_cons, Forall_nil. Qed.

Definition ex_ctx : SCFPolicyCtx := run_ops ex_history new_policy_ctx.

Lemma ex_ctx_reachable : reachable ex_ctx.
Proof. exact (run_ops_steps _ _ ex_history_ok). Qed.

Lemma reachable_rbac_wf_witness :
  reachable ex_ctx /\ rbac_wf ex_ctx /\ OMap.size (ctx_policyRuleMap ex_ctx) = 1.
Proof.
  split_and!; [exact ex_ctx_reachable| |by vm_compute].
  exact (reachable_rbac_wf ex_ctx ex_ctx_reachable).
Defined.

Definition ex_late_calls : list (Env * rbac_op) :=
  [ (env_up, OpSetNodeRoleMapping "nodeA" SCF_RBAC_ROLE_MASTER);
    (env_up, OpRemoveNodeRoleMapping "nodeB") ].

Lemma ex_late_calls_ok : Forall (fun call => op_ok call.2) ex_late_calls.
Proof. unfold ex_late_calls. by rewrite !Forall_cons, Forall_nil. Qed.

Lemma frozen_mapping_immutable_witness :
  ctx_nodeRoleMapFrozen ex_ctx = true /\
  ctx_nodeRoleMap (run_ops ex_late_calls ex_ctx) = ctx_nodeRoleMap ex_ctx.
Proof.
  split; [by vm_compute|].
  apply (frozen_mapping_immutable ex_ctx); [by vm_compute|].
  exact (run_ops_steps _ _ ex_late_calls_ok).
Defined.

Lemma rule_ids_never_reused_witness :
  issued ex_history new_policy_ctx = [1; 2] /\
  StronglySorted Z.lt (issued ex_history new_policy_ctx).
Proof.
  split; [by vm_compute|].
  exact (proj1 (rule_ids_never_reused ex_history ex_history_ok)).
Defined.
