(* ===== verification/RbacSpec.v ===== *)
(** * Access control: what the handlers promise

    The abstract authorisation decision (identity and role of a certificate, rule
    decision, default rule) with no buffers, codes or locks, and the theorems that
    the handlers of [Rbac.v] compute it, that their output buffers hold exactly what
    is documented, and the safety consequences. *)
From Stdlib Require Import ZArith Lia Ascii String.
From stdpp Require Import base list fin_maps gmap strings sorting relations.
From S2P Require Import Prelude Errno Types PolicyMatcher Rbac RbacInv.
Open Scope Z_scope.

#[local] Arguments IsValidNodeId : simpl never.
#[local] Arguments MatchPolicyRule : simpl never.

(** ** The abstract decision: an error code on the left, the answer on the right *)
Section decision_spec.
Context {Cert : Type} `{CertReader Cert}.

Definition cert_node_id (crt : Cert) : Z + string :=
  let '(ret, id) := GetCertExtensionByOid crt SCF_OID_NODE_ID in
  if ret =? SCF_SSL_ERR_CERT_EXT_ABSENT then inl SCF_ERRNO_CERT_NODE_ID_ABSENT
  else if negb (ret =? SCF_SUCCESS) then inl ret
  else if bool_decide (has_nul id = false /\ IsValidNodeId (Some id) = true)
  then inr id else inl SCF_SSL_ERR_PARSE_CERT.

Definition cert_role (crt : Cert) : Z + Z :=
  let '(ret, v) := GetCertExtensionByOid crt SCF_OID_RBAC_ROLE in
  if ret =? SCF_SSL_ERR_CERT_EXT_ABSENT then inl SCF_ERRNO_CERT_ROLE_EXT_ABSENT
  else if negb (ret =? SCF_SUCCESS) then inl ret
  else if streq (ToLower v) "master" then inr SCF_RBAC_ROLE_MASTER
  else if streq (ToLower v) "slave" then inr SCF_RBAC_ROLE_SLAVE
  else inl SCF_SSL_ERR_PARSE_CERT.

Definition mapped_role (c : SCFPolicyCtx) (id : option string) : Z + (Z * Z) :=
  match id with
  | None => inl SCF_ERRNO_RBAC_ROLE_UNKNOWN
  | Some id =>
      match ctx_nodeRoleMap c !! id with
      | Some r => inr (r, SCF_RBAC_ROLE_SRC_MAPPING)
      | None => inl SCF_ERRNO_RBAC_ROLE_UNKNOWN
      end
  end.

(** The node id the mapping is asked about: the certificate's when it has one. *)
Definition lookup_id (crt : Cert) (nodeId : option string) : Z + option string :=
  match cert_node_id crt with
  | inr id => inr (Some id)
  | inl r => if r =? SCF_ERRNO_CERT_NODE_ID_ABSENT then inr nodeId else inl r
  end.

(** Role and source of a node: the certificate decides when it carries a role. *)
Definition node_role (c : SCFPolicyCtx) (cert : option Cert) (nodeId : option string)
    : Z + (Z * Z) :=
  match cert with
  | None => mapped_role c nodeId
  | Some crt =>
      match cert_role crt with
      | inr role =>
          match lookup_id crt nodeId with
          | inr _ => inr (role, SCF_RBAC_ROLE_SRC_CERT)
          | inl r => inl r
          end
      | inl r =>
          if r =? SCF_ERRNO_CERT_ROLE_EXT_ABSENT then
            match lookup_id crt nodeId with
            | inr id => mapped_role c id
            | inl r => inl r
            end
          else inl r
      end
  end.

Definition authorize (c : SCFPolicyCtx) (crt : Cert) (target : string) (rt act : Z) : Z :=
  match cert_node_id crt, node_role c (Some crt) None with
  | inl r, _ => r
  | _, inl r => r
  | inr id, inr (role, _) =>
      match decision (mkRequest id target rt act) (ctx_policyRuleMap c) with
      | Some eff =>
          if eff =? SCF_POLICY_EFFECT_ALLOW then SCF_SUCCESS else SCF_ERRNO_RBAC_DENIED
      | None =>
          if (role =? SCF_RBAC_ROLE_MASTER) || streq id target
          then SCF_SUCCESS else SCF_ERRNO_RBAC_DENIED
      end
  end.
End decision_spec.

(** ** Identity *)
Section identity_spec.
Context {Cert : Type} `{CertReader Cert} `{SecureC}.

Lemma valid_node_id_length id :
  IsValidNodeId (Some id) = true -> 0 < slen id < MAX_NODE_ID_LEN.
Proof.
  unfold IsValidNodeId. destruct (streq id "*"); [done|].
  unfold strnlen, MAX_NODE_ID_LEN. intros Hv. bools. lia.
Qed.

Lemma cert_node_id_ok crt id :
  cert_node_id crt = inr id -> node_id_ok id /\ 0 < slen id < MAX_NODE_ID_LEN.
Proof.
  unfold cert_node_id. destruct (GetCertExtensionByOid crt SCF_OID_NODE_ID) as [ret s].
  destruct (_ =? _); [done|]. destruct (negb _); [done|].
  case_bool_decide as Hd; [|done]. intros [= <-]. destruct Hd as [Hn Hv].
  split; [by split|by apply valid_node_id_length].
Qed.

Lemma cert_node_id_err crt r : cert_node_id crt = inl r -> r <> SCF_SUCCESS.
Proof.
  unfold cert_node_id. destruct (GetCertExtensionByOid crt SCF_OID_NODE_ID) as [ret s].
  destruct (_ =? _); [intros [= <-]; by vm_compute|].
  destruct (negb (_ =? _)) eqn:E; [intros [= <-]; by bools|].
  case_bool_decide; [done|]. intros [= <-]. by vm_compute.
Qed.

(** Writing the terminator after the copy gives the id, NUL, and the old tail. *)
Lemma terminate_copy s buf :
  (String.length s < length buf)%nat ->
  <[String.length s := NUL]> (bytes s ++ drop (length (bytes s)) buf)
  = bytes s ++ NUL :: drop (S (String.length s)) buf.
Proof.
  intros Hl. rewrite <- length_bytes at 1.
  rewrite insert_app_r_alt, Nat.sub_diag by lia. f_equal. rewrite length_bytes.
  destruct (lookup_lt_is_Some_2 buf _ Hl) as [a Ha]. by rewrite (drop_S _ _ _ Ha).
Qed.

Lemma GetCertNodeId_eq e crt buf bufferLen len0 :
  ready e -> 0 < bufferLen <= SECUREC_MEM_MAX_LEN ->
  bufferLen <= Z.of_nat (length buf) ->
  SCF_GetCertNodeId e (Some crt) (Some buf) bufferLen (Some len0) =
  match cert_node_id crt with
  | inl r => (r, Some buf, Some len0)
  | inr id =>
      if bufferLen <=? slen id then (SCF_ERRNO_INVALID_PARAM, Some buf, Some len0)
      else (SCF_SUCCESS,
            Some (bytes id ++ NUL :: drop (S (String.length id)) buf), Some (slen id))
  end.
Proof.
  intros [Hi Ha] Hb Hl. unfold SCF_GetCertNodeId, cert_node_id. rewrite Hi, Ha.
  replace (bufferLen =? 0) with false by (symmetry; apply Z.eqb_neq; lia). cbn [negb].
  destruct (GetCertExtensionByOid crt SCF_OID_NODE_ID) as [ret id].
  destruct (ret =? SCF_SSL_ERR_CERT_EXT_ABSENT); [done|].
  destruct (negb (ret =? SCF_SUCCESS)); [done|].
  assert (Hc : (has_nul id || negb (IsValidNodeId (Some (cstr id))))%bool =
    negb (bool_decide (has_nul id = false /\ IsValidNodeId (Some id) = true))).
  { destruct (has_nul id) eqn:En; [done|]. rewrite cstr_no_nul, orb_false_l by done.
    f_equal. by destruct (IsValidNodeId (Some id)). }
  rewrite Hc. destruct (bool_decide _); simpl; [|done].
  destruct (bufferLen <=? slen id) eqn:Es; [done|]. bools. unfold slen in Es.
  rewrite memcpy_s_ok by (rewrite ?length_bytes; lia). simpl.
  rewrite terminate_copy by lia. done.
Qed.
(** (C37) Reading the node id of a certificate never writes outside the caller's
    buffer, leaves it untouched on every error, and on success leaves exactly the
    certificate's node id, NUL-terminated, with its length. *)
Theorem GetCertNodeId_buffer e crt buf bufferLen len0 :
  ready e -> 0 < bufferLen <= SECUREC_MEM_MAX_LEN ->
  bufferLen <= Z.of_nat (length buf) ->
  exists ret buf' len',
    SCF_GetCertNodeId e (Some crt) (Some buf) bufferLen (Some len0)
    = (ret, Some buf', Some len') /\
    length buf' = length buf /\
    drop (Z.to_nat bufferLen) buf' = drop (Z.to_nat bufferLen) buf /\
    match cert_node_id crt with
    | inl r => ret = r /\ buf' = buf /\ len' = len0
    | inr id =>
        (slen id < bufferLen /\ ret = SCF_SUCCESS /\ buf_cstr buf' = id /\ len' = slen id) \/
        (bufferLen <= slen id /\ ret = SCF_ERRNO_INVALID_PARAM /\ buf' = buf /\ len' = len0)
    end.
Proof.
  intros He Hb Hl. rewrite (GetCertNodeId_eq e crt buf bufferLen len0 He Hb Hl).
  destruct (cert_node_id crt) as [r|id] eqn:Ec; [eauto 10|].
  destruct (cert_node_id_ok _ _ Ec) as [[_ Hn] Hlen].
  destruct (bufferLen <=? slen id) eqn:E; bools; [eauto 20|]. unfold slen in *.
  do 3 eexists. split; [done|].
  assert (Hd : drop (Z.to_nat bufferLen)
      (bytes id ++ NUL :: drop (S (String.length id)) buf)
      = drop (Z.to_nat bufferLen) buf).
  { rewrite drop_app_ge by (rewrite length_bytes; lia). rewrite length_bytes.
    replace (Z.to_nat bufferLen - String.length id)%nat
      with (S (Z.to_nat bufferLen - S (String.length id))) by lia.
    simpl. rewrite drop_drop. f_equal. lia. }
  split_and!; [|exact Hd|].
  - rewrite length_app, length_bytes. simpl. rewrite length_drop. lia.
  - left. split_and!; [lia|done|by apply buf_cstr_app|done].
Qed.

Lemma GetCertRbacRole_eq e crt role :
  ready e ->
  SCF_GetCertRbacRole e (Some crt) (Some role) =
  match cert_role crt with
  | inl r => (r, Some role)
  | inr r => (SCF_SUCCESS, Some r)
  end.
Proof.
  intros [Hi Ha]. unfold SCF_GetCertRbacRole, cert_role. rewrite Hi, Ha. simpl.
  destruct (GetCertExtensionByOid crt SCF_OID_RBAC_ROLE) as [ret v]. by repeat case_match.
Qed.

Lemma cert_role_err crt r : cert_role crt = inl r -> r <> SCF_SUCCESS.
Proof.
  unfold cert_role. destruct (GetCertExtensionByOid crt SCF_OID_RBAC_ROLE) as [ret v].
  destruct (ret =? SCF_SSL_ERR_CERT_EXT_ABSENT); [intros [= <-]; by vm_compute|].
  destruct (ret =? SCF_SUCCESS) eqn:E; simpl; [|intros [= <-]; by bools].
  destruct (streq _ _); [done|]. destruct (streq _ _); [done|].
  intros [= <-]. by vm_compute.
Qed.

Lemma cert_role_valid crt r : cert_role crt = inr r -> IsValidRole r = true.
Proof.
  unfold cert_role. destruct (GetCertExtensionByOid crt SCF_OID_RBAC_ROLE) as [ret v].
  destruct (_ =? _); [done|]. destruct (negb _); [done|].
  destruct (streq _ _); [by intros [= <-]|]. destruct (streq _ _); [by intros [= <-]|done].
Qed.

(** What [SCF_GetNodeRbacRole] leaves in its outputs. *)
Definition role_result (r : Z + (Z * Z)) : Z * option Z * option Z :=
  match r with
  | inl code => (code, Some SCF_RBAC_ROLE_UNKNOWN, Some SCF_RBAC_ROLE_SRC_NONE)
  | inr (role, src) => (SCF_SUCCESS, Some role, Some src)
  end.

Lemma role_from_mapping_eq c id :
  (id = None \/ IsValidNodeId id = true) ->
  role_from_mapping c id SCF_RBAC_ROLE_UNKNOWN SCF_RBAC_ROLE_SRC_NONE
  = role_result (mapped_role c id).
Proof.
  unfold role_from_mapping, GetMappingRole, mapped_role.
  intros [->|Hv]; [done|]. rewrite Hv. destruct id as [id|]; [|done]. simpl.
  by destruct (ctx_nodeRoleMap c !! id).
Qed.

Lemma GetNodeRbacRole_eq e c cert nodeId role0 src0 :
  ready e -> (cert <> None \/ nodeId <> None) ->
  (nodeId = None \/ IsValidNodeId nodeId = true) ->
  SCF_GetNodeRbacRole e (Some c) cert nodeId (Some role0) (Some src0)
  = role_result (node_role c cert nodeId).
Proof.
  intros He Hn Hv. unfold SCF_GetNodeRbacRole.
  replace (bool_decide (cert = None) && bool_decide (nodeId = None))%bool with false
    by (symmetry; apply andb_false_iff; rewrite !bool_decide_eq_false; tauto).
  replace (bool_decide (nodeId <> None) && negb (IsValidNodeId nodeId))%bool with false
    by (symmetry; destruct Hv as [->|Hv]; [done|]; rewrite Hv; apply andb_false_r).
  rewrite (proj1 He). cbn [negb]. destruct cert as [crt|]; [|by apply role_from_mapping_eq].
  unfold node_role, lookup_id. rewrite GetCertRbacRole_eq by done.
  rewrite GetCertNodeId_eq by (rewrite ?length_replicate; done || by vm_compute).
  destruct (cert_role crt) as [r|role] eqn:Er.
  - pose proof (cert_role_err _ _ Er) as Hr.
    rewrite (proj2 (Z.eqb_neq _ _) Hr). cbn [negb andb].
    destruct (r =? SCF_ERRNO_CERT_ROLE_EXT_ABSENT); cbn [negb]; [|done].
    destruct (cert_node_id crt) as [r'|id] eqn:Ei.
    + pose proof (cert_node_id_err _ _ Ei) as Hr'.
      rewrite (proj2 (Z.eqb_neq _ _) Hr'). cbn [negb andb].
      destruct (r' =? SCF_ERRNO_CERT_NODE_ID_ABSENT); cbn [negb]; [|done].
      by apply role_from_mapping_eq.
    + destruct (cert_node_id_ok _ _ Ei) as [[Hid Hnul] Hlen].
      replace (MAX_NODE_ID_LEN <=? slen id) with false by (symmetry; apply Z.leb_gt; lia).
      rewrite Z.eqb_refl. cbn [negb andb fmap option_fmap option_map].
      rewrite buf_cstr_app by done. apply role_from_mapping_eq. auto.
  - rewrite Z.eqb_refl. cbn [negb andb].
    destruct (cert_node_id crt) as [r'|id] eqn:Ei.
    + pose proof (cert_node_id_err _ _ Ei) as Hr'.
      rewrite (proj2 (Z.eqb_neq _ _) Hr'). cbn [negb andb].
      by destruct (r' =? SCF_ERRNO_CERT_NODE_ID_ABSENT).
    + destruct (cert_node_id_ok _ _ Ei) as [[Hid Hnul] Hlen].
      replace (MAX_NODE_ID_LEN <=? slen id) with false by (symmetry; apply Z.leb_gt; lia).
      done.
Qed.
End identity_spec.

(** ** Roles and permissions *)
Section permission_spec.
Context {Cert : Type} `{CertReader Cert} `{SecureC}.

(** [SCF_GetNodeRbacRole] computes [node_role]. In particular the local mapping
    is consulted only when the certificate is absent or carries no role extension: a
    malformed or unreadable certificate is an error and never falls back to it. *)
Theorem GetNodeRbacRole_exact e c cert nodeId role0 src0 :
  ready e -> (cert <> None \/ nodeId <> None) ->
  (nodeId = None \/ IsValidNodeId nodeId = true) ->
  let res := SCF_GetNodeRbacRole e (Some c) cert nodeId (Some role0) (Some src0) in
  res = role_result (node_role c cert nodeId) /\
  (forall crt role, cert = Some crt ->
    res = (SCF_SUCCESS, Some role, Some SCF_RBAC_ROLE_SRC_MAPPING) ->
    cert_role crt = inl SCF_ERRNO_CERT_ROLE_EXT_ABSENT /\
    exists id, lookup_id crt nodeId = inr (Some id) /\ ctx_nodeRoleMap c !! id = Some role).
Proof.
  intros He Hn Hv res. pose proof (GetNodeRbacRole_eq e c cert nodeId role0 src0 He Hn Hv)
    as Heq. split; [exact Heq|]. intros crt role -> Hres. unfold res in Hres.
  rewrite Heq in Hres. unfold node_role in Hres.
  destruct (cert_role crt) as [r|r] eqn:Er.
  - pose proof (cert_role_err _ _ Er).
    destruct (r =? SCF_ERRNO_CERT_ROLE_EXT_ABSENT) eqn:Ea; bools;
      [|injection Hres; congruence].
    subst r. split; [done|]. destruct (lookup_id crt nodeId) as [r|id] eqn:El.
    + unfold lookup_id in El. destruct (cert_node_id crt) as [r'|] eqn:Ei; [|done].
      pose proof (cert_node_id_err _ _ Ei).
      destruct (_ =? _); [done|]. simplify_eq/=.
    + destruct id as [id|]; [|done]. unfold mapped_role in Hres.
      destruct (ctx_nodeRoleMap c !! id) eqn:Em; [|done]. injection Hres as ->. eauto.
  - destruct (lookup_id crt nodeId) as [r'|]; [|done].
    unfold role_result in Hres. done.
Qed.

(** The role of a certificate is MASTER or SLAVE in a well-formed context. *)
Lemma node_role_valid c crt role src :
  nodes_wf c -> node_role c (Some crt) None = inr (role, src) -> IsValidRole role = true.
Proof.
  intros Hw. unfold node_role. destruct (cert_role crt) as [r|r] eqn:Er.
  - destruct (_ =? _); [|done]. destruct (lookup_id crt None) as [|[id|]]; [done| |done].
    unfold mapped_role. destruct (_ !! id) eqn:El; [|done]. intros [= <- _].
    by apply (nw_entry _ Hw) in El as [_ ?].
  - destruct (lookup_id crt None); [done|]. intros [= <- _]. by eapply cert_role_valid.
Qed.

Lemma default_permission role id target :
  IsValidRole role = true ->
  CheckDefaultResourcePermission role id target =
  if (role =? SCF_RBAC_ROLE_MASTER) || streq id target
  then SCF_SUCCESS else SCF_ERRNO_RBAC_DENIED.
Proof.
  unfold IsValidRole, CheckDefaultResourcePermission. intros Hr. bools.
  destruct (role =? SCF_RBAC_ROLE_MASTER) eqn:E; [done|].
  destruct Hr as [Hr|Hr]; bools; [done|]. rewrite Hr. by destruct (streq id target).
Qed.

Lemma wf_effects_valid c : rules_wf c -> effects_valid (ctx_policyRuleMap c).
Proof.
  intros Hw. apply Forall_forall. intros [id r] Hin.
  destruct (rw_item _ Hw _ _ Hin) as (_ & _ & Hf). unfold rule_fields_ok in Hf.
  apply andb_true_iff in Hf as [_ Hf]. unfold IsValidPolicyEffect in Hf. simpl.
  bools. destruct Hf; bools; auto.
Qed.

Lemma custom_effect c req :
  rules_wf c ->
  GetCustomPolicyEffect c req SCF_POLICY_EFFECT_DENY =
  match decision req (ctx_policyRuleMap c) with
  | Some eff => (true, eff)
  | None => (false, SCF_POLICY_EFFECT_DENY)
  end.
Proof.
  intros Hw. unfold GetCustomPolicyEffect.
  rewrite (MatchPolicyRule_eq _ _ _ (wf_effects_valid _ Hw)). by destruct (decision _ _).
Qed.

Lemma CheckResourcePermission_eq e c crt target rt act :
  ready e -> rbac_wf c -> ctx_rbacEnabled c = true ->
  IsValidNodeId (Some target) = true -> IsSingleResourceType rt = true ->
  IsSingleResourceAction act = true ->
  SCF_CheckResourcePermission e (Some c) (Some crt) (Some target) rt act
  = authorize c crt target rt act.
Proof.
  intros He [Hr Hn] Hen Ht Hrt Hact. unfold SCF_CheckResourcePermission, authorize.
  rewrite Ht, Hrt, Hact, Hen, (proj1 He). cbn [negb orb].
  unfold ResolveLocalIdentity.
  rewrite GetCertNodeId_eq by (rewrite ?length_replicate; done || by vm_compute).
  destruct (cert_node_id crt) as [r|id] eqn:Ei.
  { pose proof (cert_node_id_err _ _ Ei) as Hne.
    rewrite (proj2 (Z.eqb_neq _ _) Hne). cbn [negb]. by rewrite (proj2 (Z.eqb_neq _ _) Hne). }
  destruct (cert_node_id_ok _ _ Ei) as [[Hid Hnul] Hlen].
  replace (MAX_NODE_ID_LEN <=? slen id) with false by (symmetry; apply Z.leb_gt; lia).
  rewrite Z.eqb_refl. cbn [negb].
  rewrite GetNodeRbacRole_eq by (auto; by left).
  destruct (node_role c (Some crt) None) as [r|[role src]] eqn:Ero.
  { cbn [role_result from_option]; unfold Datatypes.id. destruct (r =? SCF_SUCCESS) eqn:Es; [|done]. exfalso.
    bools. subst r. unfold node_role in Ero.
    destruct (cert_role crt) as [r'|] eqn:Er; [pose proof (cert_role_err _ _ Er)|];
      unfold lookup_id in Ero; rewrite Ei in Ero; [|done].
    destruct (_ =? _); [|congruence]. unfold mapped_role in Ero.
    by destruct (_ !! id). }
  cbn [role_result from_option]; unfold Datatypes.id. rewrite Z.eqb_refl. cbn [negb].
  rewrite buf_cstr_app by done. rewrite custom_effect by done.
  destruct (decision _ _); [done|]. apply default_permission.
  by eapply node_role_valid.
Qed.

(** (C17) [SCF_CheckResourcePermission] implements the abstract decision: identity from
    the certificate, role from the certificate or the mapping, then the most specific
    custom rule with deny overriding allow, then the default rule. *)
Theorem CheckResourcePermission_authorize e c crt target rt act :
  ready e -> reachable c -> ctx_rbacEnabled c = true ->
  IsValidNodeId (Some target) = true -> IsSingleResourceType rt = true ->
  IsSingleResourceAction act = true ->
  SCF_CheckResourcePermission e (Some c) (Some crt) (Some target) rt act
  = authorize c crt target rt act.
Proof.
  intros He Hr. apply CheckResourcePermission_eq; [done|].
  exact (steps_wf _ _ Hr new_ctx_wf).
Qed.

(** (C18) No cross-node access without an explicit rule: when a permission check
    succeeds for a SLAVE on a target other than itself, the table holds a matching
    allow rule, and no matching deny rule is at least as specific. *)
Theorem cross_node_access_needs_rule e c crt target rt act id src :
  ready e -> reachable c ->
  SCF_CheckResourcePermission e (Some c) (Some crt) (Some target) rt act = SCF_SUCCESS ->
  cert_node_id crt = inr id -> id <> target ->
  node_role c (Some crt) None = inr (SCF_RBAC_ROLE_SLAVE, src) ->
  let req := mkRequest id target rt act in
  exists k r, OMap.find k (ctx_policyRuleMap c) = Some r /\
    IsRuleMatched r req = true /\ rule_effect r = SCF_POLICY_EFFECT_ALLOW /\
    forall k' r', OMap.find k' (ctx_policyRuleMap c) = Some r' ->
      IsRuleMatched r' req = true -> rule_effect r' = SCF_POLICY_EFFECT_DENY ->
      GetMatchPriority r' req < GetMatchPriority r req.
Proof.
  intros He Hreach Hok Hid Hne Hrole req.
  pose proof (steps_wf _ _ Hreach new_ctx_wf) as Hwf.
  assert (Hargs : ctx_rbacEnabled c = true /\ IsValidNodeId (Some target) = true /\
    IsSingleResourceType rt = true /\ IsSingleResourceAction act = true).
  { unfold SCF_CheckResourcePermission in Hok. rewrite (proj1 He) in Hok.
    destruct (IsValidNodeId (Some target)); [|done].
    destruct (IsSingleResourceType rt); [|done].
    destruct (IsSingleResourceAction act); [|done].
    destruct (ctx_rbacEnabled c); [done|done]. }
  destruct Hargs as (Hen & Hv & Hrt & Hact).
  rewrite (CheckResourcePermission_eq e c crt target rt act) in Hok by done.
  unfold authorize in Hok. rewrite Hid, Hrole in Hok. fold req in Hok.
  destruct Hwf as [Hw _]. pose proof (wf_effects_valid _ Hw) as Hev.
  destruct (decision req (ctx_policyRuleMap c)) as [eff|] eqn:Ed.
  2: { apply streq_neq in Hne. by rewrite Hne in Hok. }
  destruct (eff =? SCF_POLICY_EFFECT_ALLOW) eqn:Ea; [|done]. bools. subst eff.
  apply (decision_allow _ _ Hev) in Ed as (k & r & Hin & Hm & Ha & Hmax).
  exists k, r. split_and!; [by apply OMap.find_complete; [apply rw_sorted|]|done..|].
  intros k' r' Hf' Hm' Hd'. apply (Hmax k'); [by apply OMap.find_elem|done|by rewrite Hd'].
Qed.
End permission_spec.

(** ** Listings and updates *)
Section listing_spec.
Context `{SecureC}.

Lemma list_rules_loop_eq e items ruleCap out n :
  Z.of_nat n <= ruleCap <= Z.of_nat (length out) -> ruleCap <= UINT32_MAX ->
  exists k, (k <= length items)%nat /\ Z.of_nat (n + k) <= ruleCap /\
    (list_rules_loop e items ruleCap out (Z.of_nat n)).1.2
      = take n out ++ take k items.*2 ++ drop (n + k) out /\
    (list_rules_loop e items ruleCap out (Z.of_nat n)).2 = Z.of_nat (n + k) /\
    (forall i, (n <= i < n + k)%nat -> alloc e i = true) /\
    if (list_rules_loop e items ruleCap out (Z.of_nat n)).1.1
    then k = length items \/ Z.of_nat (n + k) = ruleCap
    else (k < length items)%nat /\ Z.of_nat (n + k) < ruleCap /\ alloc e (n + k) = false.
Proof.
  revert n out. induction items as [|[id r] items IH]; intros n out Hn Hc; simpl.
  { exists 0%nat. rewrite Nat.add_0_r, take_nil. simpl. rewrite take_drop.
    split_and!; try lia; auto; lia. }
  destruct (Z.of_nat n =? ruleCap) eqn:E; bools.
  { exists 0%nat. rewrite Nat.add_0_r. simpl. rewrite take_drop.
    split_and!; try lia; auto; lia. }
  rewrite Nat2Z.id. destruct (alloc e n) eqn:Ea; simpl.
  2:{ exists 0%nat. rewrite Nat.add_0_r. simpl. rewrite take_drop.
      split_and!; try lia; auto; lia. }
  rewrite wrap32_id by (unfold is_u32; lia).
  replace (Z.of_nat n + 1) with (Z.of_nat (S n)) by lia.
  destruct (IH (S n) (<[n:=r]> out)) as (k & Hk & Hle & Hout & Hcnt & Hal & Hres);
    [rewrite length_insert; lia|done|].
  exists (S k). rewrite Nat.add_succ_r. rewrite Nat.add_succ_l in *.
  split_and!; [lia|lia| |done| |].
  - rewrite Hout. simpl.
    rewrite (take_S_r _ n r) by (apply list_lookup_insert_eq; lia).
    rewrite take_insert_ge by lia. rewrite drop_insert_lt by lia. by rewrite <- app_assoc.
  - intros i Hi. destruct (decide (i = n)) as [->|]; [done|]. apply Hal. lia.
  - destruct (_.1.1); [|split_and!; [lia|lia|apply Hres]]. destruct Hres; [left|right]; lia.
Qed.

(** Listing the rules copies a prefix of the table in id order into the caller's
    array, counts exactly the copied elements, leaves the others as they were, and
    stops early only when the array is full or an allocation fails (an error). *)
Theorem ListPolicyRules_prefix e c out ruleCap n0 :
  g_scfInitialized e = true -> 0 < ruleCap <= UINT32_MAX ->
  ruleCap <= Z.of_nat (length out) ->
  exists k ret,
    SCF_ListPolicyRules e (Some c) (Some out) ruleCap (Some n0)
    = (ret, Some (take k (ctx_policyRuleMap c).*2 ++ drop k out), Some (Z.of_nat k)) /\
    Z.of_nat k <= Z.min ruleCap (OMap.size (ctx_policyRuleMap c)) /\
    (forall i, (i < k)%nat -> alloc e i = true) /\
    ((ret = SCF_SUCCESS /\ Z.of_nat k = Z.min ruleCap (OMap.size (ctx_policyRuleMap c))) \/
     (ret = SCF_ERRNO_MEM_ALLOC /\ alloc e k = false /\
      Z.of_nat k < Z.min ruleCap (OMap.size (ctx_policyRuleMap c)))).
Proof.
  intros Hi Hc Hl. unfold SCF_ListPolicyRules. rewrite Hi.
  replace (ruleCap =? 0) with false by (symmetry; apply Z.eqb_neq; lia). cbn [negb].
  destruct (list_rules_loop_eq e (ctx_policyRuleMap c) ruleCap out 0)
    as (k & Hk & Hle & Hout & Hcnt & Hal & Hres); [lia|lia|].
  change (Z.of_nat 0) with 0 in *. simpl in Hout, Hcnt, Hle, Hal, Hres.
  destruct (list_rules_loop _ _ _ _ _) as [[ok out'] n]. simpl in *. subst.
  unfold OMap.size. exists k, (if ok then SCF_SUCCESS else SCF_ERRNO_MEM_ALLOC).
  split_and!; [done|lia| |].
  - intros i Hik. apply Hal. lia.
  - destruct ok; [left; split; [done|lia]|right]. destruct Hres as (? & ? & ?).
    split_and!; [done|done|lia].
Qed.

Definition masters (ms : list (string * Z)) : list string :=
  (filter (fun kv => kv.2 = SCF_RBAC_ROLE_MASTER) ms).*1.

Lemma masters_master id ms :
  masters ((id, SCF_RBAC_ROLE_MASTER) :: ms) = id :: masters ms.
Proof. unfold masters. by rewrite filter_cons_True. Qed.

Lemma masters_other id r ms :
  r <> SCF_RBAC_ROLE_MASTER -> masters ((id, r) :: ms) = masters ms.
Proof. intros Hr. unfold masters. by rewrite filter_cons_False. Qed.

Lemma list_masters_loop_eq ms listCap rows n :
  Forall (fun kv => node_id_ok kv.1) ms ->
  Forall (fun row => Z.of_nat (length row) = MAX_NODE_ID_LEN) rows ->
  Z.of_nat n <= listCap <= Z.of_nat (length rows) -> listCap <= UINT32_MAX ->
  let k := Nat.min (Z.to_nat listCap - n) (length (masters ms)) in
  exists rows',
    list_masters_loop ms listCap rows (Z.of_nat n)
    = (SCF_SUCCESS, rows', Z.of_nat (n + k)) /\
    Forall (fun row => Z.of_nat (length row) = MAX_NODE_ID_LEN) rows' /\
    length rows' = length rows /\
    (forall i, (i < n \/ n + k <= i)%nat -> rows' !! i = rows !! i) /\
    (forall j, (j < k)%nat ->
      buf_cstr <$> rows' !! (n + j)%nat = masters ms !! j).
Proof.
  revert n rows. induction ms as [|[id r] ms IH]; intros n rows Hms Hrows Hn Hc k; simpl in *.
  { exists rows. assert (k = 0)%nat as -> by (unfold k; simpl; lia).
    rewrite Nat.add_0_r. split_and!; [done..|lia]. }
  destruct (Z.of_nat n =? listCap) eqn:E; bools.
  { exists rows. assert (k = 0)%nat as -> by lia. rewrite Nat.add_0_r.
    split_and!; [done..|lia]. }
  apply Forall_cons in Hms as [[Hv Hnul] Hms]. simpl in Hv, Hnul. unfold k. clear k.
  destruct (r =? SCF_RBAC_ROLE_MASTER) eqn:Er; bools; cbn [negb];
    [subst r; rewrite masters_master|rewrite masters_other by done; by apply IH].
  cbn [length].
  rewrite Nat2Z.id. destruct (lookup_lt_is_Some_2 rows n) as [row Hrow]; [lia|].
  pose proof (proj1 (Forall_lookup _ _) Hrows _ _ Hrow) as Hlen. simpl in Hlen.
  pose proof (valid_node_id_length _ Hv) as Hid. unfold slen in Hid.
  rewrite Hrow. cbn [from_option]. unfold Datatypes.id.
  rewrite memcpy_s_ok
    by (rewrite ?length_bytes; try lia; unfold MAX_NODE_ID_LEN, SECUREC_MEM_MAX_LEN; lia).
  rewrite Z.eqb_refl. cbn [negb]. rewrite terminate_copy by lia.
  rewrite wrap32_id by (unfold is_u32; lia).
  replace (Z.of_nat n + 1) with (Z.of_nat (S n)) by lia.
  set (row' := bytes id ++ NUL :: drop (S (String.length id)) row).
  assert (Hrow' : Z.of_nat (length row') = MAX_NODE_ID_LEN).
  { unfold row'. rewrite length_app, length_bytes. simpl. rewrite length_drop. lia. }
  destruct (IH (S n) (<[n:=row']> rows)) as (rows' & Heq & Hall & Hl & Hout & Hin);
    [done|by apply Forall_insert|rewrite length_insert; lia|done|].
  rewrite length_insert in Hl.
  exists rows'.
  replace (Nat.min (Z.to_nat listCap - n) (S (length (masters ms))))%nat
    with (S (Nat.min (Z.to_nat listCap - S n) (length (masters ms)))) by lia.
  rewrite Nat.add_succ_r. split_and!; [done|done|done| |].
  - intros i Hi. rewrite Hout by lia. apply list_lookup_insert_ne. lia.
  - intros [|j] Hj.
    + rewrite Nat.add_0_r, Hout, list_lookup_insert_eq by lia. simpl. f_equal.
      by apply buf_cstr_app.
    + rewrite Nat.add_succ_r. simpl. apply Hin. lia.
Qed.

Context `{HashOrder}.

Lemma in_masters (m : gmap string Z) id :
  id ∈ masters (hash_order m) <-> m !! id = Some SCF_RBAC_ROLE_MASTER.
Proof.
  unfold masters. rewrite list_elem_of_fmap. split.
  - intros ([id' r] & -> & Hin). apply list_elem_of_filter in Hin as [Hr Hin].
    simpl in *. subst r. rewrite hash_order_perm in Hin. by apply elem_of_map_to_list.
  - intros Hl. exists (id, SCF_RBAC_ROLE_MASTER). split; [done|].
    apply list_elem_of_filter. split; [done|]. rewrite hash_order_perm.
    by apply elem_of_map_to_list.
Qed.

Lemma NoDup_masters (m : gmap string Z) : NoDup (masters (hash_order m)).
Proof.
  unfold masters. assert (Hn : NoDup (hash_order m).*1)
    by (rewrite hash_order_perm; apply NoDup_fst_map_to_list).
  eapply sublist_NoDup; [exact Hn|]. apply fmap_sublist.
  induction (hash_order m) as [|kv l IH]; [done|].
  rewrite filter_cons. apply NoDup_cons in Hn as [_ Hn].
  case_decide; constructor; by apply IH.
Qed.

(** Listing the MASTER nodes of a reachable context never fails: the rows hold
    distinct MASTER node ids, NUL-terminated, as many as there are up to the capacity;
    when the capacity suffices every MASTER is listed; later rows are untouched. *)
Theorem ListMasterNodes_exact e c rows listCap n0 :
  g_scfInitialized e = true -> reachable c ->
  Forall (fun row => Z.of_nat (length row) = MAX_NODE_ID_LEN) rows ->
  0 < listCap <= UINT32_MAX -> listCap <= Z.of_nat (length rows) ->
  exists ids rows',
    (NoDup ids /\ forall id, id ∈ ids <-> ctx_nodeRoleMap c !! id = Some SCF_RBAC_ROLE_MASTER) /\
    let n := Nat.min (Z.to_nat listCap) (length ids) in
    SCF_ListMasterNodes e (Some c) (Some rows) listCap (Some n0)
    = (SCF_SUCCESS, Some rows', Some (Z.of_nat n)) /\
    length rows' = length rows /\
    (forall i, (i < n)%nat -> buf_cstr <$> rows' !! i = ids !! i) /\
    (forall i, (n <= i)%nat -> rows' !! i = rows !! i).
Proof.
  intros Hi Hr Hrows Hc Hl. pose proof (steps_wf _ _ Hr new_ctx_wf) as [_ Hn].
  unfold SCF_ListMasterNodes. rewrite Hi.
  replace (listCap =? 0) with false by (symmetry; apply Z.eqb_neq; lia). cbn [negb].
  exists (masters (hash_order (ctx_nodeRoleMap c))).
  assert (Hids : Forall (fun kv => node_id_ok kv.1) (hash_order (ctx_nodeRoleMap c))).
  { apply Forall_forall. intros [id r] Hin. rewrite hash_order_perm in Hin.
    apply elem_of_map_to_list in Hin. by apply (nw_entry _ Hn) in Hin as [? _]. }
  destruct (list_masters_loop_eq _ listCap rows 0 Hids Hrows)
    as (rows' & Heq & _ & Hlen & Hout & Hin); [lia..|].
  rewrite Nat.sub_0_r in *. change (Z.of_nat 0) with 0 in Heq. simpl in Heq, Hout, Hin. rewrite Heq. exists rows'.
  split; [split; [by apply NoDup_masters|by apply in_masters]|].
  split_and!; [done|done| |].
  - intros i Hlt. by apply Hin.
  - intros i Hge. apply Hout. by right.
Qed.
End listing_spec.

Section update_spec.
Variable e : Env.
Hypothesis Hinit : g_scfInitialized e = true.
Hypothesis Halloc : forall n, alloc e n = true.

Lemma add_rule_eq c s t rt act eff i0 :
  let rule := mkPolicyRule 0 s t rt act eff in
  rule_fields_ok rule = true ->
  SCF_AddPolicyRule e (Some c) (Some s) (Some t) rt act eff (Some i0) =
  match InsertPolicyRule e c rule with
  | None => (SCF_ERRNO_MEM_ALLOC, Some c, Some i0)
  | Some (ret, c', rule') =>
      if negb (ret =? SCF_SUCCESS) then (ret, Some c', Some i0)
      else (SCF_SUCCESS, Some c', Some (rule_ruleId rule'))
  end.
Proof.
  intros rule Hok. unfold SCF_AddPolicyRule. rewrite Hinit, Halloc. cbn [negb].
  unfold rule_fields_ok in Hok. simpl in Hok. rewrite !andb_true_iff in Hok.
  destruct Hok as [[[[Hs Ht] Hrt] Ha] He]. by rewrite Hs, Ht, Hrt, Ha, He.
Qed.

Definition has_key (c : SCFPolicyCtx) (key : string * string * Z * Z) : Prop :=
  exists k r, OMap.find k (ctx_policyRuleMap c) = Some r /\ rule_key r = key.

Lemma has_key_existsb c rule :
  rules_wf c ->
  existsb (fun item => IsSamePolicyRuleKey item.2 rule) (ctx_policyRuleMap c) = true <->
  has_key c (rule_key rule).
Proof.
  intros Hw. rewrite existsb_exists. unfold has_key. split.
  - intros ([k r] & Hin & Hk). apply list_elem_of_In in Hin. exists k, r.
    split; [by apply OMap.find_complete; [apply rw_sorted|]|by apply same_key_true].
  - intros (k & r & Hf & Hk). exists (k, r).
    split; [by apply list_elem_of_In, OMap.find_elem|by apply same_key_true].
Qed.

Lemma next_unused c :
  rules_wf c -> ctx_nextPolicyRuleId c <> 0 ->
  OMap.find (ctx_nextPolicyRuleId c) (ctx_policyRuleMap c) = None.
Proof.
  intros Hw Hn. destruct (OMap.find _ _) as [r|] eqn:Ef; [|done].
  apply OMap.find_elem in Ef. destruct (rw_item _ Hw _ _ Ef) as (_ & [_ Hlt] & _). lia.
Qed.

Lemma find_stored c rule k :
  rules_wf c -> ctx_nextPolicyRuleId c <> 0 ->
  OMap.find k (ctx_policyRuleMap (stored c rule)) =
  if k =? ctx_nextPolicyRuleId c then Some (set_rule_ruleId (ctx_nextPolicyRuleId c) rule)
  else OMap.find k (ctx_policyRuleMap c).
Proof.
  intros Hw Hn. simpl. destruct (k =? _) eqn:E; bools.
  - subst k. by apply OMap.insert_find, next_unused.
  - by apply OMap.insert_find_ne.
Qed.

Lemma erase_insert {A} k (a : A) m : OMap.find k m = None -> OMap.erase k (OMap.insert k a m) = m.
Proof.
  induction m as [|[k' a'] m IH]; simpl; [by rewrite Z.eqb_refl|].
  destruct (k =? k') eqn:E; [done|]. intros Hf.
  destruct (k <? k'); simpl; [by rewrite Z.eqb_refl|]. by rewrite E, IH.
Qed.

(** Adding a valid rule to a reachable context: refused as a duplicate exactly when
    a stored rule has its key (whatever the effects, so contradictory rules cannot
    coexist), refused as full when the table or the id space is exhausted, and
    otherwise stored under the fresh id it reports and nowhere else; adding the same
    key again is then a duplicate, and removing the id restores the table. *)
Theorem AddPolicyRule_exact c s t rt act eff i0 :
  let rule := mkPolicyRule 0 s t rt act eff in
  let id := ctx_nextPolicyRuleId c in
  let add c eff := SCF_AddPolicyRule e (Some c) (Some s) (Some t) rt act eff (Some i0) in
  reachable c -> rule_fields_ok rule = true ->
  (has_key c (rule_key rule) ->
    add c eff = (SCF_ERRNO_RBAC_POLICY_DUPLICATE, Some c, Some i0)) /\
  (~ has_key c (rule_key rule) ->
    OMap.size (ctx_policyRuleMap c) = MAX_POLICY_RULE_SIZE \/ id = 0 ->
    add c eff = (SCF_ERRNO_RBAC_POLICY_FULL, Some c, Some i0)) /\
  (~ has_key c (rule_key rule) ->
    OMap.size (ctx_policyRuleMap c) < MAX_POLICY_RULE_SIZE -> id <> 0 ->
    exists c', add c eff = (SCF_SUCCESS, Some c', Some id) /\
      (forall k, OMap.find k (ctx_policyRuleMap c') =
        if k =? id then Some (set_rule_ruleId id rule)
        else OMap.find k (ctx_policyRuleMap c)) /\
      (forall eff', IsValidPolicyEffect eff' = true ->
        add c' eff' = (SCF_ERRNO_RBAC_POLICY_DUPLICATE, Some c', Some i0)) /\
      exists c'', SCF_RemovePolicyRule e (Some c') id = (SCF_SUCCESS, Some c'') /\
        ctx_policyRuleMap c'' = ctx_policyRuleMap c).
Proof.
  intros rule id add Hr Hok. pose proof (steps_wf _ _ Hr new_ctx_wf) as [Hw _].
  pose proof (has_key_existsb c rule Hw) as Hkey.
  unfold add. rewrite add_rule_eq by done. fold rule. unfold InsertPolicyRule.
  destruct (existsb _ _) eqn:Ed.
  { split_and!; [done|intros Hn; by destruct (Hn (proj1 Hkey eq_refl))..]. }
  split; [intros Hk; by apply Hkey in Hk|]. fold id. split.
  { intros _ Hfull. replace (_ || _)%bool with true; [done|]. symmetry.
    apply orb_true_iff. destruct Hfull as [Hs|Hs];
      [left; apply Z.leb_le; lia|right; by apply Z.eqb_eq]. }
  intros _ Hs Hid.
  replace (_ || _)%bool with false
    by (symmetry; apply orb_false_iff; split; [apply Z.leb_gt; lia|by apply Z.eqb_neq]).
  rewrite Halloc. cbn [negb]. unfold OMap.emplace. cbn [rule_ruleId set_rule_ruleId].
  pose proof (next_unused c Hw Hid) as Hnu. fold id in Hnu. rewrite Hnu. cbn [negb].
  exists (stored c rule).
  split_and!; [done|by intros k; apply find_stored| |].
  - intros eff' He'.
    assert (Hok' : rule_fields_ok (mkPolicyRule 0 s t rt act eff') = true).
    { unfold rule_fields_ok in *. simpl in *. rewrite !andb_true_iff in *. tauto. }
    rewrite add_rule_eq by done. unfold InsertPolicyRule.
    replace (existsb _ _) with true; [done|]. symmetry. apply existsb_exists.
    exists (id, set_rule_ruleId id rule). split; [|by apply same_key_true].
    apply list_elem_of_In, OMap.find_elem. rewrite find_stored by done. by rewrite Z.eqb_refl.
  - unfold SCF_RemovePolicyRule. rewrite (proj2 (Z.eqb_neq _ _) Hid), Hinit. cbn [negb].
    rewrite find_stored by done. fold id. rewrite Z.eqb_refl. eexists. split; [done|].
    simpl. apply erase_insert. by apply next_unused.
Qed.

(** Before the freeze a role assignment to a node succeeds when the table has room
    or already knows the node, and is exactly what every later query sees: role and
    master status of that node, all other nodes unchanged; removing it makes the
    node unknown again. *)
Theorem SetNodeRoleMapping_roundtrip c id role r0 b0 :
  ctx_nodeRoleMapFrozen c = false -> IsValidNodeId (Some id) = true ->
  IsValidRole role = true ->
  is_Some (ctx_nodeRoleMap c !! id) \/ map_size (ctx_nodeRoleMap c) < MAX_NODE_ROLE_MAP_SIZE ->
  exists c', SCF_SetNodeRoleMapping e (Some c) (Some id) role = (SCF_SUCCESS, Some c') /\
    SCF_IsMasterNode e (Some c') (Some id) (Some b0)
    = (SCF_SUCCESS, Some (role =? SCF_RBAC_ROLE_MASTER)) /\
    GetMappingRole c' (Some id) r0 = (SCF_SUCCESS, role) /\
    (forall id', id' <> id -> GetMappingRole c' (Some id') r0 = GetMappingRole c (Some id') r0 /\
      SCF_IsMasterNode e (Some c') (Some id') (Some b0)
      = SCF_IsMasterNode e (Some c) (Some id') (Some b0)) /\
    exists c'', SCF_RemoveNodeRoleMapping e (Some c') (Some id) = (SCF_SUCCESS, Some c'') /\
      GetMappingRole c'' (Some id) r0 = (SCF_ERRNO_RBAC_ROLE_UNKNOWN, r0) /\
      SCF_IsMasterNode e (Some c'') (Some id) (Some b0)
      = (SCF_ERRNO_RBAC_MAP_NOT_FOUND, Some false).
Proof.
  intros Hf Hv Hr Hsz. unfold SCF_SetNodeRoleMapping. rewrite Hv, Hr, Hinit, Hf, Halloc.
  cbn [negb orb].
  replace (_ && _)%bool with false.
  2:{ symmetry. apply andb_false_iff. destruct Hsz as [[r Hs]|Hs].
      - left. rewrite Hs. by apply bool_decide_eq_false.
      - right. apply Z.leb_gt. lia. }
  eexists. split; [done|]. unfold SCF_IsMasterNode, GetMappingRole, SCF_RemoveNodeRoleMapping.
  rewrite Hv, Hinit. simpl. rewrite Hf, lookup_insert_eq.
  split_and!; [done|done| |].
  - intros id' Hne. rewrite lookup_insert_ne by done. done.
  - eexists. split; [done|]. simpl. by rewrite lookup_delete_eq.
Qed.
End update_spec.

(** ** Concrete instances

    A certificate given by its extensions. *)
Definition ExCert : Type := list (string * string).

#[export] Instance ExCertReader : CertReader ExCert :=
  {| GetCertExtensionByOid crt oid :=
       match List.find (fun kv => streq kv.1 oid) crt with
       | Some kv => (SCF_SUCCESS, kv.2)
       | None => (SCF_SSL_ERR_CERT_EXT_ABSENT, EmptyString)
       end |}.

Definition ex_cert : ExCert := [(SCF_OID_NODE_ID, "nodeA"%string)].
Definition ex_cert_slave : ExCert :=
  [(SCF_OID_NODE_ID, "nodeA"%string); (SCF_OID_RBAC_ROLE, "Slave"%string)].

Lemma env_up_ready : ready env_up.
Proof. by split. Qed.

Lemma GetCertNodeId_buffer_witness :
  ready env_up /\
  exists ret buf' len',
    SCF_GetCertNodeId env_up (Some ex_cert) (Some (replicate 16 NUL)) 16 (Some 0)
    = (ret, Some buf', Some len') /\ ret = SCF_SUCCESS /\ buf_cstr buf' = "nodeA"%string.
Proof.
  split; [exact env_up_ready|].
  destruct (GetCertNodeId_buffer env_up ex_cert (replicate 16 NUL) 16 0 env_up_ready)
    as (ret & buf' & len' & Heq & _ & _ & Hres); [by vm_compute|by vm_compute|].
  exists ret, buf', len'. split; [exact Heq|].
  change (cert_node_id ex_cert) with (@inr Z string "nodeA"%string) in Hres.
  destruct Hres as [(_ & Hr & Hb & _)|(Hlt & _)]; [by split|].
  exfalso. revert Hlt. unfold slen. simpl. lia.
Defined.

Lemma GetNodeRbacRole_exact_witness :
  ready env_up /\
  SCF_GetNodeRbacRole env_up (Some ex_ctx) (Some ex_cert) None (Some 0) (Some 0)
  = (SCF_SUCCESS, Some SCF_RBAC_ROLE_SLAVE, Some SCF_RBAC_ROLE_SRC_MAPPING).
Proof.
  split; [exact env_up_ready|].
  rewrite (proj1 (GetNodeRbacRole_exact env_up ex_ctx (Some ex_cert) None 0 0 env_up_ready
    ltac:(by left) ltac:(by left))). by vm_compute.
Defined.

Lemma CheckResourcePermission_authorize_witness :
  reachable ex_ctx /\
  SCF_CheckResourcePermission env_up (Some ex_ctx) (Some ex_cert_slave) (Some "nodeC"%string)
    SCF_RES_TYPE_NUMA SCF_RES_ACTION_APPLY = SCF_SUCCESS.
Proof.
  split; [exact ex_ctx_reachable|].
  rewrite (CheckResourcePermission_authorize env_up ex_ctx ex_cert_slave "nodeC"
    SCF_RES_TYPE_NUMA SCF_RES_ACTION_APPLY env_up_ready ex_ctx_reachable
    eq_refl eq_refl eq_refl eq_refl). by vm_compute.
Defined.

Lemma cross_node_access_needs_rule_witness :
  SCF_CheckResourcePermission env_up (Some ex_ctx) (Some ex_cert_slave) (Some "nodeC"%string)
    SCF_RES_TYPE_NUMA SCF_RES_ACTION_APPLY = SCF_SUCCESS /\
  exists k r, OMap.find k (ctx_policyRuleMap ex_ctx) = Some r /\
    rule_effect r = SCF_POLICY_EFFECT_ALLOW.
Proof.
  assert (Hok : SCF_CheckResourcePermission env_up (Some ex_ctx) (Some ex_cert_slave)
    (Some "nodeC"%string) SCF_RES_TYPE_NUMA SCF_RES_ACTION_APPLY = SCF_SUCCESS)
    by (by vm_compute).
  split; [exact Hok|].
  destruct (cross_node_access_needs_rule env_up ex_ctx ex_cert_slave "nodeC"
    SCF_RES_TYPE_NUMA SCF_RES_ACTION_APPLY "nodeA" SCF_RBAC_ROLE_SRC_CERT env_up_ready
    ex_ctx_reachable Hok eq_refl ltac:(by intros [=]) eq_refl) as (k & r & Hf & _ & Ha & _).
  exists k, r. exact (conj Hf Ha).
Defined.

Lemma ListPolicyRules_prefix_witness :
  exists k ret,
    SCF_ListPolicyRules env_up (Some ex_ctx) (Some [ex_allow; ex_allow]) 2 (Some 7)
    = (ret, Some (take k (ctx_policyRuleMap ex_ctx).*2 ++ drop k [ex_allow; ex_allow]),
       Some (Z.of_nat k)).
Proof.
  destruct (ListPolicyRules_prefix env_up ex_ctx [ex_allow; ex_allow] 2 7) as (k & ret & Heq & _);
    [done|by vm_compute|by vm_compute|].
  exists k, ret. exact Heq.
Defined.

Lemma ListMasterNodes_exact_witness :
  exists ids rows',
    SCF_ListMasterNodes env_up (Some ex_ctx) (Some (replicate 2 (replicate 128 NUL))) 2 (Some 0)
    = (SCF_SUCCESS, Some rows', Some (Z.of_nat (Nat.min 2 (length ids)))) /\
    forall id, id ∈ ids <-> ctx_nodeRoleMap ex_ctx !! id = Some SCF_RBAC_ROLE_MASTER.
Proof.
  destruct (ListMasterNodes_exact env_up ex_ctx (replicate 2 (replicate 128 NUL)) 2 0)
    as (ids & rows' & [_ Hin] & Heq & _);
    [done|exact ex_ctx_reachable|by apply Forall_replicate|by vm_compute|by vm_compute|].
  exists ids, rows'. exact (conj Heq Hin).
Defined.

Lemma AddPolicyRule_exact_witness :
  SCF_AddPolicyRule env_up (Some ex_ctx) (Some "nodeA"%string) (Some "*"%string)
    SCF_RES_TYPE_ALL 3 SCF_POLICY_EFFECT_DENY (Some 0)
  = (SCF_ERRNO_RBAC_POLICY_DUPLICATE, Some ex_ctx, Some 0).
Proof.
  apply (AddPolicyRule_exact env_up eq_refl (fun _ => eq_refl) ex_ctx "nodeA" "*"
    SCF_RES_TYPE_ALL 3 SCF_POLICY_EFFECT_DENY 0 ex_ctx_reachable eq_refl).
  exists 2. eexists. by vm_compute.
Defined.

Lemma SetNodeRoleMapping_roundtrip_witness :
  exists c', SCF_SetNodeRoleMapping env_up (Some new_policy_ctx) (Some "nodeA"%string)
    SCF_RBAC_ROLE_MASTER = (SCF_SUCCESS, Some c') /\
    SCF_IsMasterNode env_up (Some c') (Some "nodeA"%string) (Some false)
    = (SCF_SUCCESS, Some true).
Proof.
  destruct (SetNodeRoleMapping_roundtrip env_up eq_refl (fun _ => eq_refl) new_policy_ctx
    "nodeA" SCF_RBAC_ROLE_MASTER 0 false) as (c' & Hs & Hm & _);
    [done|done|done|right; by vm_compute|].
  exists c'. exact (conj Hs Hm).
Defined.
