(* ===== verification/FileCheck.v ===== *)
(** * File checks, file contexts and argument validation

    [src/common/utils/file_check.cpp], [src/common/utils/file_ctx.cpp],
    [src/scf/policy/file_context.cpp] and the validation and hexadecimal helpers of
    [src/common/utils/policy_utils.cpp]. *)
From Stdlib Require Import ZArith Lia Ascii String.
From stdpp Require Import base list fin_maps gmap strings.
From S2P Require Import Prelude Errno Types.
Open Scope Z_scope.

(** ** The file system *)

Definition S_IFMT : Z := 0xF000.
Definition S_IFREG : Z := 0x8000.
Definition R_OK : Z := 4.

Record Stat : Type := mkStat { st_mode : Z; st_size : Z }.

(** POSIX: [realpath] (the resolved path, or failure), [stat] and [access]. *)
Class FileSystem : Type := {
  realpath : string -> option string;
  stat : string -> option Stat;
  access : string -> Z -> Z;
  read_file : string -> option string
}.

(** A file system where every path resolves to a small readable file, for the witnesses. *)
#[export] Instance RefFileSystem : FileSystem := {|
  realpath p := Some p; stat _ := Some (mkStat 0x8180 100); access _ _ := 0;
  read_file _ := Some "{}"%string
|}.

(** [strstr(s, pat) != nullptr]. *)
Fixpoint occurs (pat s : string) : bool :=
  String.prefix pat s ||
  match s with
  | EmptyString => false
  | String _ s' => occurs pat s'
  end.

(** The part before the last ['/'] ([find_last_of] and [substr(0, pos)]) and the part
    from it on. *)
Fixpoint split_last_slash (s : string) : option (string * string) :=
  match s with
  | EmptyString => None
  | String c s' =>
      match split_last_slash s' with
      | Some (folder, file) => Some (String c folder, file)
      | None => if Ascii.eqb c "/" then Some (EmptyString, s) else None
      end
  end.

Section checks.
Context `{FileSystem}.

Definition Exist (path : string) (type : Z) : bool := negb (access (cstr path) type =? -1).

(** Whether the path resolves, and the resolved path. *)
Definition CanonicalPath (path : string) : bool * string :=
  return_if (slen path =? 0) || (PATH_MAX <? slen path) with (false, path) ;;
  match realpath (cstr path) with
  | None => (false, path)
  | Some resolved => (true, resolved)
  end.

Definition CheckFileStat (filePath : string) : bool :=
  match stat (cstr filePath) with
  | None => false
  | Some st =>
      return_if negb (Z.land (st_mode st) S_IFMT =? S_IFREG) with false ;;
      return_if (MAX_FILE_SIZE <? st_size st) || (st_size st =? 0) with false ;;
      true
  end.

Definition GetFolderPath (filePath folderPath : string) : bool * string :=
  match split_last_slash filePath with
  | None => (false, folderPath)
  | Some (folder, _) => (true, folder)
  end.

Definition GetFileName (filePath fileName : string) : bool * string :=
  match split_last_slash filePath with
  | None => (false, fileName)
  | Some (_, file) => (true, file)
  end.

Definition IsAbsolutePath (filePath : string) : bool :=
  match filePath with
  | EmptyString => false
  | String c _ =>
      return_if negb (Ascii.eqb c "/") with false ;;
      return_if occurs "/../" (cstr filePath) || occurs "/./" (cstr filePath) with false ;;
      true
  end.

Definition CheckFilePath (filePath : string) : bool :=
  return_if negb (IsAbsolutePath filePath) with false ;;
  let '(ok, folderPath) := GetFolderPath filePath EmptyString in
  return_if negb ok with false ;;
  return_if negb (CanonicalPath folderPath).1 with false ;;
  true.

Definition SCF_CheckFilePathAndStat (filePath : string) : bool :=
  return_if negb (CheckFilePath filePath) with false ;;
  return_if negb (CheckFileStat filePath) with false ;;
  return_if negb (Exist filePath R_OK) with false ;;
  true.

Definition ReadFileContent (path content : string) : Z * string :=
  return_if negb (SCF_CheckFilePathAndStat path) with (SCF_ERROR, content) ;;
  match read_file (cstr path) with
  | None => (SCF_ERROR, content)
  | Some s => (SCF_SUCCESS, s)
  end.
End checks.

(** ** Argument validation *)

Definition CheckRole (role : Z) : Z :=
  return_if (role =? SCF_ROLE_CLIENT) || (role =? SCF_ROLE_SERVER) with SCF_SUCCESS ;;
  SCF_ERRNO_INVALID_PARAM.

Definition CheckVerifyMode (verifyMode : Z) : Z :=
  return_if (verifyMode =? SCF_VERIFY_MODE_NONE) || (verifyMode =? SCF_VERIFY_DEFAULT)
            || (Z.land verifyMode SCF_VERIFY_PEER =? SCF_VERIFY_PEER)
    with SCF_SUCCESS ;;
  SCF_ERRNO_INVALID_PARAM.

Definition CheckPolicyMode (policyMode : Z) : Z :=
  return_if (policyMode =? SCF_POLICY_HIGH) || (policyMode =? SCF_POLICY_MIDDLE)
            || (policyMode =? SCF_POLICY_CUSTOMER)
    with SCF_SUCCESS ;;
  SCF_ERRNO_INVALID_PARAM.

(** ** Hexadecimal output *)

Definition hexTable : list ascii := bytes "0123456789abcdef".

Definition hex_high (b : ascii) : ascii :=
  default NUL (hexTable !! Z.to_nat
    (Z.shiftr (Z.land (Z.of_nat (nat_of_ascii b)) CHAR_MASK_HIGH_4BITS) 4)).
Definition hex_low (b : ascii) : ascii :=
  default NUL (hexTable !! Z.to_nat
    (Z.land (Z.of_nat (nat_of_ascii b)) CHAR_MASK_LOW_4BITS)).

(** The loop: two cells per byte from index [i], then the terminator. *)
Fixpoint hex_loop (num : list ascii) (hexStr : list ascii) (p : nat) : list ascii :=
  match num with
  | [] => <[p := NUL]> hexStr
  | b :: num' => hex_loop num' (<[S p := hex_low b]> (<[p := hex_high b]> hexStr)) (p + 2)
  end.

(** [num] points to at least [numLen] bytes, [hexStr] to [hexStrLen] cells. *)
Definition Num2HexStr (num : option (list ascii)) (numLen : Z) (hexStr : option (list ascii))
    (hexStrLen : Z) : Z * option (list ascii) :=
  match num, hexStr with
  | Some n, Some out =>
      return_if hexStrLen =? 0 with (SCF_ERRNO_INVALID_PARAM, hexStr) ;;
      return_if (numLen =? 0) || (INT32_MAX <=? numLen)
                || (hexStrLen <=? wrap32 (numLen * HEX_NUM_BYTES))
        with (SCF_SUCCESS, Some (<[0%nat := NUL]> out)) ;;
      (SCF_SUCCESS, Some (hex_loop (take (Z.to_nat numLen) n) out 0))
  | _, _ => (SCF_ERRNO_INVALID_PARAM, hexStr)
  end.

(** ** Theorems *)

Definition hex_of (num : list ascii) : list ascii :=
  flat_map (fun b => [hex_high b; hex_low b]) num.

(** The value of a hexadecimal digit, and the reading of pairs of digits. *)
Definition digit_value (c : ascii) : nat :=
  let n := nat_of_ascii c in if (n <? 58)%nat then n - 48 else n - 87.

Fixpoint unhex (s : list ascii) : list ascii :=
  match s with
  | h :: l :: s' => ascii_of_nat (16 * digit_value h + digit_value l) :: unhex s'
  | _ => []
  end.

Lemma hex_byte_roundtrip b :
  ascii_of_nat (16 * digit_value (hex_high b) + digit_value (hex_low b)) = b.
Proof. by destruct b as [[] [] [] [] [] [] [] []]. Qed.

Lemma unhex_hex num : unhex (hex_of num) = num.
Proof.
  induction num as [|b num IH]; [done|]. unfold hex_of in *. cbn [flat_map app].
  cbn [unhex]. rewrite hex_byte_roundtrip. by rewrite IH.
Qed.

Lemma hex_of_length num : length (hex_of num) = (2 * length num)%nat.
Proof. unfold hex_of. induction num; simpl; lia. Qed.

Lemma insert_at {A} (l : list A) p x :
  (p < length l)%nat -> <[p := x]> l = take p l ++ x :: drop (S p) l.
Proof. intros Hp. apply insert_take_drop. done. Qed.

Lemma hex_loop_eq num out p :
  (p + 2 * length num < length out)%nat ->
  hex_loop num out p
  = take p out ++ hex_of num ++ NUL :: drop (S (p + 2 * length num)) out.
Proof.
  revert out p. induction num as [|b num IH]; intros out p Hl; simpl in Hl.
  - simpl. rewrite insert_at by lia. by rewrite Nat.add_0_r.
  - cbn [hex_loop]. rewrite IH by (rewrite !length_insert; lia).
    unfold hex_of. cbn [flat_map app]. fold (hex_of num).
    assert (Ht : take (p + 2) (<[S p:=hex_low b]> (<[p:=hex_high b]> out))
                 = take p out ++ [hex_high b; hex_low b]).
    { replace (p + 2)%nat with (S (S p)) by lia.
      rewrite (take_S_r _ (S p) (hex_low b))
        by (apply list_lookup_insert_eq; rewrite length_insert; lia).
      rewrite take_insert_ge by lia.
      rewrite (take_S_r _ p (hex_high b)) by (apply list_lookup_insert_eq; lia).
      rewrite take_insert_ge by lia. by rewrite <- app_assoc. }
    rewrite Ht, <- app_assoc. simpl. do 5 f_equal.
    rewrite !drop_insert_lt by lia. f_equal. lia.
Qed.

(** [Num2HexStr] never writes past the caller's buffer: when the buffer has room
    for two digits per byte and a terminator it leaves exactly the lower-case
    hexadecimal digits of the number, from which the bytes are recovered, and the cells
    behind the terminator are untouched; otherwise it leaves the empty string. *)
Theorem Num2HexStr_roundtrip num numLen out hexStrLen :
  0 <= numLen <= Z.of_nat (length num) -> numLen <= UINT32_MAX ->
  0 < hexStrLen <= Z.of_nat (length out) ->
  let n := Z.to_nat numLen in
  exists out', Num2HexStr (Some num) numLen (Some out) hexStrLen = (SCF_SUCCESS, Some out') /\
    length out' = length out /\
    (2 * numLen < hexStrLen -> 0 < numLen < INT32_MAX ->
      out' = hex_of (take n num) ++ NUL :: drop (S (2 * n)) out /\
      unhex (hex_of (take n num)) = take n num) /\
    (hexStrLen <= 2 * numLen -> numLen < INT32_MAX -> buf_cstr out' = EmptyString /\ tail out' = tail out).
Proof.
  intros Hn Hu Hh n. unfold Num2HexStr.
  replace (hexStrLen =? 0) with false by (symmetry; apply Z.eqb_neq; lia).
  assert (Hlen : length (<[0%nat:=NUL]> out) = length out) by apply length_insert.
  assert (Hempty : buf_cstr (<[0%nat:=NUL]> out) = EmptyString /\ tail (<[0%nat:=NUL]> out) = tail out).
  { destruct out; [simpl in *; lia|done]. }
  destruct (numLen =? 0) eqn:E0; bools.
  { eexists. split_and!; [done|done|lia|done]. }
  destruct (INT32_MAX <=? numLen) eqn:E1; bools.
  { eexists. split_and!; [done|done|lia|lia]. }
  cbn [orb]. unfold HEX_NUM_BYTES, INT32_MAX in *.
  rewrite wrap32_id by (unfold is_u32, UINT32_MAX; lia).
  destruct (hexStrLen <=? numLen * 2) eqn:E2; bools.
  { eexists. split_and!; [done|done|lia|done]. }
  eexists. split; [done|]. fold n.
  assert (Htake : length (take n num) = n) by (rewrite length_take; lia).
  rewrite hex_loop_eq by lia. rewrite Htake. split_and!.
  - simpl. rewrite length_app, hex_of_length, Htake. simpl. rewrite length_drop. lia.
  - intros _ _. split; [done|apply unhex_hex].
  - lia.
Qed.

Lemma Num2HexStr_roundtrip_witness :
  exists out', Num2HexStr (Some (bytes "AZ")) 2 (Some (replicate 8 "?"%char)) 8
               = (SCF_SUCCESS, Some out') /\ buf_cstr out' = "415a"%string.
Proof.
  destruct (Num2HexStr_roundtrip (bytes "AZ") 2 (replicate 8 "?"%char) 8) as (out' & Heq & _ & Hfull & _);
    [simpl; lia|unfold UINT32_MAX; lia|simpl; lia|].
  destruct Hfull as [-> _]; [lia|unfold INT32_MAX; lia|]. eexists. split; [exact Heq|].
  by vm_compute.
Defined.

(** A path that passes [SCF_CheckFilePathAndStat] is absolute, has no ["/../"] or
    ["/./"] component, lies in a directory that resolves, and names a readable regular
    file of 1 byte to 10 MiB; every such path passes. *)
Theorem CheckFilePathAndStat_exact `{FileSystem} path :
  SCF_CheckFilePathAndStat path = true <->
  String.get 0 path = Some "/"%char /\
  occurs "/../" (cstr path) = false /\ occurs "/./" (cstr path) = false /\
  (exists folder file, split_last_slash path = Some (folder, file) /\
    0 < slen folder <= PATH_MAX /\ is_Some (realpath (cstr folder))) /\
  (exists st, stat (cstr path) = Some st /\ Z.land (st_mode st) S_IFMT = S_IFREG /\
    st_size st <= MAX_FILE_SIZE /\ st_size st <> 0) /\
  access (cstr path) R_OK <> -1.
Proof.
  unfold SCF_CheckFilePathAndStat, CheckFilePath, IsAbsolutePath, GetFolderPath,
    CanonicalPath, CheckFileStat, Exist.
  destruct path as [|c path'].
  { split; [done|]. by intros [? _]. }
  set (path := String c path').
  assert (Hp : String.get 0 path = Some "/"%char <-> c = "/"%char)
    by (simpl; split; congruence).
  rewrite Hp. destruct (Ascii.eqb_spec c "/") as [->|Hne]; cbn [negb];
    [|split; [done|by intros [? _]]].
  destruct (occurs "/../" (cstr path)); cbn [orb]; [split; [done|by intros (_ & ? & _)]|].
  destruct (occurs "/./" (cstr path)); cbn [negb]; [split; [done|by intros (_ & _ & ? & _)]|].
  destruct (split_last_slash path) as [[folder file]|] eqn:Es; cbn [negb].
  2:{ split; [done|]. intros (_ & _ & _ & (? & ? & [=] & _) & _). }
  destruct ((slen folder =? 0) || (PATH_MAX <? slen folder))%bool eqn:El; simpl fst; cbn [negb].
  { split; [done|]. intros (_ & _ & _ & (? & ? & [= <- <-] & Hlen & _) & _).
    apply orb_true_iff in El as [El|El]; bools; lia. }
  pose proof (slen_nonneg folder). bools.
  destruct (realpath (cstr folder)) eqn:Er; cbn [fst negb].
  2:{ split; [done|]. intros (_ & _ & _ & (? & ? & [= <- <-] & _ & [? Hr]) & _). congruence. }
  destruct (stat (cstr path)) as [st|] eqn:Est; cbn [negb].
  2:{ split; [done|]. intros (_ & _ & _ & _ & (? & [=] & _) & _). }
  destruct (Z.land (st_mode st) S_IFMT =? S_IFREG) eqn:Em; cbn [negb]; bools.
  2:{ split; [done|]. intros (_ & _ & _ & _ & (? & [= <-] & ? & _) & _). congruence. }
  destruct ((MAX_FILE_SIZE <? st_size st) || (st_size st =? 0))%bool eqn:Ez; cbn [negb].
  { split; [done|]. intros (_ & _ & _ & _ & (? & [= <-] & _ & ? & ?) & _).
    apply orb_true_iff in Ez as [Ez|Ez]; bools; lia. }
  bools. destruct (access (cstr path) R_OK =? -1) eqn:Ea; cbn [negb]; bools.
  { split; [done|]. intros (_ & _ & _ & _ & _ & ?). congruence. }
  split; [intros _|done]. split_and!; try done.
  - exists folder, file. split_and!; [done|lia|lia|done].
  - exists st. by split_and!.
Qed.
