(* ===== verification/FileCtx.v ===== *)
(** * File contexts

    [src/scf/policy/file_context.cpp]: the owner of a certificate, key or password
    buffer. Besides the code and the context, an operation returns the buffers it
    released, with their last contents, so that scrubbing can be stated. The application's
    decryption callback is a parameter: it answers whether it succeeded and what it left in
    the vector it was given, in either case. *)
From Stdlib Require Import ZArith Lia Ascii String.
From stdpp Require Import base list fin_maps gmap strings.
From S2P Require Import Prelude Errno Types FileCheck.
Open Scope Z_scope.

(** The application's decryption callback ([CryptoUtil::Decrypt]), [None] when it is not
    registered: whether it succeeded, and what it leaves in the vector it is given. *)
Class Decryptor : Type := { decryptFunction_ : option (list ascii -> bool * list ascii) }.

(** A decryption callback for the witnesses: it reverses the text. *)
#[export] Instance RefDecryptor : Decryptor := {| decryptFunction_ := Some (fun c => (true, rev c)) |}.

(** What the allocator leaves in a fresh buffer of [n] cells. *)
Class Uninit : Type := {
  uninit : nat -> list ascii;
  uninit_length : forall n, length (uninit n) = n
}.
#[export] Instance RefUninit : Uninit :=
  {| uninit n := replicate n "?"%char; uninit_length n := length_replicate n "?"%char |}.

Definition empty_file_ctx : SCFFileCtx := mkFileCtx 0 None 0 None 0 0.

Section file_ctx.
Context `{SecureC} `{FileSystem} `{Decryptor} `{Uninit}.

(** The answer, and the vector on return. *)
Definition Decrypt (content : list ascii) : bool * list ascii :=
  match decryptFunction_ with None => (false, []) | Some f => f content end.

(** [memset_s(buf, len, 0, len)] before [delete[]]. *)
Definition scrub (buf : list ascii) (len : Z) : list ascii := (memset_s buf len NUL len).2.

Definition SCF_FileCtxNew (e : Env) : option SCFFileCtx :=
  return_if negb (g_scfInitialized e) with None ;;
  return_if negb (alloc e 0) with None ;;
  Some empty_file_ctx.

(** The released buffers; the context itself becomes [nullptr]. *)
Definition SCF_FileCtxFree (ctx : option SCFFileCtx) : option SCFFileCtx * list (list ascii) :=
  match ctx with
  | None => (None, [])
  | Some c =>
      let released_buf :=
        match fc_buf c with
        | Some b => if negb (fc_bufLen c =? 0) then [scrub b (fc_bufLen c)] else []
        | None => []
        end in
      let released_pwd :=
        match fc_passwd c with
        | Some p => if negb (fc_passwdLen c =? 0) then [scrub p (fc_passwdLen c)] else []
        | None => []
        end in
      (None, released_buf ++ released_pwd)
  end.

Definition CheckFileCtxBufInput (ctx : option SCFFileCtx) (storeType : Z)
    (buf : option (list ascii)) (bufLen format : Z) : Z :=
  match ctx, buf with
  | Some _, Some b =>
      return_if bufLen =? 0 with SCF_ERRNO_NULL_INPUT ;;
      return_if (SCF_STORE_ERROR <=? storeType) || (SCF_STORE_FORMAT_PEM <? format)
        with SCF_ERRNO_NOT_SUPPORT ;;
      let path_check :=
        return_if negb (storeType =? SCF_STORE_FILE_PATH) with None ;;
        return_if PATH_MAX - 1 <? bufLen with (Some SCF_SSL_ERR_PATH_TOO_LONG) ;;
        return_if negb (SCF_CheckFilePathAndStat
                          (string_of_list_ascii (take (Z.to_nat bufLen) b)))
          with (Some SCF_ERRNO_FILE_PATH_ERROR) ;;
        None in
      match path_check with
      | Some err => err
      | None =>
          return_if (storeType =? SCF_STORE_BUFFER) && (BUF_MAX_LEN - 1 <? bufLen)
            with SCF_ERRNO_LARGE_FILE ;;
          SCF_SUCCESS
      end
  | _, _ => SCF_ERRNO_NULL_INPUT
  end.

Definition SCF_FileCtxSetBuf (e : Env) (ctx : option SCFFileCtx) (storeType : Z)
    (buf : option (list ascii)) (bufLen format : Z)
    : Z * option SCFFileCtx * list (list ascii) :=
  match ctx, buf with
  | Some c, Some b =>
      return_if bufLen =? 0 with (SCF_ERRNO_NULL_INPUT, ctx, []) ;;
      return_if (SCF_STORE_BUFFER <? storeType) || (storeType <? SCF_STORE_FILE_PATH)
                || negb (format =? SCF_STORE_FORMAT_PEM)
        with (SCF_ERRNO_NOT_SUPPORT, ctx, []) ;;
      return_if negb (g_scfInitialized e) with (SCF_ERRNO_NOT_INIT, ctx, []) ;;
      let ret := CheckFileCtxBufInput ctx storeType buf bufLen format in
      return_if negb (ret =? SCF_SUCCESS) with (ret, ctx, []) ;;
      return_if negb (alloc e 0) with (SCF_ERRNO_MEM_ALLOC, ctx, []) ;;
      let n := Z.to_nat bufLen in
      let '(rc, newBuf) := memcpy_s (uninit (S n)) bufLen (take n b) in
      return_if negb (rc =? EOK) with (SCF_ERRNO_MEM_ALLOC, ctx, [newBuf]) ;;
      let newBuf := <[n := NUL]> newBuf in
      let released :=
        match fc_buf c with
        | Some old => if negb (fc_bufLen c =? 0) then [scrub old (fc_bufLen c)] else []
        | None => []
        end in
      let c := set_fc_storeType storeType c in
      let c := set_fc_buf (Some newBuf) c in
      let c := set_fc_bufLen bufLen c in
      let c := set_fc_format format c in
      (SCF_SUCCESS, Some c, released)
  | _, _ => (SCF_ERRNO_NULL_INPUT, ctx, [])
  end.

(** The [plaintext] vector is released on every path after it was made: filled with zeros,
    except when the decryption fails, which releases it as the callback left it. *)
Definition SCF_FileCtxSetPwd (e : Env) (ctx : option SCFFileCtx)
    (passwd : option (list ascii)) (passwdLen : Z) (isCipher : bool)
    : Z * option SCFFileCtx * list (list ascii) :=
  return_if negb (g_scfInitialized e) with (SCF_ERRNO_NOT_INIT, ctx, []) ;;
  match ctx, passwd with
  | None, _ => (SCF_ERRNO_NULL_INPUT, ctx, [])
  | Some _, None => (SCF_SUCCESS, ctx, [])
  | Some c, Some p =>
      return_if passwdLen =? 0 with (SCF_SUCCESS, ctx, []) ;;
      let given := take (Z.to_nat passwdLen) p in
      let '(decrypted, plaintext) := if isCipher then Decrypt given else (true, given) in
      return_if negb decrypted with (SCF_ERROR, ctx, [plaintext]) ;;
      let actPwdLen := Z.of_nat (length plaintext) in
      let wiped := replicate (length plaintext) NUL in
      return_if UINT32_MAX <=? actPwdLen with (SCF_ERRNO_MEM_ALLOC, ctx, [wiped]) ;;
      return_if negb (alloc e 0) with (SCF_ERRNO_MEM_ALLOC, ctx, [wiped]) ;;
      let '(rc, newPassWd) :=
        memcpy_s (uninit (S (length plaintext))) actPwdLen plaintext in
      return_if negb (rc =? EOK)
        with (SCF_ERRNO_MEM_ALLOC, ctx, [wiped; scrub newPassWd (actPwdLen + 1)]) ;;
      let newPassWd := <[length plaintext := NUL]> newPassWd in
      let released :=
        match fc_passwd c with
        | Some old => if negb (fc_passwdLen c =? 0) then [scrub old (fc_passwdLen c)] else []
        | None => []
        end in
      let c := set_fc_passwd (Some newPassWd) c in
      let c := set_fc_passwdLen actPwdLen c in
      (SCF_SUCCESS, Some c, wiped :: released)
  end.
End file_ctx.

(** ** The invariant *)

(** A buffer of [len] bytes and a terminator, or nothing. *)
Definition cell_ok (buf : option (list ascii)) (len maxLen : Z) : Prop :=
  match buf with
  | None => len = 0
  | Some b => 0 < len <= maxLen /\ Z.of_nat (length b) = len + 1 /\
              b !! Z.to_nat len = Some NUL
  end.

Record file_ctx_wf (c : SCFFileCtx) : Prop := {
  fw_buf : cell_ok (fc_buf c) (fc_bufLen c)
    (if fc_storeType c =? SCF_STORE_FILE_PATH then PATH_MAX - 1 else BUF_MAX_LEN - 1);
  fw_passwd : cell_ok (fc_passwd c) (fc_passwdLen c) SECUREC_MEM_MAX_LEN;
  fw_store : fc_storeType c = SCF_STORE_FILE_PATH \/ fc_storeType c = SCF_STORE_BUFFER;
  fw_format : fc_format c = SCF_STORE_FORMAT_PEM
}.

(** Every released buffer holds zeros, its terminator included. *)
Definition wiped (released : list (list ascii)) : Prop :=
  Forall (Forall (fun ch => ch = NUL)) released.

Lemma empty_file_ctx_wf : file_ctx_wf empty_file_ctx.
Proof. split; try done. by left. Qed.

Section file_ctx_theorems.
Context `{SecureC} `{FileSystem} `{Decryptor} `{Uninit}.

Lemma fresh_copy b n :
  (n <= length b)%nat -> (0 < n)%nat -> Z.of_nat n <= SECUREC_MEM_MAX_LEN ->
  memcpy_s (uninit (S n)) (Z.of_nat n) (take n b)
  = (EOK, take n b ++ drop n (uninit (S n))).
Proof.
  intros Hl Hp Hm. rewrite memcpy_s_ok by (rewrite ?uninit_length, ?length_take; lia).
  by rewrite length_take_le.
Qed.

Lemma terminated b n :
  (n <= length b)%nat ->
  <[n := NUL]> (take n b ++ drop n (uninit (S n))) = take n b ++ [NUL].
Proof.
  intros Hl. rewrite insert_app_r_alt by (rewrite length_take; lia).
  rewrite length_take_le, Nat.sub_diag by done. f_equal.
  assert (Hd : length (drop n (uninit (S n))) = 1%nat)
    by (rewrite length_drop, uninit_length; lia).
  destruct (drop n (uninit (S n))) as [|x [|y l]]; done.
Qed.

Lemma cell_ok_terminated b n m :
  (0 < n <= length b)%nat -> Z.of_nat n <= m ->
  cell_ok (Some (take n b ++ [NUL])) (Z.of_nat n) m.
Proof.
  intros Hn Hm. unfold cell_ok. split_and!; [lia|lia| |].
  - rewrite length_app, length_take. simpl. lia.
  - rewrite Nat2Z.id, lookup_app_r by (rewrite length_take; lia).
    by rewrite length_take_le, Nat.sub_diag by lia.
Qed.

Lemma scrub_wiped b len m :
  cell_ok (Some b) len m -> m <= SECUREC_MEM_MAX_LEN ->
  Forall (fun ch => ch = NUL) (scrub b len).
Proof.
  intros (Hlen & Hb & Ht) Hm. unfold scrub. rewrite memset_s_ok by lia. simpl.
  apply Forall_app. split; [by apply Forall_replicate|].
  apply Forall_lookup. intros i ch. rewrite lookup_drop. intros Hi.
  apply lookup_lt_Some in Hi as Hlt. assert (i = 0%nat) as -> by lia.
  rewrite Nat.add_0_r in Hi. congruence.
Qed.

Lemma buf_limit c :
  (if fc_storeType c =? SCF_STORE_FILE_PATH then PATH_MAX - 1 else BUF_MAX_LEN - 1)
  <= SECUREC_MEM_MAX_LEN.
Proof. by case_match. Qed.

Lemma released_old old len m :
  cell_ok old len m -> m <= SECUREC_MEM_MAX_LEN ->
  wiped match old with
        | Some b => if negb (len =? 0) then [scrub b len] else []
        | None => []
        end.
Proof.
  intros Hc Hm. destruct old as [b|]; [|by apply Forall_nil]. case_match; [|by apply Forall_nil].
  apply Forall_cons; split; [by eapply scrub_wiped|by apply Forall_nil].
Qed.

Lemma CheckFileCtxBufInput_ok c storeType b bufLen format :
  CheckFileCtxBufInput (Some c) storeType (Some b) bufLen format = SCF_SUCCESS ->
  0 <= storeType ->
  bufLen <= (if storeType =? SCF_STORE_FILE_PATH then PATH_MAX - 1 else BUF_MAX_LEN - 1) /\
  (storeType = SCF_STORE_FILE_PATH \/ storeType = SCF_STORE_BUFFER) /\
  (storeType = SCF_STORE_FILE_PATH ->
    SCF_CheckFilePathAndStat (string_of_list_ascii (take (Z.to_nat bufLen) b)) = true).
Proof.
  unfold CheckFileCtxBufInput, SCF_STORE_FILE_PATH, SCF_STORE_BUFFER, SCF_STORE_ERROR.
  destruct (bufLen =? 0); [done|]. destruct (_ || _)%bool eqn:E; [done|].
  apply orb_false_iff in E as [E _]. bools. intros Hret Hs.
  destruct (storeType =? 0) eqn:Es; bools; simpl in Hret.
  - destruct (PATH_MAX - 1 <? bufLen) eqn:El; bools; [done|].
    destruct (SCF_CheckFilePathAndStat _) eqn:Ec; simpl in Hret; [|done].
    split_and!; [lia|by left|done].
  - assert (storeType = 1) by lia. subst storeType. simpl in Hret.
    destruct (BUF_MAX_LEN - 1 <? bufLen) eqn:El; bools; [done|].
    split_and!; [lia|by right|done].
Qed.

Lemma SetBuf_post e c storeType b bufLen format ret c' released :
  file_ctx_wf c -> 0 <= bufLen <= Z.of_nat (length b) ->
  SCF_FileCtxSetBuf e (Some c) storeType (Some b) bufLen format = (ret, c', released) ->
  wiped released /\
  exists c1, c' = Some c1 /\ file_ctx_wf c1 /\
    (ret <> SCF_SUCCESS -> c1 = c) /\
    (ret = SCF_SUCCESS ->
      fc_buf c1 = Some (take (Z.to_nat bufLen) b ++ [NUL]) /\ fc_bufLen c1 = bufLen /\
      (fc_storeType c1 = SCF_STORE_FILE_PATH ->
        SCF_CheckFilePathAndStat (string_of_list_ascii (take (Z.to_nat bufLen) b)) = true)).
Proof.
  intros Hw Hl. unfold SCF_FileCtxSetBuf.
  assert (Hsame : forall r, r <> SCF_SUCCESS ->
    wiped [] /\ exists c1, Some c = Some c1 /\ file_ctx_wf c1 /\ (r <> SCF_SUCCESS -> c1 = c) /\
    (r = SCF_SUCCESS -> fc_buf c1 = Some (take (Z.to_nat bufLen) b ++ [NUL]) /\
      fc_bufLen c1 = bufLen /\ (fc_storeType c1 = SCF_STORE_FILE_PATH ->
        SCF_CheckFilePathAndStat (string_of_list_ascii (take (Z.to_nat bufLen) b)) = true))).
  { intros r Hr. split; [by apply Forall_nil|]. exists c. by split_and!. }
  destruct (bufLen =? 0) eqn:E0; [intros [= <- <- <-]; by apply Hsame|].
  destruct (_ || _)%bool eqn:Es; [intros [= <- <- <-]; by apply Hsame|].
  destruct (g_scfInitialized e); cbn [negb]; [|intros [= <- <- <-]; by apply Hsame].
  destruct (CheckFileCtxBufInput _ _ _ _ _ =? SCF_SUCCESS) eqn:Ec; cbn [negb];
    [|intros [= <- <- <-]; apply Hsame; by bools].
  destruct (alloc e 0); cbn [negb]; [|intros [= <- <- <-]; by apply Hsame].
  bools. assert (Hge : 0 <= storeType) by (unfold SCF_STORE_FILE_PATH in *; lia).
  destruct (CheckFileCtxBufInput_ok _ _ _ _ _ Ec Hge) as (Hmax & Hst & Hpath).
  assert (Hn : bufLen = Z.of_nat (Z.to_nat bufLen)) by lia.
  set (n := Z.to_nat bufLen) in *. clearbody n. subst bufLen.
  assert (Hbig : Z.of_nat n <= SECUREC_MEM_MAX_LEN)
    by (destruct Hst as [-> | ->]; simpl in Hmax;
        unfold PATH_MAX, BUF_MAX_LEN, MAX_FILE_SIZE, SECUREC_MEM_MAX_LEN in *; lia).
  rewrite fresh_copy by lia. cbn [negb]. rewrite Z.eqb_refl. cbn [negb].
  rewrite terminated by lia. intros [= <- <- <-].
  split; [eapply released_old; [apply (fw_buf _ Hw)|apply buf_limit]|].
  eexists. split; [done|]. split; [|by split].
  destruct Hw. split; simpl; try done. by apply cell_ok_terminated; lia.
Qed.

(** Setting the buffer of a file context keeps it well formed on every path (the
    stored copy is the caller's bytes plus a terminator, within the limits of its
    store type), fails without changing it, and leaves no old contents behind: every
    buffer it releases is all zeros. A stored path always passed the file check. *)
Theorem FileCtxSetBuf_wf e c storeType b bufLen format ret c' released :
  file_ctx_wf c -> 0 <= bufLen <= Z.of_nat (length b) ->
  SCF_FileCtxSetBuf e (Some c) storeType (Some b) bufLen format = (ret, c', released) ->
  wiped released /\
  exists c1, c' = Some c1 /\ file_ctx_wf c1 /\
    (ret <> SCF_SUCCESS -> c1 = c) /\
    (ret = SCF_SUCCESS ->
      fc_buf c1 = Some (take (Z.to_nat bufLen) b ++ [NUL]) /\ fc_bufLen c1 = bufLen /\
      (fc_storeType c1 = SCF_STORE_FILE_PATH ->
        SCF_CheckFilePathAndStat (string_of_list_ascii (take (Z.to_nat bufLen) b)) = true)).
Proof. apply SetBuf_post. Qed.

Lemma wiped_cons b l : Forall (fun ch => ch = NUL) b -> wiped l -> wiped (b :: l).
Proof. intros Hb Hl. by apply Forall_cons. Qed.

Lemma wiped_plain n : Forall (fun ch => ch = NUL) (replicate n NUL).
Proof. by apply Forall_replicate. Qed.

Lemma wiped_nil : wiped [].
Proof. by apply Forall_nil. Qed.

Lemma scrub_all b n :
  length b = n -> (0 < n)%nat -> Z.of_nat n <= SECUREC_MEM_MAX_LEN ->
  Forall (fun ch => ch = NUL) (scrub b (Z.of_nat n)).
Proof.
  intros Hl Hn Hm. unfold scrub. rewrite memset_s_ok by lia. simpl.
  rewrite Nat2Z.id, drop_ge, app_nil_r by lia. apply wiped_plain.
Qed.

(** Secure C refuses to copy nothing. *)
Lemma memcpy_s_empty : exists rc, rc <> EOK /\
  memcpy_s (uninit (S (length (@nil ascii)))) (Z.of_nat (length (@nil ascii))) [] = (rc, uninit 1).
Proof.
  destruct (memcpy_s_zero (uninit 1) []) as [Hrc Hd].
  eexists. split; [exact Hrc|]. change (Z.of_nat (length (@nil ascii))) with 0.
  cbn [length]. rewrite <- Hd at 3. apply surjective_pairing.
Qed.

(** Whether there is a password to store, and the vector that holds it. *)
Definition password_of (isCipher : bool) (given : list ascii) : bool * list ascii :=
  if isCipher then Decrypt given else (true, given).

(** The replaced password, wiped, in its length. *)
Lemma released_length old len m :
  cell_ok old len m -> m <= SECUREC_MEM_MAX_LEN ->
  length <$> match old with
             | Some b => if negb (len =? 0) then [scrub b len] else []
             | None => []
             end = from_option (fun b => [length b]) [] old.
Proof.
  intros Hc Hm. destruct old as [b|]; [|done]. destruct Hc as (Hlen & Hb & _).
  rewrite (proj2 (Z.eqb_neq len 0)) by lia. cbn. f_equal. unfold scrub.
  rewrite memset_s_ok by lia. cbn. rewrite length_app, length_replicate, length_drop. lia.
Qed.

Lemma SetPwd_post e c p passwdLen (isCipher : bool) ret c' released :
  file_ctx_wf c -> 0 <= passwdLen <= Z.of_nat (length p) ->
  let answer := password_of isCipher (take (Z.to_nat passwdLen) p) in
  (answer.1 = true -> Z.of_nat (length answer.2) < SECUREC_MEM_MAX_LEN) ->
  SCF_FileCtxSetPwd e (Some c) (Some p) passwdLen isCipher = (ret, c', released) ->
  (if negb (g_scfInitialized e) || (passwdLen =? 0) then released = []
   else if answer.1 then wiped released
   else ret = SCF_ERROR /\ released = [answer.2]) /\
  exists c1, c' = Some c1 /\ file_ctx_wf c1 /\
    (ret <> SCF_SUCCESS \/ passwdLen = 0 -> c1 = c) /\
    (ret = SCF_SUCCESS -> 0 < passwdLen ->
      answer.1 = true /\ fc_passwd c1 = Some (answer.2 ++ [NUL]) /\
      fc_passwdLen c1 = Z.of_nat (length answer.2) /\
      (length <$> released) = length answer.2 :: from_option (fun old => [length old]) [] (fc_passwd c)).
Proof.
  intros Hw Hl answer Hbound. unfold SCF_FileCtxSetPwd.
  destruct (g_scfInitialized e); cbn [negb orb].
  2: { intros [= <- <- <-]. split; [done|]. exists c. by split_and!. }
  destruct (passwdLen =? 0) eqn:E0; bools.
  { intros [= <- <- <-]. split; [done|]. exists c. split_and!; try done. lia. }
  change (if isCipher then Decrypt (take (Z.to_nat passwdLen) p)
    else (true, take (Z.to_nat passwdLen) p)) with answer.
  clearbody answer. destruct answer as [[] q]; cbn [negb fst snd] in *.
  2: { intros [= <- <- <-]. split; [done|]. exists c. by split_and!. }
  specialize (Hbound eq_refl).
  assert (Hfail : forall rel, wiped rel -> wiped rel /\ exists c1, Some c = Some c1 /\
    file_ctx_wf c1 /\ (SCF_ERRNO_MEM_ALLOC <> SCF_SUCCESS \/ passwdLen = 0 -> c1 = c) /\
    (SCF_ERRNO_MEM_ALLOC = SCF_SUCCESS -> 0 < passwdLen ->
      true = true /\ fc_passwd c1 = Some (q ++ [NUL]) /\
      fc_passwdLen c1 = Z.of_nat (length q) /\
      (length <$> rel) = length q :: from_option (fun old => [length old]) [] (fc_passwd c))).
  { intros rel Hrel. split; [done|]. exists c. by split_and!. }
  assert (Hu : (UINT32_MAX <=? Z.of_nat (length q)) = false)
    by (apply Z.leb_gt; unfold UINT32_MAX, SECUREC_MEM_MAX_LEN in *; lia).
  rewrite Hu. destruct (alloc e 0); cbn [negb];
    [|intros [= <- <- <-]; apply Hfail, wiped_cons; [apply wiped_plain|apply wiped_nil]].
  destruct (decide (length q = 0%nat)) as [Hq0|Hq0].
  - apply nil_length_inv in Hq0. subst q.
    destruct memcpy_s_empty as (rc & Hrc & ->).
    rewrite (proj2 (Z.eqb_neq _ _) Hrc). cbn [negb]. intros [= <- <- <-].
    apply Hfail, wiped_cons; [by apply Forall_nil|].
    apply wiped_cons; [|apply wiped_nil]. cbn [length].
    change (Z.of_nat 0 + 1) with (Z.of_nat 1).
    apply scrub_all; [apply uninit_length|lia|by vm_compute].
  - assert (Hcopy := fresh_copy q (length q) ltac:(lia) ltac:(lia) ltac:(lia)).
    rewrite take_ge in Hcopy by lia. rewrite Hcopy, Z.eqb_refl. cbn [negb].
    pose proof (terminated q (length q) ltac:(lia)) as Ht. rewrite take_ge in Ht by lia.
    rewrite Ht. intros [= <- <- <-]. split.
    + apply wiped_cons; [apply wiped_plain|].
      eapply released_old; [apply (fw_passwd _ Hw)|done].
    + eexists. split; [done|]. split_and!.
      * destruct Hw. split; simpl; try done.
        pose proof (cell_ok_terminated q (length q) SECUREC_MEM_MAX_LEN) as Hc.
        rewrite take_ge in Hc by lia. apply Hc; lia.
      * intros [?|?]; [done|lia].
      * intros _ _. split_and!; [done..|]. cbn [fmap list_fmap]. rewrite length_replicate.
        f_equal. eapply released_length; [apply (fw_passwd _ Hw)|done].
Qed.

(** (C32) Setting the password of a file context, for a callback that never answers with
    2 GiB or more of plaintext. Every buffer the call releases - the vector of the
    plaintext, a copy that could not be finished, the replaced password - holds zeros only,
    with one exception: when the decryption callback fails the call answers [SCF_ERROR] and
    the vector it was given is released as the callback left it, unwiped. Before the
    library is initialised, and for an empty password, nothing is released. The context stays
    well formed; a failure leaves it unchanged; on success it holds exactly the plaintext and
    a terminator, and what was released is the plaintext's vector and the password it
    replaces, if it had one, in their full lengths. *)
Theorem FileCtxSetPwd_scrubs e c p passwdLen (isCipher : bool) ret c' released :
  file_ctx_wf c -> 0 <= passwdLen <= Z.of_nat (length p) ->
  let answer := password_of isCipher (take (Z.to_nat passwdLen) p) in
  (answer.1 = true -> Z.of_nat (length answer.2) < SECUREC_MEM_MAX_LEN) ->
  SCF_FileCtxSetPwd e (Some c) (Some p) passwdLen isCipher = (ret, c', released) ->
  (if negb (g_scfInitialized e) || (passwdLen =? 0) then released = []
   else if answer.1 then wiped released
   else ret = SCF_ERROR /\ released = [answer.2]) /\
  exists c1, c' = Some c1 /\ file_ctx_wf c1 /\
    (ret <> SCF_SUCCESS \/ passwdLen = 0 -> c1 = c) /\
    (ret = SCF_SUCCESS -> 0 < passwdLen ->
      answer.1 = true /\ fc_passwd c1 = Some (answer.2 ++ [NUL]) /\
      fc_passwdLen c1 = Z.of_nat (length answer.2) /\
      (length <$> released) = length answer.2 :: from_option (fun old => [length old]) [] (fc_passwd c)).
Proof. apply SetPwd_post. Qed.

(** Freeing a context releases nothing but zeros. *)
Lemma FileCtxFree_wiped c : file_ctx_wf c -> wiped (SCF_FileCtxFree (Some c)).2.
Proof.
  intros [Hb Hp _ _]. simpl. apply Forall_app. split.
  - eapply released_old; [exact Hb|apply buf_limit].
  - by eapply released_old.
Qed.
End file_ctx_theorems.

(** ** Witnesses *)

Lemma FileCtxSetBuf_wf_witness :
  exists c1, SCF_FileCtxSetBuf env_up (Some empty_file_ctx) SCF_STORE_FILE_PATH
               (Some (bytes "/etc/ca.pem")) 11 SCF_STORE_FORMAT_PEM
             = (SCF_SUCCESS, Some c1, []) /\
    file_ctx_wf c1 /\ fc_buf c1 = Some (bytes "/etc/ca.pem" ++ [NUL]) /\
    SCF_CheckFilePathAndStat "/etc/ca.pem" = true.
Proof.
  destruct (FileCtxSetBuf_wf env_up empty_file_ctx SCF_STORE_FILE_PATH (bytes "/etc/ca.pem") 11
              SCF_STORE_FORMAT_PEM _ _ _ empty_file_ctx_wf ltac:(by split) eq_refl)
    as (_ & c1 & Heq & Hwf & _ & Hok).
  destruct Hok as (Hbuf & _ & Hpath); [by vm_compute|].
  vm_compute in Heq. apply Some_inj in Heq as <-.
  eexists. split; [vm_compute; reflexivity|]. split; [exact Hwf|]. split; [exact Hbuf|].
  by vm_compute.
Defined.

Lemma FileCtxSetPwd_scrubs_witness :
  exists c1, SCF_FileCtxSetPwd env_up (Some empty_file_ctx) (Some (bytes "terces")) 6 true
             = (SCF_SUCCESS, Some c1, [replicate 6 NUL]) /\
    file_ctx_wf c1 /\ fc_passwd c1 = Some (bytes "secret" ++ [NUL]).
Proof.
  destruct (FileCtxSetPwd_scrubs env_up empty_file_ctx (bytes "terces") 6 true _ _ _
              empty_file_ctx_wf ltac:(by split) ltac:(by vm_compute) eq_refl)
    as (_ & c1 & Heq & Hwf & _ & Hok).
  destruct Hok as (_ & Hpwd & _); [by vm_compute|lia|].
  vm_compute in Heq. apply Some_inj in Heq as <-.
  eexists. split; [vm_compute; reflexivity|]. split; [exact Hwf|].
  rewrite Hpwd. by vm_compute.
Defined.

(** A callback that gives up half way: what it had decrypted is released as it is. *)
Definition HalfDecryptor : Decryptor :=
  {| decryptFunction_ := Some (fun c => (false, take 3 (rev c))) |}.
Example failing_callback_leaks :
  @SCF_FileCtxSetPwd _ HalfDecryptor _ env_up (Some empty_file_ctx) (Some (bytes "terces")) 6 true
  = (SCF_ERROR, Some empty_file_ctx, [bytes "sec"]).
Proof. by vm_compute. Qed.
