(* ===== verification/Machine.v ===== *)
(** * The process: heap, globals and the TLS library

    The state the policy layer and the OpenSSL adaptor share: the live policy contexts
    and objects by address, the process globals, and the history of calls into code
    outside the repository (OpenSSL, libc). An external function is not defined: its
    answer is an arbitrary function of the history ([Library]). Programs live in a
    state monad whose failure is undefined behaviour (a dereference of a null or freed
    address); [wp] is its weakest precondition. *)
From Stdlib Require Import ZArith Lia Ascii String.
From stdpp Require Import base list fin_maps gmap strings.
From S2P Require Import Prelude Errno Types.
Open Scope Z_scope.

(** ** External functions *)
Inductive LibFn : Type :=
(* libssl *)
| OPENSSL_init_ssl | SSL_new | SSL_free | SSL_connect | SSL_accept | SSL_get_error
| SSL_read_ex | SSL_write_ex | SSL_shutdown | SSL_set_ex_data | SSL_get_ex_data | SSL_set_fd
| SSL_is_init_finished | SSL_key_update | SSL_get_version | SSL_get_peer_certificate
| SSL_get_certificate | SSL_set_verify | SSL_CIPHER_find | SSL_CIPHER_get_id
| SSL_CTX_new | SSL_CTX_new_ex | SSL_CTX_new_ex_Get | SSL_CTX_free | SSL_CTX_load_verify_locations
| SSL_CTX_get_cert_store | SSL_CTX_use_certificate_file | SSL_CTX_use_certificate
| SSL_CTX_use_certificate_chain_file | SSL_CTX_use_PrivateKey_file | SSL_CTX_use_PrivateKey
| SSL_CTX_set_default_passwd_cb_userdata | SSL_CTX_set_ciphersuites | SSL_get_current_cipher
| SSL_CTX_set_options | SSL_CTX_get_options | SSL_CTX_set_cert_verify_callback
| SSL_CTX_check_private_key | SSL_CTX_set_verify | SSL_CTX_set_security_level
| SSL_CTX_set_psk_find_session_callback | SSL_CTX_set_psk_use_session_callback
| SSL_CTX_get_ciphers | SSL_CTX_ctrl | SSL_CTX_set_default_passwd_cb
| SSL_SESSION_new | SSL_SESSION_free | SSL_SESSION_set1_master_key | SSL_SESSION_set_cipher
| SSL_SESSION_get0_cipher | SSL_SESSION_set_protocol_version | SSL_SESSION_get_protocol_version
| TLS_server_method | TLS_client_method | PEM_read_bio_X509 | PEM_read_bio_X509_CRL
| PEM_read_X509_CRL | PEM_read_bio_PrivateKey | OPENSSL_sk_num | OPENSSL_sk_value
(* libcrypto *)
| BIO_new_mem_buf | BIO_free | X509_free | X509_CRL_free | EVP_PKEY_free
| X509_STORE_add_cert | X509_STORE_add_crl | X509_STORE_set_flags | X509_get_version
| X509_getm_notBefore | X509_getm_notAfter | X509_get0_serialNumber | X509_verify_cert
| X509_STORE_CTX_get_error | X509_get_ext_by_OBJ | X509_get_ext | X509_EXTENSION_get_data
| OBJ_txt2obj | ASN1_OBJECT_free | ASN1_STRING_length | ASN1_STRING_get0_data
| d2i_ASN1_UTF8STRING | i2d_ASN1_UTF8STRING | ASN1_UTF8STRING_free | ASN1_STRING_to_UTF8
| CRYPTO_free | EVP_sha256 | EVP_sha384 | ERR_print_errors_cb | ERR_get_error
| ERR_error_string
(* libc, loader, file system and the callbacks of the application *)
| gettimeofday | op_new | op_delete | fopen_r | fclose_f
| LibCrypto_Init | LibCrypto_UnInit | LibSsl_Init | LibSsl_UnInit
| engine_GetProviderContext | cb_pskFindSession | cb_pskUseSession | cb_Decrypt
(* virtual methods of a transport, a crypto engine and their factories *)
| transport_Create | transport_SetConfig | transport_Connect | transport_Bind | transport_Accept
| transport_Close | transport_GetNativeHandle | transport_delete
| engine_Create | engine_Initialize | engine_Finalize | engine_delete
| engine_IsHardwareAccelerated | engine_GetAcceleratedAlgorithms
(* sockets *)
| sys_socket | sys_connect | sys_bind | sys_listen | sys_accept | sys_close | sys_send
| sys_recv | sys_fcntl | sys_setsockopt | sys_poll | inet_pton | inet_ntop | getaddrinfo | freeaddrinfo
(* the loader and the entry points only it calls *)
| dlopen | dlclose | dlsym | OpenSSL_version_num | OPENSSL_init_crypto
(* libcrypto, for the crypto engines *)
| OpenSSL_version | EVP_aes_128_gcm | EVP_aes_256_gcm | EVP_aes_128_ccm | EVP_chacha20_poly1305
| EVP_sha512 | EVP_MD_get_size | EVP_CIPHER_CTX_new | EVP_CIPHER_CTX_free | EVP_CIPHER_CTX_ctrl
| EVP_EncryptInit_ex | EVP_EncryptUpdate | EVP_EncryptFinal_ex
| EVP_DecryptInit_ex | EVP_DecryptUpdate | EVP_DecryptFinal_ex
| EVP_MD_CTX_new | EVP_MD_CTX_free | EVP_DigestInit_ex | EVP_DigestUpdate | EVP_DigestFinal_ex
| EVP_HMAC | EVP_PKEY_new | EVP_PKEY_CTX_new | EVP_PKEY_CTX_new_id | EVP_PKEY_CTX_free
| EVP_PKEY_keygen_init | EVP_PKEY_keygen | EVP_PKEY_derive_init | EVP_PKEY_derive_set_peer
| EVP_PKEY_derive | EVP_PKEY_CTX_ctrl | EVP_PKEY_CTX_set_ec_paramgen_curve_nid
| EVP_PKEY_CTX_set_hkdf_md | EVP_PKEY_CTX_set1_hkdf_salt | EVP_PKEY_CTX_set1_hkdf_key
| EVP_PKEY_CTX_set_hkdf_mode | EVP_PKEY_CTX_add1_hkdf_info | d2i_PUBKEY | RAND_bytes
| OSSL_LIB_CTX_new | OSSL_LIB_CTX_free | OSSL_PROVIDER_load | OSSL_PROVIDER_unload
| ERR_error_string_n.

Inductive Arg : Type :=
| AInt (n : Z)
| AStr (s : string)
| ABytes (b : list ascii).

(** One external call with its answer; a history lists the newest first. *)
Record Event : Type := mkEvent { ev_fn : LibFn; ev_args : list Arg; ev_ret : Z }.
Definition History : Type := list Event.

(** The environment: the integer or pointer a call answers, the integer it stores
    through its out-pointer, the bytes found behind a pointer it handed out, and the
    data of an [ASN1_STRING] (its [data]/[length] fields). *)
Class Library : Type := {
  answer : History -> LibFn -> list Arg -> Z;
  out_value : History -> Z;
  cstring_at : History -> Z -> string;
  bytes_at : History -> Z -> Z -> list ascii;
  asn1_data : History -> Z -> list ascii
}.

(** A library that succeeds, for the witnesses: allocations and handles are 1, clocks say
    1000, a PEM buffer holds one certificate, and settings read back as zero. *)
Definition is_event (f : LibFn) (e : Event) : bool :=
  match f, ev_fn e with PEM_read_bio_X509, PEM_read_bio_X509 => true | _, _ => false end.

Definition ref_answer (h : History) (f : LibFn) (args : list Arg) : Z :=
  match f, args with
  | gettimeofday, _ | LibCrypto_Init, _ | LibSsl_Init, _ | cb_pskFindSession, _
  | transport_Connect, _ | transport_Bind, _ => 0
  | SSL_CTX_ctrl, [_; AInt 45; _; _] | SSL_CTX_ctrl, [_; AInt 130; _; _]
  | SSL_CTX_ctrl, [_; AInt 131; _; _] => 0
  | PEM_read_bio_X509, _ =>
      if existsb (is_event PEM_read_bio_X509) h then 0 else 1
  | X509_get_version, _ => 2
  | _, _ => 1
  end.

#[export] Instance RefLibrary : Library := {|
  answer := ref_answer;
  out_value _ := 1000;
  cstring_at _ _ := "TLSv1.3"%string;
  bytes_at _ _ n := replicate (Z.to_nat n) "?"%char;
  asn1_data _ _ := bytes "20250101000000Z"
|}.

(** ** The state *)
Record World : Type := mkWorld {
  w_log : History;
  w_ctxs : gmap Z SCFPolicyCtx;
  w_objs : gmap Z SCFPolicyObj;
  w_next : Z;
  w_scfInitialized : bool;
  w_isTlsInit : bool;
  w_adaptor : bool;
  w_certlog : bool;
  w_cryptoEngine : Z
}.

Definition set_log (l : History) (w : World) : World :=
  mkWorld l (w_ctxs w) (w_objs w) (w_next w) (w_scfInitialized w) (w_isTlsInit w)
    (w_adaptor w) (w_certlog w) (w_cryptoEngine w).
Definition set_ctxs (m : gmap Z SCFPolicyCtx) (w : World) : World :=
  mkWorld (w_log w) m (w_objs w) (w_next w) (w_scfInitialized w) (w_isTlsInit w)
    (w_adaptor w) (w_certlog w) (w_cryptoEngine w).
Definition set_objs (m : gmap Z SCFPolicyObj) (w : World) : World :=
  mkWorld (w_log w) (w_ctxs w) m (w_next w) (w_scfInitialized w) (w_isTlsInit w)
    (w_adaptor w) (w_certlog w) (w_cryptoEngine w).
Definition set_next (n : Z) (w : World) : World :=
  mkWorld (w_log w) (w_ctxs w) (w_objs w) n (w_scfInitialized w) (w_isTlsInit w)
    (w_adaptor w) (w_certlog w) (w_cryptoEngine w).
Definition set_scfInitialized (b : bool) (w : World) : World :=
  mkWorld (w_log w) (w_ctxs w) (w_objs w) (w_next w) b (w_isTlsInit w)
    (w_adaptor w) (w_certlog w) (w_cryptoEngine w).
Definition set_isTlsInit (b : bool) (w : World) : World :=
  mkWorld (w_log w) (w_ctxs w) (w_objs w) (w_next w) (w_scfInitialized w) b
    (w_adaptor w) (w_certlog w) (w_cryptoEngine w).
Definition set_adaptor (b : bool) (w : World) : World :=
  mkWorld (w_log w) (w_ctxs w) (w_objs w) (w_next w) (w_scfInitialized w) (w_isTlsInit w)
    b (w_certlog w) (w_cryptoEngine w).
Definition set_certlog (b : bool) (w : World) : World :=
  mkWorld (w_log w) (w_ctxs w) (w_objs w) (w_next w) (w_scfInitialized w) (w_isTlsInit w)
    (w_adaptor w) b (w_cryptoEngine w).
Definition set_cryptoEngine (p : Z) (w : World) : World :=
  mkWorld (w_log w) (w_ctxs w) (w_objs w) (w_next w) (w_scfInitialized w) (w_isTlsInit w)
    (w_adaptor w) (w_certlog w) p.

(** ** The monad *)
Definition M (A : Type) : Type := World -> option (A * World).

#[export] Instance M_ret : MRet M := fun A a w => Some (a, w).
#[export] Instance M_bind : MBind M := fun A B f m w =>
  match m w with Some (a, w') => f a w' | None => None end.

(** Undefined behaviour. *)
Definition fault {A} : M A := fun _ => None.
Definition gets {A} (f : World -> A) : M A := fun w => Some (f w, w).
Definition modify (f : World -> World) : M unit := fun w => Some (tt, f w).

Definition get_ctx (p : Z) : M SCFPolicyCtx := fun w =>
  match w_ctxs w !! p with Some c => Some (c, w) | None => None end.
Definition upd_ctx (p : Z) (f : SCFPolicyCtx -> SCFPolicyCtx) : M unit := fun w =>
  match w_ctxs w !! p with
  | Some c => Some (tt, set_ctxs (<[p := f c]> (w_ctxs w)) w)
  | None => None
  end.
Definition get_obj (p : Z) : M SCFPolicyObj := fun w =>
  match w_objs w !! p with Some o => Some (o, w) | None => None end.
Definition upd_obj (p : Z) (f : SCFPolicyObj -> SCFPolicyObj) : M unit := fun w =>
  match w_objs w !! p with
  | Some o => Some (tt, set_objs (<[p := f o]> (w_objs w)) w)
  | None => None
  end.

Section calls.
Context `{Library}.

(** Call an external function. *)
Definition lib (f : LibFn) (args : list Arg) : M Z := fun w =>
  let r := answer (w_log w) f args in
  Some (r, set_log (mkEvent f args r :: w_log w) w).

(** Call one that follows its first argument, a pointer: null is undefined behaviour. *)
Definition lib_deref (f : LibFn) (p : Z) (args : list Arg) : M Z :=
  if p =? nullptr then fault else lib f (AInt p :: args).

Definition lib_out : M Z := gets (fun w => out_value (w_log w)).
Definition lib_cstring (p : Z) : M string := gets (fun w => cstring_at (w_log w) p).
Definition lib_asn1 (p : Z) : M (list ascii) := gets (fun w => asn1_data (w_log w) p).
Definition lib_bytes (p len : Z) : M (list ascii) := gets (fun w => bytes_at (w_log w) p len).
End calls.

(** ** Weakest preconditions: the program does not fault and ends in [Q] *)
Definition wp {A} (m : M A) (Q : A -> World -> Prop) (w : World) : Prop :=
  match m w with Some (a, w') => Q a w' | None => False end.

Section wp_rules.
Context `{Library}.

Lemma wp_ret {A} (a : A) Q w : Q a w -> wp (mret a) Q w.
Proof. done. Qed.

Lemma wp_bind {A B} (m : M A) (f : A -> M B) Q w :
  wp m (fun a w' => wp (f a) Q w') w -> wp (m ≫= f) Q w.
Proof. unfold wp, mbind, M_bind. by destruct (m w) as [[a w']|]. Qed.

Lemma wp_mono {A} (m : M A) (Q Q' : A -> World -> Prop) w :
  wp m Q w -> (forall a w', Q a w' -> Q' a w') -> wp m Q' w.
Proof. unfold wp. destruct (m w) as [[a w']|]; auto. Qed.

Lemma wp_gets {A} (f : World -> A) Q w : Q (f w) w -> wp (gets f) Q w.
Proof. done. Qed.

Lemma wp_modify f Q w : Q tt (f w) -> wp (modify f) Q w.
Proof. done. Qed.

Lemma wp_lib f args Q w :
  (forall r, r = answer (w_log w) f args -> Q r (set_log (mkEvent f args r :: w_log w) w)) ->
  wp (lib f args) Q w.
Proof. intros HQ. unfold wp, lib. by apply HQ. Qed.

Lemma wp_get_ctx p c Q w : w_ctxs w !! p = Some c -> Q c w -> wp (get_ctx p) Q w.
Proof. intros Hl. unfold wp, get_ctx. by rewrite Hl. Qed.

Lemma wp_upd_ctx p c f Q w :
  w_ctxs w !! p = Some c -> Q tt (set_ctxs (<[p := f c]> (w_ctxs w)) w) ->
  wp (upd_ctx p f) Q w.
Proof. intros Hl. unfold wp, upd_ctx. by rewrite Hl. Qed.

Lemma wp_get_obj p o Q w : w_objs w !! p = Some o -> Q o w -> wp (get_obj p) Q w.
Proof. intros Hl. unfold wp, get_obj. by rewrite Hl. Qed.

Lemma wp_upd_obj p o f Q w :
  w_objs w !! p = Some o -> Q tt (set_objs (<[p := f o]> (w_objs w)) w) ->
  wp (upd_obj p f) Q w.
Proof. intros Hl. unfold wp, upd_obj. by rewrite Hl. Qed.

Lemma wp_run {A} (m : M A) (Q : A -> World -> Prop) w a w' :
  wp m Q w -> m w = Some (a, w') -> Q a w'.
Proof. unfold wp. intros HQ Hm. by rewrite Hm in HQ. Qed.
End wp_rules.

(** ** Methods: programs that also update the object they are called on *)
Definition Method (S X : Type) : Type := S -> M (X * S).
#[export] Instance Method_ret {S} : MRet (Method S) := fun X x this => mret (x, this).
#[export] Instance Method_bind {S} : MBind (Method S) := fun X Y f m this =>
  r ← m this; f r.1 r.2.

Section methods.
Context {S X Y : Type}.
Implicit Types (c : S).

Definition this_ (f : S -> X) : Method S X := fun this => mret (f this, this).
Definition update (f : S -> S) : Method S unit := fun this => mret (tt, f this).
Definition call (m : M X) : Method S X := fun this => x ← m; mret (x, this).

Lemma wp_meth_bind (m : Method S X) (f : X -> Method S Y) c Q w :
  wp (m c) (fun r w' => wp (f r.1 r.2) Q w') w -> wp ((m ≫= f) c) Q w.
Proof. apply wp_bind. Qed.

Lemma wp_this (f : S -> X) c Q w : Q (f c, c) w -> wp (this_ f c) Q w.
Proof. done. Qed.

Lemma wp_update f c (Q : unit * S -> World -> Prop) w : Q (tt, f c) w -> wp (update f c) Q w.
Proof. done. Qed.

Lemma wp_call (m : M X) c Q w : wp m (fun x w' => Q (x, c) w') w -> wp (call m c) Q w.
Proof. intros Hm. by apply wp_bind. Qed.

Lemma wp_meth_ret (x : X) c Q w : Q (x, c) w -> wp ((mret x : Method S X) c) Q w.
Proof. done. Qed.
End methods.
