(* ===== verification/OpenSSL.v ===== *)
(** * The OpenSSL adaptor, connection side

    [src/adaptor/openssl/openssl_adaptor.cpp]: handshake, data transfer, key update and
    per-object handles, as programs over the machine. Log output is left out, but not the
    calls that log lines make on a crypto engine; every call into libssl and libcrypto is
    an event. *)
From Stdlib Require Import ZArith Lia Ascii String.
From stdpp Require Import base list fin_maps gmap strings.
From S2P Require Import Prelude Errno Types Machine.
Open Scope Z_scope.

(** ** Constants of [openssl_def.h] *)
Definition SSL_EX_DATA_ID : Z := 1.
Definition SSL_SUCCESS : Z := 1.
Definition SSL_ERROR : Z := 0.
Definition SSL_ERROR_WANT_READ : Z := 2.
Definition SSL_ERROR_WANT_WRITE : Z := 3.
Definition SSL_KEY_UPDATE_NONE : Z := -1.
Definition SSL_KEY_UPDATE_NOT_REQUESTED : Z := 0.
Definition SSL_KEY_UPDATE_REQUESTED : Z := 1.
Definition SSL_FILETYPE_PEM : Z := 1.
Definition X509_V_FLAG_CRL_CHECK : Z := 4.
Definition SSL_VERIFY_NONE : Z := 0.
Definition SSL_VERIFY_PEER : Z := 1.
Definition SSL_VERIFY_FAIL_IF_NO_PEER_CERT : Z := 2.
Definition SSL_SESS_CACHE_OFF : Z := 0.
Definition SSL_OP_NO_TLSv1_2 : Z := 0x08000000.
Definition SSL_OP_NO_TLSv1_3 : Z := 0x20000000.
Definition SSL_OP_NO_RENEGOTIATION : Z := 0x40000000.
Definition SSL_CTRL_EXTRA_CHAIN_CERT : Z := 14.
Definition SSL_CTRL_SET_SESS_CACHE_MODE : Z := 44.
Definition SSL_CTRL_GET_SESS_CACHE_MODE : Z := 45.
Definition SSL_CTRL_SET_GROUPS_LIST : Z := 92.
Definition SSL_CTRL_SET_MIN_PROTO_VERSION : Z := 123.
Definition SSL_CTRL_SET_MAX_PROTO_VERSION : Z := 124.
Definition SSL_CTRL_GET_MIN_PROTO_VERSION : Z := 130.
Definition SSL_CTRL_GET_MAX_PROTO_VERSION : Z := 131.
Definition TLS1_2_VERSION : Z := 0x0303.
Definition TLS1_3_VERSION : Z := 0x0304.
Definition SSL_SECURITY_LEVEL_TWO : Z := 2.

(** [KeyUpdateType] of abstract_tls_adaptor.h. *)
Definition KEY_UPDATE_NONE : Z := -1.
Definition KEY_UPDATE_NOT_REQUESTED : Z := 0.
Definition KEY_UPDATE_REQUESTED : Z := 1.
Definition KEY_UPDATE_END : Z := 255.

(** [MapVersion2NoOpt]: the status and [*sslOp] when it was written. *)
Definition MapVersion2NoOpt (version : Z) (sslOp : option Z) : Z * option Z :=
  match sslOp with
  | None => (SCF_ERRNO_NULL_INPUT, None)
  | Some _ =>
      return_if version =? TLS1_2_VERSION with (SSL_SUCCESS, Some SSL_OP_NO_TLSv1_2) ;;
      return_if version =? TLS1_3_VERSION with (SSL_SUCCESS, Some SSL_OP_NO_TLSv1_3) ;;
      (SSL_ERROR, sslOp)
  end.

(** The loop of [CheckVersion] over [version..maxVersion]; [fuel] is the number of
    versions left. *)
Fixpoint check_version_loop (fuel : nat) (version options : Z) : Z :=
  match fuel with
  | O => SSL_ERROR
  | S fuel' =>
      let '(st, op) := MapVersion2NoOpt version (Some 0) in
      return_if negb (st =? SSL_SUCCESS) with SSL_ERROR ;;
      return_if Z.land (default 0 op) options =? 0 with SSL_SUCCESS ;;
      check_version_loop fuel' (version + 1) options
  end.

Definition InnerGetOpensslUpdateType (updateType : Z) : Z * Z :=
  return_if updateType =? KEY_UPDATE_NONE with (SCF_SUCCESS, SSL_KEY_UPDATE_NONE) ;;
  return_if updateType =? KEY_UPDATE_NOT_REQUESTED
    with (SCF_SUCCESS, SSL_KEY_UPDATE_NOT_REQUESTED) ;;
  return_if updateType =? KEY_UPDATE_REQUESTED
    with (SCF_SUCCESS, SSL_KEY_UPDATE_REQUESTED) ;;
  (SCF_ERROR, 0).

Section adaptor.
Context `{Library} `{SecureC}.

Definition SSL_CTX_set_min_proto_version (ctx version : Z) : M Z :=
  lib SSL_CTX_ctrl [AInt ctx; AInt SSL_CTRL_SET_MIN_PROTO_VERSION; AInt version; AInt nullptr].
Definition SSL_CTX_set_max_proto_version (ctx version : Z) : M Z :=
  lib SSL_CTX_ctrl [AInt ctx; AInt SSL_CTRL_SET_MAX_PROTO_VERSION; AInt version; AInt nullptr].
Definition SSL_CTX_get_min_proto_version (ctx : Z) : M Z :=
  lib SSL_CTX_ctrl [AInt ctx; AInt SSL_CTRL_GET_MIN_PROTO_VERSION; AInt 0; AInt nullptr].
Definition SSL_CTX_get_max_proto_version (ctx : Z) : M Z :=
  lib SSL_CTX_ctrl [AInt ctx; AInt SSL_CTRL_GET_MAX_PROTO_VERSION; AInt 0; AInt nullptr].
Definition SSL_CTX_set_session_cache_mode (ctx m : Z) : M Z :=
  lib SSL_CTX_ctrl [AInt ctx; AInt SSL_CTRL_SET_SESS_CACHE_MODE; AInt m; AInt nullptr].
Definition SSL_CTX_get_session_cache_mode (ctx : Z) : M Z :=
  lib SSL_CTX_ctrl [AInt ctx; AInt SSL_CTRL_GET_SESS_CACHE_MODE; AInt 0; AInt nullptr].
Definition SSL_CTX_add_extra_chain_cert (ctx x509 : Z) : M Z :=
  lib SSL_CTX_ctrl [AInt ctx; AInt SSL_CTRL_EXTRA_CHAIN_CERT; AInt 0; AInt x509].

(** The error queue is printed through [SslErrorsPrint]. *)
Definition print_errors : M unit := _ ← lib ERR_print_errors_cb []; mret tt.

(** *** Lifetime *)

Definition DeInit : M unit :=
  _ ← modify (set_cryptoEngine nullptr);
  _ ← lib LibCrypto_UnInit [];
  _ ← lib LibSsl_UnInit [];
  mret tt.

(** [LibCryptoApi::Init] and [LibSslApi::Init] load the libraries. *)
Definition Init (flag : Z) (settings : option string) : M Z :=
  match settings with
  | None => mret SCF_ERRNO_LOAD_LIB
  | Some libPath =>
      ret ← lib LibCrypto_Init [AStr libPath];
      return_if negb (ret =? SCF_SUCCESS) with (_ ← DeInit; mret ret) ;;
      ret ← lib LibSsl_Init [AStr libPath];
      return_if negb (ret =? SCF_SUCCESS) with (_ ← DeInit; mret ret) ;;
      mret SCF_SUCCESS
  end.

(** The operands of a log line about an engine: they are evaluated whatever the log level. *)
Definition log_engine (engine : Z) : M unit :=
  _ ← lib engine_IsHardwareAccelerated [AInt engine];
  _ ← lib engine_GetAcceleratedAlgorithms [AInt engine];
  mret tt.

Definition SetCryptoEngine (engine : Z) : M unit :=
  _ ← modify (set_cryptoEngine engine);
  if engine =? nullptr then mret tt else log_engine engine.
Definition GetCryptoEngine : M Z := gets w_cryptoEngine.
Definition OpenCertErrorLog : M unit := modify (set_certlog true).
Definition CloseCertErrorLog : M unit := modify (set_certlog false).

(** *** Certificate fields *)

Definition GetCurrentCert (obj : Z) : M Z :=
  return_if obj =? nullptr with (mret nullptr) ;;
  o ← get_obj obj;
  return_if obj_sslCtx o =? nullptr with (mret nullptr) ;;
  lib SSL_get_certificate [AInt (obj_sslCtx o)].

Definition GetPeerCert (obj : Z) : M Z :=
  return_if obj =? nullptr with (mret nullptr) ;;
  o ← get_obj obj;
  return_if obj_sslCtx o =? nullptr with (mret nullptr) ;;
  lib SSL_get_peer_certificate [AInt (obj_sslCtx o)].

Definition GetCertVersion (cert : Z) : M Z :=
  return_if cert =? nullptr with (mret (-1)) ;;
  version ← lib X509_get_version [AInt cert];
  return_if (version <? INT32_MIN) || (INT32_MAX <? version) with (mret (-1)) ;;
  mret version.

(** The serial number: pointer, its bytes and [*dataLen]. *)
Definition GetCertSerialNumber (cert : Z) : M (option (list ascii) * Z) :=
  return_if cert =? nullptr with (mret (None, 0)) ;;
  result ← lib X509_get0_serialNumber [AInt cert];
  return_if result =? nullptr with (mret (None, 0)) ;;
  data ← lib_asn1 result;
  mret (Some data, wrap32 (Z.of_nat (length data))).

(** The common body of [GetCertStartTime] and [GetCertEndTime]: a fresh [char[24]]
    (with whatever the allocator left in it), its address and cells. *)
Definition copy_time (timeString : Z) : M (option (Z * list ascii)) :=
  return_if timeString =? nullptr with (mret None) ;;
  time ← lib op_new [AInt MAX_DATETIME_LEN];
  return_if time =? nullptr with (mret None) ;;
  cells ← lib_bytes time MAX_DATETIME_LEN;
  data ← lib_asn1 timeString;
  let '(rc, cells) := memcpy_s cells (MAX_DATETIME_LEN - 1) data in
  return_if negb (rc =? EOK) with (_ ← lib op_delete [AInt time]; mret None) ;;
  mret (Some (time, <[Z.to_nat (MAX_DATETIME_LEN - 1) := NUL]> cells)).

Definition GetCertStartTime (cert : Z) : M (option (Z * list ascii)) :=
  return_if cert =? nullptr with (mret None) ;;
  timeString ← lib X509_getm_notBefore [AInt cert];
  copy_time timeString.

Definition GetCertEndTime (cert : Z) : M (option (Z * list ascii)) :=
  return_if cert =? nullptr with (mret None) ;;
  timeString ← lib X509_getm_notAfter [AInt cert];
  copy_time timeString.

(** Only the calls matter: the fields go to the log. *)
Definition LogCertError (obj : Z) : M unit :=
  return_if obj =? nullptr with (mret tt) ;;
  cert ← GetCurrentCert obj;
  _ ← GetCertVersion cert;
  _ ← GetCertSerialNumber cert;
  startTime ← GetCertStartTime cert;
  _ ← match startTime with
      | Some (p, _) => _ ← lib op_delete [AInt p]; mret tt
      | None => mret tt
      end;
  endTime ← GetCertEndTime cert;
  match endTime with
  | Some (p, _) => _ ← lib op_delete [AInt p]; mret tt
  | None => mret tt
  end.

(** *** Handshake and transfer *)

Definition HandleTransPortError (obj errorCode : Z) : M Z :=
  return_if errorCode =? SSL_ERROR_WANT_READ with (mret SCF_SSL_ERR_WANT_READ) ;;
  return_if errorCode =? SSL_ERROR_WANT_WRITE with (mret SCF_SSL_ERR_WANT_WRITE) ;;
  _ ← print_errors;
  certlog ← gets w_certlog;
  _ ← (if certlog : bool then LogCertError obj else mret tt);
  mret SCF_ERRNO_SECURE_TRANSPORT.

Definition FreeSslObj (obj : Z) : M unit :=
  return_if obj =? nullptr with (mret tt) ;;
  o ← get_obj obj;
  return_if obj_sslCtx o =? nullptr with (mret tt) ;;
  _ ← lib SSL_free [AInt (obj_sslCtx o)];
  upd_obj obj (set_obj_sslCtx nullptr).

(** [Connect] and [Accept] differ in the role they require and in the call. *)
Definition handshake (obj role : Z) (fn : LibFn) : M Z :=
  return_if obj =? nullptr with (mret SCF_ERRNO_NULL_INPUT) ;;
  o ← get_obj obj;
  return_if obj_sslCtx o =? nullptr with (mret SCF_ERRNO_NULL_INPUT) ;;
  return_if negb (obj_role o =? role) with (mret SCF_SSL_ERR_ROLE) ;;
  _ ← (if obj_isSetRole o then mret tt else upd_obj obj (set_obj_isSetRole true));
  ret ← lib fn [AInt (obj_sslCtx o)];
  return_if ret =? SSL_SUCCESS with (mret SCF_SUCCESS) ;;
  ret ← lib SSL_get_error [AInt (obj_sslCtx o); AInt ret];
  HandleTransPortError obj ret.

Definition Connect (obj : Z) : M Z := handshake obj SCF_ROLE_CLIENT SSL_connect.
Definition Accept (obj : Z) : M Z := handshake obj SCF_ROLE_SERVER SSL_accept.

(** The code and [*readLen] when it was written; [data] is the caller's pointer. *)
Definition Read (obj data dataLen : Z) : M (Z * option Z) :=
  return_if obj =? nullptr with (mret (SCF_ERRNO_NULL_INPUT, None)) ;;
  o ← get_obj obj;
  return_if obj_sslCtx o =? nullptr with (mret (SCF_ERRNO_NULL_INPUT, None)) ;;
  ret ← lib SSL_read_ex [AInt (obj_sslCtx o); AInt data; AInt dataLen];
  readLenIn ← lib_out;
  return_if negb (ret =? SSL_SUCCESS)
    with (err ← lib SSL_get_error [AInt (obj_sslCtx o); AInt ret];
          return_if err =? SSL_ERROR_WANT_READ
            with (mret (SCF_SSL_ERR_WANT_READ, None)) ;;
          _ ← print_errors;
          mret (SCF_SSL_ERR_READ, None)) ;;
  mret (SCF_SUCCESS, Some (wrap32 readLenIn)).

Definition Write (obj data dataLen : Z) : M (Z * option Z) :=
  return_if obj =? nullptr with (mret (SCF_ERRNO_NULL_INPUT, None)) ;;
  o ← get_obj obj;
  return_if obj_sslCtx o =? nullptr with (mret (SCF_ERRNO_NULL_INPUT, None)) ;;
  ret ← lib SSL_write_ex [AInt (obj_sslCtx o); AInt data; AInt dataLen];
  writeLenIn ← lib_out;
  return_if negb (ret =? SSL_SUCCESS)
    with (err ← lib SSL_get_error [AInt (obj_sslCtx o); AInt ret];
          return_if err =? SSL_ERROR_WANT_WRITE
            with (mret (SCF_SSL_ERR_WANT_WRITE, None)) ;;
          _ ← print_errors;
          mret (SCF_SSL_ERR_WRITE, None)) ;;
  mret (SCF_SUCCESS, Some (wrap32 writeLenIn)).

Definition Close (obj : Z) : M Z :=
  return_if obj =? nullptr with (mret SCF_ERRNO_NULL_INPUT) ;;
  o ← get_obj obj;
  return_if obj_sslCtx o =? nullptr with (mret SCF_ERRNO_NULL_INPUT) ;;
  ret ← lib SSL_shutdown [AInt (obj_sslCtx o)];
  return_if ret <? 0
    with (_ ← lib SSL_get_error [AInt (obj_sslCtx o); AInt ret];
          mret SCF_SSL_ERR_CLOSE) ;;
  mret SCF_SUCCESS.

Definition CheckVersion (obj : Z) : M Z :=
  return_if obj =? nullptr with (mret SSL_ERROR) ;;
  o ← get_obj obj;
  return_if obj_policyCtx o =? nullptr with (mret SSL_ERROR) ;;
  c ← get_ctx (obj_policyCtx o);
  return_if ctx_sslConfig c =? nullptr with (mret SSL_ERROR) ;;
  minVersion ← SSL_CTX_get_min_proto_version (ctx_sslConfig c);
  maxVersion ← SSL_CTX_get_max_proto_version (ctx_sslConfig c);
  return_if (minVersion =? 0) && (maxVersion =? 0) with (mret SSL_SUCCESS) ;;
  options ← lib SSL_CTX_get_options [AInt (ctx_sslConfig c)];
  mret (check_version_loop (Z.to_nat (maxVersion - minVersion + 1)) minVersion options).

(** The answer of [SSL_new] is not checked; [SSL_set_ex_data] follows it. *)
Definition SetFd (obj fd : Z) : M Z :=
  return_if obj =? nullptr with (mret SCF_ERRNO_NULL_INPUT) ;;
  o ← get_obj obj;
  (* the new SSL, or an error *)
  made ← (if obj_sslCtx o =? nullptr then
            version ← CheckVersion obj;
            return_if negb (version =? SSL_SUCCESS)
              with (mret (inl SCF_SSL_ERR_POLICY_VERSION)) ;;
            c ← get_ctx (obj_policyCtx o);
            ssl ← lib SSL_new [AInt (ctx_sslConfig c)];
            st ← lib_deref SSL_set_ex_data ssl [AInt SSL_EX_DATA_ID; AInt obj];
            return_if negb (st =? SSL_SUCCESS)
              with (_ ← lib SSL_free [AInt ssl]; mret (inl SCF_SSL_ERR_SET_EX_DATA)) ;;
            _ ← upd_obj obj (set_obj_sslCtx ssl);
            mret (inr true)
          else mret (inr false));
  match made with
  | inl err => mret err
  | inr hasNewSSL =>
      o ← get_obj obj;
      st ← lib SSL_set_fd [AInt (obj_sslCtx o); AInt fd];
      return_if negb (st =? SSL_SUCCESS)
        with (_ ← (if hasNewSSL : bool then
                     _ ← lib SSL_free [AInt (obj_sslCtx o)];
                     upd_obj obj (set_obj_sslCtx nullptr)
                   else mret tt);
              mret SCF_SSL_ERR_SET_SOCKET_FD) ;;
      _ ← upd_obj obj (set_obj_fd fd);
      mret SCF_SUCCESS
  end.

Definition KeyUpdate (obj updateType : Z) : M Z :=
  return_if obj =? nullptr with (mret SCF_SSL_ERR_KEY_UPDATE) ;;
  o ← get_obj obj;
  return_if obj_sslCtx o =? nullptr with (mret SCF_SSL_ERR_KEY_UPDATE) ;;
  ret ← lib SSL_is_init_finished [AInt (obj_sslCtx o)];
  return_if negb (ret =? SSL_SUCCESS) with (mret SCF_SSL_ERR_IS_INIT_FINISHED) ;;
  let '(ret, opensslUpdateType) := InnerGetOpensslUpdateType updateType in
  return_if negb (ret =? SCF_SUCCESS) with (mret SCF_SSL_ERR_KEY_UPDATE) ;;
  ret ← lib SSL_key_update [AInt (obj_sslCtx o); AInt opensslUpdateType];
  return_if negb (ret =? SSL_SUCCESS)
    with (_ ← print_errors; mret SCF_SSL_ERR_KEY_UPDATE) ;;
  _ ← upd_obj obj (fun o => set_obj_keyUpdateInfo
        (set_kui_isLastUpdateSuccess true
          (set_kui_lastKeyUpdateTime 0
            (set_kui_totalSizeOfWriteData 0 (obj_keyUpdateInfo o)))) o);
  mret SCF_SUCCESS.

(** [const char *]: [None] is [nullptr]. *)
Definition GetVersion (obj : Z) : M (option string) :=
  return_if obj =? nullptr with (mret None) ;;
  o ← get_obj obj;
  return_if obj_sslCtx o =? nullptr with (mret None) ;;
  p ← lib SSL_get_version [AInt (obj_sslCtx o)];
  return_if p =? nullptr with (mret None) ;;
  s ← lib_cstring p;
  mret (Some s).

Definition CipherFind (obj : Z) (cipherId : list ascii) : M Z :=
  return_if obj =? nullptr with (mret nullptr) ;;
  o ← get_obj obj;
  return_if obj_sslCtx o =? nullptr with (mret nullptr) ;;
  lib SSL_CIPHER_find [AInt (obj_sslCtx o); ABytes cipherId].

(** The code and the negotiated id when it was written. *)
Definition NegotiateCipherSuite (obj : Z) : M (Z * option Z) :=
  return_if obj =? nullptr with (mret (SCF_ERRNO_NULL_INPUT, None)) ;;
  o ← get_obj obj;
  return_if obj_sslCtx o =? nullptr with (mret (SCF_ERRNO_NULL_INPUT, None)) ;;
  cipher ← lib SSL_get_current_cipher [AInt (obj_sslCtx o)];
  return_if cipher =? nullptr with (mret (SCF_SSL_ERR_GET_CIPHER, None)) ;;
  id ← lib SSL_CIPHER_get_id [AInt cipher];
  mret (SCF_SUCCESS, Some (wrap16 id)).

Definition FreeCert (cert : Z) : M unit := _ ← lib X509_free [AInt cert]; mret tt.

Definition X509VerifyChain (storeCtx : Z) : M Z :=
  return_if storeCtx =? nullptr with (mret SCF_ERRNO_NULL_INPUT) ;;
  ok ← lib X509_verify_cert [AInt storeCtx];
  return_if negb (ok =? SSL_SUCCESS)
    with (_ ← lib X509_STORE_CTX_get_error [AInt storeCtx];
          _ ← print_errors;
          mret SCF_SSL_ERR_X509_VERIFY_CHAIN) ;;
  mret SCF_SUCCESS.
End adaptor.
