(* ===== verification/OpenSSLCfg.v ===== *)
(** * The OpenSSL adaptor, configuration side

    [src/adaptor/openssl/openssl_adaptor.cpp]: certificates, keys, cipher suites,
    protocol versions, the creation of the [SSL_CTX], PSK callbacks, sessions and
    certificate extensions, as programs over the machine. *)
From Stdlib Require Import ZArith Lia Ascii String.
From stdpp Require Import base list fin_maps gmap strings.
From S2P Require Import Prelude Errno Types FileCheck Machine OpenSSL.
Open Scope Z_scope.

(** ** Cipher-suite names *)

Definition CipherId2CipherStr (cipherId : Z) : option string :=
  if cipherId =? SCF_SSL_ECDHE_ECDSA_WITH_AES_128_GCM_SHA256
  then Some "TLS_ECDHE_ECDSA_WITH_AES_128_GCM_SHA256:"%string
  else if cipherId =? SCF_SSL_ECDHE_ECDSA_WITH_AES_256_GCM_SHA384
  then Some "TLS_ECDHE_ECDSA_WITH_AES_256_GCM_SHA384:"%string
  else if cipherId =? SCF_SSL_ECDHE_RSA_WITH_AES_128_GCM_SHA256
  then Some "TLS_ECDHE_RSA_WITH_AES_128_GCM_SHA256:"%string
  else if cipherId =? SCF_SSL_ECDHE_RSA_WITH_AES_256_GCM_SHA384
  then Some "TLS_ECDHE_RSA_WITH_AES_256_GCM_SHA384:"%string
  else if cipherId =? SCF_SSL_ECDHE_RSA_WITH_CHACHA20_POLY1305_SHA256
  then Some "TLS_ECDHE_RSA_WITH_CHACHA20_POLY1305_SHA256:"%string
  else if cipherId =? SCF_SSL_ECDHE_ECDSA_WITH_CHACHA20_POLY1305_SHA256
  then Some "TLS_ECDHE_ECDSA_WITH_CHACHA20_POLY1305_SHA256:"%string
  else if cipherId =? SCF_SSL_AES_128_GCM_SHA256
  then Some "TLS_AES_128_GCM_SHA256:"%string
  else if cipherId =? SCF_SSL_AES_256_GCM_SHA384
  then Some "TLS_AES_256_GCM_SHA384:"%string
  else if cipherId =? SCF_SSL_CHACHA20_POLY1305_SHA256
  then Some "TLS_CHACHA20_POLY1305_SHA256:"%string
  else if cipherId =? SCF_SSL_AES_128_CCM_SHA256
  then Some "TLS_AES_128_CCM_SHA256:"%string
  else None.

Fixpoint GetCipherSuitesStrLen (cipherSuites : list Z) : Z :=
  match cipherSuites with
  | [] => 0
  | id :: rest =>
      match CipherId2CipherStr id with
      | None => GetCipherSuitesStrLen rest
      | Some s => wrap64 (slen s + GetCipherSuitesStrLen rest)
      end
  end.

(** ** Versions as text *)

Definition ProtocolStrToInt (version : option string) (intVer : Z) : Z * Z :=
  match version with
  | None => (SCF_ERRNO_NULL_INPUT, intVer)
  | Some v =>
      return_if streq v "TLSv1.2" with (SCF_SUCCESS, TLS1_2_VERSION) ;;
      return_if streq v "TLSv1.3" with (SCF_SUCCESS, TLS1_3_VERSION) ;;
      (SCF_ERROR, intVer)
  end.

Definition ProtocolIntToStr (version : Z) (strVer : string) : Z * string :=
  return_if version =? TLS1_2_VERSION with (SCF_SUCCESS, "TLSv1.2"%string) ;;
  return_if version =? TLS1_3_VERSION with (SCF_SUCCESS, "TLSv1.3"%string) ;;
  (SCF_ERROR, strVer).

Section pure_helpers.
Context `{SecureC}.

(** The copy loop of [SetCipherSuites]; the buffer from [offset] on is the tail that
    [memcpy_s] is given. *)
Fixpoint cipher_str_loop (cipherSuites : list Z) (totalLen : Z) (buf : list ascii)
    (offset : Z) : list ascii :=
  match cipherSuites with
  | [] => buf
  | id :: rest =>
      match CipherId2CipherStr id with
      | None => cipher_str_loop rest totalLen buf offset
      | Some s =>
          let o := Z.to_nat offset in
          let '(rc, tail) := memcpy_s (drop o buf) (wrap64 (totalLen - offset)) (bytes s) in
          let buf := take o buf ++ tail in
          return_if negb (rc =? EOK) with (cipher_str_loop rest totalLen buf offset) ;;
          cipher_str_loop rest totalLen buf (wrap64 (offset + slen s))
      end
  end.

(** The PEM password callback: the number of bytes copied and the buffer. *)
Definition DefaultPemPasswordCb (buf : option (list ascii)) (size rwflag : Z)
    (userdata : option string) : Z * option (list ascii) :=
  match buf with
  | None => (0, None)
  | Some b =>
      return_if size =? 0 with (0, buf) ;;
      match userdata with
      | None => (0, Some (memset_s b size NUL size).2)
      | Some pwd =>
          let i := slen pwd in
          let i := if size <? i then size else i in
          let '(rc, b') := memcpy_s b size (take (Z.to_nat i) (bytes pwd)) in
          return_if negb (rc =? EOK) with (0, Some (memset_s b' size NUL size).2) ;;
          (i, Some b')
      end
  end.
End pure_helpers.

Section config.
Context `{Library} `{SecureC} `{FileSystem}.

(** The C string at a byte buffer handed over as a path. *)
Definition path_of (buf : option (list ascii)) : string := buf_cstr (default [] buf).

Definition ErrErrorString : M Z :=
  errorCode ← lib ERR_get_error [];
  lib ERR_error_string [AInt errorCode; AInt nullptr].

(** *** CA certificates *)

Definition AddCaCertByFile (sslCtx : Z) (path : option (list ascii)) (len : Z) : M Z :=
  return_if bool_decide (path = None) || (len =? 0) with (mret SCF_ERRNO_INVALID_PARAM) ;;
  ret ← lib SSL_CTX_load_verify_locations [AInt sslCtx; AStr (path_of path); AInt nullptr];
  mret (if ret =? SSL_SUCCESS then SCF_SUCCESS else SCF_SSL_ERR_ADD_CA_CERT_TO_STORE).

Definition CertBuffer2X509 (cert : option (list ascii)) (len : Z) : M Z :=
  return_if INT32_MAX <? len with (mret nullptr) ;;
  b ← lib BIO_new_mem_buf [ABytes (default [] cert); AInt len];
  return_if b =? nullptr with (mret nullptr) ;;
  x509 ← lib PEM_read_bio_X509 [AInt b];
  _ ← lib BIO_free [AInt b];
  mret x509.

Definition AddCaCertByBuffer (sslCtx : Z) (buf : option (list ascii)) (len : Z) : M Z :=
  certStore ← lib SSL_CTX_get_cert_store [AInt sslCtx];
  return_if certStore =? nullptr with (mret SCF_SSL_ERR_GET_CERT_STORE) ;;
  x509 ← CertBuffer2X509 buf len;
  return_if x509 =? nullptr with (mret SCF_SSL_ERR_PARSE_CERT) ;;
  ret ← lib X509_STORE_add_cert [AInt certStore; AInt x509];
  _ ← lib X509_free [AInt x509];
  mret (if ret =? SSL_SUCCESS then SCF_SUCCESS else SCF_SSL_ERR_ADD_CA_CERT_TO_STORE).

Definition AddCaCert (ctx : Z) (certCtx : SCFFileCtx) : M Z :=
  return_if negb (fc_format certCtx =? SCF_STORE_FORMAT_PEM)
    with (mret SCF_SSL_ERR_FORMAT_TYPE) ;;
  c ← get_ctx ctx;
  return_if fc_storeType certCtx =? SCF_STORE_FILE_PATH
    with (AddCaCertByFile (ctx_sslConfig c) (fc_buf certCtx) (fc_bufLen certCtx)) ;;
  return_if fc_storeType certCtx =? SCF_STORE_BUFFER
    with (AddCaCertByBuffer (ctx_sslConfig c) (fc_buf certCtx) (fc_bufLen certCtx)) ;;
  mret SCF_SSL_ERR_STORE_TYPE.

(** *** Own certificate *)

Definition AddEeCertByFile (sslCtx : Z) (path : option (list ascii)) (pathLen : Z) : M Z :=
  return_if bool_decide (path = None) || (pathLen =? 0)
    with (mret SCF_ERRNO_INVALID_PARAM) ;;
  ret ← lib SSL_CTX_use_certificate_file
          [AInt sslCtx; AStr (path_of path); AInt SSL_FILETYPE_PEM];
  return_if negb (ret =? SSL_SUCCESS)
    with (_ ← ErrErrorString; mret SCF_SSL_ERR_ADD_EE_CERT_TO_STORE) ;;
  mret SCF_SUCCESS.

Definition LoadEeCert (sslCtx b : Z) : M Z :=
  x509 ← lib PEM_read_bio_X509 [AInt b];
  return_if x509 =? nullptr with (mret SCF_SSL_ERR_PARSE_CERT) ;;
  ret ← lib SSL_CTX_use_certificate [AInt sslCtx; AInt x509];
  _ ← lib X509_free [AInt x509];
  return_if negb (ret =? SSL_SUCCESS) with (mret SCF_SSL_ERR_ADD_EE_CERT_TO_STORE) ;;
  mret SCF_SUCCESS.

Definition AddEeCertByBuffer (sslCtx : Z) (buf : option (list ascii)) (len : Z) : M Z :=
  return_if INT32_MAX <? len with (mret SCF_ERRNO_MEM_ALLOC) ;;
  b ← lib BIO_new_mem_buf [ABytes (default [] buf); AInt len];
  return_if b =? nullptr with (mret SCF_ERRNO_MEM_ALLOC) ;;
  ret ← LoadEeCert sslCtx b;
  _ ← lib BIO_free [AInt b];
  mret ret.

Definition AddEeCert (ctx : Z) (certCtx : SCFFileCtx) : M Z :=
  return_if negb (fc_format certCtx =? SCF_STORE_FORMAT_PEM)
    with (mret SCF_SSL_ERR_FORMAT_TYPE) ;;
  c ← get_ctx ctx;
  return_if fc_storeType certCtx =? SCF_STORE_FILE_PATH
    with (AddEeCertByFile (ctx_sslConfig c) (fc_buf certCtx) (fc_bufLen certCtx)) ;;
  return_if fc_storeType certCtx =? SCF_STORE_BUFFER
    with (AddEeCertByBuffer (ctx_sslConfig c) (fc_buf certCtx) (fc_bufLen certCtx)) ;;
  mret SCF_SSL_ERR_STORE_TYPE.

(** *** Revocation lists *)

Definition ReadCrlByFile (path : option (list ascii)) (pathLen : Z) : M Z :=
  return_if bool_decide (path = None) || (pathLen =? 0) with (mret nullptr) ;;
  return_if negb (SCF_CheckFilePathAndStat (path_of path)) with (mret nullptr) ;;
  fp ← lib fopen_r [AStr (path_of path)];
  return_if fp =? nullptr with (mret nullptr) ;;
  crl ← lib PEM_read_X509_CRL [AInt fp];
  _ ← lib fclose_f [AInt fp];
  mret crl.

Definition ReadCrlByBuffer (buf : option (list ascii)) (len : Z) : M Z :=
  return_if bool_decide (buf = None) || (len =? 0) || (INT32_MAX <? len)
    with (mret nullptr) ;;
  bio ← lib BIO_new_mem_buf [ABytes (default [] buf); AInt len];
  return_if bio =? nullptr with (mret nullptr) ;;
  crl ← lib PEM_read_bio_X509_CRL [AInt bio];
  _ ← lib BIO_free [AInt bio];
  mret crl.

Definition AddCrl (ctx : Z) (certCtx : SCFFileCtx) : M Z :=
  return_if negb (fc_format certCtx =? SCF_STORE_FORMAT_PEM)
    with (mret SCF_SSL_ERR_FORMAT_TYPE) ;;
  c ← get_ctx ctx;
  certStore ← lib SSL_CTX_get_cert_store [AInt (ctx_sslConfig c)];
  return_if certStore =? nullptr with (mret SCF_SSL_ERR_GET_CERT_STORE) ;;
  st ← lib X509_STORE_set_flags [AInt certStore; AInt X509_V_FLAG_CRL_CHECK];
  return_if negb (st =? SSL_SUCCESS) with (mret SCF_SSL_ERR_SET_CRL_CHECK_FLAGS) ;;
  return_if negb (fc_storeType certCtx =? SCF_STORE_FILE_PATH)
            && negb (fc_storeType certCtx =? SCF_STORE_BUFFER)
    with (mret SCF_SSL_ERR_STORE_TYPE) ;;
  crl ← (if fc_storeType certCtx =? SCF_STORE_FILE_PATH
         then ReadCrlByFile (fc_buf certCtx) (fc_bufLen certCtx)
         else ReadCrlByBuffer (fc_buf certCtx) (fc_bufLen certCtx));
  ret ← lib X509_STORE_add_crl [AInt certStore; AInt crl];
  _ ← lib X509_CRL_free [AInt crl];
  return_if negb (ret =? SSL_SUCCESS) with (mret SCF_SSL_ERR_LOAD_CRL) ;;
  mret SCF_SUCCESS.

(** *** Certificate chains *)

Definition AddEeChainByFile (sslCtx : Z) (path : option (list ascii)) (pathLen : Z) : M Z :=
  return_if bool_decide (path = None) || (pathLen =? 0)
    with (mret SCF_ERRNO_INVALID_PARAM) ;;
  ret ← lib SSL_CTX_use_certificate_chain_file [AInt sslCtx; AStr (path_of path)];
  return_if negb (ret =? SSL_SUCCESS) with (mret SCF_SSL_ERR_ADD_EE_CHAIN_TO_STORE) ;;
  mret SCF_SUCCESS.

(** The [while] reads until the reader answers null; [fuel] bounds the number of
    certificates read, and running out of it is a fault. *)
Fixpoint LoadCaChain (fuel : nat) (sslCtx b : Z) : M Z :=
  match fuel with
  | O => fault
  | S fuel' =>
      ca ← lib PEM_read_bio_X509 [AInt b];
      return_if ca =? nullptr with (mret SCF_SUCCESS) ;;
      addRet ← SSL_CTX_add_extra_chain_cert sslCtx ca;
      _ ← lib X509_free [AInt ca];
      return_if negb (addRet =? SSL_SUCCESS) with (mret SCF_SSL_ERR_LOAD_CA_CERT_CHAIN) ;;
      LoadCaChain fuel' sslCtx b
  end.

(** A buffer of [len] bytes holds at most [len] certificates: one more read ends the
    loop. *)
Definition AddEeChainByBuffer (sslCtx : Z) (buf : option (list ascii)) (len : Z) : M Z :=
  return_if INT32_MAX <? len with (mret SCF_ERRNO_MEM_ALLOC) ;;
  b ← lib BIO_new_mem_buf [ABytes (default [] buf); AInt len];
  return_if b =? nullptr with (mret SCF_ERRNO_MEM_ALLOC) ;;
  ret ← LoadEeCert sslCtx b;
  ret ← (if ret =? SCF_SUCCESS then LoadCaChain (S (Z.to_nat len)) sslCtx b else mret ret);
  _ ← lib BIO_free [AInt b];
  mret ret.

Definition AddEeChain (ctx : Z) (certCtx : SCFFileCtx) : M Z :=
  return_if negb (fc_format certCtx =? SCF_STORE_FORMAT_PEM)
    with (mret SCF_SSL_ERR_FORMAT_TYPE) ;;
  c ← get_ctx ctx;
  return_if fc_storeType certCtx =? SCF_STORE_FILE_PATH
    with (AddEeChainByFile (ctx_sslConfig c) (fc_buf certCtx) (fc_bufLen certCtx)) ;;
  return_if fc_storeType certCtx =? SCF_STORE_BUFFER
    with (AddEeChainByBuffer (ctx_sslConfig c) (fc_buf certCtx) (fc_bufLen certCtx)) ;;
  mret SCF_SSL_ERR_STORE_TYPE.

Definition AddCert (ctx : Z) (certCtx : SCFFileCtx) (type : Z) : M Z :=
  return_if type =? SCF_CERT_TYPE_CA with (AddCaCert ctx certCtx) ;;
  return_if type =? SCF_CERT_TYPE_EE with (AddEeCert ctx certCtx) ;;
  return_if type =? SCF_CERT_TYPE_CRL with (AddCrl ctx certCtx) ;;
  return_if type =? SCF_CERT_TYPE_EE_CHAIN with (AddEeChain ctx certCtx) ;;
  _ ← print_errors;
  mret SCF_ERRNO_INVALID_PARAM.

(** *** Private key *)

Definition SetKeyByFile (sslCtx : Z) (file : option (list ascii)) (len : Z) : M Z :=
  return_if bool_decide (file = None) || (len =? 0) with (mret SCF_ERRNO_INVALID_PARAM) ;;
  ret ← lib SSL_CTX_use_PrivateKey_file
          [AInt sslCtx; AStr (path_of file); AInt SSL_FILETYPE_PEM];
  return_if negb (ret =? SSL_SUCCESS) with (mret SCF_SSL_ERR_LOAD_KEY) ;;
  mret SCF_SUCCESS.

Definition KeyBuffer2Evp (key : option (list ascii)) (len : Z) : M Z :=
  return_if INT32_MAX <? len with (mret nullptr) ;;
  b ← lib BIO_new_mem_buf [ABytes (default [] key); AInt len];
  return_if b =? nullptr with (mret nullptr) ;;
  evpKey ← lib PEM_read_bio_PrivateKey [AInt b];
  _ ← lib BIO_free [AInt b];
  mret evpKey.

Definition SetKeyByBuffer (sslCtx : Z) (buf : option (list ascii)) (len : Z) : M Z :=
  evpKey ← KeyBuffer2Evp buf len;
  return_if evpKey =? nullptr with (mret SCF_SSL_ERR_LOAD_KEY) ;;
  ret ← lib SSL_CTX_use_PrivateKey [AInt sslCtx; AInt evpKey];
  _ ← lib EVP_PKEY_free [AInt evpKey];
  return_if negb (ret =? SSL_SUCCESS) with (mret SCF_SSL_ERR_LOAD_KEY) ;;
  mret SCF_SUCCESS.

Definition SetKey (ctx : Z) (keyCtx : option SCFFileCtx) : M Z :=
  return_if ctx =? nullptr with (mret SCF_ERRNO_INVALID_PARAM) ;;
  c ← get_ctx ctx;
  match keyCtx with
  | None => mret SCF_ERRNO_INVALID_PARAM
  | Some k =>
      return_if ctx_sslConfig c =? nullptr with (mret SCF_ERRNO_INVALID_PARAM) ;;
      return_if negb (fc_format k =? SCF_STORE_FORMAT_PEM)
        with (mret SCF_SSL_ERR_FORMAT_TYPE) ;;
      _ ← lib SSL_CTX_set_default_passwd_cb
            [AInt (ctx_sslConfig c); AStr "DefaultPemPasswordCb"];
      _ ← lib SSL_CTX_set_default_passwd_cb_userdata
            [AInt (ctx_sslConfig c); ABytes (default [] (fc_passwd k))];
      return_if fc_storeType k =? SCF_STORE_FILE_PATH
        with (SetKeyByFile (ctx_sslConfig c) (fc_buf k) (fc_bufLen k)) ;;
      return_if fc_storeType k =? SCF_STORE_BUFFER
        with (SetKeyByBuffer (ctx_sslConfig c) (fc_buf k) (fc_bufLen k)) ;;
      _ ← print_errors;
      mret SCF_SSL_ERR_STORE_TYPE
  end.

Definition CheckPrivateKey (ctx : Z) : M Z :=
  return_if ctx =? nullptr with (mret SCF_ERRNO_NULL_INPUT) ;;
  c ← get_ctx ctx;
  ret ← lib SSL_CTX_check_private_key [AInt (ctx_sslConfig c)];
  return_if negb (ret =? SSL_SUCCESS)
    with (_ ← print_errors; mret SCF_SSL_ERR_CHECK_PKEY) ;;
  mret SCF_SUCCESS.
End config.

Section tls_config.
Context `{Library} `{SecureC}.

(** *** Cipher suites and versions *)

Definition SetCipherSuites (ctx : Z) (cipherSuites : option (list Z)) : M Z :=
  return_if ctx =? nullptr with (mret SCF_ERRNO_NULL_INPUT) ;;
  match cipherSuites with
  | None => mret SCF_ERRNO_NULL_INPUT
  | Some suites =>
      let totalLen := GetCipherSuitesStrLen suites in
      return_if totalLen =? 0 with (mret SCF_SSL_ERR_SET_CIPHER) ;;
      p ← lib op_new [AInt totalLen];
      return_if p =? nullptr with (mret SCF_ERRNO_MEM_ALLOC) ;;
      cells ← lib_bytes p totalLen;
      let cells := cipher_str_loop suites totalLen cells 0 in
      let cells := <[Z.to_nat (totalLen - 1) := NUL]> cells in
      c ← get_ctx ctx;
      ret ← lib SSL_CTX_set_ciphersuites [AInt (ctx_sslConfig c); AStr (buf_cstr cells)];
      _ ← lib op_delete [AInt p];
      return_if negb (ret =? SSL_SUCCESS) with (mret SCF_SSL_ERR_SET_CIPHER) ;;
      mret SCF_SUCCESS
  end.

(** The forbidden-version mask, or the refusal of an unknown version. *)
Fixpoint forbid_loop (forbidVersion : list Z) (forbidOpt : Z) : option Z :=
  match forbidVersion with
  | [] => Some forbidOpt
  | v :: rest =>
      let '(st, op) := MapVersion2NoOpt v (Some 0) in
      return_if negb (st =? SSL_SUCCESS) with None ;;
      forbid_loop rest (Z.lor forbidOpt (default 0 op))
  end.

Definition SetProtocolVersion (ctx minVersion maxVersion : Z) (forbidVersion : option (list Z))
    : M Z :=
  return_if ctx =? nullptr with (mret SCF_ERRNO_NULL_INPUT) ;;
  c ← get_ctx ctx;
  st ← SSL_CTX_set_min_proto_version (ctx_sslConfig c) minVersion;
  return_if negb (st =? SSL_SUCCESS) with (mret SCF_SSL_ERR_SET_PROTOCOL_VER) ;;
  st ← SSL_CTX_set_max_proto_version (ctx_sslConfig c) maxVersion;
  return_if negb (st =? SSL_SUCCESS) with (mret SCF_SSL_ERR_SET_PROTOCOL_VER) ;;
  match forbidVersion with
  | None | Some [] => mret SCF_SUCCESS
  | Some vs =>
      match forbid_loop vs 0 with
      | None => mret SCF_SSL_ERR_SET_VER_FORBID
      | Some forbidOpt =>
          _ ← (if negb (forbidOpt =? 0)
               then lib SSL_CTX_set_options [AInt (ctx_sslConfig c); AInt forbidOpt]
               else mret 0);
          mret SCF_SUCCESS
      end
  end.

Definition SetAppVerifyCallback (ctx cb arg : Z) : M Z :=
  return_if ctx =? nullptr with (mret SCF_ERRNO_NULL_INPUT) ;;
  c ← get_ctx ctx;
  _ ← lib SSL_CTX_set_cert_verify_callback [AInt (ctx_sslConfig c); AInt cb; AInt arg];
  mret SCF_SUCCESS.

(** The OpenSSL verify mode of a mask other than NONE. *)
Definition verify_bits (verifyMode : Z) : Z :=
  let mode := 0 in
  let mode := if Z.land verifyMode SCF_VERIFY_PEER =? SCF_VERIFY_PEER
              then Z.lor mode SSL_VERIFY_PEER else mode in
  if Z.land verifyMode SCF_VERIFY_FAIL_IF_NO_PEER_CERT =? SCF_VERIFY_FAIL_IF_NO_PEER_CERT
  then Z.lor mode SSL_VERIFY_FAIL_IF_NO_PEER_CERT else mode.

Definition SetVerifyMode (policyCtx verifyMode : Z) : M Z :=
  return_if policyCtx =? nullptr with (mret SCF_ERRNO_INVALID_PARAM) ;;
  c ← get_ctx policyCtx;
  return_if ctx_sslConfig c =? nullptr with (mret SCF_ERRNO_INVALID_PARAM) ;;
  return_if verifyMode =? SCF_VERIFY_MODE_NONE
    with (_ ← lib SSL_CTX_set_verify
                [AInt (ctx_sslConfig c); AInt SSL_VERIFY_NONE; AInt nullptr];
          mret SCF_SUCCESS) ;;
  _ ← lib SSL_CTX_set_verify
        [AInt (ctx_sslConfig c); AInt (verify_bits verifyMode); AInt nullptr];
  mret SCF_SUCCESS.

(** *** Creation of the [SSL_CTX] *)

Definition FreeSsl (ctx : Z) : M unit :=
  return_if ctx =? nullptr with (mret tt) ;;
  c ← get_ctx ctx;
  return_if ctx_sslConfig c =? nullptr with (mret tt) ;;
  _ ← lib SSL_CTX_free [AInt (ctx_sslConfig c)];
  upd_ctx ctx (set_ctx_sslConfig nullptr).

Definition CalGetSslMethod (role : Z) : M Z :=
  return_if role =? SCF_ROLE_SERVER with (lib TLS_server_method []) ;;
  return_if role =? SCF_ROLE_CLIENT with (lib TLS_client_method []) ;;
  mret nullptr.

(** The provider path of [InitSsl] and [InitSslCustomer], with its fallback; [logged]: the
    log line of [InitSsl] that asks the engine about itself. *)
Definition new_ssl_ctx (logged : bool) (method : Z) : M Z :=
  engine ← gets w_cryptoEngine;
  sslCtxConfig ←
    (return_if engine =? nullptr with (mret nullptr) ;;
     providerCtx ← lib engine_GetProviderContext [AInt engine];
     return_if providerCtx =? nullptr with (mret nullptr) ;;
     loaded ← lib SSL_CTX_new_ex_Get [];
     return_if loaded =? 0 with (mret nullptr) ;;
     sslCtxConfig ← lib SSL_CTX_new_ex [AInt providerCtx; AInt nullptr; AInt method];
     _ ← (if logged && negb (sslCtxConfig =? nullptr) then log_engine engine else mret tt);
     mret sslCtxConfig);
  return_if sslCtxConfig =? nullptr with (lib SSL_CTX_new [AInt method]) ;;
  mret sslCtxConfig.

(** Session resumption off; [false]: OpenSSL did not take the setting. *)
Definition disable_session_cache (sslCtxConfig : Z) : M bool :=
  _ ← SSL_CTX_set_session_cache_mode sslCtxConfig SSL_SESS_CACHE_OFF;
  m ← SSL_CTX_get_session_cache_mode sslCtxConfig;
  mret (m =? SSL_SESS_CACHE_OFF).

Definition InitSsl (ctx minVersion maxVersion : Z) (forbidVersion : option (list Z)) : M Z :=
  c ← get_ctx ctx;
  method ← CalGetSslMethod (ctx_role c);
  return_if method =? nullptr with (mret SCF_SSL_ERR_ROLE) ;;
  sslCtxConfig ← new_ssl_ctx true method;
  return_if sslCtxConfig =? nullptr with (mret SCF_ERRNO_MEM_ALLOC) ;;
  _ ← lib SSL_CTX_set_security_level [AInt sslCtxConfig; AInt SSL_SECURITY_LEVEL_TWO];
  off ← disable_session_cache sslCtxConfig;
  return_if negb off
    with (_ ← lib SSL_CTX_free [AInt sslCtxConfig]; mret SCF_SSL_ERR_SET_SESS_TICKET) ;;
  _ ← FreeSsl ctx;
  _ ← upd_ctx ctx (set_ctx_sslConfig sslCtxConfig);
  ret ← SetProtocolVersion ctx minVersion maxVersion forbidVersion;
  return_if negb (ret =? SCF_SUCCESS) with (_ ← FreeSsl ctx; mret ret) ;;
  c ← get_ctx ctx;
  _ ← lib SSL_CTX_set_options [AInt (ctx_sslConfig c); AInt SSL_OP_NO_RENEGOTIATION];
  mret ret.

Definition InitSslCustomer (ctx : Z) : M Z :=
  c ← get_ctx ctx;
  method ← CalGetSslMethod (ctx_role c);
  return_if method =? nullptr with (mret SCF_SSL_ERR_ROLE) ;;
  sslCtxConfig ← new_ssl_ctx false method;
  return_if sslCtxConfig =? nullptr with (mret SCF_ERRNO_MEM_ALLOC) ;;
  off ← disable_session_cache sslCtxConfig;
  return_if negb off
    with (_ ← lib SSL_CTX_free [AInt sslCtxConfig]; mret SCF_SSL_ERR_SET_SESS_TICKET) ;;
  _ ← lib SSL_CTX_set_options [AInt sslCtxConfig; AInt SSL_OP_NO_RENEGOTIATION];
  _ ← FreeSsl ctx;
  _ ← upd_ctx ctx (set_ctx_sslConfig sslCtxConfig);
  mret SCF_SUCCESS.

Definition InitPolicyByMode (ctx : Z) : M Z :=
  c ← get_ctx ctx;
  ret ← (if ctx_policyMode c =? SCF_POLICY_HIGH
         then InitSsl ctx SCF_SSL_VERSION_TLS13 SCF_SSL_VERSION_TLS13 None
         else if ctx_policyMode c =? SCF_POLICY_MIDDLE
         then InitSsl ctx SCF_SSL_VERSION_TLS12 SCF_SSL_VERSION_TLS13 None
         else InitSslCustomer ctx);
  _ ← (if negb (ret =? SCF_SUCCESS) then print_errors else mret tt);
  mret ret.

(** [groups] joined by colons. *)
Fixpoint join_groups (groups : list string) : string :=
  match groups with
  | [] => EmptyString
  | [g] => g
  | g :: rest => (g ++ ":" ++ join_groups rest)%string
  end.

(** A refused group list is only logged. *)
Definition SetKeyExchangeGroups (ctx : Z) (groups : list string) : M Z :=
  return_if ctx =? nullptr with (mret SCF_ERRNO_NULL_INPUT) ;;
  c ← get_ctx ctx;
  return_if ctx_sslConfig c =? nullptr with (mret SCF_ERRNO_NULL_INPUT) ;;
  return_if bool_decide (groups = []) with (mret SCF_SUCCESS) ;;
  _ ← lib SSL_CTX_ctrl [AInt (ctx_sslConfig c); AInt SSL_CTRL_SET_GROUPS_LIST; AInt 0;
                        AStr (join_groups groups)];
  mret SCF_SUCCESS.

(** The code, the array [data] and [*cipherSuitesSize]. *)
Fixpoint get_ciphers_loop (n : nat) (i : nat) (stack : Z) (data : list Z) : M (list Z) :=
  match n with
  | O => mret data
  | S n' =>
      cipher ← lib OPENSSL_sk_value [AInt stack; AInt (Z.of_nat i)];
      id ← lib SSL_CIPHER_get_id [AInt cipher];
      get_ciphers_loop n' (S i) stack (<[i := wrap16 id]> data)
  end.

Definition GetCipherSuites (ctx : Z) (data : list Z) (dataLen : Z) : M (Z * list Z * Z) :=
  c ← get_ctx ctx;
  ciphersStack ← lib SSL_CTX_get_ciphers [AInt (ctx_sslConfig c)];
  cipherLen ← (if ciphersStack =? nullptr then mret 0
               else lib OPENSSL_sk_num [AInt ciphersStack]);
  return_if (cipherLen <=? 0) || (dataLen <? wrap32 cipherLen)
    with (mret (SCF_SSL_ERR_GET_CIPHER, data, 0)) ;;
  data ← get_ciphers_loop (Z.to_nat cipherLen) 0 ciphersStack data;
  mret (SCF_SUCCESS, data, wrap32 cipherLen).

(** *** Pre-shared keys *)

(** [sess] is the out-pointer OpenSSL passes ([None] when null) with its contents. *)
Definition PskFindSessionCbWrapper (ssl : Z) (id : list ascii) (idLen : Z) (sess : option Z)
    : M (Z * option Z) :=
  obj ← lib SSL_get_ex_data [AInt ssl; AInt SSL_EX_DATA_ID];
  return_if obj =? nullptr with (mret (SSL_ERROR, sess)) ;;
  o ← get_obj obj;
  return_if obj_pskFindSessionCb o =? nullptr with (mret (SSL_ERROR, sess)) ;;
  ret ← lib cb_pskFindSession
          [AInt (obj_pskFindSessionCb o); AInt obj; ABytes id; AInt (wrap32 idLen)];
  found ← lib_out;
  let sess := match sess with None => None | Some _ => Some found end in
  return_if negb (ret =? SCF_SUCCESS) with (mret (SSL_ERROR, sess)) ;;
  rejected ← match sess with
             | Some s =>
                 return_if s =? nullptr with (mret false) ;;
                 cipher ← lib SSL_SESSION_get0_cipher [AInt s];
                 return_if negb (cipher =? nullptr) with (mret false) ;;
                 _ ← lib SSL_SESSION_free [AInt s];
                 mret true
             | None => mret false
             end;
  return_if (rejected : bool) with (mret (SSL_ERROR, Some nullptr)) ;;
  _ ← lib SSL_set_verify [AInt ssl; AInt SSL_VERIFY_NONE; AInt nullptr];
  mret (SSL_SUCCESS, sess).

Definition GetHashAlgo (md : Z) : M Z :=
  sha256 ← lib EVP_sha256 [];
  return_if md =? sha256 with (mret SCF_CRYPT_MD_SHA256) ;;
  sha384 ← lib EVP_sha384 [];
  return_if md =? sha384 with (mret SCF_CRYPT_MD_SHA384) ;;
  mret SCF_CRYPT_MD_UNKNOWN.

(** The code and [*idLen]; [id] and [sess] are passed through to the callback. *)
Definition PskUseSessionCbWrapper (ssl md idLen : Z) : M (Z * Z) :=
  obj ← lib SSL_get_ex_data [AInt ssl; AInt SSL_EX_DATA_ID];
  return_if obj =? nullptr with (mret (SSL_ERROR, idLen)) ;;
  o ← get_obj obj;
  return_if obj_pskUseSessionCb o =? nullptr with (mret (SSL_ERROR, idLen)) ;;
  algo ← GetHashAlgo md;
  ret ← lib cb_pskUseSession [AInt (obj_pskUseSessionCb o); AInt obj; AInt algo];
  idLenIn ← lib_out;
  return_if negb (ret =? SCF_SUCCESS) with (mret (SSL_ERROR, idLen)) ;;
  mret (SSL_SUCCESS, wrap32 idLenIn).

Definition SetPskFindSessionCallback (ctx cb : Z) : M Z :=
  return_if ctx =? nullptr with (mret SCF_ERRNO_INVALID_PARAM) ;;
  c ← get_ctx ctx;
  return_if ctx_sslConfig c =? nullptr with (mret SCF_ERRNO_INVALID_PARAM) ;;
  _ ← upd_ctx ctx (set_ctx_pskFindSessionCb cb);
  _ ← lib SSL_CTX_set_psk_find_session_callback
        [AInt (ctx_sslConfig c);
         if cb =? nullptr then AInt nullptr else AStr "PskFindSessionCbWrapper"];
  mret SCF_SUCCESS.

Definition SetPskUseSessionCallback (ctx cb : Z) : M Z :=
  return_if ctx =? nullptr with (mret SCF_ERRNO_INVALID_PARAM) ;;
  c ← get_ctx ctx;
  return_if ctx_sslConfig c =? nullptr with (mret SCF_ERRNO_INVALID_PARAM) ;;
  _ ← upd_ctx ctx (set_ctx_pskUseSessionCb cb);
  _ ← lib SSL_CTX_set_psk_use_session_callback
        [AInt (ctx_sslConfig c);
         if cb =? nullptr then AInt nullptr else AStr "PskUseSessionCbWrapper"];
  mret SCF_SUCCESS.

Definition SessionNew : M Z := lib SSL_SESSION_new [].
Definition SessionFree (sess : Z) : M unit := _ ← lib SSL_SESSION_free [AInt sess]; mret tt.

Definition SessionSetMasterKey (sess : Z) (masterKey : list ascii) : M Z :=
  st ← lib SSL_SESSION_set1_master_key
         [AInt sess; ABytes masterKey; AInt (Z.of_nat (length masterKey))];
  mret (if st =? SSL_SUCCESS then SCF_SUCCESS else SCF_SSL_ERR_SESS_SET_KEY).

Definition SessionSetCipher (sess cipherSuite cipherLen : Z) : M Z :=
  st ← lib SSL_SESSION_set_cipher [AInt sess; AInt cipherSuite];
  mret (if st =? SSL_SUCCESS then SCF_SUCCESS else SCF_SSL_ERR_SESS_SET_CIPHER).

(** The code, [*cipherSuite] ([None] when the out-pointer is null) and [cipherLen]. *)
Definition SessionGetCipher (sess : Z) (cipherSuite : option Z) : M (Z * option Z * Z) :=
  match cipherSuite with
  | None => mret (SCF_ERRNO_NULL_INPUT, None, 0)
  | Some _ =>
      cipher ← lib SSL_SESSION_get0_cipher [AInt sess];
      return_if cipher =? nullptr with (mret (SCF_SSL_ERR_SESS_GET_CIPHER, Some cipher, 0)) ;;
      mret (SCF_SUCCESS, Some cipher, 1)
  end.

Definition SessionFreeCipher (cipherSuite : option Z) (cipherLen : Z) : option Z * Z :=
  (match cipherSuite with Some _ => Some nullptr | None => None end, 0).

Definition SessionSetProtocolVersion (sess : Z) (version : option string) : M Z :=
  return_if (sess =? nullptr) || bool_decide (version = None)
    with (mret SCF_ERRNO_NULL_INPUT) ;;
  let '(st, sslVersion) := ProtocolStrToInt version 0 in
  return_if negb (st =? SCF_SUCCESS) with (mret SCF_SSL_ERR_VERSION) ;;
  st ← lib SSL_SESSION_set_protocol_version [AInt sess; AInt sslVersion];
  return_if negb (st =? SSL_SUCCESS) with (mret SCF_SSL_ERR_SESS_SET_PROTOCOL_VER) ;;
  mret SCF_SUCCESS.

(** The code, the new buffer (address and cells) and [versionLen]. *)
Definition SessionGetProtocolVersion (sess : Z) : M (Z * option (Z * list ascii) * Z) :=
  intVer ← lib SSL_SESSION_get_protocol_version [AInt sess];
  let '(st, versionStr) := ProtocolIntToStr intVer EmptyString in
  return_if negb (st =? SCF_SUCCESS) with (mret (SCF_SSL_ERR_SESS_GET_PROTOCOL_VER, None, 0)) ;;
  let versionLen := slen versionStr in
  vers ← lib op_new [AInt (versionLen + 1)];
  return_if vers =? nullptr with (mret (SCF_SSL_ERR_SESS_GET_PROTOCOL_VER, None, 0)) ;;
  cells ← lib_bytes vers (versionLen + 1);
  let '(rc, cells) := memcpy_s cells (versionLen + 1) (bytes versionStr) in
  return_if negb (rc =? EOK)
    with (_ ← lib op_delete [AInt vers];
          mret (SCF_SSL_ERR_SESS_GET_PROTOCOL_VER, None, 0)) ;;
  mret (SCF_SUCCESS, Some (vers, <[String.length versionStr := NUL]> cells), versionLen).

(** The buffer behind [*buffer] as it is when it is released, the pointer and the length
    afterwards. *)
Definition FreeBuffer (buffer : option (list ascii)) (bufferLen : Z)
    : option (list ascii) * option (list ascii) * Z :=
  match buffer with
  | None => (None, None, bufferLen)
  | Some b =>
      return_if bufferLen =? 0 with (None, buffer, bufferLen) ;;
      (Some (memset_s b bufferLen NUL bufferLen).2, None, 0)
  end.

(** *** Certificate extensions *)

Definition FreeAsn1Utf8String (data : Z) : M unit :=
  _ ← lib ASN1_UTF8STRING_free [AInt data]; mret tt.
Definition FreeOpenSslBuffer (data : Z) : M unit :=
  _ ← lib CRYPTO_free [AInt data; AInt nullptr; AInt 0]; mret tt.

(** The destructor of a [unique_ptr]. *)
Definition reset (p : Z) (deleter : Z -> M unit) : M unit :=
  if p =? nullptr then mret tt else deleter p.

Definition IsCanonicalDerUtf8String (utf8String : Z) (encoded : list ascii) (encodedLen : Z)
    : M bool :=
  canonicalLen ← lib i2d_ASN1_UTF8STRING [AInt utf8String];
  canonicalData ← lib_out;
  canonical ← lib_bytes canonicalData encodedLen;
  let same := (canonicalLen =? encodedLen) && negb (canonicalData =? nullptr)
              && bool_decide (canonical = encoded) in
  _ ← reset canonicalData FreeOpenSslBuffer;
  mret same.

Definition DecodeDerUtf8String (encodedPtr : Z) (encoded : list ascii) (encodedLen : Z)
    (value : string) : M (Z * string) :=
  utf8String ← lib d2i_ASN1_UTF8STRING [AInt nullptr; ABytes encoded; AInt encodedLen];
  cursor ← lib_out;
  return_if (utf8String =? nullptr) || negb (cursor =? encodedPtr + encodedLen)
    with (_ ← reset utf8String FreeAsn1Utf8String; mret (SCF_SSL_ERR_PARSE_CERT, value)) ;;
  canonical ← IsCanonicalDerUtf8String utf8String encoded encodedLen;
  return_if negb canonical
    with (_ ← reset utf8String FreeAsn1Utf8String; mret (SCF_SSL_ERR_PARSE_CERT, value)) ;;
  utf8Len ← lib ASN1_STRING_to_UTF8 [AInt utf8String];
  utf8Data ← lib_out;
  content ← lib_bytes utf8Data utf8Len;
  let bad := (utf8Len <? 0) || ((0 <? utf8Len) && (utf8Data =? nullptr)) in
  let result :=
    if bad then (SCF_SSL_ERR_PARSE_CERT, value)
    else (SCF_SUCCESS, if 0 <? utf8Len then string_of_list_ascii content else value) in
  _ ← reset utf8Data FreeOpenSslBuffer;
  _ ← reset utf8String FreeAsn1Utf8String;
  mret result.

Definition GetCertExtensionByOid (cert : Z) (oid : option string) : M (Z * string) :=
  let value := EmptyString in
  match oid with
  | None => mret (SCF_ERRNO_NULL_INPUT, value)
  | Some oid =>
      return_if cert =? nullptr with (mret (SCF_ERRNO_NULL_INPUT, value)) ;;
      object ← lib OBJ_txt2obj [AStr oid; AInt 1];
      return_if object =? nullptr with (mret (SCF_SSL_ERR_PARSE_CERT, value)) ;;
      index ← lib X509_get_ext_by_OBJ [AInt cert; AInt object; AInt (-1)];
      return_if index <? 0
        with (_ ← lib ASN1_OBJECT_free [AInt object];
              mret (SCF_SSL_ERR_CERT_EXT_ABSENT, value)) ;;
      duplicateIndex ← lib X509_get_ext_by_OBJ [AInt cert; AInt object; AInt index];
      return_if 0 <=? duplicateIndex
        with (_ ← lib ASN1_OBJECT_free [AInt object];
              mret (SCF_SSL_ERR_PARSE_CERT, value)) ;;
      _ ← lib ASN1_OBJECT_free [AInt object];
      extension ← lib X509_get_ext [AInt cert; AInt index];
      return_if extension =? nullptr with (mret (SCF_SSL_ERR_PARSE_CERT, value)) ;;
      data ← lib X509_EXTENSION_get_data [AInt extension];
      return_if data =? nullptr with (mret (SCF_SSL_ERR_PARSE_CERT, value)) ;;
      dataLen ← lib ASN1_STRING_length [AInt data];
      dataPtr ← lib ASN1_STRING_get0_data [AInt data];
      return_if (dataPtr =? nullptr) || (dataLen <=? 0)
        with (mret (SCF_SSL_ERR_PARSE_CERT, value)) ;;
      encoded ← lib_bytes dataPtr dataLen;
      DecodeDerUtf8String dataPtr encoded dataLen value
  end.
End tls_config.
