(* ===== verification/Adaptor.v ===== *)
(** * The TLS adaptor interface

    [src/adaptor/base/abstract_tls_adaptor.h] as a type class, the framing contract the
    policy layer relies on, and the OpenSSL adaptor as an instance of both. The contract:
    on live handles a method does not touch freed memory, and changes nothing of a
    context or object but its TLS fields. *)
From Stdlib Require Import ZArith Lia Ascii String.
From stdpp Require Import base list fin_maps gmap strings.
From S2P Require Import Prelude Errno Types FileCheck Machine OpenSSL OpenSSLCfg.
Open Scope Z_scope.

(** [AbstractTLSAdaptor]: one field per pure virtual method of the policy layer's use. *)
Class TlsAdaptor : Type := {
  a_Init : Z -> option string -> M Z;
  a_DeInit : M unit;
  a_FreeSslObj : Z -> M unit;
  a_Connect : Z -> M Z;
  a_Accept : Z -> M Z;
  a_Read : Z -> Z -> Z -> M (Z * option Z);
  a_Write : Z -> Z -> Z -> M (Z * option Z);
  a_Close : Z -> M Z;
  a_SetFd : Z -> Z -> M Z;
  a_KeyUpdate : Z -> Z -> M Z;
  a_GetVersion : Z -> M (option string);
  a_GetPeerCert : Z -> M Z;
  a_GetCurrentCert : Z -> M Z;
  a_CipherFind : Z -> list ascii -> M Z;
  a_FreeSsl : Z -> M unit;
  a_AddCert : Z -> SCFFileCtx -> Z -> M Z;
  a_SetKey : Z -> option SCFFileCtx -> M Z;
  a_SetCipherSuites : Z -> option (list Z) -> M Z;
  a_SetProtocolVersion : Z -> Z -> Z -> option (list Z) -> M Z;
  a_SetAppVerifyCallback : Z -> Z -> Z -> M Z;
  a_CheckPrivateKey : Z -> M Z;
  a_SetVerifyMode : Z -> Z -> M Z;
  a_InitPolicyByMode : Z -> M Z;
  a_SetPskFindSessionCallback : Z -> Z -> M Z;
  a_SetPskUseSessionCallback : Z -> Z -> M Z;
  a_SessionNew : M Z;
  a_SessionSetMasterKey : Z -> list ascii -> M Z;
  a_SessionSetCipher : Z -> Z -> Z -> M Z;
  a_SessionGetCipher : Z -> option Z -> M (Z * option Z * Z);
  a_SessionFreeCipher : option Z -> Z -> option Z * Z;
  a_FreeBuffer : option (list ascii) -> Z -> option (list ascii) * option (list ascii) * Z;
  a_SessionSetProtocolVersion : Z -> option string -> M Z;
  a_SessionGetProtocolVersion : Z -> M (Z * option (Z * list ascii) * Z);
  a_SessionFree : Z -> M unit;
  a_GetCertVersion : Z -> M Z;
  a_GetCertStartTime : Z -> M (option (Z * list ascii));
  a_GetCertEndTime : Z -> M (option (Z * list ascii));
  a_GetCertSerialNumber : Z -> M (option (list ascii) * Z);
  a_GetCertExtensionByOid : Z -> option string -> M (Z * string);
  a_GetCipherSuites : Z -> list Z -> Z -> M (Z * list Z * Z);
  a_FreeCert : Z -> M unit;
  a_SetKeyExchangeGroups : Z -> list string -> M Z;
  a_SetCryptoEngine : Z -> M unit
}.

#[export] Instance OpenSSLAdaptor `{Library} `{SecureC} `{FileSystem} : TlsAdaptor := {|
  a_Init := Init; a_DeInit := DeInit; a_FreeSslObj := FreeSslObj;
  a_Connect := Connect; a_Accept := Accept; a_Read := Read; a_Write := Write;
  a_Close := Close; a_SetFd := SetFd; a_KeyUpdate := KeyUpdate; a_GetVersion := GetVersion;
  a_GetPeerCert := GetPeerCert; a_GetCurrentCert := GetCurrentCert;
  a_CipherFind := CipherFind; a_FreeSsl := FreeSsl; a_AddCert := AddCert; a_SetKey := SetKey;
  a_SetCipherSuites := SetCipherSuites; a_SetProtocolVersion := SetProtocolVersion;
  a_SetAppVerifyCallback := SetAppVerifyCallback; a_CheckPrivateKey := CheckPrivateKey;
  a_SetVerifyMode := SetVerifyMode; a_InitPolicyByMode := InitPolicyByMode;
  a_SetPskFindSessionCallback := SetPskFindSessionCallback;
  a_SetPskUseSessionCallback := SetPskUseSessionCallback;
  a_SessionNew := SessionNew; a_SessionSetMasterKey := SessionSetMasterKey;
  a_SessionSetCipher := SessionSetCipher; a_SessionGetCipher := SessionGetCipher;
  a_SessionFreeCipher := SessionFreeCipher; a_FreeBuffer := FreeBuffer;
  a_SessionSetProtocolVersion := SessionSetProtocolVersion;
  a_SessionGetProtocolVersion := SessionGetProtocolVersion; a_SessionFree := SessionFree;
  a_GetCertVersion := GetCertVersion; a_GetCertStartTime := GetCertStartTime;
  a_GetCertEndTime := GetCertEndTime; a_GetCertSerialNumber := GetCertSerialNumber;
  a_GetCertExtensionByOid := GetCertExtensionByOid; a_GetCipherSuites := GetCipherSuites;
  a_FreeCert := FreeCert; a_SetKeyExchangeGroups := SetKeyExchangeGroups;
  a_SetCryptoEngine := SetCryptoEngine
|}.

(** ** Framing

    What a step may change, up to an erasure of contexts and objects. *)
Section frame_def.
Context {X Y : Type} (ec : SCFPolicyCtx -> X) (eo : SCFPolicyObj -> Y).

Record frame (w w' : World) : Prop := {
  wf_ctxs : ec <$> w_ctxs w' = ec <$> w_ctxs w;
  wf_objs : eo <$> w_objs w' = eo <$> w_objs w;
  wf_next : w_next w' = w_next w;
  wf_init : w_scfInitialized w' = w_scfInitialized w;
  wf_tls : w_isTlsInit w' = w_isTlsInit w;
  wf_adaptor : w_adaptor w' = w_adaptor w
}.

#[export] Instance frame_preorder : PreOrder frame.
Proof.
  split; [by split|]. intros w1 w2 w3 [??????] [??????]. split; congruence.
Qed.

#[export] Instance frame_symmetric : Symmetric frame.
Proof. intros w1 w2 []. split; congruence. Qed.

Lemma frame_log w l : frame w (set_log l w).
Proof. by split. Qed.

Lemma frame_set_ctx w p c c' :
  w_ctxs w !! p = Some c -> ec c' = ec c -> frame w (set_ctxs (<[p := c']> (w_ctxs w)) w).
Proof.
  intros Hl Hc. split; try done. simpl. rewrite fmap_insert, Hc.
  apply insert_id. by rewrite lookup_fmap, Hl.
Qed.

Lemma frame_set_obj w p o o' :
  w_objs w !! p = Some o -> eo o' = eo o -> frame w (set_objs (<[p := o']> (w_objs w)) w).
Proof.
  intros Hl Hc. split; try done. simpl. rewrite fmap_insert, Hc.
  apply insert_id. by rewrite lookup_fmap, Hl.
Qed.

Lemma frame_ctx w w' p c :
  frame w w' -> w_ctxs w !! p = Some c -> exists c', w_ctxs w' !! p = Some c' /\ ec c' = ec c.
Proof.
  intros [Hc _ _ _ _ _] Hl. apply (f_equal (lookup p)) in Hc.
  rewrite !lookup_fmap, Hl in Hc. destruct (w_ctxs w' !! p) as [c'|]; [|done].
  apply Some_inj in Hc. by exists c'.
Qed.

Lemma frame_obj w w' p o :
  frame w w' -> w_objs w !! p = Some o -> exists o', w_objs w' !! p = Some o' /\ eo o' = eo o.
Proof.
  intros [_ Ho _ _ _ _] Hl. apply (f_equal (lookup p)) in Ho.
  rewrite !lookup_fmap, Hl in Ho. destruct (w_objs w' !! p) as [o'|]; [|done].
  apply Some_inj in Ho. by exists o'.
Qed.
End frame_def.

(** The fields of a context or object that an adaptor may not change. *)
Definition ctx_core (c : SCFPolicyCtx) : SCFPolicyCtx :=
  set_ctx_sslConfig 0 (set_ctx_pskFindSessionCb 0 (set_ctx_pskUseSessionCb 0 c)).
Definition obj_core (o : SCFPolicyObj) : SCFPolicyObj :=
  set_obj_sslCtx 0 (set_obj_isSetRole false (set_obj_fd 0
    (set_obj_keyUpdateInfo (mkKeyUpdateInfo 0 0 0 0 0 false) o))).

(** What a context says about the policy, with its reference count. *)
Definition policy_of (c : SCFPolicyCtx) : Z * Z * Z * Z :=
  (ctx_refCnt c, ctx_role c, ctx_verifyMode c, ctx_policyMode c).

(** The adaptor's frame, and two coarser ones: of the calls that neither create nor free nor
    set the policy, and of those that neither create nor free (reference counts and the
    context of each object). *)
Definition world_frame : World -> World -> Prop := frame ctx_core obj_core.
Definition policy_frame : World -> World -> Prop := frame policy_of obj_policyCtx.
Definition life_frame : World -> World -> Prop := frame ctx_refCnt obj_policyCtx.

Lemma fmap_factor {K A B C} `{Countable K} (f : A -> B) (g : B -> C) (h : A -> C)
    (m m' : gmap K A) :
  (forall a, h a = g (f a)) -> f <$> m' = f <$> m -> h <$> m' = h <$> m.
Proof.
  intros Hh Hf. apply (f_equal (fmap g)) in Hf. rewrite <- !map_fmap_compose in Hf.
  etransitivity; [|etransitivity; [exact Hf|]]; apply map_fmap_ext; intros; simpl; congruence.
Qed.

Lemma world_policy w w' : world_frame w w' -> policy_frame w w'.
Proof.
  intros [Hc Ho ????]. split; try done.
  - by apply (fmap_factor ctx_core policy_of).
  - by apply (fmap_factor obj_core obj_policyCtx).
Qed.

Lemma policy_life w w' : policy_frame w w' -> life_frame w w'.
Proof.
  intros [Hc Ho ????]. split; try done.
  by apply (fmap_factor policy_of (fun t => t.1.1.1)).
Qed.

Lemma world_life w w' : world_frame w w' -> life_frame w w'.
Proof. intros Hf. by apply policy_life, world_policy. Qed.

Class FrameRel (R : World -> World -> Prop) : Prop := {
  fr_preorder : PreOrder R;
  fr_life : forall w w', R w w' -> life_frame w w';
  fr_log : forall w l, R w (set_log l w)
}.
#[export] Existing Instance fr_preorder.

#[export] Instance world_frame_rel : FrameRel world_frame.
Proof. split; [apply _|apply world_life|apply frame_log]. Qed.
#[export] Instance policy_frame_rel : FrameRel policy_frame.
Proof. split; [apply _|apply policy_life|apply frame_log]. Qed.
#[export] Instance life_frame_rel : FrameRel life_frame.
Proof. split; [apply _|done|apply frame_log]. Qed.

Definition live_ctx (p : Z) (w : World) : Prop := is_Some (w_ctxs w !! p).

(** A live object whose context is live. *)
Definition live_obj (p : Z) (w : World) : Prop :=
  exists o, w_objs w !! p = Some o /\ live_ctx (obj_policyCtx o) w.

(** A live object, whatever became of its context. *)
Definition obj_there (p : Z) (w : World) : Prop := is_Some (w_objs w !! p).

Lemma live_obj_there p w : live_obj p w -> obj_there p w.
Proof. intros (o & Ho & _). by exists o. Qed.
#[export] Hint Resolve live_obj_there : core.

(** A property of the state that framing steps keep. *)
Class Stable (P : World -> Prop) : Prop := stable : forall w w', life_frame w w' -> P w -> P w'.

#[export] Instance stable_true : Stable (fun _ => True).
Proof. done. Qed.
#[export] Instance stable_live_ctx p : Stable (live_ctx p).
Proof. intros w w' Hf [c Hc]. destruct (frame_ctx _ _ _ _ _ _ Hf Hc) as (c' & ? & _). by eexists. Qed.
#[export] Instance stable_live_obj p : Stable (live_obj p).
Proof.
  intros w w' Hf (o & Ho & Hc). destruct (frame_obj _ _ _ _ _ _ Hf Ho) as (o' & Ho' & Hp).
  exists o'. split; [done|]. rewrite Hp. by apply (stable_live_ctx _ _ _ Hf).
Qed.
#[export] Instance stable_obj_there p : Stable (obj_there p).
Proof. intros w w' Hf [o Ho]. destruct (frame_obj _ _ _ _ _ _ Hf Ho) as (o' & ? & _). by eexists. Qed.
#[export] Instance stable_and P Q : Stable P -> Stable Q -> Stable (fun w => P w /\ Q w).
Proof. intros HP HQ w w' Hf [? ?]. split; [by apply (HP w)|by apply (HQ w)]. Qed.

(** A program that, from [P], does not fault and moves within [R]. *)
Definition safe {A} (R : World -> World -> Prop) (P : World -> Prop) (m : M A) : Prop :=
  forall w, P w -> wp m (fun _ w' => R w w') w.

Section safe_rules.
Context `{Library} {R : World -> World -> Prop} `{!FrameRel R}.
Implicit Types (P Q : World -> Prop).

Lemma safe_ret {A} P (a : A) : safe R P (mret a).
Proof. intros w _. by apply wp_ret. Qed.

Lemma safe_gets {A} P (f : World -> A) : safe R P (gets f).
Proof. intros w _. by apply wp_gets. Qed.

Lemma safe_lib P f args : safe R P (lib f args).
Proof. intros w _. apply wp_lib. intros r _. apply fr_log. Qed.

Lemma safe_bind {A B} P (m : M A) (f : A -> M B) `{!Stable P} :
  safe R P m -> (forall a, safe R P (f a)) -> safe R P (m ≫= f).
Proof.
  intros Hm Hf w HP. apply wp_bind. eapply wp_mono; [by apply Hm|].
  intros a w1 Hfr. eapply wp_mono; [apply Hf; exact (stable _ _ (fr_life _ _ Hfr) HP)|].
  intros b w2 Hfr2. simpl in *. by etransitivity.
Qed.

Lemma safe_weaken {A} P Q (m : M A) : (forall w, P w -> Q w) -> safe R Q m -> safe R P m.
Proof. intros Hi Hm w HP. auto. Qed.

Lemma safe_get_ctx {B} P p (f : SCFPolicyCtx -> M B) :
  (forall w, P w -> live_ctx p w) -> (forall c, safe R P (f c)) -> safe R P (get_ctx p ≫= f).
Proof.
  intros Hl Hf w HP. destruct (Hl w HP) as [c Hc]. apply wp_bind.
  eapply wp_get_ctx; [done|]. by apply Hf.
Qed.

Lemma safe_get_obj {B} P p (f : SCFPolicyObj -> M B) :
  (forall w, P w -> live_obj p w) ->
  (forall o, safe R (fun w => P w /\ live_ctx (obj_policyCtx o) w) (f o)) ->
  safe R P (get_obj p ≫= f).
Proof.
  intros Hl Hf w HP. destruct (Hl w HP) as (o & Ho & Hc). apply wp_bind.
  eapply wp_get_obj; [done|]. by apply Hf.
Qed.

Lemma safe_get_obj_there {B} P p (f : SCFPolicyObj -> M B) :
  (forall w, P w -> obj_there p w) -> (forall o, safe R P (f o)) -> safe R P (get_obj p ≫= f).
Proof.
  intros Hl Hf w HP. destruct (Hl w HP) as [o Ho]. apply wp_bind.
  eapply wp_get_obj; [done|]. by apply Hf.
Qed.

Lemma safe_upd_ctx P p f :
  (forall w, P w -> live_ctx p w) ->
  (forall w c, w_ctxs w !! p = Some c -> R w (set_ctxs (<[p := f c]> (w_ctxs w)) w)) ->
  safe R P (upd_ctx p f).
Proof.
  intros Hl Hf w HP. destruct (Hl w HP) as [c Hc]. eapply wp_upd_ctx; [done|]. by apply Hf.
Qed.

Lemma safe_upd_obj P p f :
  (forall w, P w -> obj_there p w) ->
  (forall w o, w_objs w !! p = Some o -> R w (set_objs (<[p := f o]> (w_objs w)) w)) ->
  safe R P (upd_obj p f).
Proof.
  intros Hl Hf w HP. destruct (Hl w HP) as [o Ho]. eapply wp_upd_obj; [done|]. by apply Hf.
Qed.

Lemma safe_modify P f : (forall w, R w (f w)) -> safe R P (modify f).
Proof. intros Hf w _. by apply wp_modify. Qed.
End safe_rules.

Lemma safe_relax {A} (R R' : World -> World -> Prop) P (m : M A) :
  (forall w w', R w w' -> R' w w') -> safe R P m -> safe R' P m.
Proof.
  intros HR Hm w HP. eapply wp_mono; [by apply Hm|]. intros a w' Hf. by apply HR.
Qed.
Lemma safe_policy {A} P (m : M A) : safe world_frame P m -> safe policy_frame P m.
Proof. apply safe_relax, world_policy. Qed.
Lemma safe_life {A} P (m : M A) : safe policy_frame P m -> safe life_frame P m.
Proof. apply safe_relax, policy_life. Qed.

Create HintDb safe.
#[export] Hint Extern 0 (Stable _) => apply _ : safe.

(** Solve the liveness side conditions. *)
Ltac live := intros; repeat match goal with H : _ /\ _ |- _ => destruct H end;
  solve [assumption | eauto].

(** Solve "this write stays within the frame". *)
Ltac framed := intros; first [by eapply frame_set_ctx | by eapply frame_set_obj].

(** One rule of [safe], by the shape of the program. *)
Ltac safe_step :=
  match goal with
  | |- forall _, _ => intro
  | |- safe _ _ (let '_ := ?p in _) => destruct p
  | |- safe _ _ (mret _) => apply safe_ret
  | |- safe _ _ (gets _) => apply safe_gets
  | |- safe _ _ (lib_out) => apply safe_gets
  | |- safe _ _ (lib_cstring _) => apply safe_gets
  | |- safe _ _ (lib_asn1 _) => apply safe_gets
  | |- safe _ _ (lib_bytes _ _) => apply safe_gets
  | |- safe _ _ (lib _ _) => apply safe_lib
  | |- safe _ _ (upd_ctx _ _) => apply safe_upd_ctx; [live | framed]
  | |- safe _ _ (upd_obj _ _) => apply safe_upd_obj; [live | framed]
  | |- safe _ _ (get_ctx _ ≫= _) => apply safe_get_ctx; [live | intro]
  | |- safe _ _ (get_obj _ ≫= _) => apply safe_get_obj; [live | intro]
  | |- safe _ _ (_ ≫= _) => apply safe_bind; [apply _ | | intro]
  | |- safe _ _ (if ?b then _ else _) => destruct b
  | |- safe _ _ (match ?x with _ => _ end) => destruct x
  | |- safe _ _ _ => progress eauto with safe
  end.
Ltac safe := repeat safe_step.

(** ** The contract *)
Class TlsAdaptorSafe (A : TlsAdaptor) : Prop := {
  safe_a_Init flag settings : safe world_frame (fun _ => True) (a_Init flag settings);
  safe_a_DeInit : safe world_frame (fun _ => True) a_DeInit;
  safe_a_FreeSslObj obj : safe world_frame (obj_there obj) (a_FreeSslObj obj);
  safe_a_Connect obj : safe world_frame (live_obj obj) (a_Connect obj);
  safe_a_Accept obj : safe world_frame (live_obj obj) (a_Accept obj);
  safe_a_Read obj d n : safe world_frame (live_obj obj) (a_Read obj d n);
  safe_a_Write obj d n : safe world_frame (live_obj obj) (a_Write obj d n);
  safe_a_Close obj : safe world_frame (live_obj obj) (a_Close obj);
  safe_a_SetFd obj fd : safe world_frame (live_obj obj) (a_SetFd obj fd);
  safe_a_KeyUpdate obj t : safe world_frame (live_obj obj) (a_KeyUpdate obj t);
  safe_a_GetVersion obj : safe world_frame (live_obj obj) (a_GetVersion obj);
  safe_a_GetPeerCert obj : safe world_frame (live_obj obj) (a_GetPeerCert obj);
  safe_a_GetCurrentCert obj : safe world_frame (live_obj obj) (a_GetCurrentCert obj);
  safe_a_CipherFind obj i : safe world_frame (live_obj obj) (a_CipherFind obj i);
  safe_a_FreeSsl ctx : safe world_frame (live_ctx ctx) (a_FreeSsl ctx);
  safe_a_AddCert ctx fc type : type <> SCF_CERT_TYPE_EE_CHAIN ->
    safe world_frame (live_ctx ctx) (a_AddCert ctx fc type);
  safe_a_SetKey ctx k : safe world_frame (live_ctx ctx) (a_SetKey ctx k);
  safe_a_SetCipherSuites ctx s : safe world_frame (live_ctx ctx) (a_SetCipherSuites ctx s);
  safe_a_SetProtocolVersion ctx lo hi vs :
    safe world_frame (live_ctx ctx) (a_SetProtocolVersion ctx lo hi vs);
  safe_a_SetAppVerifyCallback ctx cb arg :
    safe world_frame (live_ctx ctx) (a_SetAppVerifyCallback ctx cb arg);
  safe_a_CheckPrivateKey ctx : safe world_frame (live_ctx ctx) (a_CheckPrivateKey ctx);
  safe_a_SetVerifyMode ctx m : safe world_frame (live_ctx ctx) (a_SetVerifyMode ctx m);
  safe_a_InitPolicyByMode ctx : safe world_frame (live_ctx ctx) (a_InitPolicyByMode ctx);
  safe_a_SetPskFindSessionCallback ctx cb :
    safe world_frame (live_ctx ctx) (a_SetPskFindSessionCallback ctx cb);
  safe_a_SetPskUseSessionCallback ctx cb :
    safe world_frame (live_ctx ctx) (a_SetPskUseSessionCallback ctx cb);
  safe_a_GetCipherSuites ctx d n : safe world_frame (live_ctx ctx) (a_GetCipherSuites ctx d n);
  safe_a_SetKeyExchangeGroups ctx g :
    safe world_frame (live_ctx ctx) (a_SetKeyExchangeGroups ctx g);
  safe_a_SetCryptoEngine e : safe world_frame (fun _ => True) (a_SetCryptoEngine e);
  safe_a_SessionNew : safe world_frame (fun _ => True) a_SessionNew;
  safe_a_SessionFree s : safe world_frame (fun _ => True) (a_SessionFree s);
  safe_a_SessionSetMasterKey s k : safe world_frame (fun _ => True) (a_SessionSetMasterKey s k);
  safe_a_SessionSetCipher s c n : safe world_frame (fun _ => True) (a_SessionSetCipher s c n);
  safe_a_SessionSetProtocolVersion s v :
    safe world_frame (fun _ => True) (a_SessionSetProtocolVersion s v)
}.

(** [SSL_new] finds memory: what [OpenSSLAdaptor::SetFd] relies on without a check. *)
Class SslMemory `{Library} : Prop := ssl_memory : forall h args, answer h SSL_new args <> nullptr.
#[export] Instance RefSslMemory : SslMemory (H := RefLibrary).
Proof. done. Qed.

Section openssl_safe.
Context `{Library} `{SecureC} `{FileSystem}.
Implicit Types (P : World -> Prop).

Lemma safe_print_errors P `{!Stable P} : safe world_frame P print_errors.
Proof. unfold print_errors. safe. Qed.
Hint Resolve safe_print_errors : safe.

Lemma safe_DeInit P `{!Stable P} : safe world_frame P DeInit.
Proof. unfold DeInit. safe. apply safe_modify; by split. Qed.
Hint Resolve safe_DeInit : safe.

Lemma safe_Init P `{!Stable P} flag settings : safe world_frame P (Init flag settings).
Proof. unfold Init. safe. Qed.

Lemma safe_GetCurrentCert P `{!Stable P} obj :
  (forall w, P w -> live_obj obj w) -> safe world_frame P (GetCurrentCert obj).
Proof. intros HP. unfold GetCurrentCert. safe. Qed.

Lemma safe_copy_time P `{!Stable P} t : safe world_frame P (copy_time t).
Proof. unfold copy_time. safe. Qed.
Hint Resolve safe_copy_time : safe.

Lemma safe_LogCertError P `{!Stable P} obj :
  (forall w, P w -> live_obj obj w) -> safe world_frame P (LogCertError obj).
Proof.
  intros HP. unfold LogCertError, GetCertVersion, GetCertSerialNumber, GetCertStartTime,
    GetCertEndTime. safe. by apply safe_GetCurrentCert.
Qed.

Lemma safe_HandleTransPortError P `{!Stable P} obj err :
  (forall w, P w -> live_obj obj w) -> safe world_frame P (HandleTransPortError obj err).
Proof. intros HP. unfold HandleTransPortError. safe. by apply safe_LogCertError. Qed.

Lemma safe_handshake obj role fn : safe world_frame (live_obj obj) (handshake obj role fn).
Proof. unfold handshake. safe; apply safe_HandleTransPortError; [apply _|live]. Qed.

Lemma safe_FreeSslObj obj : safe world_frame (obj_there obj) (FreeSslObj obj).
Proof.
  unfold FreeSslObj. destruct (_ =? _); [safe|]. apply safe_get_obj_there; [done|].
  intros o. safe.
Qed.

Lemma safe_Read obj d n : safe world_frame (live_obj obj) (Read obj d n).
Proof. unfold Read. safe. Qed.

Lemma safe_Write obj d n : safe world_frame (live_obj obj) (Write obj d n).
Proof. unfold Write. safe. Qed.

Lemma safe_Close obj : safe world_frame (live_obj obj) (Close obj).
Proof. unfold Close. safe. Qed.

Lemma safe_CheckVersion P `{!Stable P} obj :
  (forall w, P w -> live_obj obj w) -> safe world_frame P (CheckVersion obj).
Proof.
  intros HP. unfold CheckVersion, SSL_CTX_get_min_proto_version, SSL_CTX_get_max_proto_version.
  safe.
Qed.

Lemma safe_new_object {B} P `{!SslMemory} `{!Stable P} args (f : Z -> M B) :
  (forall ssl, ssl <> nullptr -> safe world_frame P (f ssl)) ->
  safe world_frame P (lib SSL_new args ≫= f).
Proof.
  intros Hf w HP. apply wp_bind, wp_lib. intros r Hr. set (w1 := set_log _ w).
  assert (F1 : world_frame w w1) by apply frame_log.
  eapply wp_mono; [apply Hf; [rewrite Hr; apply ssl_memory|exact (stable _ _ (fr_life _ _ F1) HP)]|].
  intros b w2 F2. by etransitivity.
Qed.

Lemma safe_lib_deref P f p args : p <> nullptr -> safe world_frame P (lib_deref f p args).
Proof. intros Hp. unfold lib_deref. rewrite (proj2 (Z.eqb_neq _ _) Hp). safe. Qed.

Lemma safe_SetFd `{!SslMemory} obj fd : safe world_frame (live_obj obj) (SetFd obj fd).
Proof.
  unfold SetFd.
  repeat match goal with
    | |- safe _ _ (lib SSL_new _ ≫= _) => apply safe_new_object; [apply _|apply _|intros]
    | |- safe _ _ (lib_deref _ _ _) => by apply safe_lib_deref
    | _ => safe_step
    end. apply safe_CheckVersion; [apply _|live].
Qed.

Lemma safe_KeyUpdate obj t : safe world_frame (live_obj obj) (KeyUpdate obj t).
Proof. unfold KeyUpdate. safe. Qed.

Lemma safe_GetVersion obj : safe world_frame (live_obj obj) (GetVersion obj).
Proof. unfold GetVersion. safe. Qed.

Lemma safe_FreeSsl P `{!Stable P} ctx :
  (forall w, P w -> live_ctx ctx w) -> safe world_frame P (FreeSsl ctx).
Proof. intros HP. unfold FreeSsl. safe. Qed.

(** Loading a chain reads until the reader ends, which the contract does not promise. *)
Lemma safe_AddCert ctx fc type :
  type <> SCF_CERT_TYPE_EE_CHAIN -> safe world_frame (live_ctx ctx) (AddCert ctx fc type).
Proof.
  intros Ht. unfold AddCert. rewrite (proj2 (Z.eqb_neq _ _) Ht).
  unfold AddCaCert, AddCaCertByFile, AddCaCertByBuffer, CertBuffer2X509, AddEeCert,
    AddEeCertByFile, AddEeCertByBuffer, ErrErrorString, LoadEeCert, AddCrl, ReadCrlByFile,
    ReadCrlByBuffer. safe.
Qed.

Lemma safe_SetKey ctx k : safe world_frame (live_ctx ctx) (SetKey ctx k).
Proof. unfold SetKey, SetKeyByFile, SetKeyByBuffer, KeyBuffer2Evp. safe. Qed.

Lemma safe_SetCipherSuites ctx s : safe world_frame (live_ctx ctx) (SetCipherSuites ctx s).
Proof. unfold SetCipherSuites. safe. Qed.

Lemma safe_SetProtocolVersion P `{!Stable P} ctx lo hi vs :
  (forall w, P w -> live_ctx ctx w) -> safe world_frame P (SetProtocolVersion ctx lo hi vs).
Proof.
  intros HP.
  unfold SetProtocolVersion, SSL_CTX_set_min_proto_version, SSL_CTX_set_max_proto_version.
  safe.
Qed.

Lemma safe_log_engine P `{!Stable P} engine : safe world_frame P (log_engine engine).
Proof. unfold log_engine. safe. Qed.
Hint Resolve safe_log_engine : safe.

Lemma safe_new_ssl_ctx P `{!Stable P} logged method : safe world_frame P (new_ssl_ctx logged method).
Proof. unfold new_ssl_ctx. safe. Qed.
Hint Resolve safe_new_ssl_ctx : safe.

Lemma safe_disable_session_cache P `{!Stable P} c : safe world_frame P (disable_session_cache c).
Proof.
  unfold disable_session_cache, SSL_CTX_set_session_cache_mode, SSL_CTX_get_session_cache_mode.
  safe.
Qed.
Hint Resolve safe_disable_session_cache : safe.

Lemma safe_CalGetSslMethod P `{!Stable P} role : safe world_frame P (CalGetSslMethod role).
Proof. unfold CalGetSslMethod. safe. Qed.
Hint Resolve safe_CalGetSslMethod : safe.

Lemma safe_InitSsl ctx lo hi vs : safe world_frame (live_ctx ctx) (InitSsl ctx lo hi vs).
Proof.
  unfold InitSsl. safe; first [apply safe_FreeSsl; [apply _|live]
                              |apply safe_SetProtocolVersion; [apply _|live]].
Qed.

Lemma safe_InitSslCustomer ctx : safe world_frame (live_ctx ctx) (InitSslCustomer ctx).
Proof. unfold InitSslCustomer. safe. apply safe_FreeSsl; [apply _|live]. Qed.
Hint Resolve safe_InitSsl safe_InitSslCustomer : safe.

Lemma safe_InitPolicyByMode ctx : safe world_frame (live_ctx ctx) (InitPolicyByMode ctx).
Proof. unfold InitPolicyByMode. safe. Qed.

Lemma safe_get_ciphers_loop P `{!Stable P} n i stack d :
  safe world_frame P (get_ciphers_loop n i stack d).
Proof. revert i d. induction n as [|n IH]; intros i d; simpl; safe. Qed.
Hint Resolve safe_get_ciphers_loop : safe.

Lemma safe_GetCipherSuites ctx d n : safe world_frame (live_ctx ctx) (GetCipherSuites ctx d n).
Proof. unfold GetCipherSuites. safe. Qed.

#[export] Instance OpenSSLAdaptorSafe `{!SslMemory} : TlsAdaptorSafe OpenSSLAdaptor.
Proof.
  split; intros; simpl.
  - apply safe_Init, _.
  - apply safe_DeInit, _.
  - apply safe_FreeSslObj.
  - apply safe_handshake.
  - apply safe_handshake.
  - apply safe_Read.
  - apply safe_Write.
  - apply safe_Close.
  - apply safe_SetFd.
  - apply safe_KeyUpdate.
  - apply safe_GetVersion.
  - unfold GetPeerCert. safe.
  - unfold GetCurrentCert. safe.
  - unfold CipherFind. safe.
  - apply safe_FreeSsl; [apply _|done].
  - by apply safe_AddCert.
  - apply safe_SetKey.
  - apply safe_SetCipherSuites.
  - apply safe_SetProtocolVersion; [apply _|done].
  - unfold SetAppVerifyCallback. safe.
  - unfold CheckPrivateKey. safe.
  - unfold SetVerifyMode. safe.
  - apply safe_InitPolicyByMode.
  - unfold SetPskFindSessionCallback. safe.
  - unfold SetPskUseSessionCallback. safe.
  - apply safe_GetCipherSuites.
  - unfold SetKeyExchangeGroups. safe.
  - unfold SetCryptoEngine. safe. by apply safe_modify.
  - unfold SessionNew. safe.
  - unfold SessionFree. safe.
  - unfold SessionSetMasterKey. safe.
  - unfold SessionSetCipher. safe.
  - unfold SessionSetProtocolVersion. safe.
Qed.
End openssl_safe.
