(* ===== verification/Api.v ===== *)
(** * The policy layer

    The C API over the adaptor: [src/adaptor/tls_init.cpp], [src/scf/policy/policy.cpp],
    [src/scf/policy/auth/cert/cert.cpp], [auth/psk/psk.cpp], [psk_session_policy.cpp],
    [psk_key_policy.cpp], [src/adaptor/session_key_update.cpp],
    [src/scf/connection/obj.cpp] and [connection.cpp]. Each handler is its guards in the
    order of the code, its calls and its writes; it is a program over the machine and
    uses the adaptor only through the interface. *)
From Stdlib Require Import ZArith Lia Ascii String.
From stdpp Require Import base list fin_maps gmap strings.
From S2P Require Import Prelude Errno Types FileCheck FileCtx Machine Adaptor.
Open Scope Z_scope.

(** The guards of [scf_inner.h]: [CHECK_SCF_INIT_RET]/[_POINTER] and
    [CHECK_SCF_ADAPTOR_RET]/[_POINTER], with the value they return. *)
Definition CHECK_SCF_INIT {A} (r : A) (k : M A) : M A :=
  i ← gets w_scfInitialized; if (i : bool) then k else mret r.
Definition CHECK_SCF_ADAPTOR {A} (r : A) (k : M A) : M A :=
  a ← gets w_adaptor; if (a : bool) then k else mret r.

(** [if (!g_scfInitialized || g_adaptor == nullptr) return r;] *)
Definition CHECK_READY {A} (r : A) (k : M A) : M A :=
  CHECK_SCF_INIT r (CHECK_SCF_ADAPTOR r k).

(** Both guards of an [int32_t] handler. *)
Definition CHECK_RET (k : M Z) : M Z :=
  CHECK_SCF_INIT SCF_ERRNO_NOT_INIT (CHECK_SCF_ADAPTOR SCF_ERRNO_INVALID_PARAM k).

(** ** Heap of the layer *)

(** [delete ctx] and [delete obj]: a fault when the address is not live. *)
Definition delete_ctx (p : Z) : M unit := fun w =>
  match w_ctxs w !! p with
  | Some _ => Some (tt, set_ctxs (delete p (w_ctxs w)) w)
  | None => None
  end.
Definition delete_obj (p : Z) : M unit := fun w =>
  match w_objs w !! p with
  | Some _ => Some (tt, set_objs (delete p (w_objs w)) w)
  | None => None
  end.

(** [new] at the next fresh address. *)
Definition new_ctx (c : SCFPolicyCtx) : M Z := fun w =>
  Some (w_next w, set_next (w_next w + 1) (set_ctxs (<[w_next w := c]> (w_ctxs w)) w)).
Definition new_obj (o : SCFPolicyObj) : M Z := fun w =>
  Some (w_next w, set_next (w_next w + 1) (set_objs (<[w_next w := o]> (w_objs w)) w)).

Section api.
Context `{Library} {A : TlsAdaptor} `{SecureC} `{Decryptor}.

(** ** Initialisation (tls_init.cpp, policy.cpp) *)

Definition RegisterTlsAdaptor (flag : Z) (settings : option string) : M Z :=
  tls ← gets w_isTlsInit;
  return_if (tls : bool) with (mret SCF_ERRNO_TLS_ALREADY_INIT) ;;
  return_if flag =? SCF_INIT_FLAG_OPENSSL
    with (ret ← a_Init flag settings;
          return_if negb (ret =? SCF_SUCCESS) with (mret ret) ;;
          _ ← modify (set_isTlsInit true);
          _ ← modify (set_adaptor true);
          mret SCF_SUCCESS) ;;
  mret SCF_ERRNO_INVALID_PARAM.

Definition UnRegisterTlsAdaptor : M unit :=
  tls ← gets w_isTlsInit;
  ad ← gets w_adaptor;
  return_if negb tls || negb ad with (mret tt) ;;
  _ ← a_DeInit;
  _ ← modify (set_adaptor false);
  modify (set_isTlsInit false).

Definition SCFInitInner (flag : Z) (settings : option string) : M Z :=
  init ← gets w_scfInitialized;
  return_if (init : bool) with (mret SCF_SUCCESS) ;;
  ret ← RegisterTlsAdaptor flag settings;
  return_if negb (ret =? SCF_SUCCESS) with (mret ret) ;;
  _ ← modify (set_scfInitialized true);
  mret SCF_SUCCESS.

Definition SCFDeInitInner : M unit :=
  init ← gets w_scfInitialized;
  return_if negb init with (mret tt) ;;
  _ ← UnRegisterTlsAdaptor;
  modify (set_scfInitialized false).

Definition SCF_Init (flag : Z) (settings : option string) : M Z :=
  init ← gets w_scfInitialized;
  return_if (init : bool) with (mret SCF_SUCCESS) ;;
  return_if negb (flag =? SCF_INIT_FLAG_OPENSSL) with (mret SCF_ERRNO_INVALID_PARAM) ;;
  ret ← SCFInitInner flag settings;
  return_if negb (ret =? SCF_SUCCESS) with (mret ret) ;;
  _ ← modify (set_scfInitialized true);
  mret ret.

Definition SCF_DeInit : M unit :=
  init ← gets w_scfInitialized;
  return_if negb init with (mret tt) ;;
  _ ← SCFDeInitInner;
  modify (set_scfInitialized false).

(** ** Contexts (policy.cpp) *)

Definition SCF_CreatePolicyCtx : M Z :=
  CHECK_READY nullptr (
    p ← lib op_new [AStr "SCF_PolicyCtx"];
    return_if p =? nullptr with (mret nullptr) ;;
    new_ctx new_policy_ctx).

(** [*ctx] on entry and on return. The compare-exchange loop is one decrement: a weak
    exchange that fails spuriously leaves [expected] as it was. *)
Definition SCF_FreePolicyCtx (ctx : Z) : M Z :=
  return_if ctx =? nullptr with (mret ctx) ;;
  CHECK_READY ctx (
    c ← get_ctx ctx;
    let expected := ctx_refCnt c in
    return_if expected =? 0 with (mret ctx) ;;
    _ ← upd_ctx ctx (set_ctx_refCnt (expected - 1));
    return_if 1 <? expected with (mret ctx) ;;
    _ ← a_FreeSsl ctx;
    _ ← delete_ctx ctx;
    mret nullptr).

(** The released contents, [*buffer] and [bufferLen] on return; the outer option is the
    argument itself. *)
Definition SCF_FreeBuffer (buffer : option (option (list ascii))) (bufferLen : Z)
    : M (option (list ascii) * option (option (list ascii)) * Z) :=
  match buffer with
  | None => mret (None, buffer, bufferLen)
  | Some None => mret (None, buffer, bufferLen)
  | Some (Some b) =>
      return_if bufferLen =? 0 with (mret (None, buffer, bufferLen)) ;;
      CHECK_READY (None, buffer, bufferLen) (
        let '(released, _, _) := a_FreeBuffer (Some b) bufferLen in
        mret (released, Some None, 0))
  end.

Definition SCF_SetPolicy (ctx role verifyMode policyMode : Z) : M Z :=
  return_if (ctx =? nullptr) || negb (CheckRole role =? SCF_SUCCESS)
            || negb (CheckVerifyMode verifyMode =? SCF_SUCCESS)
            || negb (CheckPolicyMode policyMode =? SCF_SUCCESS)
    with (mret SCF_ERRNO_INVALID_PARAM) ;;
  CHECK_RET (
    _ ← upd_ctx ctx (set_ctx_role role);
    _ ← upd_ctx ctx (set_ctx_verifyMode verifyMode);
    _ ← upd_ctx ctx (set_ctx_policyMode policyMode);
    ret ← a_InitPolicyByMode ctx;
    return_if negb (ret =? SCF_SUCCESS) with (mret ret) ;;
    let verifyMode :=
      if verifyMode =? SCF_VERIFY_DEFAULT
      then Z.lor SCF_VERIFY_PEER SCF_VERIFY_FAIL_IF_NO_PEER_CERT else verifyMode in
    ret ← a_SetVerifyMode ctx verifyMode;
    return_if negb (ret =? SCF_SUCCESS) with (mret ret) ;;
    mret SCF_SUCCESS).

(** The code and, when written, [(role, verifyMode, policyMode)]; [outs]: none of the
    three out-pointers is null. *)
Definition SCF_GetPolicy (ctx : Z) (outs : bool) : M (Z * option (Z * Z * Z)) :=
  return_if (ctx =? nullptr) || negb outs with (mret (SCF_ERRNO_NULL_INPUT, None)) ;;
  c ← get_ctx ctx;
  mret (SCF_SUCCESS, Some (ctx_role c, ctx_verifyMode c, ctx_policyMode c)).

Definition SCF_SetAppVerifyCallback (ctx cb arg : Z) : M Z :=
  return_if ctx =? nullptr with (mret SCF_ERRNO_NULL_INPUT) ;;
  c ← get_ctx ctx;
  return_if ctx_role c =? SCF_ROLE_NONE with (mret SCF_ERRNO_INVALID_PARAM) ;;
  CHECK_SCF_INIT SCF_ERRNO_NOT_INIT (
    return_if negb (ctx_policyMode c =? SCF_POLICY_CUSTOMER)
              || (Z.land (ctx_verifyMode c) SCF_VERIFY_CUSTOMER =? 0)
      with (mret SCF_SSL_ERR_SEC_LEVEL_MISMATCH) ;;
    CHECK_SCF_ADAPTOR SCF_ERRNO_INVALID_PARAM (
      ret ← a_SetAppVerifyCallback ctx cb arg;
      return_if negb (ret =? SCF_SUCCESS) with (mret ret) ;;
      mret SCF_SUCCESS)).

Definition SCF_SetCipherSuites (ctx : Z) (cipherSuites : option (list Z)) : M Z :=
  return_if (ctx =? nullptr) || bool_decide (cipherSuites = None)
    with (mret SCF_ERRNO_NULL_INPUT) ;;
  return_if bool_decide (cipherSuites = Some []) with (mret SCF_ERRNO_INVALID_PARAM) ;;
  c ← get_ctx ctx;
  return_if ctx_role c =? SCF_ROLE_NONE with (mret SCF_ERRNO_INVALID_PARAM) ;;
  CHECK_RET (a_SetCipherSuites ctx cipherSuites).

(** The code, [data] and [*cipherSuitesSize] ([None]: not written). *)
Definition SCF_GetCipherSuites (ctx : Z) (data : option (list Z)) (dataLen : Z)
    (outs : bool) : M (Z * option (list Z) * option Z) :=
  match data with
  | None => mret (SCF_ERRNO_NULL_INPUT, None, None)
  | Some d =>
      return_if (ctx =? nullptr) || (dataLen =? 0) || negb outs
        with (mret (SCF_ERRNO_NULL_INPUT, data, None)) ;;
      CHECK_SCF_INIT (SCF_ERRNO_NOT_INIT, data, None) (
        CHECK_SCF_ADAPTOR (SCF_ERRNO_INVALID_PARAM, data, None) (
          res ← a_GetCipherSuites ctx d dataLen;
          let '(ret, d, n) := res in
          mret (ret, Some d, Some n)))
  end.

Definition SCF_SetProtocolVersion (ctx minVersion maxVersion : Z)
    (forbidVersion : option (list Z)) : M Z :=
  return_if ctx =? nullptr with (mret SCF_ERRNO_NULL_INPUT) ;;
  c ← get_ctx ctx;
  return_if ctx_role c =? SCF_ROLE_NONE with (mret SCF_ERRNO_INVALID_PARAM) ;;
  return_if (ctx_policyMode c =? SCF_POLICY_HIGH)
            && (negb (minVersion =? SCF_SSL_VERSION_TLS13)
                || negb (maxVersion =? SCF_SSL_VERSION_TLS13))
    with (mret SCF_SSL_ERR_POLICY_VERSION) ;;
  CHECK_RET (a_SetProtocolVersion ctx minVersion maxVersion forbidVersion).

Definition SCF_GetProtocolVersion (obj : Z) : M (option string) :=
  return_if obj =? nullptr with (mret None) ;;
  CHECK_READY None (a_GetVersion obj).

(** ** Certificates (cert.cpp) *)

Definition SCF_AddCert (ctx : Z) (certCtx : option SCFFileCtx) (type : Z) : M Z :=
  match certCtx with
  | None => mret SCF_ERRNO_NULL_INPUT
  | Some fc =>
      return_if ctx =? nullptr with (mret SCF_ERRNO_NULL_INPUT) ;;
      c ← get_ctx ctx;
      return_if ctx_role c =? SCF_ROLE_NONE with (mret SCF_ERRNO_INVALID_PARAM) ;;
      CHECK_RET (a_AddCert ctx fc type)
  end.

Definition SCF_SetKey (ctx : Z) (keyCtx : option SCFFileCtx) : M Z :=
  return_if (ctx =? nullptr) || bool_decide (keyCtx = None)
    with (mret SCF_ERRNO_NULL_INPUT) ;;
  CHECK_RET (a_SetKey ctx keyCtx).

Definition SCF_CheckPrivateKey (ctx : Z) : M Z :=
  return_if ctx =? nullptr with (mret SCF_ERRNO_NULL_INPUT) ;;
  CHECK_RET (a_CheckPrivateKey ctx).

Definition SCF_GetCertVersion (cert : Z) : M Z :=
  return_if cert =? nullptr with (mret (-1)) ;;
  CHECK_READY (-1) (a_GetCertVersion cert).

(** The common body of [SCF_GetCertStartTime] and [SCF_GetCertEndTime]. *)
Definition copy_datetime (cert : Z) (buffer : option (list ascii)) (bufferLen : Z)
    (get : Z -> M (option (Z * list ascii))) : M (Z * option (list ascii)) :=
  match buffer with
  | None => mret (SCF_ERRNO_NULL_INPUT, None)
  | Some buf =>
      return_if cert =? nullptr with (mret (SCF_ERRNO_NULL_INPUT, buffer)) ;;
      return_if bufferLen =? 0 with (mret (SCF_ERROR, buffer)) ;;
      CHECK_SCF_INIT (SCF_ERRNO_NOT_INIT, buffer) (
        CHECK_SCF_ADAPTOR (SCF_ERRNO_INVALID_PARAM, buffer) (
          datetime ← get cert;
          match datetime with
          | None => mret (SCF_ERROR, buffer)
          | Some (p, cells) =>
              let text := buf_cstr cells in
              _ ← lib op_delete [AInt p];
              return_if bufferLen <=? slen text with (mret (SCF_ERROR, buffer)) ;;
              let '(rc, buf) := memcpy_s buf bufferLen (bytes text) in
              return_if negb (rc =? EOK) with (mret (SCF_ERROR, Some buf)) ;;
              mret (SCF_SUCCESS, Some (<[String.length text := NUL]> buf))
          end))
  end.

Definition SCF_GetCertStartTime (cert : Z) (buffer : option (list ascii)) (bufferLen : Z)
    : M (Z * option (list ascii)) := copy_datetime cert buffer bufferLen a_GetCertStartTime.
Definition SCF_GetCertEndTime (cert : Z) (buffer : option (list ascii)) (bufferLen : Z)
    : M (Z * option (list ascii)) := copy_datetime cert buffer bufferLen a_GetCertEndTime.

Definition SCF_GetCertSerialNumber (cert : Z) (dataLen : option Z)
    : M (option (list ascii) * option Z) :=
  match dataLen with
  | None => mret (None, None)
  | Some _ =>
      return_if cert =? nullptr with (mret (None, dataLen)) ;;
      CHECK_READY (None, dataLen) (
        res ← a_GetCertSerialNumber cert;
        mret (res.1, Some res.2))
  end.

(** ** Pre-shared keys and sessions (psk.cpp, psk_session_policy.cpp) *)

Definition SCF_SetPskFindSessionCallback (ctx cb : Z) : M Z :=
  return_if ctx =? nullptr with (mret SCF_ERRNO_NULL_INPUT) ;;
  CHECK_RET (a_SetPskFindSessionCallback ctx cb).

Definition SCF_SetPskUseSessionCallback (ctx cb : Z) : M Z :=
  return_if ctx =? nullptr with (mret SCF_ERRNO_NULL_INPUT) ;;
  CHECK_RET (a_SetPskUseSessionCallback ctx cb).

Definition SCF_SessionNew : M Z := CHECK_READY nullptr a_SessionNew.

(** [*sess] on entry and on return. *)
Definition SCF_SessionFree (sess : Z) : M Z :=
  return_if sess =? nullptr with (mret sess) ;;
  CHECK_READY sess (_ ← a_SessionFree sess; mret nullptr).

(** The code and the key buffers released, as they are when released: the vector of a
    decryption that failed is released as the callback left it. *)
Definition SCF_SessionSetMasterKey (sess : Z) (masterKey : option (list ascii))
    (masterKeyLen : Z) (isCipher : bool) : M (Z * list (list ascii)) :=
  match masterKey with
  | None => mret (SCF_ERRNO_INVALID_PARAM, [])
  | Some key =>
      return_if (sess =? nullptr) || (masterKeyLen =? 0)
        with (mret (SCF_ERRNO_INVALID_PARAM, [])) ;;
      CHECK_SCF_INIT (SCF_ERRNO_NOT_INIT, []) (
        CHECK_SCF_ADAPTOR (SCF_ERRNO_INVALID_PARAM, []) (
          let given := take (Z.to_nat masterKeyLen) key in
          let '(decrypted, finalKey) := if isCipher then Decrypt given else (true, given) in
          return_if negb decrypted with (mret (SCF_ERROR, [finalKey])) ;;
          ret ← a_SessionSetMasterKey sess finalKey;
          let zeros := replicate (length finalKey) NUL in
          mret (ret, if isCipher then [zeros; zeros] else [zeros])))
  end.

Definition SCF_SessionSetCipher (sess cipherSuite cipherLen : Z) : M Z :=
  return_if (sess =? nullptr) || (cipherSuite =? nullptr) with (mret SCF_ERRNO_NULL_INPUT) ;;
  CHECK_RET (a_SessionSetCipher sess cipherSuite cipherLen).

(** The code, [*cipherSuite] and [cipherLen]. *)
Definition SCF_SessionGetCipher (sess : Z) (cipherSuite : option Z) (cipherLen : Z)
    : M (Z * option Z * Z) :=
  return_if (sess =? nullptr) || bool_decide (cipherSuite = None)
    with (mret (SCF_ERRNO_NULL_INPUT, cipherSuite, cipherLen)) ;;
  CHECK_SCF_INIT (SCF_ERRNO_NOT_INIT, cipherSuite, cipherLen) (
    CHECK_SCF_ADAPTOR (SCF_ERRNO_INVALID_PARAM, cipherSuite, cipherLen) (
      a_SessionGetCipher sess cipherSuite)).

Definition SCF_SessionFreeCipher (cipherSuite : option Z) (cipherLen : Z)
    : M (option Z * Z) :=
  match cipherSuite with
  | None => mret (cipherSuite, cipherLen)
  | Some s =>
      return_if (s =? nullptr) || (cipherLen =? 0) with (mret (cipherSuite, cipherLen)) ;;
      CHECK_READY (cipherSuite, cipherLen) (mret (a_SessionFreeCipher cipherSuite cipherLen))
  end.

Definition SCF_SessionSetProtocolVersion (sess : Z) (version : option string) : M Z :=
  return_if (sess =? nullptr) || bool_decide (version = None)
    with (mret SCF_ERRNO_NULL_INPUT) ;;
  CHECK_RET (a_SessionSetProtocolVersion sess version).

(** The code, the new buffer and [versionLen]; [outs]: [version] is not null. *)
Definition SCF_SessionGetProtocolVersion (sess : Z) (outs : bool) (versionLen : Z)
    : M (Z * option (Z * list ascii) * Z) :=
  return_if (sess =? nullptr) || negb outs
    with (mret (SCF_ERRNO_NULL_INPUT, None, versionLen)) ;;
  CHECK_SCF_INIT (SCF_ERRNO_NOT_INIT, None, versionLen) (
    CHECK_SCF_ADAPTOR (SCF_ERRNO_INVALID_PARAM, None, versionLen) (
      a_SessionGetProtocolVersion sess)).

Definition SCF_CipherFind (obj : Z) (cipherId : option (list ascii)) : M Z :=
  match cipherId with
  | None => mret nullptr
  | Some id =>
      return_if obj =? nullptr with (mret nullptr) ;;
      CHECK_READY nullptr (a_CipherFind obj id)
  end.
End api.
