(* ===== verification/Conn.v ===== *)
(** * Policy objects and connections

    [src/scf/connection/obj.cpp], [src/scf/connection/connection.cpp],
    [src/scf/policy/auth/psk/psk_key_policy.cpp] and
    [src/adaptor/session_key_update.cpp]: the life of an object, the handshake that
    freezes the role mapping, data transfer and automatic key update. *)
From Stdlib Require Import ZArith Lia Ascii String.
From stdpp Require Import base list fin_maps gmap strings.
From S2P Require Import Prelude Errno Types Rbac Machine OpenSSL Adaptor Api.
Open Scope Z_scope.

(** ** Traffic accounting (session_key_update.cpp)

    The arithmetic of [CheckNeedKeyUpdate] on 64-bit counters: whether an update is due
    on traffic alone and the new total. *)
Definition account_traffic (totalSizeOfWriteData keyUpdateTraffic processDataLen : Z)
    : bool * Z :=
  return_if (keyUpdateTraffic <=? processDataLen)
            || (wrap64 (keyUpdateTraffic - processDataLen) <=? totalSizeOfWriteData)
    with (true, wrap64 (totalSizeOfWriteData +
                        Z.min (wrap64 (UINT64_MAX - totalSizeOfWriteData)) processDataLen)) ;;
  let total := wrap64 (totalSizeOfWriteData + processDataLen) in
  (keyUpdateTraffic <=? total, total).

(** [CheckTimeInterval] on the two clocks and the interval: the code and whether it is
    time. *)
Definition time_due (curTime lastKeyUpdateTime keyUpdateTime : Z) : Z * bool :=
  return_if curTime <? lastKeyUpdateTime with (SCF_ERRNO_SYSTEM_TIME_ERROR, false) ;;
  let relativeSec := wrap64 (curTime - lastKeyUpdateTime) in
  (SCF_SUCCESS, keyUpdateTime <=? relativeSec).

Definition upd_kui (f : SCF_KEY_UPDATE_INFO -> SCF_KEY_UPDATE_INFO) (o : SCFPolicyObj)
    : SCFPolicyObj := set_obj_keyUpdateInfo (f (obj_keyUpdateInfo o)) o.

Section conn.
Context `{Library} {A : TlsAdaptor}.

(** [gettimeofday]: its status and [tv_sec], 0 when the call failed. *)
Definition sys_time : M (Z * Z) :=
  st ← lib gettimeofday [];
  sec ← lib_out;
  mret (st, if st =? 0 then wrap64 sec else 0).

Definition CheckTimeInterval (obj : Z) : M (Z * bool) :=
  now ← sys_time;
  o ← get_obj obj;
  c ← get_ctx (obj_policyCtx o);
  mret (time_due now.2 (kui_lastKeyUpdateTime (obj_keyUpdateInfo o)) (ctx_keyUpdateTime c)).

(** The code and [*isNeedKeyUpdate]. *)
Definition CheckNeedKeyUpdate (obj processDataLen : Z) : M (Z * bool) :=
  return_if obj =? nullptr with (mret (SCF_ERRNO_NULL_INPUT, false)) ;;
  tlsVersion ← a_GetVersion obj;
  return_if negb (bool_decide (tlsVersion = Some SCF_SSL_VERSION_TLS13_STR))
    with (mret (SCF_SUCCESS, false)) ;;
  o ← get_obj obj;
  c ← get_ctx (obj_policyCtx o);
  let '(due, total) := account_traffic (kui_totalSizeOfWriteData (obj_keyUpdateInfo o))
                         (ctx_keyUpdateTraffic c) processDataLen in
  _ ← upd_obj obj (upd_kui (set_kui_totalSizeOfWriteData total));
  return_if due with (mret (SCF_SUCCESS, true)) ;;
  CheckTimeInterval obj.

(** ** Key-update parameters (psk_key_policy.cpp) *)

Definition SCF_SetKeyAutoUpdateParam (ctx : Z) (isNeedKeyUpdate : bool)
    (keyUpdateTime keyUpdateTraffic : Z) : M Z :=
  return_if ctx =? nullptr with (mret SCF_ERRNO_NULL_INPUT) ;;
  CHECK_SCF_INIT SCF_ERRNO_NOT_INIT (
    _ ← upd_ctx ctx (set_ctx_isNeedKeyUpdate isNeedKeyUpdate);
    return_if negb isNeedKeyUpdate with (mret SCF_SUCCESS) ;;
    return_if (keyUpdateTime <? MIN_KEY_UPDATE_TIME) || (MAX_KEY_UPDATE_TIME <? keyUpdateTime)
              || (keyUpdateTraffic <? MIN_KEY_UPDATE_TRAFFIC)
              || (MAX_KEY_UPDATE_TRAFFIC <? keyUpdateTraffic)
      with (mret SCF_SSL_ERR_SET_UPDATE_PARAM) ;;
    _ ← upd_ctx ctx (set_ctx_keyUpdateTime keyUpdateTime);
    _ ← upd_ctx ctx (set_ctx_keyUpdateTraffic keyUpdateTraffic);
    mret SCF_SUCCESS).

(** The code and the three reference arguments on return. *)
Definition SCF_GetKeyAutoUpdateParam (ctx : Z) (isNeedKeyUpdate : bool)
    (keyUpdateTime keyUpdateTraffic : Z) : M (Z * bool * Z * Z) :=
  return_if ctx =? nullptr
    with (mret (SCF_ERRNO_NULL_INPUT, isNeedKeyUpdate, keyUpdateTime, keyUpdateTraffic)) ;;
  CHECK_SCF_INIT (SCF_ERRNO_NOT_INIT, isNeedKeyUpdate, keyUpdateTime, keyUpdateTraffic) (
    c ← get_ctx ctx;
    return_if negb (ctx_isNeedKeyUpdate c)
      with (mret (SCF_SUCCESS, false, keyUpdateTime, keyUpdateTraffic)) ;;
    mret (SCF_SUCCESS, true, ctx_keyUpdateTime c, ctx_keyUpdateTraffic c)).

(** The code and, when written, [(lastKeyUpdateTime, timeInterval, remainTraffic)]. *)
Definition SCF_GetKeyUpdateInfo (obj : Z) (outs : bool) : M (Z * option (Z * Z * Z)) :=
  return_if obj =? nullptr with (mret (SCF_ERRNO_NULL_INPUT, None)) ;;
  o ← get_obj obj;
  return_if obj_policyCtx o =? nullptr with (mret (SCF_ERRNO_NULL_INPUT, None)) ;;
  return_if negb outs with (mret (SCF_ERRNO_NULL_INPUT, None)) ;;
  CHECK_SCF_INIT (SCF_ERRNO_NOT_INIT, None) (
    c ← get_ctx (obj_policyCtx o);
    let total := kui_totalSizeOfWriteData (obj_keyUpdateInfo o) in
    mret (SCF_SUCCESS,
          Some (kui_lastKeyUpdateTime (obj_keyUpdateInfo o), ctx_keyUpdateTime c,
                if total <? ctx_keyUpdateTraffic c then ctx_keyUpdateTraffic c - total else 0))).

Definition SCF_ObjKeyUpdate (obj : Z) : M Z :=
  return_if obj =? nullptr with (mret SCF_ERRNO_NULL_INPUT) ;;
  CHECK_RET (
    now ← sys_time;
    return_if negb (now.1 =? 0) with (mret SCF_ERRNO_SYSTEM_TIME_ERROR) ;;
    _ ← upd_obj obj (upd_kui (set_kui_totalSizeOfWriteData 0));
    _ ← upd_obj obj (upd_kui (set_kui_lastKeyUpdateTime now.2));
    ret ← a_KeyUpdate obj KEY_UPDATE_NOT_REQUESTED;
    _ ← upd_obj obj (upd_kui (set_kui_isLastUpdateSuccess (ret =? SCF_SUCCESS)));
    return_if negb (ret =? SCF_SUCCESS) with (mret ret) ;;
    _ ← upd_obj obj (upd_kui (fun k =>
          set_kui_totalKeyUpdateCnt (wrap32 (kui_totalKeyUpdateCnt k + 1)) k));
    mret SCF_SUCCESS).

(** ** Objects (obj.cpp) *)

(** The object [SCF_CreatePolicyObj] builds for a context. *)
Definition new_policy_obj (ctx : Z) (c : SCFPolicyCtx) (now : Z) : SCFPolicyObj :=
  mkPolicyObj ctx nullptr (ctx_policyMode c) (ctx_verifyMode c) (ctx_role c)
    (ctx_isSetRole c) (-1) (ctx_pskFindSessionCb c) (ctx_pskUseSessionCb c)
    (mkKeyUpdateInfo (ctx_keyUpdateTime c) (ctx_keyUpdateTraffic c) 0 now 0 true)
    nullptr.

Definition SCF_CreatePolicyObj (ctx : Z) : M Z :=
  return_if ctx =? nullptr with (mret nullptr) ;;
  CHECK_SCF_INIT nullptr (
    now ← sys_time;
    return_if negb (now.1 =? 0) with (mret nullptr) ;;
    p ← lib op_new [AStr "SCF_PolicyObj"];
    return_if p =? nullptr with (mret nullptr) ;;
    _ ← upd_ctx ctx (fun c => set_ctx_refCnt (wrap32 (ctx_refCnt c + 1)) c);
    c ← get_ctx ctx;
    new_obj (new_policy_obj ctx c now.2)).

Definition SCF_SetFd (obj fd : Z) : M Z :=
  CHECK_RET (
    return_if obj =? nullptr with (mret SCF_ERRNO_NULL_INPUT) ;;
    o ← get_obj obj;
    return_if (obj_role o =? SCF_ROLE_NONE) || (fd <? 0) with (mret SCF_ERRNO_INVALID_PARAM) ;;
    a_SetFd obj fd).

(** [*obj] on entry and on return. *)
Definition SCF_FreePolicyObj (obj : Z) : M Z :=
  return_if obj =? nullptr with (mret obj) ;;
  CHECK_READY obj (
    o ← get_obj obj;
    ctx ← SCF_FreePolicyCtx (obj_policyCtx o);
    _ ← upd_obj obj (set_obj_policyCtx ctx);
    _ ← a_FreeSslObj obj;
    _ ← delete_obj obj;
    mret nullptr).

Definition SCF_GetCurrentCert (obj : Z) : M Z :=
  return_if obj =? nullptr with (mret nullptr) ;;
  CHECK_READY nullptr (a_GetCurrentCert obj).

Definition SCF_GetPeerCert (obj : Z) : M Z :=
  return_if obj =? nullptr with (mret nullptr) ;;
  CHECK_READY nullptr (a_GetPeerCert obj).

(** [*cert] on entry and on return. *)
Definition SCF_FreeCert (cert : Z) : M Z :=
  return_if cert =? nullptr with (mret cert) ;;
  CHECK_READY cert (_ ← a_FreeCert cert; mret nullptr).

Definition SCF_SetUserData (obj userData : Z) : M Z :=
  return_if (obj =? nullptr) || (userData =? nullptr) with (mret SCF_ERRNO_NULL_INPUT) ;;
  CHECK_SCF_INIT SCF_ERRNO_NOT_INIT (
    _ ← upd_obj obj (set_obj_userData userData);
    mret SCF_SUCCESS).

Definition SCF_GetUserData (obj : Z) : M Z :=
  return_if obj =? nullptr with (mret nullptr) ;;
  o ← get_obj obj;
  mret (obj_userData o).

(** ** Connections (connection.cpp) *)

(** [FreezeNodeRoleMapping(obj->policyCtx)]. *)
Definition freeze_mapping (ctx : Z) : M unit :=
  if ctx =? nullptr then mret tt
  else upd_ctx ctx (fun c => default c (FreezeNodeRoleMapping (Some c))).

(** [SCF_Connect] and [SCF_Accept] differ in the adaptor method. *)
Definition establish (obj : Z) (method : Z -> M Z) : M Z :=
  return_if obj =? nullptr with (mret SCF_ERRNO_NULL_INPUT) ;;
  o ← get_obj obj;
  return_if obj_role o =? SCF_ROLE_NONE with (mret SCF_ERRNO_NULL_INPUT) ;;
  CHECK_RET (
    ret ← method obj;
    return_if ret =? SCF_SUCCESS
      with (o ← get_obj obj;
            _ ← freeze_mapping (obj_policyCtx o);
            mret SCF_SUCCESS) ;;
    mret ret).

Definition SCF_Connect (obj : Z) : M Z := establish obj a_Connect.
Definition SCF_Accept (obj : Z) : M Z := establish obj a_Accept.

Definition SCF_Close (obj : Z) : M Z :=
  return_if obj =? nullptr with (mret SCF_SUCCESS) ;;
  o ← get_obj obj;
  return_if obj_sslCtx o =? nullptr with (mret SCF_SUCCESS) ;;
  CHECK_RET (a_Close obj).

(** The code and [*readLen] when it was written; [outs]: [readLen] is not null. *)
Definition SCF_Read (obj data dataLen : Z) (outs : bool) : M (Z * option Z) :=
  return_if (obj =? nullptr) || (data =? nullptr) || (dataLen =? 0) || negb outs
    with (mret (SCF_ERRNO_INVALID_PARAM, None)) ;;
  o ← get_obj obj;
  return_if obj_role o =? SCF_ROLE_NONE with (mret (SCF_ERRNO_INVALID_PARAM, None)) ;;
  CHECK_SCF_INIT (SCF_ERRNO_NOT_INIT, None) (
    CHECK_SCF_ADAPTOR (SCF_ERRNO_INVALID_PARAM, None) (a_Read obj data dataLen)).

Definition SCF_Write (obj data dataLen : Z) (outs : bool) : M (Z * option Z) :=
  return_if (obj =? nullptr) || (data =? nullptr) || (dataLen =? 0) || negb outs
    with (mret (SCF_ERRNO_INVALID_PARAM, None)) ;;
  o ← get_obj obj;
  return_if obj_role o =? SCF_ROLE_NONE with (mret (SCF_ERRNO_INVALID_PARAM, None)) ;;
  CHECK_SCF_INIT (SCF_ERRNO_NOT_INIT, None) (
    CHECK_SCF_ADAPTOR (SCF_ERRNO_INVALID_PARAM, None) (
      res ← a_Write obj data dataLen;
      let '(ret, writeLen) := res in
      return_if negb (ret =? SCF_SUCCESS) with (mret (ret, writeLen)) ;;
      o ← get_obj obj;
      return_if obj_policyCtx o =? nullptr with (mret (ret, writeLen)) ;;
      c ← get_ctx (obj_policyCtx o);
      return_if negb (ctx_isNeedKeyUpdate c) with (mret (ret, writeLen)) ;;
      need ← CheckNeedKeyUpdate obj (default 0 writeLen);
      return_if (need.1 =? SCF_SUCCESS) && need.2
        with (ret ← a_KeyUpdate obj KEY_UPDATE_NOT_REQUESTED; mret (ret, writeLen)) ;;
      mret (need.1, writeLen))).
End conn.
