(* ===== verification/Lifecycle.v ===== *)
(** * Lifetime of contexts and objects

    Reference counting and initialisation over whole histories of API calls. The
    abstract state keeps the reference count of each live context and the context of
    each live object; a client owns the handles [SCF_CreatePolicyCtx] gave it until it
    frees them. A client that passes live handles only never reaches a fault, a context
    is alive exactly while somebody refers to it, and the three initialisation flags of
    the process always agree. *)
From Stdlib Require Import ZArith Lia Ascii String.
From stdpp Require Import base list fin_maps gmap strings.
From S2P Require Import Prelude Errno Types FileCheck FileCtx Machine OpenSSL.
From S2P Require Import Adaptor Api Conn.
Open Scope Z_scope.

(** ** Abstract reference counting *)

Record Life : Type := mkLife {
  l_cnt : gmap Z Z;      (* reference count of each live context *)
  l_ref : gmap Z Z;      (* the context of each live object *)
  l_next : Z;
  l_init : bool; l_tls : bool; l_adaptor : bool
}.

Definition life_of (w : World) : Life :=
  mkLife (ctx_refCnt <$> w_ctxs w) (obj_policyCtx <$> w_objs w) (w_next w)
    (w_scfInitialized w) (w_isTlsInit w) (w_adaptor w).

Lemma life_frame_of w w' : life_frame w w' <-> life_of w' = life_of w.
Proof.
  split.
  - intros [??????]. unfold life_of. by f_equal.
  - intros Heq. split.
    + exact (f_equal l_cnt Heq).
    + exact (f_equal l_ref Heq).
    + exact (f_equal l_next Heq).
    + exact (f_equal l_init Heq).
    + exact (f_equal l_tls Heq).
    + exact (f_equal l_adaptor Heq).
Qed.

(** The number of live objects of context [p]. *)
Definition refs (m : gmap Z Z) (p : Z) : Z := Z.of_nat (size (filter (fun kv => kv.2 = p) m)).

Record life_inv (owned : gset Z) (l : Life) : Prop := {
  li_tls : l_tls l = l_init l;
  li_adaptor : l_adaptor l = l_init l;
  li_cnt : forall p n, l_cnt l !! p = Some n ->
    n = (if decide (p ∈ owned) then 1 else 0) + refs (l_ref l) p /\ 1 <= n <= UINT32_MAX;
  li_ref : forall o p, l_ref l !! o = Some p -> is_Some (l_cnt l !! p);
  li_owned : forall p, p ∈ owned -> is_Some (l_cnt l !! p);
  li_ctx_addr : forall p, is_Some (l_cnt l !! p) -> 0 < p < l_next l;
  li_obj_addr : forall o, is_Some (l_ref l !! o) -> 0 < o < l_next l;
  li_next : 0 < l_next l
}.

Lemma refs_nonneg m p : 0 <= refs m p.
Proof. unfold refs. lia. Qed.

Lemma refs_insert m o q p :
  m !! o = None -> refs (<[o := q]> m) p = refs m p + (if decide (q = p) then 1 else 0).
Proof.
  intros Hl. unfold refs. destruct (decide (q = p)) as [->|Hne].
  - rewrite map_filter_insert_True by done. rewrite map_size_insert_None; [lia|].
    apply map_lookup_filter_None. by left.
  - rewrite map_filter_insert_not' by (simpl; intros; congruence). lia.
Qed.

Lemma refs_delete m o q p :
  m !! o = Some q -> refs (delete o m) p = refs m p - (if decide (q = p) then 1 else 0).
Proof.
  intros Hl. rewrite <- (insert_delete_id m o q Hl) at 2.
  rewrite refs_insert by apply lookup_delete_eq. lia.
Qed.

Lemma refs_positive m o p : m !! o = Some p -> 1 <= refs m p.
Proof.
  intros Hl. pose proof (refs_delete m o p p Hl). pose proof (refs_nonneg (delete o m) p).
  rewrite decide_True in * by done. lia.
Qed.

(** The abstract transitions. *)
Definition life_set_cnt (m : gmap Z Z) (l : Life) : Life :=
  mkLife m (l_ref l) (l_next l) (l_init l) (l_tls l) (l_adaptor l).
Definition life_set_ref (m : gmap Z Z) (l : Life) : Life :=
  mkLife (l_cnt l) m (l_next l) (l_init l) (l_tls l) (l_adaptor l).
Definition life_set_next (n : Z) (l : Life) : Life :=
  mkLife (l_cnt l) (l_ref l) n (l_init l) (l_tls l) (l_adaptor l).
Definition life_set_flags (b : bool) (l : Life) : Life :=
  mkLife (l_cnt l) (l_ref l) (l_next l) b b b.

(** Drop one reference to context [p] with count [n]. *)
Definition release (p n : Z) (l : Life) : Life :=
  life_set_cnt (if n =? 1 then delete p (l_cnt l) else <[p := n - 1]> (l_cnt l)) l.

Lemma release_lookup p n l q m :
  l_cnt (release p n l) !! q = Some m ->
  (q = p /\ n <> 1 /\ m = n - 1) \/ (q <> p /\ l_cnt l !! q = Some m).
Proof.
  unfold release. simpl. destruct (n =? 1) eqn:E; bools.
  - rewrite lookup_delete_Some. intros [? ?]. by right.
  - rewrite lookup_insert_Some. intros [[<- <-]|[? ?]]; [by left|by right].
Qed.

Lemma release_alive p n l q :
  q <> p \/ n <> 1 -> is_Some (l_cnt l !! q) -> is_Some (l_cnt (release p n l) !! q).
Proof.
  unfold release. simpl. intros Hq Hl. destruct (n =? 1) eqn:E; bools.
  - destruct Hq as [Hq|]; [|done]. rewrite lookup_delete_ne; [done|congruence].
  - destruct (decide (q = p)) as [->|Hne]; [rewrite lookup_insert_eq; eauto|].
    rewrite lookup_insert_ne; [done|congruence].
Qed.

Lemma inv_new_ctx owned l :
  life_inv owned l ->
  life_inv ({[l_next l]} ∪ owned)
    (life_set_next (l_next l + 1) (life_set_cnt (<[l_next l := 1]> (l_cnt l)) l)).
Proof.
  intros [Ht Ha Hc Hr Ho Hca Hoa Hn].
  assert (Hfresh : forall p, is_Some (l_cnt l !! p) -> p <> l_next l)
    by (intros p Hp; apply Hca in Hp; lia).
  assert (Hnoref : refs (l_ref l) (l_next l) = 0).
  { unfold refs. replace (filter _ _) with (∅ : gmap Z Z); [by rewrite map_size_empty|].
    symmetry. apply map_empty. intros o. apply map_lookup_filter_None. right.
    intros p Hp Heq. simpl in Heq. subst p. by apply Hr, Hfresh in Hp. }
  split; simpl; try done.
  - intros p n. rewrite lookup_insert_Some. intros [[<- <-]|[Hne Hl]].
    + rewrite decide_True by set_solver. rewrite Hnoref. unfold UINT32_MAX. lia.
    + destruct (Hc _ _ Hl) as [-> ?]. split; [|done]. f_equal.
      destruct (decide (p ∈ owned)); [by rewrite decide_True by set_solver|].
      by rewrite decide_False by set_solver.
  - intros o p Hp. destruct (decide (p = l_next l)) as [->|]; [rewrite lookup_insert_eq; eauto|].
    rewrite lookup_insert_ne by done. by apply Hr in Hp.
  - intros p Hp. destruct (decide (p = l_next l)) as [->|]; [rewrite lookup_insert_eq; eauto|].
    rewrite lookup_insert_ne by done. apply Ho. set_solver.
  - intros p. destruct (decide (p = l_next l)) as [->|]; [lia|].
    rewrite lookup_insert_ne by done. intros Hp. apply Hca in Hp. lia.
  - intros o Hp. apply Hoa in Hp. lia.
  - lia.
Qed.

Lemma inv_new_obj owned l p n :
  life_inv owned l -> l_cnt l !! p = Some n -> n < UINT32_MAX ->
  life_inv owned
    (life_set_next (l_next l + 1)
      (life_set_ref (<[l_next l := p]> (l_ref l)) (life_set_cnt (<[p := n + 1]> (l_cnt l)) l))).
Proof.
  intros [Ht Ha Hc Hr Ho Hca Hoa Hn] Hp Hmax.
  assert (Hfresh : l_ref l !! l_next l = None).
  { destruct (l_ref l !! l_next l) eqn:E; [|done]. exfalso.
    assert (is_Some (l_ref l !! l_next l)) as Hs by eauto. apply Hoa in Hs. lia. }
  assert (Hkeep : forall q, is_Some (l_cnt l !! q) -> is_Some (<[p := n + 1]> (l_cnt l) !! q)).
  { intros q Hq. destruct (decide (q = p)) as [->|]; [rewrite lookup_insert_eq; eauto|].
    by rewrite lookup_insert_ne by done. }
  split; simpl; try done.
  - intros q m Hl. rewrite refs_insert by done.
    apply lookup_insert_Some in Hl as [[<- <-]|[Hne Hl]].
    + rewrite (decide_True (P := p = p)) by done. destruct (Hc _ _ Hp) as [Heq ?]. lia.
    + rewrite (decide_False (P := p = q)) by done. destruct (Hc _ _ Hl) as [-> ?]. lia.
  - intros o q. rewrite lookup_insert_Some. intros [[<- <-]|[_ Hl]]; apply Hkeep; [eauto|by apply Hr in Hl].
  - intros q Hq. by apply Hkeep, Ho.
  - intros q Hq. destruct (decide (q = p)) as [->|].
    + assert (is_Some (l_cnt l !! p)) as Hs by eauto. apply Hca in Hs. lia.
    + rewrite lookup_insert_ne in Hq by done. apply Hca in Hq. lia.
  - intros o. destruct (decide (o = l_next l)) as [->|]; [lia|].
    rewrite lookup_insert_ne by done. intros Hq. apply Hoa in Hq. lia.
  - lia.
Qed.

Lemma inv_free_ctx owned l p n :
  life_inv owned l -> p ∈ owned -> l_cnt l !! p = Some n ->
  life_inv (owned ∖ {[p]}) (release p n l).
Proof.
  intros [Ht Ha Hc Hr Ho Hca Hoa Hn] Hp Hl.
  destruct (Hc _ _ Hl) as [Heq Hb]. rewrite decide_True in Heq by done.
  split; try done.
  - intros q m Hq. apply release_lookup in Hq as [(-> & Hn1 & ->)|[Hne Hq]].
    + rewrite decide_False by set_solver. simpl. lia.
    + destruct (Hc _ _ Hq) as [-> ?]. split; [|done]. simpl. f_equal.
      destruct (decide (q ∈ owned)); [by rewrite decide_True by set_solver|].
      by rewrite decide_False by set_solver.
  - intros o q Hq. simpl in Hq. apply release_alive; [|by eapply Hr].
    destruct (decide (q = p)) as [->|]; [|by left]. right. apply refs_positive in Hq. lia.
  - intros q Hq. apply release_alive; [left; set_solver|]. apply Ho. set_solver.
  - intros q [m Hq]. apply release_lookup in Hq as [(-> & _)|[_ Hq]]; apply Hca; eauto.
Qed.

Lemma inv_free_obj owned l o p n :
  life_inv owned l -> l_ref l !! o = Some p -> l_cnt l !! p = Some n ->
  life_inv owned (life_set_ref (delete o (l_ref l)) (release p n l)).
Proof.
  intros [Ht Ha Hc Hr Ho Hca Hoa Hn] Hop Hl.
  pose proof (refs_positive _ _ _ Hop) as Hpos.
  destruct (Hc _ _ Hl) as [Heq Hb].
  split; try done.
  - intros q m Hq. simpl. rewrite (refs_delete _ _ _ _ Hop).
    apply release_lookup in Hq as [(-> & Hn1 & ->)|[Hne Hq]].
    + rewrite (decide_True (P := p = p)) by done. lia.
    + rewrite (decide_False (P := p = q)) by congruence.
      destruct (Hc _ _ Hq) as [-> ?]. lia.
  - intros o' q Hq. simpl in Hq. apply lookup_delete_Some in Hq as [Hne Hq].
    apply release_alive; [|by eapply Hr].
    destruct (decide (q = p)) as [->|]; [|by left]. right. intros ->.
    assert (Hd : l_ref (life_set_ref (delete o (l_ref l)) l) !! o' = Some p)
      by (simpl; by rewrite lookup_delete_ne).
    apply refs_positive in Hd. simpl in Hd. rewrite (refs_delete _ _ _ _ Hop), decide_True in Hd by done.
    destruct (decide (p ∈ owned)); lia.
  - intros q Hq. apply release_alive; [|by apply Ho].
    destruct (decide (q = p)) as [->|]; [|by left]. right. intros ->.
    rewrite decide_True in Heq by done. lia.
  - intros q [m Hq]. apply release_lookup in Hq as [(-> & _)|[_ Hq]]; apply Hca; eauto.
  - intros o' [q Hq]. simpl in Hq. apply lookup_delete_Some in Hq as [_ Hq]. apply Hoa. eauto.
Qed.

(** ** Calls of the API *)

Inductive Call : Type :=
| CInit (flag : Z) (settings : option string)
| CDeInit
| CCreatePolicyCtx
| CFreePolicyCtx (ctx : Z)
| CCreatePolicyObj (ctx : Z)
| CFreePolicyObj (obj : Z)
| CSetPolicy (ctx role verifyMode policyMode : Z)
| CGetPolicy (ctx : Z) (outs : bool)
| CSetAppVerifyCallback (ctx cb arg : Z)
| CSetCipherSuites (ctx : Z) (cipherSuites : option (list Z))
| CGetCipherSuites (ctx : Z) (data : option (list Z)) (dataLen : Z) (outs : bool)
| CSetProtocolVersion (ctx minVersion maxVersion : Z) (forbid : option (list Z))
| CGetProtocolVersion (obj : Z)
| CAddCert (ctx : Z) (cert : option SCFFileCtx) (type : Z)
| CSetKey (ctx : Z) (key : option SCFFileCtx)
| CCheckPrivateKey (ctx : Z)
| CSetPskFindSessionCallback (ctx cb : Z)
| CSetPskUseSessionCallback (ctx cb : Z)
| CSetKeyAutoUpdateParam (ctx : Z) (need : bool) (time traffic : Z)
| CGetKeyAutoUpdateParam (ctx : Z) (need : bool) (time traffic : Z)
| CGetKeyUpdateInfo (obj : Z) (outs : bool)
| CObjKeyUpdate (obj : Z)
| CSetFd (obj fd : Z)
| CGetCurrentCert (obj : Z)
| CGetPeerCert (obj : Z)
| CSetUserData (obj userData : Z)
| CGetUserData (obj : Z)
| CCipherFind (obj : Z) (id : option (list ascii))
| CConnect (obj : Z)
| CAccept (obj : Z)
| CClose (obj : Z)
| CRead (obj data dataLen : Z) (outs : bool)
| CWrite (obj data dataLen : Z) (outs : bool).

(** The context and the object a call is given. *)
Definition call_ctx (c : Call) : option Z :=
  match c with
  | CFreePolicyCtx p | CCreatePolicyObj p | CSetPolicy p _ _ _ | CGetPolicy p _
  | CSetAppVerifyCallback p _ _ | CSetCipherSuites p _ | CGetCipherSuites p _ _ _
  | CSetProtocolVersion p _ _ _ | CAddCert p _ _ | CSetKey p _ | CCheckPrivateKey p
  | CSetPskFindSessionCallback p _ | CSetPskUseSessionCallback p _
  | CSetKeyAutoUpdateParam p _ _ _ | CGetKeyAutoUpdateParam p _ _ _ => Some p
  | _ => None
  end.
Definition call_obj (c : Call) : option Z :=
  match c with
  | CFreePolicyObj o | CGetProtocolVersion o | CGetKeyUpdateInfo o _ | CObjKeyUpdate o
  | CSetFd o _ | CGetCurrentCert o | CGetPeerCert o | CSetUserData o _ | CGetUserData o
  | CCipherFind o _ | CConnect o | CAccept o | CClose o | CRead o _ _ _ | CWrite o _ _ _ => Some o
  | _ => None
  end.

(** A client that passes null or live handles, uses only the contexts it owns, does not
    create the 2^32-th object of one context, and loads certificates one by one (reading a
    chain ends when OpenSSL's reader does, see [LoadCaChain]). *)
Definition disciplined (owned : gset Z) (w : World) (c : Call) : Prop :=
  (forall p, call_ctx c = Some p -> p <> nullptr -> p ∈ owned) /\
  (forall o, call_obj c = Some o -> o <> nullptr -> obj_there o w) /\
  (forall p x, c = CCreatePolicyObj p -> w_ctxs w !! p = Some x -> ctx_refCnt x < UINT32_MAX) /\
  (forall p fc t, c = CAddCert p fc t -> t <> SCF_CERT_TYPE_EE_CHAIN).

(** The contexts the client owns after a call that answered [r]: a context it created is
    its own until it frees it. *)
Definition own_after (owned : gset Z) (w : World) (c : Call) (r : Z) : gset Z :=
  match c with
  | CCreatePolicyCtx => if r =? nullptr then owned else {[r]} ∪ owned
  | CFreePolicyCtx p =>
      if w_scfInitialized w && w_adaptor w then owned ∖ {[p]} else owned
  | _ => owned
  end.

Section calls.
Context `{Library} {A : TlsAdaptor} `{SecureC} `{Decryptor}.

Definition discard {X} (m : M X) : M Z := _ ← m; mret 0.

Definition exec (c : Call) : M Z :=
  match c with
  | CInit flag settings => SCF_Init flag settings
  | CDeInit => discard SCF_DeInit
  | CCreatePolicyCtx => SCF_CreatePolicyCtx
  | CFreePolicyCtx ctx => SCF_FreePolicyCtx ctx
  | CCreatePolicyObj ctx => SCF_CreatePolicyObj ctx
  | CFreePolicyObj obj => SCF_FreePolicyObj obj
  | CSetPolicy ctx role v p => SCF_SetPolicy ctx role v p
  | CGetPolicy ctx outs => discard (SCF_GetPolicy ctx outs)
  | CSetAppVerifyCallback ctx cb arg => SCF_SetAppVerifyCallback ctx cb arg
  | CSetCipherSuites ctx s => SCF_SetCipherSuites ctx s
  | CGetCipherSuites ctx d n outs => discard (SCF_GetCipherSuites ctx d n outs)
  | CSetProtocolVersion ctx lo hi vs => SCF_SetProtocolVersion ctx lo hi vs
  | CGetProtocolVersion obj => discard (SCF_GetProtocolVersion obj)
  | CAddCert ctx fc t => SCF_AddCert ctx fc t
  | CSetKey ctx k => SCF_SetKey ctx k
  | CCheckPrivateKey ctx => SCF_CheckPrivateKey ctx
  | CSetPskFindSessionCallback ctx cb => SCF_SetPskFindSessionCallback ctx cb
  | CSetPskUseSessionCallback ctx cb => SCF_SetPskUseSessionCallback ctx cb
  | CSetKeyAutoUpdateParam ctx b t n => SCF_SetKeyAutoUpdateParam ctx b t n
  | CGetKeyAutoUpdateParam ctx b t n => discard (SCF_GetKeyAutoUpdateParam ctx b t n)
  | CGetKeyUpdateInfo obj outs => discard (SCF_GetKeyUpdateInfo obj outs)
  | CObjKeyUpdate obj => SCF_ObjKeyUpdate obj
  | CSetFd obj fd => SCF_SetFd obj fd
  | CGetCurrentCert obj => SCF_GetCurrentCert obj
  | CGetPeerCert obj => SCF_GetPeerCert obj
  | CSetUserData obj d => SCF_SetUserData obj d
  | CGetUserData obj => SCF_GetUserData obj
  | CCipherFind obj id => SCF_CipherFind obj id
  | CConnect obj => SCF_Connect obj
  | CAccept obj => SCF_Accept obj
  | CClose obj => SCF_Close obj
  | CRead obj d n outs => discard (SCF_Read obj d n outs)
  | CWrite obj d n outs => discard (SCF_Write obj d n outs)
  end.

(** The process before the first call, and the histories of a disciplined client. *)
Definition world0 : World := mkWorld [] ∅ ∅ 1 false false false false 0.

Inductive reach : gset Z -> World -> Prop :=
| reach_start : reach ∅ world0
| reach_call owned w c r w' :
    reach owned w -> disciplined owned w c -> exec c w = Some (r, w') ->
    reach (own_after owned w c r) w'.
End calls.

(** ** Handlers that neither create nor free *)

(** Null, or live. *)
Definition ctx_arg (p : Z) (w : World) : Prop := p <> nullptr -> live_ctx p w.
Definition obj_arg (p : Z) (w : World) : Prop := p <> nullptr -> live_obj p w.

#[export] Instance stable_ctx_arg p : Stable (ctx_arg p).
Proof. intros w w' Hf Hp Hn. by apply (stable_live_ctx _ _ _ Hf), Hp. Qed.
#[export] Instance stable_obj_arg p : Stable (obj_arg p).
Proof. intros w w' Hf Hp Hn. by apply (stable_live_obj _ _ _ Hf), Hp. Qed.

(** Solve the liveness side conditions from the null checks of the handler. *)
Ltac arg_live := intros; bools; unfold ctx_arg, obj_arg in *;
  repeat match goal with H : _ /\ _ |- _ => destruct H end;
  solve [assumption | eauto | match goal with H : _ |- _ => by apply H end].

Section handlers.
Context `{Library} {A : TlsAdaptor} `{!TlsAdaptorSafe A} `{SecureC} `{Decryptor}.

(** An adaptor method on a handle the handler has checked. *)
Lemma safe_method {X} (P Q : World -> Prop) (m : M X) :
  safe world_frame Q m -> (forall w, P w -> Q w) -> safe policy_frame P m.
Proof. intros Hm HPQ. apply (safe_weaken P Q); [done|]. by apply safe_policy. Qed.

(** The same for the coarser frame. *)
Lemma safe_method_life {X} (P Q : World -> Prop) (m : M X) :
  safe world_frame Q m -> (forall w, P w -> Q w) -> safe life_frame P m.
Proof. intros Hm HPQ. by eapply safe_life, safe_method. Qed.
End handlers.

Ltac method_law l :=
  first [eapply safe_method | eapply safe_method_life]; [apply l; try apply _ | arg_live].

Ltac handler_step :=
  match goal with
  | |- safe _ _ (if ?b then _ else _) => destruct b eqn:?
  | |- safe _ _ (match ?x with _ => _ end) => destruct x
  | |- safe _ _ (get_ctx _ ≫= _) => apply safe_get_ctx; [arg_live | intro]
  | |- safe _ _ (get_obj _ ≫= _) => apply safe_get_obj; [arg_live | intro]
  | |- safe _ _ (upd_ctx _ _) =>
      apply safe_upd_ctx; [arg_live | intros; eapply frame_set_ctx; [eassumption | done]]
  | |- safe _ _ (upd_obj _ _) =>
      apply safe_upd_obj; [intros; apply live_obj_there; arg_live
                          | intros; eapply frame_set_obj; [eassumption | done]]
  | |- safe _ _ (a_InitPolicyByMode _) => method_law safe_a_InitPolicyByMode
  | |- safe _ _ (a_SetVerifyMode _ _) => method_law safe_a_SetVerifyMode
  | |- safe _ _ (a_SetAppVerifyCallback _ _ _) => method_law safe_a_SetAppVerifyCallback
  | |- safe _ _ (a_SetCipherSuites _ _) => method_law safe_a_SetCipherSuites
  | |- safe _ _ (a_GetCipherSuites _ _ _) => method_law safe_a_GetCipherSuites
  | |- safe _ _ (a_SetProtocolVersion _ _ _ _) => method_law safe_a_SetProtocolVersion
  | |- safe _ _ (a_GetVersion _) => method_law safe_a_GetVersion
  | |- safe _ _ (a_AddCert _ _ _) =>
      first [eapply safe_method | eapply safe_method_life];
        [apply safe_a_AddCert; first [assumption | apply _] | arg_live]
  | |- safe _ _ (a_SetKey _ _) => method_law safe_a_SetKey
  | |- safe _ _ (a_CheckPrivateKey _) => method_law safe_a_CheckPrivateKey
  | |- safe _ _ (a_SetPskFindSessionCallback _ _) => method_law safe_a_SetPskFindSessionCallback
  | |- safe _ _ (a_SetPskUseSessionCallback _ _) => method_law safe_a_SetPskUseSessionCallback
  | |- safe _ _ (a_KeyUpdate _ _) => method_law safe_a_KeyUpdate
  | |- safe _ _ (a_SetFd _ _) => method_law safe_a_SetFd
  | |- safe _ _ (a_GetCurrentCert _) => method_law safe_a_GetCurrentCert
  | |- safe _ _ (a_GetPeerCert _) => method_law safe_a_GetPeerCert
  | |- safe _ _ (a_CipherFind _ _) => method_law safe_a_CipherFind
  | |- safe _ _ (a_Connect _) => method_law safe_a_Connect
  | |- safe _ _ (a_Accept _) => method_law safe_a_Accept
  | |- safe _ _ (a_Close _) => method_law safe_a_Close
  | |- safe _ _ (a_Read _ _ _) => method_law safe_a_Read
  | |- safe _ _ (a_Write _ _ _) => method_law safe_a_Write
  | |- _ => safe_step
  end.
Ltac handler :=
  unfold discard, CHECK_RET, CHECK_READY, CHECK_SCF_INIT, CHECK_SCF_ADAPTOR, sys_time;
  repeat handler_step.

(** The calls whose effect on the abstract state is not the identity. *)
Definition lifetime_call (c : Call) : bool :=
  match c with
  | CInit _ _ | CDeInit | CCreatePolicyCtx | CFreePolicyCtx _ | CCreatePolicyObj _
  | CFreePolicyObj _ => true
  | _ => false
  end.

Definition args_ok (c : Call) (w : World) : Prop :=
  (forall p, call_ctx c = Some p -> ctx_arg p w) /\ (forall o, call_obj c = Some o -> obj_arg o w) /\
  (forall p fc t, c = CAddCert p fc t -> t <> SCF_CERT_TYPE_EE_CHAIN).

Section use_calls.
Context `{Library} {A : TlsAdaptor} `{!TlsAdaptorSafe A} `{SecureC} `{Decryptor}.

Lemma safe_CheckNeedKeyUpdate P `{!Stable P} obj n :
  (forall w, P w -> live_obj obj w) -> safe policy_frame P (CheckNeedKeyUpdate obj n).
Proof. intros HP. unfold CheckNeedKeyUpdate, CheckTimeInterval. handler. Qed.

Lemma safe_establish obj (method : Z -> M Z) :
  (forall o, safe world_frame (live_obj o) (method o)) ->
  safe policy_frame (obj_arg obj) (establish obj method).
Proof.
  intros Hm. unfold establish, freeze_mapping. handler. method_law Hm.
Qed.

(** The only one of these calls that sets the policy. *)
Definition sets_policy (c : Call) : bool :=
  match c with CSetPolicy _ _ _ _ => true | _ => false end.

Lemma safe_SetPolicy p role v m :
  safe life_frame (ctx_arg p) (SCF_SetPolicy p role v m).
Proof. unfold SCF_SetPolicy. handler. Qed.

(** One case per handler. *)
Lemma safe_use_ctx c p :
  lifetime_call c = false -> sets_policy c = false -> call_ctx c = Some p ->
  (forall p fc t, c = CAddCert p fc t -> t <> SCF_CERT_TYPE_EE_CHAIN) ->
  safe policy_frame (ctx_arg p) (exec c).
Proof.
  intros Hc Hs Hp Ht. destruct c; try discriminate; injection Hp as ->; unfold exec;
    unfold SCF_GetPolicy, SCF_SetAppVerifyCallback, SCF_SetCipherSuites,
      SCF_GetCipherSuites, SCF_SetProtocolVersion, SCF_AddCert, SCF_SetKey,
      SCF_CheckPrivateKey, SCF_SetPskFindSessionCallback, SCF_SetPskUseSessionCallback,
      SCF_SetKeyAutoUpdateParam, SCF_GetKeyAutoUpdateParam; try specialize (Ht _ _ _ eq_refl);
    handler.
Qed.

Lemma safe_SCF_Write obj d n outs : safe policy_frame (obj_arg obj) (SCF_Write obj d n outs).
Proof.
  unfold SCF_Write. handler. apply safe_CheckNeedKeyUpdate; [apply _|arg_live].
Qed.

Lemma safe_use_obj c o :
  lifetime_call c = false -> call_obj c = Some o -> safe policy_frame (obj_arg o) (exec c).
Proof.
  intros Hc Ho. destruct c; try discriminate; injection Ho as ->; unfold exec;
    try (by apply safe_establish; intros; first [apply safe_a_Connect | apply safe_a_Accept]);
    try (unfold discard; apply safe_bind; [apply _|apply safe_SCF_Write|intro; apply safe_ret]);
    unfold SCF_GetProtocolVersion, SCF_GetKeyUpdateInfo, SCF_ObjKeyUpdate, SCF_SetFd,
      SCF_GetCurrentCert, SCF_GetPeerCert, SCF_SetUserData, SCF_GetUserData, SCF_CipherFind,
      SCF_Close, SCF_Read; handler.
Qed.

Lemma safe_use_ctx_life c p :
  lifetime_call c = false -> call_ctx c = Some p ->
  (forall p fc t, c = CAddCert p fc t -> t <> SCF_CERT_TYPE_EE_CHAIN) ->
  safe life_frame (ctx_arg p) (exec c).
Proof.
  intros Hc Hp Ht. destruct (sets_policy c) eqn:Hs.
  - destruct c; try discriminate. injection Hp as ->. apply safe_SetPolicy.
  - by apply safe_life, safe_use_ctx.
Qed.

Lemma use_call_policy c w :
  lifetime_call c = false -> sets_policy c = false -> args_ok c w ->
  wp (exec c) (fun _ w' => policy_frame w w') w.
Proof.
  intros Hc Hs (Hctx & Hobj & Ht).
  destruct (call_ctx c) as [p|] eqn:Hp; [by apply (safe_use_ctx c p); [..|apply Hctx]|].
  destruct (call_obj c) as [o|] eqn:Ho; [by apply (safe_use_obj c o), Hobj|].
  by destruct c.
Qed.

Lemma use_call_safe c w :
  lifetime_call c = false -> args_ok c w -> wp (exec c) (fun _ w' => life_frame w w') w.
Proof.
  intros Hc Ha. destruct (sets_policy c) eqn:Hs.
  - destruct c; try discriminate. apply safe_SetPolicy. by apply (proj1 Ha).
  - eapply wp_mono; [by apply use_call_policy|]. intros r w'. apply policy_life.
Qed.
End use_calls.

(** ** Handlers that create and free *)

Definition life_step (f : Life -> Life) (w w' : World) : Prop := life_of w' = f (life_of w).

Section lifetime_calls.
Context `{Library} {A : TlsAdaptor} `{!TlsAdaptorSafe A} `{SecureC} `{Decryptor}.

Lemma life_of_safe {X} P (m : M X) w :
  safe world_frame P m -> P w -> wp m (fun _ w' => life_of w' = life_of w) w.
Proof.
  intros Hm HP. eapply wp_mono; [by apply Hm|]. intros a w' Hf.
  by apply life_frame_of, world_life.
Qed.

Lemma wp_ready {X} (r : X) k Q w :
  (w_scfInitialized w = true -> w_adaptor w = true -> wp k Q w) ->
  (w_scfInitialized w && w_adaptor w = false -> Q r w) -> wp (CHECK_READY r k) Q w.
Proof.
  intros Hk Hr. unfold CHECK_READY, CHECK_SCF_INIT, CHECK_SCF_ADAPTOR.
  apply wp_bind, wp_gets. destruct (w_scfInitialized w); [|by apply Hr].
  apply wp_bind, wp_gets. destruct (w_adaptor w); [by apply Hk|by apply Hr].
Qed.

Lemma wp_delete_ctx p (Q : unit -> World -> Prop) w :
  live_ctx p w -> Q tt (set_ctxs (delete p (w_ctxs w)) w) -> wp (delete_ctx p) Q w.
Proof. intros [c Hc] HQ. unfold wp, delete_ctx. by rewrite Hc. Qed.

Lemma wp_delete_obj p (Q : unit -> World -> Prop) w :
  obj_there p w -> Q tt (set_objs (delete p (w_objs w)) w) -> wp (delete_obj p) Q w.
Proof. intros [c Hc] HQ. unfold wp, delete_obj. by rewrite Hc. Qed.

Lemma life_of_set_ctxs m w : life_of (set_ctxs m w) = life_set_cnt (ctx_refCnt <$> m) (life_of w).
Proof. done. Qed.

Lemma life_of_set_objs m w :
  life_of (set_objs m w) = life_set_ref (obj_policyCtx <$> m) (life_of w).
Proof. done. Qed.

Lemma life_ctx w p n : l_cnt (life_of w) !! p = Some n <->
  exists c, w_ctxs w !! p = Some c /\ ctx_refCnt c = n.
Proof.
  simpl. rewrite lookup_fmap_Some. split; intros (c & ? & ?); exists c; done.
Qed.

Lemma life_obj w o p : l_ref (life_of w) !! o = Some p <->
  exists x, w_objs w !! o = Some x /\ obj_policyCtx x = p.
Proof.
  simpl. rewrite lookup_fmap_Some. split; intros (c & ? & ?); exists c; done.
Qed.

Lemma wp_SCF_FreePolicyCtx ctx c w (Q : Z -> World -> Prop) :
  ctx <> nullptr -> w_ctxs w !! ctx = Some c -> 1 <= ctx_refCnt c ->
  w_scfInitialized w = true -> w_adaptor w = true ->
  (forall r w', life_of w' = release ctx (ctx_refCnt c) (life_of w) -> Q r w') ->
  wp (SCF_FreePolicyCtx ctx) Q w.
Proof.
  intros Hnn Hl Hn Hi Ha HQ. unfold SCF_FreePolicyCtx.
  destruct (ctx =? nullptr) eqn:E; bools; [done|].
  apply wp_ready; [intros _ _|by rewrite Hi, Ha].
  apply wp_bind. eapply wp_get_ctx; [done|].
  destruct (ctx_refCnt c =? 0) eqn:E0; bools; [lia|].
  apply wp_bind. eapply wp_upd_ctx; [done|].
  set (w1 := set_ctxs _ w).
  assert (Hw1 : life_of w1 = life_set_cnt (<[ctx := ctx_refCnt c - 1]> (l_cnt (life_of w))) (life_of w))
    by (unfold life_of, life_set_cnt; simpl; by rewrite fmap_insert).
  destruct (1 <? ctx_refCnt c) eqn:E1; bools.
  - apply wp_ret, HQ. rewrite Hw1. unfold release.
    by destruct (ctx_refCnt c =? 1) eqn:E2; bools; [lia|].
  - assert (ctx_refCnt c = 1) as Hone by lia.
    apply wp_bind. eapply wp_mono.
    { apply (life_of_safe (live_ctx ctx)); [apply safe_a_FreeSsl|].
      eexists. apply lookup_insert_eq. }
    intros [] w2 Hw2. simpl in Hw2. rewrite Hw1 in Hw2.
    assert (Hlive : live_ctx ctx w2).
    { apply (f_equal l_cnt) in Hw2. apply (f_equal (lookup ctx)) in Hw2. simpl in Hw2.
      rewrite lookup_insert_eq, lookup_fmap_Some in Hw2. destruct Hw2 as (x & _ & ?). by exists x. }
    apply wp_bind, wp_delete_ctx; [done|]. apply wp_ret, HQ.
    rewrite life_of_set_ctxs, fmap_delete. change (ctx_refCnt <$> w_ctxs w2) with (l_cnt (life_of w2)).
    rewrite Hw2. unfold release. rewrite Hone, Z.eqb_refl. simpl.
    by rewrite delete_insert_eq.
Qed.

Lemma wp_SCF_FreePolicyObj o x c w (Q : Z -> World -> Prop) :
  o <> nullptr -> w_objs w !! o = Some x -> obj_policyCtx x <> nullptr ->
  w_ctxs w !! obj_policyCtx x = Some c -> 1 <= ctx_refCnt c ->
  w_scfInitialized w = true -> w_adaptor w = true ->
  (forall r w', life_of w' = life_set_ref (delete o (l_ref (life_of w)))
                  (release (obj_policyCtx x) (ctx_refCnt c) (life_of w)) -> Q r w') ->
  wp (SCF_FreePolicyObj o) Q w.
Proof.
  intros Hnn Hx Hp Hc Hn Hi Ha HQ. unfold SCF_FreePolicyObj.
  destruct (o =? nullptr) eqn:E; bools; [done|].
  apply wp_ready; [intros _ _|by rewrite Hi, Ha].
  apply wp_bind. eapply wp_get_obj; [done|].
  apply wp_bind. eapply wp_SCF_FreePolicyCtx; [done..|]. intros r w1 Hw1.
  assert (Ho1 : exists x1, w_objs w1 !! o = Some x1).
  { assert (Hr : l_ref (life_of w1) !! o = Some (obj_policyCtx x))
      by (rewrite Hw1; simpl; by rewrite lookup_fmap, Hx).
    apply life_obj in Hr as (x1 & ? & _). by exists x1. }
  destruct Ho1 as [x1 Hx1].
  apply wp_bind. eapply wp_upd_obj; [done|].
  apply wp_bind. eapply wp_mono.
  { apply (life_of_safe (obj_there o)); [apply safe_a_FreeSslObj|].
    eexists. apply lookup_insert_eq. }
  intros [] w2 Hw2. simpl in Hw2.
  apply wp_bind, wp_delete_obj.
  { apply (f_equal l_ref) in Hw2. apply (f_equal (lookup o)) in Hw2. simpl in Hw2.
    rewrite fmap_insert, lookup_insert_eq, lookup_fmap_Some in Hw2.
    destruct Hw2 as (x2 & _ & ?). by exists x2. }
  apply wp_ret, HQ.
  rewrite life_of_set_objs, fmap_delete.
  change (obj_policyCtx <$> w_objs w2) with (l_ref (life_of w2)).
  rewrite Hw2, life_of_set_objs. simpl. rewrite fmap_insert, delete_insert_eq.
  change (life_set_ref (delete o (l_ref (life_of w1))) (life_of w1)
          = life_set_ref (delete o (l_ref (life_of w)))
              (release (obj_policyCtx x) (ctx_refCnt c) (life_of w))).
  by rewrite Hw1.
Qed.

Lemma wp_SCF_CreatePolicyCtx w (Q : Z -> World -> Prop) :
  (forall w', life_of w' = life_of w -> Q nullptr w') ->
  (forall w', w_scfInitialized w && w_adaptor w = true ->
              life_of w' = life_set_next (w_next w + 1)
                (life_set_cnt (<[w_next w := 1]> (l_cnt (life_of w))) (life_of w)) ->
              Q (w_next w) w') ->
  wp SCF_CreatePolicyCtx Q w.
Proof.
  intros Hnone Hnew. unfold SCF_CreatePolicyCtx. apply wp_ready; [intros Hi Ha|by intros; apply Hnone].
  apply wp_bind, wp_lib. intros r _. destruct (r =? nullptr).
  - by apply wp_ret, Hnone.
  - apply Hnew; [by rewrite Hi, Ha|]. unfold life_of, life_set_next, life_set_cnt. simpl.
    by rewrite fmap_insert.
Qed.

Lemma wp_SCF_CreatePolicyObj ctx c w (Q : Z -> World -> Prop) :
  w_ctxs w !! ctx = Some c -> 0 <= ctx_refCnt c < UINT32_MAX ->
  (forall w', life_of w' = life_of w -> Q nullptr w') ->
  (forall w', life_of w' = life_set_next (w_next w + 1)
     (life_set_ref (<[w_next w := ctx]> (l_ref (life_of w)))
       (life_set_cnt (<[ctx := ctx_refCnt c + 1]> (l_cnt (life_of w))) (life_of w))) ->
     Q (w_next w) w') ->
  wp (SCF_CreatePolicyObj ctx) Q w.
Proof.
  intros Hl Hn Hnone Hnew. unfold SCF_CreatePolicyObj.
  destruct (ctx =? nullptr); [by apply wp_ret, Hnone|].
  unfold CHECK_SCF_INIT. apply wp_bind, wp_gets.
  destruct (w_scfInitialized w); [|by apply wp_ret, Hnone].
  unfold sys_time. apply wp_bind, wp_bind, wp_lib. intros st _.
  apply wp_bind, wp_gets, wp_ret. simpl.
  destruct (negb (st =? 0)); [by apply wp_ret, Hnone|].
  apply wp_bind, wp_lib. intros r _. destruct (r =? nullptr); [by apply wp_ret, Hnone|].
  apply wp_bind. eapply wp_upd_ctx; [done|].
  apply wp_bind. eapply wp_get_ctx; [apply lookup_insert_eq|].
  apply Hnew. unfold life_of, life_set_next, life_set_ref, life_set_cnt. simpl.
  rewrite !fmap_insert. cbn [obj_policyCtx new_policy_obj]. f_equal. f_equal.
  destruct c; simpl in *. apply wrap32_id. unfold is_u32, UINT32_MAX in *. lia.
Qed.

Definition flags (b : bool) (l : Life) : Prop :=
  l_init l = b /\ l_tls l = b /\ l_adaptor l = b.

Lemma wp_SCF_Init flag settings w (Q : Z -> World -> Prop) b :
  flags b (life_of w) ->
  (forall r w', life_of w' = life_of w -> Q r w') ->
  (forall w', life_of w' = life_set_flags true (life_of w) -> Q SCF_SUCCESS w') ->
  wp (SCF_Init flag settings) Q w.
Proof.
  intros (Hi & Ht & Ha) Hsame Hup. simpl in Hi, Ht, Ha.
  unfold SCF_Init. apply wp_bind, wp_gets. rewrite Hi.
  destruct b; [by apply wp_ret, Hsame|].
  destruct (flag =? SCF_INIT_FLAG_OPENSSL) eqn:Ef; cbn [negb]; [|by apply wp_ret, Hsame].
  apply wp_bind. unfold SCFInitInner. apply wp_bind, wp_gets. rewrite Hi.
  apply wp_bind. unfold RegisterTlsAdaptor. apply wp_bind, wp_gets. rewrite Ht, Ef.
  apply wp_bind. eapply wp_mono; [by apply (life_of_safe (fun _ => True)), I; apply safe_a_Init|].
  intros ret w1 Hw1. simpl in Hw1.
  destruct (ret =? SCF_SUCCESS) eqn:Er; cbn [negb]; bools.
  - subst ret. repeat (first [apply wp_bind, wp_modify | apply wp_ret; cbn [negb]
                             | progress (rewrite ?Z.eqb_refl; cbn [negb])]).
    apply Hup. change (life_set_flags true (life_of w1) = life_set_flags true (life_of w)).
    by rewrite Hw1.
  - assert (Er' : (ret =? SCF_SUCCESS) = false) by by apply Z.eqb_neq.
    apply wp_ret. rewrite Er'. apply wp_ret. rewrite Er'. by apply wp_ret, Hsame.
Qed.

Lemma wp_SCF_DeInit w (Q : unit -> World -> Prop) b :
  flags b (life_of w) ->
  (forall w', life_of w' = life_set_flags false (life_of w) -> Q tt w') ->
  wp SCF_DeInit Q w.
Proof.
  intros (Hi & Ht & Ha) HQ. simpl in Hi, Ht, Ha.
  assert (Hdown : b = false -> life_of w = life_set_flags false (life_of w)).
  { intros ->. unfold life_set_flags, life_of. simpl. by rewrite Hi, Ht, Ha. }
  unfold SCF_DeInit. apply wp_bind, wp_gets. rewrite Hi.
  destruct b; cbn [negb]; [|by apply wp_ret, HQ, Hdown].
  apply wp_bind. unfold SCFDeInitInner. apply wp_bind, wp_gets. rewrite Hi. cbn [negb].
  apply wp_bind. unfold UnRegisterTlsAdaptor.
  apply wp_bind, wp_gets. apply wp_bind, wp_gets. rewrite Ht, Ha. cbn [negb orb].
  apply wp_bind. eapply wp_mono; [by apply (life_of_safe (fun _ => True)), I; apply safe_a_DeInit|].
  intros [] w1 Hw1. simpl in Hw1.
  apply wp_bind, wp_modify, wp_modify, wp_modify, wp_modify, HQ.
  change (life_set_flags false (life_of w1) = life_set_flags false (life_of w)).
  by rewrite Hw1.
Qed.
End lifetime_calls.

(** ** The invariant over histories *)
Section histories.
Context `{Library} {A : TlsAdaptor} `{!TlsAdaptorSafe A} `{SecureC} `{Decryptor}.
Implicit Types (owned : gset Z) (w : World).

Lemma inv_flags owned l : life_inv owned l -> flags (l_init l) l.
Proof. intros [Ht Ha _ _ _ _ _ _]. by split_and!. Qed.

Lemma inv_set_flags owned l b : life_inv owned l -> life_inv owned (life_set_flags b l).
Proof. by intros []. Qed.

Lemma inv_start : life_inv ∅ (life_of world0).
Proof.
  split; simpl; rewrite ?fmap_empty; try done; intros *; rewrite ?lookup_empty;
    first [by intros [? ?] | set_solver].
Qed.

Lemma inv_ctx_live owned w p : life_inv owned (life_of w) -> p ∈ owned -> live_ctx p w.
Proof.
  intros Hinv Hp. destruct (li_owned _ _ Hinv p Hp) as [n Hn].
  apply life_ctx in Hn as (c & ? & _). by exists c.
Qed.

Lemma inv_obj_live owned w o : life_inv owned (life_of w) -> obj_there o w -> live_obj o w.
Proof.
  intros Hinv [x Hx]. exists x. split; [done|].
  destruct (li_ref _ _ Hinv o (obj_policyCtx x)) as [n Hn]; [apply life_obj; by exists x|].
  apply life_ctx in Hn as (c & ? & _). by exists c.
Qed.

Lemma inv_args owned w (c : Call) : life_inv owned (life_of w) -> disciplined owned w c -> args_ok c w.
Proof.
  intros Hinv (Hctx & Hobj & _ & Ht). split_and!; [| |done].
  - intros p Hp Hn. eapply inv_ctx_live; [done|]. by apply Hctx.
  - intros o Ho Hn. eapply inv_obj_live; [done|]. by apply Hobj.
Qed.

Lemma inv_count owned w p (c : SCFPolicyCtx) :
  life_inv owned (life_of w) -> w_ctxs w !! p = Some c -> 1 <= ctx_refCnt c <= UINT32_MAX.
Proof.
  intros Hinv Hc. eapply (li_cnt _ _ Hinv p). apply life_ctx. by exists c.
Qed.

(** Calls that only read or update keep the invariant because they keep the life. *)
Lemma inv_use owned w (c : Call) :
  life_inv owned (life_of w) -> disciplined owned w c -> lifetime_call c = false ->
  wp (exec c) (fun r w' => life_inv (own_after owned w c r) (life_of w')) w.
Proof.
  intros Hinv Hd Hc. eapply wp_mono; [apply use_call_safe; [done|by eapply inv_args]|].
  intros r w' Hf. apply life_frame_of in Hf. rewrite Hf. by destruct c.
Qed.

Lemma inv_CFreePolicyCtx owned w p :
  life_inv owned (life_of w) -> disciplined owned w (CFreePolicyCtx p) ->
  wp (SCF_FreePolicyCtx p)
    (fun r w' => life_inv (own_after owned w (CFreePolicyCtx p) r) (life_of w')) w.
Proof.
  intros Hinv (Hctx & _). unfold own_after.
  destruct (w_scfInitialized w && w_adaptor w) eqn:Eup.
  - destruct (decide (p = nullptr)) as [->|Hn].
    + apply wp_ret. replace (owned ∖ {[nullptr]}) with owned; [done|].
      assert (nullptr ∉ owned); [|set_solver]. intros Hin.
      pose proof (li_ctx_addr _ _ Hinv _ (li_owned _ _ Hinv _ Hin)). unfold nullptr in *. lia.
    + bools. specialize (Hctx p eq_refl Hn).
      destruct (inv_ctx_live _ _ _ Hinv Hctx) as [c Hc].
      eapply wp_SCF_FreePolicyCtx; [done|done|by eapply inv_count|done|done|].
      intros r w' ->. apply inv_free_ctx; [done|done|]. apply life_ctx. by exists c.
  - unfold SCF_FreePolicyCtx. destruct (p =? nullptr); [by apply wp_ret|].
    apply wp_ready; [intros Hi Ha; by rewrite Hi, Ha in Eup|done].
Qed.

Lemma inv_CFreePolicyObj owned w o :
  life_inv owned (life_of w) -> disciplined owned w (CFreePolicyObj o) ->
  wp (SCF_FreePolicyObj o) (fun _ w' => life_inv owned (life_of w')) w.
Proof.
  intros Hinv (_ & Hobj & _).
  destruct (decide (o = nullptr)) as [->|Hn]; [by apply wp_ret|].
  specialize (Hobj o eq_refl Hn). destruct (inv_obj_live _ _ _ Hinv Hobj) as (x & Hx & [c Hc]).
  destruct (w_scfInitialized w) eqn:Ei, (w_adaptor w) eqn:Ea;
    try (unfold SCF_FreePolicyObj; rewrite (proj2 (Z.eqb_neq _ _) Hn);
         apply wp_ready; [congruence|done]).
  eapply wp_SCF_FreePolicyObj; [done|done| |done|by eapply inv_count|done|done|].
  - assert (is_Some (l_cnt (life_of w) !! obj_policyCtx x)) as Hs
      by (exists (ctx_refCnt c); apply life_ctx; by exists c).
    apply (li_ctx_addr _ _ Hinv) in Hs. unfold nullptr. lia.
  - intros r w' ->. eapply inv_free_obj; [done| |].
    + apply life_obj. by exists x.
    + apply life_ctx. by exists c.
Qed.

Lemma inv_CCreatePolicyObj owned w p :
  life_inv owned (life_of w) -> disciplined owned w (CCreatePolicyObj p) ->
  wp (SCF_CreatePolicyObj p) (fun _ w' => life_inv owned (life_of w')) w.
Proof.
  intros Hinv (Hctx & _ & Hmax & _).
  destruct (decide (p = nullptr)) as [->|Hn]; [by apply wp_ret|].
  destruct (inv_ctx_live _ _ _ Hinv (Hctx p eq_refl Hn)) as [c Hc].
  specialize (Hmax p c eq_refl Hc). pose proof (inv_count _ _ _ _ Hinv Hc).
  eapply wp_SCF_CreatePolicyObj; [done|lia|by intros w' ->|]. intros w' ->.
  apply inv_new_obj; [done| |done]. apply life_ctx. by exists c.
Qed.

Lemma exec_inv owned w c :
  life_inv owned (life_of w) -> disciplined owned w c ->
  wp (exec c) (fun r w' => life_inv (own_after owned w c r) (life_of w')) w.
Proof.
  intros Hinv Hd. destruct (lifetime_call c) eqn:Ec; [|by apply inv_use].
  destruct c; try discriminate; simpl.
  - eapply wp_SCF_Init; [by eapply inv_flags|by intros r w' ->|].
    intros w' ->. by apply inv_set_flags.
  - apply wp_bind. eapply wp_SCF_DeInit; [by eapply inv_flags|].
    intros w' Hw'. apply wp_ret. rewrite Hw'. by apply inv_set_flags.
  - apply wp_SCF_CreatePolicyCtx; [by intros w' ->|]. intros w' _ ->.
    pose proof (li_next _ _ Hinv) as Hnext. simpl in Hnext.
    destruct (w_next w =? nullptr) eqn:E; bools; [unfold nullptr in *; lia|].
    by apply (inv_new_ctx owned (life_of w)).
  - by apply inv_CFreePolicyCtx.
  - by apply inv_CCreatePolicyObj.
  - by apply inv_CFreePolicyObj.
Qed.

Lemma reach_inv owned w : reach owned w -> life_inv owned (life_of w).
Proof.
  induction 1 as [|owned w c r w' _ IH Hd Hex]; [apply inv_start|].
  exact (wp_run _ _ _ _ _ (exec_inv _ _ _ IH Hd) Hex).
Qed.

(** (C10) The library's own contexts and objects are memory safe, over any adaptor that keeps
    the adaptor's contract ([TlsAdaptorSafe]; the OpenSSL one does where [SSL_new] finds
    memory). A client that passes null handles or handles it owns, makes fewer than 2^32
    objects of one context and does not load certificate chains (where the adaptor frees
    certificates twice) never makes the library use a context or an object that is null or
    was freed: whatever the adaptor and OpenSSL answer, every next call returns. What the
    adaptor does with OpenSSL's own handles is not part of this. *)
Theorem api_memory_safe owned w c :
  reach owned w -> disciplined owned w c -> exists r w', exec c w = Some (r, w').
Proof.
  intros Hr Hd. pose proof (exec_inv _ _ _ (reach_inv _ _ Hr) Hd) as Hwp.
  unfold wp in Hwp. destruct (exec c w) as [[r w']|]; [by exists r, w'|done].
Qed.

(** (C2) Reference counting is exact: over an adaptor that keeps its contract
    ([TlsAdaptorSafe]), in every reachable state a context is alive exactly when the client still owns it or some live object refers to it (no leak, no
    early free), and its counter is the number of those references. *)
Theorem context_alive_iff_referenced owned w p :
  reach owned w ->
  (live_ctx p w <-> p ∈ owned \/ exists o x, w_objs w !! o = Some x /\ obj_policyCtx x = p) /\
  (forall c, w_ctxs w !! p = Some c ->
    ctx_refCnt c = (if decide (p ∈ owned) then 1 else 0) + refs (obj_policyCtx <$> w_objs w) p).
Proof.
  intros Hr. apply reach_inv in Hr as Hinv. split; [split|].
  - intros [c Hc]. assert (Hl : l_cnt (life_of w) !! p = Some (ctx_refCnt c))
      by (apply life_ctx; by exists c).
    destruct (li_cnt _ _ Hinv _ _ Hl) as [Heq Hb].
    destruct (decide (p ∈ owned)) as [|Hno]; [by left|]. right.
    assert (Hsz : size (filter (fun kv => kv.2 = p) (l_ref (life_of w))) <> 0%nat)
      by (unfold refs in Heq; lia).
    apply map_size_non_empty_iff, map_choose in Hsz as (o & q & Hq).
    apply map_lookup_filter_Some in Hq as [Hq Heq']. simpl in Heq'. subst q.
    apply life_obj in Hq as (x & ? & ?). by exists o, x.
  - intros [Hin|(o & x & Hx & Hp)]; [by eapply inv_ctx_live|].
    destruct (inv_obj_live _ _ o Hinv) as (x' & Hx' & Hc); [by exists x|].
    congruence.
  - intros c Hc. apply (li_cnt _ _ Hinv). apply life_ctx. by exists c.
Qed.

(** The three initialisation flags of the process (the API's, the adaptor
    registry's and the adaptor pointer) agree in every reachable state. *)
Theorem init_flags_agree owned w :
  reach owned w -> w_isTlsInit w = w_scfInitialized w /\ w_adaptor w = w_scfInitialized w.
Proof. intros Hr. apply reach_inv in Hr as [Ht Ha _ _ _ _ _ _]. by split. Qed.

(** *** Before initialisation *)

(** A program that does nothing when the library is not initialised. *)
Definition idle {X} (m : M X) : Prop := forall w r w',
  w_scfInitialized w = false -> m w = Some (r, w') -> w' = w.

Lemma idle_ret {X} (x : X) : idle (mret x).
Proof. intros w r w' _ Hm. by apply Some_inj in Hm as [= _ <-]. Qed.

Lemma idle_guard {X} (r : X) k : idle (CHECK_SCF_INIT r k).
Proof.
  intros w x w' Hi Hm. unfold CHECK_SCF_INIT, mbind, M_bind, gets in Hm. rewrite Hi in Hm.
  by apply Some_inj in Hm as [= _ <-].
Qed.

Lemma idle_get_ctx {X} p (f : SCFPolicyCtx -> M X) :
  (forall c, idle (f c)) -> idle (get_ctx p ≫= f).
Proof.
  intros Hf w r w' Hi. unfold mbind, M_bind, get_ctx.
  destruct (w_ctxs w !! p); [by apply Hf|done].
Qed.

Lemma idle_get_obj {X} p (f : SCFPolicyObj -> M X) :
  (forall c, idle (f c)) -> idle (get_obj p ≫= f).
Proof.
  intros Hf w r w' Hi. unfold mbind, M_bind, get_obj.
  destruct (w_objs w !! p); [by apply Hf|done].
Qed.

Lemma idle_discard {X} (m : M X) : idle m -> idle (discard m).
Proof.
  intros Hm w r w' Hi. unfold discard, mbind, M_bind.
  destruct (m w) as [[x w1]|] eqn:E; [|done]. intros [= _ <-]. by eapply Hm.
Qed.

Lemma idle_init {X} (f : bool -> M X) : idle (f false) -> idle (gets w_scfInitialized ≫= f).
Proof.
  intros Hf w r w' Hi. unfold mbind, M_bind, gets. rewrite Hi. by apply Hf.
Qed.
End histories.

Ltac idle :=
  repeat match goal with
  | |- idle (mret _) => apply idle_ret
  | |- idle (CHECK_SCF_INIT _ _) => apply idle_guard
  | |- idle (CHECK_RET _) => apply idle_guard
  | |- idle (CHECK_READY _ _) => apply idle_guard
  | |- idle (discard _) => apply idle_discard
  | |- idle (get_ctx _ ≫= _) => apply idle_get_ctx; intro
  | |- idle (get_obj _ ≫= _) => apply idle_get_obj; intro
  | |- idle (gets w_scfInitialized ≫= _) => apply idle_init; cbn [negb]
  | |- idle (if ?b then _ else _) => destruct b eqn:?
  | |- idle (match ?x with _ => _ end) => destruct x
  end.

Section uninitialised.
Context `{Library} {A : TlsAdaptor} `{!TlsAdaptorSafe A} `{SecureC} `{Decryptor}.

(** (C40) Before [SCF_Init] and after [SCF_DeInit] none of the modelled calls on the library,
    its contexts and its objects (the 33 of [Call]) has an effect, [SCF_Init] with the OpenSSL
    flag excepted: it makes no call of OpenSSL and changes nothing of the process. (The
    functions that free a file context or register the application's logging and decryption
    callbacks are not among them: they act at any time.) *)
Theorem uninitialised_calls_have_no_effect c w r w' :
  w_scfInitialized w = false ->
  (forall flag settings, c = CInit flag settings -> flag <> SCF_INIT_FLAG_OPENSSL) ->
  exec c w = Some (r, w') -> w' = w.
Proof.
  intros Hi Hc. enough (Hidle : idle (exec c)) by by apply Hidle.
  destruct c; unfold exec;
    try (unfold SCF_DeInit, SCF_CreatePolicyCtx, SCF_FreePolicyCtx, SCF_CreatePolicyObj,
      SCF_FreePolicyObj, SCF_SetPolicy, SCF_GetPolicy, SCF_SetAppVerifyCallback,
      SCF_SetCipherSuites, SCF_GetCipherSuites, SCF_SetProtocolVersion,
      SCF_GetProtocolVersion, SCF_AddCert, SCF_SetKey, SCF_CheckPrivateKey,
      SCF_SetPskFindSessionCallback, SCF_SetPskUseSessionCallback,
      SCF_SetKeyAutoUpdateParam, SCF_GetKeyAutoUpdateParam, SCF_GetKeyUpdateInfo,
      SCF_ObjKeyUpdate, SCF_SetFd, SCF_GetCurrentCert, SCF_GetPeerCert, SCF_SetUserData,
      SCF_GetUserData, SCF_CipherFind, SCF_Connect, SCF_Accept, establish, SCF_Close,
      SCF_Read, SCF_Write; by idle).
  specialize (Hc flag settings eq_refl). unfold SCF_Init. idle.
  apply negb_false_iff in Heqb. by bools.
Qed.
End uninitialised.

(** ** Witnesses: a client that initialises the library and creates a context *)
Section witnesses.
Definition after (m : M Z) (w : World) : World :=
  match m w with Some (_, w') => w' | None => w end.
Definition up_call : Call := CInit SCF_INIT_FLAG_OPENSSL (Some "/usr/lib64"%string).
Definition w_up : World := after (exec up_call) world0.
Definition w_one : World := after (exec CCreatePolicyCtx) w_up.
Definition w_two : World := after (exec (CCreatePolicyObj 1)) w_one.

Lemma no_args owned w c :
  call_ctx c = None -> call_obj c = None -> disciplined owned w c.
Proof.
  intros Hc Ho. split_and!; [intros p; by rewrite Hc|intros p; by rewrite Ho|by intros p x ->|].
  by intros p fc t ->.
Qed.

Lemma reach_one : reach ({[1]} ∪ ∅) w_one.
Proof.
  refine (reach_call ∅ w_up CCreatePolicyCtx 1 w_one _ _ _); [|by apply no_args|by vm_compute].
  refine (reach_call ∅ world0 up_call 0 w_up _ _ _); [|by apply no_args|by vm_compute].
  apply reach_start.
Qed.

Lemma disciplined_obj : disciplined ({[1]} ∪ ∅) w_one (CCreatePolicyObj 1).
Proof.
  split_and!; [intros p [= <-] _; set_solver|done| |done].
  intros p x [= <-] Hx. vm_compute in Hx. apply Some_inj in Hx as <-. by vm_compute.
Qed.

Lemma api_memory_safe_witness :
  disciplined ({[1]} ∪ ∅) w_one (CCreatePolicyObj 1) /\
  exists r w', exec (CCreatePolicyObj 1) w_one = Some (r, w').
Proof.
  split; [apply disciplined_obj|].
  exact (api_memory_safe _ _ _ reach_one disciplined_obj).
Defined.

Lemma reach_two : reach ({[1]} ∪ ∅) w_two.
Proof.
  refine (reach_call _ w_one (CCreatePolicyObj 1) 2 w_two _ _ _);
    [apply reach_one|apply disciplined_obj|by vm_compute].
Qed.

Lemma context_alive_iff_referenced_witness :
  reach ({[1]} ∪ ∅) w_two /\ live_ctx 1 w_two /\
  exists c, w_ctxs w_two !! 1 = Some c /\ ctx_refCnt c = 1 + 1.
Proof.
  destruct (context_alive_iff_referenced _ _ 1 reach_two) as [Halive Hcount].
  split; [apply reach_two|].
  assert (Hl : live_ctx 1 w_two) by (apply Halive; left; set_solver).
  split; [exact Hl|]. destruct Hl as [c Hc]. exists c. split; [exact Hc|].
  rewrite (Hcount _ Hc). by vm_compute.
Defined.

Lemma init_flags_agree_witness : w_scfInitialized w_two = true /\ w_adaptor w_two = true.
Proof.
  destruct (init_flags_agree _ _ reach_two) as [_ Ha]. split; [by vm_compute|].
  rewrite Ha. by vm_compute.
Defined.

Lemma uninitialised_calls_have_no_effect_witness :
  exists r w', exec CCreatePolicyCtx world0 = Some (r, w') /\ w' = world0.
Proof.
  eexists _, _. split; [vm_compute; reflexivity|].
  by eapply (uninitialised_calls_have_no_effect CCreatePolicyCtx world0); [done|done|vm_compute].
Defined.

(** Outside the adaptor's contract: where OpenSSL has no memory for a connection, the OpenSSL
    adaptor hands the null [SSL] to [SSL_set_ex_data]. *)
Definition NoSslLibrary : Library := {|
  answer h f args := match f with SSL_new => nullptr | _ => ref_answer h f args end;
  out_value _ := 1000;
  cstring_at _ _ := EmptyString;
  bytes_at _ _ n := replicate (Z.to_nat n) "?"%char;
  asn1_data _ _ := []
|}.

Example null_ssl_is_used :
  exists w, exec (H := NoSslLibrary) (A := OpenSSLAdaptor (H := NoSslLibrary)) (CSetFd 2 5) w = None /\
    w_ctxs w !! 1 <> None /\ w_objs w !! 2 <> None.
Proof.
  exists (after (exec (CCreatePolicyObj 1))
    (after (exec (CSetPolicy 1 SCF_ROLE_CLIENT SCF_VERIFY_DEFAULT SCF_POLICY_HIGH)) w_one)).
  split_and!; [vm_compute; reflexivity|vm_compute; discriminate..].
Qed.
End witnesses.
