(* ===== verification/KeyUpdate.v ===== *)
(** * Key update and connection establishment

    What [session_key_update.cpp], [psk_key_policy.cpp] and [connection.cpp] promise:
    the traffic counter never overflows, an update is due exactly when the policy says
    so, parameters stay within their limits, and a role mapping is frozen exactly by a
    successful handshake. The adaptor is the OpenSSL one where its effect on the
    bookkeeping matters, and any adaptor that keeps its contract otherwise. *)
From Stdlib Require Import ZArith Lia Ascii String.
From stdpp Require Import base list fin_maps gmap strings.
From S2P Require Import Prelude Errno Types FileCheck FileCtx Rbac Machine OpenSSL.
From S2P Require Import Adaptor Api Conn Lifecycle.
Open Scope Z_scope.

(** ** Traffic *)

(** The 64-bit traffic accounting is the ideal one on unbounded integers: for every
    counter, threshold and length the update is due exactly when the true total reaches
    the threshold, and the counter saturates at the largest value instead of wrapping. *)
Theorem account_traffic_ideal total threshold len :
  is_u64 total -> is_u64 threshold -> is_u64 len ->
  account_traffic total threshold len
  = (threshold <=? total + len, Z.min (total + len) UINT64_MAX).
Proof.
  intros Ht Hh Hl. pose proof Ht as Ht'. pose proof Hh as Hh'. pose proof Hl as Hl'.
  unfold is_u64 in Ht', Hh', Hl'. unfold account_traffic.
  rewrite (wrap64_id (UINT64_MAX - total)) by (unfold is_u64; lia).
  destruct (threshold <=? len) eqn:E1; bools.
  - cbn [orb]. rewrite wrap64_id by (unfold is_u64; lia).
    f_equal; [symmetry; apply Z.leb_le; lia|lia].
  - cbn [orb]. rewrite (wrap64_id (threshold - len)) by (unfold is_u64; lia).
    destruct (threshold - len <=? total) eqn:E2; bools.
    + rewrite wrap64_id by (unfold is_u64; lia).
      f_equal; [symmetry; apply Z.leb_le; lia|lia].
    + rewrite wrap64_id by (unfold is_u64; lia). f_equal. lia.
Qed.

Lemma account_traffic_ideal_witness :
  account_traffic (UINT64_MAX - 5) UINT64_MAX 100 = (true, UINT64_MAX).
Proof.
  rewrite (account_traffic_ideal (UINT64_MAX - 5) UINT64_MAX 100);
    [by vm_compute|split; [by vm_compute|unfold UINT64_MAX; lia]..].
Defined.

Section key_update.
Context `{Library} `{SecureC} `{FileSystem}.

(** The clock [CheckTimeInterval] reads after the history [h]. *)
Definition clock (h : History) : Z :=
  let h' := mkEvent gettimeofday [] (answer h gettimeofday []) :: h in
  if answer h gettimeofday [] =? 0 then wrap64 (out_value h') else 0.

(** The verdict of [CheckNeedKeyUpdate] on a TLS 1.3 connection, in ideal arithmetic. *)
Definition rekey_verdict (k : SCF_KEY_UPDATE_INFO) (interval threshold len now : Z) : Z * bool :=
  if threshold <=? kui_totalSizeOfWriteData k + len then (SCF_SUCCESS, true)
  else if now <? kui_lastKeyUpdateTime k then (SCF_ERRNO_SYSTEM_TIME_ERROR, false)
  else (SCF_SUCCESS, interval <=? now - kui_lastKeyUpdateTime k).

Lemma GetVersion_keeps obj w v w1 :
  GetVersion obj w = Some (v, w1) -> w_objs w1 = w_objs w /\ w_ctxs w1 = w_ctxs w.
Proof.
  unfold GetVersion, mbind, M_bind, mret, M_ret, get_obj, lib, lib_cstring, gets.
  intros Hv. repeat (case_match; simplify_eq; try done).
Qed.

Lemma clock_range h : is_u64 (clock h).
Proof. unfold clock. case_match; [apply wrap64_range|by split]. Qed.

Lemma time_due_ideal now last interval :
  is_u64 now -> is_u64 last ->
  time_due now last interval
  = if now <? last then (SCF_ERRNO_SYSTEM_TIME_ERROR, false)
    else (SCF_SUCCESS, interval <=? now - last).
Proof.
  intros Hn Hl. unfold time_due. destruct (now <? last) eqn:E; [done|]. bools.
  unfold is_u64 in *. rewrite wrap64_id; [done|]. unfold is_u64. lia.
Qed.

Lemma CheckNeedKeyUpdate_run obj len w w1 o c :
  obj <> nullptr -> w_objs w !! obj = Some o -> w_ctxs w !! obj_policyCtx o = Some c ->
  GetVersion obj w = Some (Some SCF_SSL_VERSION_TLS13_STR, w1) ->
  is_u64 (kui_totalSizeOfWriteData (obj_keyUpdateInfo o)) ->
  is_u64 (kui_lastKeyUpdateTime (obj_keyUpdateInfo o)) ->
  is_u64 (ctx_keyUpdateTraffic c) -> is_u64 len ->
  exists w', CheckNeedKeyUpdate obj len w
    = Some (rekey_verdict (obj_keyUpdateInfo o) (ctx_keyUpdateTime c)
              (ctx_keyUpdateTraffic c) len (clock (w_log w1)), w') /\
    w_objs w' !! obj = Some (upd_kui (set_kui_totalSizeOfWriteData
      (Z.min (kui_totalSizeOfWriteData (obj_keyUpdateInfo o) + len) UINT64_MAX)) o).
Proof.
  intros Hn Ho Hc Hv Htot Hlast Hthr Hlen.
  destruct (GetVersion_keeps _ _ _ _ Hv) as [Hobjs Hctxs].
  unfold CheckNeedKeyUpdate. rewrite (proj2 (Z.eqb_neq _ _) Hn). cbn [a_GetVersion OpenSSLAdaptor].
  unfold mbind, M_bind. rewrite Hv. rewrite bool_decide_eq_true_2 by done. cbn [negb].
  unfold get_obj. rewrite Hobjs, Ho. unfold get_ctx. rewrite Hctxs, Hc.
  rewrite account_traffic_ideal by done.
  unfold upd_obj. rewrite Hobjs, Ho. unfold rekey_verdict.
  destruct (ctx_keyUpdateTraffic c <=? _) eqn:E.
  - eexists. split; [done|]. apply lookup_insert_eq.
  - unfold CheckTimeInterval, sys_time, mbind, M_bind, lib, lib_out, gets, mret, M_ret.
    cbn [w_log set_objs set_log w_objs w_ctxs].
    unfold get_obj. cbn [w_objs set_objs set_log]. rewrite lookup_insert_eq.
    cbn [obj_policyCtx upd_kui set_obj_keyUpdateInfo].
    unfold get_ctx. cbn [w_ctxs set_objs set_log]. rewrite Hctxs, Hc.
    eexists. split.
    + match goal with |- Some (?x, ?y) = Some (?z, ?e) => enough (x = z) as -> by reflexivity end.
      apply time_due_ideal; [apply clock_range|done].
    + apply lookup_insert_eq.
Qed.

(** (C33) On a TLS 1.3 connection [CheckNeedKeyUpdate] adds the length to the counter
    (saturating) and asks for an update exactly when the traffic threshold is reached
    or the interval has passed; a clock that went backwards is reported, not ignored. *)
Theorem CheckNeedKeyUpdate_exact obj len w w1 o c :
  obj <> nullptr -> w_objs w !! obj = Some o -> w_ctxs w !! obj_policyCtx o = Some c ->
  GetVersion obj w = Some (Some SCF_SSL_VERSION_TLS13_STR, w1) ->
  is_u64 (kui_totalSizeOfWriteData (obj_keyUpdateInfo o)) ->
  is_u64 (kui_lastKeyUpdateTime (obj_keyUpdateInfo o)) ->
  is_u64 (ctx_keyUpdateTraffic c) -> is_u64 len ->
  exists w', CheckNeedKeyUpdate obj len w
    = Some (rekey_verdict (obj_keyUpdateInfo o) (ctx_keyUpdateTime c)
              (ctx_keyUpdateTraffic c) len (clock (w_log w1)), w') /\
    w_objs w' !! obj = Some (upd_kui (set_kui_totalSizeOfWriteData
      (Z.min (kui_totalSizeOfWriteData (obj_keyUpdateInfo o) + len) UINT64_MAX)) o).
Proof. apply CheckNeedKeyUpdate_run. Qed.

(** What [OpenSSLAdaptor::KeyUpdate] leaves of the bookkeeping when it succeeds. *)
Definition kui_restarted (k : SCF_KEY_UPDATE_INFO) : SCF_KEY_UPDATE_INFO :=
  set_kui_isLastUpdateSuccess true
    (set_kui_lastKeyUpdateTime 0 (set_kui_totalSizeOfWriteData 0 k)).

(** Calls among which no update of a key succeeded. *)
Definition no_update (evs : History) : Prop :=
  Forall (fun ev => ev_fn ev = SSL_key_update -> ev_ret ev <> SSL_SUCCESS) evs.

(** The calls of a successful update, the newest first. *)
Definition update_calls (ssl : Z) : History :=
  [mkEvent SSL_key_update [AInt ssl; AInt SSL_KEY_UPDATE_NOT_REQUESTED] SSL_SUCCESS;
   mkEvent SSL_is_init_finished [AInt ssl] SSL_SUCCESS].

Lemma wp_KeyUpdate obj o w (Q : Z -> World -> Prop) :
  w_objs w !! obj = Some o ->
  (forall r evs w', r ∈ [SCF_SSL_ERR_KEY_UPDATE; SCF_SSL_ERR_IS_INIT_FINISHED] ->
     w_objs w' = w_objs w -> w_log w' = evs ++ w_log w -> no_update evs -> Q r w') ->
  (forall w', obj_sslCtx o <> nullptr ->
     w_objs w' = <[obj := upd_kui kui_restarted o]> (w_objs w) ->
     w_log w' = update_calls (obj_sslCtx o) ++ w_log w -> Q SCF_SUCCESS w') ->
  wp (KeyUpdate obj KEY_UPDATE_NOT_REQUESTED) Q w.
Proof.
  intros Ho Hfail Hok. unfold KeyUpdate. unfold no_update in Hfail.
  destruct (obj =? nullptr); [by apply wp_ret, (Hfail _ []); [set_solver|..]|].
  apply wp_bind. eapply wp_get_obj; [done|].
  destruct (obj_sslCtx o =? nullptr) eqn:En; bools; [by apply wp_ret, (Hfail _ []); [set_solver|..]|].
  apply wp_bind, wp_lib. intros r _. destruct (r =? SSL_SUCCESS) eqn:E; bools; cbn [negb].
  2: { apply wp_ret, (Hfail _ [mkEvent SSL_is_init_finished [AInt (obj_sslCtx o)] r]);
       [set_solver|done|done|by repeat constructor]. }
  subst r. cbn [InnerGetOpensslUpdateType]. change (InnerGetOpensslUpdateType KEY_UPDATE_NOT_REQUESTED)
    with (SCF_SUCCESS, SSL_KEY_UPDATE_NOT_REQUESTED). cbv iota beta. rewrite Z.eqb_refl. cbn [negb].
  apply wp_bind, wp_lib. intros r _. destruct (r =? SSL_SUCCESS) eqn:E; bools; cbn [negb].
  - subst r. apply wp_bind. eapply wp_upd_obj; [done|]. by apply wp_ret, Hok.
  - unfold print_errors. do 2 apply wp_bind. apply wp_lib. intros q _. apply wp_ret, wp_ret.
    eapply (Hfail _ [_; _; _]); [set_solver|done|reflexivity|]. by repeat constructor.
Qed.

(** What an attempt that failed leaves of it: the counter restarts, the time is that of the
    attempt, and the failure is recorded without being counted. *)
Definition kui_failed (now : Z) (k : SCF_KEY_UPDATE_INFO) : SCF_KEY_UPDATE_INFO :=
  set_kui_isLastUpdateSuccess false
    (set_kui_lastKeyUpdateTime now (set_kui_totalSizeOfWriteData 0 k)).

(** What [SCF_ObjKeyUpdate] makes of an object that was [o] in [w]. *)
Definition key_updated (w : World) (o : SCFPolicyObj) (r : Z) (o' : SCFPolicyObj) (w' : World) : Prop :=
  (r = SCF_SUCCESS ->
    obj_sslCtx o <> nullptr /\
    w_log w' = update_calls (obj_sslCtx o) ++ mkEvent gettimeofday [] 0 :: w_log w /\
    obj_keyUpdateInfo o' =
      set_kui_totalKeyUpdateCnt (wrap32 (kui_totalKeyUpdateCnt (obj_keyUpdateInfo o) + 1))
        (kui_restarted (obj_keyUpdateInfo o)) /\
    kui_lastKeyUpdateTime (obj_keyUpdateInfo o') = 0) /\
  (r <> SCF_SUCCESS -> exists evs, w_log w' = evs ++ w_log w /\ no_update evs /\
    (r ∈ [SCF_ERRNO_NULL_INPUT; SCF_ERRNO_NOT_INIT; SCF_ERRNO_INVALID_PARAM;
          SCF_ERRNO_SYSTEM_TIME_ERROR] /\ o' = o \/
     r ∈ [SCF_SSL_ERR_KEY_UPDATE; SCF_SSL_ERR_IS_INIT_FINISHED] /\
     obj_keyUpdateInfo o' = kui_failed (clock (w_log w)) (obj_keyUpdateInfo o))).

Lemma not_attempted w o r :
  r ∈ [SCF_ERRNO_NULL_INPUT; SCF_ERRNO_NOT_INIT; SCF_ERRNO_INVALID_PARAM;
       SCF_ERRNO_SYSTEM_TIME_ERROR] -> key_updated w o r o w.
Proof.
  intros Hr. split.
  - intros ->. exfalso. revert Hr. by rewrite !elem_of_cons, elem_of_nil; naive_solver.
  - intros _. exists []. split_and!; [done|by constructor|]. by left.
Qed.

(** (C38) [SCF_ObjKeyUpdate] succeeds exactly by updating the key. On success it asked OpenSSL
    whether the handshake was finished and then for [SSL_key_update] on the object's
    connection, and both said yes; the byte counter restarts and the number of updates grows
    by one. On failure no key was updated: either the attempt was refused before it began,
    and the object is as it was, or it failed, and the failure is recorded
    ([isLastUpdateSuccess] is false, with the time of the attempt) without being counted. But
    after a success the time of the update that was just stored is lost: the
    adaptor resets it to zero, so [SCF_GetKeyUpdateInfo] reports time 0. *)
Theorem ObjKeyUpdate_exact obj w r w' o :
  w_objs w !! obj = Some o -> SCF_ObjKeyUpdate obj w = Some (r, w') ->
  exists o', w_objs w' !! obj = Some o' /\
  (r = SCF_SUCCESS ->
    obj_sslCtx o <> nullptr /\
    w_log w' = update_calls (obj_sslCtx o) ++ mkEvent gettimeofday [] 0 :: w_log w /\
    obj_keyUpdateInfo o' =
      set_kui_totalKeyUpdateCnt (wrap32 (kui_totalKeyUpdateCnt (obj_keyUpdateInfo o) + 1))
        (kui_restarted (obj_keyUpdateInfo o)) /\
    kui_lastKeyUpdateTime (obj_keyUpdateInfo o') = 0) /\
  (r <> SCF_SUCCESS -> exists evs, w_log w' = evs ++ w_log w /\ no_update evs /\
    (r ∈ [SCF_ERRNO_NULL_INPUT; SCF_ERRNO_NOT_INIT; SCF_ERRNO_INVALID_PARAM;
          SCF_ERRNO_SYSTEM_TIME_ERROR] /\ o' = o \/
     r ∈ [SCF_SSL_ERR_KEY_UPDATE; SCF_SSL_ERR_IS_INIT_FINISHED] /\
     obj_keyUpdateInfo o' = kui_failed (clock (w_log w)) (obj_keyUpdateInfo o))).
Proof.
  intros Ho Hrun. revert r w' Hrun.
  enough (wp (SCF_ObjKeyUpdate obj) (fun r w' => exists o', w_objs w' !! obj = Some o' /\
    key_updated w o r o' w') w) as Hwp
    by (intros r w' Hrun; exact (wp_run _ _ _ _ _ Hwp Hrun)).
  unfold SCF_ObjKeyUpdate, CHECK_RET, CHECK_SCF_INIT, CHECK_SCF_ADAPTOR.
  destruct (obj =? nullptr); [apply wp_ret; exists o; split; [done|apply not_attempted; set_solver]|].
  apply wp_bind, wp_gets. destruct (w_scfInitialized w);
    [|apply wp_ret; exists o; split; [done|apply not_attempted; set_solver]].
  apply wp_bind, wp_gets. destruct (w_adaptor w);
    [|apply wp_ret; exists o; split; [done|apply not_attempted; set_solver]].
  unfold sys_time. apply wp_bind, wp_bind, wp_lib. intros st Hst. apply wp_bind, wp_gets, wp_ret.
  cbn [fst snd]. destruct (st =? 0) eqn:Est; bools; cbn [negb].
  2: { apply wp_ret. exists o. split; [done|]. split; [done|]. intros _.
       exists [mkEvent gettimeofday [] st]. split_and!; [done|by repeat constructor|].
       left. split; [set_solver|done]. }
  assert (Hclock : clock (w_log w) =
    wrap64 (out_value (mkEvent gettimeofday [] st :: w_log w))).
  { unfold clock. rewrite <- Hst, Est. done. }
  rewrite Est in *.
  apply wp_bind. eapply wp_upd_obj; [done|].
  apply wp_bind. eapply wp_upd_obj; [apply lookup_insert_eq|].
  apply wp_bind. eapply wp_KeyUpdate; [apply lookup_insert_eq| |].
  - intros r evs w1 Hr Hw1 Hlog Hno. cbn [w_objs w_log set_objs set_log] in Hw1, Hlog.
    apply wp_bind. eapply wp_upd_obj; [rewrite Hw1; apply lookup_insert_eq|].
    assert (r <> SCF_SUCCESS) as Hne by (intros ->; revert Hr; rewrite !elem_of_cons, elem_of_nil; naive_solver).
    rewrite (proj2 (Z.eqb_neq _ _) Hne). cbn [negb]. apply wp_ret.
    eexists. split; [apply lookup_insert_eq|]. split; [done|]. intros _.
    exists (evs ++ [mkEvent gettimeofday [] 0]). split_and!.
    + cbn [w_log set_objs]. by rewrite Hlog, <- app_assoc.
    + apply Forall_app. split; [done|by repeat constructor].
    + right. split; [done|]. cbn. rewrite Hclock. done.
  - intros w1 Hssl Hw1 Hlog. cbn [w_objs w_log set_objs set_log] in Hw1, Hlog.
    apply wp_bind. eapply wp_upd_obj; [rewrite Hw1; apply lookup_insert_eq|].
    rewrite Z.eqb_refl. cbn [negb].
    apply wp_bind. eapply wp_upd_obj; [apply lookup_insert_eq|]. apply wp_ret.
    eexists. split; [apply lookup_insert_eq|]. split; [|done]. intros _. by split_and!.
Qed.

(** After a key update the interval no longer protects anything: as soon as the
    clock shows at least one interval since the epoch, every write on the connection
    re-keys it, because the time of the last update is kept as zero. *)
Theorem key_update_makes_every_write_rekey obj len w w1 o c :
  obj <> nullptr -> w_objs w !! obj = Some o -> w_ctxs w !! obj_policyCtx o = Some c ->
  GetVersion obj w = Some (Some SCF_SSL_VERSION_TLS13_STR, w1) ->
  is_u64 (kui_totalSizeOfWriteData (obj_keyUpdateInfo o)) ->
  is_u64 (ctx_keyUpdateTraffic c) -> is_u64 len ->
  kui_lastKeyUpdateTime (obj_keyUpdateInfo o) = 0 ->
  ctx_keyUpdateTime c <= clock (w_log w1) ->
  exists w', CheckNeedKeyUpdate obj len w = Some ((SCF_SUCCESS, true), w').
Proof.
  intros Hn Ho Hc Hv Htot Hthr Hlen Hlast Hclock.
  destruct (CheckNeedKeyUpdate_run obj len w w1 o c) as (w' & Hrun & _);
    [done..|by rewrite Hlast|done|done|].
  exists w'. rewrite Hrun. do 2 f_equal. unfold rekey_verdict. rewrite Hlast.
  pose proof (clock_range (w_log w1)) as Hr. unfold is_u64 in Hr.
  destruct (_ <=? _); [done|]. destruct (_ <? 0) eqn:E; bools; [lia|].
  f_equal. apply Z.leb_le. lia.
Qed.
End key_update.

(** ** Parameters of automatic update *)

(** The limits of [constant_def.h]. *)
Definition key_params_ok (c : SCFPolicyCtx) : Prop :=
  MIN_KEY_UPDATE_TIME <= ctx_keyUpdateTime c <= MAX_KEY_UPDATE_TIME /\
  MIN_KEY_UPDATE_TRAFFIC <= ctx_keyUpdateTraffic c <= MAX_KEY_UPDATE_TRAFFIC.

Definition params_in_range (time traffic : Z) : Prop :=
  MIN_KEY_UPDATE_TIME <= time <= MAX_KEY_UPDATE_TIME /\
  MIN_KEY_UPDATE_TRAFFIC <= traffic <= MAX_KEY_UPDATE_TRAFFIC.

Lemma new_ctx_params_ok : key_params_ok new_policy_ctx.
Proof. split; split; by vm_compute. Qed.

Section params.
Context `{Library} {A : TlsAdaptor}.

Lemma GetKeyAutoUpdateParam_run ctx c b t n w :
  ctx <> nullptr -> w_ctxs w !! ctx = Some c -> w_scfInitialized w = true ->
  SCF_GetKeyAutoUpdateParam ctx b t n w
  = Some (if ctx_isNeedKeyUpdate c
          then (SCF_SUCCESS, true, ctx_keyUpdateTime c, ctx_keyUpdateTraffic c)
          else (SCF_SUCCESS, false, t, n), w).
Proof.
  intros Hn Hc Hi. unfold SCF_GetKeyAutoUpdateParam. rewrite (proj2 (Z.eqb_neq _ _) Hn).
  unfold CHECK_SCF_INIT, mbind, M_bind, gets. rewrite Hi. unfold get_ctx. rewrite Hc.
  by destruct (ctx_isNeedKeyUpdate c).
Qed.

(** [SCF_SetKeyAutoUpdateParam] keeps the limits: a context always holds an
    interval of 1 second to 1 year and a threshold of at least 1000 bytes, whatever was
    passed. What was accepted is read back; what was refused leaves the old limits but
    has already switched automatic update on. *)
Theorem SetKeyAutoUpdateParam_exact ctx c need time traffic w :
  ctx <> nullptr -> w_ctxs w !! ctx = Some c -> w_scfInitialized w = true ->
  key_params_ok c ->
  exists r w' c', SCF_SetKeyAutoUpdateParam ctx need time traffic w = Some (r, w') /\
    w_ctxs w' !! ctx = Some c' /\ key_params_ok c' /\
    (r = SCF_SUCCESS <-> need = false \/ params_in_range time traffic) /\
    (forall b t n, SCF_GetKeyAutoUpdateParam ctx b t n w'
      = Some (if need
              then if decide (r = SCF_SUCCESS) then (SCF_SUCCESS, true, time, traffic)
                   else (SCF_SUCCESS, true, ctx_keyUpdateTime c, ctx_keyUpdateTraffic c)
              else (SCF_SUCCESS, false, t, n), w')).
Proof.
  intros Hn Hc Hi Hok. unfold SCF_SetKeyAutoUpdateParam.
  rewrite (proj2 (Z.eqb_neq _ _) Hn).
  unfold CHECK_SCF_INIT, mbind, M_bind, gets. rewrite Hi.
  unfold upd_ctx at 1. rewrite Hc.
  destruct need; cbn [negb].
  2:{ eexists _, _, _. split; [done|]. split; [apply lookup_insert_eq|].
      split; [done|]. split; [by split; [left|]|]. intros b t n.
      by rewrite (GetKeyAutoUpdateParam_run ctx (set_ctx_isNeedKeyUpdate false c))
        by (try done; apply lookup_insert_eq). }
  destruct (_ || _)%bool eqn:E.
  - eexists _, _, _. split; [done|]. split; [apply lookup_insert_eq|]. split; [done|].
    split.
    + split; [done|]. intros [?|[Ht Hf]]; [done|]. exfalso.
      apply orb_true_iff in E as [E|E]; [apply orb_true_iff in E as [E|E];
        [apply orb_true_iff in E as [E|E]|]|]; bools; lia.
    + intros b t n. rewrite (GetKeyAutoUpdateParam_run ctx (set_ctx_isNeedKeyUpdate true c))
        by (try done; apply lookup_insert_eq). by rewrite decide_False.
  - unfold upd_ctx. cbn [w_ctxs set_ctxs]. rewrite !lookup_insert_eq.
    cbn [w_ctxs set_ctxs]. rewrite !lookup_insert_eq.
    eexists _, _, _. split; [done|]. split; [apply lookup_insert_eq|].
    assert (Hr : params_in_range time traffic)
      by (unfold params_in_range; bools; lia).
    split; [exact Hr|]. split; [split; [by right|done]|].
    intros b t n. erewrite GetKeyAutoUpdateParam_run;
      [|done|apply lookup_insert_eq|done]. by rewrite decide_True.
Qed.
End params.

(** ** The handshake and the role mapping *)
Section handshake.
Context `{Library} {A : TlsAdaptor} `{!TlsAdaptorSafe A}.

(** The node-role mapping is frozen by a successful handshake and by nothing less:
    when [SCF_Connect] or [SCF_Accept] succeeds the mapping of the connection's context
    is frozen, when it fails the mapping is as changeable as before, and in neither case
    is its content touched. *)
Theorem handshake_freezes_mapping (client : bool) obj o c w r w' :
  w_objs w !! obj = Some o -> w_ctxs w !! obj_policyCtx o = Some c ->
  obj_policyCtx o <> nullptr ->
  (if client then SCF_Connect obj else SCF_Accept obj) w = Some (r, w') ->
  exists c', w_ctxs w' !! obj_policyCtx o = Some c' /\
    ctx_nodeRoleMap c' = ctx_nodeRoleMap c /\
    ctx_nodeRoleMapFrozen c' = (if r =? SCF_SUCCESS then true else ctx_nodeRoleMapFrozen c).
Proof.
  intros Ho Hc Hp Hrun. revert r w' Hrun.
  enough (wp (if client then SCF_Connect obj else SCF_Accept obj)
    (fun r w' => exists c', w_ctxs w' !! obj_policyCtx o = Some c' /\
      ctx_nodeRoleMap c' = ctx_nodeRoleMap c /\ ctx_nodeRoleMapFrozen c'
      = (if r =? SCF_SUCCESS then true else ctx_nodeRoleMapFrozen c)) w) as Hwp
    by (intros r w' Hrun; exact (wp_run _ _ _ _ _ Hwp Hrun)).
  assert (Hsafe : safe world_frame (live_obj obj) (if client then a_Connect obj else a_Accept obj))
    by (destruct client; [apply safe_a_Connect|apply safe_a_Accept]).
  replace (if client then SCF_Connect obj else SCF_Accept obj)
    with (establish obj (fun obj => if client then a_Connect obj else a_Accept obj))
    by by destruct client.
  unfold establish, CHECK_RET, CHECK_SCF_INIT, CHECK_SCF_ADAPTOR.
  destruct (obj =? nullptr); [apply wp_ret; by exists c|].
  apply wp_bind. eapply wp_get_obj; [done|].
  destruct (obj_role o =? SCF_ROLE_NONE); [apply wp_ret; by exists c|].
  apply wp_bind, wp_gets. destruct (w_scfInitialized w); [|apply wp_ret; by exists c].
  apply wp_bind, wp_gets. destruct (w_adaptor w); [|apply wp_ret; by exists c].
  apply wp_bind. eapply wp_mono; [apply Hsafe; exists o; split; [done|by exists c]|].
  intros r w1 Hf. simpl in Hf.
  destruct (frame_ctx _ _ _ _ _ _ Hf Hc) as (c1 & Hc1 & Hcore).
  destruct (frame_obj _ _ _ _ _ _ Hf Ho) as (o1 & Ho1 & Hocore).
  assert (Hmap : ctx_nodeRoleMap c1 = ctx_nodeRoleMap c)
    by exact (f_equal ctx_nodeRoleMap Hcore).
  assert (Hfr : ctx_nodeRoleMapFrozen c1 = ctx_nodeRoleMapFrozen c)
    by exact (f_equal ctx_nodeRoleMapFrozen Hcore).
  assert (Hpc : obj_policyCtx o1 = obj_policyCtx o) by exact (f_equal obj_policyCtx Hocore).
  destruct (r =? SCF_SUCCESS) eqn:Er.
  - apply wp_bind. eapply wp_get_obj; [done|]. unfold freeze_mapping. rewrite Hpc.
    rewrite (proj2 (Z.eqb_neq _ _) Hp).
    apply wp_bind. eapply wp_upd_ctx; [done|]. apply wp_ret.
    eexists. split; [apply lookup_insert_eq|]. by split.
  - apply wp_ret. rewrite Er. by exists c1.
Qed.
End handshake.

(** ** Witnesses: a client with one TLS 1.3 connection *)
Section witnesses.
(** After [SCF_SetPolicy], [SCF_CreatePolicyObj], [SCF_SetFd] and a key update. *)
Definition w_policy : World :=
  after (exec (CSetPolicy 1 SCF_ROLE_CLIENT SCF_VERIFY_DEFAULT SCF_POLICY_HIGH)) w_one.
Definition w_conn : World := after (exec (CSetFd 2 5)) (after (exec (CCreatePolicyObj 1)) w_policy).
Definition w_updated : World := after (SCF_ObjKeyUpdate 2) w_conn.

Definition obj_in (w : World) (p : Z) : SCFPolicyObj :=
  default (new_policy_obj 0 new_policy_ctx 0) (w_objs w !! p).
Definition ctx_in (w : World) (p : Z) : SCFPolicyCtx := default new_policy_ctx (w_ctxs w !! p).
Definition version_world (w : World) : World :=
  match GetVersion 2 w with Some (_, w') => w' | None => w end.

Lemma CheckNeedKeyUpdate_exact_witness :
  exists w', CheckNeedKeyUpdate 2 100 w_conn = Some ((SCF_SUCCESS, false), w') /\
    kui_totalSizeOfWriteData (obj_keyUpdateInfo (obj_in w' 2)) = 100.
Proof.
  destruct (CheckNeedKeyUpdate_exact 2 100 w_conn (version_world w_conn) (obj_in w_conn 2)
              (ctx_in w_conn 1)) as (w' & Hrun & Hobj);
    [done|by vm_compute|by vm_compute|by vm_compute|by vm_compute|by vm_compute
    |by vm_compute|by vm_compute|].
  exists w'. split; [rewrite Hrun; by vm_compute|].
  unfold obj_in. rewrite Hobj. by vm_compute.
Defined.

Lemma ObjKeyUpdate_exact_witness :
  SCF_ObjKeyUpdate 2 w_conn = Some (SCF_SUCCESS, w_updated) /\
  exists o', w_objs w_updated !! 2 = Some o' /\
    kui_totalKeyUpdateCnt (obj_keyUpdateInfo o') = 1 /\
    kui_lastKeyUpdateTime (obj_keyUpdateInfo o') = 0.
Proof.
  assert (Hrun : SCF_ObjKeyUpdate 2 w_conn = Some (SCF_SUCCESS, w_updated)) by by vm_compute.
  split; [exact Hrun|].
  destruct (ObjKeyUpdate_exact 2 w_conn SCF_SUCCESS w_updated (obj_in w_conn 2)
              ltac:(by vm_compute) Hrun) as (o' & Ho' & Hok & _).
  destruct (Hok eq_refl) as (_ & _ & Hk & Hz). exists o'. split; [exact Ho'|]. split; [|exact Hz].
  rewrite Hk. by vm_compute.
Defined.

(** An interval of 900 seconds, 1000 seconds after the epoch. *)
Definition w_interval : World := after (SCF_SetKeyAutoUpdateParam 1 true 900 1000000) w_updated.

Lemma key_update_makes_every_write_rekey_witness :
  exists w', CheckNeedKeyUpdate 2 1 w_interval = Some ((SCF_SUCCESS, true), w').
Proof.
  apply (key_update_makes_every_write_rekey 2 1 w_interval (version_world w_interval)
           (obj_in w_interval 2) (ctx_in w_interval 1));
    [done|by vm_compute|by vm_compute|by vm_compute|by vm_compute|by vm_compute
    |by vm_compute|by vm_compute|by vm_compute].
Defined.

Lemma SetKeyAutoUpdateParam_exact_witness :
  exists r w' c', SCF_SetKeyAutoUpdateParam 1 true 0 5 w_one = Some (r, w') /\
    w_ctxs w' !! 1 = Some c' /\ r <> SCF_SUCCESS /\ ctx_keyUpdateTime c' = 3600 /\
    key_params_ok c'.
Proof.
  destruct (SetKeyAutoUpdateParam_exact 1 (ctx_in w_one 1) true 0 5 w_one)
    as (r & w' & c' & Hrun & Hc & Hok & Hr & _);
    [done|by vm_compute|by vm_compute|by split; split; vm_compute|].
  exists r, w', c'. split; [exact Hrun|]. split; [exact Hc|].
  split; [intros Hs; apply Hr in Hs as [?|[[Hmin _] _]]; [done|by vm_compute in Hmin]|].
  split; [|exact Hok].
  vm_compute in Hrun. apply Some_inj in Hrun. injection Hrun as _ <-.
  vm_compute in Hc. apply Some_inj in Hc as <-. by vm_compute.
Defined.

Definition w_connected : World := after (SCF_Connect 2) w_conn.

Lemma handshake_freezes_mapping_witness :
  SCF_Connect 2 w_conn = Some (SCF_SUCCESS, w_connected) /\
  exists c', w_ctxs w_connected !! 1 = Some c' /\ ctx_nodeRoleMapFrozen c' = true.
Proof.
  assert (Hrun : SCF_Connect 2 w_conn = Some (SCF_SUCCESS, w_connected)) by by vm_compute.
  split; [exact Hrun|].
  destruct (handshake_freezes_mapping true 2 (obj_in w_conn 2) (ctx_in w_conn 1) w_conn _ _
              ltac:(by vm_compute) ltac:(by vm_compute) ltac:(by vm_compute) Hrun)
    as (c' & Hc & _ & Hf).
  exists c'. split; [exact Hc|exact Hf].
Defined.
End witnesses.
