(* ===== verification/TlsSpec.v ===== *)
(** * What the OpenSSL adaptor configures

    Specifications of the configuration side of [openssl_adaptor.cpp]: the cipher-suite
    string, the version range, the calls that configure a new [SSL_CTX] from its creation to
    the verification mode, the password callback and the PSK callback. *)
From Stdlib Require Import ZArith Lia Ascii String.
From stdpp Require Import base list fin_maps gmap strings.
From S2P Require Import Prelude Errno Types FileCheck FileCtx Machine OpenSSL.
From S2P Require Import OpenSSLCfg Adaptor Api Conn Lifecycle.
Open Scope Z_scope.

(** ** Cipher suites *)

(** The names OpenSSL is given, without separators. *)
Definition suite_name (id : Z) : option string :=
  if id =? 0xC02B then Some "TLS_ECDHE_ECDSA_WITH_AES_128_GCM_SHA256"%string
  else if id =? 0xC02C then Some "TLS_ECDHE_ECDSA_WITH_AES_256_GCM_SHA384"%string
  else if id =? 0xC02F then Some "TLS_ECDHE_RSA_WITH_AES_128_GCM_SHA256"%string
  else if id =? 0xC030 then Some "TLS_ECDHE_RSA_WITH_AES_256_GCM_SHA384"%string
  else if id =? 0xCCA8 then Some "TLS_ECDHE_RSA_WITH_CHACHA20_POLY1305_SHA256"%string
  else if id =? 0xCCA9 then Some "TLS_ECDHE_ECDSA_WITH_CHACHA20_POLY1305_SHA256"%string
  else if id =? 0x1301 then Some "TLS_AES_128_GCM_SHA256"%string
  else if id =? 0x1302 then Some "TLS_AES_256_GCM_SHA384"%string
  else if id =? 0x1303 then Some "TLS_CHACHA20_POLY1305_SHA256"%string
  else if id =? 0x1304 then Some "TLS_AES_128_CCM_SHA256"%string
  else None.

Lemma suite_str id : CipherId2CipherStr id = (fun n => (n ++ ":")%string) <$> suite_name id.
Proof.
  unfold CipherId2CipherStr, suite_name, SCF_SSL_ECDHE_ECDSA_WITH_AES_128_GCM_SHA256,
    SCF_SSL_ECDHE_ECDSA_WITH_AES_256_GCM_SHA384, SCF_SSL_ECDHE_RSA_WITH_AES_128_GCM_SHA256,
    SCF_SSL_ECDHE_RSA_WITH_AES_256_GCM_SHA384, SCF_SSL_ECDHE_RSA_WITH_CHACHA20_POLY1305_SHA256,
    SCF_SSL_ECDHE_ECDSA_WITH_CHACHA20_POLY1305_SHA256, SCF_SSL_AES_128_GCM_SHA256,
    SCF_SSL_AES_256_GCM_SHA384, SCF_SSL_CHACHA20_POLY1305_SHA256, SCF_SSL_AES_128_CCM_SHA256.
  repeat (match goal with |- context [if ?b then _ else _] => destruct b end; [reflexivity|]).
  reflexivity.
Qed.

(** The text the copy loop writes: every known name with its colon. *)
Fixpoint suites_text (suites : list Z) : string :=
  match suites with
  | [] => EmptyString
  | id :: rest => (default EmptyString (CipherId2CipherStr id) ++ suites_text rest)%string
  end.

Lemma str_len_text suites :
  slen (suites_text suites) <= SECUREC_MEM_MAX_LEN ->
  GetCipherSuitesStrLen suites = slen (suites_text suites).
Proof.
  induction suites as [|id rest IH]; [done|]. simpl. rewrite slen_app.
  destruct (CipherId2CipherStr id) as [s|]; simpl; intros Hl.
  - pose proof (slen_nonneg s). pose proof (slen_nonneg (suites_text rest)).
    rewrite IH by lia. apply wrap64_id. unfold is_u64, UINT64_MAX.
    unfold SECUREC_MEM_MAX_LEN in Hl. lia.
  - change (slen EmptyString) with 0 in *. rewrite IH; lia.
Qed.

Section cipher_text.
Context `{SecureC}.

Lemma cipher_str_loop_text suites done tail total :
  length tail = String.length (suites_text suites) ->
  total = slen done + slen (suites_text suites) -> total <= SECUREC_MEM_MAX_LEN ->
  cipher_str_loop suites total (bytes done ++ tail) (slen done)
  = bytes (done ++ suites_text suites)%string.
Proof.
  revert done tail. induction suites as [|id rest IH]; intros done tail Hlen Htot Hmax.
  - simpl in *. destruct tail; [|done]. by rewrite bytes_app.
  - cbn [cipher_str_loop suites_text] in *.
    destruct (CipherId2CipherStr id) as [s|] eqn:Es.
    2:{ by apply IH. }
    change (default EmptyString (Some s)) with s in *.
    pose proof Hmax as Hb. unfold SECUREC_MEM_MAX_LEN in Hb.
    rewrite slen_app in Htot. rewrite str_app_length in Hlen.
    assert (Hs : 0 < slen s).
    { rewrite suite_str in Es. destruct (suite_name id) as [n|]; [|done].
      apply Some_inj in Es as <-. rewrite slen_app. pose proof (slen_nonneg n).
      change (slen ":") with 1. lia. }
    pose proof (slen_nonneg done). pose proof (slen_nonneg (suites_text rest)).
    assert (Hd : Z.to_nat (slen done) = length (bytes done))
      by (rewrite length_bytes; unfold slen; lia).
    rewrite Hd, drop_app_length, take_app_length.
    assert (Hsl : Z.of_nat (length (bytes s)) = slen s) by (rewrite length_bytes; done).
    assert (Htl : Z.of_nat (length tail) = slen s + slen (suites_text rest))
      by (rewrite Hlen; unfold slen; lia).
    rewrite wrap64_id by (unfold is_u64, UINT64_MAX; lia).
    rewrite memcpy_s_ok by lia. rewrite Z.eqb_refl. cbn [negb].
    rewrite wrap64_id by (unfold is_u64, UINT64_MAX; lia).
    rewrite <- slen_app, app_assoc, <- bytes_app, IH.
    + f_equal. by rewrite str_app_assoc.
    + rewrite length_drop, length_bytes. lia.
    + rewrite slen_app. lia.
    + done.
Qed.
End cipher_text.

Lemma text_of_names suites :
  suites_text suites =
  match omap suite_name suites with
  | [] => EmptyString
  | names => (String.concat ":" names ++ ":")%string
  end.
Proof.
  induction suites as [|id rest IH]; [done|]. cbn [suites_text omap list_omap].
  rewrite suite_str, IH. destruct (suite_name id) as [n|]; [|done].
  change (default EmptyString ((fun n => (n ++ ":")%string) <$> Some n)) with (n ++ ":")%string.
  destruct (omap suite_name rest) as [|m names]; [apply str_app_nil_r|].
  change (String.concat ":" (n :: m :: names)) with (n ++ ":" ++ String.concat ":" (m :: names))%string.
  by rewrite !str_app_assoc.
Qed.

Lemma has_nul_app a b : has_nul (a ++ b)%string = has_nul a || has_nul b.
Proof. induction a as [|c a IH]; [done|]. rewrite str_app_cons. simpl. by rewrite IH, orb_assoc. Qed.

Lemma suite_name_no_nul id n : suite_name id = Some n -> has_nul n = false.
Proof.
  unfold suite_name. repeat (case_match; [by intros [= <-]|]). done.
Qed.

Lemma names_no_nul names :
  Forall (fun n => has_nul n = false) names -> has_nul (String.concat ":" names) = false.
Proof.
  induction 1 as [|n names Hn _ IH]; [done|]. destruct names as [|m names]; [done|].
  change (has_nul (n ++ ":" ++ String.concat ":" (m :: names)) = false).
  by rewrite !has_nul_app, Hn, IH.
Qed.

Lemma known_names_no_nul suites : has_nul (String.concat ":" (omap suite_name suites)) = false.
Proof.
  apply names_no_nul, Forall_forall. intros n Hn.
  apply list_elem_of_omap in Hn as (id & _ & Hid). by eapply suite_name_no_nul.
Qed.

(** Cutting the last colon off. *)
Lemma cut_last_colon s :
  has_nul s = false ->
  buf_cstr (<[Z.to_nat (slen (s ++ ":") - 1) := NUL]> (bytes (s ++ ":"))) = s.
Proof.
  intros Hs. rewrite slen_app, bytes_app. change (slen ":") with 1. change (bytes ":") with [":"%char].
  replace (Z.to_nat (slen s + 1 - 1)) with (length (bytes s) + 0)%nat
    by (rewrite length_bytes; unfold slen; lia).
  rewrite insert_app_r. by apply buf_cstr_app.
Qed.

Section cipher_suites.
Context `{Library} `{SecureC}.

(** [SetCipherSuites] hands OpenSSL exactly the names of the suites it knows, in
    the caller's order and joined by colons; unknown identifiers are skipped, a list
    without a known one is refused without a call, and the text buffer it allocates has
    exactly the length it fills and is released on every path. *)
Theorem SetCipherSuites_exact ctx c suites w :
  (forall h p n, length (bytes_at h p n) = Z.to_nat n) ->
  ctx <> nullptr -> w_ctxs w !! ctx = Some c ->
  slen (suites_text suites) <= SECUREC_MEM_MAX_LEN ->
  wp (SetCipherSuites ctx (Some suites)) (fun r w' =>
    match omap suite_name suites with
    | [] => r = SCF_SSL_ERR_SET_CIPHER /\ w' = w
    | names =>
        let alloc p := mkEvent op_new [AInt (slen (String.concat ":" names) + 1)] p in
        (r = SCF_ERRNO_MEM_ALLOC /\ w_log w' = alloc nullptr :: w_log w) \/
        (exists p ret d,
          w_log w' = mkEvent op_delete [AInt p] d
            :: mkEvent SSL_CTX_set_ciphersuites
                 [AInt (ctx_sslConfig c); AStr (String.concat ":" names)] ret
            :: alloc p :: w_log w /\
          r = if ret =? SSL_SUCCESS then SCF_SUCCESS else SCF_SSL_ERR_SET_CIPHER)
    end) w.
Proof.
  intros Hbytes Hn Hc Hmax. unfold SetCipherSuites. rewrite (proj2 (Z.eqb_neq _ _) Hn).
  rewrite (str_len_text _ Hmax). pose proof (text_of_names suites) as Htext.
  pose proof (known_names_no_nul suites) as Hnul.
  destruct (omap suite_name suites) as [|m names].
  { rewrite Htext. by apply wp_ret. }
  set (ns := String.concat ":" (m :: names)) in *.
  assert (Hlen : slen (suites_text suites) = slen ns + 1)
    by (rewrite Htext, slen_app; done).
  pose proof (slen_nonneg ns).
  destruct (slen (suites_text suites) =? 0) eqn:E; bools; [lia|].
  apply wp_bind, wp_lib. intros p _.
  destruct (p =? nullptr) eqn:Ep; bools.
  { apply wp_ret. left. split; [done|]. simpl. by rewrite Hlen, Ep. }
  apply wp_bind, wp_gets. apply wp_bind. eapply wp_get_ctx; [done|].
  set (cells := bytes_at _ _ _).
  assert (Hcells : cipher_str_loop suites (slen (suites_text suites)) cells 0
                   = bytes (suites_text suites)).
  { apply (cipher_str_loop_text suites EmptyString cells); [|done|done].
    unfold cells. rewrite Hbytes. unfold slen. lia. }
  rewrite Hcells, Htext, cut_last_colon by done.
  apply wp_bind, wp_lib. intros ret _. apply wp_bind, wp_lib. intros d _.
  assert (Hend : forall r w', w_log w' = mkEvent op_delete [AInt p] d
    :: mkEvent SSL_CTX_set_ciphersuites [AInt (ctx_sslConfig c); AStr ns] ret
    :: mkEvent op_new [AInt (slen ns + 1)] p :: w_log w ->
    r = (if ret =? SSL_SUCCESS then SCF_SUCCESS else SCF_SSL_ERR_SET_CIPHER) ->
    wp (mret r) (fun r w' =>
      (r = SCF_ERRNO_MEM_ALLOC /\
       w_log w' = mkEvent op_new [AInt (slen ns + 1)] nullptr :: w_log w) \/
      (exists p ret d, w_log w' = mkEvent op_delete [AInt p] d
        :: mkEvent SSL_CTX_set_ciphersuites [AInt (ctx_sslConfig c); AStr ns] ret
        :: mkEvent op_new [AInt (slen ns + 1)] p :: w_log w /\
        r = if ret =? SSL_SUCCESS then SCF_SUCCESS else SCF_SSL_ERR_SET_CIPHER)) w')
    by (intros r w' Hw Hr; apply wp_ret; right; by exists p, ret, d).
  destruct (ret =? SSL_SUCCESS) eqn:Er; cbn [negb]; apply Hend; simpl; rewrite ?Er;
    rewrite ?slen_app; done.
Qed.
End cipher_suites.

Lemma SetCipherSuites_exact_witness :
  exists w' p ret d, SetCipherSuites 1 (Some [0x1302; 7; 0x1301]) w_one = Some (SCF_SUCCESS, w') /\
    w_log w' = mkEvent op_delete [AInt p] d
      :: mkEvent SSL_CTX_set_ciphersuites
           [AInt 0; AStr "TLS_AES_256_GCM_SHA384:TLS_AES_128_GCM_SHA256"] ret
      :: mkEvent op_new [AInt 46] p :: w_log w_one.
Proof.
  assert (Hwp := SetCipherSuites_exact 1 new_policy_ctx [0x1302; 7; 0x1301] w_one
    (fun h p n => length_replicate _ _) ltac:(done) ltac:(by vm_compute) ltac:(by vm_compute)).
  destruct (SetCipherSuites 1 (Some [0x1302; 7; 0x1301]) w_one) as [[r w']|] eqn:E;
    [|by vm_compute in E].
  assert (Hr : r = SCF_SUCCESS) by (vm_compute in E; by injection E as <- _).
  apply (wp_run _ _ _ _ _ Hwp) in E as [[Hm _]|(p & ret & d & Hlog & _)].
  - by rewrite Hr in Hm.
  - exists w', p, ret, d. by rewrite Hr.
Defined.

(** ** Protocol versions *)

Definition known_version (v : Z) : Prop := v = TLS1_2_VERSION \/ v = TLS1_3_VERSION.

#[export] Instance known_version_dec v : Decision (known_version v).
Proof. unfold known_version. apply _. Defined.

(** The options that switch the listed versions off. *)
Definition forbid_mask (vs : list Z) : Z :=
  Z.lor (if decide (TLS1_2_VERSION ∈ vs) then SSL_OP_NO_TLSv1_2 else 0)
        (if decide (TLS1_3_VERSION ∈ vs) then SSL_OP_NO_TLSv1_3 else 0).

Lemma forbid_mask_cons v vs :
  known_version v ->
  forbid_mask (v :: vs)
  = Z.lor (if v =? TLS1_2_VERSION then SSL_OP_NO_TLSv1_2 else SSL_OP_NO_TLSv1_3) (forbid_mask vs).
Proof.
  assert (H23 : TLS1_2_VERSION <> TLS1_3_VERSION) by done.
  unfold forbid_mask. intros [-> | ->]; cbn [Z.eqb];
    repeat match goal with |- context [decide (?x ∈ ?l)] => destruct (decide (x ∈ l)) end;
    try reflexivity; exfalso; rewrite ?elem_of_cons in *; naive_solver.
Qed.

Lemma forbid_loop_mask vs acc m :
  forbid_loop vs acc = Some m -> Forall known_version vs /\ m = Z.lor acc (forbid_mask vs).
Proof.
  revert acc. induction vs as [|v vs IH]; intros acc; cbn [forbid_loop].
  - intros [= <-]. split; [constructor|]. unfold forbid_mask. by rewrite Z.lor_0_r.
  - unfold MapVersion2NoOpt. destruct (v =? TLS1_2_VERSION) eqn:E2; bools.
    + intros H. apply IH in H as [Hk ->]. split; [constructor; [by left|done]|].
      rewrite forbid_mask_cons by by left. subst v. by rewrite Z.lor_assoc.
    + destruct (v =? TLS1_3_VERSION) eqn:E3; bools; [|done].
      intros H. apply IH in H as [Hk ->]. split; [constructor; [by right|done]|].
      rewrite forbid_mask_cons by by right. subst v. by rewrite Z.lor_assoc.
Qed.

Lemma mask_bit_12 base vs :
  Z.land SSL_OP_NO_TLSv1_2 base = 0 ->
  (Z.land SSL_OP_NO_TLSv1_2 (Z.lor base (forbid_mask vs)) =? 0)
  = negb (bool_decide (TLS1_2_VERSION ∈ vs)).
Proof.
  intros Hb. rewrite Z.land_lor_distr_r, Hb. rewrite bool_decide_decide. unfold forbid_mask.
  destruct (decide (TLS1_2_VERSION ∈ vs)), (decide (TLS1_3_VERSION ∈ vs)); reflexivity.
Qed.

Lemma mask_bit_13 base vs :
  Z.land SSL_OP_NO_TLSv1_3 base = 0 ->
  (Z.land SSL_OP_NO_TLSv1_3 (Z.lor base (forbid_mask vs)) =? 0)
  = negb (bool_decide (TLS1_3_VERSION ∈ vs)).
Proof.
  intros Hb. rewrite Z.land_lor_distr_r, Hb. rewrite bool_decide_decide. unfold forbid_mask.
  destruct (decide (TLS1_2_VERSION ∈ vs)), (decide (TLS1_3_VERSION ∈ vs)); reflexivity.
Qed.

(** The loop on whatever OpenSSL answered for the two bounds and the options: it passes when
    it meets a version that is not switched off, and fails at the first unknown one. *)
Lemma check_version_loop_exact lo hi o :
  (check_version_loop (Z.to_nat (hi - lo + 1)) lo o = SSL_SUCCESS <->
   known_version lo /\
   ((lo = TLS1_2_VERSION /\ lo <= hi /\ Z.land SSL_OP_NO_TLSv1_2 o = 0) \/
    (TLS1_3_VERSION <= hi /\ Z.land SSL_OP_NO_TLSv1_3 o = 0))) /\
  (check_version_loop (Z.to_nat (hi - lo + 1)) lo o <> SSL_SUCCESS ->
   check_version_loop (Z.to_nat (hi - lo + 1)) lo o = SSL_ERROR).
Proof.
  set (loop := check_version_loop).
  assert (Hstep2 : forall n, loop (S n) TLS1_2_VERSION o
    = if Z.land SSL_OP_NO_TLSv1_2 o =? 0 then SSL_SUCCESS else loop n TLS1_3_VERSION o) by done.
  assert (Hstep3 : forall n, loop (S n) TLS1_3_VERSION o
    = if Z.land SSL_OP_NO_TLSv1_3 o =? 0 then SSL_SUCCESS else SSL_ERROR) by (intros [|n]; reflexivity).
  assert (H13 : forall n, loop n TLS1_3_VERSION o = if (n =? 0)%nat then SSL_ERROR
    else if Z.land SSL_OP_NO_TLSv1_3 o =? 0 then SSL_SUCCESS else SSL_ERROR) by (intros [|[|n]]; reflexivity).
  destruct (decide (hi < lo)) as [Hlt|Hle].
  { replace (Z.to_nat _) with 0%nat by lia. change (loop 0%nat lo o) with SSL_ERROR.
    split; [|done]. split; [done|]. intros [[-> | ->] [(_ & ? & _)|(? & _)]];
      unfold TLS1_2_VERSION, TLS1_3_VERSION in *; lia. }
  destruct (decide (lo = TLS1_2_VERSION)) as [->|N2]; [|destruct (decide (lo = TLS1_3_VERSION)) as [->|N3]].
  - replace (Z.to_nat _) with (S (Z.to_nat (hi - TLS1_2_VERSION))) by lia. rewrite Hstep2, H13.
    assert (Hn : (Z.to_nat (hi - TLS1_2_VERSION) =? 0)%nat = negb (TLS1_3_VERSION <=? hi)).
    { apply eq_true_iff_eq. rewrite negb_true_iff, Nat.eqb_eq, Z.leb_gt.
      unfold TLS1_2_VERSION, TLS1_3_VERSION in *. lia. }
    rewrite Hn. destruct (Z.land SSL_OP_NO_TLSv1_2 o =? 0) eqn:B2; bools.
    { split; [|done]. split; [|done]. intros _. split; [by left|]. left. split_and!; [done|lia|done]. }
    destruct (TLS1_3_VERSION <=? hi) eqn:L; cbn [negb]; bools.
    + destruct (Z.land SSL_OP_NO_TLSv1_3 o =? 0) eqn:B3; bools; (split; [|done]); split; try done.
      * intros _. split; [by left|by right].
      * by intros [_ [(_ & _ & ?)|(_ & ?)]].
    + split; [|done]. split; [done|]. intros [_ [(_ & _ & ?)|(? & _)]]; [done|lia].
  - replace (Z.to_nat _) with (S (Z.to_nat (hi - TLS1_3_VERSION))) by lia. rewrite Hstep3.
    destruct (Z.land SSL_OP_NO_TLSv1_3 o =? 0) eqn:B3; bools; (split; [|done]); split; try done.
    + intros _. split; [by right|]. right. split; [lia|done].
    + by intros [_ [(? & _ & _)|(_ & ?)]].
  - replace (Z.to_nat _) with (S (Z.to_nat (hi - lo))) by lia. cbn [check_version_loop].
    unfold loop, check_version_loop, MapVersion2NoOpt.
    rewrite (proj2 (Z.eqb_neq _ _) N2), (proj2 (Z.eqb_neq _ _) N3).
    split; [|done]. split; [done|]. by intros [[?|?] _].
Qed.

(** What a history has told OpenSSL about the [SSL_CTX] [s]: the last bound it took
    ([op] is the request that sets it), and the options switched on. *)
Fixpoint bound_of (s op : Z) (h : History) : option Z :=
  match h with
  | [] => None
  | e :: h =>
      match ev_fn e, ev_args e with
      | SSL_CTX_ctrl, [AInt s'; AInt op'; AInt v; _] =>
          if (s' =? s) && (op' =? op) && (ev_ret e =? SSL_SUCCESS) then Some v else bound_of s op h
      | _, _ => bound_of s op h
      end
  end.
Fixpoint options_of (s : Z) (h : History) : Z :=
  match h with
  | [] => 0
  | e :: h =>
      match ev_fn e, ev_args e with
      | SSL_CTX_set_options, [AInt s'; AInt m] =>
          if s' =? s then Z.lor m (options_of s h) else options_of s h
      | _, _ => options_of s h
      end
  end.

(** OpenSSL reads back the bounds it took, and of the two options that switch a version off
    those that were set. *)
Class ReadsBack `{Library} : Prop := {
  reads_min h s v : bound_of s SSL_CTRL_SET_MIN_PROTO_VERSION h = Some v ->
    answer h SSL_CTX_ctrl [AInt s; AInt SSL_CTRL_GET_MIN_PROTO_VERSION; AInt 0; AInt nullptr] = v;
  reads_max h s v : bound_of s SSL_CTRL_SET_MAX_PROTO_VERSION h = Some v ->
    answer h SSL_CTX_ctrl [AInt s; AInt SSL_CTRL_GET_MAX_PROTO_VERSION; AInt 0; AInt nullptr] = v;
  reads_12 h s : Z.land SSL_OP_NO_TLSv1_2 (answer h SSL_CTX_get_options [AInt s])
                 = Z.land SSL_OP_NO_TLSv1_2 (options_of s h);
  reads_13 h s : Z.land SSL_OP_NO_TLSv1_3 (answer h SSL_CTX_get_options [AInt s])
                 = Z.land SSL_OP_NO_TLSv1_3 (options_of s h)
}.

Section version_policy.
Context `{Library}.

(** What a successful [SetProtocolVersion] has told OpenSSL. *)
Lemma SetProtocolVersion_told ctx c lo hi vs w w1 :
  w_ctxs w !! ctx = Some c ->
  SetProtocolVersion ctx lo hi (Some vs) w = Some (SCF_SUCCESS, w1) ->
  Forall known_version vs /\ w_ctxs w1 = w_ctxs w /\ w_objs w1 = w_objs w /\
  bound_of (ctx_sslConfig c) SSL_CTRL_SET_MIN_PROTO_VERSION (w_log w1) = Some lo /\
  bound_of (ctx_sslConfig c) SSL_CTRL_SET_MAX_PROTO_VERSION (w_log w1) = Some hi /\
  options_of (ctx_sslConfig c) (w_log w1) =
    Z.lor (forbid_mask vs) (options_of (ctx_sslConfig c) (w_log w)).
Proof.
  intros Hc. set (s := ctx_sslConfig c). unfold SetProtocolVersion.
  destruct (ctx =? nullptr); [done|]. unfold mbind at 1, M_bind at 1, get_ctx. rewrite Hc. fold s.
  unfold SSL_CTX_set_min_proto_version, SSL_CTX_set_max_proto_version, lib, mbind, M_bind.
  set (r1 := answer (w_log w) _ _). destruct (r1 =? SSL_SUCCESS) eqn:E1; [|done]. cbn [negb].
  set (w2 := set_log _ w). set (r2 := answer (w_log w2) _ _).
  destruct (r2 =? SSL_SUCCESS) eqn:E2; [|done]. cbn [negb]. set (w3 := set_log _ w2).
  assert (H3 : w_ctxs w3 = w_ctxs w /\ w_objs w3 = w_objs w /\
    bound_of s SSL_CTRL_SET_MIN_PROTO_VERSION (w_log w3) = Some lo /\
    bound_of s SSL_CTRL_SET_MAX_PROTO_VERSION (w_log w3) = Some hi /\
    options_of s (w_log w3) = options_of s (w_log w)).
  { cbn [w3 w2 w_ctxs w_objs w_log set_log bound_of options_of ev_fn ev_args ev_ret].
    by rewrite E1, E2, Z.eqb_refl. }
  clearbody w3. clear w2 r1 r2 E1 E2. destruct H3 as (C3 & O3 & L3 & U3 & P3).
  destruct vs as [|v vs]; [intros [= <-]; by split_and!|].
  destruct (forbid_loop (v :: vs) 0) as [m|] eqn:Em; [|done].
  apply forbid_loop_mask in Em as [Hk ->]. rewrite Z.lor_0_l.
  destruct (forbid_mask (v :: vs) =? 0) eqn:E0; cbn [negb]; bools; intros [= <-].
  - split_and!; [done..|]. by rewrite E0, P3.
  - cbn [w_ctxs w_objs w_log set_log bound_of options_of ev_fn ev_args]. rewrite Z.eqb_refl, P3.
    by split_and!.
Qed.

(** What [CheckVersion] answers when the bounds and the options are these. *)
Lemma CheckVersion_told `{!ReadsBack} obj o c lo hi w :
  obj <> nullptr -> w_objs w !! obj = Some o ->
  obj_policyCtx o <> nullptr -> w_ctxs w !! obj_policyCtx o = Some c ->
  ctx_sslConfig c <> nullptr ->
  bound_of (ctx_sslConfig c) SSL_CTRL_SET_MIN_PROTO_VERSION (w_log w) = Some lo ->
  bound_of (ctx_sslConfig c) SSL_CTRL_SET_MAX_PROTO_VERSION (w_log w) = Some hi ->
  wp (CheckVersion obj) (fun st _ => exists o, 
    Z.land SSL_OP_NO_TLSv1_2 o = Z.land SSL_OP_NO_TLSv1_2 (options_of (ctx_sslConfig c) (w_log w)) /\
    Z.land SSL_OP_NO_TLSv1_3 o = Z.land SSL_OP_NO_TLSv1_3 (options_of (ctx_sslConfig c) (w_log w)) /\
    st = (if (lo =? 0) && (hi =? 0) then SSL_SUCCESS
          else check_version_loop (Z.to_nat (hi - lo + 1)) lo o)) w.
Proof.
  intros Hobj Ho Hp Hc Hs Hlo Hhi. unfold CheckVersion. rewrite (proj2 (Z.eqb_neq _ _) Hobj).
  apply wp_bind. eapply wp_get_obj; [done|]. rewrite (proj2 (Z.eqb_neq _ _) Hp).
  apply wp_bind. eapply wp_get_ctx; [done|]. rewrite (proj2 (Z.eqb_neq _ _) Hs).
  unfold SSL_CTX_get_min_proto_version, SSL_CTX_get_max_proto_version.
  set (s := ctx_sslConfig c) in *.
  apply wp_bind, wp_lib. intros r1 Hr1. rewrite (reads_min _ _ _ Hlo) in Hr1. subst r1.
  apply wp_bind, wp_lib. intros r2 Hr2. cbn [w_log set_log] in Hr2. 
  rewrite (reads_max _ s hi) in Hr2; [subst r2|cbn [bound_of ev_fn ev_args]; by rewrite andb_false_r].
  destruct ((lo =? 0) && (hi =? 0)).
  { apply wp_ret. by exists (options_of s (w_log w)). }
  apply wp_bind, wp_lib. intros q Hq. apply wp_ret. exists q. rewrite Hq, reads_12, reads_13.
  cbn [w_log set_log options_of ev_fn]. done.
Qed.

(** (C34) Version policy, of [SetProtocolVersion] followed by [CheckVersion], over an OpenSSL
    that reads back what it was told. A call that succeeded was given only TLS 1.2 and 1.3 as
    forbidden versions; and when no version was switched off before, the check made before a
    connection passes exactly when either both bounds are 0 (then the forbidden versions are
    not looked at, and it passes with both forbidden), or the lower bound is TLS 1.2 or 1.3
    and the range holds a version that is not forbidden (so that a lower bound of 0 with an
    upper one fails). *)
Theorem version_range_exact `{!ReadsBack} obj o c lo hi vs w w1 :
  obj <> nullptr -> w_objs w !! obj = Some o ->
  obj_policyCtx o <> nullptr -> w_ctxs w !! obj_policyCtx o = Some c ->
  ctx_sslConfig c <> nullptr ->
  Z.land SSL_OP_NO_TLSv1_2 (options_of (ctx_sslConfig c) (w_log w)) = 0 ->
  Z.land SSL_OP_NO_TLSv1_3 (options_of (ctx_sslConfig c) (w_log w)) = 0 ->
  SetProtocolVersion (obj_policyCtx o) lo hi (Some vs) w = Some (SCF_SUCCESS, w1) ->
  Forall known_version vs /\
  wp (CheckVersion obj) (fun st _ =>
    (st = SSL_SUCCESS <->
      (lo = 0 /\ hi = 0) \/
      (known_version lo /\ exists v, lo <= v <= hi /\ known_version v /\ v ∉ vs)) /\
    (st <> SSL_SUCCESS -> st = SSL_ERROR)) w1.
Proof.
  intros Hobj Ho Hp Hc Hs B2 B3 Hrun.
  destruct (SetProtocolVersion_told _ _ _ _ _ _ _ Hc Hrun) as (Hk & C1 & O1 & Hlo & Hhi & Hopt).
  split; [done|]. eapply wp_mono; [eapply (CheckVersion_told obj o c); [done|congruence|done|congruence|done..]|].
  intros st _ (q & Q2 & Q3 & ->). rewrite Hopt in Q2, Q3.
  pose proof (mask_bit_12 _ vs B2) as M2. pose proof (mask_bit_13 _ vs B3) as M3.
  rewrite Z.lor_comm in Q2, Q3. rewrite <- Q2 in M2. rewrite <- Q3 in M3. clear Q2 Q3.
  destruct ((lo =? 0) && (hi =? 0)) eqn:E0.
  { apply andb_true_iff in E0 as [E1 E2]. bools. split; [|done]. split; [by left|done]. }
  destruct (check_version_loop_exact lo hi q) as [Hiff Herr]. split; [|exact Herr]. rewrite Hiff.
  assert (Hnz : ~ (lo = 0 /\ hi = 0)) by (intros [-> ->]; done).
  assert (F2 : Z.land SSL_OP_NO_TLSv1_2 q = 0 <-> TLS1_2_VERSION ∉ vs).
  { rewrite <- Z.eqb_eq, M2. by destruct (bool_decide_reflect (TLS1_2_VERSION ∈ vs)). }
  assert (F3 : Z.land SSL_OP_NO_TLSv1_3 q = 0 <-> TLS1_3_VERSION ∉ vs).
  { rewrite <- Z.eqb_eq, M3. by destruct (bool_decide_reflect (TLS1_3_VERSION ∈ vs)). }
  rewrite F2, F3. unfold known_version, TLS1_2_VERSION, TLS1_3_VERSION in *. split.
  - intros [Hl [(-> & Hle & Hf)|[Hle Hf]]]; right; (split; [done|]).
    + exists 0x303. split_and!; [lia|lia|by left|done].
    + exists 0x304. split_and!; [lia|lia|by right|done].
  - intros [?|[Hl (v & Hv & [-> | ->] & Hf)]]; [done| |]; (split; [done|]).
    + left. split_and!; [lia|lia|done].
    + right. split; [lia|done].
Qed.
End version_policy.

(** *** Witness: an OpenSSL that reads back *)
Definition reading_answer (h : History) (f : LibFn) (args : list Arg) : Z :=
  match f, args with
  | SSL_CTX_ctrl, [AInt s; AInt op; AInt v; AInt p] =>
      if (op =? SSL_CTRL_GET_MIN_PROTO_VERSION) && (v =? 0) && (p =? nullptr)
      then default 0 (bound_of s SSL_CTRL_SET_MIN_PROTO_VERSION h)
      else if (op =? SSL_CTRL_GET_MAX_PROTO_VERSION) && (v =? 0) && (p =? nullptr)
      then default 0 (bound_of s SSL_CTRL_SET_MAX_PROTO_VERSION h)
      else ref_answer h f args
  | SSL_CTX_get_options, [AInt s] => options_of s h
  | _, _ => ref_answer h f args
  end.
#[local] Instance ReadingLibrary : Library := {|
  answer := reading_answer;
  out_value _ := 1000;
  cstring_at _ _ := "TLSv1.3"%string;
  bytes_at _ _ n := replicate (Z.to_nat n) "?"%char;
  asn1_data _ _ := []
|}.
#[local] Instance ReadingBack : ReadsBack (H := ReadingLibrary).
Proof.
  split; intros h s; [intros v Hv|intros v Hv|done|done]; cbn; by rewrite Hv.
Qed.

Definition w_ranged : World :=
  set_objs {[1 := new_policy_obj 1 new_policy_ctx 0]}
    (set_ctxs {[1 := set_ctx_sslConfig 7 new_policy_ctx]} w_one).

Lemma version_range_exact_witness :
  exists w1, SetProtocolVersion (H := ReadingLibrary) 1 TLS1_2_VERSION TLS1_3_VERSION
               (Some [TLS1_2_VERSION]) w_ranged = Some (SCF_SUCCESS, w1) /\
    wp (CheckVersion (H := ReadingLibrary) 1) (fun st _ => st = SSL_SUCCESS) w1.
Proof.
  eexists. split; [vm_compute; reflexivity|].
  match goal with |- wp _ _ ?w1 => assert (Hrun : SetProtocolVersion (H := ReadingLibrary) 1
    TLS1_2_VERSION TLS1_3_VERSION (Some [TLS1_2_VERSION]) w_ranged = Some (SCF_SUCCESS, w1))
    by (vm_compute; reflexivity) end.
  revert Hrun. match goal with |- _ = Some (_, ?w1) -> _ => generalize w1 end. intros w1 Hrun.
  destruct (version_range_exact (H := ReadingLibrary) 1 (new_policy_obj 1 new_policy_ctx 0)
    (set_ctx_sslConfig 7 new_policy_ctx) TLS1_2_VERSION TLS1_3_VERSION [TLS1_2_VERSION] w_ranged w1
    ltac:(done) eq_refl ltac:(done) eq_refl ltac:(done) eq_refl eq_refl Hrun) as [_ Hwp].
  eapply wp_mono; [exact Hwp|]. intros st ? [Hst _]. apply Hst. right. split; [by left|].
  exists TLS1_3_VERSION. split; [by split; vm_compute|]. split; [by right|].
  rewrite list_elem_of_singleton. by vm_compute.
Defined.

(** With both bounds 0 the check passes although both versions are forbidden. *)
Example zero_bounds_pass :
  match SetProtocolVersion (H := ReadingLibrary) 1 0 0 (Some [TLS1_2_VERSION; TLS1_3_VERSION]) w_ranged with
  | Some (st, w1) => st = SCF_SUCCESS /\ fst <$> CheckVersion (H := ReadingLibrary) 1 w1 = Some SSL_SUCCESS
  | None => False
  end.
Proof. by vm_compute. Qed.

(** ** The password callback *)
Section password.
Context `{SecureC}.

(** The PEM password callback never writes outside OpenSSL's buffer: it leaves the
    first [min(size, length)] bytes of the password and the rest untouched, returns how
    many it wrote, and without a password leaves zeros and returns 0. *)
Theorem DefaultPemPasswordCb_exact buf size rwflag userdata :
  0 < size <= Z.of_nat (length buf) -> size <= INT32_MAX ->
  (forall pwd, userdata = Some pwd -> slen pwd <= INT32_MAX) ->
  let n := match userdata with Some pwd => Z.min size (slen pwd) | None => 0 end in
  exists out, DefaultPemPasswordCb (Some buf) size rwflag userdata = (n, Some out) /\
    length out = length buf /\ 0 <= n <= size /\
    match userdata with
    | Some pwd => out = take (Z.to_nat n) (bytes pwd) ++ drop (Z.to_nat n) buf
    | None => out = replicate (Z.to_nat size) NUL ++ drop (Z.to_nat size) buf
    end.
Proof.
  intros Hsz Hmax Hpwd n. unfold DefaultPemPasswordCb.
  assert (Hs : 0 < size <= SECUREC_MEM_MAX_LEN)
    by (unfold SECUREC_MEM_MAX_LEN; unfold INT32_MAX in Hmax; lia).
  rewrite (proj2 (Z.eqb_neq size 0)) by lia.
  destruct userdata as [pwd|].
  - pose proof (slen_nonneg pwd).
    assert (Hn : (if size <? slen pwd then size else slen pwd) = n)
      by (unfold n; destruct (size <? slen pwd) eqn:E; bools; lia).
    rewrite Hn. assert (Hle : (Z.to_nat n <= length (bytes pwd))%nat)
      by (rewrite length_bytes; unfold n, slen; lia).
    rewrite memcpy_s_ok by (rewrite ?length_take; lia).
    rewrite Z.eqb_refl. cbn [negb]. rewrite length_take_le by done.
    eexists. split; [done|]. split; [|split; [lia|done]].
    rewrite length_app, length_take_le, length_drop by done. lia.
  - rewrite memset_s_ok by lia. cbn [snd].
    eexists. split; [done|]. split; [|split; [lia|done]].
    rewrite length_app, length_replicate, length_drop. lia.
Qed.
End password.

Lemma DefaultPemPasswordCb_exact_witness :
  exists out, DefaultPemPasswordCb (Some (replicate 8 "?"%char)) 4 0 (Some "secret"%string)
              = (4, Some out) /\ out = bytes "secr????".
Proof.
  destruct (DefaultPemPasswordCb_exact (replicate 8 "?"%char) 4 0 (Some "secret"%string)
    ltac:(simpl; lia) ltac:(by vm_compute) ltac:(intros ? [= <-]; by vm_compute))
    as (out & Hrun & _ & _ & Hout).
  exists out. split; [exact Hrun|]. rewrite Hout. by vm_compute.
Defined.

(** ** What a successful [SCF_SetPolicy] has configured *)

(** The history grew by [es], newest first. *)
Definition since (w w' : World) (es : History) : Prop := w_log w' = es ++ w_log w.

Lemma since_trans w1 w2 w3 es fs : since w1 w2 es -> since w2 w3 fs -> since w1 w3 (fs ++ es).
Proof. unfold since. intros H1 ->. by rewrite H1, app_assoc. Qed.

Section policy.
Context `{Library} `{SecureC} `{FileSystem} `{Decryptor}.

Lemma wp_set_log_lib f args (Q : Z -> World -> Prop) w :
  (forall r w', since w w' [mkEvent f args r] -> w_ctxs w' = w_ctxs w -> Q r w') ->
  wp (lib f args) Q w.
Proof. intros HQ. apply wp_lib. intros r _. by apply HQ. Qed.

(** The calls that configure an [SSL_CTX], and those a history makes, newest first. *)
Definition configures (f : LibFn) : bool :=
  match f with
  | SSL_CTX_ctrl | SSL_CTX_set_options | SSL_CTX_set_security_level | SSL_CTX_set_verify
  | SSL_CTX_set_cert_verify_callback | SSL_CTX_set_ciphersuites
  | SSL_CTX_set_psk_find_session_callback | SSL_CTX_set_psk_use_session_callback
  | SSL_CTX_load_verify_locations | SSL_CTX_use_certificate | SSL_CTX_use_certificate_file
  | SSL_CTX_use_certificate_chain_file | SSL_CTX_use_PrivateKey | SSL_CTX_use_PrivateKey_file
  | SSL_CTX_set_default_passwd_cb | SSL_CTX_set_default_passwd_cb_userdata => true
  | _ => false
  end.
Definition settings (es : History) : list (LibFn * list Arg) :=
  (fun e => (ev_fn e, ev_args e)) <$> List.filter (fun e => configures (ev_fn e)) es.

Lemma settings_app es fs : settings (es ++ fs) = settings es ++ settings fs.
Proof. unfold settings. by rewrite List.filter_app, fmap_app. Qed.

(** OpenSSL took the two version bounds, and reads back that session caching is off. *)
Definition accepted (e : Event) : Prop :=
  match ev_fn e, ev_args e with
  | SSL_CTX_ctrl, [_; AInt op; _; _] =>
      (op = SSL_CTRL_SET_MIN_PROTO_VERSION \/ op = SSL_CTRL_SET_MAX_PROTO_VERSION ->
         ev_ret e = SSL_SUCCESS) /\
      (op = SSL_CTRL_GET_SESS_CACHE_MODE -> ev_ret e = SSL_SESS_CACHE_OFF)
  | _, _ => True
  end.

(** The call that created the [SSL_CTX] [s] for the method [m]. *)
Definition creates_ctx (m s : Z) (e : Event) : Prop :=
  ev_ret e = s /\
  (ev_fn e = SSL_CTX_new /\ ev_args e = [AInt m] \/
   ev_fn e = SSL_CTX_new_ex /\ exists p, ev_args e = [AInt p; AInt nullptr; AInt m]).

Lemma wp_log_engine engine (Q : unit -> World -> Prop) w :
  (forall w' es, since w w' es -> settings es = [] -> w_ctxs w' = w_ctxs w -> Q tt w') ->
  wp (log_engine engine) Q w.
Proof.
  intros HQ. unfold log_engine. apply wp_bind, wp_set_log_lib. intros r1 w1 Hs1 Hc1.
  apply wp_bind, wp_set_log_lib. intros r2 w2 Hs2 Hc2. apply wp_ret.
  eapply HQ; [by eapply since_trans|done|congruence].
Qed.

Lemma wp_new_ssl_ctx logged m (Q : Z -> World -> Prop) w :
  (forall s w' es, since w w' es -> settings es = [] -> w_ctxs w' = w_ctxs w ->
     (s <> nullptr -> Exists (creates_ctx m s) es) -> Q s w') ->
  wp (new_ssl_ctx logged m) Q w.
Proof.
  intros HQ. unfold new_ssl_ctx. apply wp_bind, wp_gets. apply wp_bind.
  assert (Hlast : forall s w' es, since w w' es -> settings es = [] -> w_ctxs w' = w_ctxs w ->
    (s <> nullptr -> Exists (creates_ctx m s) es) ->
    wp (if s =? nullptr then lib SSL_CTX_new [AInt m] else mret s) Q w').
  { intros s w' es Hs Ht Hc He. destruct (s =? nullptr) eqn:E; bools.
    - apply wp_set_log_lib. intros r w2 Hs2 Hc2.
      eapply HQ; [by eapply since_trans|by rewrite settings_app, Ht|congruence|].
      intros _. constructor. split; [done|by left].
    - apply wp_ret. by eapply HQ. }
  assert (Hnone : forall w' es, since w w' es -> settings es = [] -> w_ctxs w' = w_ctxs w ->
    wp (if nullptr =? nullptr then lib SSL_CTX_new [AInt m] else mret nullptr) Q w')
    by (intros w' es Hs Ht Hc; by eapply Hlast).
  destruct (w_cryptoEngine w =? nullptr); [apply wp_ret; by apply (Hnone _ [])|].
  apply wp_bind, wp_set_log_lib. intros p w1 Hs1 Hc1.
  destruct (p =? nullptr); [apply wp_ret; by eapply Hnone|].
  apply wp_bind, wp_set_log_lib. intros l w2 Hs2 Hc2.
  assert (Hs12 := since_trans _ _ _ _ _ Hs1 Hs2).
  destruct (l =? 0); [apply wp_ret; eapply Hnone; [done|done|congruence]|].
  apply wp_bind, wp_set_log_lib. intros s w3 Hs3 Hc3.
  assert (Hs13 := since_trans _ _ _ _ _ Hs12 Hs3).
  assert (Hnew : Exists (creates_ctx m s)
    [mkEvent SSL_CTX_new_ex [AInt p; AInt nullptr; AInt m] s])
    by (constructor; split; [done|right; split; [done|by exists p]]).
  apply wp_bind. destruct (logged && _).
  - apply wp_log_engine. intros w4 es4 Hs4 Ht4 Hc4. apply wp_ret.
    eapply Hlast; [by eapply since_trans|by rewrite settings_app, Ht4|congruence|].
    intros _. apply Exists_app. right. apply Exists_app. by left.
  - apply wp_ret, wp_ret. eapply Hlast; [done|done|congruence|]. intros _. apply Exists_app. by left.
Qed.

Lemma wp_FreeSsl ctx c (Q : unit -> World -> Prop) w :
  w_ctxs w !! ctx = Some c -> ctx <> nullptr ->
  (forall w' es, since w w' es -> settings es = [] -> Forall accepted es ->
    w_ctxs w' = <[ctx := set_ctx_sslConfig nullptr c]> (w_ctxs w) -> Q tt w') ->
  wp (FreeSsl ctx) Q w.
Proof.
  intros Hc Hn HQ. unfold FreeSsl. rewrite (proj2 (Z.eqb_neq _ _) Hn).
  apply wp_bind. eapply wp_get_ctx; [done|].
  destruct (ctx_sslConfig c =? nullptr) eqn:E; bools.
  - apply wp_ret, (HQ _ []); [done|done|done|]. symmetry. apply insert_id.
    rewrite Hc. f_equal. rewrite <- E. by destruct c.
  - apply wp_bind, wp_set_log_lib. intros r w1 Hs Hc1.
    eapply wp_upd_ctx; [by rewrite Hc1|]. eapply HQ; [exact Hs|done|by repeat constructor|].
    simpl. by rewrite Hc1.
Qed.

(** What an [SSL_CTX] is told for a policy mode, newest first. *)
Definition ctrl (s op arg : Z) : LibFn * list Arg :=
  (SSL_CTX_ctrl, [AInt s; AInt op; AInt arg; AInt nullptr]).
Definition cache_off (s : Z) : list (LibFn * list Arg) :=
  [ctrl s SSL_CTRL_GET_SESS_CACHE_MODE 0; ctrl s SSL_CTRL_SET_SESS_CACHE_MODE SSL_SESS_CACHE_OFF].
Definition no_renegotiation (s : Z) : LibFn * list Arg :=
  (SSL_CTX_set_options, [AInt s; AInt SSL_OP_NO_RENEGOTIATION]).
Definition bounds_set (s lo hi : Z) : list (LibFn * list Arg) :=
  [ctrl s SSL_CTRL_SET_MAX_PROTO_VERSION hi; ctrl s SSL_CTRL_SET_MIN_PROTO_VERSION lo].
Definition tls_settings (s lo hi : Z) : list (LibFn * list Arg) :=
  no_renegotiation s :: bounds_set s lo hi ++ cache_off s
    ++ [(SSL_CTX_set_security_level, [AInt s; AInt 2])].
Definition mode_settings (mode s : Z) : list (LibFn * list Arg) :=
  if mode =? SCF_POLICY_HIGH then tls_settings s TLS1_3_VERSION TLS1_3_VERSION
  else if mode =? SCF_POLICY_MIDDLE then tls_settings s TLS1_2_VERSION TLS1_3_VERSION
  else no_renegotiation s :: cache_off s.

Lemma wp_disable_session_cache s (Q : bool -> World -> Prop) w :
  (forall (b : bool) w' es, since w w' es -> w_ctxs w' = w_ctxs w ->
    (b = true -> settings es = cache_off s /\ Forall accepted es) -> Q b w') ->
  wp (disable_session_cache s) Q w.
Proof.
  intros HQ. unfold disable_session_cache, SSL_CTX_set_session_cache_mode,
    SSL_CTX_get_session_cache_mode.
  apply wp_bind, wp_set_log_lib. intros r w1 Hs1 Hc1.
  apply wp_bind, wp_set_log_lib. intros m w2 Hs2 Hc2.
  apply wp_ret. eapply HQ; [by eapply since_trans|congruence|].
  intros Hm. bools. subst m. split; [done|].
  repeat constructor; cbn; intros; (reflexivity || (exfalso; naive_solver)).
Qed.

Lemma wp_SetProtocolVersion_None ctx c lo hi (Q : Z -> World -> Prop) w :
  w_ctxs w !! ctx = Some c ->
  (forall r w', r <> SCF_SUCCESS -> w_ctxs w' = w_ctxs w -> Q r w') ->
  (forall w' es, since w w' es -> w_ctxs w' = w_ctxs w ->
    settings es = bounds_set (ctx_sslConfig c) lo hi -> Forall accepted es -> Q SCF_SUCCESS w') ->
  wp (SetProtocolVersion ctx lo hi None) Q w.
Proof.
  intros Hc Hfail Hok. unfold SetProtocolVersion, SSL_CTX_set_min_proto_version,
    SSL_CTX_set_max_proto_version.
  destruct (ctx =? nullptr); [by apply wp_ret, Hfail|].
  apply wp_bind. eapply wp_get_ctx; [done|].
  apply wp_bind, wp_set_log_lib. intros r1 w1 Hs1 Hc1.
  destruct (negb (r1 =? SSL_SUCCESS)) eqn:E1; [by apply wp_ret, Hfail|].
  apply wp_bind, wp_set_log_lib. intros r2 w2 Hs2 Hc2.
  destruct (negb (r2 =? SSL_SUCCESS)) eqn:E2; [apply wp_ret, Hfail; [done|congruence]|].
  bools. subst r1 r2.
  apply wp_ret. eapply Hok; [by eapply since_trans|congruence|done|].
  by repeat constructor.
Qed.

Lemma set_config_twice s t c : set_ctx_sslConfig s (set_ctx_sslConfig t c) = set_ctx_sslConfig s c.
Proof. done. Qed.

(** The method a role asks for, and the calls up to the creation of [s] for it. *)
Definition role_method (role : Z) : LibFn :=
  if role =? SCF_ROLE_SERVER then TLS_server_method else TLS_client_method.
Definition new_context (role s : Z) (es : History) : Prop :=
  settings es = [] /\
  exists m, mkEvent (role_method role) [] m ∈ es /\ Exists (creates_ctx m s) es.

(** A successful creation of the [SSL_CTX], from either [InitSsl] or [InitSslCustomer]. *)
Definition created (ctx : Z) (c : SCFPolicyCtx) (told : Z -> list (LibFn * list Arg))
    (Q : Z -> World -> Prop) (w : World) : Prop :=
  forall w' s after before, since w w' (after ++ before) ->
    w_ctxs w' = <[ctx := set_ctx_sslConfig s c]> (w_ctxs w) ->
    s <> nullptr -> new_context (ctx_role c) s before ->
    settings after = told s -> Forall accepted after -> Q SCF_SUCCESS w'.

Lemma wp_CalGetSslMethod role (Q : Z -> World -> Prop) w :
  (forall m w' es, since w w' es -> w_ctxs w' = w_ctxs w -> settings es = [] ->
    (m <> nullptr -> mkEvent (role_method role) [] m ∈ es) -> Q m w') ->
  wp (CalGetSslMethod role) Q w.
Proof.
  intros HQ. unfold CalGetSslMethod, role_method in *. destruct (role =? SCF_ROLE_SERVER).
  - apply wp_set_log_lib. intros m w1 Hs Hc. eapply HQ; [done..|]. intros _. by left.
  - destruct (role =? SCF_ROLE_CLIENT).
    + apply wp_set_log_lib. intros m w1 Hs Hc. eapply HQ; [done..|]. intros _. by left.
    + apply wp_ret. by apply (HQ _ _ []).
Qed.

(** The part [InitSsl] and [InitSslCustomer] share: a fresh context for the role. *)
Lemma wp_fresh_context logged c (k : Z -> M Z) (Q : Z -> World -> Prop) w :
  (forall r w', r <> SCF_SUCCESS -> Q r w') ->
  (forall s w' before, since w w' before -> w_ctxs w' = w_ctxs w -> s <> nullptr ->
    new_context (ctx_role c) s before -> wp (k s) Q w') ->
  wp (method ← CalGetSslMethod (ctx_role c);
      return_if method =? nullptr with (mret SCF_SSL_ERR_ROLE) ;;
      s ← new_ssl_ctx logged method;
      return_if s =? nullptr with (mret SCF_ERRNO_MEM_ALLOC) ;; k s) Q w.
Proof.
  intros Hfail Hok. apply wp_bind, wp_CalGetSslMethod. intros m w1 es1 Hs1 Hc1 Ht1 Hm.
  destruct (m =? nullptr) eqn:Em; [by apply wp_ret, Hfail|]. bools.
  apply wp_bind, wp_new_ssl_ctx. intros s w2 es2 Hs2 Ht2 Hc2 He.
  destruct (s =? nullptr) eqn:Es; [by apply wp_ret, Hfail|]. bools.
  eapply Hok; [by eapply since_trans|congruence|done|]. split; [by rewrite settings_app, Ht1, Ht2|].
  exists m. split; [apply elem_of_app; right; by apply Hm|]. apply Exists_app. left. by apply He.
Qed.

Lemma wp_InitSsl ctx c lo hi (Q : Z -> World -> Prop) w :
  ctx <> nullptr -> w_ctxs w !! ctx = Some c ->
  (forall r w', r <> SCF_SUCCESS -> Q r w') ->
  created ctx c (fun s => tls_settings s lo hi) Q w ->
  wp (InitSsl ctx lo hi None) Q w.
Proof.
  intros Hn Hc Hfail Hok. unfold InitSsl. apply wp_bind. eapply wp_get_ctx; [done|].
  apply wp_fresh_context; [done|]. intros s w2 before Hb Hc2 Hsn Hnew.
  apply wp_bind, wp_set_log_lib. intros r3 w3 Hs3 Hc3.
  apply wp_bind, wp_disable_session_cache. intros b w4 es4 Hs4 Hc4 Hoff.
  destruct b; cbn [negb]; [|by apply wp_bind, wp_set_log_lib; intros; apply wp_ret, Hfail].
  destruct (Hoff eq_refl) as [Ht4 A4].
  assert (Hlive : w_ctxs w4 !! ctx = Some c) by by rewrite Hc4, Hc3, Hc2.
  apply wp_bind. eapply wp_FreeSsl; [done|done|]. intros w5 es5 Hs5 Ht5 A5 Hc5.
  apply wp_bind. eapply wp_upd_ctx; [rewrite Hc5; apply lookup_insert_eq|].
  rewrite set_config_twice, Hc5, insert_insert_eq, Hc4, Hc3, Hc2.
  apply wp_bind. eapply wp_SetProtocolVersion_None; [apply lookup_insert_eq| |].
  - intros r w6 Hr Hc6. rewrite (proj2 (Z.eqb_neq _ _) Hr). cbn [negb].
    apply wp_bind. eapply wp_FreeSsl; [rewrite Hc6; apply lookup_insert_eq|done|].
    intros w7 es7 _ _ _ _. by apply wp_ret, Hfail.
  - intros w6 es6 Hs6 Hc6 Ht6 A6. rewrite Z.eqb_refl. cbn [negb].
    apply wp_bind. eapply wp_get_ctx; [rewrite Hc6; apply lookup_insert_eq|].
    apply wp_bind, wp_set_log_lib. intros r7 w7 Hs7 Hc7. apply wp_ret.
    match type of Hs3 with since _ _ ?l => set (es3 := l) in * end.
    match type of Hs7 with since _ _ ?l => set (es7 := l) in * end.
    eapply Hok with (s := s) (after := es7 ++ es6 ++ es5 ++ es4 ++ es3) (before := before).
    + unfold since in *. cbn [w_log set_ctxs] in Hs6.
      by rewrite Hs7, Hs6, Hs5, Hs4, Hs3, Hb, <- !app_assoc.
    + rewrite Hc7, Hc6. done.
    + done.
    + done.
    + rewrite !settings_app, Ht6, Ht5, Ht4. done.
    + rewrite !Forall_app. split_and!; [by repeat constructor|done..|by repeat constructor].
Qed.

Lemma wp_InitSslCustomer ctx c (Q : Z -> World -> Prop) w :
  ctx <> nullptr -> w_ctxs w !! ctx = Some c ->
  (forall r w', r <> SCF_SUCCESS -> Q r w') ->
  created ctx c (fun s => no_renegotiation s :: cache_off s) Q w ->
  wp (InitSslCustomer ctx) Q w.
Proof.
  intros Hn Hc Hfail Hok. unfold InitSslCustomer. apply wp_bind. eapply wp_get_ctx; [done|].
  apply wp_fresh_context; [done|]. intros s w2 before Hb Hc2 Hsn Hnew.
  apply wp_bind, wp_disable_session_cache. intros b w4 es4 Hs4 Hc4 Hoff.
  destruct b; cbn [negb]; [|by apply wp_bind, wp_set_log_lib; intros; apply wp_ret, Hfail].
  destruct (Hoff eq_refl) as [Ht4 A4].
  apply wp_bind, wp_set_log_lib. intros r3 w3 Hs3 Hc3.
  assert (Hlive : w_ctxs w3 !! ctx = Some c) by by rewrite Hc3, Hc4, Hc2.
  apply wp_bind. eapply wp_FreeSsl; [done|done|]. intros w5 es5 Hs5 Ht5 A5 Hc5.
  apply wp_bind. eapply wp_upd_ctx; [rewrite Hc5; apply lookup_insert_eq|].
  rewrite set_config_twice, Hc5, insert_insert_eq, Hc3, Hc4, Hc2. apply wp_ret.
  match type of Hs3 with since _ _ ?l => set (es3 := l) in * end.
  eapply Hok with (s := s) (after := es5 ++ es3 ++ es4) (before := before).
  - unfold since in *. cbn [w_log set_ctxs]. by rewrite Hs5, Hs3, Hs4, Hb, <- !app_assoc.
  - done.
  - done.
  - done.
  - rewrite !settings_app, Ht5, Ht4. done.
  - rewrite !Forall_app. split_and!; [done|by repeat constructor|done].
Qed.

(** The verification mode OpenSSL is given for an SCF mode. *)
Definition openssl_verify (v : Z) : Z :=
  if v =? SCF_VERIFY_MODE_NONE then SSL_VERIFY_NONE
  else if v =? SCF_VERIFY_DEFAULT then 3
  else Z.b2z (Z.testbit v 2) + 2 * Z.b2z (Z.testbit v 3).

Lemma land_bit v n : 0 <= n -> (Z.land v (2 ^ n) =? 2 ^ n) = Z.testbit v n.
Proof.
  intros Hn. apply eq_true_iff_eq. rewrite Z.eqb_eq. split.
  - intros Heq. apply (f_equal (fun x => Z.testbit x n)) in Heq.
    rewrite Z.land_spec, Z.pow2_bits_true, andb_true_r in Heq by done. done.
  - intros Hb. apply Z.bits_inj'. intros i Hi. rewrite Z.land_spec.
    destruct (decide (i = n)) as [->|Hne]; [by rewrite Z.pow2_bits_true, Hb|].
    by rewrite Z.pow2_bits_false, andb_false_r by congruence.
Qed.

Lemma verify_bits_spec v :
  verify_bits v = Z.b2z (Z.testbit v 2) + 2 * Z.b2z (Z.testbit v 3).
Proof.
  unfold verify_bits. change SCF_VERIFY_PEER with (2 ^ 2).
  change SCF_VERIFY_FAIL_IF_NO_PEER_CERT with (2 ^ 3).
  rewrite !land_bit by lia. by destruct (Z.testbit v 2), (Z.testbit v 3).
Qed.

Lemma wp_InitPolicyByMode ctx c (Q : Z -> World -> Prop) w :
  ctx <> nullptr -> w_ctxs w !! ctx = Some c ->
  (forall r w', r <> SCF_SUCCESS -> Q r w') ->
  created ctx c (mode_settings (ctx_policyMode c)) Q w ->
  wp (InitPolicyByMode ctx) Q w.
Proof.
  intros Hn Hc Hfail Hok. unfold InitPolicyByMode. apply wp_bind. eapply wp_get_ctx; [done|].
  apply wp_bind.
  assert (Htail : forall r w1, r <> SCF_SUCCESS -> wp (_ ← (if negb (r =? SCF_SUCCESS)
      then print_errors else mret tt); mret r) Q w1).
  { intros r w1 Hr. rewrite (proj2 (Z.eqb_neq _ _) Hr). cbn [negb]. unfold print_errors.
    apply wp_bind, wp_bind, wp_lib. intros q _. by apply wp_ret, wp_ret, Hfail. }
  assert (Hdone : forall w1, Q SCF_SUCCESS w1 -> wp (_ ← (if negb (SCF_SUCCESS =? SCF_SUCCESS)
      then print_errors else mret tt); mret SCF_SUCCESS) Q w1)
    by (intros w1 HQ; rewrite Z.eqb_refl; cbn [negb]; by apply wp_bind, wp_ret, wp_ret).
  unfold mode_settings in Hok. destruct (ctx_policyMode c =? SCF_POLICY_HIGH);
    [|destruct (ctx_policyMode c =? SCF_POLICY_MIDDLE)].
  - eapply wp_InitSsl; [done|done|done|]. intros w1 s after before ??????. by eapply Hdone, Hok.
  - eapply wp_InitSsl; [done|done|done|]. intros w1 s after before ??????. by eapply Hdone, Hok.
  - eapply wp_InitSslCustomer; [done|done|done|].
    intros w1 s after before ??????. by eapply Hdone, Hok.
Qed.

Lemma wp_SetVerifyMode ctx c v (Q : Z -> World -> Prop) w :
  w_ctxs w !! ctx = Some c ->
  (forall r w', r <> SCF_SUCCESS -> Q r w') ->
  (forall w' q bits, bits = (if v =? SCF_VERIFY_MODE_NONE then SSL_VERIFY_NONE else verify_bits v) ->
    since w w' [mkEvent SSL_CTX_set_verify [AInt (ctx_sslConfig c); AInt bits; AInt nullptr] q] ->
    w_ctxs w' = w_ctxs w -> Q SCF_SUCCESS w') ->
  wp (SetVerifyMode ctx v) Q w.
Proof.
  intros Hc Hfail Hok. unfold SetVerifyMode.
  destruct (ctx =? nullptr); [by apply wp_ret, Hfail|].
  apply wp_bind. eapply wp_get_ctx; [done|].
  destruct (ctx_sslConfig c =? nullptr); [by apply wp_ret, Hfail|].
  destruct (v =? SCF_VERIFY_MODE_NONE); apply wp_bind, wp_set_log_lib; intros q w1 Hs Hc1;
    apply wp_ret; by eapply Hok.
Qed.

(** (C27) A successful [SCF_SetPolicy] has put the policy into force. The context records
    the role and modes and holds an [SSL_CTX] that this call created with [SSL_CTX_new] or
    [SSL_CTX_new_ex] for the method of the role. From its creation to the end of the call
    the configuration calls are exactly these, all on the new [SSL_CTX]: for HIGH and MIDDLE
    the security level 2, then session caching off and read back as off, then the version
    bounds (TLS 1.3 only for HIGH, TLS 1.2 to 1.3 for MIDDLE), accepted by OpenSSL, and not
    changed again; for every mode no renegotiation; last of all the verification mode, which
    checks the peer unless the caller asked for no verification at all. *)
Theorem SetPolicy_enforced ctx c role verifyMode policyMode w r w' :
  w_ctxs w !! ctx = Some c ->
  SCF_SetPolicy ctx role verifyMode policyMode w = Some (r, w') -> r = SCF_SUCCESS ->
  (role = SCF_ROLE_CLIENT \/ role = SCF_ROLE_SERVER) /\
  (verifyMode <> SCF_VERIFY_MODE_NONE -> Z.testbit (openssl_verify verifyMode) 0 = true) /\
  exists s after before q, w_log w' = mkEvent SSL_CTX_set_verify
      [AInt s; AInt (openssl_verify verifyMode); AInt nullptr] q :: after ++ before ++ w_log w /\
    s <> nullptr /\ new_context role s before /\
    settings after = mode_settings policyMode s /\ Forall accepted after /\
    w_ctxs w' !! ctx = Some (set_ctx_sslConfig s (set_ctx_policyMode policyMode
      (set_ctx_verifyMode verifyMode (set_ctx_role role c)))).
Proof.
  intros Hc Hrun. revert r w' Hrun.
  match goal with |- forall r w', _ -> ?P => enough (wp (SCF_SetPolicy ctx role verifyMode policyMode)
    (fun r w' => P) w) as Hwp by (intros r w' Hrun; exact (wp_run _ _ _ _ _ Hwp Hrun)) end.
  unfold SCF_SetPolicy.
  destruct (_ || _)%bool eqn:E; [by apply wp_ret|].
  apply orb_false_iff in E as [E Epm]. apply orb_false_iff in E as [E Evm].
  apply orb_false_iff in E as [En Erole]. bools.
  assert (Hrole : role = SCF_ROLE_CLIENT \/ role = SCF_ROLE_SERVER).
  { unfold CheckRole in Erole. destruct (_ || _)%bool eqn:E; [|done].
    apply orb_true_iff in E as [E|E]; bools; [by left|by right]. }
  assert (Hpeer : verifyMode <> SCF_VERIFY_MODE_NONE ->
    Z.testbit (openssl_verify verifyMode) 0 = true).
  { intros Hv. unfold openssl_verify. rewrite (proj2 (Z.eqb_neq _ _) Hv).
    unfold CheckVerifyMode in Evm. rewrite (proj2 (Z.eqb_neq _ _) Hv) in Evm. cbn [orb] in Evm.
    destruct (verifyMode =? SCF_VERIFY_DEFAULT); [done|]. cbn [orb] in Evm.
    change SCF_VERIFY_PEER with (2 ^ 2) in Evm. rewrite land_bit in Evm by lia.
    destruct (Z.testbit verifyMode 2); [|done]. by destruct (Z.testbit verifyMode 3). }
  unfold CHECK_RET, CHECK_SCF_INIT, CHECK_SCF_ADAPTOR.
  apply wp_bind, wp_gets. destruct (w_scfInitialized w); [|by apply wp_ret].
  apply wp_bind, wp_gets. destruct (w_adaptor w); [|by apply wp_ret].
  apply wp_bind. eapply wp_upd_ctx; [done|].
  apply wp_bind. eapply wp_upd_ctx; [apply lookup_insert_eq|].
  apply wp_bind. eapply wp_upd_ctx; [apply lookup_insert_eq|].
  apply wp_bind. eapply wp_InitPolicyByMode; [done|apply lookup_insert_eq| |].
  { intros r w1 Hr. rewrite (proj2 (Z.eqb_neq _ _) Hr). cbn [negb]. by apply wp_ret. }
  intros w1 s after before Hs Hc1 Hsn Hnew Hset Hacc. rewrite Z.eqb_refl. cbn [negb]. apply wp_bind.
  eapply wp_SetVerifyMode; [rewrite Hc1; apply lookup_insert_eq| |].
  { intros r w2 Hr. rewrite (proj2 (Z.eqb_neq _ _) Hr). cbn [negb]. by apply wp_ret. }
  intros w2 q bits Hbits Hs2 Hc2. rewrite Z.eqb_refl. cbn [negb]. apply wp_ret. intros _.
  split; [done|]. split; [done|]. exists s, after, before, q. split_and!.
  - unfold since in *. rewrite Hs2, Hs. cbn [app]. rewrite <- app_assoc. do 4 f_equal.
    rewrite Hbits. unfold openssl_verify.
    destruct (verifyMode =? SCF_VERIFY_DEFAULT) eqn:Ed; bools; [by subst verifyMode|].
    destruct (verifyMode =? SCF_VERIFY_MODE_NONE); [done|]. by rewrite verify_bits_spec.
  - done.
  - exact Hnew.
  - exact Hset.
  - exact Hacc.
  - rewrite Hc2, Hc1. apply lookup_insert_eq.
Qed.
End policy.

(** ** Pre-shared keys *)
Section psk.
Context `{Library} `{SecureC} `{FileSystem}.

(** (C35) The server's PSK lookup, on every path and call by call, and what it does to
    certificate verification. Without an object or a callback, and when the application's
    callback fails, the lookup fails and nothing more happens. A session without a cipher is
    freed, OpenSSL is handed none, and the lookup fails. In the two other cases it succeeds,
    with the callback's session, or with none when the callback found none; and then its last
    step switches certificate verification of this connection off: also when there is no
    session, so that the handshake goes on with certificates that nobody checks. *)
Theorem PskFindSession_verification ssl id idLen w o :
  let obj := answer (w_log w) SSL_get_ex_data [AInt ssl; AInt SSL_EX_DATA_ID] in
  let got := mkEvent SSL_get_ex_data [AInt ssl; AInt SSL_EX_DATA_ID] obj in
  let unchecked q := mkEvent SSL_set_verify [AInt ssl; AInt SSL_VERIFY_NONE; AInt nullptr] q in
  (obj <> nullptr -> w_objs w !! obj = Some o) ->
  wp (PskFindSessionCbWrapper ssl id idLen (Some nullptr)) (fun res w' => exists es, since w w' es /\
    if (obj =? nullptr) || (obj_pskFindSessionCb o =? nullptr)
    then res = (SSL_ERROR, Some nullptr) /\ es = [got]
    else exists ret,
      let asked := mkEvent cb_pskFindSession
        [AInt (obj_pskFindSessionCb o); AInt obj; ABytes id; AInt (wrap32 idLen)] ret in
      let found := out_value (asked :: got :: w_log w) in
      let examined cipher := mkEvent SSL_SESSION_get0_cipher [AInt found] cipher in
      (ret <> SCF_SUCCESS /\ res.1 = SSL_ERROR /\ es = [asked; got]) \/
      (ret = SCF_SUCCESS /\
        ((found <> nullptr /\ res = (SSL_ERROR, Some nullptr) /\
            exists q, es = [mkEvent SSL_SESSION_free [AInt found] q; examined nullptr; asked; got]) \/
         (found <> nullptr /\ res = (SSL_SUCCESS, Some found) /\
            exists cipher q, cipher <> nullptr /\ es = [unchecked q; examined cipher; asked; got]) \/
         (found = nullptr /\ res = (SSL_SUCCESS, Some nullptr) /\
            exists q, es = [unchecked q; asked; got])))) w.
Proof.
  intros obj got unchecked Ho. unfold PskFindSessionCbWrapper.
  apply wp_bind, wp_lib. intros p Hp. fold obj in Hp. subst p.
  destruct (obj =? nullptr) eqn:E; [apply wp_ret; by exists [got]|]. bools.
  apply wp_bind. eapply wp_get_obj; [by apply Ho|].
  destruct (obj_pskFindSessionCb o =? nullptr); [apply wp_ret; by exists [got]|]. cbn [orb].
  apply wp_bind, wp_lib. intros ret _. set (asked := mkEvent cb_pskFindSession _ ret).
  apply wp_bind, wp_gets.
  destruct (ret =? SCF_SUCCESS) eqn:Er; bools; cbn [negb].
  2:{ apply wp_ret. exists [asked; got]. split; [done|]. exists ret. by left. }
  set (found := out_value _). apply wp_bind.
  destruct (found =? nullptr) eqn:Ef; bools.
  - apply wp_ret. apply wp_bind, wp_lib. intros q _. apply wp_ret.
    exists [unchecked q; asked; got]. split; [done|]. exists ret. right. split; [done|].
    right; right. split; [exact Ef|]. rewrite Ef. split; [done|by exists q].
  - apply wp_bind, wp_lib. intros cipher _.
    destruct (cipher =? nullptr) eqn:Ec; cbn [negb]; bools.
    + apply wp_bind, wp_lib. intros d _. apply wp_ret, wp_ret. subst cipher.
      eexists [_; _; asked; got]. split; [reflexivity|]. exists ret. right. split; [done|].
      left. split; [done|]. split; [done|by exists d].
    + apply wp_ret. apply wp_bind, wp_lib. intros q _. apply wp_ret.
      eexists [_; _; asked; got]. split; [reflexivity|]. exists ret. right. split; [done|].
      right; left. split; [done|]. split; [done|by exists cipher, q].
Qed.
End psk.

(** ** Witnesses *)
Section witnesses.
Lemma SetPolicy_enforced_witness :
  exists w', SCF_SetPolicy 1 SCF_ROLE_SERVER SCF_VERIFY_DEFAULT SCF_POLICY_HIGH w_one
             = Some (SCF_SUCCESS, w') /\
    exists s after before q, w_log w' = mkEvent SSL_CTX_set_verify [AInt s; AInt 3; AInt nullptr] q
                              :: after ++ before ++ w_log w_one /\
      settings after = tls_settings s 0x304 0x304 /\
      exists m, Exists (creates_ctx m s) before.
Proof.
  eexists. split; [vm_compute; reflexivity|].
  edestruct (SetPolicy_enforced 1 new_policy_ctx SCF_ROLE_SERVER SCF_VERIFY_DEFAULT
    SCF_POLICY_HIGH w_one SCF_SUCCESS) as (_ & _ & s & after & before & q & Hlog & _ & Hnew & Hset & _);
    [by vm_compute|vm_compute; reflexivity|done|].
  exists s, after, before, q. split; [exact Hlog|]. split; [exact Hset|].
  destruct Hnew as (_ & m & _ & Hex). by exists m.
Defined.

(** A server whose PSK callback succeeds: its answer from the library is 0, and the
    session it stores is 1000. *)
Definition w_psk : World :=
  set_objs {[1 := set_obj_pskFindSessionCb 9 (new_policy_obj 1 new_policy_ctx 0)]} w_one.

Lemma PskFindSession_verification_witness :
  exists res w' es, PskFindSessionCbWrapper 5 (bytes "id") 2 (Some nullptr) w_psk = Some (res, w') /\
    since w_psk w' es /\ res = (SSL_SUCCESS, Some 1000) /\
    exists q rest, es = mkEvent SSL_set_verify [AInt 5; AInt SSL_VERIFY_NONE; AInt nullptr] q :: rest.
Proof.
  assert (Hwp := PskFindSession_verification 5 (bytes "id") 2 w_psk
    (set_obj_pskFindSessionCb 9 (new_policy_obj 1 new_policy_ctx 0)) ltac:(by vm_compute)).
  destruct (PskFindSessionCbWrapper 5 (bytes "id") 2 (Some nullptr) w_psk) as [[res w']|] eqn:E;
    [|by vm_compute in E].
  assert (Hres : res = (SSL_SUCCESS, Some 1000)) by (vm_compute in E; by injection E as <- _).
  destruct (wp_run _ _ _ _ _ Hwp E) as (es & Hs & ret & Hcases). rewrite Hres in Hcases.
  exists res, w', es. split; [done|]. split; [exact Hs|]. split; [exact Hres|].
  destruct Hcases as [(_ & ? & _)|(_ & [(_ & ? & _)|[(_ & _ & cipher & q & _ & ->)|(_ & _ & q & ->)]])];
    [done|done|by eexists _, _|by eexists _, _].
Defined.
End witnesses.
