(* ===== verification/Resources.v ===== *)
(** * Ownership of OpenSSL's resources

    Every [SSL_CTX], [SSL], [SSL_SESSION], [BIO], key, certificate, revocation list, file and
    byte buffer that the adaptor obtains is given back exactly once, or is held by exactly
    the context or object that stores it, or by the client that was handed it. The history of
    library calls is the witness: [credit] counts how often a handle was handed out minus how
    often it was given back, [held] counts the contexts and objects that store it, and a
    program's specification ([uses]) lists the handles it owns on entry and on return. *)
From Stdlib Require Import ZArith Lia Ascii String.
From stdpp Require Import base list fin_maps gmap strings.
From S2P Require Import Prelude Errno Types FileCheck FileCtx Machine OpenSSL.
From S2P Require Import OpenSSLCfg Adaptor Api Conn Lifecycle.
Open Scope Z_scope.

Inductive Kind : Type := KCtx | KSsl | KSess | KBio | KKey | KCert | KCrl | KMem | KFile.
#[export] Instance kind_eq_dec : EqDecision Kind.
Proof. solve_decision. Defined.

Definition Handle : Type := Kind * Z.

(** The handle a call hands out, and the handle it takes back. The certificate of the peer
    comes with a reference of its own (the loader binds [SSL_get1_peer_certificate]). Adding a certificate to the
    extra chain passes its ownership to the [SSL_CTX] when OpenSSL accepts it. *)
Definition made (e : Event) : option Handle :=
  match ev_fn e, ev_args e with
  | SSL_CTX_new, _ | SSL_CTX_new_ex, _ => Some (KCtx, ev_ret e)
  | SSL_new, _ => Some (KSsl, ev_ret e)
  | BIO_new_mem_buf, _ => Some (KBio, ev_ret e)
  | PEM_read_bio_PrivateKey, _ => Some (KKey, ev_ret e)
  | SSL_SESSION_new, _ => Some (KSess, ev_ret e)
  | PEM_read_bio_X509, _ | SSL_get_peer_certificate, _ => Some (KCert, ev_ret e)
  | PEM_read_bio_X509_CRL, _ | PEM_read_X509_CRL, _ => Some (KCrl, ev_ret e)
  | op_new, [AInt _] => Some (KMem, ev_ret e)
  | fopen_r, _ => Some (KFile, ev_ret e)
  | _, _ => None
  end.

Definition gone (e : Event) : option Handle :=
  match ev_fn e, ev_args e with
  | SSL_CTX_free, [AInt p] => Some (KCtx, p)
  | SSL_free, [AInt p] => Some (KSsl, p)
  | SSL_SESSION_free, [AInt p] => Some (KSess, p)
  | BIO_free, [AInt p] => Some (KBio, p)
  | EVP_PKEY_free, [AInt p] => Some (KKey, p)
  | X509_free, [AInt p] => Some (KCert, p)
  | X509_CRL_free, [AInt p] => Some (KCrl, p)
  | op_delete, [AInt p] => Some (KMem, p)
  | fclose_f, [AInt p] => Some (KFile, p)
  | SSL_CTX_ctrl, [_; AInt n; _; AInt p] =>
      if (n =? SSL_CTRL_EXTRA_CHAIN_CERT) && (ev_ret e =? SSL_SUCCESS) then Some (KCert, p) else None
  | _, _ => None
  end.

Definition hit (x : Handle) (o : option Handle) : Z :=
  if bool_decide (o = Some x) then 1 else 0.

Fixpoint credit (x : Handle) (h : History) : Z :=
  match h with
  | [] => 0
  | e :: h' => credit x h' + hit x (made e) - hit x (gone e)
  end.

(** How many contexts or objects store the handle. *)
Definition held (x : Handle) (w : World) : Z :=
  match x.1 with
  | KCtx => refs (ctx_sslConfig <$> w_ctxs w) x.2
  | KSsl => refs (obj_sslCtx <$> w_objs w) x.2
  | _ => 0
  end.

Fixpoint times (x : Handle) (own : list Handle) : Z :=
  match own with
  | [] => 0
  | y :: own' => hit x (Some y) + times x own'
  end.

(** Two lists own the same handles, up to order and null. *)
Definition same_own (o1 o2 : list Handle) : Prop :=
  forall x, x.2 <> nullptr -> times x o1 = times x o2.

#[export] Instance same_own_equiv : Equivalence same_own.
Proof.
  split; [done|intros o1 o2 Ho x Hx; symmetry; by apply Ho|].
  intros o1 o2 o3 H1 H2 x Hx. by rewrite H1, H2.
Qed.

#[export] Instance cons_same_own y : Proper (same_own ==> same_own) (cons y).
Proof. intros o1 o2 Ho x Hx. simpl. by rewrite Ho. Qed.

Lemma same_own_swap a b own : same_own (a :: b :: own) (b :: a :: own).
Proof. intros x Hx. simpl. lia. Qed.

Lemma same_own_null k own : same_own ((k, nullptr) :: own) own.
Proof.
  intros x Hx. simpl. unfold hit. rewrite bool_decide_eq_false_2; [lia|].
  intros [= <-]. by apply Hx.
Qed.

(** Addresses in use are below the allocator's next one. *)
Record addr_ok (w : World) : Prop := {
  ao_ctx : forall p, live_ctx p w -> 0 < p < w_next w;
  ao_obj : forall p, obj_there p w -> 0 < p < w_next w;
  ao_next : 0 < w_next w
}.

(** The books balance when the program at hand owns [own]. *)
Record acct (own : list Handle) (w : World) : Prop := {
  ac_addr : addr_ok w;
  ac_sum : forall x, x.2 <> nullptr -> credit x (w_log w) = held x w + times x own
}.

#[export] Instance acct_proper : Proper (same_own ==> eq ==> iff) acct.
Proof.
  intros o1 o2 Ho w ? <-. split; intros [Ha Hs]; split; try done; intros x Hx;
    rewrite Hs by done; by rewrite (Ho x Hx).
Qed.

(** ** Specifications *)

(** The result of a primitive operation that cannot fault. *)
Ltac run_prim Hr :=
  cbv [mret M_ret gets modify lib] in Hr; apply Some_inj in Hr; injection Hr as <- <-.

Definition hoare {A} (P : World -> Prop) (m : M A) (Q : A -> World -> Prop) : Prop :=
  forall w r w', P w -> m w = Some (r, w') -> Q r w'.

Definition uses {A} (own : list Handle) (m : M A) (post : A -> list Handle) : Prop :=
  hoare (acct own) m (fun r => acct (post r)).

Lemma hoare_bind {A B} P (m : M A) (f : A -> M B) R Q :
  hoare P m R -> (forall a, hoare (R a) (f a) Q) -> hoare P (m ≫= f) Q.
Proof.
  intros Hm Hf w r w' HP. unfold mbind, M_bind.
  destruct (m w) as [[a w1]|] eqn:E; [|done]. intros Hr. eapply Hf; [|done]. by eapply Hm.
Qed.

Lemma hoare_ret {A} (a : A) (Q : A -> World -> Prop) : hoare (Q a) (mret a) Q.
Proof. intros w r w' HQ Hr. by run_prim Hr. Qed.

Lemma hoare_weaken {A} (P P' : World -> Prop) (m : M A) (Q Q' : A -> World -> Prop) :
  hoare P' m Q' -> (forall w, P w -> P' w) -> (forall a w, Q' a w -> Q a w) -> hoare P m Q.
Proof. intros Hm HP HQ w r w' HPw Hr. by eapply HQ, Hm; [apply HP|]. Qed.

Section rules.
Context `{Library}.
Implicit Types (own : list Handle).

Lemma uses_bind {A B} own (m : M A) (f : A -> M B) mid post :
  uses own m mid -> (forall a, uses (mid a) (f a) post) -> uses own (m ≫= f) post.
Proof. intros Hm Hf. eapply hoare_bind; [exact Hm|exact Hf]. Qed.

Lemma uses_ret {A} own (a : A) post : same_own own (post a) -> uses own (mret a) post.
Proof. intros Hs w r w' Ha Hr. run_prim Hr. by rewrite <- Hs. Qed.

Lemma uses_pre {A} own own' (m : M A) post :
  same_own own own' -> uses own' m post -> uses own m post.
Proof. intros Hs Hm w r w' Ha Hr. eapply Hm; [|done]. by rewrite <- Hs. Qed.

Lemma uses_null {A} k p own (m : M A) post :
  p = nullptr -> uses own m post -> uses ((k, p) :: own) m post.
Proof. intros ->. apply uses_pre, same_own_null. Qed.

Lemma uses_gets {A} own (f : World -> A) : uses own (gets f) (fun _ => own).
Proof. intros w r w' Ha Hr. by run_prim Hr. Qed.

Lemma uses_get_ctx {A} own p (f : SCFPolicyCtx -> M A) post :
  (forall c, uses own (f c) post) -> uses own (get_ctx p ≫= f) post.
Proof.
  intros Hf w r w' Ha. unfold mbind, M_bind, get_ctx. destruct (w_ctxs w !! p); [|done].
  by apply Hf.
Qed.

Lemma uses_get_obj {A} own p (f : SCFPolicyObj -> M A) post :
  (forall c, uses own (f c) post) -> uses own (get_obj p ≫= f) post.
Proof.
  intros Hf w r w' Ha. unfold mbind, M_bind, get_obj. destruct (w_objs w !! p); [|done].
  by apply Hf.
Qed.

(** A call: what it hands out is owned, what it takes back must be. *)
Lemma acct_call own w f args r x y :
  acct (match y with Some h => h :: own | None => own end) w ->
  made (mkEvent f args r) = x -> gone (mkEvent f args r) = y ->
  acct (match x with Some h => h :: own | None => own end)
    (set_log (mkEvent f args r :: w_log w) w).
Proof.
  intros [Ha Hs] Hx Hy. split; [by destruct Ha|]. intros z Hz. cbn [w_log set_log credit].
  rewrite Hx, Hy. specialize (Hs z Hz). change (held z (set_log _ w)) with (held z w).
  destruct x, y; cbn [times] in *; unfold hit in *;
    repeat case_bool_decide; simplify_eq; lia.
Qed.

Lemma uses_lib own f args :
  (forall r, made (mkEvent f args r) = None) -> (forall r, gone (mkEvent f args r) = None) ->
  uses own (lib f args) (fun _ => own).
Proof.
  intros Hm Hg w r w' Ha Hr. run_prim Hr.
  by apply (acct_call own w _ _ _ None None).
Qed.

Lemma uses_new own k f args :
  (forall r, made (mkEvent f args r) = Some (k, r)) -> (forall r, gone (mkEvent f args r) = None) ->
  uses own (lib f args) (fun r => (k, r) :: own).
Proof.
  intros Hm Hg w r w' Ha Hr. run_prim Hr.
  by apply (acct_call own w _ _ _ (Some (k, _)) None).
Qed.

Lemma uses_free own h f args :
  (forall r, made (mkEvent f args r) = None) -> (forall r, gone (mkEvent f args r) = Some h) ->
  uses (h :: own) (lib f args) (fun _ => own).
Proof.
  intros Hm Hg w r w' Ha Hr. run_prim Hr.
  by apply (acct_call own w _ _ _ None (Some h)).
Qed.

(** Writes to the heap. *)
Lemma refs_update (m : gmap Z Z) o q s p :
  m !! o = Some q -> refs (<[o := s]> m) p
  = refs m p - (if decide (q = p) then 1 else 0) + (if decide (s = p) then 1 else 0).
Proof.
  intros Hl. rewrite <- insert_delete_eq, refs_insert by apply lookup_delete_eq.
  by rewrite (refs_delete _ _ _ _ Hl).
Qed.

Lemma hit_kind k s p : hit (k, p) (Some (k, s)) = if decide (s = p) then 1 else 0.
Proof. unfold hit. case_bool_decide; case_decide; simplify_eq; done. Qed.

Lemma hit_other k k' s p : k <> k' -> hit (k, p) (Some (k', s)) = 0.
Proof. intros Hk. unfold hit. case_bool_decide; simplify_eq; done. Qed.

(** Replacing the [SSL_CTX] of a context: the new one is no longer owned, the old one
    is. *)
Lemma acct_set_ctx own w p c c' :
  w_ctxs w !! p = Some c -> acct ((KCtx, ctx_sslConfig c') :: own) w ->
  acct ((KCtx, ctx_sslConfig c) :: own) (set_ctxs (<[p := c']> (w_ctxs w)) w).
Proof.
  intros Hc [[Hac Hao Han] Hs]. split; [split; try done|].
  - intros q [c1 Hq]. cbn [w_ctxs set_ctxs] in Hq. apply lookup_insert_Some in Hq.
    apply Hac. destruct Hq as [[<- _]|[_ ?]]; eexists; eauto.
  - intros [k q] Hx. specialize (Hs (k, q) Hx). cbn [w_log set_ctxs times] in *.
    rewrite Hs. unfold held. cbn [fst snd]. destruct k; cbn [w_ctxs w_objs set_ctxs];
      rewrite ?(hit_other _ KCtx) by done; try lia.
    rewrite fmap_insert, (refs_update _ _ (ctx_sslConfig c)), !hit_kind;
      [lia|by rewrite lookup_fmap, Hc].
Qed.

Lemma acct_set_obj own w p o o' :
  w_objs w !! p = Some o -> acct ((KSsl, obj_sslCtx o') :: own) w ->
  acct ((KSsl, obj_sslCtx o) :: own) (set_objs (<[p := o']> (w_objs w)) w).
Proof.
  intros Hc [[Hac Hao Han] Hs]. split; [split; try done|].
  - intros q [c1 Hq]. cbn [w_objs set_objs] in Hq. apply lookup_insert_Some in Hq.
    apply Hao. destruct Hq as [[<- _]|[_ ?]]; eexists; eauto.
  - intros [k q] Hx. specialize (Hs (k, q) Hx). cbn [w_log set_objs times] in *.
    rewrite Hs. unfold held. cbn [fst snd]. destruct k; cbn [w_ctxs w_objs set_objs];
      rewrite ?(hit_other _ KSsl) by done; try lia.
    rewrite fmap_insert, (refs_update _ _ (obj_sslCtx o)), !hit_kind;
      [lia|by rewrite lookup_fmap, Hc].
Qed.

Lemma same_own_cancel h o1 o2 : same_own (h :: o1) (h :: o2) -> same_own o1 o2.
Proof. intros Hs x Hx. specialize (Hs x Hx). simpl in Hs. lia. Qed.

Lemma uses_upd_ctx own p f :
  (forall c, ctx_sslConfig (f c) = ctx_sslConfig c) -> uses own (upd_ctx p f) (fun _ => own).
Proof.
  intros Hf w r w' [Ha Hs]. unfold upd_ctx. destruct (w_ctxs w !! p) as [c|] eqn:Hc; [|done].
  intros [= <- <-]. split.
  - destruct Ha as [Hac Hao Han]. split; try done. intros q [c1 Hq].
    cbn [w_ctxs set_ctxs] in Hq. apply lookup_insert_Some in Hq.
    apply Hac. destruct Hq as [[<- _]|[_ ?]]; eexists; eauto.
  - intros x Hx. cbn [w_log set_ctxs]. rewrite (Hs x Hx). f_equal. unfold held.
    destruct x.1; try done. cbn [w_ctxs set_ctxs]. rewrite fmap_insert, Hf.
    f_equal. symmetry. apply insert_id. by rewrite lookup_fmap, Hc.
Qed.

Lemma uses_upd_obj own p f :
  (forall c, obj_sslCtx (f c) = obj_sslCtx c) -> uses own (upd_obj p f) (fun _ => own).
Proof.
  intros Hf w r w' [Ha Hs]. unfold upd_obj. destruct (w_objs w !! p) as [c|] eqn:Hc; [|done].
  intros [= <- <-]. split.
  - destruct Ha as [Hac Hao Han]. split; try done. intros q [c1 Hq].
    cbn [w_objs set_objs] in Hq. apply lookup_insert_Some in Hq.
    apply Hao. destruct Hq as [[<- _]|[_ ?]]; eexists; eauto.
  - intros x Hx. cbn [w_log set_objs]. rewrite (Hs x Hx). f_equal. unfold held.
    destruct x.1; try done. cbn [w_objs set_objs]. rewrite fmap_insert, Hf.
    f_equal. symmetry. apply insert_id. by rewrite lookup_fmap, Hc.
Qed.

Lemma uses_modify own f :
  (forall w, w_log (f w) = w_log w /\ w_ctxs (f w) = w_ctxs w /\ w_objs (f w) = w_objs w /\
             w_next (f w) = w_next w) ->
  uses own (modify f) (fun _ => own).
Proof.
  intros Hf w r w' [[Hac Hao Han] Hs] Hr. run_prim Hr.
  destruct (Hf w) as (Hl & Hc & Ho & Hn). unfold live_ctx, obj_there in *.
  split; [split; unfold live_ctx, obj_there; by rewrite ?Hc, ?Ho, ?Hn|].
  intros x Hx. rewrite Hl, (Hs x Hx). unfold held. by rewrite Hc, Ho.
Qed.
End rules.

Create HintDb uses.

(** Close [same_own o1 o2] between lists that differ by null handles or order. *)
Ltac own_done :=
  cbn beta iota;
  first [ reflexivity
        | match goal with |- ?g => tryif has_evar g then fail else idtac end;
          first [ apply same_own_swap
                | apply same_own_null
                | symmetry; apply same_own_null ] ].

(** A handle known to be null is dropped from the precondition. *)
Ltac drop_null := bools; subst;
  repeat match goal with
  | |- uses ((_, nullptr) :: _) _ _ => eapply uses_null; [reflexivity|]
  | H : ?p = nullptr |- uses ((_, ?p) :: _) _ _ => eapply (uses_null _ _ _ _ _ H)
  end.

Ltac uses_lib_step :=
  first [ apply uses_lib; done
        | apply uses_free; done
        | apply uses_new; done
        | eapply uses_pre; [apply same_own_swap | apply uses_free; done] ].

Ltac uses_step :=
  match goal with
  | |- forall _, _ => intro
  | |- uses _ (if ?b then _ else _) _ => destruct b eqn:?; drop_null
  | |- uses ?own (mret ?a) ?post =>
      tryif is_evar post then apply (uses_ret own a (fun _ => own)); reflexivity
      else (apply uses_ret; own_done)
  | |- uses _ (gets _) _ => apply uses_gets
  | |- uses _ lib_out _ => apply uses_gets
  | |- uses _ (lib_cstring _) _ => apply uses_gets
  | |- uses _ (lib_asn1 _) _ => apply uses_gets
  | |- uses _ (lib_bytes _ _) _ => apply uses_gets
  | |- uses _ (lib _ _) _ => uses_lib_step
  | |- uses _ (upd_ctx _ _) _ => apply uses_upd_ctx; done
  | |- uses _ (upd_obj _ _) _ => apply uses_upd_obj; done
  | |- uses _ (get_ctx _ ≫= _) _ => apply uses_get_ctx; intro
  | |- uses _ (get_obj _ ≫= _) _ => apply uses_get_obj; intro
  | |- uses _ _ _ => solve [eauto 2 with uses]
  | |- uses _ (_ ≫= _) _ => eapply uses_bind; [|intro; cbn beta]
  | |- uses _ (match ?x with _ => _ end) _ => destruct x; cbn beta iota
  end.
Ltac uses := repeat uses_step.

Section adaptor.
Context `{Library} `{SecureC} `{FileSystem}.
Implicit Types (own : list Handle).

Lemma uses_print_errors own : uses own print_errors (fun _ => own).
Proof. unfold print_errors. uses. Qed.
Hint Resolve uses_print_errors : uses.

Lemma uses_DeInit own : uses own DeInit (fun _ => own).
Proof. unfold DeInit. eapply uses_bind; [by apply uses_modify|]. uses. Qed.
Hint Resolve uses_DeInit : uses.

Lemma uses_Init own flag s : uses own (Init flag s) (fun _ => own).
Proof. unfold Init. uses. Qed.

(** A fresh time buffer belongs to the caller. *)
Definition time_own (own : list Handle) (t : option (Z * list ascii)) : list Handle :=
  match t with Some (p, _) => (KMem, p) :: own | None => own end.

Lemma uses_copy_time own t : uses own (copy_time t) (time_own own).
Proof. unfold copy_time. uses. Qed.
Hint Resolve uses_copy_time : uses.

Lemma uses_GetCertStartTime own c : uses own (GetCertStartTime c) (time_own own).
Proof. unfold GetCertStartTime. uses. Qed.
Lemma uses_GetCertEndTime own c : uses own (GetCertEndTime c) (time_own own).
Proof. unfold GetCertEndTime. uses. Qed.
Hint Resolve uses_GetCertStartTime uses_GetCertEndTime : uses.

Lemma uses_GetCurrentCert own o : uses own (GetCurrentCert o) (fun _ => own).
Proof. unfold GetCurrentCert. uses. Qed.
Lemma uses_GetPeerCert own o : uses own (GetPeerCert o) (fun x => (KCert, x) :: own).
Proof. unfold GetPeerCert. uses. Qed.
Lemma uses_GetCertVersion own o : uses own (GetCertVersion o) (fun _ => own).
Proof. unfold GetCertVersion. uses. Qed.
Lemma uses_GetCertSerialNumber own o : uses own (GetCertSerialNumber o) (fun _ => own).
Proof. unfold GetCertSerialNumber. uses. Qed.
Hint Resolve uses_GetCurrentCert uses_GetPeerCert uses_GetCertVersion
  uses_GetCertSerialNumber : uses.

Lemma uses_free_time own t :
  uses (time_own own t) (match t with
    | Some (p, _) => _ ← lib op_delete [AInt p]; mret tt
    | None => mret tt end) (fun _ => own).
Proof. destruct t as [[p b]|]; cbn [time_own]; uses. Qed.
Hint Resolve uses_free_time : uses.

Lemma uses_LogCertError own o : uses own (LogCertError o) (fun _ => own).
Proof. unfold LogCertError. uses. Qed.
Hint Resolve uses_LogCertError : uses.

Lemma uses_HandleTransPortError own o e : uses own (HandleTransPortError o e) (fun _ => own).
Proof. unfold HandleTransPortError. uses. Qed.
Hint Resolve uses_HandleTransPortError : uses.

Lemma uses_handshake own o role fn :
  (forall a r, made (mkEvent fn a r) = None) -> (forall a r, gone (mkEvent fn a r) = None) ->
  uses own (handshake o role fn) (fun _ => own).
Proof.
  intros Hm Hg. assert (Hfn : forall own a, uses own (lib fn a) (fun _ => own))
    by (intros; by apply uses_lib). unfold handshake. uses.
Qed.

Lemma uses_Connect own o : uses own (Connect o) (fun _ => own).
Proof. by apply uses_handshake. Qed.
Lemma uses_Accept own o : uses own (Accept o) (fun _ => own).
Proof. by apply uses_handshake. Qed.
Lemma uses_Read own o d n : uses own (Read o d n) (fun _ => own).
Proof. unfold Read. uses. Qed.
Lemma uses_Write own o d n : uses own (Write o d n) (fun _ => own).
Proof. unfold Write. uses. Qed.
Lemma uses_Close own o : uses own (Close o) (fun _ => own).
Proof. unfold Close. uses. Qed.
Lemma uses_KeyUpdate own o t : uses own (KeyUpdate o t) (fun _ => own).
Proof. unfold KeyUpdate. uses. Qed.
Lemma uses_GetVersion own o : uses own (GetVersion o) (fun _ => own).
Proof. unfold GetVersion. uses. Qed.
Lemma uses_CipherFind own o i : uses own (CipherFind o i) (fun _ => own).
Proof. unfold CipherFind. uses. Qed.

(** *** Configuration *)

Lemma uses_CertBuffer2X509 own b n :
  uses own (CertBuffer2X509 b n) (fun x => (KCert, x) :: own).
Proof. unfold CertBuffer2X509. uses. Qed.
Hint Resolve uses_CertBuffer2X509 : uses.

Lemma uses_AddCaCert own c fc : uses own (AddCaCert c fc) (fun _ => own).
Proof. unfold AddCaCert, AddCaCertByFile, AddCaCertByBuffer. uses. Qed.

Lemma uses_LoadEeCert own c b : uses own (LoadEeCert c b) (fun _ => own).
Proof. unfold LoadEeCert. uses. Qed.
Hint Resolve uses_LoadEeCert : uses.

Lemma uses_AddEeCert own c fc : uses own (AddEeCert c fc) (fun _ => own).
Proof. unfold AddEeCert, AddEeCertByFile, AddEeCertByBuffer, ErrErrorString. uses. Qed.

Lemma uses_ReadCrlByFile own p n : uses own (ReadCrlByFile p n) (fun x => (KCrl, x) :: own).
Proof. unfold ReadCrlByFile. uses. Qed.
Lemma uses_ReadCrlByBuffer own p n : uses own (ReadCrlByBuffer p n) (fun x => (KCrl, x) :: own).
Proof. unfold ReadCrlByBuffer. uses. Qed.
Hint Resolve uses_ReadCrlByFile uses_ReadCrlByBuffer : uses.

Lemma uses_AddCrl own c fc : uses own (AddCrl c fc) (fun _ => own).
Proof.
  unfold AddCrl. uses.
Qed.
Hint Resolve uses_AddCaCert uses_AddEeCert uses_AddCrl : uses.

Lemma uses_AddCert own c fc t :
  t <> SCF_CERT_TYPE_EE_CHAIN -> uses own (AddCert c fc t) (fun _ => own).
Proof. intros Ht. unfold AddCert. rewrite (proj2 (Z.eqb_neq _ _) Ht). uses. Qed.

Lemma uses_KeyBuffer2Evp own k n : uses own (KeyBuffer2Evp k n) (fun x => (KKey, x) :: own).
Proof. unfold KeyBuffer2Evp. uses. Qed.
Hint Resolve uses_KeyBuffer2Evp : uses.

Lemma uses_SetKey own c k : uses own (SetKey c k) (fun _ => own).
Proof. unfold SetKey, SetKeyByFile, SetKeyByBuffer. uses. Qed.

Lemma uses_CheckPrivateKey own c : uses own (CheckPrivateKey c) (fun _ => own).
Proof. unfold CheckPrivateKey. uses. Qed.
Lemma uses_SetCipherSuites own c s : uses own (SetCipherSuites c s) (fun _ => own).
Proof. unfold SetCipherSuites. uses. Qed.
Lemma uses_SetProtocolVersion own c lo hi vs : uses own (SetProtocolVersion c lo hi vs) (fun _ => own).
Proof. unfold SetProtocolVersion, SSL_CTX_set_min_proto_version, SSL_CTX_set_max_proto_version. uses. Qed.
Lemma uses_SetAppVerifyCallback own c cb a : uses own (SetAppVerifyCallback c cb a) (fun _ => own).
Proof. unfold SetAppVerifyCallback. uses. Qed.
Lemma uses_SetVerifyMode own c v : uses own (SetVerifyMode c v) (fun _ => own).
Proof. unfold SetVerifyMode. uses. Qed.
Lemma uses_SetPskFindSessionCallback own c cb : uses own (SetPskFindSessionCallback c cb) (fun _ => own).
Proof. unfold SetPskFindSessionCallback. uses. Qed.
Lemma uses_SetPskUseSessionCallback own c cb : uses own (SetPskUseSessionCallback c cb) (fun _ => own).
Proof. unfold SetPskUseSessionCallback. uses. Qed.

Lemma uses_get_ciphers_loop own n i st d : uses own (get_ciphers_loop n i st d) (fun _ => own).
Proof. revert i d. induction n as [|n IH]; intros i d; cbn [get_ciphers_loop]; uses. Qed.
Hint Resolve uses_get_ciphers_loop : uses.
Lemma uses_GetCipherSuites own c d n : uses own (GetCipherSuites c d n) (fun _ => own).
Proof. unfold GetCipherSuites. uses. Qed.
End adaptor.

(** ** Functions that store or release a handle *)
Section stores.
Context `{Library} `{SecureC} `{FileSystem}.
Implicit Types (own : list Handle).

Lemma acct_free own w f args r h :
  made (mkEvent f args r) = None -> gone (mkEvent f args r) = Some h ->
  acct (h :: own) w -> acct own (set_log (mkEvent f args r :: w_log w) w).
Proof. intros Hm Hg Ha. by apply (acct_call own w f args r None (Some h)). Qed.

Lemma acct_null k own w : acct own w <-> acct ((k, nullptr) :: own) w.
Proof. split; [intros Ha; by rewrite same_own_null|intros Ha; by rewrite same_own_null in Ha]. Qed.

(** A live address is not null. *)
Lemma acct_ctx_nonnull own w p c : acct own w -> w_ctxs w !! p = Some c -> p <> nullptr.
Proof.
  intros [[Hac _ _] _] Hc. assert (live_ctx p w) as Hl by by exists c.
  apply Hac in Hl. unfold nullptr. lia.
Qed.

Lemma acct_obj_nonnull own w p o : acct own w -> w_objs w !! p = Some o -> p <> nullptr.
Proof.
  intros [[_ Hao _] _] Ho. assert (obj_there p w) as Hl by by exists o.
  apply Hao in Hl. unfold nullptr. lia.
Qed.

Lemma set_ctxs_log m l w : set_ctxs m (set_log l w) = set_log l (set_ctxs m w).
Proof. done. Qed.
Lemma set_objs_log m l w : set_objs m (set_log l w) = set_log l (set_objs m w).
Proof. done. Qed.

Lemma FreeSsl_spec own ctx :
  hoare (acct own) (FreeSsl ctx) (fun _ w => acct own w /\
    forall c, w_ctxs w !! ctx = Some c -> ctx_sslConfig c = nullptr).
Proof.
  intros w r w' Ha. unfold FreeSsl.
  destruct (ctx =? nullptr) eqn:E; bools.
  { intros [= <- <-]. split; [done|]. intros c Hc. exfalso. by eapply acct_ctx_nonnull. }
  unfold mbind, M_bind, get_ctx. destruct (w_ctxs w !! ctx) as [c|] eqn:Hc; [|done].
  destruct (ctx_sslConfig c =? nullptr) eqn:Es; bools.
  { intros [= <- <-]. split; [done|]. intros c' Hc'. congruence. }
  unfold lib, upd_ctx. cbn [w_ctxs set_log]. rewrite Hc. intros [= <- <-].
  split; [|intros c'; cbn [w_ctxs set_ctxs]; rewrite lookup_insert_eq; by intros [= <-]].
  rewrite set_ctxs_log.
  change (w_log w) with (w_log (set_ctxs (<[ctx := set_ctx_sslConfig nullptr c]> (w_ctxs w)) w)) at 2.
  eapply acct_free; [done|done|].
  apply acct_set_ctx; [done|]. by apply acct_null.
Qed.

Lemma uses_FreeSsl own ctx : uses own (FreeSsl ctx) (fun _ => own).
Proof. eapply hoare_weaken; [apply FreeSsl_spec|done|]. by intros a w [? _]. Qed.
Hint Resolve uses_FreeSsl : uses.

(** [FreeSsl(ctx); ctx->sslConfig = s;] *)
Lemma uses_store_ctx {A} own ctx s (k : M A) post :
  uses own k post ->
  uses ((KCtx, s) :: own) (_ ← FreeSsl ctx; _ ← upd_ctx ctx (set_ctx_sslConfig s); k) post.
Proof.
  intros Hk. eapply hoare_bind; [apply FreeSsl_spec|]. intros a.
  eapply hoare_bind; [|intros b; exact Hk]. clear Hk.
  intros w r w' [Ha Hnull]. unfold upd_ctx.
  destruct (w_ctxs w !! ctx) as [c|] eqn:Hc; [|done]. intros [= <- <-].
  apply (acct_null KCtx). rewrite <- (Hnull c eq_refl). by apply acct_set_ctx.
Qed.

(** [FreeSsl(ctx); delete ctx;] *)
Lemma uses_delete_ctx {A} own ctx (k : M A) post :
  uses own k post -> uses own (_ ← FreeSsl ctx; _ ← delete_ctx ctx; k) post.
Proof.
  intros Hk. eapply hoare_bind; [apply FreeSsl_spec|]. intros a.
  eapply hoare_bind; [|intros b; exact Hk]. clear Hk.
  intros w r w' [[[Hac Hao Han] Hs] Hnull]. unfold delete_ctx.
  destruct (w_ctxs w !! ctx) as [c|] eqn:Hc; [|done]. intros [= <- <-].
  split; [split; try done|].
  - intros q [c1 Hq]. cbn [w_ctxs set_ctxs] in Hq. apply lookup_delete_Some in Hq as [_ Hq].
    apply Hac. by exists c1.
  - intros [kd q] Hx. cbn [w_log set_ctxs]. rewrite (Hs (kd, q) Hx). f_equal. unfold held.
    destruct kd; try done. cbn [fst snd w_ctxs set_ctxs]. rewrite fmap_delete, (refs_delete _ _ nullptr).
    + rewrite decide_False by (by apply not_eq_sym). lia.
    + by rewrite lookup_fmap, Hc, <- (Hnull c eq_refl).
Qed.

Lemma FreeSslObj_spec own obj :
  hoare (acct own) (FreeSslObj obj) (fun _ w => acct own w /\
    forall o, w_objs w !! obj = Some o -> obj_sslCtx o = nullptr).
Proof.
  intros w r w' Ha. unfold FreeSslObj.
  destruct (obj =? nullptr) eqn:E; bools.
  { intros [= <- <-]. split; [done|]. intros c Hc. exfalso. by eapply acct_obj_nonnull. }
  unfold mbind, M_bind, get_obj. destruct (w_objs w !! obj) as [o|] eqn:Ho; [|done].
  destruct (obj_sslCtx o =? nullptr) eqn:Es; bools.
  { intros [= <- <-]. split; [done|]. intros c' Hc'. congruence. }
  unfold lib, upd_obj. cbn [w_objs set_log]. rewrite Ho. intros [= <- <-].
  split; [|intros c'; cbn [w_objs set_objs]; rewrite lookup_insert_eq; by intros [= <-]].
  rewrite set_objs_log.
  change (w_log w) with (w_log (set_objs (<[obj := set_obj_sslCtx nullptr o]> (w_objs w)) w)) at 2.
  eapply acct_free; [done|done|].
  apply acct_set_obj; [done|]. by apply acct_null.
Qed.

(** [FreeSslObj(obj); delete obj;] *)
Lemma uses_delete_obj {A} own obj (k : M A) post :
  uses own k post -> uses own (_ ← FreeSslObj obj; _ ← delete_obj obj; k) post.
Proof.
  intros Hk. eapply hoare_bind; [apply FreeSslObj_spec|]. intros a.
  eapply hoare_bind; [|intros b; exact Hk]. clear Hk.
  intros w r w' [[[Hac Hao Han] Hs] Hnull]. unfold delete_obj.
  destruct (w_objs w !! obj) as [o|] eqn:Ho; [|done]. intros [= <- <-].
  split; [split; try done|].
  - intros q [c1 Hq]. cbn [w_objs set_objs] in Hq. apply lookup_delete_Some in Hq as [_ Hq].
    apply Hao. by exists c1.
  - intros [kd q] Hx. cbn [w_log set_objs]. rewrite (Hs (kd, q) Hx). f_equal. unfold held.
    destruct kd; try done. cbn [fst snd w_objs set_objs]. rewrite fmap_delete, (refs_delete _ _ nullptr).
    + rewrite decide_False by (by apply not_eq_sym). lia.
    + by rewrite lookup_fmap, Ho, <- (Hnull o eq_refl).
Qed.

Lemma uses_new_ctx own c : ctx_sslConfig c = nullptr -> uses own (new_ctx c) (fun _ => own).
Proof.
  intros Hnull w r w' [[Hac Hao Han] Hs] Hr. unfold new_ctx in Hr. injection Hr as <- <-.
  assert (Hfresh : w_ctxs w !! w_next w = None).
  { destruct (w_ctxs w !! w_next w) as [c1|] eqn:E; [|done].
    assert (live_ctx (w_next w) w) as Hl by by exists c1. apply Hac in Hl. lia. }
  split; [split|].
  - intros p [c1 Hp]. cbn [w_ctxs w_next set_next set_ctxs] in *.
    apply lookup_insert_Some in Hp as [[<- _]|[_ Hp]]; [lia|].
    assert (live_ctx p w) as Hl by by exists c1. apply Hac in Hl. lia.
  - intros p Hp. apply Hao in Hp. cbn [w_next set_next set_ctxs]. lia.
  - cbn [w_next set_next set_ctxs]. lia.
  - intros [kd q] Hx. cbn [w_log set_next set_ctxs]. rewrite (Hs (kd, q) Hx).
    f_equal. unfold held. destruct kd; try done. cbn [fst snd w_ctxs set_next set_ctxs].
    rewrite fmap_insert, refs_insert by by rewrite lookup_fmap, Hfresh.
    rewrite Hnull, decide_False by (by apply not_eq_sym). lia.
Qed.

Lemma uses_new_obj own o : obj_sslCtx o = nullptr -> uses own (new_obj o) (fun _ => own).
Proof.
  intros Hnull w r w' [[Hac Hao Han] Hs] Hr. unfold new_obj in Hr. injection Hr as <- <-.
  assert (Hfresh : w_objs w !! w_next w = None).
  { destruct (w_objs w !! w_next w) as [c1|] eqn:E; [|done].
    assert (obj_there (w_next w) w) as Hl by by exists c1. apply Hao in Hl. lia. }
  split; [split|].
  - intros p Hp. apply Hac in Hp. cbn [w_next set_next set_objs]. lia.
  - intros p [c1 Hp]. cbn [w_objs w_next set_next set_objs] in *.
    apply lookup_insert_Some in Hp as [[<- _]|[_ Hp]]; [lia|].
    assert (obj_there p w) as Hl by by exists c1. apply Hao in Hl. lia.
  - cbn [w_next set_next set_objs]. lia.
  - intros [kd q] Hx. cbn [w_log set_next set_objs]. rewrite (Hs (kd, q) Hx).
    f_equal. unfold held. destruct kd; try done. cbn [fst snd w_objs set_next set_objs].
    rewrite fmap_insert, refs_insert by by rewrite lookup_fmap, Hfresh.
    rewrite Hnull, decide_False by (by apply not_eq_sym). lia.
Qed.
End stores.

Ltac uses_all := repeat first
  [ apply uses_store_ctx | apply uses_delete_ctx | apply uses_delete_obj
  | apply uses_new_ctx; reflexivity | apply uses_new_obj; reflexivity | uses_step ].

Section creation.
Context `{Library} `{SecureC} `{FileSystem}.
Implicit Types (own : list Handle).
Hint Resolve uses_print_errors uses_FreeSsl : uses.

Lemma uses_log_engine own e : uses own (log_engine e) (fun _ => own).
Proof. unfold log_engine. uses. Qed.
Hint Resolve uses_log_engine : uses.

Lemma uses_new_ssl_ctx own logged m :
  uses own (new_ssl_ctx logged m) (fun s => (KCtx, s) :: own).
Proof.
  unfold new_ssl_ctx. eapply uses_bind; [uses|intro; cbn beta].
  eapply (uses_bind _ _ _ (fun s => (KCtx, s) :: own)); uses.
Qed.
Lemma uses_disable_session_cache own s : uses own (disable_session_cache s) (fun _ => own).
Proof.
  unfold disable_session_cache, SSL_CTX_set_session_cache_mode, SSL_CTX_get_session_cache_mode.
  uses.
Qed.
Lemma uses_CalGetSslMethod own r : uses own (CalGetSslMethod r) (fun _ => own).
Proof. unfold CalGetSslMethod. uses. Qed.
Hint Resolve uses_new_ssl_ctx uses_disable_session_cache uses_CalGetSslMethod
  uses_SetProtocolVersion : uses.

Lemma uses_InitSsl own c lo hi vs : uses own (InitSsl c lo hi vs) (fun _ => own).
Proof. unfold InitSsl. uses_all. Qed.
Lemma uses_InitSslCustomer own c : uses own (InitSslCustomer c) (fun _ => own).
Proof. unfold InitSslCustomer. uses_all. Qed.
Hint Resolve uses_InitSsl uses_InitSslCustomer : uses.

Lemma uses_InitPolicyByMode own c : uses own (InitPolicyByMode c) (fun _ => own).
Proof.
  unfold InitPolicyByMode. apply uses_get_ctx. intros x.
  eapply (uses_bind _ _ _ (fun _ => own)); uses.
Qed.

(** *** [SetFd] *)

(** The books balance, and the object is [o]. *)
Definition acct_at own (obj : Z) (o : SCFPolicyObj) (w : World) : Prop :=
  acct own w /\ w_objs w !! obj = Some o.

Definition keeps_objs {A} (m : M A) : Prop :=
  forall w r w', m w = Some (r, w') -> w_objs w' = w_objs w.

Lemma hoare_at {A} own obj o (m : M A) post :
  keeps_objs m -> uses own m post ->
  hoare (acct_at own obj o) m (fun r => acct_at (post r) obj o).
Proof.
  intros Hk Hu w r w' [Ha Ho] Hr. split; [by eapply Hu|]. by rewrite (Hk _ _ _ Hr).
Qed.

Lemma keeps_lib f args : keeps_objs (lib f args).
Proof. intros w r w' Hr. by run_prim Hr. Qed.

Lemma CheckVersion_keeps obj : keeps_objs (CheckVersion obj).
Proof.
  intros w r w'. unfold CheckVersion, SSL_CTX_get_min_proto_version,
    SSL_CTX_get_max_proto_version, mbind, M_bind, mret, M_ret, get_obj, get_ctx, lib.
  intros Hr. repeat (case_match; simplify_eq; try done).
Qed.

Lemma uses_CheckVersion own obj : uses own (CheckVersion obj) (fun _ => own).
Proof.
  unfold CheckVersion, SSL_CTX_get_min_proto_version, SSL_CTX_get_max_proto_version. uses.
Qed.

(** Storing a fresh [SSL], and giving the stored one back. *)
Lemma store_ssl own obj o s :
  obj_sslCtx o = nullptr ->
  hoare (acct_at ((KSsl, s) :: own) obj o) (upd_obj obj (set_obj_sslCtx s)) (fun _ => acct own).
Proof.
  intros Hnull w r w' [Ha Ho]. unfold upd_obj. rewrite Ho. intros [= <- <-].
  apply (acct_null KSsl). rewrite <- Hnull. by apply acct_set_obj.
Qed.

Lemma release_ssl own obj o :
  hoare (acct_at own obj o)
    (_ ← lib SSL_free [AInt (obj_sslCtx o)]; upd_obj obj (set_obj_sslCtx nullptr))
    (fun _ => acct own).
Proof.
  intros w r w' [Ha Ho]. unfold mbind, M_bind, lib, upd_obj. cbn [w_objs set_log]. rewrite Ho.
  intros [= <- <-]. rewrite set_objs_log.
  change (w_log w) with (w_log (set_objs (<[obj := set_obj_sslCtx nullptr o]> (w_objs w)) w)) at 2.
  eapply acct_free; [done|done|]. apply acct_set_obj; [done|]. by apply acct_null.
Qed.

Lemma hoare_get_obj {A} own obj (f : SCFPolicyObj -> M A) Q :
  (forall o, hoare (acct_at own obj o) (f o) Q) -> hoare (acct own) (get_obj obj ≫= f) Q.
Proof.
  intros Hf w r w' Ha. unfold mbind, M_bind, get_obj.
  destruct (w_objs w !! obj) as [o|] eqn:Ho; [|done]. intros Hr. by eapply Hf.
Qed.

Lemma acct_at_weaken {A} own obj o (m : M A) Q :
  hoare (acct own) m Q -> hoare (acct_at own obj o) m Q.
Proof. intros Hm. eapply hoare_weaken; [exact Hm|by intros w [? _]|done]. Qed.

Lemma uses_SetFd own obj fd : uses own (SetFd obj fd) (fun _ => own).
Proof.
  unfold SetFd. destruct (obj =? nullptr); [uses|]. apply hoare_get_obj. intros o.
  eapply (hoare_bind _ _ _ (fun _ => acct own)).
  - destruct (obj_sslCtx o =? nullptr) eqn:E; bools; [|apply acct_at_weaken; by apply (uses_ret own)].
    eapply hoare_bind; [apply hoare_at; [apply CheckVersion_keeps|apply uses_CheckVersion]|].
    intros v. cbn beta. destruct (negb (v =? SSL_SUCCESS)); [apply acct_at_weaken; by apply (uses_ret own)|].
    intros w r w' Ha. unfold mbind at 1, M_bind, get_ctx.
    destruct (w_ctxs w !! obj_policyCtx o) as [c|]; [|done]. revert w r w' Ha.
    change (hoare (acct_at own obj o) (ssl ← lib SSL_new [AInt (ctx_sslConfig c)];
      st ← lib_deref SSL_set_ex_data ssl [AInt SSL_EX_DATA_ID; AInt obj];
      return_if negb (st =? SSL_SUCCESS)
        with (_ ← lib SSL_free [AInt ssl]; mret (inl SCF_SSL_ERR_SET_EX_DATA)) ;;
      _ ← upd_obj obj (set_obj_sslCtx ssl); mret (inr true)) (fun _ => acct own)).
    eapply hoare_bind; [apply hoare_at; [apply keeps_lib|by apply (uses_new own KSsl)]|].
    intros ssl. cbn beta. unfold lib_deref. destruct (ssl =? nullptr); [by intros w r w' _|].
    eapply hoare_bind; [apply hoare_at; [apply keeps_lib|by apply uses_lib]|].
    intros st. cbn beta. destruct (negb (st =? SSL_SUCCESS)).
    + apply acct_at_weaken. change (uses ((KSsl, ssl) :: own) (_ ← lib SSL_free [AInt ssl];
        mret (inl SCF_SSL_ERR_SET_EX_DATA : Z + bool)) (fun _ => own)). uses.
    + eapply hoare_bind; [by apply store_ssl|]. intros u. by apply (uses_ret own).
  - intros [err|hasNew]; [by apply (uses_ret own)|]. apply hoare_get_obj. intros o'.
    eapply hoare_bind; [apply hoare_at; [apply keeps_lib|by apply uses_lib]|].
    intros st. cbn beta. destruct (negb (st =? SSL_SUCCESS)).
    + eapply (hoare_bind _ _ _ (fun _ => acct own)); [|intros u; by apply (uses_ret own)].
      destruct hasNew; [apply release_ssl|apply acct_at_weaken; by apply (uses_ret own)].
    + apply acct_at_weaken.
      change (uses own (_ ← upd_obj obj (set_obj_fd fd); mret SCF_SUCCESS) (fun _ => own)). uses.
Qed.
End creation.

(** ** The API *)
Section api.
Context `{Library} `{SecureC} `{FileSystem} `{Decryptor}.
Implicit Types (own : list Handle).
Hint Resolve uses_print_errors uses_FreeSsl uses_DeInit uses_Init uses_GetCurrentCert
  uses_GetPeerCert uses_Connect uses_Accept uses_Read uses_Write uses_Close uses_KeyUpdate
  uses_GetVersion uses_CipherFind uses_SetKey uses_CheckPrivateKey uses_SetCipherSuites
  uses_SetProtocolVersion uses_SetAppVerifyCallback uses_SetVerifyMode
  uses_SetPskFindSessionCallback uses_SetPskUseSessionCallback uses_GetCipherSuites
  uses_InitPolicyByMode uses_SetFd : uses.

Lemma uses_flag own (f : World -> World) :
  (forall w, w_log (f w) = w_log w /\ w_ctxs (f w) = w_ctxs w /\ w_objs (f w) = w_objs w /\
             w_next (f w) = w_next w) ->
  uses own (modify f) (fun _ => own).
Proof. apply uses_modify. Qed.

Ltac api := unfold discard, CHECK_RET, CHECK_READY, CHECK_SCF_INIT, CHECK_SCF_ADAPTOR, sys_time;
  cbn [a_Init a_DeInit a_FreeSslObj a_Connect a_Accept a_Read a_Write a_Close a_SetFd a_KeyUpdate
    a_GetVersion a_GetPeerCert a_GetCurrentCert a_CipherFind a_FreeSsl a_AddCert a_SetKey
    a_SetCipherSuites a_SetProtocolVersion a_SetAppVerifyCallback a_CheckPrivateKey
    a_SetVerifyMode a_InitPolicyByMode a_SetPskFindSessionCallback a_SetPskUseSessionCallback
    a_GetCipherSuites OpenSSLAdaptor];
  repeat first [apply uses_flag; by intros ? | uses_all].

Lemma uses_RegisterTlsAdaptor own f s : uses own (RegisterTlsAdaptor f s) (fun _ => own).
Proof. unfold RegisterTlsAdaptor. api. Qed.
Hint Resolve uses_RegisterTlsAdaptor : uses.
Lemma uses_SCFInitInner own f s : uses own (SCFInitInner f s) (fun _ => own).
Proof. unfold SCFInitInner. api. Qed.
Hint Resolve uses_SCFInitInner : uses.
Lemma uses_SCF_Init own f s : uses own (SCF_Init f s) (fun _ => own).
Proof. unfold SCF_Init. api. Qed.
Lemma uses_UnRegisterTlsAdaptor own : uses own UnRegisterTlsAdaptor (fun _ => own).
Proof. unfold UnRegisterTlsAdaptor. api. Qed.
Hint Resolve uses_UnRegisterTlsAdaptor : uses.
Lemma uses_SCFDeInitInner own : uses own SCFDeInitInner (fun _ => own).
Proof. unfold SCFDeInitInner. api. Qed.
Hint Resolve uses_SCFDeInitInner : uses.
Lemma uses_SCF_DeInit own : uses own SCF_DeInit (fun _ => own).
Proof. unfold SCF_DeInit. api. Qed.
Lemma uses_SCF_CreatePolicyCtx own : uses own SCF_CreatePolicyCtx (fun _ => own).
Proof. unfold SCF_CreatePolicyCtx. api. Qed.
Lemma uses_SCF_FreePolicyCtx own c : uses own (SCF_FreePolicyCtx c) (fun _ => own).
Proof. unfold SCF_FreePolicyCtx. api. Qed.
Hint Resolve uses_SCF_FreePolicyCtx : uses.
Lemma uses_SCF_CreatePolicyObj own c : uses own (SCF_CreatePolicyObj c) (fun _ => own).
Proof. unfold SCF_CreatePolicyObj. api. Qed.
Lemma uses_SCF_FreePolicyObj own o : uses own (SCF_FreePolicyObj o) (fun _ => own).
Proof. unfold SCF_FreePolicyObj. api. Qed.
Lemma uses_CheckNeedKeyUpdate own o n : uses own (CheckNeedKeyUpdate o n) (fun _ => own).
Proof. unfold CheckNeedKeyUpdate, CheckTimeInterval. api. Qed.
Hint Resolve uses_SCF_Init uses_SCF_DeInit uses_SCF_CreatePolicyCtx uses_SCF_CreatePolicyObj
  uses_SCF_FreePolicyObj uses_CheckNeedKeyUpdate : uses.

Lemma uses_freeze_mapping own p : uses own (freeze_mapping p) (fun _ => own).
Proof. unfold freeze_mapping. uses. Qed.
Hint Resolve uses_freeze_mapping : uses.

Lemma uses_establish own o method :
  (forall o, uses own (method o) (fun _ => own)) -> uses own (establish o method) (fun _ => own).
Proof. intros Hm. unfold establish. api. Qed.

(** What a call hands to the client. *)
Definition given (c : Call) (r : Z) : list Handle :=
  match c with CGetPeerCert _ => [(KCert, r)] | _ => [] end.

Lemma uses_exec own c :
  (forall p fc t, c = CAddCert p fc t -> t <> SCF_CERT_TYPE_EE_CHAIN) ->
  uses own (exec c) (fun r => given c r ++ own).
Proof.
  intros Ht. destruct c; unfold exec; cbn [given app];
    try (by apply uses_establish; intros o; first [apply uses_Connect | apply uses_Accept]);
    unfold SCF_SetPolicy, SCF_GetPolicy, SCF_SetAppVerifyCallback, SCF_SetCipherSuites,
      SCF_GetCipherSuites, SCF_SetProtocolVersion, SCF_GetProtocolVersion, SCF_AddCert,
      SCF_SetKey, SCF_CheckPrivateKey, SCF_SetPskFindSessionCallback,
      SCF_SetPskUseSessionCallback, SCF_SetKeyAutoUpdateParam, SCF_GetKeyAutoUpdateParam,
      SCF_GetKeyUpdateInfo, SCF_ObjKeyUpdate, SCF_SetFd, SCF_GetCurrentCert, SCF_GetPeerCert,
      SCF_SetUserData, SCF_GetUserData, SCF_CipherFind, SCF_Close, SCF_Read, SCF_Write;
    try specialize (Ht _ _ _ eq_refl); api. by apply uses_AddCert.
Qed.

(** The calls that take a handle back from the client, and the sessions it makes. *)
Definition unless_null (r : Z) (h : Handle) : list Handle := if r =? nullptr then [] else [h].

(** Handing [p] over while the library is up, and keeping it otherwise. *)
Lemma uses_hand_over own k p (m : M unit) :
  (forall own, uses ((k, p) :: own) m (fun _ => own)) ->
  uses ((k, p) :: own) (return_if p =? nullptr with (mret p) ;; CHECK_READY p (_ ← m; mret nullptr))
    (fun r => unless_null r (k, p) ++ own).
Proof.
  intros Hm. destruct (p =? nullptr) eqn:E; bools.
  { subst p. apply uses_null; [done|]. by apply uses_ret. }
  assert (Hp : unless_null p (k, p) = [(k, p)])
    by (unfold unless_null; by rewrite (proj2 (Z.eqb_neq _ _) E)).
  assert (Hkeep : uses ((k, p) :: own) (mret p) (fun r => unless_null r (k, p) ++ own))
    by (apply uses_ret; by rewrite Hp).
  unfold CHECK_READY, CHECK_SCF_INIT, CHECK_SCF_ADAPTOR.
  eapply uses_bind; [apply uses_gets|intros b; cbn beta]. destruct b; [|exact Hkeep].
  eapply uses_bind; [apply uses_gets|intros b; cbn beta]. destruct b; [|exact Hkeep].
  eapply uses_bind; [apply Hm|intros u; cbn beta]. by apply uses_ret.
Qed.

Lemma uses_SCF_FreeCert own p :
  uses ((KCert, p) :: own) (SCF_FreeCert p) (fun r => unless_null r (KCert, p) ++ own).
Proof. apply uses_hand_over. intros own'. cbn [a_FreeCert OpenSSLAdaptor]. unfold FreeCert. uses. Qed.

Lemma uses_SCF_SessionNew own : uses own SCF_SessionNew (fun s => (KSess, s) :: own).
Proof.
  unfold SCF_SessionNew, CHECK_READY, CHECK_SCF_INIT, CHECK_SCF_ADAPTOR.
  cbn [a_SessionNew OpenSSLAdaptor]. unfold SessionNew. uses.
Qed.

Lemma uses_SessionSetMasterKey own s k n b :
  uses own (SCF_SessionSetMasterKey s k n b) (fun _ => own).
Proof.
  unfold SCF_SessionSetMasterKey. cbn [a_SessionSetMasterKey OpenSSLAdaptor].
  unfold SessionSetMasterKey. api.
Qed.
Lemma uses_SessionSetCipher own s x n : uses own (SCF_SessionSetCipher s x n) (fun _ => own).
Proof.
  unfold SCF_SessionSetCipher. cbn [a_SessionSetCipher OpenSSLAdaptor]. unfold SessionSetCipher. api.
Qed.
Lemma uses_SessionSetProtocolVersion own s v :
  uses own (SCF_SessionSetProtocolVersion s v) (fun _ => own).
Proof.
  unfold SCF_SessionSetProtocolVersion. cbn [a_SessionSetProtocolVersion OpenSSLAdaptor].
  unfold SessionSetProtocolVersion. api.
Qed.

Lemma uses_SCF_SessionFree own p :
  uses ((KSess, p) :: own) (SCF_SessionFree p) (fun r => unless_null r (KSess, p) ++ own).
Proof.
  apply uses_hand_over. intros own'. cbn [a_SessionFree OpenSSLAdaptor]. unfold SessionFree. uses.
Qed.
End api.

(** ** The books of a whole history *)
Section history.
Context `{Library} `{SecureC} `{FileSystem} `{Decryptor}.

(** A history of API calls that returned, and the handles the client has: a certificate of a
    peer or a session is the client's from the call that hands it out to the one that takes
    it back. (Certificate chains are left out, see [LoadCaChain_double_release].) *)
Inductive history : list Handle -> World -> Prop :=
| h_start : history [] world0
| h_call own w c r w' :
    history own w -> (forall p fc t, c = CAddCert p fc t -> t <> SCF_CERT_TYPE_EE_CHAIN) ->
    exec c w = Some (r, w') -> history (given c r ++ own) w'
| h_free_cert own rest w p r w' :
    history own w -> own ≡ₚ (KCert, p) :: rest -> SCF_FreeCert p w = Some (r, w') ->
    history (unless_null r (KCert, p) ++ rest) w'
| h_session_new own w s w' :
    history own w -> SCF_SessionNew w = Some (s, w') -> history ((KSess, s) :: own) w'
| h_session_free own rest w p r w' :
    history own w -> own ≡ₚ (KSess, p) :: rest -> SCF_SessionFree p w = Some (r, w') ->
    history (unless_null r (KSess, p) ++ rest) w'.

Lemma times_perm x o1 o2 : o1 ≡ₚ o2 -> times x o1 = times x o2.
Proof. induction 1; simpl; lia. Qed.

Lemma history_acct own w : history own w -> acct own w.
Proof.
  induction 1 as [|own w c r w' _ IH Ht Hr|own rest w p r w' _ IH Hp Hr|own w s w' _ IH Hr
                 |own rest w p r w' _ IH Hp Hr].
  - split; [split|intros [[] p] Hx; reflexivity].
    + intros p [c Hc]. cbn in Hc. by rewrite lookup_empty in Hc.
    + intros p [c Hc]. cbn in Hc. by rewrite lookup_empty in Hc.
    + done.
  - exact (uses_exec own c Ht w r w' IH Hr).
  - eapply (uses_SCF_FreeCert rest p); [|exact Hr].
    eapply (acct_proper own); [|reflexivity|exact IH]. intros x _. symmetry. by apply times_perm.
  - exact (uses_SCF_SessionNew own w s w' IH Hr).
  - eapply (uses_SCF_SessionFree rest p); [|exact Hr].
    eapply (acct_proper own); [|reflexivity|exact IH]. intros x _. symmetry. by apply times_perm.
Qed.

Lemma acct_start : acct [] world0.
Proof. apply history_acct, h_start. Qed.


(** How often OpenSSL took certificate [p] into an extra chain. *)
Fixpoint accepted (p : Z) (h : History) : Z :=
  match h with
  | [] => 0
  | e :: h' =>
      accepted p h' +
      match ev_fn e, ev_args e with
      | SSL_CTX_ctrl, [_; AInt n; _; AInt q] =>
          if (n =? SSL_CTRL_EXTRA_CHAIN_CERT) && (ev_ret e =? SSL_SUCCESS) && (q =? p)
          then 1 else 0
      | _, _ => 0
      end
  end.

Definition balance (p : Z) (n : Z) (w : World) : Prop :=
  credit (KCert, p) (w_log w) + accepted p (w_log w) = n.

Lemma hit_cert p q : hit (KCert, p) (Some (KCert, q)) = if q =? p then 1 else 0.
Proof. rewrite hit_kind. destruct (q =? p) eqn:E; bools; by case_decide. Qed.

Lemma balance_read p n args :
  hoare (balance p n) (lib PEM_read_bio_X509 args)
    (fun q => balance p (n + if q =? p then 1 else 0)).
Proof.
  intros w r w' Hb Hr. run_prim Hr. unfold balance in *.
  cbn [w_log set_log credit accepted made gone ev_fn ev_args ev_ret].
  rewrite hit_cert. change (hit _ None) with 0. lia.
Qed.

Lemma balance_free p n q :
  hoare (balance p n) (lib X509_free [AInt q])
    (fun _ => balance p (n - if q =? p then 1 else 0)).
Proof.
  intros w r w' Hb Hr. run_prim Hr. unfold balance in *.
  cbn [w_log set_log credit accepted made gone ev_fn ev_args ev_ret].
  rewrite hit_cert. change (hit _ None) with 0. lia.
Qed.

Lemma balance_add p n ctx q :
  hoare (balance p n) (SSL_CTX_add_extra_chain_cert ctx q) (fun _ => balance p n).
Proof.
  intros w r w' Hb Hr. run_prim Hr. unfold balance in *.
  cbn [w_log set_log credit accepted made gone ev_fn ev_args ev_ret].
  rewrite Z.eqb_refl, andb_true_l. destruct (_ =? SSL_SUCCESS); rewrite ?hit_cert;
    change (hit _ None) with 0; cbn [andb]; lia.
Qed.

Lemma balance_LoadCaChain p n fuel ctx b :
  p <> nullptr -> hoare (balance p n) (LoadCaChain fuel ctx b) (fun _ => balance p n).
Proof.
  intros Hp. revert n. induction fuel as [|fuel IH]; intros n; [done|]. cbn [LoadCaChain].
  eapply hoare_bind; [apply balance_read|]. intros q. cbn beta.
  destruct (q =? nullptr) eqn:Eq; bools; subst.
  { intros w r w' Hb Hr. run_prim Hr. unfold balance, nullptr in *.
    destruct (0 =? p) eqn:E; bools; lia. }
  eapply hoare_bind; [apply balance_add|]. intros a. cbn beta.
  eapply hoare_bind; [apply balance_free|]. intros u. cbn beta.
  replace (n + _ - _) with n by lia.
  destruct (negb (a =? SSL_SUCCESS)); [apply (hoare_ret SCF_SSL_ERR_LOAD_CA_CERT_CHAIN (fun _ => balance p n))|apply IH].
Qed.

(** How many certificates were read, and a reader that ends after [n] of them. *)
Fixpoint reads (h : History) : nat :=
  match h with
  | [] => 0
  | e :: h' => reads h' + match ev_fn e with PEM_read_bio_X509 => 1 | _ => 0 end
  end.

Definition reader_ends (n : nat) (b : Z) (h : History) : Prop :=
  forall es, (n <= reads es)%nat -> answer (es ++ h) PEM_read_bio_X509 [AInt b] = nullptr.

Lemma reads_app es es' : reads (es ++ es') = (reads es + reads es')%nat.
Proof. induction es as [|e es IH]; simpl; lia. Qed.

Lemma reader_ends_after n b es h :
  reader_ends (n + reads es) b h -> reader_ends n b (es ++ h).
Proof. intros Hr es' Hn. rewrite app_assoc. apply Hr. rewrite reads_app. lia. Qed.

Lemma LoadCaChain_returns fuel ctx b n w :
  reader_ends n b (w_log w) -> (n < fuel)%nat ->
  wp (LoadCaChain fuel ctx b)
    (fun r _ => r = SCF_SUCCESS \/ r = SCF_SSL_ERR_LOAD_CA_CERT_CHAIN) w.
Proof.
  revert n w. induction fuel as [|fuel IH]; intros n w Hend Hn; [lia|]. cbn [LoadCaChain].
  apply wp_bind, wp_lib. intros ca Hca.
  destruct (ca =? nullptr) eqn:E; bools; [apply wp_ret; by left|].
  destruct n as [|n]; [pose proof (Hend [] (Nat.le_0_l _)); simpl in *; congruence|].
  apply wp_bind, wp_lib. intros a Ha. apply wp_bind, wp_lib. intros f Hf.
  destruct (negb (a =? SSL_SUCCESS)); [apply wp_ret; by right|].
  apply (IH n); [|lia]. cbn [w_log set_log].
  by apply (reader_ends_after n b [mkEvent X509_free [AInt ca] f;
    mkEvent SSL_CTX_ctrl [AInt ctx; AInt SSL_CTRL_EXTRA_CHAIN_CERT; AInt 0; AInt ca] a;
    mkEvent PEM_read_bio_X509 [AInt b] ca]); rewrite Nat.add_1_r.
Qed.

(** (C39) Loading a certificate chain returns once the reader ends, and gives back every
    accepted certificate once too often: OpenSSL takes the certificate it adds to the
    chain, and the loop frees it as well. Over the whole run, whatever its result, the
    books of a certificate go down by the number of times OpenSSL accepted it; a refused
    certificate is freed once, as it should be. *)
Theorem LoadCaChain_double_release fuel sslCtx b n w p :
  reader_ends n b (w_log w) -> (n < fuel)%nat -> p <> nullptr ->
  exists r w', LoadCaChain fuel sslCtx b w = Some (r, w') /\
    (r = SCF_SUCCESS \/ r = SCF_SSL_ERR_LOAD_CA_CERT_CHAIN) /\
    credit (KCert, p) (w_log w')
    = credit (KCert, p) (w_log w) - (accepted p (w_log w') - accepted p (w_log w)).
Proof.
  intros Hend Hn Hp. pose proof (LoadCaChain_returns fuel sslCtx b n w Hend Hn) as Hwp.
  unfold wp in Hwp. destruct (LoadCaChain fuel sslCtx b w) as [[r w']|] eqn:Hr; [|done].
  exists r, w'. split_and!; [done..|].
  pose proof (balance_LoadCaChain p _ fuel sslCtx b Hp w r w' eq_refl Hr) as Hb.
  unfold balance in Hb. lia.
Qed.
End history.

(** ** Witnesses *)
Section witnesses.
(** A client that sets a policy, so that its context stores the [SSL_CTX] the call created,
    makes two sessions and frees one. *)
Definition policy_call : Call := CSetPolicy 1 SCF_ROLE_CLIENT SCF_VERIFY_DEFAULT SCF_POLICY_HIGH.
Definition w_policy : World := after (exec policy_call) w_one.
Definition w_session : World := after SCF_SessionNew w_policy.
Definition w_sessions : World := after SCF_SessionNew w_session.
Definition w_freed : World := after (SCF_SessionFree 1) w_sessions.

Lemma history_freed : history [(KSess, 1)] w_freed.
Proof.
  assert (Hone : history [] w_one).
  { refine (h_call [] w_up CCreatePolicyCtx 1 w_one _ _ _); [|done|by vm_compute].
    refine (h_call [] world0 up_call 0 w_up h_start _ _); [done|by vm_compute]. }
  assert (Hpol : history [] w_policy)
    by (refine (h_call [] w_one policy_call SCF_SUCCESS w_policy Hone _ _); [done|by vm_compute]).
  assert (H1 : history [(KSess, 1)] w_session)
    by (refine (h_session_new [] w_policy 1 w_session Hpol _); by vm_compute).
  assert (H2 : history [(KSess, 1); (KSess, 1)] w_sessions)
    by (refine (h_session_new _ w_session 1 w_sessions H1 _); by vm_compute).
  refine (h_session_free _ [(KSess, 1)] w_sessions 1 nullptr w_freed H2 _ _); [done|by vm_compute].
Qed.


(** One certificate, accepted, and freed all the same. *)
Definition w_chain : World := after (LoadCaChain 2 1 1) world0.

Lemma ref_reader_ends : reader_ends 1 1 [].
Proof.
  intros es He. change (ref_answer (es ++ []) PEM_read_bio_X509 [AInt 1] = nullptr).
  rewrite app_nil_r. unfold ref_answer.
  enough (existsb (is_event PEM_read_bio_X509) es = true) as -> by done.
  induction es as [|e es IH]; simpl in *; [lia|].
  destruct (ev_fn e); simpl in *; try done; apply IH; lia.
Qed.

Lemma LoadCaChain_double_release_witness :
  accepted 1 (w_log w_chain) = 1 /\ credit (KCert, 1) (w_log w_chain) = -1.
Proof.
  split; [by vm_compute|].
  destruct (LoadCaChain_double_release 2 1 1 1 world0 1 ref_reader_ends)
    as (r & w' & Hrun & _ & Hbooks); [lia|done|].
  assert (Hw : w' = w_chain) by by unfold w_chain, after; rewrite Hrun.
  rewrite <- Hw, Hbooks, Hw. by vm_compute.
Defined.
End witnesses.
