(* ===== verification/Config.v ===== *)
(** * Configuration files

    [src/common/utils/parse_config.cpp] reads a JSON document into a [Config],
    [src/scf/policy/config.cpp] applies it to a policy context. The JSON library is
    RapidJSON, which is not part of the repository: its values are abstract and its
    accessors are partial, defined where their documented preconditions hold. [None] is a
    broken precondition: a failed assertion, or with [NDEBUG], which the release build of
    [build.sh] defines, an access that nothing checks.

    Parsing is specified by a relation between a document and the configuration it
    denotes. Applying a configuration is shown to be safe on every path, and what every
    buffer it releases holds is stated buffer by buffer: the secrets the code wipes, and
    the copies it does not. *)
From Stdlib Require Import ZArith Lia Ascii String.
From stdpp Require Import base list fin_maps gmap strings.
From S2P Require Import Prelude Errno Types FileCheck FileCtx Machine OpenSSL.
From S2P Require Import Adaptor Api Conn Lifecycle.
Open Scope Z_scope.

(** ** RapidJSON *)
Class RapidJson : Type := {
  Value : Type;
  ParseStream : string -> option Value;       (* [None]: [HasParseError()] *)
  IsNull : Value -> bool;
  IsObject : Value -> bool;
  IsArray : Value -> bool;
  IsString : Value -> bool;
  IsBool : Value -> bool;
  FindMember : Value -> string -> option Value;
  Elements : Value -> list Value;
  StringOf : Value -> string;
  BoolOf : Value -> bool
}.

(** What the allocator answers to the [n]-th allocation made for the file at a path; the
    history of library calls does not record these. *)
Class FileAlloc : Type := { file_alloc : History -> string -> nat -> bool }.

Section accessors.
Context `{RapidJson}.

Definition HasMember (v : Value) (k : string) : option bool :=
  if IsObject v then Some (bool_decide (is_Some (FindMember v k))) else None.
(** [v[k]]: the member must exist. *)
Definition member (v : Value) (k : string) : option Value :=
  if IsObject v then FindMember v k else None.
(** [std::string s = v.GetString()]. *)
Definition GetString (v : Value) : option string :=
  if IsString v then Some (cstr (StringOf v)) else None.
Definition GetBool (v : Value) : option bool :=
  if IsBool v then Some (BoolOf v) else None.
Definition GetArray (v : Value) : option (list Value) :=
  if IsArray v then Some (Elements v) else None.
Definition Size (v : Value) : option Z :=
  if IsArray v then Some (Z.of_nat (length (Elements v))) else None.
End accessors.

(** [a && b], [b] not evaluated when [a] is false. *)
Definition and_also (a b : option bool) : option bool :=
  match a with Some true => b | _ => a end.
Definition or_else (a b : option bool) : option bool :=
  match a with Some false => b | _ => a end.

(** ** The configuration ([parse_config.h]) *)

Definition TLS_VERSION : string := "tlsVersion".
Definition MIN_VERSION : string := "minVersion".
Definition MAX_VERSION : string := "maxVersion".
Definition FORBID_VERSION : string := "forbidVersion".
Definition MAX_FORBIN_VERSION_LENGTH : Z := 5.
Definition TLS_CIPHER_SUITES : string := "tlsCipherSuites".
Definition MAX_TLS_CIPHER_SUITES_LENGTH : Z := 20.
Definition CERT : string := "cert".
Definition CERTS : string := "certs".
Definition CERT_TYPE : string := "certType".
Definition STORE_BUF : string := "storeBuf".
Definition IS_CIPHER : string := "isCipher".
Definition PRIVATE_KEY : string := "privKey".
Definition KEY_AUTH : string := "keyAuth".

Record Cert : Type := mkCert { cert_certType : string; cert_storeBuf : string }.
Record TlsVersion : Type := mkTlsVersion {
  tv_minVersion : Z; tv_maxVersion : Z; tv_forbidVersion : list Z
}.
Record KeyAuth : Type := mkKeyAuth { ka_storeBuf : list ascii; ka_isCipher : bool }.
Record PrivKey : Type := mkPrivKey { pk_storeBuf : string; pk_keyAuth : KeyAuth }.
Record Config : Type := mkConfig {
  cfg_tlsVersion : TlsVersion;
  cfg_tlsCipherSuites : list Z;
  cfg_certs : list Cert;
  cfg_privKey : PrivKey
}.

Definition new_config : Config :=
  mkConfig (mkTlsVersion 0 0 []) [] [] (mkPrivKey EmptyString (mkKeyAuth [] true)).

Definition set_minVersion (v : Z) (t : TlsVersion) : TlsVersion :=
  mkTlsVersion v (tv_maxVersion t) (tv_forbidVersion t).
Definition set_maxVersion (v : Z) (t : TlsVersion) : TlsVersion :=
  mkTlsVersion (tv_minVersion t) v (tv_forbidVersion t).
Definition push_forbidVersion (v : Z) (t : TlsVersion) : TlsVersion :=
  mkTlsVersion (tv_minVersion t) (tv_maxVersion t) (tv_forbidVersion t ++ [v]).
Definition set_tlsVersion (v : TlsVersion) (c : Config) : Config :=
  mkConfig v (cfg_tlsCipherSuites c) (cfg_certs c) (cfg_privKey c).
Definition set_tlsCipherSuites (v : list Z) (c : Config) : Config :=
  mkConfig (cfg_tlsVersion c) v (cfg_certs c) (cfg_privKey c).
Definition set_certs (v : list Cert) (c : Config) : Config :=
  mkConfig (cfg_tlsVersion c) (cfg_tlsCipherSuites c) v (cfg_privKey c).
Definition set_privKey (v : PrivKey) (c : Config) : Config :=
  mkConfig (cfg_tlsVersion c) (cfg_tlsCipherSuites c) (cfg_certs c) v.
Definition set_keyAuth (v : KeyAuth) (p : PrivKey) : PrivKey := mkPrivKey (pk_storeBuf p) v.
Definition set_pk_storeBuf (v : string) (p : PrivKey) : PrivKey := mkPrivKey v (pk_keyAuth p).
Definition set_ka_storeBuf (v : list ascii) (k : KeyAuth) : KeyAuth := mkKeyAuth v (ka_isCipher k).

(** ** Names *)

Definition cipherMap : gmap string Z := list_to_map [
  ("SCF_SSL_ECDHE_ECDSA_WITH_AES_128_GCM_SHA256", SCF_SSL_ECDHE_ECDSA_WITH_AES_128_GCM_SHA256);
  ("SCF_SSL_ECDHE_ECDSA_WITH_AES_256_GCM_SHA384", SCF_SSL_ECDHE_ECDSA_WITH_AES_256_GCM_SHA384);
  ("SCF_SSL_ECDHE_RSA_WITH_AES_128_GCM_SHA256", SCF_SSL_ECDHE_RSA_WITH_AES_128_GCM_SHA256);
  ("SCF_SSL_ECDHE_RSA_WITH_AES_256_GCM_SHA384", SCF_SSL_ECDHE_RSA_WITH_AES_256_GCM_SHA384);
  ("SCF_SSL_ECDHE_RSA_WITH_CHACHA20_POLY1305_SHA256",
    SCF_SSL_ECDHE_RSA_WITH_CHACHA20_POLY1305_SHA256);
  ("SCF_SSL_ECDHE_ECDSA_WITH_CHACHA20_POLY1305_SHA256",
    SCF_SSL_ECDHE_ECDSA_WITH_CHACHA20_POLY1305_SHA256);
  ("SCF_SSL_AES_128_GCM_SHA256", SCF_SSL_AES_128_GCM_SHA256);
  ("SCF_SSL_AES_256_GCM_SHA384", SCF_SSL_AES_256_GCM_SHA384);
  ("SCF_SSL_CHACHA20_POLY1305_SHA256", SCF_SSL_CHACHA20_POLY1305_SHA256);
  ("SCF_SSL_AES_128_CCM_SHA256", SCF_SSL_AES_128_CCM_SHA256)
]%string.

Definition tlsVersionMap : gmap string Z := list_to_map [
  ("SSL_VERSION_TLS12", SCF_SSL_VERSION_TLS12);
  ("SSL_VERSION_TLS13", SCF_SSL_VERSION_TLS13)
]%string.

Definition tlsCertTypeMap : gmap string Z := list_to_map [
  ("CA", SCF_CERT_TYPE_CA);
  ("EE", SCF_CERT_TYPE_EE);
  ("CRL", SCF_CERT_TYPE_CRL);
  ("EE_CHAIN", SCF_CERT_TYPE_EE_CHAIN)
]%string.

(** ** Parsing (parse_config.cpp)

    Each function answers its code and its out parameter. *)
Section parse.
Context `{RapidJson} `{FileSystem}.

(** [None]: the empty (null) document. *)
Definition SCF_ReadConfig (filePath : string) : option Value :=
  match read_file (cstr filePath) with
  | None => None
  | Some text => ParseStream text
  end.

Definition FillTlsVersion (tlsVersion : Value) (out : TlsVersion) : option (Z * TlsVersion) :=
  minV ← member tlsVersion MIN_VERSION; minVersionStr ← GetString minV;
  maxV ← member tlsVersion MAX_VERSION; maxVersionStr ← GetString maxV;
  match tlsVersionMap !! minVersionStr with
  | None => mret (SCF_ERROR, out)
  | Some minVersion =>
      let out := set_minVersion minVersion out in
      match tlsVersionMap !! maxVersionStr with
      | None => mret (SCF_ERROR, out)
      | Some maxVersion => mret (SCF_SUCCESS, set_maxVersion maxVersion out)
      end
  end.

(** The [for] loop of [FillTlsForbidVersion]. *)
Fixpoint forbid_version_loop (vs : list Value) (out : TlsVersion) : option (Z * TlsVersion) :=
  match vs with
  | [] => mret (SCF_SUCCESS, out)
  | v :: vs' =>
      return_if negb (IsString v) with (mret (SCF_ERROR, out)) ;;
      forbidVersionStr ← GetString v;
      match tlsVersionMap !! forbidVersionStr with
      | None => mret (SCF_ERROR, out)
      | Some n => forbid_version_loop vs' (push_forbidVersion n out)
      end
  end.

Definition FillTlsForbidVersion (tlsVersion : Value) (out : TlsVersion)
    : option (Z * TlsVersion) :=
  forbidV ← member tlsVersion FORBID_VERSION;
  vs ← GetArray forbidV;
  forbid_version_loop vs out.

Definition SCF_ParseTLSVersion (tlsVersion : Value) (out : TlsVersion)
    : option (Z * TlsVersion) :=
  hasMember ← and_also (HasMember tlsVersion MIN_VERSION)
                (and_also (HasMember tlsVersion MAX_VERSION)
                          (HasMember tlsVersion FORBID_VERSION));
  return_if negb hasMember with (mret (SCF_ERROR, out)) ;;
  minV ← member tlsVersion MIN_VERSION; maxV ← member tlsVersion MAX_VERSION;
  return_if negb (IsString minV && IsString maxV) with (mret (SCF_ERROR, out)) ;;
  r ← FillTlsVersion tlsVersion out;
  let '(ret, out) := r in
  return_if negb (ret =? SCF_SUCCESS) with (mret (SCF_ERROR, out)) ;;
  forbidV ← member tlsVersion FORBID_VERSION;
  forbidVersionInValid ← or_else (Some (negb (IsArray forbidV)))
    (n ← Size forbidV; mret (MAX_FORBIN_VERSION_LENGTH <? n));
  return_if (forbidVersionInValid : bool) with (mret (SCF_ERROR, out)) ;;
  r ← FillTlsForbidVersion tlsVersion out;
  let '(ret, out) := r in
  return_if negb (ret =? SCF_SUCCESS) with (mret (SCF_ERROR, out)) ;;
  mret (SCF_SUCCESS, out).

(** The [for] loop of [FillTlsCipherSuites]. *)
Fixpoint cipher_suites_loop (vs : list Value) (out : list Z) : option (Z * list Z) :=
  match vs with
  | [] => mret (SCF_SUCCESS, out)
  | v :: vs' =>
      return_if negb (IsString v) with (mret (SCF_ERROR, out)) ;;
      tlsCiphersuite ← GetString v;
      match cipherMap !! tlsCiphersuite with
      | Some n => cipher_suites_loop vs' (out ++ [n])
      | None => mret (SCF_ERROR, out)
      end
  end.

Definition FillTlsCipherSuites (tlsCiphersuites : Value) (out : list Z) : option (Z * list Z) :=
  vs ← GetArray tlsCiphersuites;
  cipher_suites_loop vs out.

Definition SCF_ParseTLSCiphersuites (tlsCiphersuites : Value) (out : list Z)
    : option (Z * list Z) :=
  invalid ← or_else (Some (negb (IsArray tlsCiphersuites)))
    (n ← Size tlsCiphersuites; mret (MAX_TLS_CIPHER_SUITES_LENGTH <? n));
  return_if (invalid : bool) with (mret (SCF_ERROR, out)) ;;
  r ← FillTlsCipherSuites tlsCiphersuites out;
  let '(ret, out) := r in
  return_if negb (ret =? SCF_SUCCESS) with (mret (SCF_ERROR, out)) ;;
  return_if bool_decide (out = []) with (mret (SCF_ERROR, out)) ;;
  mret (SCF_SUCCESS, out).

Definition CheckCertType (certType : string) : Z :=
  match tlsCertTypeMap !! certType with Some _ => SCF_SUCCESS | None => SCF_ERROR end.

(** The [for] loop of [FillCerts]. *)
Fixpoint certs_loop (vs : list Value) (out : list Cert) : option (Z * list Cert) :=
  match vs with
  | [] => mret (SCF_SUCCESS, out)
  | certObj :: vs' =>
      certObjInvalid ← or_else (Some (negb (IsObject certObj)))
        (h ← HasMember certObj CERT; mret (negb h));
      return_if (certObjInvalid : bool) with (mret (SCF_ERROR, out)) ;;
      cert ← member certObj CERT;
      return_if negb (IsObject cert) with (mret (SCF_ERROR, out)) ;;
      certValid ← and_also (HasMember cert CERT_TYPE) (and_also (HasMember cert STORE_BUF)
        (and_also (v ← member cert CERT_TYPE; mret (IsString v))
                  (v ← member cert STORE_BUF; mret (IsString v))));
      return_if negb certValid with (mret (SCF_ERROR, out)) ;;
      typeV ← member cert CERT_TYPE; certType ← GetString typeV;
      bufV ← member cert STORE_BUF; certStoreBuf ← GetString bufV;
      return_if negb (CheckCertType certType =? SCF_SUCCESS)
                || negb (SCF_CheckFilePathAndStat certStoreBuf)
        with (mret (SCF_ERROR, out)) ;;
      certs_loop vs' (out ++ [mkCert certType certStoreBuf])
  end.

Definition FillCerts (certs : Value) (out : list Cert) : option (Z * list Cert) :=
  vs ← GetArray certs;
  certs_loop vs out.

Definition SCF_ParseCertsJson (certs : Value) (out : list Cert) : option (Z * list Cert) :=
  return_if negb (IsArray certs) with (mret (SCF_ERROR, out)) ;;
  r ← FillCerts certs out;
  let '(ret, out) := r in
  return_if negb (ret =? SCF_SUCCESS) with (mret (SCF_ERROR, out)) ;;
  mret (SCF_SUCCESS, out).

(** [!v.HasMember(k) || !v[k].Is...()]. *)
Definition lacks (v : Value) (k : string) (kind : Value -> bool) : option bool :=
  or_else (h ← HasMember v k; mret (negb h)) (x ← member v k; mret (negb (kind x))).

Definition SCF_ParseKeyAuthJson (keyAuth : Value) (out : KeyAuth) : option (Z * KeyAuth) :=
  keyAuthInvalid ← or_else (Some (negb (IsObject keyAuth)))
    (or_else (lacks keyAuth STORE_BUF IsString) (lacks keyAuth IS_CIPHER IsBool));
  return_if (keyAuthInvalid : bool) with (mret (SCF_ERROR, out)) ;;
  bufV ← member keyAuth STORE_BUF; storeBuf ← GetString bufV;
  cipherV ← member keyAuth IS_CIPHER; isCipher ← GetBool cipherV;
  mret (SCF_SUCCESS, mkKeyAuth (ka_storeBuf out ++ bytes storeBuf) isCipher).

Definition SCF_ParsePrivKeyJson (privKey : Value) (out : PrivKey) : option (Z * PrivKey) :=
  return_if negb (IsObject privKey) with (mret (SCF_ERROR, out)) ;;
  privKeyInvalid ← or_else (lacks privKey STORE_BUF IsString) (lacks privKey KEY_AUTH IsObject);
  return_if (privKeyInvalid : bool) with (mret (SCF_ERROR, out)) ;;
  bufV ← member privKey STORE_BUF; privKeyStoreBuf ← GetString bufV;
  return_if negb (SCF_CheckFilePathAndStat privKeyStoreBuf) with (mret (SCF_ERROR, out)) ;;
  let out := set_pk_storeBuf privKeyStoreBuf out in
  authV ← member privKey KEY_AUTH;
  r ← SCF_ParseKeyAuthJson authV (pk_keyAuth out);
  let '(ret, keyAuth) := r in
  let out := set_keyAuth keyAuth out in
  return_if negb (ret =? SCF_SUCCESS) with (mret (SCF_ERROR, out)) ;;
  mret (SCF_SUCCESS, out).

(** One optional section of the document. *)
Definition parse_section {T} (configDoc : Value) (key : string)
    (parse : Value -> T -> option (Z * T)) (get : Config -> T) (set : T -> Config -> Config)
    (cfg : Config) : option (Z * Config) :=
  h ← HasMember configDoc key;
  return_if negb h with (mret (SCF_SUCCESS, cfg)) ;;
  v ← member configDoc key;
  r ← parse v (get cfg);
  let '(ret, x) := r in
  mret (if ret =? SCF_SUCCESS then SCF_SUCCESS else SCF_ERROR, set x cfg).

Definition ParseTLS (configDoc : Value) (cfg : Config) : option (Z * Config) :=
  r ← parse_section configDoc TLS_VERSION SCF_ParseTLSVersion cfg_tlsVersion set_tlsVersion cfg;
  let '(ret, cfg) := r in
  return_if negb (ret =? SCF_SUCCESS) with (mret (SCF_ERROR, cfg)) ;;
  parse_section configDoc TLS_CIPHER_SUITES SCF_ParseTLSCiphersuites cfg_tlsCipherSuites
    set_tlsCipherSuites cfg.

Definition ParseCertAndKey (configDoc : Value) (cfg : Config) : option (Z * Config) :=
  r ← parse_section configDoc CERTS SCF_ParseCertsJson cfg_certs set_certs cfg;
  let '(ret, cfg) := r in
  return_if negb (ret =? SCF_SUCCESS) with (mret (SCF_ERROR, cfg)) ;;
  parse_section configDoc PRIVATE_KEY SCF_ParsePrivKeyJson cfg_privKey set_privKey cfg.

Definition SCF_ParseConfig (filePath : string) (cfg : Config) : option (Z * Config) :=
  match SCF_ReadConfig filePath with
  | None => mret (SCF_ERROR, cfg)
  | Some configDoc =>
      return_if IsNull configDoc with (mret (SCF_ERROR, cfg)) ;;
      r ← ParseTLS configDoc cfg;
      let '(ret, cfg) := r in
      return_if negb (ret =? SCF_SUCCESS) with (mret (SCF_ERROR, cfg)) ;;
      r ← ParseCertAndKey configDoc cfg;
      let '(ret, cfg) := r in
      return_if negb (ret =? SCF_SUCCESS) with (mret (SCF_ERROR, cfg)) ;;
      mret (SCF_SUCCESS, cfg)
  end.
End parse.

(** ** Applying a configuration (parse_config.cpp, config.cpp)

    Besides its code, an operation answers the objects it changed and the buffers it
    released, each with what it was for and what it held when it was released. *)
Inductive Holder : Type :=
| HFileCtx     (* a buffer of a file context, or a vector made to fill one *)
| HPathCopy    (* [storeBuf], a path copied by [StringToCharPtr] *)
| HPassPhrase  (* the configuration's [keyAuth.storeBuf] *)
| HString      (* a string of the configuration, or the path of the file *)
| HDocument.   (* the pass phrase as a string of the JSON document *)
Definition Released : Type := list (Holder * list ascii).
Definition held (h : Holder) (bufs : list (list ascii)) : Released := (h,.) <$> bufs.

Section apply.
Context `{RapidJson} `{FileAlloc} `{Library} {A : TlsAdaptor} `{SecureC} `{FileSystem}
  `{Decryptor} `{Uninit}.

(** The globals, and the allocator's answer to the [n]-th request for the file at [path]. *)
Definition env_at (path : string) (n : nat) : M Env :=
  gets (fun w => mkEnv (w_scfInitialized w) (w_adaptor w)
                   (fun _ => file_alloc (w_log w) path n)).

(** A NUL-terminated copy, or null. *)
Definition StringToCharPtr (str : string) : M (option (list ascii) * Released) :=
  e ← env_at str 1;
  return_if negb (alloc e 0) with (mret (None, [])) ;;
  let '(rc, charPtr) := memcpy_s (uninit (S (String.length str))) (slen str + 1) (bytes str) in
  return_if negb (rc =? EOK) with (mret (None, held HPathCopy [charPtr])) ;;
  mret (Some (<[String.length str := NUL]> charPtr), []).

(** [strlen(storeBuf)] of a NUL-terminated copy. *)
Definition strlen (storeBuf : list ascii) : Z := slen (buf_cstr storeBuf).

Definition AddCertInner (ctx : Z) (fileCtx : option SCFFileCtx) (storeBuf : list ascii)
    (certObj : Cert) : M (Z * option SCFFileCtx * Released) :=
  e ← env_at (cert_storeBuf certObj) 2;
  let '(ret, fileCtx, released) :=
    SCF_FileCtxSetBuf e fileCtx SCF_STORE_FILE_PATH (Some storeBuf) (strlen storeBuf)
      SCF_STORE_FORMAT_PEM in
  let released := held HFileCtx released in
  return_if negb (ret =? SCF_SUCCESS) with (mret (SCF_ERROR, fileCtx, released)) ;;
  match tlsCertTypeMap !! cert_certType certObj with
  | None => mret (SCF_ERROR, fileCtx, released)
  | Some certType =>
      ret ← SCF_AddCert ctx fileCtx certType;
      mret (ret, fileCtx, released)
  end.

(** The [for] loop of [AddCert2PolicyCtx]. *)
Fixpoint add_certs_loop (ctx : Z) (certs : list Cert) (released : Released)
    : M (Z * Released) :=
  match certs with
  | [] => mret (SCF_SUCCESS, released)
  | certObj :: certs' =>
      e ← env_at (cert_storeBuf certObj) 0;
      let fileCtx := SCF_FileCtxNew e in
      return_if bool_decide (fileCtx = None) with (mret (SCF_ERROR, released)) ;;
      p ← StringToCharPtr (cert_storeBuf certObj);
      match p with
      | (None, rel) =>
          mret (SCF_ERROR, released ++ rel ++ held HFileCtx (SCF_FileCtxFree fileCtx).2)
      | (Some storeBuf, _) =>
          r ← AddCertInner ctx fileCtx storeBuf certObj;
          let '(ret, fileCtx, rel) := r in
          let released := released ++ rel ++ held HPathCopy [storeBuf] ++
                          held HFileCtx (SCF_FileCtxFree fileCtx).2 in
          return_if negb (ret =? SCF_SUCCESS) with (mret (SCF_ERROR, released)) ;;
          add_certs_loop ctx certs' released
      end
  end.

Definition AddCert2PolicyCtx (ctx : Z) (certsArray : list Cert) : M (Z * Released) :=
  return_if bool_decide (certsArray = []) with (mret (SCF_SUCCESS, [])) ;;
  add_certs_loop ctx certsArray [].

(** The file context and the path copy; [released] is what a failure gives back. *)
Definition CreateAndInitializeFileCtx (privKey : PrivKey)
    : M (Z * option SCFFileCtx * option (list ascii) * Released) :=
  e ← env_at (pk_storeBuf privKey) 0;
  let fileCtx := SCF_FileCtxNew e in
  return_if bool_decide (fileCtx = None) with (mret (SCF_ERRNO_MEM_ALLOC, None, None, [])) ;;
  p ← StringToCharPtr (pk_storeBuf privKey);
  let '(storeBuf, rel) := p in
  return_if bool_decide (storeBuf = None)
    with (mret (SCF_ERROR, None, None, rel ++ held HFileCtx (SCF_FileCtxFree fileCtx).2)) ;;
  mret (SCF_SUCCESS, fileCtx, storeBuf, []).

Definition CleanResource (fileCtx : option SCFFileCtx) (storeBuf : option (list ascii))
    : Released :=
  held HFileCtx (SCF_FileCtxFree fileCtx).2 ++
  match storeBuf with Some b => held HPathCopy [b] | None => [] end.

(** [std::fill(v.begin(), v.end(), '\0')]. *)
Definition fill_zero (v : list ascii) : list ascii := replicate (length v) NUL.

Definition SetFileCtxPassword (path : string) (fileCtx : option SCFFileCtx) (keyAuth : KeyAuth)
    : M (Z * option SCFFileCtx * KeyAuth * Released) :=
  return_if bool_decide (ka_storeBuf keyAuth = []) with (mret (SCF_ERROR, fileCtx, keyAuth, [])) ;;
  return_if negb (ka_isCipher keyAuth) with (mret (SCF_ERROR, fileCtx, keyAuth, [])) ;;
  e ← env_at path 3;
  let '(ret, fileCtx, released) :=
    SCF_FileCtxSetPwd e fileCtx (Some (ka_storeBuf keyAuth))
      (Z.of_nat (length (ka_storeBuf keyAuth))) (ka_isCipher keyAuth) in
  let released := held HFileCtx released in
  return_if negb (ret =? SCF_SUCCESS)
    with (mret (ret, fileCtx, set_ka_storeBuf (fill_zero (ka_storeBuf keyAuth)) keyAuth,
                released)) ;;
  mret (SCF_SUCCESS, fileCtx, keyAuth, released).

Definition SetKeyAndPwd (ctx : Z) (path : string) (fileCtx : option SCFFileCtx)
    (storeBuf : list ascii) (keyAuth : KeyAuth)
    : M (Z * option SCFFileCtx * KeyAuth * Released) :=
  e ← env_at path 2;
  let '(ret, fileCtx, rel1) :=
    SCF_FileCtxSetBuf e fileCtx SCF_STORE_FILE_PATH (Some storeBuf) (strlen storeBuf)
      SCF_STORE_FORMAT_PEM in
  let rel1 := held HFileCtx rel1 in
  return_if negb (ret =? SCF_SUCCESS) with (mret (ret, fileCtx, keyAuth, rel1)) ;;
  r ← SetFileCtxPassword path fileCtx keyAuth;
  let '(ret, fileCtx, keyAuth, rel2) := r in
  return_if negb (ret =? SCF_SUCCESS) with (mret (ret, fileCtx, keyAuth, rel1 ++ rel2)) ;;
  ret ← SCF_SetKey ctx fileCtx;
  mret (ret, fileCtx, keyAuth, rel1 ++ rel2).

Definition SetPrivKeyAndPwd4Ctx (ctx : Z) (privKey : PrivKey) : M (Z * PrivKey * Released) :=
  return_if bool_decide (pk_storeBuf privKey = EmptyString)
    with (return_if bool_decide (ka_storeBuf (pk_keyAuth privKey) = [])
            with (mret (SCF_SUCCESS, privKey, [])) ;;
          mret (SCF_ERROR, privKey, [])) ;;
  r ← CreateAndInitializeFileCtx privKey;
  match r with
  | (ret, fileCtx, storeBuf, rel1) =>
      return_if negb (ret =? SCF_SUCCESS)
        with (mret (ret, privKey, rel1 ++ CleanResource fileCtx storeBuf)) ;;
      r ← SetKeyAndPwd ctx (pk_storeBuf privKey) fileCtx (default [] storeBuf)
            (pk_keyAuth privKey);
      let '(ret, fileCtx, keyAuth, rel2) := r in
      let privKey := set_keyAuth keyAuth privKey in
      let released := rel1 ++ rel2 ++ CleanResource fileCtx storeBuf in
      return_if negb (ret =? SCF_SUCCESS) with (mret (ret, privKey, released)) ;;
      return_if negb (bool_decide (ka_storeBuf keyAuth = []))
        with (mret (SCF_SUCCESS,
                    set_keyAuth (set_ka_storeBuf (fill_zero (ka_storeBuf keyAuth)) keyAuth)
                      privKey, released)) ;;
      mret (SCF_SUCCESS, privKey, released)
  end.

Definition SetCipherSuites4PolicyCtx (ctx : Z) (tlsCipherSuites : list Z) : M Z :=
  return_if bool_decide (tlsCipherSuites = []) with (mret SCF_SUCCESS) ;;
  ret ← SCF_SetCipherSuites ctx (Some tlsCipherSuites);
  return_if negb (ret =? SCF_SUCCESS) with (mret SCF_ERROR) ;;
  mret SCF_SUCCESS.

Definition SetProtocolVersion4PolicyCtx (ctx : Z) (tlsVersion : TlsVersion) : M Z :=
  return_if (tv_maxVersion tlsVersion =? 0) || (tv_minVersion tlsVersion =? 0)
    with (mret SCF_SUCCESS) ;;
  ret ← SCF_SetProtocolVersion ctx (tv_minVersion tlsVersion) (tv_maxVersion tlsVersion)
          (Some (tv_forbidVersion tlsVersion));
  return_if negb (ret =? SCF_SUCCESS) with (mret SCF_ERROR) ;;
  mret SCF_SUCCESS.

Definition SetTLS (ctx : Z) (cfg : Config) : M Z :=
  ret ← SetProtocolVersion4PolicyCtx ctx (cfg_tlsVersion cfg);
  return_if negb (ret =? SCF_SUCCESS) with (mret SCF_ERROR) ;;
  ret ← SetCipherSuites4PolicyCtx ctx (cfg_tlsCipherSuites cfg);
  return_if negb (ret =? SCF_SUCCESS) with (mret SCF_ERROR) ;;
  mret SCF_SUCCESS.

Definition SetCertAndKey (ctx : Z) (cfg : Config) : M (Z * Config * Released) :=
  r ← AddCert2PolicyCtx ctx (cfg_certs cfg);
  let '(ret, rel1) := r in
  return_if negb (ret =? SCF_SUCCESS) with (mret (SCF_ERROR, cfg, rel1)) ;;
  r ← SetPrivKeyAndPwd4Ctx ctx (cfg_privKey cfg);
  let '(ret, privKey, rel2) := r in
  let cfg := set_privKey privKey cfg in
  return_if negb (ret =? SCF_SUCCESS) with (mret (SCF_ERROR, cfg, rel1 ++ rel2)) ;;
  mret (SCF_SUCCESS, cfg, rel1 ++ rel2).

(** The configuration, and the pass phrase's memory as it is released by [clear()]. *)
Definition CleanConfig (cfg : Config) : Config * Released :=
  let keyAuth := pk_keyAuth (cfg_privKey cfg) in
  return_if bool_decide (ka_storeBuf keyAuth = []) with (cfg, []) ;;
  (set_privKey (set_keyAuth (set_ka_storeBuf [] keyAuth) (cfg_privKey cfg)) cfg,
   held HPassPhrase [fill_zero (ka_storeBuf keyAuth)]).

(** A broken precondition of the JSON library is a fault. *)
Definition defined {X} (m : option X) : M X :=
  match m with Some x => mret x | None => fault end.

(** The strings of a configuration, destroyed with it. *)
Definition cfg_strings (cfg : Config) : list string :=
  pk_storeBuf (cfg_privKey cfg) ::
  flat_map (fun c => [cert_certType c; cert_storeBuf c]) (cfg_certs cfg).

(** The string a document keeps its pass phrase in, if it has one. *)
Definition document_phrase (configDoc : Value) : list string :=
  match (k ← FindMember configDoc PRIVATE_KEY; a ← FindMember k KEY_AUTH;
         FindMember a STORE_BUF) with
  | Some v => if IsString v then [StringOf v] else []
  | None => []
  end.

(** [configDoc] is destroyed at the end of [SCF_ParseConfig]. *)
Definition document_released (filePath : string) : Released :=
  match SCF_ReadConfig filePath with
  | Some configDoc => held HDocument (bytes <$> document_phrase configDoc)
  | None => []
  end.

(** The code, and every buffer released, the local [Config]'s members last. *)
Definition SCF_SetConfigFile (ctx : Z) (config : option string) : M (Z * Released) :=
  match config with
  | None => mret (SCF_ERRNO_NULL_INPUT, [])
  | Some config =>
      return_if ctx =? nullptr with (mret (SCF_ERRNO_NULL_INPUT, [])) ;;
      return_if slen (cstr config) =? 0 with (mret (SCF_ERRNO_INVALID_PARAM, [])) ;;
      let filepath := cstr config in
      return_if negb (SCF_CheckFilePathAndStat filepath)
        with (mret (SCF_ERROR, held HString [bytes filepath])) ;;
      r ← defined (SCF_ParseConfig filepath new_config);
      let '(ret, cfg) := r in
      let leave cfg rel :=
        document_released filepath ++ rel ++
        held HPassPhrase [ka_storeBuf (pk_keyAuth (cfg_privKey cfg))] ++
        held HString (bytes <$> cfg_strings cfg ++ [filepath]) in
      let cleaned cfg rel := leave (CleanConfig cfg).1 (rel ++ (CleanConfig cfg).2) in
      return_if negb (ret =? SCF_SUCCESS) with (mret (SCF_ERROR, cleaned cfg [])) ;;
      ret ← SetTLS ctx cfg;
      return_if negb (ret =? SCF_SUCCESS) with (mret (SCF_ERROR, cleaned cfg [])) ;;
      r ← SetCertAndKey ctx cfg;
      let '(ret, cfg, rel) := r in
      return_if negb (ret =? SCF_SUCCESS) with (mret (SCF_ERROR, cleaned cfg rel)) ;;
      mret (SCF_SUCCESS, leave cfg rel)
  end.
End apply.

(** ** What a document denotes *)
Section denotation.
Context `{RapidJson} `{FileSystem}.

Definition text_of (v : Value) (s : string) : Prop :=
  IsString v = true /\ s = cstr (StringOf v).

(** A name of the table. *)
Definition named (table : gmap string Z) (v : Value) (n : Z) : Prop :=
  IsString v = true /\ table !! cstr (StringOf v) = Some n.

Definition version_of (v : Value) (t : TlsVersion) : Prop :=
  exists a b f, FindMember v MIN_VERSION = Some a /\ FindMember v MAX_VERSION = Some b /\
    FindMember v FORBID_VERSION = Some f /\
    named tlsVersionMap a (tv_minVersion t) /\ named tlsVersionMap b (tv_maxVersion t) /\
    IsArray f = true /\ Z.of_nat (length (Elements f)) <= MAX_FORBIN_VERSION_LENGTH /\
    Forall2 (named tlsVersionMap) (Elements f) (tv_forbidVersion t).

Definition suites_of (v : Value) (l : list Z) : Prop :=
  IsArray v = true /\ Z.of_nat (length (Elements v)) <= MAX_TLS_CIPHER_SUITES_LENGTH /\
  l <> [] /\ Forall2 (named cipherMap) (Elements v) l.

Definition cert_of (v : Value) (c : Cert) : Prop :=
  IsObject v = true /\ exists x t b,
    FindMember v CERT = Some x /\ IsObject x = true /\
    FindMember x CERT_TYPE = Some t /\ text_of t (cert_certType c) /\
    FindMember x STORE_BUF = Some b /\ text_of b (cert_storeBuf c) /\
    is_Some (tlsCertTypeMap !! cert_certType c) /\
    SCF_CheckFilePathAndStat (cert_storeBuf c) = true.

Definition certs_of (v : Value) (l : list Cert) : Prop :=
  IsArray v = true /\ Forall2 cert_of (Elements v) l.

Definition auth_of (v : Value) (k : KeyAuth) : Prop :=
  IsObject v = true /\ exists b s c,
    FindMember v STORE_BUF = Some b /\ text_of b s /\ ka_storeBuf k = bytes s /\
    FindMember v IS_CIPHER = Some c /\ IsBool c = true /\ ka_isCipher k = BoolOf c.

Definition key_of (v : Value) (p : PrivKey) : Prop :=
  IsObject v = true /\ exists b a,
    FindMember v STORE_BUF = Some b /\ text_of b (pk_storeBuf p) /\
    SCF_CheckFilePathAndStat (pk_storeBuf p) = true /\
    FindMember v KEY_AUTH = Some a /\ auth_of a (pk_keyAuth p).

(** A section that may be absent. *)
Definition optional {T} (doc : Value) (key : string) (P : Value -> T -> Prop) (dflt x : T)
    : Prop :=
  match FindMember doc key with None => x = dflt | Some v => P v x end.

Definition denotes (doc : Value) (cfg : Config) : Prop :=
  optional doc TLS_VERSION version_of (cfg_tlsVersion new_config) (cfg_tlsVersion cfg) /\
  optional doc TLS_CIPHER_SUITES suites_of [] (cfg_tlsCipherSuites cfg) /\
  optional doc CERTS certs_of [] (cfg_certs cfg) /\
  optional doc PRIVATE_KEY key_of (cfg_privKey new_config) (cfg_privKey cfg).

(** The two places where the code asks a value that is not an object for a member, which
    RapidJSON does not allow. *)
Definition misused (doc : Value) : Prop :=
  IsObject doc = false \/
  exists v, FindMember doc TLS_VERSION = Some v /\ IsObject v = false.
End denotation.

(** ** Parsing is correct *)

(** A parser answers success and the only value allowed, or an error when there is none. *)
Definition outcome {T} (m : option (Z * T)) (P : T -> Prop) : Prop :=
  (exists x, m = Some (SCF_SUCCESS, x) /\ P x /\ forall y, P y -> y = x) \/
  (exists x, m = Some (SCF_ERROR, x) /\ forall y, ~ P y).

Lemma outcome_iff {T} (m : option (Z * T)) P x :
  outcome m P -> m = Some (SCF_SUCCESS, x) <-> P x.
Proof.
  intros [(y & -> & HP & Hu)|(y & -> & Hn)]; split.
  - by intros [= <-].
  - intros Hx. by rewrite (Hu x Hx).
  - done.
  - intros Hx. by destruct (Hn x).
Qed.

Lemma outcome_defined {T} (m : option (Z * T)) P : outcome m P -> m <> None.
Proof. by intros [(x & -> & _)|(x & -> & _)]. Qed.

Lemma outcome_ok {T} (x : T) (P : T -> Prop) :
  P x -> (forall y, P y -> y = x) -> outcome (Some (SCF_SUCCESS, x)) P.
Proof. left. by exists x. Qed.

Lemma outcome_err {T} (x : T) (P : T -> Prop) :
  (forall y, ~ P y) -> outcome (Some (SCF_ERROR, x)) P.
Proof. right. by exists x. Qed.

Lemma outcome_ext {T} (m : option (Z * T)) (P Q : T -> Prop) :
  (forall y, P y <-> Q y) -> outcome m P -> outcome m Q.
Proof.
  intros Heq [(x & -> & HP & Hu)|(x & -> & Hn)].
  - apply outcome_ok; [by apply Heq|]. intros y Hy. by apply Hu, Heq.
  - apply outcome_err. intros y Hy. by apply (Hn y), Heq.
Qed.

Lemma outcome_seq {T U} (m : option (Z * T)) (k : T -> option (Z * U)) (e : T -> U)
    (P : T -> Prop) (Q : T -> U -> Prop) :
  outcome m P -> (forall x, P x -> outcome (k x) (Q x)) ->
  outcome (r ← m; let '(ret, x) := r in
           return_if negb (ret =? SCF_SUCCESS) with (mret (SCF_ERROR, e x)) ;; k x)
    (fun y => exists x, P x /\ Q x y).
Proof.
  intros [(x & -> & HP & Hu)|(x & -> & Hn)] Hk.
  - change (outcome (k x) (fun y => exists x, P x /\ Q x y)).
    eapply outcome_ext; [|by apply Hk]. intros y. split; [by exists x|].
    intros (x' & HP' & HQ). by rewrite (Hu x' HP') in HQ.
  - apply outcome_err. intros y (x' & HP' & _). by apply (Hn x').
Qed.

(** A loop that converts the elements one by one. *)
Lemma outcome_loop {V X T} (loop : list V -> T -> option (Z * T)) (push : X -> T -> T)
    (dec : V -> option X) (R : V -> X -> Prop) :
  (forall acc, loop [] acc = Some (SCF_SUCCESS, acc)) ->
  (forall v vs acc, loop (v :: vs) acc = match dec v with
     | Some x => loop vs (push x acc) | None => Some (SCF_ERROR, acc) end) ->
  (forall v x, R v x <-> dec v = Some x) ->
  forall vs acc, outcome (loop vs acc)
    (fun t => exists l, Forall2 R vs l /\ t = foldl (fun a x => push x a) acc l).
Proof.
  intros Hnil Hcons HR vs. induction vs as [|v vs IH]; intros acc.
  - rewrite Hnil. apply outcome_ok; [by exists []|]. intros y (l & Hl & ->). by inversion Hl.
  - rewrite Hcons. destruct (dec v) as [x|] eqn:E.
    + eapply outcome_ext; [|apply IH]. intros t. split.
      * intros (l & Hl & ->). exists (x :: l). split; [|done]. constructor; [by apply HR|done].
      * intros (l & Hl & ->). apply Forall2_cons_inv_l in Hl as (x' & l' & Hx & Hl & ->).
        apply HR in Hx. rewrite E in Hx. injection Hx as <-. by exists l'.
    + apply outcome_err. intros t (l & Hl & _).
      apply Forall2_cons_inv_l in Hl as (x' & l' & Hx & _). apply HR in Hx. congruence.
Qed.

Lemma foldl_push {X} (l acc : list X) : foldl (fun a x => a ++ [x]) acc l = acc ++ l.
Proof.
  revert acc. induction l as [|x l IH]; intros acc; simpl; [by rewrite app_nil_r|].
  by rewrite IH, <- app_assoc.
Qed.

Section parse_correct.
Context `{RapidJson} `{FileSystem}.

(** Refute a denotation: its members are the ones found. *)
Ltac refute := apply outcome_err; intros ? Hbad;
  repeat match goal with
  | Hb : version_of _ _ |- _ => destruct Hb as (?&?&?&?&?&?&[? ?]&[? ?]&?&?&?)
  | Hb : suites_of _ _ |- _ => destruct Hb as (?&?&?&?)
  | Hb : certs_of _ _ |- _ => destruct Hb as (?&?)
  | Hb : auth_of _ _ |- _ => destruct Hb as (?&?&?&?&?&[? ?]&?&?&?&?)
  | Hb : key_of _ _ |- _ => destruct Hb as (?&?&?&?&[? ?]&?&?&?)
  end; simplify_eq; first [congruence | lia].

Lemma FillTlsForbidVersion_spec vs t :
  outcome (forbid_version_loop vs t)
    (fun t' => exists l, Forall2 (named tlsVersionMap) vs l /\
       t' = foldl (fun a n => push_forbidVersion n a) t l).
Proof.
  apply (outcome_loop _ _ (fun v => if IsString v then tlsVersionMap !! cstr (StringOf v) else None)).
  - done.
  - intros v vs' acc. cbn [forbid_version_loop]. unfold GetString.
    destruct (IsString v); [|done]. cbn [negb mbind option_bind].
    by destruct (tlsVersionMap !! _).
  - intros v x. unfold named. destruct (IsString v); naive_solver.
Qed.

Lemma foldl_forbid l t :
  foldl (fun a n => push_forbidVersion n a) t l
  = mkTlsVersion (tv_minVersion t) (tv_maxVersion t) (tv_forbidVersion t ++ l).
Proof.
  revert t. induction l as [|x l IH]; intros t; simpl.
  - rewrite app_nil_r. by destruct t.
  - rewrite IH. simpl. by rewrite <- app_assoc.
Qed.

Lemma ParseTLSVersion_spec v :
  IsObject v = true ->
  outcome (SCF_ParseTLSVersion v (cfg_tlsVersion new_config)) (version_of v).
Proof.
  intros Hobj. unfold SCF_ParseTLSVersion, FillTlsVersion, FillTlsForbidVersion, HasMember,
    member, GetArray, GetString, Size. rewrite Hobj.
  destruct (FindMember v MIN_VERSION) as [a|] eqn:Ea; simpl; [|refute].
  destruct (FindMember v MAX_VERSION) as [b|] eqn:Eb; simpl; [|refute].
  destruct (FindMember v FORBID_VERSION) as [f|] eqn:Ef; simpl; [|refute].
  destruct (IsString a) eqn:Esa; simpl; [|refute].
  destruct (IsString b) eqn:Esb; simpl; [|refute].
  destruct (tlsVersionMap !! cstr (StringOf a)) as [lo|] eqn:Elo; simpl; [|refute].
  destruct (tlsVersionMap !! cstr (StringOf b)) as [hi|] eqn:Ehi; simpl; [|refute].
  destruct (IsArray f) eqn:Earr; simpl; [|refute].
  destruct (MAX_FORBIN_VERSION_LENGTH <? _) eqn:Elen; simpl; bools; [refute|].
  eapply outcome_ext; [|eapply (outcome_seq _ (fun out => mret (SCF_SUCCESS, out)) (fun x => x)
    _ (fun x y => y = x)); [apply FillTlsForbidVersion_spec|]].
  - intros t. split.
    + intros (x & (l & Hl & ->) & ->). rewrite foldl_forbid. exists a, b, f. by repeat split.
    + intros (a' & b' & f' & ? & ? & ? & [_ Hlo] & [_ Hhi] & _ & _ & Hl). simplify_eq.
      eexists. split; [|done]. exists (tv_forbidVersion t). split; [done|].
      rewrite foldl_forbid. destruct t; simpl in *; congruence.
  - intros x _. by apply outcome_ok.
Qed.

Lemma ParseTLSCiphersuites_spec v : outcome (SCF_ParseTLSCiphersuites v []) (suites_of v).
Proof.
  unfold SCF_ParseTLSCiphersuites, FillTlsCipherSuites, GetArray, Size.
  destruct (IsArray v) eqn:Earr; simpl; [|refute].
  destruct (MAX_TLS_CIPHER_SUITES_LENGTH <? _) eqn:Elen; simpl; bools; [refute|].
  assert (Hloop : outcome (cipher_suites_loop (Elements v) [])
    (fun l => Forall2 (named cipherMap) (Elements v) l)).
  { eapply outcome_ext; [|apply (outcome_loop _ (fun n l => l ++ [n])
      (fun v => if IsString v then cipherMap !! cstr (StringOf v) else None))].
    - intros l. setoid_rewrite foldl_push. simpl. naive_solver.
    - done.
    - intros x vs acc. cbn [cipher_suites_loop]. unfold GetString.
      destruct (IsString x); [|done]. cbn [negb mbind option_bind].
      by destruct (cipherMap !! _).
    - intros x n. unfold named. destruct (IsString x); naive_solver. }
  eapply outcome_ext; [|eapply (outcome_seq _ (fun out => if bool_decide (out = [])
    then mret (SCF_ERROR, out) else mret (SCF_SUCCESS, out)) (fun x => x) _
    (fun x y => y = x /\ x <> [])); [exact Hloop|]].
  - intros l. unfold suites_of. naive_solver lia.
  - intros l Hl. case_bool_decide; [by apply outcome_err; intros y [_ ?]|].
    apply outcome_ok; [done|]. by intros y [-> _].
Qed.

(** The element of the array of certificates. *)
Definition cert_dec (v : Value) : option Cert :=
  x ← member v CERT; t ← member x CERT_TYPE; b ← member x STORE_BUF;
  certType ← GetString t; storeBuf ← GetString b;
  if negb (CheckCertType certType =? SCF_SUCCESS) || negb (SCF_CheckFilePathAndStat storeBuf)
  then None else Some (mkCert certType storeBuf).

Lemma CheckCertType_ok s : CheckCertType s = SCF_SUCCESS <-> is_Some (tlsCertTypeMap !! s).
Proof.
  unfold CheckCertType. destruct (tlsCertTypeMap !! s); split; try done; by intros [? ?].
Qed.

Lemma cert_dec_spec v c : cert_of v c <-> cert_dec v = Some c.
Proof.
  unfold cert_of, cert_dec, member, GetString, text_of. split.
  - intros (Hv & x & t & b & Hx & Hox & Ht & [Hst Hct] & Hb & [Hsb Hcb] & Hty & Hp).
    rewrite Hv, Hx. cbn. rewrite Hox, Ht. cbn. rewrite Hb. cbn. rewrite Hst. cbn.
    rewrite Hsb. cbn. rewrite <- Hct, <- Hcb, Hp, (proj2 (CheckCertType_ok _) Hty). simpl.
    by destruct c.
  - intros Hd. repeat (apply bind_Some in Hd as (? & ? & Hd)).
    destruct (_ || _) eqn:E in Hd; [done|]. repeat (case_match; simplify_eq/=; try done). bools.
    split; [done|]. eexists _, _, _. repeat (split; [eassumption || done|]).
    split; [by apply CheckCertType_ok|done].
Qed.

Lemma certs_loop_step v vs acc :
  certs_loop (v :: vs) acc = match cert_dec v with
    | Some x => certs_loop vs (acc ++ [x]) | None => Some (SCF_ERROR, acc) end.
Proof.
  cbn [certs_loop]. unfold cert_dec, HasMember, member, GetString.
  destruct (IsObject v); cbn; [|done]. destruct (FindMember v CERT) as [x|]; cbn; [|done].
  destruct (IsObject x); cbn; [|done].
  destruct (FindMember x CERT_TYPE) as [t|]; cbn; [|done].
  destruct (FindMember x STORE_BUF) as [b|]; cbn; [|done].
  destruct (IsString t); cbn; [|done]. destruct (IsString b); cbn; [|done].
  by destruct (_ || _).
Qed.

Lemma ParseCertsJson_spec v : outcome (SCF_ParseCertsJson v []) (certs_of v).
Proof.
  unfold SCF_ParseCertsJson, FillCerts, GetArray.
  destruct (IsArray v) eqn:Earr; simpl; [|refute].
  eapply outcome_ext; [|eapply (outcome_seq _ (fun out => mret (SCF_SUCCESS, out)) (fun x => x)
    _ (fun x y => y = x)); [apply (outcome_loop _ (fun c l => l ++ [c]) cert_dec cert_of)|]].
  - intros l. unfold certs_of. setoid_rewrite foldl_push. simpl. naive_solver.
  - done.
  - apply certs_loop_step.
  - apply cert_dec_spec.
  - intros x _. by apply outcome_ok.
Qed.

Lemma ParseKeyAuthJson_spec v :
  outcome (SCF_ParseKeyAuthJson v (mkKeyAuth [] true)) (auth_of v).
Proof.
  unfold SCF_ParseKeyAuthJson, lacks, HasMember, member, GetString, GetBool.
  destruct (IsObject v) eqn:Eo; cbn; [|refute].
  destruct (FindMember v STORE_BUF) as [b|] eqn:Eb; cbn; [|refute].
  destruct (IsString b) eqn:Es; cbn; [|refute].
  destruct (FindMember v IS_CIPHER) as [c|] eqn:Ec; cbn; [|refute].
  destruct (IsBool c) eqn:Ebo; cbn; [|refute].
  apply outcome_ok; [split; [done|]; by exists b, (cstr (StringOf b)), c|].
  intros [buf ci] (_ & b' & s & c' & ? & [_ ->] & ? & ? & _ & ?). simplify_eq/=. done.
Qed.

#[local] Arguments SCF_ParseKeyAuthJson : simpl never.

Lemma ParsePrivKeyJson_spec v :
  outcome (SCF_ParsePrivKeyJson v (cfg_privKey new_config)) (key_of v).
Proof.
  unfold SCF_ParsePrivKeyJson, lacks, HasMember, member, GetString.
  destruct (IsObject v) eqn:Eo; cbn; [|refute].
  destruct (FindMember v STORE_BUF) as [b|] eqn:Eb; cbn; [|refute].
  destruct (IsString b) eqn:Es; cbn; [|refute].
  destruct (FindMember v KEY_AUTH) as [a|] eqn:Ea; cbn; [|refute].
  destruct (IsObject a) eqn:Eao; cbn; [|refute].
  destruct (SCF_CheckFilePathAndStat (cstr (StringOf b))) eqn:Ep; cbn; [|refute].
  destruct (ParseKeyAuthJson_spec a) as [(k & -> & Hk & Hu)|(k & -> & Hn)]; cbn.
  - apply outcome_ok; [split; [done|]; by exists b, a|].
    intros [buf ka] (_ & b' & a' & ? & [_ ?] & _ & ? & Hka). simplify_eq/=.
    by rewrite (Hu _ Hka).
  - apply outcome_err. intros p (_ & b' & a' & _ & _ & _ & Ha & Hka). simplify_eq.
    by apply (Hn (pk_keyAuth p)).
Qed.

Lemma parse_section_spec {T} doc key (parse : Value -> T -> option (Z * T)) get set cfg
    (P : Value -> T -> Prop) :
  IsObject doc = true ->
  (forall v, FindMember doc key = Some v -> outcome (parse v (get cfg)) (P v)) ->
  set (get cfg) cfg = cfg ->
  outcome (parse_section doc key parse get set cfg)
    (fun cfg' => exists x, optional doc key P (get cfg) x /\ cfg' = set x cfg).
Proof.
  intros Hobj Hparse Hset. unfold parse_section, HasMember, member, optional. rewrite Hobj.
  destruct (FindMember doc key) as [v|]; cbn.
  - destruct (Hparse v eq_refl) as [(x & -> & HP & Hu)|(x & -> & Hn)]; cbn.
    + apply outcome_ok; [by exists x|]. intros y (x' & HP' & ->). by rewrite (Hu x' HP').
    + apply outcome_err. intros y (x' & HP' & _). by apply (Hn x').
  - apply outcome_ok; [by exists (get cfg)|]. by intros y (x & -> & ->).
Qed.

(** Two sections in a row. *)
Lemma sections_spec {T U} doc k1 p1 g1 s1 k2 p2 g2 s2 cfg
    (P1 : Value -> T -> Prop) (P2 : Value -> U -> Prop) :
  IsObject doc = true ->
  (forall v, FindMember doc k1 = Some v -> outcome (p1 v (g1 cfg)) (P1 v)) ->
  (forall v, FindMember doc k2 = Some v -> outcome (p2 v (g2 cfg)) (P2 v)) ->
  s1 (g1 cfg) cfg = cfg -> (forall x, g2 (s1 x cfg) = g2 cfg) ->
  (forall x, s2 (g2 cfg) (s1 x cfg) = s1 x cfg) ->
  outcome (r ← parse_section doc k1 p1 g1 s1 cfg;
           let '(ret, cfg) := r in
           return_if negb (ret =? SCF_SUCCESS) with (mret (SCF_ERROR, cfg)) ;;
           parse_section doc k2 p2 g2 s2 cfg)
    (fun c => exists x y, optional doc k1 P1 (g1 cfg) x /\ optional doc k2 P2 (g2 cfg) y /\
                c = s2 y (s1 x cfg)).
Proof.
  intros Hobj H1 H2 Hs1 Hg2 Hs2.
  eapply outcome_ext; [|eapply (outcome_seq _ _ (fun x => x)
    (fun c => exists x, optional doc k1 P1 (g1 cfg) x /\ c = s1 x cfg)
    (fun c1 c => exists y, optional doc k2 P2 (g2 cfg) y /\ c = s2 y c1))].
  - intros c. split.
    + intros (? & (x & Hx & ->) & y & Hy & ->). by exists x, y.
    + intros (x & y & Hx & Hy & ->). exists (s1 x cfg). split; [by exists x|by exists y].
  - by apply parse_section_spec.
  - intros c1 (x & Hx & ->). rewrite <- (Hg2 x). apply parse_section_spec; [done| |].
    + intros v Hv. rewrite Hg2. by apply H2.
    + by rewrite Hg2, Hs2.
Qed.

Lemma ParseTLS_spec doc :
  ~ misused doc -> outcome (ParseTLS doc new_config) (fun c => exists t s,
    optional doc TLS_VERSION version_of (cfg_tlsVersion new_config) t /\
    optional doc TLS_CIPHER_SUITES suites_of [] s /\
    c = set_tlsCipherSuites s (set_tlsVersion t new_config)).
Proof.
  intros Hna. apply (sections_spec doc TLS_VERSION SCF_ParseTLSVersion cfg_tlsVersion set_tlsVersion
    TLS_CIPHER_SUITES SCF_ParseTLSCiphersuites cfg_tlsCipherSuites set_tlsCipherSuites new_config
    version_of suites_of); try done.
  - destruct (IsObject doc) eqn:E; [done|]. destruct Hna. by left.
  - intros v Hv. apply ParseTLSVersion_spec. destruct (IsObject v) eqn:E; [done|].
    destruct Hna. right. by exists v.
  - intros v _. apply ParseTLSCiphersuites_spec.
Qed.

Lemma ParseCertAndKey_spec doc t s :
  IsObject doc = true ->
  outcome (ParseCertAndKey doc (set_tlsCipherSuites s (set_tlsVersion t new_config)))
    (fun c => exists cs k, optional doc CERTS certs_of [] cs /\
      optional doc PRIVATE_KEY key_of (cfg_privKey new_config) k /\ c = mkConfig t s cs k).
Proof.
  intros Hobj. apply (sections_spec doc CERTS SCF_ParseCertsJson cfg_certs set_certs
    PRIVATE_KEY SCF_ParsePrivKeyJson cfg_privKey set_privKey
    (set_tlsCipherSuites s (set_tlsVersion t new_config)) certs_of key_of); try done.
  - intros v _. apply ParseCertsJson_spec.
  - intros v _. apply ParsePrivKeyJson_spec.
Qed.

Lemma ParseConfig_spec filePath doc :
  SCF_ReadConfig filePath = Some doc -> IsNull doc = false -> ~ misused doc ->
  outcome (SCF_ParseConfig filePath new_config) (denotes doc).
Proof.
  intros Hread Hnull Hna. unfold SCF_ParseConfig. rewrite Hread, Hnull.
  eapply outcome_ext; [|eapply (outcome_seq _ _ (fun x => x) _ (fun c1 c => exists cs k,
    optional doc CERTS certs_of [] cs /\
    optional doc PRIVATE_KEY key_of (cfg_privKey new_config) k /\
    c = mkConfig (cfg_tlsVersion c1) (cfg_tlsCipherSuites c1) cs k));
    [by apply ParseTLS_spec|]].
  - intros c. unfold denotes. split.
    + by intros (c1 & (t & s & Ht & Hs & ->) & cs & k & Hcs & Hk & ->).
    + destruct c as [t s cs k]. intros (Ht & Hs & Hcs & Hk).
      eexists. split; [by exists t, s|]. by exists cs, k.
  - intros c1 (t & s & Ht & Hs & ->).
    eapply outcome_ext; [|eapply (outcome_seq _ (fun c => mret (SCF_SUCCESS, c)) (fun x => x) _
      (fun x y => y = x)); [apply ParseCertAndKey_spec|]].
    + intros c. naive_solver.
    + destruct (IsObject doc) eqn:E; [done|]. destruct Hna. by left.
    + intros c _. by apply outcome_ok.
Qed.

Lemma ParseConfig_misuse filePath doc :
  SCF_ReadConfig filePath = Some doc -> IsNull doc = false -> misused doc ->
  SCF_ParseConfig filePath new_config = None.
Proof.
  intros Hread Hnull Ha. unfold SCF_ParseConfig. rewrite Hread, Hnull.
  unfold ParseTLS, parse_section, HasMember, member.
  destruct Ha as [-> | (v & Hv & Hobj)]; [reflexivity|].
  destruct (IsObject doc); [|reflexivity]. rewrite Hv. cbn.
  unfold SCF_ParseTLSVersion, HasMember. by rewrite Hobj.
Qed.

(** (C28) Parsing a configuration file is exact: it succeeds with a configuration exactly
    when the file holds a document that denotes it - every version, suite, certificate
    and key named, of the right type, within the limits, and every path checked - and a
    missing section leaves its defaults. The code asks RapidJSON for a member of something
    that is not an object - a failed assertion, or undefined behaviour where assertions are
    off - exactly when the file parses to a document that is neither null nor an object, or
    to an object whose version section is not one. Everything else, a file that cannot be
    read or parsed and a document that is null included, is reported as an error. *)
Theorem ParseConfig_exact filePath cfg :
  (SCF_ParseConfig filePath new_config = Some (SCF_SUCCESS, cfg) <->
   exists doc, SCF_ReadConfig filePath = Some doc /\ IsNull doc = false /\
     ~ misused doc /\ denotes doc cfg) /\
  (SCF_ParseConfig filePath new_config = None <->
   exists doc, SCF_ReadConfig filePath = Some doc /\ IsNull doc = false /\ misused doc).
Proof.
  assert (Hrefused : SCF_ParseConfig filePath new_config = Some (SCF_ERROR, new_config) ->
    SCF_ParseConfig filePath new_config <> Some (SCF_SUCCESS, cfg) /\
    SCF_ParseConfig filePath new_config <> None) by (intros ->; done).
  destruct (SCF_ReadConfig filePath) as [doc|] eqn:Hread.
  2: { destruct Hrefused; [unfold SCF_ParseConfig; by rewrite Hread|]. split; split; try done;
       by intros (? & ? & _). }
  destruct (IsNull doc) eqn:Hnull.
  { destruct Hrefused; [unfold SCF_ParseConfig; by rewrite Hread, Hnull|]. split; split; try done;
      intros (d & [= <-] & ? & _); congruence. }
  assert (Hdec : misused doc \/ ~ misused doc).
  { unfold misused. destruct (IsObject doc); [|by left; left].
    destruct (FindMember doc TLS_VERSION) as [v|]; [|right; by intros [?|(v & ? & _)]].
    destruct (IsObject v) eqn:E; [right|left; right; by exists v].
    intros [?|(v' & [= <-] & ?)]; congruence. }
  destruct Hdec as [Ha|Hna].
  - rewrite (ParseConfig_misuse _ _ Hread Hnull Ha). split; split; try done.
    + intros (d & [= <-] & _ & Hn & _). by destruct Hn.
    + by exists doc.
  - pose proof (ParseConfig_spec _ _ Hread Hnull Hna) as Hout. split.
    + rewrite (outcome_iff _ _ cfg Hout). split; [by exists doc|].
      by intros (d & [= <-] & _ & _ & Hd).
    + split; [intros ?; by destruct (outcome_defined _ _ Hout)|].
      by intros (d & [= <-] & _ & ?).
Qed.
End parse_correct.

(** ** What applying a configuration releases *)
Section apply_correct.
Context `{RapidJson} `{FileAlloc} `{Library} {A : TlsAdaptor} `{!TlsAdaptorSafe A} `{SecureC}
  `{FileSystem} `{Decryptor} `{Uninit}.
Context (ctx : Z) (filepath : string) (cfg0 : Config).

Definition pass_phrase (cfg : Config) : list ascii := ka_storeBuf (pk_keyAuth (cfg_privKey cfg)).
Definition zeroed (v : list ascii) : Prop := Forall (fun ch => ch = NUL) v.

(** How a buffer is left behind, for the configuration [cfg0] of the file [filepath]. *)
Definition left_as (r : Holder * list ascii) : Prop :=
  match r.1 with
  | HFileCtx => zeroed r.2 \/ Decrypt (pass_phrase cfg0) = (false, r.2)
  | HPathCopy => exists path,
      path ∈ pk_storeBuf (cfg_privKey cfg0) :: map cert_storeBuf (cfg_certs cfg0) /\
      (slen path < SECUREC_MEM_MAX_LEN -> r.2 = bytes path ++ [NUL])
  | HPassPhrase => zeroed r.2
  | HString => exists str, str ∈ cfg_strings cfg0 ++ [filepath] /\ r.2 = bytes str
  | HDocument => exists configDoc str, SCF_ReadConfig filepath = Some configDoc /\
      str ∈ document_phrase configDoc /\ r.2 = bytes str
  end.
Definition left_all (released : Released) : Prop := Forall left_as released.

(** The application's decryption of the pass phrase answers a text [memcpy_s] can copy. *)
Hypothesis decrypt_bound : forall q,
  Decrypt (pass_phrase cfg0) = (true, q) -> Z.of_nat (length q) < SECUREC_MEM_MAX_LEN.

(** On a null or live context the program returns, frees nothing of the state, and its
    result satisfies [Q]. *)
Definition yields {X} (m : M X) (Q : X -> Prop) : Prop :=
  forall w, ctx_arg ctx w -> wp m (fun x w' => life_frame w w' /\ Q x) w.

Lemma yields_ret {X} (x : X) Q : Q x -> yields (mret x) Q.
Proof. intros HQ w _. by apply wp_ret. Qed.

Lemma yields_bind {X Y} (m : M X) (f : X -> M Y) Q R :
  yields m Q -> (forall x, Q x -> yields (f x) R) -> yields (m ≫= f) R.
Proof.
  intros Hm Hf w Hw. apply wp_bind. eapply wp_mono; [by apply Hm|]. intros x w1 [Hf1 HQ].
  eapply wp_mono; [apply (Hf x HQ); by apply (stable_ctx_arg ctx w)|]. intros y w2 [Hf2 HR].
  split; [|done]. by etransitivity.
Qed.

Lemma yields_call c :
  lifetime_call c = false -> call_ctx c = Some ctx ->
  (forall p fc t, c = CAddCert p fc t -> t <> SCF_CERT_TYPE_EE_CHAIN) ->
  yields (exec c) (fun _ => True).
Proof.
  intros Hl Hc Ht w Hw. eapply wp_mono; [by apply (safe_use_ctx_life c ctx)|]. done.
Qed.

Lemma yields_env path n : yields (env_at path n) (fun _ => True).
Proof. intros w _. by apply wp_gets. Qed.

Lemma left_nil : left_all [].
Proof. by apply Forall_nil. Qed.

Lemma left_app r1 r2 : left_all r1 -> left_all r2 -> left_all (r1 ++ r2).
Proof. intros. by apply Forall_app. Qed.

(** A buffer the code wiped. *)
Lemma left_wiped bufs : wiped bufs -> left_all (held HFileCtx bufs).
Proof. intros Hw. apply Forall_fmap. eapply Forall_impl; [exact Hw|]. by left. Qed.

Lemma left_phrase v : zeroed v -> left_all (held HPassPhrase [v]).
Proof. intros Hv. by apply Forall_singleton. Qed.

Definition cfg_path (path : string) : Prop :=
  path ∈ pk_storeBuf (cfg_privKey cfg0) :: map cert_storeBuf (cfg_certs cfg0).

Lemma path_copied path :
  slen path < SECUREC_MEM_MAX_LEN ->
  memcpy_s (uninit (S (String.length path))) (slen path + 1) (bytes path)
  = (EOK, bytes path ++ drop (String.length path) (uninit (S (String.length path)))).
Proof.
  intros Hl. pose proof (length_bytes path) as Hb. unfold bytes, slen in *.
  rewrite memcpy_s_ok by (rewrite ?uninit_length, ?Hb; lia). by rewrite Hb.
Qed.

Lemma path_terminated path :
  <[String.length path := NUL]>
    (bytes path ++ drop (String.length path) (uninit (S (String.length path))))
  = bytes path ++ [NUL].
Proof.
  pose proof (length_bytes path) as Hb.
  pose proof (terminated (bytes path) (String.length path)) as Ht.
  rewrite take_ge in Ht by lia. apply Ht. lia.
Qed.

(** The copy made of a path of the configuration. *)
Definition copied (r : option (list ascii) * Released) : Prop :=
  left_all r.2 /\ match r.1 with Some b => left_all (held HPathCopy [b]) | None => True end.

Lemma yields_StringToCharPtr str : cfg_path str -> yields (StringToCharPtr str) copied.
Proof.
  intros Hp. unfold StringToCharPtr. eapply yields_bind; [apply yields_env|]. intros e _.
  destruct (negb (alloc e 0)); [apply yields_ret; split; [apply left_nil|done]|].
  destruct (memcpy_s _ _ _) as [rc b] eqn:E.
  destruct (negb (rc =? EOK)) eqn:Erc; apply yields_ret.
  - split; [|done]. apply Forall_singleton. exists str. split; [done|]. intros Hl.
    rewrite path_copied in E by done. by injection E as <- <-.
  - split; [apply left_nil|]. apply Forall_singleton. exists str. split; [done|]. intros Hl.
    rewrite path_copied in E by done. injection E as <- <-. apply path_terminated.
Qed.

Lemma FileCtxNew_cases e : SCF_FileCtxNew e = None \/ SCF_FileCtxNew e = Some empty_file_ctx.
Proof. unfold SCF_FileCtxNew. repeat case_match; auto. Qed.

(** A file context in good order, and what was released accounted for. *)
Definition tidy (fc : option SCFFileCtx) (released : Released) : Prop :=
  left_all released /\ exists c, fc = Some c /\ file_ctx_wf c.

Lemma SetBuf_tidy e c storeBuf ret fc released :
  file_ctx_wf c ->
  SCF_FileCtxSetBuf e (Some c) SCF_STORE_FILE_PATH (Some storeBuf) (strlen storeBuf)
    SCF_STORE_FORMAT_PEM = (ret, fc, released) -> tidy fc (held HFileCtx released).
Proof.
  intros Hw Hs. destruct (SetBuf_post _ _ _ _ _ _ _ _ _ Hw (slen_buf_cstr storeBuf) Hs)
    as (Hrel & c1 & -> & Hwf & _). split; [by apply left_wiped|]. by exists c1.
Qed.

Lemma free_left fc released : tidy fc released -> left_all (held HFileCtx (SCF_FileCtxFree fc).2).
Proof. intros [_ (c & -> & Hc)]. by apply left_wiped, FileCtxFree_wiped. Qed.

Lemma yields_AddCertInner certObj storeBuf :
  tlsCertTypeMap !! cert_certType certObj <> Some SCF_CERT_TYPE_EE_CHAIN ->
  yields (AddCertInner ctx (Some empty_file_ctx) storeBuf certObj)
    (fun r => tidy r.1.2 r.2).
Proof.
  intros Ht. unfold AddCertInner. eapply yields_bind; [apply yields_env|]. intros e _.
  destruct (SCF_FileCtxSetBuf _ _ _ _ _ _) as [[ret fc] rel] eqn:E.
  apply SetBuf_tidy in E; [|apply empty_file_ctx_wf].
  destruct (negb (ret =? SCF_SUCCESS)); [by apply yields_ret|].
  destruct (tlsCertTypeMap !! cert_certType certObj) as [t|] eqn:Et; [|by apply yields_ret].
  eapply yields_bind; [apply (yields_call (CAddCert ctx fc t)); [done..|]|].
  - intros p fc' t' [= <- <- <-] ->. by apply Ht.
  - intros r _. by apply yields_ret.
Qed.

(** A certificate of the configuration that is loaded on its own. *)
Definition single_cert (c : Cert) : Prop :=
  cfg_path (cert_storeBuf c) /\
  tlsCertTypeMap !! cert_certType c <> Some SCF_CERT_TYPE_EE_CHAIN.

Lemma yields_add_certs certs rel0 :
  Forall single_cert certs -> left_all rel0 ->
  yields (add_certs_loop ctx certs rel0) (fun r => left_all r.2).
Proof.
  intros Hall. revert rel0. induction Hall as [|c certs [Hp Hc] _ IH]; intros rel0 Hrel;
    cbn [add_certs_loop]; [by apply yields_ret|].
  eapply yields_bind; [apply yields_env|]. intros e _.
  destruct (FileCtxNew_cases e) as [-> | ->]; [by apply yields_ret|].
  rewrite bool_decide_eq_false_2 by done.
  eapply yields_bind; [by apply yields_StringToCharPtr|]. intros [[b|] rel1] [Hrel1 Hb].
  2: { apply yields_ret. simpl. apply left_app, left_app; [done..|]. apply left_nil. }
  eapply yields_bind; [by apply yields_AddCertInner|]. intros [[ret fc] rel] Htidy.
  cbn [fst snd] in *.
  assert (left_all (rel0 ++ rel ++ held HPathCopy [b] ++ held HFileCtx (SCF_FileCtxFree fc).2)).
  { destruct Htidy as [Hr Hfc]. repeat apply left_app; [done..|]. by apply (free_left _ rel). }
  destruct (negb (ret =? SCF_SUCCESS)); [by apply yields_ret|]. by apply IH.
Qed.

Lemma fill_zero_zeroed v : zeroed (fill_zero v).
Proof. apply wiped_plain. Qed.

Lemma fill_zero_length v : length (fill_zero v) = length v.
Proof. apply length_replicate. Qed.

(** The result of [SetFileCtxPassword] and [SetKeyAndPwd]; the pass phrase keeps its
    length. *)
Definition tidy_auth (r : Z * option SCFFileCtx * KeyAuth * Released) : Prop :=
  tidy r.1.1.2 r.2 /\ length (ka_storeBuf r.1.2) = length (pass_phrase cfg0).

Lemma SetPwd_tidy e c ret fc released :
  file_ctx_wf c ->
  SCF_FileCtxSetPwd e (Some c) (Some (pass_phrase cfg0)) (Z.of_nat (length (pass_phrase cfg0)))
    true = (ret, fc, released) -> tidy fc (held HFileCtx released).
Proof.
  intros Hc E.
  assert (Hgiven : take (Z.to_nat (Z.of_nat (length (pass_phrase cfg0)))) (pass_phrase cfg0)
    = pass_phrase cfg0) by (apply take_ge; lia).
  apply SetPwd_post in E; [|done|lia|]; rewrite Hgiven in *; unfold password_of in *.
  2: { destruct (Decrypt (pass_phrase cfg0)) as [ok q]. intros Hq. cbn in Hq.
       subst ok. by apply decrypt_bound. }
  destruct E as (Hrel & c1 & -> & Hwf & _). split; [|by exists c1].
  destruct (_ || _)%bool; [subst released; apply left_nil|].
  destruct (Decrypt (pass_phrase cfg0)) as [[] q] eqn:Ed; cbn [fst snd] in Hrel.
  - by apply left_wiped.
  - destruct Hrel as [_ ->]. apply Forall_singleton. by right.
Qed.

Lemma yields_SetFileCtxPassword path c keyAuth :
  file_ctx_wf c -> ka_storeBuf keyAuth = pass_phrase cfg0 ->
  yields (SetFileCtxPassword path (Some c) keyAuth) tidy_auth.
Proof.
  intros Hc Hka. unfold SetFileCtxPassword.
  assert (Hkeep : tidy_auth (SCF_ERROR, Some c, keyAuth, []))
    by (split; [split; [apply left_nil|by exists c]|by rewrite <- Hka]).
  case_bool_decide; [by apply yields_ret|].
  destruct (negb (ka_isCipher keyAuth)) eqn:Eci; [by apply yields_ret|].
  apply negb_false_iff in Eci. eapply yields_bind; [apply yields_env|]. intros e _.
  destruct (SCF_FileCtxSetPwd _ _ _ _ _) as [[ret fc] rel] eqn:E. rewrite Eci, Hka in E.
  apply SetPwd_tidy in E; [|done].
  destruct (negb (ret =? SCF_SUCCESS)); apply yields_ret; (split; [exact E|]); cbn;
    by rewrite ?fill_zero_length, Hka.
Qed.

Lemma yields_SetKeyAndPwd path storeBuf keyAuth :
  ka_storeBuf keyAuth = pass_phrase cfg0 ->
  yields (SetKeyAndPwd ctx path (Some empty_file_ctx) storeBuf keyAuth) tidy_auth.
Proof.
  intros Hka. unfold SetKeyAndPwd. eapply yields_bind; [apply yields_env|]. intros e _.
  destruct (SCF_FileCtxSetBuf _ _ _ _ _ _) as [[ret fc] rel1] eqn:E.
  apply SetBuf_tidy in E; [|apply empty_file_ctx_wf].
  destruct (negb (ret =? SCF_SUCCESS)); [apply yields_ret; split; [done|by rewrite <- Hka]|].
  destruct E as [Hrel1 (c & -> & Hc)].
  eapply yields_bind; [by apply yields_SetFileCtxPassword|].
  intros [[[ret2 fc2] ka] rel2] [[Hrel2 Hfc2] Hlen]. cbn [fst snd] in *.
  assert (tidy fc2 (held HFileCtx rel1 ++ rel2)) by (split; [by apply left_app|done]).
  destruct (negb (ret2 =? SCF_SUCCESS)); [by apply yields_ret|].
  eapply yields_bind; [by apply (yields_call (CSetKey ctx fc2))|]. intros r _. by apply yields_ret.
Qed.

(** The result of [CreateAndInitializeFileCtx]. *)
Definition created (r : Z * option SCFFileCtx * option (list ascii) * Released) : Prop :=
  left_all r.2 /\
  (r.1.1.1 = SCF_SUCCESS -> r.1.1.2 = Some empty_file_ctx /\ exists b, r.1.2 = Some b /\
    left_all (held HPathCopy [b])) /\
  (r.1.1.1 <> SCF_SUCCESS -> r.1.1.2 = None /\ r.1.2 = None).

Lemma yields_CreateAndInitializeFileCtx privKey :
  cfg_path (pk_storeBuf privKey) -> yields (CreateAndInitializeFileCtx privKey) created.
Proof.
  intros Hp. unfold CreateAndInitializeFileCtx. eapply yields_bind; [apply yields_env|]. intros e _.
  destruct (FileCtxNew_cases e) as [-> | ->].
  { apply yields_ret. split_and!; [apply left_nil|done|done]. }
  rewrite bool_decide_eq_false_2 by done.
  eapply yields_bind; [by apply yields_StringToCharPtr|]. intros [[b|] rel] [Hrel Hb]; cbn [fst snd] in *.
  - rewrite bool_decide_eq_false_2 by done. apply yields_ret.
    split_and!; [apply left_nil| |done]. intros _. split; [done|]. by exists b.
  - rewrite bool_decide_eq_true_2 by done. apply yields_ret.
    split_and!; [|done|done]. cbn. by rewrite app_nil_r.
Qed.

(** The pass phrase keeps its length and is wiped on success; a failure leaves it to
    [CleanConfig]. *)
Definition phrase_kept (ret : Z) (phrase : list ascii) : Prop :=
  length phrase = length (pass_phrase cfg0) /\ (ret = SCF_SUCCESS -> zeroed phrase).

Lemma yields_SetPrivKeyAndPwd4Ctx :
  yields (SetPrivKeyAndPwd4Ctx ctx (cfg_privKey cfg0)) (fun r => left_all r.2 /\
    pk_storeBuf r.1.2 = pk_storeBuf (cfg_privKey cfg0) /\
    phrase_kept r.1.1 (ka_storeBuf (pk_keyAuth r.1.2))).
Proof.
  unfold SetPrivKeyAndPwd4Ctx. case_bool_decide.
  { case_bool_decide as Hnil; apply yields_ret; (split_and!; [apply left_nil|done|]);
      (split; [done|]); [|done]. intros _. cbn. rewrite Hnil. by apply Forall_nil. }
  eapply yields_bind; [apply yields_CreateAndInitializeFileCtx, elem_of_cons; by left|].
  intros [[[ret fc] buf] rel1] (Hrel & Hok & Hbad). cbn [fst snd] in *.
  destruct (ret =? SCF_SUCCESS) eqn:Er; bools; cbn [negb].
  - destruct (Hok Er) as (-> & b & -> & Hb).
    eapply yields_bind; [by apply yields_SetKeyAndPwd|].
    intros [[[ret2 fc2] ka] rel2] [Ht Hlen]. cbn [fst snd] in *.
    assert (Hall : left_all (rel1 ++ rel2 ++ CleanResource fc2 (Some b))).
    { unfold CleanResource. repeat apply left_app; [done|apply Ht|by apply (free_left _ rel2)|done]. }
    destruct (ret2 =? SCF_SUCCESS) eqn:Er2; bools; cbn [negb];
      [|apply yields_ret; by split_and!].
    case_bool_decide as Hnil; cbn [negb]; apply yields_ret; (split_and!; [done|done|]).
    + split; [done|]. intros _. cbn. rewrite Hnil. by apply Forall_nil.
    + cbn. split; [by rewrite fill_zero_length|]. intros _. apply fill_zero_zeroed.
  - destruct (Hbad Er) as [-> ->]. apply yields_ret.
    split_and!; [by rewrite app_nil_r|done|]. by split.
Qed.

Lemma yields_SetTLS cfg : yields (SetTLS ctx cfg) (fun _ => True).
Proof.
  unfold SetTLS, SetProtocolVersion4PolicyCtx, SetCipherSuites4PolicyCtx.
  eapply (yields_bind _ _ (fun _ => True)).
  - destruct (_ || _); [by apply yields_ret|].
    eapply yields_bind; [by eapply (yields_call (CSetProtocolVersion ctx _ _ _))|].
    intros r _. by destruct (negb _); apply yields_ret.
  - intros r _. destruct (negb _); [by apply yields_ret|].
    eapply (yields_bind _ _ (fun _ => True)).
    + case_bool_decide; [by apply yields_ret|].
      eapply yields_bind; [by eapply (yields_call (CSetCipherSuites ctx _))|].
      intros r' _. by destruct (negb _); apply yields_ret.
    + intros r' _. by destruct (negb _); apply yields_ret.
Qed.

(** The configuration on the way: only the pass phrase's contents change. *)
Definition cfg_after (ret : Z) (cfg : Config) : Prop :=
  cfg_strings cfg = cfg_strings cfg0 /\ phrase_kept ret (pass_phrase cfg).

Lemma yields_SetCertAndKey :
  Forall (fun c => tlsCertTypeMap !! cert_certType c <> Some SCF_CERT_TYPE_EE_CHAIN)
    (cfg_certs cfg0) ->
  yields (SetCertAndKey ctx cfg0) (fun r => left_all r.2 /\ cfg_after r.1.1 r.1.2).
Proof.
  intros Hall. unfold SetCertAndKey, AddCert2PolicyCtx.
  eapply (yields_bind _ _ (fun r => left_all r.2)).
  { case_bool_decide; [apply yields_ret, left_nil|]. apply yields_add_certs; [|apply left_nil].
    apply Forall_forall. intros c Hc. split; [|by eapply Forall_forall in Hall].
    apply elem_of_cons. right. by apply list_elem_of_fmap_2. }
  intros [ret rel1] Hrel1. cbn [fst snd] in *.
  destruct (negb (ret =? SCF_SUCCESS)); [by apply yields_ret|].
  eapply yields_bind; [apply yields_SetPrivKeyAndPwd4Ctx|].
  intros [[ret2 pk] rel2] (Hrel2 & Hpk & Hlen & Hz). cbn [fst snd] in *.
  assert (left_all (rel1 ++ rel2)) by by apply left_app.
  assert (cfg_strings (set_privKey pk cfg0) = cfg_strings cfg0)
    by (unfold cfg_strings; cbn; by rewrite Hpk).
  destruct (ret2 =? SCF_SUCCESS) eqn:Er; bools; cbn [negb]; apply yields_ret;
    (split; [done|]; split; [done|]; split; [exact Hlen|]); [|done]. intros _. by apply Hz.
Qed.

(** What the end of [SCF_SetConfigFile] adds, and that the pass phrase's own memory is in
    it. *)
Lemma document_left : left_all (document_released filepath).
Proof.
  unfold document_released. destruct (SCF_ReadConfig filepath) as [doc|] eqn:E; [|apply left_nil].
  apply Forall_fmap, Forall_fmap, Forall_forall. intros str Hs. by exists doc, str.
Qed.

Lemma strings_left cfg :
  cfg_strings cfg = cfg_strings cfg0 ->
  left_all (held HString (bytes <$> cfg_strings cfg ++ [filepath])).
Proof.
  intros ->. apply Forall_fmap, Forall_fmap, Forall_forall. intros str Hs. by exists str.
Qed.

Definition phrase_gone (released : Released) : Prop :=
  (HPassPhrase, replicate (length (pass_phrase cfg0)) NUL) ∈ released.

Definition left_at_end (cfg : Config) (rel : Released) : Released :=
  document_released filepath ++ rel ++ held HPassPhrase [pass_phrase cfg] ++
  held HString (bytes <$> cfg_strings cfg ++ [filepath]).

Lemma zeroed_replicate v : zeroed v -> v = replicate (length v) NUL.
Proof. induction 1 as [|ch v -> _ IH]; [done|]. cbn. by f_equal. Qed.

Lemma end_left cfg rel :
  left_all rel -> cfg_after SCF_SUCCESS cfg ->
  left_all (left_at_end cfg rel) /\ phrase_gone (left_at_end cfg rel).
Proof.
  intros Hrel (Hstr & Hlen & Hz). specialize (Hz eq_refl). split.
  - repeat apply left_app; [apply document_left|done|by apply left_phrase|by apply strings_left].
  - unfold left_at_end, phrase_gone. rewrite <- Hlen, <- zeroed_replicate by done.
    rewrite !elem_of_app. right. right. left. by apply list_elem_of_singleton.
Qed.

Lemma cleaned_left ret cfg rel :
  left_all rel -> cfg_after ret cfg ->
  left_all (left_at_end (CleanConfig cfg).1 (rel ++ (CleanConfig cfg).2)) /\
  phrase_gone (left_at_end (CleanConfig cfg).1 (rel ++ (CleanConfig cfg).2)).
Proof.
  intros Hrel (Hstr & Hlen & _). unfold CleanConfig. case_bool_decide as Hnil; cbn [fst snd].
  - rewrite app_nil_r. apply end_left; [done|]. split; [done|]. split; [done|]. intros _.
    unfold pass_phrase. rewrite Hnil. by apply Forall_nil.
  - split.
    + repeat apply left_app; [apply document_left|done|..].
      * apply left_phrase, fill_zero_zeroed.
      * apply left_phrase. by apply Forall_nil.
      * by apply strings_left.
    + unfold left_at_end, phrase_gone. rewrite <- Hlen, !elem_of_app.
      right. left. right. by apply list_elem_of_singleton.
Qed.

Lemma chain_name s :
  s <> "EE_CHAIN"%string -> tlsCertTypeMap !! s <> Some SCF_CERT_TYPE_EE_CHAIN.
Proof.
  intros Hs Hl. apply elem_of_list_to_map_2 in Hl.
  repeat (apply elem_of_cons in Hl as [Hl|Hl]; [by injection Hl|]).
  by apply elem_of_nil in Hl.
Qed.

(** (C30) Applying a configuration file is safe, and what every buffer it releases holds is
    known. On a null or live context, for a file that RapidJSON's preconditions allow
    ([SCF_ParseConfig] answers) and that loads its certificates one by one, and a decryption
    of the pass phrase that never answers 2 GiB or more, [SCF_SetConfigFile] returns whatever
    OpenSSL, the allocator and the decryption answer; it frees no context or object. The
    buffers of the file contexts, with the decrypted key password, hold zeros only, unless
    the decryption callback failed: its output is released as it left it. The pass phrase of
    the configuration is wiped in its full length on every path after parsing. The copies of
    the paths, the strings of the configuration and the JSON document's own copy of the pass
    phrase (which is required to be encrypted) are not wiped: they are released with their
    contents. A file that does not parse leaves the process unchanged. *)
Theorem SetConfigFile_scrubs config parsed w :
  ctx_arg ctx w -> filepath = cstr config ->
  SCF_ParseConfig filepath new_config = Some (parsed, cfg0) ->
  (parsed = SCF_SUCCESS -> Forall (fun c => cert_certType c <> "EE_CHAIN"%string) (cfg_certs cfg0)) ->
  exists ret released w',
    SCF_SetConfigFile ctx (Some config) w = Some ((ret, released), w') /\
    life_frame w w' /\ left_all released /\
    (phrase_gone released \/
      ret <> SCF_SUCCESS /\ w' = w /\ Forall (fun r => r.1 = HString) released) /\
    (parsed <> SCF_SUCCESS -> ret <> SCF_SUCCESS /\ w' = w).
Proof.
  intros Hw Hpath Hparse Hchain.
  enough (Hwp : wp (SCF_SetConfigFile ctx (Some config)) (fun r w' => life_frame w w' /\
    left_all r.2 /\
    (phrase_gone r.2 \/
      r.1 <> SCF_SUCCESS /\ w' = w /\ Forall (fun r => r.1 = HString) r.2) /\
    (parsed <> SCF_SUCCESS -> r.1 <> SCF_SUCCESS /\ w' = w)) w).
  { unfold wp in Hwp. destruct (SCF_SetConfigFile _ _ _) as [[[ret rel] w']|]; [|done].
    by exists ret, rel, w'. }
  unfold SCF_SetConfigFile. rewrite <- Hpath.
  assert (Hnone : left_all [] /\ Forall (fun r : Holder * list ascii => r.1 = HString) [])
    by (split; [apply left_nil|by apply Forall_nil]).
  destruct (ctx =? nullptr); [apply wp_ret; naive_solver|].
  destruct (slen _ =? 0); [apply wp_ret; naive_solver|].
  destruct (negb (SCF_CheckFilePathAndStat _)).
  { apply wp_ret. split_and!; [done| |right; by repeat constructor|done].
    apply Forall_singleton. exists filepath. split; [|done]. set_solver. }
  rewrite Hparse. apply wp_bind, wp_ret.
  assert (Hcfg : cfg_after SCF_ERROR cfg0) by (split; [done|]; by split).
  destruct (parsed =? SCF_SUCCESS) eqn:Er; bools; cbn [negb].
  2: { apply wp_ret. destruct (cleaned_left SCF_ERROR cfg0 [] left_nil Hcfg). by split_and!; try left. }
  specialize (Hchain Er).
  eapply (wp_mono _ (fun r w' => life_frame w w' /\ left_all r.2 /\ phrase_gone r.2));
    [|intros r w' (Hf & Hrel & Hg); split_and!; [done|done|by left|done]].
  revert w Hw. enough (Hy : yields _ (fun r : Z * Released => left_all r.2 /\ phrase_gone r.2))
    by (intros w Hw; by apply Hy).
  eapply yields_bind; [apply yields_SetTLS|]. intros ret _.
  destruct (negb (ret =? SCF_SUCCESS)).
  { apply yields_ret, (cleaned_left SCF_ERROR cfg0 []); [apply left_nil|exact Hcfg]. }
  eapply yields_bind.
  { apply yields_SetCertAndKey. eapply Forall_impl; [exact Hchain|]. intros c. apply chain_name. }
  intros [[ret2 cfg2] rel] [Hrel Ha]. cbn [fst snd] in *.
  destruct (ret2 =? SCF_SUCCESS) eqn:Er2; bools; cbn [negb]; apply yields_ret.
  - rewrite Er2 in Ha. by apply end_left.
  - by apply (cleaned_left ret2).
Qed.
End apply_correct.

(** ** Witness: a client whose configuration sets versions, a CA and an encrypted key *)
Section witness.
#[warnings="-register-all"]
Inductive Json : Type :=
| JNull | JBool (b : bool) | JStr (s : string) | JArr (l : list Json)
| JObj (l : list (string * Json)).

Fixpoint assoc (k : string) (l : list (string * Json)) : option Json :=
  match l with
  | [] => None
  | (k', v) :: l' => if String.eqb k k' then Some v else assoc k l'
  end.

Definition ref_doc : Json := JObj [
  ("tlsVersion", JObj [("minVersion", JStr "SSL_VERSION_TLS13");
                       ("maxVersion", JStr "SSL_VERSION_TLS13");
                       ("forbidVersion", JArr [JStr "SSL_VERSION_TLS12"])]);
  ("tlsCipherSuites", JArr [JStr "SCF_SSL_AES_256_GCM_SHA384"]);
  ("certs", JArr [JObj [("cert", JObj [("certType", JStr "CA");
                                       ("storeBuf", JStr "/etc/ca.pem")])]]);
  ("privKey", JObj [("storeBuf", JStr "/etc/key.pem");
                    ("keyAuth", JObj [("storeBuf", JStr "terces"); ("isCipher", JBool true)])])
]%string.

Instance RefJson : RapidJson := {|
  Value := Json;
  ParseStream _ := Some ref_doc;
  IsNull v := match v with JNull => true | _ => false end;
  IsObject v := match v with JObj _ => true | _ => false end;
  IsArray v := match v with JArr _ => true | _ => false end;
  IsString v := match v with JStr _ => true | _ => false end;
  IsBool v := match v with JBool _ => true | _ => false end;
  FindMember v k := match v with JObj l => assoc k l | _ => None end;
  Elements v := match v with JArr l => l | _ => [] end;
  StringOf v := match v with JStr s => s | _ => EmptyString end;
  BoolOf v := match v with JBool b => b | _ => false end
|}.
Instance RefFileAlloc : FileAlloc := {| file_alloc _ _ _ := true |}.

(** An application that always decrypts to the same pass phrase. *)
Instance FixedDecryptor : Decryptor := {| decryptFunction_ := Some (fun _ => (true, bytes "secret")) |}.

Definition w_role : World :=
  after (exec (CSetPolicy 1 SCF_ROLE_CLIENT SCF_VERIFY_DEFAULT SCF_POLICY_HIGH)) w_one.

Definition ref_config : Config :=
  mkConfig (mkTlsVersion SCF_SSL_VERSION_TLS13 SCF_SSL_VERSION_TLS13 [SCF_SSL_VERSION_TLS12])
    [SCF_SSL_AES_256_GCM_SHA384] [mkCert "CA" "/etc/ca.pem"]
    (mkPrivKey "/etc/key.pem" (mkKeyAuth (bytes "terces") true)).

Lemma fixed_bound q :
  Decrypt (pass_phrase ref_config) = (true, q) -> Z.of_nat (length q) < SECUREC_MEM_MAX_LEN.
Proof. unfold Decrypt. simpl. by intros [= <-]. Qed.

(** The decrypted password and the pass phrase are wiped; the paths, and the encrypted pass
    phrase in the document, are not. *)
Lemma SetConfigFile_scrubs_witness :
  exists released w', SCF_SetConfigFile 1 (Some "/etc/scf.json"%string) w_role
      = Some ((SCF_SUCCESS, released), w') /\
    phrase_gone ref_config released /\ live_ctx 1 w' /\
    released = held HDocument [bytes "terces"] ++
      held HPathCopy [bytes "/etc/ca.pem" ++ [NUL]] ++ held HFileCtx [replicate 12 NUL] ++
      held HFileCtx [replicate 6 NUL; replicate 13 NUL; replicate 7 NUL] ++
      held HPathCopy [bytes "/etc/key.pem" ++ [NUL]] ++
      held HPassPhrase [replicate 6 NUL] ++
      held HString (bytes <$> ["/etc/key.pem"; "CA"; "/etc/ca.pem"; "/etc/scf.json"]%string).
Proof.
  destruct (SetConfigFile_scrubs 1 "/etc/scf.json" ref_config
    fixed_bound
    "/etc/scf.json" SCF_SUCCESS w_role ltac:(intros _; eexists; by vm_compute) eq_refl
    ltac:(by vm_compute) ltac:(intros _; by repeat constructor))
    as (ret & released & w' & Hrun & Hf & _ & Hg & _).
  assert (Hres : (fst <$> SCF_SetConfigFile 1 (Some "/etc/scf.json"%string) w_role)
    = Some (ret, released)) by by rewrite Hrun.
  vm_compute in Hres. injection Hres as Hret Hrel.
  exists released, w'. rewrite Hrun. split_and!; [by rewrite <- Hret| | |subst released; by vm_compute].
  - destruct Hg as [Hg|(Hne & _)]; [exact Hg|]. by destruct Hne.
  - eapply stable_live_ctx; [exact Hf|]. eexists. by vm_compute.
Defined.
End witness.
