(* ===== verification/Connection.v ===== *)
(** * Secure connections

    [src/connection/scf_connection_impl.cpp] with its header
    [src/include/scf_connection.h]: the object that turns a security level and a few paths
    into a context, a transport and a handshake. A connection is a value of
    [SCFConnectionImpl]; its methods thread it through the process state. Transports, crypto
    engines and their factories are virtual interfaces: their methods are external calls. *)
From Stdlib Require Import ZArith Lia Ascii String.
From stdpp Require Import base list fin_maps gmap strings.
From S2P Require Import Prelude Errno Types FileCheck FileCtx Machine.
From S2P Require Import OpenSSL Adaptor Api Conn Lifecycle Config.
Open Scope Z_scope.

(** ** Registries of factories

    A factory is its address with the protocol or name it reports. *)
Definition SCF_RegisterTransportFactory (factory : option (Z * Z)) (m : gmap Z Z)
    : bool * gmap Z Z :=
  match factory with
  | None => (false, m)
  | Some (p, protocol) => (true, <[protocol := p]> m)
  end.
Definition SCF_UnregisterTransportFactory (protocol : Z) (m : gmap Z Z) : gmap Z Z :=
  delete protocol m.
Definition SCF_RegisterCryptoEngineFactory (factory : option (Z * string)) (m : gmap string Z)
    : bool * gmap string Z :=
  match factory with
  | None => (false, m)
  | Some (p, name) => (true, <[name := p]> m)
  end.
Definition SCF_UnregisterCryptoEngineFactory (name : string) (m : gmap string Z)
    : gmap string Z := delete name m.

(** ** Security levels *)
Definition SCF_SECURITY_112BIT : Z := 0.
Definition SCF_SECURITY_128BIT : Z := 1.
Definition SCF_SECURITY_192BIT : Z := 2.
Definition SCF_SECURITY_256BIT : Z := 3.
Definition SCF_SECURITY_128BIT_PQ : Z := 4.
Definition SCF_SECURITY_256BIT_PQ : Z := 5.

Definition SCF_NAMED_GROUP_P256_KYBER512 : string := "p256_kyber512".
Definition SCF_NAMED_GROUP_X25519_KYBER512 : string := "x25519_kyber512".
Definition SCF_NAMED_GROUP_P521_KYBER1024 : string := "p521_kyber1024".
Definition SCF_NAMED_GROUP_P521_MLKEM1024 : string := "p521_mlkem1024".

Record SecurityLevelMapping : Type := mkMapping {
  sl_securityStrengthBits : Z;
  sl_postQuantumResistant : bool;
  sl_nistLevelLabel : string;
  sl_protocolVersionMin : Z;
  sl_protocolVersionMax : Z;
  sl_tls13CipherSuites : list Z;
  sl_keyExchangeGroups : list string;
  sl_policyMode : Z
}.

Definition Make112bitMapping : SecurityLevelMapping :=
  mkMapping 112 false "NIST-SP800-57-112bit" SCF_SSL_VERSION_TLS12 SCF_SSL_VERSION_TLS13
    [SCF_SSL_AES_128_GCM_SHA256; SCF_SSL_AES_256_GCM_SHA384]
    ["X25519"; "P-256"]%string SCF_POLICY_MIDDLE.
Definition Make128bitMapping : SecurityLevelMapping :=
  mkMapping 128 false "NIST-SP800-57-128bit" SCF_SSL_VERSION_TLS13 SCF_SSL_VERSION_TLS13
    [SCF_SSL_AES_128_GCM_SHA256; SCF_SSL_AES_256_GCM_SHA384; SCF_SSL_CHACHA20_POLY1305_SHA256]
    ["X25519"; "P-256"]%string SCF_POLICY_HIGH.
Definition Make192bitMapping : SecurityLevelMapping :=
  mkMapping 192 false "NIST-SP800-57-192bit" SCF_SSL_VERSION_TLS13 SCF_SSL_VERSION_TLS13
    [SCF_SSL_AES_256_GCM_SHA384; SCF_SSL_AES_128_GCM_SHA256]
    ["P-384"; "X25519"]%string SCF_POLICY_HIGH.
Definition Make256bitMapping : SecurityLevelMapping :=
  mkMapping 256 false "NIST-SP800-57-256bit" SCF_SSL_VERSION_TLS13 SCF_SSL_VERSION_TLS13
    [SCF_SSL_AES_256_GCM_SHA384; SCF_SSL_AES_128_GCM_SHA256]
    ["P-521"; "P-384"; "X25519"]%string SCF_POLICY_HIGH.
Definition Make128bitPQMapping : SecurityLevelMapping :=
  mkMapping 128 true "NIST-SP800-57-128bit-PQ" SCF_SSL_VERSION_TLS13 SCF_SSL_VERSION_TLS13
    [SCF_SSL_AES_128_GCM_SHA256; SCF_SSL_AES_256_GCM_SHA384]
    [SCF_NAMED_GROUP_X25519_KYBER512; SCF_NAMED_GROUP_P256_KYBER512; "x25519_kyber768";
     "X25519"; "P-256"]%string SCF_POLICY_HIGH.
Definition Make256bitPQMapping : SecurityLevelMapping :=
  mkMapping 256 true "NIST-SP800-57-256bit-PQ" SCF_SSL_VERSION_TLS13 SCF_SSL_VERSION_TLS13
    [SCF_SSL_AES_256_GCM_SHA384]
    [SCF_NAMED_GROUP_P521_KYBER1024; SCF_NAMED_GROUP_P521_MLKEM1024; "p384_kyber768";
     "P-521"; "P-384"]%string SCF_POLICY_HIGH.

Definition GetSecurityLevelMapping (level : Z) : SecurityLevelMapping :=
  return_if level =? SCF_SECURITY_112BIT with Make112bitMapping ;;
  return_if level =? SCF_SECURITY_192BIT with Make192bitMapping ;;
  return_if level =? SCF_SECURITY_256BIT with Make256bitMapping ;;
  return_if level =? SCF_SECURITY_128BIT_PQ with Make128bitPQMapping ;;
  return_if level =? SCF_SECURITY_256BIT_PQ with Make256bitPQMapping ;;
  Make128bitMapping.

Definition SCF_CERT_VERIFY_NONE : Z := 0.
Definition SCF_CERT_VERIFY_OPTIONAL : Z := 1.
Definition SCF_CERT_VERIFY_REQUIRED : Z := 2.
Definition SCF_CERT_VERIFY_STRICT : Z := 3.

Definition MapCertVerifyPolicy (policy : Z) : Z :=
  return_if policy =? SCF_CERT_VERIFY_NONE with SCF_VERIFY_MODE_NONE ;;
  return_if policy =? SCF_CERT_VERIFY_OPTIONAL with SCF_VERIFY_DEFAULT ;;
  return_if (policy =? SCF_CERT_VERIFY_REQUIRED) || (policy =? SCF_CERT_VERIFY_STRICT)
    with (Z.lor (Z.lor SCF_VERIFY_DEFAULT SCF_VERIFY_PEER) SCF_VERIFY_FAIL_IF_NO_PEER_CERT) ;;
  SCF_VERIFY_DEFAULT.

(** ** The configuration and the object *)
Record SCFConnectionConfig : Type := mkConnConfig {
  cc_securityLevel : Z;
  cc_role : Z;
  cc_caCertPath : string;
  cc_certPath : string;
  cc_keyPath : string;
  cc_keyPassword : string;
  cc_crlPath : string;
  cc_certVerifyPolicy : Z;
  cc_pskIdentity : string;
  cc_pskKey : list ascii;
  cc_usePSK : bool;
  cc_transportFactory : Z;
  cc_cryptoEngineFactory : Z;
  cc_appVerifyCb : Z;
  cc_appVerifyArg : Z;
  cc_connectTimeoutMs : Z;
  cc_handshakeTimeoutMs : Z;
  cc_enableSessionResumption : bool;
  cc_enableKeyAutoUpdate : bool
}.

(** [SCFConnectionConfig()] with the fields the convenience constructors set. *)
Definition conn_config (securityLevel role : Z) (caCertPath certPath keyPath : string)
    (certVerifyPolicy : Z) (pskIdentity : string) (pskKey : list ascii) (usePSK : bool)
    : SCFConnectionConfig :=
  mkConnConfig securityLevel role caCertPath certPath keyPath EmptyString EmptyString
    certVerifyPolicy pskIdentity pskKey usePSK nullptr nullptr nullptr nullptr 5000 10000 true true.

(** [SCF_CONNECTION_STATE] *)
Definition SCF_CONN_INIT : Z := 0.
Definition SCF_CONN_CONNECTING : Z := 1.
Definition SCF_CONN_CONNECTED : Z := 2.
Definition SCF_CONN_CLOSING : Z := 3.
Definition SCF_CONN_CLOSED : Z := 4.
Definition SCF_CONN_ERROR : Z := 5.

Record SCFConnectionImpl : Type := mkConn {
  m_config : SCFConnectionConfig;
  m_state : Z;
  m_policyCtx : Z;
  m_policyObj : Z;
  m_transport : Z;
  m_cryptoEngine : Z;
  m_ownsCryptoEngine : bool;
  m_keyExchangeGroups : list string;
  m_postQuantumResistant : bool;
  m_isServer : bool;
  m_handshakeDone : bool;
  m_userData : Z;
  m_negotiatedVersion : string;
  m_negotiatedCipherSuite : Z
}.

Definition set_m_state (v : Z) (x : SCFConnectionImpl) : SCFConnectionImpl :=
  mkConn (m_config x) v (m_policyCtx x) (m_policyObj x) (m_transport x) (m_cryptoEngine x) (m_ownsCryptoEngine x) (m_keyExchangeGroups x) (m_postQuantumResistant x) (m_isServer x) (m_handshakeDone x) (m_userData x) (m_negotiatedVersion x) (m_negotiatedCipherSuite x).
Definition set_m_policyCtx (v : Z) (x : SCFConnectionImpl) : SCFConnectionImpl :=
  mkConn (m_config x) (m_state x) v (m_policyObj x) (m_transport x) (m_cryptoEngine x) (m_ownsCryptoEngine x) (m_keyExchangeGroups x) (m_postQuantumResistant x) (m_isServer x) (m_handshakeDone x) (m_userData x) (m_negotiatedVersion x) (m_negotiatedCipherSuite x).
Definition set_m_policyObj (v : Z) (x : SCFConnectionImpl) : SCFConnectionImpl :=
  mkConn (m_config x) (m_state x) (m_policyCtx x) v (m_transport x) (m_cryptoEngine x) (m_ownsCryptoEngine x) (m_keyExchangeGroups x) (m_postQuantumResistant x) (m_isServer x) (m_handshakeDone x) (m_userData x) (m_negotiatedVersion x) (m_negotiatedCipherSuite x).
Definition set_m_transport (v : Z) (x : SCFConnectionImpl) : SCFConnectionImpl :=
  mkConn (m_config x) (m_state x) (m_policyCtx x) (m_policyObj x) v (m_cryptoEngine x) (m_ownsCryptoEngine x) (m_keyExchangeGroups x) (m_postQuantumResistant x) (m_isServer x) (m_handshakeDone x) (m_userData x) (m_negotiatedVersion x) (m_negotiatedCipherSuite x).
Definition set_m_cryptoEngine (v : Z) (x : SCFConnectionImpl) : SCFConnectionImpl :=
  mkConn (m_config x) (m_state x) (m_policyCtx x) (m_policyObj x) (m_transport x) v (m_ownsCryptoEngine x) (m_keyExchangeGroups x) (m_postQuantumResistant x) (m_isServer x) (m_handshakeDone x) (m_userData x) (m_negotiatedVersion x) (m_negotiatedCipherSuite x).
Definition set_m_ownsCryptoEngine (v : bool) (x : SCFConnectionImpl) : SCFConnectionImpl :=
  mkConn (m_config x) (m_state x) (m_policyCtx x) (m_policyObj x) (m_transport x) (m_cryptoEngine x) v (m_keyExchangeGroups x) (m_postQuantumResistant x) (m_isServer x) (m_handshakeDone x) (m_userData x) (m_negotiatedVersion x) (m_negotiatedCipherSuite x).
Definition set_m_keyExchangeGroups (v : list string) (x : SCFConnectionImpl) : SCFConnectionImpl :=
  mkConn (m_config x) (m_state x) (m_policyCtx x) (m_policyObj x) (m_transport x) (m_cryptoEngine x) (m_ownsCryptoEngine x) v (m_postQuantumResistant x) (m_isServer x) (m_handshakeDone x) (m_userData x) (m_negotiatedVersion x) (m_negotiatedCipherSuite x).
Definition set_m_postQuantumResistant (v : bool) (x : SCFConnectionImpl) : SCFConnectionImpl :=
  mkConn (m_config x) (m_state x) (m_policyCtx x) (m_policyObj x) (m_transport x) (m_cryptoEngine x) (m_ownsCryptoEngine x) (m_keyExchangeGroups x) v (m_isServer x) (m_handshakeDone x) (m_userData x) (m_negotiatedVersion x) (m_negotiatedCipherSuite x).
Definition set_m_isServer (v : bool) (x : SCFConnectionImpl) : SCFConnectionImpl :=
  mkConn (m_config x) (m_state x) (m_policyCtx x) (m_policyObj x) (m_transport x) (m_cryptoEngine x) (m_ownsCryptoEngine x) (m_keyExchangeGroups x) (m_postQuantumResistant x) v (m_handshakeDone x) (m_userData x) (m_negotiatedVersion x) (m_negotiatedCipherSuite x).
Definition set_m_handshakeDone (v : bool) (x : SCFConnectionImpl) : SCFConnectionImpl :=
  mkConn (m_config x) (m_state x) (m_policyCtx x) (m_policyObj x) (m_transport x) (m_cryptoEngine x) (m_ownsCryptoEngine x) (m_keyExchangeGroups x) (m_postQuantumResistant x) (m_isServer x) v (m_userData x) (m_negotiatedVersion x) (m_negotiatedCipherSuite x).
Definition set_m_userData (v : Z) (x : SCFConnectionImpl) : SCFConnectionImpl :=
  mkConn (m_config x) (m_state x) (m_policyCtx x) (m_policyObj x) (m_transport x) (m_cryptoEngine x) (m_ownsCryptoEngine x) (m_keyExchangeGroups x) (m_postQuantumResistant x) (m_isServer x) (m_handshakeDone x) v (m_negotiatedVersion x) (m_negotiatedCipherSuite x).
Definition set_m_negotiatedVersion (v : string) (x : SCFConnectionImpl) : SCFConnectionImpl :=
  mkConn (m_config x) (m_state x) (m_policyCtx x) (m_policyObj x) (m_transport x) (m_cryptoEngine x) (m_ownsCryptoEngine x) (m_keyExchangeGroups x) (m_postQuantumResistant x) (m_isServer x) (m_handshakeDone x) (m_userData x) v (m_negotiatedCipherSuite x).

(** The methods of the class. *)
Abbreviation Meth := (Method SCFConnectionImpl).

(** [SCFConnectionImpl::SCFConnectionImpl]. *)
Definition new_connection (config : SCFConnectionConfig) : SCFConnectionImpl :=
  mkConn config SCF_CONN_INIT nullptr nullptr nullptr nullptr false [] false
    (cc_role config =? SCF_ROLE_SERVER) false nullptr EmptyString 0.

Section connection.
Context `{Library} {A : TlsAdaptor} `{SecureC} `{FileSystem} `{Decryptor} `{Uninit} `{FileAlloc}.

(** [SCFConnection::Create]: the object, or null. *)
Definition Create (config : SCFConnectionConfig) : M (option SCFConnectionImpl) :=
  p ← lib op_new [AStr "SCFConnectionImpl"];
  mret (if p =? nullptr then None else Some (new_connection config)).

Definition Close : Meth Z :=
  state ← this_ m_state;
  return_if (state =? SCF_CONN_CLOSED) || (state =? SCF_CONN_CLOSING) with (mret SCF_SUCCESS) ;;
  _ ← update (set_m_state SCF_CONN_CLOSING);
  obj ← this_ m_policyObj;
  ret ← (if negb (obj =? nullptr) then call (SCF_Close obj) else mret SCF_SUCCESS);
  t ← this_ m_transport;
  _ ← (if negb (t =? nullptr) then call (lib transport_Close [AInt t]) else mret 0);
  _ ← update (set_m_state SCF_CONN_CLOSED);
  _ ← update (set_m_handshakeDone false);
  mret ret.

Definition Cleanup : Meth unit :=
  state ← this_ m_state;
  _ ← (if (state =? SCF_CONN_CONNECTED) || (state =? SCF_CONN_CONNECTING) then Close
       else mret SCF_SUCCESS);
  obj ← this_ m_policyObj;
  _ ← (if negb (obj =? nullptr)
       then _ ← call (SCF_FreePolicyObj obj); update (set_m_policyObj nullptr) else mret tt);
  ctx ← this_ m_policyCtx;
  _ ← (if negb (ctx =? nullptr)
       then _ ← call (SCF_FreePolicyCtx ctx); update (set_m_policyCtx nullptr) else mret tt);
  t ← this_ m_transport;
  _ ← (if negb (t =? nullptr)
       then _ ← call (lib transport_Close [AInt t]);
            _ ← call (lib transport_delete [AInt t]); update (set_m_transport nullptr)
       else mret tt);
  engine ← this_ m_cryptoEngine;
  owns ← this_ m_ownsCryptoEngine;
  _ ← (if negb (engine =? nullptr) && owns
       then up ← call (gets w_adaptor);
            _ ← (if (up : bool) then call (a_SetCryptoEngine nullptr) else mret tt);
            _ ← call (lib engine_Finalize [AInt engine]);
            _ ← call (lib engine_delete [AInt engine]);
            _ ← update (set_m_cryptoEngine nullptr);
            update (set_m_ownsCryptoEngine false)
       else mret tt);
  update (set_m_state SCF_CONN_CLOSED).

(** *** Policy *)

(** The buffers released by the file contexts, as they are when released. *)
Definition Buffers : Type := list (list ascii).

(** The code and the buffers released: a file context for [path], [use]d and freed. *)
Definition with_file_ctx (path : string)
    (use : option SCFFileCtx -> M (Z * option SCFFileCtx * Buffers)) : M (Z * Buffers) :=
  e ← env_at path 0;
  let fileCtx := SCF_FileCtxNew e in
  return_if bool_decide (fileCtx = None) with (mret (SCF_ERRNO_MEM_ALLOC, [])) ;;
  e ← env_at path 2;
  let '(ret, fileCtx, rel1) :=
    SCF_FileCtxSetBuf e fileCtx SCF_STORE_FILE_PATH (Some (bytes path ++ [NUL]))
      (slen path + 1) SCF_STORE_FORMAT_PEM in
  r ← (if ret =? SCF_SUCCESS then use fileCtx else mret (ret, fileCtx, []));
  let '(ret, fileCtx, rel2) := r in
  mret (ret, rel1 ++ rel2 ++ (SCF_FileCtxFree fileCtx).2).

Definition add_cert_file (ctx type : Z) (path : string) : M (Z * Buffers) :=
  with_file_ctx path (fun fileCtx =>
    ret ← SCF_AddCert ctx fileCtx type; mret (ret, fileCtx, [])).

Definition set_key_file (ctx : Z) (path password : string) : M (Z * Buffers) :=
  with_file_ctx path (fun keyCtx =>
    r ← (if bool_decide (password = EmptyString) then mret (SCF_SUCCESS, keyCtx, [])
         else e ← env_at path 3;
              mret (SCF_FileCtxSetPwd e keyCtx (Some (bytes password)) (slen password) false));
    let '(ret, keyCtx, rel) := r in
    return_if negb (ret =? SCF_SUCCESS) with (mret (ret, keyCtx, rel)) ;;
    ret ← SCF_SetKey ctx keyCtx; mret (ret, keyCtx, rel)).

Definition nonempty (s : string) : bool := negb (bool_decide (s = EmptyString)).

(** The remaining steps, unless a step failed. *)
Definition unless_failed (r : Z * Buffers) (k : M (Z * Buffers)) : M (Z * Buffers) :=
  return_if negb (r.1 =? SCF_SUCCESS) with (mret r) ;;
  s ← k; mret (s.1, r.2 ++ s.2).

Definition SetupCertificates (this : SCFConnectionImpl) : M (Z * Buffers) :=
  let cfg := m_config this in
  let ctx := m_policyCtx this in
  r ← (if nonempty (cc_caCertPath cfg)
       then add_cert_file ctx SCF_CERT_TYPE_CA (cc_caCertPath cfg) else mret (SCF_SUCCESS, []));
  unless_failed r (
    r ← (if nonempty (cc_certPath cfg) && nonempty (cc_keyPath cfg)
         then r ← add_cert_file ctx SCF_CERT_TYPE_EE (cc_certPath cfg);
              unless_failed r (set_key_file ctx (cc_keyPath cfg) (cc_keyPassword cfg))
         else mret (SCF_SUCCESS, []));
    unless_failed r (
      if nonempty (cc_crlPath cfg)
      then add_cert_file ctx SCF_CERT_TYPE_CRL (cc_crlPath cfg) else mret (SCF_SUCCESS, []))).

(** The two bytes of a cipher suite, most significant first. *)
Definition cipher_id (suite : Z) : list ascii :=
  [ascii_of_N (Z.to_N (Z.land (Z.shiftr suite 8) 0xFF)); ascii_of_N (Z.to_N (Z.land suite 0xFF))].

Definition SetupPSK (this : SCFConnectionImpl) : M Z :=
  sess ← SCF_SessionNew;
  return_if sess =? nullptr with (mret SCF_ERRNO_MEM_ALLOC) ;;
  let key := cc_pskKey (m_config this) in
  r ← SCF_SessionSetMasterKey sess (Some key) (Z.of_nat (length key)) false;
  return_if negb (r.1 =? SCF_SUCCESS) with (_ ← SCF_SessionFree sess; mret r.1) ;;
  ret ← SCF_SessionSetProtocolVersion sess (Some SCF_SSL_VERSION_TLS13_STR);
  return_if negb (ret =? SCF_SUCCESS) with (_ ← SCF_SessionFree sess; mret ret) ;;
  _ ← match sl_tls13CipherSuites (GetSecurityLevelMapping (cc_securityLevel (m_config this))) with
      | [] => mret 0
      | suite :: _ =>
          obj ← SCF_CreatePolicyObj (m_policyCtx this);
          cipherSuite ← SCF_CipherFind obj (Some (cipher_id suite));
          if negb (cipherSuite =? nullptr) then SCF_SessionSetCipher sess cipherSuite 2
          else mret 0
      end;
  _ ← SCF_SessionFree sess;
  mret SCF_SUCCESS.

Definition SetupCipherSuites (this : SCFConnectionImpl) : M Z :=
  match sl_tls13CipherSuites (GetSecurityLevelMapping (cc_securityLevel (m_config this))) with
  | [] => mret SCF_SUCCESS
  | suites => SCF_SetCipherSuites (m_policyCtx this) (Some suites)
  end.

(** The crypto engine; [Some code] when the method returns early. *)
Definition setup_engine : Meth (option Z) :=
  engine ← this_ m_cryptoEngine;
  if engine =? nullptr then
    cfg ← this_ m_config;
    engine ← call (lib engine_Create [AInt (cc_cryptoEngineFactory cfg)]);
    _ ← update (set_m_cryptoEngine engine);
    return_if engine =? nullptr with (mret None) ;;
    ok ← call (lib engine_Initialize [AInt engine]);
    return_if ok =? 0
      with (_ ← call (lib engine_delete [AInt engine]);
            _ ← update (set_m_cryptoEngine nullptr);
            mret None) ;;
    _ ← update (set_m_ownsCryptoEngine true);
    up ← call (gets w_adaptor);
    return_if negb up with (mret (Some SCF_ERRNO_INVALID_PARAM)) ;;
    _ ← call (a_SetCryptoEngine engine);
    _ ← call (log_engine engine);
    mret None
  else
    up ← call (gets w_adaptor);
    _ ← (if (up : bool) then call (a_SetCryptoEngine engine) else mret tt);
    mret None.

(** Steps 2 to 7, on a context that exists. *)
Definition configure_ctx : Meth Z :=
  cfg ← this_ m_config;
  ctx ← this_ m_policyCtx;
  let mapping := GetSecurityLevelMapping (cc_securityLevel cfg) in
  let verifyMode := MapCertVerifyPolicy (cc_certVerifyPolicy cfg) in
  _ ← update (set_m_postQuantumResistant (sl_postQuantumResistant mapping));
  _ ← update (set_m_keyExchangeGroups (sl_keyExchangeGroups mapping));
  ret ← call (SCF_SetPolicy ctx (cc_role cfg) verifyMode (sl_policyMode mapping));
  return_if negb (ret =? SCF_SUCCESS) with (mret ret) ;;
  groups ← this_ m_keyExchangeGroups;
  up ← call (gets w_adaptor);
  _ ← (if negb (bool_decide (groups = [])) && up
       then call (a_SetKeyExchangeGroups ctx groups) else mret SCF_SUCCESS);
  ret ← call (SCF_SetProtocolVersion ctx (sl_protocolVersionMin mapping)
                (sl_protocolVersionMax mapping) None);
  return_if negb (ret =? SCF_SUCCESS) with (mret ret) ;;
  this ← this_ id;
  ret ← call (SetupCipherSuites this);
  return_if negb (ret =? SCF_SUCCESS) with (mret ret) ;;
  ret ← (if cc_usePSK cfg then call (SetupPSK this)
         else r ← call (SetupCertificates this); mret r.1);
  return_if negb (ret =? SCF_SUCCESS) with (mret ret) ;;
  ret ← (if negb (cc_appVerifyCb cfg =? nullptr)
         then call (SCF_SetAppVerifyCallback ctx (cc_appVerifyCb cfg) (cc_appVerifyArg cfg))
         else mret SCF_SUCCESS);
  return_if negb (ret =? SCF_SUCCESS) with (mret ret) ;;
  _ ← (if cc_enableKeyAutoUpdate cfg
       then call (SCF_SetKeyAutoUpdateParam ctx true 300 1073741824) else mret SCF_SUCCESS);
  mret SCF_SUCCESS.

Definition SetupPolicyContext : Meth Z :=
  early ← setup_engine;
  match early with
  | Some ret => mret ret
  | None =>
      ctx ← call SCF_CreatePolicyCtx;
      _ ← update (set_m_policyCtx ctx);
      return_if ctx =? nullptr with (mret SCF_ERRNO_MEM_ALLOC) ;;
      configure_ctx
  end.

(** *** Transport *)
Definition TRANSPORT_SUCCESS : Z := 0.

Definition SetupTransportClient (host : string) (port : Z) : Meth Z :=
  cfg ← this_ m_config;
  t ← call (lib transport_Create [AInt (cc_transportFactory cfg)]);
  _ ← update (set_m_transport t);
  return_if t =? nullptr with (mret SCF_ERRNO_MEM_ALLOC) ;;
  _ ← call (lib transport_SetConfig [AInt t; AInt (to_int32 (cc_connectTimeoutMs cfg))]);
  tRet ← call (lib transport_Connect [AInt t; AStr host; AInt port;
                                      AInt (to_int32 (cc_connectTimeoutMs cfg))]);
  return_if negb (tRet =? TRANSPORT_SUCCESS) with (mret SCF_ERRNO_SECURE_TRANSPORT) ;;
  _ ← update (set_m_state SCF_CONN_CONNECTING);
  mret SCF_SUCCESS.

Definition SetupTransportServer (host : string) (port : Z) : Meth Z :=
  cfg ← this_ m_config;
  t ← call (lib transport_Create [AInt (cc_transportFactory cfg)]);
  _ ← update (set_m_transport t);
  return_if t =? nullptr with (mret SCF_ERRNO_MEM_ALLOC) ;;
  _ ← call (lib transport_SetConfig [AInt t; AInt 5000]);
  let bindHost := if bool_decide (host = EmptyString) then "0.0.0.0"%string else host in
  tRet ← call (lib transport_Bind [AInt t; AStr bindHost; AInt port]);
  return_if negb (tRet =? TRANSPORT_SUCCESS) with (mret SCF_ERRNO_SECURE_TRANSPORT) ;;
  _ ← update (set_m_state SCF_CONN_INIT);
  mret SCF_SUCCESS.

Definition CreatePolicyObj : Meth Z :=
  ctx ← this_ m_policyCtx;
  obj ← call (SCF_CreatePolicyObj ctx);
  _ ← update (set_m_policyObj obj);
  return_if obj =? nullptr with (mret SCF_ERRNO_MEM_ALLOC) ;;
  t ← this_ m_transport;
  fd ← call (lib transport_GetNativeHandle [AInt t]);
  return_if fd <? 0 with (mret SCF_SUCCESS) ;;
  ret ← call (SCF_SetFd obj fd);
  return_if negb (ret =? SCF_SUCCESS) with (mret ret) ;;
  mret SCF_SUCCESS.

(** *** The public methods *)

Definition HandshakeStep : Meth Z :=
  obj ← this_ m_policyObj;
  return_if obj =? nullptr with (mret SCF_ERRNO_NULL_INPUT) ;;
  isServer ← this_ m_isServer;
  ret ← (if (isServer : bool) then call (SCF_Accept obj) else call (SCF_Connect obj));
  if ret =? SCF_SUCCESS then
    _ ← update (set_m_handshakeDone true);
    _ ← update (set_m_state SCF_CONN_CONNECTED);
    ver ← call (SCF_GetProtocolVersion obj);
    _ ← match ver with Some v => update (set_m_negotiatedVersion v) | None => mret tt end;
    mret ret
  else if (ret =? SCF_SSL_ERR_WANT_READ) || (ret =? SCF_SSL_ERR_WANT_WRITE) then
    _ ← update (set_m_state SCF_CONN_CONNECTING); mret ret
  else
    _ ← update (set_m_state SCF_CONN_ERROR); mret ret.

Definition Connect (host : string) (port : Z) : Meth Z :=
  ret ← SetupPolicyContext;
  return_if negb (ret =? SCF_SUCCESS) with (_ ← update (set_m_state SCF_CONN_ERROR); mret ret) ;;
  ret ← SetupTransportClient host port;
  return_if negb (ret =? SCF_SUCCESS)
    with (_ ← update (set_m_state SCF_CONN_ERROR); _ ← Cleanup; mret ret) ;;
  ret ← CreatePolicyObj;
  return_if negb (ret =? SCF_SUCCESS)
    with (_ ← update (set_m_state SCF_CONN_ERROR); _ ← Cleanup; mret ret) ;;
  HandshakeStep.

Definition Listen (host : string) (port : Z) : Meth Z :=
  ret ← SetupPolicyContext;
  return_if negb (ret =? SCF_SUCCESS) with (_ ← update (set_m_state SCF_CONN_ERROR); mret ret) ;;
  ret ← SetupTransportServer host port;
  return_if negb (ret =? SCF_SUCCESS) with (_ ← update (set_m_state SCF_CONN_ERROR); mret ret) ;;
  mret SCF_SUCCESS.

(** [delete conn]. *)
Definition destroy (conn : SCFConnectionImpl) : M unit := _ ← Cleanup conn; mret tt.

(** The new connection's part of [Accept], run on the new object; [true]: keep it. *)
Definition accept_child : Meth bool :=
  ret ← SetupPolicyContext;
  return_if negb (ret =? SCF_SUCCESS) with (mret false) ;;
  ret ← CreatePolicyObj;
  return_if negb (ret =? SCF_SUCCESS) with (mret false) ;;
  ret ← HandshakeStep;
  return_if (ret =? SCF_SSL_ERR_WANT_READ) || (ret =? SCF_SSL_ERR_WANT_WRITE)
    with (_ ← update (set_m_state SCF_CONN_CONNECTING); mret true) ;;
  return_if negb (ret =? SCF_SUCCESS) with (mret false) ;;
  _ ← update (set_m_state SCF_CONN_CONNECTED);
  _ ← update (set_m_handshakeDone true);
  mret true.

Definition Accept : Meth (option SCFConnectionImpl) :=
  isServer ← this_ m_isServer;
  t ← this_ m_transport;
  return_if negb isServer || (t =? nullptr) with (mret None) ;;
  clientTransport ← call (lib transport_Accept [AInt t]);
  return_if clientTransport =? nullptr with (mret None) ;;
  cfg ← this_ m_config;
  p ← call (lib op_new [AStr "SCFConnectionImpl"]);
  return_if p =? nullptr
    with (_ ← call (lib transport_Close [AInt clientTransport]);
          _ ← call (lib transport_delete [AInt clientTransport]);
          mret None) ;;
  let newConn := set_m_isServer true (set_m_transport clientTransport (new_connection cfg)) in
  engine ← this_ m_cryptoEngine;
  up ← call (gets w_adaptor);
  _ ← (if negb (engine =? nullptr) && up then call (a_SetCryptoEngine engine) else mret tt);
  let newConn :=
    if negb (engine =? nullptr)
    then set_m_ownsCryptoEngine false (set_m_cryptoEngine engine newConn) else newConn in
  r ← call (accept_child newConn);
  let '(keep, newConn) := r in
  return_if (keep : bool) with (mret (Some newConn)) ;;
  _ ← call (destroy newConn);
  mret None.

Definition Read (data len : Z) (outs : bool) : Meth (Z * option Z) :=
  state ← this_ m_state; obj ← this_ m_policyObj;
  return_if negb (state =? SCF_CONN_CONNECTED) || (obj =? nullptr)
    with (mret (SCF_ERRNO_INVALID_PARAM, None)) ;;
  call (SCF_Read obj data len outs).

Definition Write (data len : Z) (outs : bool) : Meth (Z * option Z) :=
  state ← this_ m_state; obj ← this_ m_policyObj;
  return_if negb (state =? SCF_CONN_CONNECTED) || (obj =? nullptr)
    with (mret (SCF_ERRNO_INVALID_PARAM, None)) ;;
  call (SCF_Write obj data len outs).

Definition GetState (this : SCFConnectionImpl) : Z := m_state this.
Definition IsConnected (this : SCFConnectionImpl) : bool :=
  (m_state this =? SCF_CONN_CONNECTED) && m_handshakeDone this.

Definition GetTLSVersion : Meth (option string) :=
  done ← this_ m_handshakeDone; ver ← this_ m_negotiatedVersion; obj ← this_ m_policyObj;
  return_if (done : bool) && nonempty ver with (mret (Some ver)) ;;
  return_if negb (obj =? nullptr) with (call (SCF_GetProtocolVersion obj)) ;;
  mret (Some EmptyString).

Definition GetCipherSuite (this : SCFConnectionImpl) : Z := m_negotiatedCipherSuite this.

Definition GetPeerCertificate : Meth Z :=
  obj ← this_ m_policyObj;
  return_if obj =? nullptr with (mret nullptr) ;;
  call (SCF_GetPeerCert obj).

Definition FreePeerCertificate (cert : Z) : Meth unit :=
  _ ← call (SCF_FreeCert cert); mret tt.

Definition GetTransport (this : SCFConnectionImpl) : Z := m_transport this.

Definition GetNativeHandle : Meth Z :=
  t ← this_ m_transport;
  return_if negb (t =? nullptr) with (call (lib transport_GetNativeHandle [AInt t])) ;;
  mret (-1).

Definition TriggerKeyUpdate : Meth Z :=
  obj ← this_ m_policyObj;
  return_if obj =? nullptr with (mret SCF_ERRNO_NULL_INPUT) ;;
  call (SCF_ObjKeyUpdate obj).

Definition SetUserData (userData : Z) : Meth unit :=
  _ ← update (set_m_userData userData);
  obj ← this_ m_policyObj;
  return_if obj =? nullptr with (mret tt) ;;
  _ ← call (SCF_SetUserData obj userData); mret tt.

Definition GetUserData (this : SCFConnectionImpl) : Z := m_userData this.

(** *** Convenience constructors *)

Definition SCF_NewClientConnection (securityLevel : Z) (caCertPath : string)
    : M (option SCFConnectionImpl) :=
  Create (conn_config securityLevel SCF_ROLE_CLIENT caCertPath EmptyString EmptyString
    (if nonempty caCertPath then SCF_CERT_VERIFY_REQUIRED else SCF_CERT_VERIFY_NONE)
    EmptyString [] false).

Definition SCF_NewServerConnection (securityLevel : Z) (certPath keyPath caCertPath : string)
    : M (option SCFConnectionImpl) :=
  Create (conn_config securityLevel SCF_ROLE_SERVER caCertPath certPath keyPath
    (if nonempty caCertPath then SCF_CERT_VERIFY_REQUIRED else SCF_CERT_VERIFY_NONE)
    EmptyString [] false).

Definition SCF_NewPSKConnection (securityLevel role : Z) (pskIdentity : string)
    (pskKey : list ascii) : M (option SCFConnectionImpl) :=
  Create (conn_config securityLevel role EmptyString EmptyString EmptyString
    SCF_CERT_VERIFY_NONE pskIdentity pskKey true).
End connection.
