(* ===== verification/ConnSafe.v ===== *)
(** * Safety of secure connections

    What [SCFConnection] promises its user, over whole histories of many connections: no
    method touches freed memory, no two connections share a handle, a connection that says
    it is connected has a session, and a connection that connected and was destroyed leaves
    nothing behind. The proofs use the API only through its lifetime laws. *)
From Stdlib Require Import ZArith Lia Ascii String.
From stdpp Require Import base list fin_maps gmap strings.
From S2P Require Import Prelude Errno Types FileCheck FileCtx Machine.
From S2P Require Import Adaptor Api Conn Lifecycle Config Connection.
Open Scope Z_scope.

(** ** Quiet methods

    The handles and the configuration of a connection; one that says it is connected has an
    object and a finished handshake. *)
Record at_ (p o : Z) (cfg : SCFConnectionConfig) (c : SCFConnectionImpl) : Prop := {
  at_ctx : m_policyCtx c = p;
  at_obj : m_policyObj c = o;
  at_config : m_config c = cfg;
  at_connected : m_state c = SCF_CONN_CONNECTED -> m_handshakeDone c = true /\ o <> nullptr
}.

Definition args (p o : Z) (w : World) : Prop := ctx_arg p w /\ obj_arg o w.

#[export] Instance stable_args p o : Stable (args p o).
Proof. unfold args. apply _. Qed.

(** A method that, on null or live handles, returns and keeps them: nothing is created and
    nothing freed. *)
Definition quiet (p o : Z) (cfg : SCFConnectionConfig) {X} (m : Meth X) : Prop :=
  forall c w, at_ p o cfg c -> args p o w ->
    wp (m c) (fun r w' => policy_frame w w' /\ at_ p o cfg r.2) w.

Section quiet_rules.
Context {p o : Z} {cfg : SCFConnectionConfig} {X Y : Type}.

Lemma quiet_ret (x : X) : quiet p o cfg (mret x).
Proof. by intros c w Hat _. Qed.

Lemma quiet_bind (m : Meth X) (f : X -> Meth Y) :
  quiet p o cfg m -> (forall x, quiet p o cfg (f x)) -> quiet p o cfg (m ≫= f).
Proof.
  intros Hm Hf c w Hat Ha. apply wp_meth_bind. eapply wp_mono; [by apply Hm|].
  intros [x c1] w1 [Hl Hat1]. simpl in *. eapply wp_mono.
  - apply Hf; [done|]. apply (stable_args p o w); [by apply policy_life|done].
  - intros r w2 [Hl2 ?]. split; [by etransitivity|done].
Qed.

Lemma quiet_this (f : SCFConnectionImpl -> X) (k : X -> Meth Y) :
  (forall c, at_ p o cfg c -> quiet p o cfg (k (f c))) -> quiet p o cfg (this_ f ≫= k).
Proof. intros Hk c w Hat Ha. apply wp_meth_bind, wp_this. by apply Hk. Qed.

Lemma quiet_update f :
  (forall c, at_ p o cfg c -> at_ p o cfg (f c)) -> quiet p o cfg (update f).
Proof. intros Hf c w Hat Ha. apply wp_update. split; [done|by apply Hf]. Qed.

(** Two writes that only together keep the invariant. *)
Lemma quiet_update2 f g (k : Meth Y) :
  (forall c, at_ p o cfg c -> at_ p o cfg (g (f c))) -> quiet p o cfg k ->
  quiet p o cfg (_ ← update f; _ ← update g; k).
Proof.
  intros Hfg Hk c w Hat Ha. apply wp_meth_bind, wp_update, wp_meth_bind, wp_update.
  apply Hk; [by apply Hfg|done].
Qed.

Lemma quiet_call (m : M X) : safe policy_frame (args p o) m -> quiet p o cfg (call m).
Proof. intros Hm c w Hat Ha. apply wp_call. eapply wp_mono; [by apply Hm|]. done. Qed.
End quiet_rules.

(** ** The steps of a connection that create and free nothing *)
Section quiet_methods.
Context `{Library} {A : TlsAdaptor} `{!TlsAdaptorSafe A} `{SecureC} `{FileSystem} `{Decryptor}
  `{Uninit} `{FileAlloc}.

(** An API call on the connection's own handles. *)
Lemma safe_exec (k : Call) p o :
  lifetime_call k = false -> sets_policy k = false ->
  (forall q, call_ctx k = Some q -> q = p) -> (forall q, call_obj k = Some q -> q = o) ->
  (forall q fc t, k = CAddCert q fc t -> t <> SCF_CERT_TYPE_EE_CHAIN) ->
  safe policy_frame (args p o) (exec k).
Proof.
  intros Hk Hs Hp Ho Ht w [Ha1 Ha2]. apply use_call_policy; [done..|]. split_and!; [| |done].
  - by intros q ->%Hp.
  - by intros q ->%Ho.
Qed.

Lemma safe_discard {X} R P (m : M X) : safe R P (discard m) -> safe R P m.
Proof.
  intros Hm w Hw. specialize (Hm w Hw). unfold wp, discard, mbind, M_bind in *.
  by destruct (m w) as [[x w']|].
Qed.
End quiet_methods.

(** The API call [k], whose result the connection may use. *)
Ltac api k :=
  first [ apply (safe_exec k) | apply safe_discard, (safe_exec k) ];
  [ done | done | by intros ? [= <-] | by intros ? [= <-] | by intros ? ? ? [= <- <- <-] ].

Ltac api_step :=
  match goal with
  | |- safe _ _ (SCF_SetProtocolVersion ?a ?b ?c ?d) => api (CSetProtocolVersion a b c d)
  | |- safe _ _ (SCF_SetCipherSuites ?a ?b) => api (CSetCipherSuites a b)
  | |- safe _ _ (SCF_AddCert ?a ?b ?c) => api (CAddCert a b c)
  | |- safe _ _ (SCF_SetKey ?a ?b) => api (CSetKey a b)
  | |- safe _ _ (SCF_SetAppVerifyCallback ?a ?b ?c) => api (CSetAppVerifyCallback a b c)
  | |- safe _ _ (SCF_SetKeyAutoUpdateParam ?a ?b ?c ?d) => api (CSetKeyAutoUpdateParam a b c d)
  | |- safe _ _ (SCF_Connect ?a) => api (CConnect a)
  | |- safe _ _ (SCF_Accept ?a) => api (CAccept a)
  | |- safe _ _ (SCF_Close ?a) => api (CClose a)
  | |- safe _ _ (SCF_Read ?a ?b ?c ?d) => api (CRead a b c d)
  | |- safe _ _ (SCF_Write ?a ?b ?c ?d) => api (CWrite a b c d)
  | |- safe _ _ (SCF_SetFd ?a ?b) => api (CSetFd a b)
  | |- safe _ _ (SCF_GetProtocolVersion ?a) => api (CGetProtocolVersion a)
  | |- safe _ _ (SCF_GetPeerCert ?a) => api (CGetPeerCert a)
  | |- safe _ _ (SCF_ObjKeyUpdate ?a) => api (CObjKeyUpdate a)
  | |- safe _ _ (SCF_SetUserData ?a ?b) => api (CSetUserData a b)
  | |- safe _ _ (a_SetCryptoEngine _) => eapply safe_method; [apply safe_a_SetCryptoEngine | done]
  | |- safe _ _ (a_SetKeyExchangeGroups _ _) =>
      eapply safe_method; [apply safe_a_SetKeyExchangeGroups | by intros ? [Hctx _]; apply Hctx]
  | |- safe _ _ (OpenSSL.log_engine _) => unfold OpenSSL.log_engine
  | |- safe _ _ (env_at _ _) => apply safe_gets
  | |- _ => safe_step
  end.

(** One rule of [quiet], by the shape of the method. *)
Ltac quiet_step :=
  match goal with
  | |- forall _, _ => intro
  | |- quiet _ _ _ (mret _) => apply quiet_ret
  | |- quiet _ _ _ (this_ m_policyCtx ≫= _) =>
      apply quiet_this; let H := fresh in intros ? H; rewrite (at_ctx _ _ _ _ H)
  | |- quiet _ _ _ (this_ m_policyObj ≫= _) =>
      apply quiet_this; let H := fresh in intros ? H; rewrite (at_obj _ _ _ _ H)
  | |- quiet _ _ _ (this_ m_config ≫= _) =>
      apply quiet_this; let H := fresh in intros ? H; rewrite (at_config _ _ _ _ H)
  | |- quiet _ _ _ (this_ _ ≫= _) => apply quiet_this; intros ? ?
  | |- quiet _ _ _ (call _) => apply quiet_call
  | |- quiet _ _ _ (update _ ≫= (fun _ => update _ ≫= _)) =>
      apply quiet_update2; [intros ? []; by split | intros]
  | |- quiet _ _ _ (update _) => apply quiet_update; intros ? []; by split
  | |- quiet _ _ _ (_ ≫= _) => apply quiet_bind; [|intro]
  | |- quiet _ _ _ (if ?b then _ else _) => destruct b eqn:?
  | |- quiet _ _ _ (match ?x with _ => _ end) => destruct x
  | |- _ => api_step
  end.
Ltac quiet := repeat quiet_step.

Section quiet_steps.
Context `{Library} {A : TlsAdaptor} `{!TlsAdaptorSafe A} `{SecureC} `{FileSystem} `{Decryptor}
  `{Uninit} `{FileAlloc}.
Context (p o : Z) (cfg : SCFConnectionConfig).

Lemma safe_with_file_ctx path use :
  (forall fc, safe policy_frame (args p o) (use fc)) ->
  safe policy_frame (args p o) (with_file_ctx path use).
Proof. intros Hu. unfold with_file_ctx. quiet. Qed.

Lemma safe_add_cert_file type path :
  type <> SCF_CERT_TYPE_EE_CHAIN -> safe policy_frame (args p o) (add_cert_file p type path).
Proof. intros Ht. apply safe_with_file_ctx. quiet. Qed.

Lemma safe_set_key_file path password : safe policy_frame (args p o) (set_key_file p path password).
Proof. apply safe_with_file_ctx. quiet. Qed.

Lemma safe_SetupCertificates c :
  at_ p o cfg c -> safe policy_frame (args p o) (SetupCertificates c).
Proof.
  intros [Hp _ _ _]. unfold SetupCertificates, unless_failed. rewrite Hp.
  quiet; first [by apply safe_add_cert_file | apply safe_set_key_file].
Qed.

Lemma safe_SetupCipherSuites c :
  at_ p o cfg c -> safe policy_frame (args p o) (SetupCipherSuites c).
Proof. intros [Hp _ _ _]. unfold SetupCipherSuites. rewrite Hp. quiet. Qed.

Lemma quiet_setup_engine : quiet p o cfg setup_engine.
Proof. unfold setup_engine. quiet. Qed.

Lemma quiet_SetupTransportClient host port : quiet p o cfg (SetupTransportClient host port).
Proof. unfold SetupTransportClient. quiet. Qed.

Lemma quiet_SetupTransportServer host port : quiet p o cfg (SetupTransportServer host port).
Proof. unfold SetupTransportServer. quiet. Qed.
End quiet_steps.

(** ** Steps that create *)

(** A new context; a new object of the context [p], whose count was [n]. *)
Definition life_new_ctx (l : Life) : Life :=
  life_set_next (l_next l + 1) (life_set_cnt (<[l_next l := 1]> (l_cnt l)) l).
Definition life_new_obj (p n : Z) (l : Life) : Life :=
  life_set_next (l_next l + 1)
    (life_set_ref (<[l_next l := p]> (l_ref l)) (life_set_cnt (<[p := n + 1]> (l_cnt l)) l)).

(** The library is up. *)
Definition up (l : Life) : bool := l_init l && l_adaptor l.

Section creating.
Context `{Library} {A : TlsAdaptor} `{!TlsAdaptorSafe A} `{SecureC} `{FileSystem} `{Decryptor}
  `{Uninit} `{FileAlloc}.
Implicit Types (c : SCFConnectionImpl) (w : World).

Lemma policy_life_of w w' : policy_frame w w' -> life_of w' = life_of w.
Proof. intros Hf. by apply life_frame_of, policy_life. Qed.

(** Before the rest of a program, a step that creates and frees nothing. *)
Lemma wp_frame {X Y} P (m : M X) (f : X -> M Y) Q w :
  safe policy_frame P m -> P w ->
  (forall x w', life_of w' = life_of w -> wp (f x) Q w') -> wp (m ≫= f) Q w.
Proof.
  intros Hm HP Hf. apply wp_bind. eapply wp_mono; [by apply Hm|].
  intros x w' Hfr. by apply Hf, policy_life_of.
Qed.

(** And a program that is such a step. *)
Lemma wp_frame_end {X} P (m : M X) (Q : X -> World -> Prop) w :
  safe policy_frame P m -> P w ->
  (forall x w', life_of w' = life_of w -> Q x w') -> wp m Q w.
Proof.
  intros Hm HP Hf. eapply wp_mono; [by apply Hm|]. intros x w' Hfr. by apply Hf, policy_life_of.
Qed.

Lemma safe_sessions P `{!Stable P} :
  safe policy_frame P SCF_SessionNew /\ (forall s, safe policy_frame P (SCF_SessionFree s)) /\
  (forall s k n b, safe policy_frame P (SCF_SessionSetMasterKey s k n b)) /\
  (forall s v, safe policy_frame P (SCF_SessionSetProtocolVersion s v)) /\
  (forall s x n, safe policy_frame P (SCF_SessionSetCipher s x n)).
Proof.
  unfold SCF_SessionNew, SCF_SessionFree, SCF_SessionSetMasterKey,
    SCF_SessionSetProtocolVersion, SCF_SessionSetCipher.
  split_and!; handler; eapply safe_method;
    first [done | apply safe_a_SessionNew | apply safe_a_SessionFree
          | apply safe_a_SessionSetMasterKey | apply safe_a_SessionSetProtocolVersion
          | apply safe_a_SessionSetCipher | done].
Qed.

(** What is alive, from the abstract state. *)
Lemma live_of_life w w' : life_of w' = life_of w -> forall p, live_ctx p w -> live_ctx p w'.
Proof. intros Hl%life_frame_of p. by apply stable_live_ctx. Qed.

Lemma args_of_life p o w w' : life_of w' = life_of w -> args p o w -> args p o w'.
Proof. intros Hl%life_frame_of. by apply stable_args. Qed.

Lemma new_obj_ctx_live p n w w' :
  life_of w' = life_new_obj p n (life_of w) -> live_ctx p w'.
Proof.
  intros Hl. apply (f_equal l_cnt), (f_equal (lookup p)) in Hl. cbn in Hl.
  rewrite lookup_insert_eq in Hl. apply lookup_fmap_Some in Hl as (y & _ & Hy). by exists y.
Qed.

Lemma new_obj_live p n w w' :
  life_of w' = life_new_obj p n (life_of w) -> live_obj (w_next w) w'.
Proof.
  intros Hl. pose proof (f_equal l_ref Hl) as Hr. apply (f_equal (lookup (w_next w))) in Hr.
  cbn in Hr. rewrite lookup_insert_eq in Hr. apply lookup_fmap_Some in Hr as (x & Hx & Ho).
  exists x. split; [done|]. rewrite Hx. by eapply new_obj_ctx_live.
Qed.

Definition counted (p n : Z) (w : World) : Prop :=
  l_cnt (life_of w) !! p = Some n /\ 0 <= n < UINT32_MAX.

Lemma wp_CreateObj p n w (Q : Z -> World -> Prop) :
  counted p n w ->
  (forall w', life_of w' = life_of w -> Q nullptr w') ->
  (forall w', life_of w' = life_new_obj p n (life_of w) -> Q (w_next w) w') ->
  wp (SCF_CreatePolicyObj p) Q w.
Proof.
  intros [Hl Hn] Hsame Hnew. apply life_ctx in Hl as (x & Hx & <-).
  by eapply wp_SCF_CreatePolicyObj.
Qed.

(** Looking the cipher up on the temporary object. *)
Lemma safe_use_cipher obj sess id :
  safe policy_frame (obj_arg obj)
    (cipherSuite ← SCF_CipherFind obj id;
     if negb (cipherSuite =? nullptr) then SCF_SessionSetCipher sess cipherSuite 2 else mret 0).
Proof.
  apply safe_bind; [apply _|by apply (safe_use_obj (CCipherFind obj id))|]. intros x.
  destruct (negb _); [apply safe_sessions, _|apply safe_ret].
Qed.

(** The session of [SetupPSK] is released on every path; its temporary object is not. *)
Lemma wp_SetupPSK p o cfg c n w (Q : Z -> World -> Prop) :
  at_ p o cfg c -> counted p n w ->
  (forall r w', life_of w' = life_of w -> Q r w') ->
  (forall w', life_of w' = life_new_obj p n (life_of w) -> Q SCF_SUCCESS w') ->
  wp (SetupPSK c) Q w.
Proof.
  intros [Hp _ _ _] Hc Hsame Hnew. unfold SetupPSK. rewrite Hp.
  destruct (safe_sessions (fun _ => True)) as (Sn & Sf & Sk & Sv & Sc).
  assert (Hfree : forall s r w1 (R : Z -> World -> Prop),
            (forall w', life_of w' = life_of w1 -> R r w') ->
            wp (_ ← SCF_SessionFree s; mret r) R w1).
  { intros s r w1 R HR. eapply wp_frame; [apply Sf|done|]. intros _ w2 Hw2. by apply wp_ret, HR. }
  eapply wp_frame; [exact Sn|done|]. intros sess w1 E1.
  destruct (sess =? nullptr); [by apply wp_ret, Hsame|].
  eapply wp_frame; [apply Sk|done|]. intros r w2 E2.
  destruct (negb (r.1 =? SCF_SUCCESS)); [apply Hfree; intros; apply Hsame; congruence|].
  eapply wp_frame; [apply Sv|done|]. intros ret w3 E3.
  assert (Hw3 : life_of w3 = life_of w) by congruence.
  destruct (negb (ret =? SCF_SUCCESS)); [apply Hfree; intros; apply Hsame; congruence|].
  destruct (sl_tls13CipherSuites _) as [|suite suites];
    [apply wp_bind, wp_ret, Hfree; intros; apply Hsame; congruence|].
  assert (Hc3 : counted p n w3) by (unfold counted in *; by rewrite Hw3).
  apply wp_bind, wp_bind. eapply wp_CreateObj; [exact Hc3|..]; intros w4 E4;
    (eapply wp_frame_end; [apply safe_use_cipher| |intros _ w5 E5; apply Hfree; intros w6 E6]).
  - by intros [].
  - apply Hsame. congruence.
  - intros _. by eapply new_obj_live.
  - apply Hnew. congruence.
Qed.
(** What follows a quiet method, and a quiet method at the end. *)
Lemma wp_quiet {X Y} p o cfg (m : Meth X) (f : X -> Meth Y) c w Q :
  quiet p o cfg m -> at_ p o cfg c -> args p o w ->
  (forall x c' w', life_of w' = life_of w -> at_ p o cfg c' -> wp (f x c') Q w') ->
  wp ((m ≫= f) c) Q w.
Proof.
  intros Hm Hat Ha Hf. apply wp_meth_bind. eapply wp_mono; [by apply Hm|].
  intros [x c'] w' [Hl%policy_life_of Hat']. by apply Hf.
Qed.

Lemma wp_quiet_end {X} p o cfg (m : Meth X) c w (Q : X * SCFConnectionImpl -> World -> Prop) :
  quiet p o cfg m -> at_ p o cfg c -> args p o w ->
  (forall x c' w', life_of w' = life_of w -> at_ p o cfg c' -> Q (x, c') w') ->
  wp (m c) Q w.
Proof.
  intros Hm Hat Ha Hf. eapply wp_mono; [by apply Hm|]. intros [x c'] w' [Hl%policy_life_of Hat']. by apply Hf.
Qed.

End creating.

(** ** Setting up a connection *)
(** Walk over a quiet step of a method, to what follows. *)
Ltac quiet_walk :=
  eapply wp_quiet; [solve [quiet] | eassumption
    | eapply args_of_life; [|eassumption]; first [reflexivity | congruence] | intros ? ? ? ? ?].

Section setup.
Context `{Library} {A : TlsAdaptor} `{!TlsAdaptorSafe A} `{SecureC} `{FileSystem} `{Decryptor}
  `{Uninit} `{FileAlloc}.
Implicit Types (c : SCFConnectionImpl) (w : World).

(** The life after the configuration steps: unchanged, or with the temporary object of
    [SetupPSK]. *)
Definition configured (cfg : SCFConnectionConfig) (p n : Z) (l l' : Life) : Prop :=
  l' = l \/ cc_usePSK cfg = true /\ l' = life_new_obj p n l.

(** The handles of a connection, on the abstract state. *)
Definition held (p o : Z) (l : Life) : Prop :=
  (p <> nullptr -> is_Some (l_cnt l !! p)) /\
  (o <> nullptr -> exists q, l_ref l !! o = Some q /\ is_Some (l_cnt l !! q)).

Lemma args_held p o w : args p o w <-> held p o (life_of w).
Proof.
  assert (Hctx : forall q, live_ctx q w <-> is_Some (l_cnt (life_of w) !! q)).
  { intros q. simpl. by rewrite lookup_fmap, fmap_is_Some. }
  assert (Hobj : live_obj o w <-> exists q, l_ref (life_of w) !! o = Some q /\
                                       is_Some (l_cnt (life_of w) !! q)).
  { split.
    - intros (x & Hx & Hq%Hctx). exists (obj_policyCtx x). split; [|done]. simpl.
      by rewrite lookup_fmap, Hx.
    - intros (q & (x & Hx & <-)%life_obj & Hq%Hctx). by exists x. }
  unfold args, held, ctx_arg, obj_arg. by rewrite Hctx, Hobj.
Qed.

Lemma held_new_ctx owned p o l : life_inv owned l -> held p o l -> held p o (life_new_ctx l).
Proof.
  intros Hinv [Hp Ho].
  assert (Hc : forall q, is_Some (l_cnt l !! q) -> is_Some (l_cnt (life_new_ctx l) !! q)).
  { intros q Hq. apply lookup_insert_is_Some'. by right. }
  split; [by intros ?%Hp%Hc|]. intros (q & ? & ?%Hc)%Ho. by exists q.
Qed.

Lemma held_new_obj owned q n p o l :
  life_inv owned l -> held p o l -> held p o (life_new_obj q n l).
Proof.
  intros Hinv [Hp Ho].
  assert (Hc : forall r, is_Some (l_cnt l !! r) -> is_Some (l_cnt (life_new_obj q n l) !! r)).
  { intros r Hr. apply lookup_insert_is_Some'. by right. }
  split; [by intros ?%Hp%Hc|]. intros (r & Hr & ?%Hc)%Ho. exists r. split; [|done].
  assert (is_Some (l_ref l !! o)) as Hs by by exists r.
  apply (li_obj_addr _ _ Hinv) in Hs. simpl. rewrite lookup_insert_ne; [done|lia].
Qed.

(** The steps of [configure_ctx] after the credentials. *)
Definition configure_rest (cfg : SCFConnectionConfig) (ctx ret : Z) : Meth Z :=
  return_if negb (ret =? SCF_SUCCESS) with (mret ret) ;;
  ret ← (if negb (cc_appVerifyCb cfg =? nullptr)
         then call (SCF_SetAppVerifyCallback ctx (cc_appVerifyCb cfg) (cc_appVerifyArg cfg))
         else mret SCF_SUCCESS);
  return_if negb (ret =? SCF_SUCCESS) with (mret ret) ;;
  _ ← (if cc_enableKeyAutoUpdate cfg
       then call (SCF_SetKeyAutoUpdateParam ctx true 300 1073741824) else mret SCF_SUCCESS);
  mret SCF_SUCCESS.

Lemma quiet_configure_rest p o cfg ret : quiet p o cfg (configure_rest cfg p ret).
Proof. unfold configure_rest. quiet. Qed.

(** What follows a successful [SCF_SetPolicy] in [configure_ctx]. *)
Definition after_policy (cfg : SCFConnectionConfig) (ctx : Z) : Meth Z :=
  let mapping := GetSecurityLevelMapping (cc_securityLevel cfg) in
  groups ← this_ m_keyExchangeGroups;
  up ← call (gets w_adaptor);
  _ ← (if negb (bool_decide (groups = [])) && up
       then call (a_SetKeyExchangeGroups ctx groups) else mret SCF_SUCCESS);
  ret ← call (SCF_SetProtocolVersion ctx (sl_protocolVersionMin mapping)
                (sl_protocolVersionMax mapping) None);
  return_if negb (ret =? SCF_SUCCESS) with (mret ret) ;;
  this ← this_ id;
  ret ← call (SetupCipherSuites this);
  return_if negb (ret =? SCF_SUCCESS) with (mret ret) ;;
  ret ← (if cc_usePSK cfg then call (SetupPSK this)
         else r ← call (SetupCertificates this); mret r.1);
  configure_rest cfg ctx ret.

Lemma quiet_after_policy p o cfg :
  p <> nullptr -> cc_usePSK cfg = false -> quiet p o cfg (after_policy cfg p).
Proof.
  intros Hn Hpsk. unfold after_policy. rewrite Hpsk. quiet.
  - eapply safe_SetupCipherSuites; eassumption.
  - eapply safe_SetupCertificates; eassumption.
  - apply quiet_configure_rest.
Qed.

Lemma counted_not_null owned p n w : life_inv owned (life_of w) -> counted p n w -> p <> nullptr.
Proof.
  intros Hinv [Hl _]. assert (is_Some (l_cnt (life_of w) !! p)) as Hs by by exists n.
  apply (li_ctx_addr _ _ Hinv) in Hs. unfold nullptr. lia.
Qed.

Lemma wp_after_policy owned p o cfg c n w (Q : Z * SCFConnectionImpl -> World -> Prop) :
  life_inv owned (life_of w) -> at_ p o cfg c -> args p o w -> counted p n w ->
  (forall r c' w', configured cfg p n (life_of w) (life_of w') -> at_ p o cfg c' ->
     Q (r, c') w') ->
  wp (after_policy cfg p c) Q w.
Proof.
  intros Hinv Hat Ha Hc HQ. assert (Hn : p <> nullptr) by by eapply counted_not_null.
  assert (Hq : forall x c' w', life_of w' = life_of w -> at_ p o cfg c' -> Q (x, c') w')
    by (intros; apply HQ; [by left|done]).
  destruct (cc_usePSK cfg) eqn:Epsk.
  2: { by eapply wp_quiet_end; [apply quiet_after_policy|..]. }
  unfold after_policy. rewrite Epsk. apply wp_meth_bind, wp_this. simpl. do 3 quiet_walk.
  case_match; [apply wp_meth_ret, Hq; [congruence|done]|].
  apply wp_meth_bind, wp_this. simpl.
  eapply wp_quiet; [apply quiet_call; eapply safe_SetupCipherSuites; eassumption|eassumption
    |eapply args_of_life; [|eassumption]; congruence|intros ? c5 w5 L5 At5].
  case_match; [apply wp_meth_ret, Hq; [congruence|done]|].
  assert (Hend : forall r c6 w6, configured cfg p n (life_of w) (life_of w6) ->
            at_ p o cfg c6 -> args p o w6 -> wp (configure_rest cfg p r c6) Q w6).
  { intros r c6 w6 Hl Hat6 Ha6. eapply wp_quiet_end; [apply quiet_configure_rest|done..|].
    intros x6 c7 w7 Hw7 Hat7. apply HQ; [by rewrite Hw7|done]. }
  assert (L : life_of w5 = life_of w) by congruence.
  apply wp_meth_bind, wp_call.
  eapply wp_SetupPSK; [eassumption|unfold counted in *; by rewrite L|intros r6 w6 L6|intros w6 L6];
    rewrite L in L6; apply Hend; try done; rewrite ?L6.
  - by left.
  - by eapply args_of_life.
  - by right.
  - apply args_held. rewrite L6. eapply held_new_obj; [done|by apply args_held].
Qed.

(** The steps of [configure_ctx] before that; [k] is what follows them. *)
Lemma wp_configure_ctx_policy p o cfg c w (Q : Z * SCFConnectionImpl -> World -> Prop) :
  at_ p o cfg c -> args p o w ->
  (forall c' w', life_of w' = life_of w -> at_ p o cfg c' ->
     wp (SCF_SetPolicy p (cc_role cfg) (MapCertVerifyPolicy (cc_certVerifyPolicy cfg))
           (sl_policyMode (GetSecurityLevelMapping (cc_securityLevel cfg))))
       (fun ret w2 => if negb (ret =? SCF_SUCCESS) then Q (ret, c') w2
                      else wp (after_policy cfg p c') Q w2) w') ->
  wp (configure_ctx c) Q w.
Proof.
  intros Hat Ha Hk. unfold configure_ctx.
  apply wp_meth_bind, wp_this, wp_meth_bind, wp_this. simpl.
  rewrite (at_ctx _ _ _ _ Hat), (at_config _ _ _ _ Hat).
  do 2 quiet_walk. apply wp_meth_bind, wp_call.
  eapply wp_mono; [apply Hk; [congruence|done]|]. intros ret w2 Hw2. simpl.
  cbv beta in Hw2. by destruct (negb (ret =? SCF_SUCCESS)).
Qed.

Lemma wp_configure_ctx owned p o cfg c n w (Q : Z * SCFConnectionImpl -> World -> Prop) :
  life_inv owned (life_of w) -> at_ p o cfg c -> args p o w -> counted p n w ->
  (forall r c' w', configured cfg p n (life_of w) (life_of w') -> at_ p o cfg c' ->
     Q (r, c') w') ->
  wp (configure_ctx c) Q w.
Proof.
  intros Hinv Hat Ha Hc HQ. eapply wp_configure_ctx_policy; [done..|].
  intros c1 w1 L1 At1. eapply wp_mono; [apply safe_SetPolicy, (args_of_life p o w w1 L1 Ha)|].
  intros ret w2 L2%life_frame_of. rewrite L1 in L2. destruct (negb (ret =? SCF_SUCCESS)).
  - apply HQ; [by left|done].
  - eapply wp_after_policy; [by rewrite L2|done|by eapply args_of_life| |].
    + unfold counted in *. by rewrite L2.
    + intros r c3 w3 Hcf At3. rewrite L2 in Hcf. by apply HQ.
Qed.

Lemma setup_engine_early c w ret c' w' :
  setup_engine c w = Some ((Some ret, c'), w') -> ret = SCF_ERRNO_INVALID_PARAM.
Proof.
  cbv [setup_engine call update this_ gets lib mret M_ret Method_ret mbind M_bind Method_bind].
  intros Hs. repeat (case_match; simplify_eq; try done).
Qed.

Lemma at_set_ctx q p o cfg c : at_ p o cfg c -> at_ q o cfg (set_m_policyCtx q c).
Proof. intros []. by split. Qed.

(** The engine and the new context, to the configuration of that context. *)
Lemma wp_SetupPolicyContext_new owned p o cfg c w (Q : Z * SCFConnectionImpl -> World -> Prop) :
  life_inv owned (life_of w) -> at_ p o cfg c -> args p o w ->
  (forall r q c' w', r <> SCF_SUCCESS -> life_of w' = life_of w -> q = p \/ q = nullptr ->
     at_ q o cfg c' -> Q (r, c') w') ->
  (forall c' w', up (life_of w) = true -> life_of w' = life_new_ctx (life_of w) ->
     at_ (w_next w) o cfg c' -> args (w_next w) o w' -> wp (configure_ctx c') Q w') ->
  wp (SetupPolicyContext c) Q w.
Proof.
  intros Hinv Hat Ha Hold Hnew. unfold SetupPolicyContext.
  pose proof (quiet_setup_engine p o cfg c w Hat Ha) as Hq. apply wp_meth_bind. unfold wp in Hq |- *.
  destruct (setup_engine c w) as [[[early c1] w1]|] eqn:E; [|done]. destruct Hq as [L1%policy_life_of At1].
  simpl in At1 |- *. destruct early as [ret|].
  { apply (wp_meth_ret ret). apply setup_engine_early in E as ->. by eapply Hold; [|done|left|]. }
  apply wp_meth_bind, wp_call, wp_SCF_CreatePolicyCtx; [intros w2 L2|intros w2 Hup L2]; apply wp_meth_bind, wp_update; simpl.
  - apply wp_meth_ret. eapply Hold; [done|congruence|by right|by eapply at_set_ctx].
  - assert (Hu : up (life_of w) = true) by (rewrite <- L1; exact Hup). clear Hup.
    assert (Hl2 : life_of w2 = life_new_ctx (life_of w)) by (rewrite <- L1; exact L2).
    assert (Hn : w_next w1 = w_next w) by exact (f_equal l_next L1). rewrite Hn.
    pose proof (li_next _ _ Hinv) as Hpos. simpl in Hpos.
    destruct (w_next w =? nullptr) eqn:E0; bools; [unfold nullptr in *; lia|].
    apply Hnew; [exact Hu|done|by eapply at_set_ctx|]. apply args_held. rewrite Hl2.
    split; [intros _; simpl; rewrite lookup_insert_eq; by eexists|].
    apply (held_new_ctx owned p o); [done|by apply args_held].
Qed.

(** The context is new and is the only one created; a failure before it leaves the old one
    or none. *)
Lemma wp_SetupPolicyContext owned p o cfg c w (Q : Z * SCFConnectionImpl -> World -> Prop) :
  life_inv owned (life_of w) -> at_ p o cfg c -> args p o w ->
  (forall r q c' w', r <> SCF_SUCCESS -> life_of w' = life_of w -> q = p \/ q = nullptr ->
     at_ q o cfg c' -> Q (r, c') w') ->
  (forall r c' w', up (life_of w) = true ->
     configured cfg (w_next w) 1 (life_new_ctx (life_of w)) (life_of w') ->
     at_ (w_next w) o cfg c' -> Q (r, c') w') ->
  wp (SetupPolicyContext c) Q w.
Proof.
  intros Hinv Hat Ha Hold Hnew. eapply wp_SetupPolicyContext_new; [done..|].
  intros c2 w2 Hup Hl2 At2 Ha2. eapply (wp_configure_ctx _ (w_next w) o cfg c2 1); [|done..| |].
  - rewrite Hl2. by apply inv_new_ctx.
  - split; [rewrite Hl2; apply lookup_insert_eq|unfold UINT32_MAX; lia].
  - intros r c' w' Hcf At'. apply Hnew; [done| |done]. by rewrite <- Hl2.
Qed.
End setup.

(** ** Steps that free *)

(** Drop the object [o], and the client's reference to the context [p]. *)
Definition drop_obj (o : Z) (l : Life) : Life :=
  match l_ref l !! o with
  | Some q =>
      match l_cnt l !! q with
      | Some n => life_set_ref (delete o (l_ref l)) (release q n l)
      | None => l
      end
  | None => l
  end.
Definition drop_ctx (p : Z) (l : Life) : Life :=
  match l_cnt l !! p with Some n => release p n l | None => l end.

Section freeing.
Context `{Library} {A : TlsAdaptor} `{!TlsAdaptorSafe A} `{SecureC} `{FileSystem} `{Decryptor}
  `{Uninit} `{FileAlloc}.
Implicit Types (c : SCFConnectionImpl) (w : World).

Lemma not_null_cnt owned l : life_inv owned l -> l_cnt l !! nullptr = None.
Proof.
  intros Hinv. apply eq_None_not_Some. intros Hs%(li_ctx_addr _ _ Hinv). unfold nullptr in *. lia.
Qed.
Lemma not_null_ref owned l : life_inv owned l -> l_ref l !! nullptr = None.
Proof.
  intros Hinv. apply eq_None_not_Some. intros Hs%(li_obj_addr _ _ Hinv). unfold nullptr in *. lia.
Qed.

Lemma inv_drop_obj owned o l : life_inv owned l -> life_inv owned (drop_obj o l).
Proof.
  intros Hinv. unfold drop_obj. destruct (l_ref l !! o) as [q|] eqn:Hq; [|done].
  destruct (l_cnt l !! q) as [n|] eqn:Hn; [|done]. by apply inv_free_obj.
Qed.

Lemma inv_drop_ctx owned p l :
  life_inv owned l -> p ∈ owned -> life_inv (owned ∖ {[p]}) (drop_ctx p l).
Proof.
  intros Hinv Hp. unfold drop_ctx. destruct (li_owned _ _ Hinv _ Hp) as [n Hn]. rewrite Hn.
  by apply inv_free_ctx.
Qed.

Lemma drop_obj_up o l : up (drop_obj o l) = up l.
Proof. unfold drop_obj. by repeat case_match. Qed.

Lemma wp_drop_obj owned o w (Q : Z -> World -> Prop) :
  life_inv owned (life_of w) -> (o <> nullptr -> obj_there o w) ->
  (forall r w', life_of w' = (if up (life_of w) then drop_obj o (life_of w) else life_of w) ->
     Q r w') ->
  wp (SCF_FreePolicyObj o) Q w.
Proof.
  intros Hinv Ho HQ. destruct (decide (o = nullptr)) as [->|Hn].
  { apply wp_ret, HQ. unfold drop_obj. rewrite (not_null_ref _ _ Hinv). by destruct (up _). }
  destruct (inv_obj_live _ _ _ Hinv (Ho Hn)) as (x & Hx & [c Hc]).
  assert (Hup : up (life_of w) = w_scfInitialized w && w_adaptor w) by done.
  destruct (w_scfInitialized w) eqn:Ei, (w_adaptor w) eqn:Ea;
    try (unfold SCF_FreePolicyObj; rewrite (proj2 (Z.eqb_neq _ _) Hn);
         apply wp_ready; [congruence|intros _; apply HQ; by rewrite Hup]).
  eapply wp_SCF_FreePolicyObj; [done|done| |done|by eapply inv_count|done|done|].
  - intros E. rewrite E in Hc. pose proof (not_null_cnt _ _ Hinv) as Hz. simpl in Hz.
    by rewrite lookup_fmap, Hc in Hz.
  - intros r w' Hw'. apply HQ. rewrite Hup. unfold drop_obj. simpl.
    by rewrite !lookup_fmap, Hx; simpl; rewrite lookup_fmap, Hc.
Qed.

Lemma wp_drop_ctx owned p w (Q : Z -> World -> Prop) :
  life_inv owned (life_of w) -> (p <> nullptr -> live_ctx p w) ->
  (forall r w', life_of w' = (if up (life_of w) then drop_ctx p (life_of w) else life_of w) ->
     Q r w') ->
  wp (SCF_FreePolicyCtx p) Q w.
Proof.
  intros Hinv Hp HQ. destruct (decide (p = nullptr)) as [->|Hn].
  { apply wp_ret, HQ. unfold drop_ctx. rewrite (not_null_cnt _ _ Hinv). by destruct (up _). }
  destruct (Hp Hn) as [c Hc].
  assert (Hup : up (life_of w) = w_scfInitialized w && w_adaptor w) by done.
  destruct (w_scfInitialized w) eqn:Ei, (w_adaptor w) eqn:Ea;
    try (unfold SCF_FreePolicyCtx; rewrite (proj2 (Z.eqb_neq _ _) Hn);
         apply wp_ready; [congruence|intros _; apply HQ; by rewrite Hup]).
  eapply wp_SCF_FreePolicyCtx; [done|done|by eapply inv_count|done|done|].
  intros r w' Hw'. apply HQ. rewrite Hup. unfold drop_ctx. simpl. by rewrite lookup_fmap, Hc.
Qed.
End freeing.

(** ** The methods *)
Section methods.
Context `{Library} {A : TlsAdaptor} `{!TlsAdaptorSafe A} `{SecureC} `{FileSystem} `{Decryptor}
  `{Uninit} `{FileAlloc}.
Implicit Types (c : SCFConnectionImpl) (w : World) (owned : gset Z).

Lemma quiet_Close p o cfg : quiet p o cfg Close.
Proof. unfold Close. quiet. Qed.

Lemma quiet_HandshakeStep p o cfg : quiet p o cfg HandshakeStep.
Proof. unfold HandshakeStep. do 2 quiet_step; [quiet|]. bools. quiet. Qed.

(** The methods a user may call on a connection at any time. *)
Inductive UseOp : Type :=
| UHandshakeStep | UClose
| URead (data len : Z) (outs : bool) | UWrite (data len : Z) (outs : bool)
| UGetTLSVersion | UGetPeerCertificate | UGetNativeHandle | UTriggerKeyUpdate
| USetUserData (userData : Z).

Definition ignore {X} (m : Meth X) : Meth unit := _ ← m; mret tt.

Definition use (u : UseOp) : Meth unit :=
  match u with
  | UHandshakeStep => ignore HandshakeStep
  | UClose => ignore Close
  | URead data len outs => ignore (Read data len outs)
  | UWrite data len outs => ignore (Write data len outs)
  | UGetTLSVersion => ignore GetTLSVersion
  | UGetPeerCertificate => ignore GetPeerCertificate
  | UGetNativeHandle => ignore GetNativeHandle
  | UTriggerKeyUpdate => ignore TriggerKeyUpdate
  | USetUserData userData => SetUserData userData
  end.

Lemma quiet_use p o cfg u : quiet p o cfg (use u).
Proof.
  destruct u; unfold use, ignore, Read, Write, GetTLSVersion, GetPeerCertificate,
    GetNativeHandle, TriggerKeyUpdate, SetUserData;
    try (apply quiet_bind; [first [apply quiet_HandshakeStep | apply quiet_Close]|]);
    quiet.
Qed.

(** [Cleanup] drops the object and the context, if the library is up. *)
Definition cleaned (p o : Z) (l : Life) : Life := if up l then drop_ctx p (drop_obj o l) else l.

Record closed (cfg : SCFConnectionConfig) (c : SCFConnectionImpl) : Prop := {
  cl_at : at_ nullptr nullptr cfg c;
  cl_state : m_state c = SCF_CONN_CLOSED;
  cl_transport : m_transport c = nullptr
}.

Ltac run_meth := 
  cbv [call update this_ gets lib mret M_ret Method_ret mbind M_bind Method_bind];
  intros; repeat (case_match; simplify_eq; try done).

Lemma Close_state c w r c' w' :
  m_state c <> SCF_CONN_CLOSED -> m_state c <> SCF_CONN_CLOSING ->
  Close c w = Some ((r, c'), w') -> m_state c' = SCF_CONN_CLOSED.
Proof. unfold Close. intros ? ?. run_meth. simpl in *. bools. destruct_or?; by bools. Qed.

Lemma Cleanup_end c w u c' w' :
  Cleanup c w = Some ((u, c'), w') -> m_state c' = SCF_CONN_CLOSED /\ m_transport c' = nullptr.
Proof. unfold Cleanup. run_meth; simpl in *; bools; split; done. Qed.

Lemma wp_with_run {X} (m : M X) (Q : X -> World -> Prop) w :
  wp m Q w -> wp m (fun x w' => Q x w' /\ m w = Some (x, w')) w.
Proof. unfold wp. by destruct (m w) as [[x w']|]. Qed.

(** The two releases of [Cleanup]; the fields are cleared whatever the API did. *)
Lemma wp_clear_obj owned p o cfg c w :
  life_inv owned (life_of w) -> at_ p o cfg c -> m_state c <> SCF_CONN_CONNECTED ->
  (o <> nullptr -> obj_there o w) ->
  wp ((if negb (o =? nullptr)
       then _ ← call (SCF_FreePolicyObj o); update (set_m_policyObj nullptr) else mret tt) c)
    (fun r w' => life_of w' = (if up (life_of w) then drop_obj o (life_of w) else life_of w) /\
                 at_ p nullptr cfg r.2) w.
Proof.
  intros Hinv [] Hs Ho. destruct (o =? nullptr) eqn:E; bools; cbn [negb].
  - apply wp_meth_ret. rewrite E in *. unfold drop_obj. rewrite (not_null_ref _ _ Hinv).
    split; [by destruct (up _)|by split].
  - apply wp_meth_bind, wp_call. eapply wp_drop_obj; [done..|]. intros r w' Hw'.
    apply wp_update. split; [done|by split].
Qed.

Lemma wp_clear_ctx owned p cfg c w :
  life_inv owned (life_of w) -> at_ p nullptr cfg c -> (p <> nullptr -> live_ctx p w) ->
  wp ((if negb (p =? nullptr)
       then _ ← call (SCF_FreePolicyCtx p); update (set_m_policyCtx nullptr) else mret tt) c)
    (fun r w' => life_of w' = (if up (life_of w) then drop_ctx p (life_of w) else life_of w) /\
                 at_ nullptr nullptr cfg r.2) w.
Proof.
  intros Hinv [] Hp. destruct (p =? nullptr) eqn:E; bools; cbn [negb].
  - apply wp_meth_ret. rewrite E in *. unfold drop_ctx. rewrite (not_null_cnt _ _ Hinv).
    split; [by destruct (up _)|by split].
  - apply wp_meth_bind, wp_call. eapply wp_drop_ctx; [done..|]. intros r w' Hw'.
    apply wp_update. split; [done|by split].
Qed.

Lemma wp_Cleanup owned p o cfg c w (Q : unit * SCFConnectionImpl -> World -> Prop) :
  life_inv owned (life_of w) -> at_ p o cfg c -> (p <> nullptr -> p ∈ owned) ->
  (o <> nullptr -> obj_there o w) ->
  (forall c' w', life_of w' = cleaned p o (life_of w) -> closed cfg c' -> Q (tt, c') w') ->
  wp (Cleanup c) Q w.
Proof.
  intros Hinv Hat Hp Ho HQ.
  assert (Ha : args p o w).
  { split; intros Hn; [by eapply inv_ctx_live, Hp|by eapply inv_obj_live, Ho]. }
  enough (Hend : wp (Cleanup c) (fun r w' => life_of w' = cleaned p o (life_of w) /\
                                   at_ nullptr nullptr cfg r.2) w).
  { eapply wp_mono; [by apply wp_with_run|].
    intros [[] c'] w' [[Hl Hat'] Hrun%Cleanup_end]. apply HQ; [done|]. by split; [|apply Hrun..]. }
  unfold Cleanup. apply wp_meth_bind, wp_this, wp_meth_bind. simpl.
  eapply (wp_mono _ (fun r w' => life_of w' = life_of w /\ at_ p o cfg r.2 /\
                                 m_state r.2 <> SCF_CONN_CONNECTED)).
  { destruct (_ || _) eqn:E.
    - eapply wp_mono; [apply wp_with_run, quiet_Close; eassumption|].
      intros [r c'] w' [[Hl%policy_life_of Hat'] Hrun]. split_and!; [done..|]. simpl.
      apply Close_state in Hrun; [by rewrite Hrun|..]; bools; by destruct E as [->%Z.eqb_eq| ->%Z.eqb_eq].
    - apply (wp_meth_ret SCF_SUCCESS). bools. done. }
  intros [r1 c1] w1 (L1 & At1 & S1). simpl in *.
  apply wp_meth_bind, wp_this. simpl. rewrite (at_obj _ _ _ _ At1).
  rewrite <- L1 in Hinv |- *.
  eapply wp_meth_bind, wp_mono; [eapply wp_clear_obj; try eassumption|].
  { intros Hn. by apply (stable_obj_there _ _ _ (proj2 (life_frame_of _ _) L1)), Ho. }
  intros [[] c2] w2 [L2 At2]. simpl in *.
  assert (Hinv2 : life_inv owned (life_of w2))
    by (rewrite L2; destruct (up _); [by apply inv_drop_obj|done]).
  apply wp_meth_bind, wp_this. simpl. rewrite (at_ctx _ _ _ _ At2).
  eapply wp_meth_bind, wp_mono; [eapply wp_clear_ctx; try eassumption|].
  { intros Hn. by eapply inv_ctx_live, Hp. }
  intros [[] c3] w3 [L3 At3]. simpl in *.
  eapply wp_quiet_end; [|exact At3|split; by intros []|].
  { quiet. }
  intros x c4 w4 L4 At4. split; [|done]. rewrite L4, L3, L2. unfold cleaned.
  destruct (up (life_of w1)) eqn:Eu; [by rewrite drop_obj_up, Eu|by rewrite Eu].
Qed.

(** The object of a connection, and its socket. *)
Lemma wp_CreatePolicyObj p o cfg n c w :
  at_ p o cfg c -> args p o w -> counted p n w -> 0 < w_next w ->
  wp (CreatePolicyObj c) (fun r w' =>
    (life_of w' = life_of w /\ r.1 = SCF_ERRNO_MEM_ALLOC /\ r.2 = set_m_policyObj nullptr c) \/
    (life_of w' = life_new_obj p n (life_of w) /\ at_ p (w_next w) cfg r.2)) w.
Proof.
  intros Hat Ha Hc Hpos. unfold CreatePolicyObj. apply wp_meth_bind, wp_this. simpl.
  rewrite (at_ctx _ _ _ _ Hat). apply wp_meth_bind, wp_call. eapply wp_CreateObj; [exact Hc|..];
    intros w1 L1; apply wp_meth_bind, wp_update; simpl.
  - apply wp_meth_ret. left. done.
  - destruct (w_next w =? nullptr) eqn:E; bools; [unfold nullptr in *; lia|].
    eapply wp_quiet_end.
    { instantiate (3 := p). instantiate (2 := w_next w). instantiate (1 := cfg).
      quiet. }
    { destruct Hat as [? ? ? Hcon]. split; [done..|]. intros Hs. split; [by apply Hcon|done]. }
    { split; [|intros _; by eapply new_obj_live]. intros _.
      by eapply new_obj_ctx_live. }
    intros x c2 w2 L2 At2. right. split; [congruence|done].
Qed.
End methods.

(** ** What setting up and connecting does to the heap

    From the life [l] and the handles [p], [o] of a connection to the life and the handles
    afterwards, over every path of [Connect], [Listen] and the new connection of [Accept]. *)
Inductive outcome (cfg : SCFConnectionConfig) (p o : Z) (l : Life) : Z -> Z -> Life -> Prop :=
| out_none q : q = p \/ q = nullptr -> outcome cfg p o l q o l
| out_ctx l1 : up l = true ->
    configured cfg (l_next l) 1 (life_new_ctx l) l1 -> outcome cfg p o l (l_next l) o l1
| out_lost l1 : up l = true ->
    configured cfg (l_next l) 1 (life_new_ctx l) l1 -> outcome cfg p o l (l_next l) nullptr l1
| out_obj l1 n : up l = true ->
    configured cfg (l_next l) 1 (life_new_ctx l) l1 -> l_cnt l1 !! l_next l = Some n -> n <= 2 ->
    outcome cfg p o l (l_next l) (l_next l1) (life_new_obj (l_next l) n l1)
| out_clean p' o' l' :
    outcome cfg p o l p' o' l' -> outcome cfg p o l nullptr nullptr (cleaned p' o' l').

(** The handles of a connection are its own: the others keep the contexts [Fc] and the
    objects [Fo]. *)
Definition owns (Fc Fo : gset Z) (p o : Z) (l : Life) : Prop :=
  exists owned, life_inv owned l /\ Fc ⊆ owned /\ (forall q, q ∈ Fo -> is_Some (l_ref l !! q)) /\
    (p <> nullptr -> p ∈ owned /\ p ∉ Fc) /\ (o <> nullptr -> is_Some (l_ref l !! o) /\ o ∉ Fo).

Section heap.
Context {Fc Fo : gset Z}.
Implicit Types (l : Life).

Lemma configured_count cfg l l1 :
  configured cfg (l_next l) 1 (life_new_ctx l) l1 ->
  exists n, l_cnt l1 !! l_next l = Some n /\ 1 <= n <= 2.
Proof.
  intros [->|[_ ->]]; simpl; rewrite lookup_insert_eq; eexists; (split; [done|lia]).
Qed.

Lemma owns_new_ctx p o l : owns Fc Fo p o l -> owns Fc Fo (l_next l) o (life_new_ctx l).
Proof.
  intros (owned & Hinv & HFc & HFo & Hp & Ho). exists ({[l_next l]} ∪ owned).
  split_and!; [by apply inv_new_ctx|set_solver|done| |done].
  intros _. split; [set_solver|]. intros Hin%HFc%(li_owned _ _ Hinv)%(li_ctx_addr _ _ Hinv). lia.
Qed.

Lemma owns_new_obj q n p o l :
  l_cnt l !! q = Some n -> n < UINT32_MAX -> owns Fc Fo p o l ->
  owns Fc Fo p o (life_new_obj q n l) /\ owns Fc Fo p (l_next l) (life_new_obj q n l).
Proof.
  intros Hn Hmax (owned & Hinv & HFc & HFo & Hp & Ho).
  assert (Hkeep : forall x, is_Some (l_ref l !! x) -> is_Some (l_ref (life_new_obj q n l) !! x))
    by (intros x Hx; apply lookup_insert_is_Some'; by right).
  split; exists owned; (split_and!; [by apply inv_new_obj|done|by intros x ?%HFo%Hkeep|done|]).
  - intros (? & ?)%Ho. split; [by apply Hkeep|done].
  - intros _. split; [simpl; rewrite lookup_insert_eq; by eexists|].
    intros Hin%HFo%(li_obj_addr _ _ Hinv). lia.
Qed.

Lemma owns_configured cfg p o l l1 :
  owns Fc Fo p o l -> configured cfg (l_next l) 1 (life_new_ctx l) l1 ->
  owns Fc Fo (l_next l) o l1.
Proof.
  intros Hown Hcf. apply owns_new_ctx in Hown. destruct Hcf as [->|[_ ->]]; [done|].
  apply owns_new_obj; [apply lookup_insert_eq|unfold UINT32_MAX; lia|done].
Qed.

Lemma owns_null p o l : owns Fc Fo p o l -> owns Fc Fo nullptr o l /\ owns Fc Fo p nullptr l.
Proof.
  intros (owned & ? & ? & ? & ? & ?). split; exists owned; split_and!; try done; by intros [].
Qed.

Lemma drop_obj_others o q l :
  q <> o -> is_Some (l_ref l !! q) -> is_Some (l_ref (drop_obj o l) !! q).
Proof.
  intros Hne Hq. unfold drop_obj. repeat case_match; [|done..]. simpl. by rewrite lookup_delete_ne.
Qed.

Lemma drop_ctx_ref p l : l_ref (drop_ctx p l) = l_ref l.
Proof. unfold drop_ctx. by case_match. Qed.

Lemma owns_cleaned p o l : owns Fc Fo p o l -> owns Fc Fo nullptr nullptr (cleaned p o l).
Proof.
  intros Hown. unfold cleaned. destruct (up l);
    [|by eapply owns_null, (proj1 (owns_null _ _ _ Hown))].
  destruct Hown as (owned & Hinv & HFc & HFo & Hp & Ho).
  assert (Hinv1 := inv_drop_obj owned o l Hinv).
  assert (HFo1 : forall q, q ∈ Fo -> is_Some (l_ref (drop_obj o l) !! q)).
  { intros q Hq. destruct (decide (o = nullptr)) as [->|Hn].
    - unfold drop_obj. rewrite (not_null_ref _ _ Hinv). by apply HFo.
    - apply drop_obj_others; [|by apply HFo]. intros ->. by apply Ho in Hn as [_ ?]. }
  destruct (decide (p = nullptr)) as [->|Hn].
  - unfold drop_ctx. rewrite (not_null_cnt _ _ Hinv1). exists owned.
    split_and!; try done; by intros [].
  - destruct (Hp Hn) as [Hin Hout]. exists (owned ∖ {[p]}).
    split_and!; [by apply inv_drop_ctx|set_solver| |by intros []..].
    intros q Hq. rewrite drop_ctx_ref. by apply HFo1.
Qed.

(** Every outcome leaves the connection with handles of its own. *)
Lemma owns_outcome cfg p o l p' o' l' :
  owns Fc Fo p o l -> outcome cfg p o l p' o' l' -> owns Fc Fo p' o' l'.
Proof.
  intros Hown. induction 1 as [q [->| ->]|l1 _ Hcf|l1 _ Hcf|l1 n _ Hcf Hn Hle|p' o' l' _ IH].
  - done.
  - by apply owns_null in Hown as [? _].
  - by eapply owns_configured.
  - eapply owns_configured, owns_null in Hown; [|done]. apply Hown.
  - eapply owns_new_obj; [done|unfold UINT32_MAX; lia|by eapply owns_configured].
  - by apply owns_cleaned.
Qed.
End heap.

Section outcomes.
Context `{Library} {A : TlsAdaptor} `{!TlsAdaptorSafe A} `{SecureC} `{FileSystem} `{Decryptor}
  `{Uninit} `{FileAlloc}.
Context (Fc Fo : gset Z).
Implicit Types (c : SCFConnectionImpl) (w : World) (l : Life).

(** A method ended in one of the outcomes. *)
Definition ends {X} cfg p o l (r : X * SCFConnectionImpl) (w : World) : Prop :=
  exists p' o', outcome cfg p o l p' o' (life_of w) /\ at_ p' o' cfg r.2.

Lemma owns_args p o w : owns Fc Fo p o (life_of w) -> args p o w.
Proof.
  intros (owned & Hinv & _ & _ & Hp & Ho). split; intros Hn.
  - eapply inv_ctx_live; [done|]. by apply Hp.
  - eapply inv_obj_live; [done|]. destruct (Ho Hn) as [[q (x & Hx & _)%life_obj] _]. by exists x.
Qed.

Lemma wp_owned_Cleanup p o cfg c w (Q : unit * SCFConnectionImpl -> World -> Prop) :
  owns Fc Fo p o (life_of w) -> at_ p o cfg c ->
  (forall c' w', life_of w' = cleaned p o (life_of w) -> closed cfg c' -> Q (tt, c') w') ->
  wp (Cleanup c) Q w.
Proof.
  intros (owned & Hinv & _ & _ & Hp & Ho) Hat HQ. eapply wp_Cleanup; [done..| | |done].
  - intros Hn. by apply Hp.
  - intros Hn. destruct (Ho Hn) as [[q (x & Hx & _)%life_obj] _]. by exists x.
Qed.

(** The error exit of [Connect]. *)
Lemma wp_fail cfg p o l p' o' (ret : Z) c w :
  owns Fc Fo p o l -> outcome cfg p o l p' o' (life_of w) ->
  m_policyCtx c = p' -> m_policyObj c = o' -> m_config c = cfg ->
  wp ((_ ← update (set_m_state SCF_CONN_ERROR); _ ← Cleanup; mret ret) c) (ends cfg p o l) w.
Proof.
  intros Hown Hout Hp Ho Hc. apply wp_meth_bind, wp_update, wp_meth_bind. simpl.
  eapply wp_owned_Cleanup; [by eapply owns_outcome|by split|].
  intros c' w' Hl [Hat _ _]. apply wp_meth_ret. exists nullptr, nullptr.
  split; [|done]. rewrite Hl. by apply out_clean.
Qed.

(** The state after a successful [SetupPolicyContext] and quiet steps. *)
Lemma ready_for_obj cfg p o l l1 w :
  owns Fc Fo p o l -> configured cfg (l_next l) 1 (life_new_ctx l) l1 -> life_of w = l1 ->
  args (l_next l) o w /\ 0 < w_next w /\
  exists n, counted (l_next l) n w /\ l_cnt l1 !! l_next l = Some n /\ n <= 2.
Proof.
  intros Hown Hcf Hw. destruct (configured_count _ _ _ Hcf) as (n & Hn & Hb).
  assert (Hown1 := owns_configured _ _ _ _ _ Hown Hcf). rewrite <- Hw in Hown1.
  split; [by apply owns_args|]. split.
  - destruct Hown1 as (? & Hinv & _). exact (li_next _ _ Hinv).
  - exists n. split_and!; [split; [by rewrite Hw|unfold UINT32_MAX; lia]|done|lia].
Qed.

Lemma wp_Connect host port p o cfg c w :
  owns Fc Fo p o (life_of w) -> at_ p o cfg c ->
  wp (Connect host port c) (ends cfg p o (life_of w)) w.
Proof.
  intros Hown Hat. destruct Hown as (owned & Hinv & Hrest) eqn:Ho. clear Ho.
  unfold Connect. apply wp_meth_bind.
  eapply wp_SetupPolicyContext; [exact Hinv|exact Hat|by apply owns_args|..].
  - intros r q c1 w1 Hr L1 Hq At1. simpl. rewrite (proj2 (Z.eqb_neq _ _) Hr). simpl.
    apply wp_meth_bind, wp_update, wp_meth_ret. exists q, o. rewrite L1.
    split; [by apply out_none|]. by destruct At1.
  - intros r c1 w1 Hup Hcf At1. simpl. destruct (r =? SCF_SUCCESS) eqn:Er; simpl.
    2: { apply wp_meth_bind, wp_update, wp_meth_ret. exists (w_next w), o.
         split; [by apply (out_ctx _ _ _ (life_of w))|]. by destruct At1. }
    eapply wp_quiet; [apply quiet_SetupTransportClient|exact At1
      |exact (proj1 (ready_for_obj _ _ _ _ _ _ Hown Hcf eq_refl))|].
    intros r2 c2 w2 L2 At2. rewrite <- L2 in Hcf. destruct (negb (r2 =? SCF_SUCCESS)).
    { destruct At2. eapply wp_fail; [done|by apply (out_ctx _ _ _ (life_of w))|done..]. }
    destruct (ready_for_obj _ _ _ _ _ w2 Hown Hcf eq_refl) as (Ha2 & Hpos & n & Hc & Hn & Hle).
    apply wp_meth_bind. eapply wp_mono; [by eapply wp_CreatePolicyObj|].
    intros [r3 c3] w3 [(L3 & -> & ->)|(L3 & At3)]; simpl in *.
    + destruct At2. eapply wp_fail; [done|rewrite L3; by apply (out_lost _ _ _ (life_of w))|done..].
    + assert (Hout : outcome cfg p o (life_of w) (w_next w) (w_next w2) (life_of w3))
        by (rewrite L3; by apply (out_obj _ _ _ (life_of w) (life_of w2))).
      destruct (negb (r3 =? SCF_SUCCESS)).
      { destruct At3. by eapply wp_fail. }
      eapply wp_quiet_end; [apply quiet_HandshakeStep|exact At3| |].
      { apply owns_args. by eapply owns_outcome. }
      intros x c4 w4 L4 At4. exists (w_next w), (w_next w2). by rewrite L4.
Qed.

Lemma wp_Listen host port p o cfg c w :
  owns Fc Fo p o (life_of w) -> at_ p o cfg c ->
  wp (Listen host port c) (ends cfg p o (life_of w)) w.
Proof.
  intros Hown Hat. pose proof Hown as (owned & Hinv & _).
  unfold Listen. apply wp_meth_bind.
  eapply wp_SetupPolicyContext; [exact Hinv|exact Hat|by apply owns_args|..].
  - intros r q c1 w1 Hr L1 Hq At1. simpl. rewrite (proj2 (Z.eqb_neq _ _) Hr). simpl.
    apply wp_meth_bind, wp_update, wp_meth_ret. exists q, o. rewrite L1.
    split; [by apply out_none|]. by destruct At1.
  - intros r c1 w1 Hup Hcf At1. simpl.
    assert (Hctx : outcome cfg p o (life_of w) (w_next w) o (life_of w1))
      by by apply (out_ctx _ _ _ (life_of w)).
    destruct (negb (r =? SCF_SUCCESS)).
    { apply wp_meth_bind, wp_update, wp_meth_ret. exists (w_next w), o. split; [done|].
      by destruct At1. }
    eapply wp_quiet_end; [|exact At1|exact (proj1 (ready_for_obj _ _ _ _ _ _ Hown Hcf eq_refl))|].
    { apply quiet_bind; [apply quiet_SetupTransportServer|quiet]. }
    intros x c2 w2 L2 At2. exists (w_next w), o. by rewrite L2.
Qed.

Lemma wp_accept_child cfg c w :
  owns Fc Fo nullptr nullptr (life_of w) -> at_ nullptr nullptr cfg c ->
  wp (accept_child c) (ends cfg nullptr nullptr (life_of w)) w.
Proof.
  intros Hown Hat. pose proof Hown as (owned & Hinv & _).
  unfold accept_child. apply wp_meth_bind.
  eapply wp_SetupPolicyContext; [exact Hinv|exact Hat|by apply owns_args|..].
  - intros r q c1 w1 Hr L1 Hq At1. simpl. rewrite (proj2 (Z.eqb_neq _ _) Hr).
    apply wp_meth_ret. exists q, nullptr. rewrite L1. split; [by apply out_none|done].
  - intros r c1 w1 Hup Hcf At1. simpl. destruct (negb (r =? SCF_SUCCESS)).
    { apply wp_meth_ret. exists (w_next w), nullptr.
      split; [by apply (out_ctx _ _ _ (life_of w))|done]. }
    destruct (ready_for_obj _ _ _ _ _ w1 Hown Hcf eq_refl) as (Ha1 & Hpos & n & Hc & Hn & Hle).
    apply wp_meth_bind. eapply wp_mono; [by eapply wp_CreatePolicyObj|].
    intros [r2 c2] w2 [(L2 & -> & ->)|(L2 & At2)]; simpl in *.
    + apply wp_meth_ret. exists (w_next w), nullptr. rewrite L2.
      split; [by apply (out_ctx _ _ _ (life_of w))|by destruct At1].
    + assert (Hout : outcome cfg nullptr nullptr (life_of w) (w_next w) (w_next w1) (life_of w2))
        by (rewrite L2; by apply (out_obj _ _ _ (life_of w) (life_of w1))).
      eapply wp_quiet_end; [|exact At2| |].
      2: { apply owns_args. by eapply owns_outcome. }
      { assert (w_next w1 <> nullptr) by (unfold nullptr; lia). quiet. apply quiet_HandshakeStep. }
      intros x c4 w4 L4 At4. exists (w_next w), (w_next w1). by rewrite L4.
Qed.

(** [Accept] leaves the listening connection as it is; the new connection starts from
    nothing, and a failed one is gone. *)
Lemma wp_Accept p o cfg c w :
  owns Fc Fo nullptr nullptr (life_of w) -> at_ p o cfg c -> args p o w ->
  wp (Accept c) (fun r w' => r.2 = c /\
    match r.1 with
    | Some child => ends cfg nullptr nullptr (life_of w) ((), child) w'
    | None => outcome cfg nullptr nullptr (life_of w) nullptr nullptr (life_of w')
    end) w.
Proof.
  intros Hown Hat Ha. unfold Accept. do 2 apply wp_meth_bind, wp_this. simpl.
  assert (Hnone : forall w', life_of w' = life_of w ->
            outcome cfg nullptr nullptr (life_of w) nullptr nullptr (life_of w'))
    by (intros w' ->; apply out_none; by left).
  destruct (_ || _); [apply wp_meth_ret; split; [done|by apply Hnone]|].
  apply wp_meth_bind, wp_call, wp_lib. intros t _. simpl.
  destruct (t =? nullptr); [apply wp_meth_ret; split; [done|by apply Hnone]|].
  apply wp_meth_bind, wp_this. simpl. rewrite (at_config _ _ _ _ Hat).
  apply wp_meth_bind, wp_call, wp_lib. intros p' _. simpl. destruct (p' =? nullptr).
  { do 2 (apply wp_meth_bind, wp_call, wp_lib; intros ? _).
    apply wp_meth_ret. split; [done|by apply Hnone]. }
  do 1 apply wp_meth_bind, wp_this. apply wp_meth_bind, wp_call, wp_gets. apply wp_meth_bind. simpl.
  set (newConn := if negb _ then set_m_ownsCryptoEngine _ _ else _).
  assert (Hat' : at_ nullptr nullptr cfg newConn) by (unfold newConn; by case_match).
  eapply (wp_mono _ (fun r w' => r.2 = c /\ life_of w' = life_of w)).
  { destruct (_ && _); [|done]. apply wp_call.
    eapply (wp_frame_end (fun _ => True));
      [eapply safe_method; [apply safe_a_SetCryptoEngine|done]|exact I|done]. }
  intros [[] c1] w1 [-> L1]. rewrite <- L1 in Hown |- *. clear Hnone L1.
  apply wp_meth_bind, wp_call. eapply wp_mono; [by apply wp_accept_child|].
  intros [keep child] w2 (p2 & o2 & Hout & At2). simpl. destruct keep.
  - apply wp_meth_ret. split; [done|]. by exists p2, o2.
  - apply wp_meth_bind, wp_call. unfold destroy. apply wp_bind.
    eapply wp_owned_Cleanup; [by eapply owns_outcome|exact At2|]. intros c3 w3 L3 Hcl.
    apply wp_ret, wp_meth_ret. split; [done|]. simpl. rewrite L3. by apply out_clean.
Qed.
End outcomes.
