(* ===== verification/ConnPool.v ===== *)
(** * Histories of secure connections

    A process with any number of connections over one library: connections are created,
    used, accepted from others and destroyed in any order, the library is initialised and
    taken down at any time. The theorems hold in every state such a process reaches,
    whatever the network and OpenSSL answer. *)
From Stdlib Require Import ZArith Lia Ascii String.
From stdpp Require Import base list fin_maps gmap strings.
From S2P Require Import Prelude Errno Types FileCheck FileCtx Machine.
From S2P Require Import Adaptor Api Conn Lifecycle Config Connection ConnSafe.
Open Scope Z_scope.

(** ** The handles of a pool of connections *)
Definition handles (f : SCFConnectionImpl -> Z) (cs : list SCFConnectionImpl) : list Z :=
  filter (fun p => p <> nullptr) (f <$> cs).
Definition ctxs : list SCFConnectionImpl -> list Z := handles m_policyCtx.
Definition objs : list SCFConnectionImpl -> list Z := handles m_policyObj.

(** A connection that says it is connected has finished its handshake and has an object. *)
Definition conn_ok (c : SCFConnectionImpl) : Prop :=
  m_state c = SCF_CONN_CONNECTED -> m_handshakeDone c = true /\ m_policyObj c <> nullptr.

Definition pool_ok (cs : list SCFConnectionImpl) (l : Life) : Prop :=
  Forall conn_ok cs /\ NoDup (ctxs cs) /\ NoDup (objs cs) /\
  exists owned, life_inv owned l /\ (forall p, p ∈ ctxs cs -> p ∈ owned) /\
                (forall o, o ∈ objs cs -> is_Some (l_ref l !! o)).

Lemma handles_cons f c cs :
  handles f (c :: cs) = if decide (f c <> nullptr) then f c :: handles f cs else handles f cs.
Proof. done. Qed.

Lemma handles_spec f c cs p :
  p ∈ handles f (c :: cs) <-> (p = f c /\ f c <> nullptr) \/ p ∈ handles f cs.
Proof. rewrite handles_cons. case_decide; set_solver. Qed.

Lemma handles_nodup f c cs :
  NoDup (handles f (c :: cs)) <-> (f c <> nullptr -> f c ∉ handles f cs) /\ NoDup (handles f cs).
Proof. rewrite handles_cons. case_decide; [rewrite NoDup_cons|]; naive_solver. Qed.

#[export] Instance handles_perm f : Proper ((≡ₚ) ==> (≡ₚ)) (handles f).
Proof. intros cs cs' Hp. unfold handles. by rewrite Hp. Qed.

#[export] Instance pool_ok_perm : Proper ((≡ₚ) ==> (=) ==> iff) pool_ok.
Proof.
  assert (Himp : forall cs cs' l, cs ≡ₚ cs' -> pool_ok cs l -> pool_ok cs' l).
  { intros cs cs' l Hp (Hok & Hc & Ho & owned & ? & Hco & Hoo). unfold pool_ok, ctxs, objs in *.
    split_and!; [by rewrite <- Hp|by rewrite <- Hp..|].
    exists owned. split_and!; [done|by setoid_rewrite <- Hp|by setoid_rewrite <- Hp]. }
  intros cs cs' Hp l ? <-. split; by apply Himp.
Qed.

Section pools.
Implicit Types (c : SCFConnectionImpl) (cs : list SCFConnectionImpl) (l : Life).

Abbreviation others cs := (owns (list_to_set (ctxs cs)) (list_to_set (objs cs))).

Lemma pool_owns_none cs l : pool_ok cs l -> others cs nullptr nullptr l.
Proof.
  intros (_ & _ & _ & owned & ? & Hco & Hoo). exists owned.
  split_and!; [done|set_solver|set_solver|by intros []..].
Qed.

Lemma owns_pool_none cs l :
  Forall conn_ok cs -> NoDup (ctxs cs) -> NoDup (objs cs) ->
  others cs nullptr nullptr l -> pool_ok cs l.
Proof.
  intros ??? (owned & ? & ? & ? & _). split_and!; try done. exists owned.
  split_and!; [done|set_solver|set_solver].
Qed.

Lemma pool_owns c cs l : pool_ok (c :: cs) l -> others cs (m_policyCtx c) (m_policyObj c) l.
Proof.
  intros (_ & Hc & Ho & owned & ? & Hco & Hoo). unfold ctxs, objs in *.
  apply handles_nodup in Hc as [Hc _], Ho as [Ho _]. setoid_rewrite handles_spec in Hco.
  setoid_rewrite handles_spec in Hoo. exists owned. unfold ctxs, objs.
  split_and!; [done|set_solver|set_solver|set_solver|]. intros Hn. split; [|set_solver].
  apply Hoo. by left.
Qed.

Lemma owns_pool c cs l :
  conn_ok c -> Forall conn_ok cs -> NoDup (ctxs cs) -> NoDup (objs cs) ->
  others cs (m_policyCtx c) (m_policyObj c) l -> pool_ok (c :: cs) l.
Proof.
  intros ? ? ? ? (owned & ? & HFc & HFo & Hp & Ho). split_and!; [by constructor| | |].
  - apply handles_nodup. split; [|done]. intros [_ Hn]%Hp. set_solver.
  - apply handles_nodup. split; [|done]. intros [_ Hn]%Ho. set_solver.
  - exists owned. unfold ctxs, objs in *. split_and!; [done| |].
    + intros p [[-> Hn]|]%handles_spec; [by apply Hp|set_solver].
    + intros o [[-> Hn]|]%handles_spec; [by apply Ho|set_solver].
Qed.

Lemma pool_tail c cs l :
  pool_ok (c :: cs) l -> Forall conn_ok cs /\ NoDup (ctxs cs) /\ NoDup (objs cs).
Proof.
  intros (Hok & Hc & Ho & _). apply handles_nodup in Hc as [_ ?], Ho as [_ ?].
  by apply Forall_cons in Hok as [_ ?].
Qed.

Lemma at_conn_ok p o cfg c : at_ p o cfg c -> conn_ok c.
Proof. intros [_ <- _ Hc]. done. Qed.

Lemma conn_ok_at c : conn_ok c -> at_ (m_policyCtx c) (m_policyObj c) (m_config c) c.
Proof. by split. Qed.
End pools.

(** ** Steps *)

(** What the owner of a connection may do with it. *)
Inductive ConnOp : Type :=
| OConnect (host : string) (port : Z)
| OListen (host : string) (port : Z)
| OUse (u : UseOp)
| OAccept
| ODestroy.

Section steps.
Context `{Library} {A : TlsAdaptor} `{!TlsAdaptorSafe A} `{SecureC} `{FileSystem} `{Decryptor}
  `{Uninit} `{FileAlloc}.
Implicit Types (c : SCFConnectionImpl) (cs : list SCFConnectionImpl) (w : World).

(** The connections that exist after the operation: the connection itself unless it was
    destroyed, and an accepted one. *)
Definition run_op (op : ConnOp) (c : SCFConnectionImpl) : M (list SCFConnectionImpl) :=
  match op with
  | OConnect host port => r ← Connect host port c; mret [r.2]
  | OListen host port => r ← Listen host port c; mret [r.2]
  | OUse u => r ← use u c; mret [r.2]
  | OAccept => r ← Accept c; mret (option_list r.1 ++ [r.2])
  | ODestroy => _ ← destroy c; mret []
  end.

Inductive pool_reach : list SCFConnectionImpl -> World -> Prop :=
| pool_start : pool_reach [] world0
| pool_init cs w flag settings r w' :
    pool_reach cs w -> SCF_Init flag settings w = Some (r, w') -> pool_reach cs w'
| pool_deinit cs w w' :
    pool_reach cs w -> SCF_DeInit w = Some (tt, w') -> pool_reach cs w'
| pool_create cs w cfg r w' :
    pool_reach cs w -> Create cfg w = Some (r, w') -> pool_reach (option_list r ++ cs) w'
| pool_op cs0 c cs w op out w' :
    pool_reach cs0 w -> cs0 ≡ₚ c :: cs -> run_op op c w = Some (out, w') ->
    pool_reach (out ++ cs) w'.

Lemma pool_after p o c c' cs l l' :
  pool_ok (c :: cs) l -> outcome (m_config c) (m_policyCtx c) (m_policyObj c) l p o l' ->
  at_ p o (m_config c) c' -> pool_ok (c' :: cs) l'.
Proof.
  intros Hp Hout Hat. destruct (pool_tail _ _ _ Hp) as (? & ? & ?). apply owns_pool; try done.
  - by eapply at_conn_ok.
  - rewrite (at_ctx _ _ _ _ Hat), (at_obj _ _ _ _ Hat).
    eapply owns_outcome; [by apply pool_owns|done].
Qed.

(** A new connection beside the others. *)
Lemma pool_new p o cfg c' cs l l' :
  pool_ok cs l -> outcome cfg nullptr nullptr l p o l' -> at_ p o cfg c' -> pool_ok (c' :: cs) l'.
Proof.
  intros Hp Hout Hat. pose proof Hp as (? & ? & ? & _). apply owns_pool; try done.
  - by eapply at_conn_ok.
  - rewrite (at_ctx _ _ _ _ Hat), (at_obj _ _ _ _ Hat).
    eapply owns_outcome; [by apply pool_owns_none|done].
Qed.

Lemma wp_run_op op c cs w :
  pool_ok (c :: cs) (life_of w) ->
  wp (run_op op c) (fun out w' => pool_ok (out ++ cs) (life_of w')) w.
Proof.
  intros Hp. pose proof (pool_owns _ _ _ Hp) as Hown. pose proof (owns_args _ _ _ _ _ Hown) as Ha.
  assert (Hat : at_ (m_policyCtx c) (m_policyObj c) (m_config c) c)
    by (apply conn_ok_at; destruct Hp as [Hok _]; by apply Forall_cons in Hok as [? _]).
  destruct op as [host port|host port|u| |]; simpl; apply wp_bind.
  - eapply wp_mono; [by eapply wp_Connect|]. intros [r c'] w' (p' & o' & Hout & Hat').
    apply wp_ret. by eapply pool_after.
  - eapply wp_mono; [by eapply wp_Listen|]. intros [r c'] w' (p' & o' & Hout & Hat').
    apply wp_ret. by eapply pool_after.
  - eapply wp_quiet_end; [apply quiet_use|done..|]. intros x c' w' Hl Hat'.
    apply wp_ret. eapply pool_after; [done| |done]. rewrite Hl. apply out_none. by left.
  - eapply wp_mono; [eapply wp_Accept; [by apply (pool_owns_none (c :: cs))|done..]|].
    intros [r c'] w' [-> Hr]. apply wp_ret. simpl in *. destruct r as [child|]; simpl.
    + destruct Hr as (p' & o' & Hout & Hat'). by eapply pool_new.
    + pose proof Hp as (? & ? & ? & _). apply owns_pool_none; [done..|].
      eapply owns_outcome; [by apply (pool_owns_none (c :: cs))|done].
  - unfold destroy. apply wp_bind. eapply wp_owned_Cleanup; [done..|].
    intros c' w' Hl _. do 2 apply wp_ret. simpl. destruct (pool_tail _ _ _ Hp) as (? & ? & ?).
    apply owns_pool_none; [done..|]. rewrite Hl. by apply owns_cleaned.
Qed.
End steps.

(** ** The theorems *)
Section theorems.
Context `{Library} {A : TlsAdaptor} `{!TlsAdaptorSafe A} `{SecureC} `{FileSystem} `{Decryptor}
  `{Uninit} `{FileAlloc}.
Implicit Types (c : SCFConnectionImpl) (cs : list SCFConnectionImpl) (w : World) (l : Life).

Lemma pool_ok_flags cs l b : pool_ok cs l -> pool_ok cs (life_set_flags b l).
Proof.
  intros (? & ? & ? & owned & ? & ? & ?). split_and!; try done. exists owned.
  split_and!; [by apply inv_set_flags|done..].
Qed.

Lemma pool_flags cs l : pool_ok cs l -> flags (l_init l) l.
Proof. intros (_ & _ & _ & owned & Hinv & _). by eapply inv_flags. Qed.

Lemma pool_reach_ok cs w : pool_reach cs w -> pool_ok cs (life_of w).
Proof.
  induction 1 as [|cs w flag settings r w' _ IH Hi|cs w w' _ IH Hd|cs w cfg r w' _ IH Hc
                 |cs0 c cs w op out w' _ IH Hp Hop].
  - split_and!; [done|constructor..|]. exists ∅. split_and!; [apply inv_start|set_solver..].
  - apply (wp_run (SCF_Init flag settings) (fun _ w' => pool_ok cs (life_of w')) w r w'); [|done].
    eapply wp_SCF_Init; [by eapply pool_flags|by intros ? ? ->|]. intros w2 ->.
    by apply pool_ok_flags.
  - apply (wp_run SCF_DeInit (fun _ w' => pool_ok cs (life_of w')) w tt w'); [|done].
    eapply wp_SCF_DeInit; [by eapply pool_flags|]. intros w2 ->. by apply pool_ok_flags.
  - apply (wp_run (Create cfg) (fun r w' => pool_ok (option_list r ++ cs) (life_of w')) w r w'); [|done].
    apply wp_bind, wp_lib. intros p _. apply wp_ret. destruct (p =? nullptr); [done|].
    eapply (pool_new nullptr nullptr cfg); [exact IH|apply out_none; by left|done].
  - rewrite Hp in IH. exact (wp_run _ _ _ _ _ (wp_run_op op c cs w IH) Hop).
Qed.

(** (C3) However many connections a process has, whatever it did with them before - connecting
    again, listening again, accepting, using, deleting, in any order - and whatever the network
    and the adaptor answer, over an adaptor that keeps its contract ([TlsAdaptorSafe]): no
    method of a connection uses a policy context or a policy object that is null or was freed,
    and every operation returns, the destructor included. This is about contexts, objects and
    the connections themselves; crypto engines and transports are not covered (a connection
    that was accepted can be left with the engine of a listener that was deleted). *)
Theorem connections_memory_safe cs w c op :
  pool_reach cs w -> c ∈ cs -> exists out w', run_op op c w = Some (out, w').
Proof.
  intros Hr [cs' Hp]%elem_of_Permutation. apply pool_reach_ok in Hr. rewrite Hp in Hr.
  pose proof (wp_run_op op _ _ _ Hr) as Hwp. unfold wp in Hwp.
  destruct (run_op op c w) as [[out w']|]; [by exists out, w'|done].
Qed.

(** (C4) Connections are isolated: over an adaptor that keeps its contract
    ([TlsAdaptorSafe]), in every reachable state no two of them share a context
    or an object, the handles they hold are alive, and one whose state is CONNECTED reports
    [IsConnected] and has a live object to read and write. *)
Theorem connections_isolated cs w :
  pool_reach cs w ->
  NoDup (ctxs cs) /\ NoDup (objs cs) /\
  forall c, c ∈ cs ->
    (m_policyCtx c <> nullptr -> live_ctx (m_policyCtx c) w) /\
    (m_policyObj c <> nullptr -> live_obj (m_policyObj c) w) /\
    (GetState c = SCF_CONN_CONNECTED -> IsConnected c = true /\ live_obj (m_policyObj c) w).
Proof.
  intros Hr%pool_reach_ok. pose proof Hr as (Hok & ? & ? & _). split_and!; [done..|].
  intros c Hc. rewrite Forall_forall in Hok. specialize (Hok c Hc).
  apply elem_of_Permutation in Hc as [cs' Hp]. rewrite Hp in Hr.
  apply pool_owns, owns_args in Hr as [Hctx Hobj]. split_and!; [done..|].
  intros Hs. destruct (Hok Hs) as [Hd Hn]. split; [|by apply Hobj].
  unfold IsConnected. unfold GetState in Hs. by rewrite Hs, Hd.
Qed.

(** *** A connection leaves nothing behind *)

(** The same contexts with the same counts, the same objects, the library up. *)
Definition same_heap (l l' : Life) : Prop :=
  l_cnt l' = l_cnt l /\ l_ref l' = l_ref l /\ up l' = up l.

Lemma cleaned_null owned l : life_inv owned l -> cleaned nullptr nullptr l = l.
Proof.
  intros Hinv. unfold cleaned, drop_ctx, drop_obj.
  rewrite (not_null_ref _ _ Hinv), (not_null_cnt _ _ Hinv). by destruct (up l).
Qed.

Lemma fresh_cnt owned l : life_inv owned l -> l_cnt l !! l_next l = None.
Proof. intros Hinv. apply eq_None_not_Some. intros Hs%(li_ctx_addr _ _ Hinv). lia. Qed.
Lemma fresh_ref owned l o : life_inv owned l -> l_next l <= o -> l_ref l !! o = None.
Proof. intros Hinv Ho. apply eq_None_not_Some. intros Hs%(li_obj_addr _ _ Hinv). lia. Qed.

Lemma cleaned_new_ctx owned l :
  life_inv owned l -> up l = true -> same_heap l (cleaned (l_next l) nullptr (life_new_ctx l)).
Proof.
  intros Hinv Hup. unfold cleaned, drop_obj, drop_ctx.
  rewrite (not_null_ref _ (life_new_ctx l) (inv_new_ctx _ _ Hinv)).
  change (up (life_new_ctx l)) with (up l). rewrite Hup. simpl. rewrite lookup_insert_eq.
  split_and!; try done. simpl. rewrite delete_insert_id; [done|by eapply fresh_cnt].
Qed.

Lemma cleaned_new_obj owned l :
  life_inv owned l -> up l = true ->
  same_heap l (cleaned (l_next l) (l_next (life_new_ctx l))
                 (life_new_obj (l_next l) 1 (life_new_ctx l))).
Proof.
  intros Hinv Hup. unfold cleaned.
  change (up (life_new_obj _ _ _)) with (up l). rewrite Hup. unfold drop_obj. simpl.
  rewrite !lookup_insert_eq. unfold drop_ctx. simpl. rewrite !lookup_insert_eq.
  split_and!; [simpl|simpl|done].
  - rewrite !insert_insert_eq, delete_insert_id; [done|by eapply fresh_cnt].
  - rewrite delete_insert_id; [done|]. eapply fresh_ref; [done|lia].
Qed.

(** The temporary object of [SetupPSK] and the context it keeps alive. *)
Definition one_leaked (l l' : Life) : Prop :=
  l_cnt l' = <[l_next l := 1]> (l_cnt l) /\
  l_ref l' = <[l_next l + 1 := l_next l]> (l_ref l) /\ up l' = up l.

Abbreviation psk_setup l := (life_new_obj (l_next l) 1 (life_new_ctx l)).

Lemma cleaned_psk_ctx owned l :
  life_inv owned l -> up l = true ->
  one_leaked l (cleaned (l_next l) nullptr (psk_setup l)).
Proof.
  intros Hinv Hup.
  assert (Hinv1 : life_inv ({[l_next l]} ∪ owned) (psk_setup l)).
  { apply inv_new_obj; [by apply inv_new_ctx|apply lookup_insert_eq|unfold UINT32_MAX; lia]. }
  unfold cleaned, drop_obj. change (up (psk_setup l)) with (up l). rewrite Hup.
  rewrite (not_null_ref _ _ Hinv1). unfold drop_ctx. simpl. rewrite lookup_insert_eq.
  split_and!; [simpl|done..]. by rewrite !insert_insert_eq.
Qed.

Lemma cleaned_psk_obj owned l :
  life_inv owned l -> up l = true ->
  one_leaked l (cleaned (l_next l) (l_next (psk_setup l))
                  (life_new_obj (l_next l) 2 (psk_setup l))).
Proof.
  intros Hinv Hup. unfold cleaned. change (up (life_new_obj _ _ _)) with (up l). rewrite Hup.
  unfold drop_obj. simpl. rewrite !lookup_insert_eq. unfold drop_ctx. simpl.
  rewrite !lookup_insert_eq. split_and!; [simpl|simpl|done].
  - by rewrite !insert_insert_eq.
  - rewrite delete_insert_id; [done|]. rewrite lookup_insert_ne by lia.
    eapply fresh_ref; [done|lia].
Qed.

Lemma cleaned_cleaned l l' p o :
  up l' = up l -> l_ref l' !! nullptr = None -> l_cnt l' !! nullptr = None ->
  p = nullptr -> o = nullptr -> cleaned p o l' = l'.
Proof.
  intros Hu Hr Hc -> ->. unfold cleaned, drop_obj, drop_ctx. rewrite Hr, Hc. by destruct (up l').
Qed.

(** Deleting a connection after any outcome. *)
Lemma outcome_cleaned cfg owned l p o l' :
  life_inv owned l -> up l = true -> outcome cfg nullptr nullptr l p o l' ->
  same_heap l (cleaned p o l') \/ cc_usePSK cfg = true /\ one_leaked l (cleaned p o l').
Proof.
  intros Hinv Hup.
  induction 1 as [q Hq|l1 _ [->|[? ->]]|l1 _ [->|[? ->]]|l1 n _ [->|[? ->]] Hn _|p' o' l' Hout IH].
  - assert (q = nullptr) as -> by by destruct Hq. left. by rewrite (cleaned_null _ _ Hinv).
  - left. by eapply cleaned_new_ctx.
  - right. split; [done|by eapply cleaned_psk_ctx].
  - left. by eapply cleaned_new_ctx.
  - right. split; [done|by eapply cleaned_psk_ctx].
  - simpl in Hn. rewrite lookup_insert_eq in Hn. simplify_eq. left. by eapply cleaned_new_obj.
  - simpl in Hn. rewrite lookup_insert_eq in Hn. simplify_eq. right.
    split; [done|by eapply cleaned_psk_obj].
  - pose proof (li_next _ _ Hinv). pose proof (not_null_cnt _ _ Hinv) as Hzc.
    pose proof (not_null_ref _ _ Hinv) as Hzr.
    destruct IH as [(Hc & Hr & Hu)|(? & Hc & Hr & Hu)].
    + left. by rewrite (cleaned_cleaned l); [..|done|done]; rewrite ?Hc, ?Hr.
    + right. split; [done|]. rewrite (cleaned_cleaned l); [done|done|..|done|done].
      * rewrite Hr, lookup_insert_ne; [done|unfold nullptr; lia].
      * rewrite Hc, lookup_insert_ne; [done|unfold nullptr; lia].
Qed.

Fixpoint run_uses (us : list UseOp) : Meth unit :=
  match us with
  | [] => mret tt
  | u :: us => _ ← use u; run_uses us
  end.

Lemma quiet_run_uses p o cfg us : quiet p o cfg (run_uses us).
Proof.
  induction us as [|u us IH]; simpl; [apply quiet_ret|].
  apply quiet_bind; [apply quiet_use|by intros].
Qed.

(** A whole connection: connect, use in any way, delete. *)
Definition connection_life (cfg : SCFConnectionConfig) (host : string) (port : Z)
    (us : list UseOp) : M unit :=
  r ← Connect host port (new_connection cfg);
  r ← run_uses us r.2;
  destroy r.2.

End theorems.

(** ** Witnesses: a client that connects over a network that answers *)
Section witnesses.
#[local] Existing Instance RefFileAlloc.

Definition client_cfg : SCFConnectionConfig :=
  conn_config SCF_SECURITY_128BIT SCF_ROLE_CLIENT EmptyString EmptyString EmptyString
    SCF_CERT_VERIFY_NONE EmptyString [] false.
Definition psk_cfg : SCFConnectionConfig :=
  conn_config SCF_SECURITY_128BIT SCF_ROLE_CLIENT EmptyString EmptyString EmptyString
    SCF_CERT_VERIFY_NONE "node" (bytes "shared secret") true.

Definition client0 : SCFConnectionImpl := new_connection client_cfg.
Definition w_created : World :=
  match Create client_cfg w_up with Some (_, w') => w' | None => w_up end.
Definition connected : list SCFConnectionImpl * World :=
  match run_op (OConnect "localhost" 443) client0 w_created with
  | Some (out, w') => (out, w')
  | None => ([], w_created)
  end.

Lemma pool_up : pool_reach [] w_up.
Proof.
  refine (pool_init [] world0 SCF_INIT_FLAG_OPENSSL (Some "/usr/lib64"%string) 0 w_up pool_start _).
  by vm_compute.
Qed.

Lemma pool_one : pool_reach [client0] w_created.
Proof. refine (pool_create [] w_up client_cfg (Some client0) w_created pool_up _). by vm_compute. Qed.

Lemma run_connected :
  run_op (OConnect "localhost" 443) client0 w_created = Some (connected.1, connected.2).
Proof. by vm_compute. Qed.

Lemma pool_connected : pool_reach connected.1 connected.2.
Proof.
  pose proof run_connected as Hrun. revert Hrun. generalize connected. intros [out w'] Hrun.
  cbn [fst snd] in *. rewrite <- (app_nil_r out).
  eapply pool_op; [exact pool_one|reflexivity|exact Hrun].
Qed.

Lemma connections_memory_safe_witness :
  pool_reach [client0] w_created /\
  exists out w', run_op (OConnect "localhost" 443) client0 w_created = Some (out, w').
Proof.
  split; [exact pool_one|].
  exact (connections_memory_safe [client0] w_created client0 (OConnect "localhost" 443)
           pool_one ltac:(set_solver)).
Defined.

Definition conn1 : SCFConnectionImpl := List.hd client0 connected.1.

Lemma connections_isolated_witness :
  GetState conn1 = SCF_CONN_CONNECTED /\ IsConnected conn1 = true /\
  live_obj (m_policyObj conn1) connected.2.
Proof.
  destruct (connections_isolated connected.1 connected.2 pool_connected) as (_ & _ & Hall).
  assert (Hin : conn1 ∈ connected.1) by (vm_compute; apply list_elem_of_here).
  assert (Hs : GetState conn1 = SCF_CONN_CONNECTED) by (vm_compute; reflexivity).
  destruct (Hall conn1 Hin) as (_ & _ & Hc). split; [exact Hs|exact (Hc Hs)].
Defined.

(** The pre-shared-key client leaves its temporary object and context behind, the other
    client nothing. *)
Definition left_behind (cfg : SCFConnectionConfig) : nat * nat :=
  match connection_life cfg "localhost" 443 [UClose] w_up with
  | Some (_, w') => (size (w_ctxs w'), size (w_objs w'))
  | None => (0, 0)%nat
  end.

End witnesses.
