(* ===== verification/ConnHeap.v ===== *)
(** * What connections keep on the heap

    Any number of connections, with the rules that a connection connects or listens when it
    has no context, that the library is taken down when none has, and that none is configured
    with a pre-shared key ([SetupPSK] loses an object, see [ConnPool]): the contexts and the
    objects of the process are then exactly those the connections hold. *)
From Stdlib Require Import ZArith Lia Ascii String.
From stdpp Require Import base list fin_maps gmap strings.
From S2P Require Import Prelude Errno Types FileCheck FileCtx Machine.
From S2P Require Import Adaptor Api Conn Lifecycle Config Connection ConnSafe ConnPool.
Open Scope Z_scope.

Implicit Types (c : SCFConnectionImpl) (cs : list SCFConnectionImpl) (l : Life).

(** ** One connection beside the contexts [F] and the objects [G] of the others *)
Definition own_ctx (p : Z) : gset Z := if decide (p = nullptr) then ∅ else {[p]}.
Definition own_obj (o p : Z) : gmap Z Z := if decide (o = nullptr) then ∅ else {[o := p]}.

Record sole (F : gset Z) (G : gmap Z Z) (p o : Z) (l : Life) : Prop := {
  so_inv : life_inv (own_ctx p ∪ F) l;
  so_ref : l_ref l = own_obj o p ∪ G;
  so_ctx : p ∉ F;
  so_obj : G !! o = None;
  so_null : o <> nullptr -> p <> nullptr;
  so_up : p <> nullptr -> up l = true
}.

Lemma own_ctx_pos p : 0 < p -> own_ctx p = {[p]}.
Proof. intros Hp. unfold own_ctx, nullptr. by rewrite decide_False by lia. Qed.
Lemma own_ctx_null : own_ctx nullptr = ∅.
Proof. done. Qed.
Lemma own_obj_null p : own_obj nullptr p = ∅.
Proof. done. Qed.

Section sole.
Context {F : gset Z} {G : gmap Z Z}.

Lemma sole_drop_obj p o l :
  sole F G p o l -> life_inv (own_ctx p ∪ F) (drop_obj o l) /\ l_ref (drop_obj o l) = G.
Proof.
  intros [Hinv Href Hp Ho Hn Hup]. split; [by apply inv_drop_obj|].
  unfold drop_obj. destruct (decide (o = nullptr)) as [->|Hne].
  - rewrite (not_null_ref _ _ Hinv). by rewrite Href, own_obj_null, (left_id_L ∅ (∪)).
  - assert (Hl : l_ref l !! o = Some p).
    { rewrite Href. unfold own_obj. rewrite decide_False by done. apply lookup_union_Some_l, lookup_singleton_eq. }
    destruct (li_ref _ _ Hinv _ _ Hl) as [n Hc]. rewrite Hl, Hc. simpl. rewrite Href.
    unfold own_obj. rewrite decide_False by done. by rewrite <- insert_union_singleton_l, delete_insert_id.
Qed.

Lemma sole_cleaned p o l : sole F G p o l -> sole F G nullptr nullptr (cleaned p o l).
Proof.
  intros Hs. destruct (sole_drop_obj _ _ _ Hs) as [Hinv1 Href1]. pose proof Hs as [Hinv Href Hp Ho Hn Hup].
  assert (Hnull : (nullptr ∉ F) /\ G !! nullptr = None).
  { split.
    - intros Hin. assert (is_Some (l_cnt l !! nullptr)) as Hc by (apply (li_owned _ _ Hinv); set_solver).
      rewrite (not_null_cnt _ _ Hinv) in Hc. by destruct Hc.
    - rewrite <- Href1. by apply (not_null_ref _ _ Hinv1). }
  unfold cleaned. destruct (up l) eqn:Eu.
  - destruct (decide (p = nullptr)) as [->|Hne].
    + unfold drop_ctx. rewrite (not_null_cnt _ _ Hinv1). split; try tauto.
      by rewrite Href1, own_obj_null, (left_id_L ∅ (∪)).
    + split; try tauto.
      * replace (own_ctx nullptr ∪ F) with ((own_ctx p ∪ F) ∖ {[p]}).
        -- apply inv_drop_ctx; [done|]. unfold own_ctx. rewrite decide_False by done. set_solver.
        -- unfold own_ctx at 1. rewrite decide_False by done. rewrite own_ctx_null. set_solver.
      * by rewrite drop_ctx_ref, Href1, own_obj_null, (left_id_L ∅ (∪)).
  - destruct (decide (p = nullptr)) as [->|Hne]; [|by apply Hup in Hne].
    destruct (decide (o = nullptr)) as [->|Hno]; [done|by apply Hn in Hno].
Qed.

(** A new context, and an object of it. *)
Lemma sole_new_ctx l : sole F G nullptr nullptr l -> up l = true -> sole F G (l_next l) nullptr (life_new_ctx l).
Proof.
  intros [Hinv Href Hp Ho _ _] Hup. pose proof (li_next _ _ Hinv) as Hpos. split; try done.
  - rewrite own_ctx_pos by done. rewrite own_ctx_null in Hinv.
    replace ({[l_next l]} ∪ F) with ({[l_next l]} ∪ (∅ ∪ F)) by set_solver. by apply inv_new_ctx.
  - intros Hin. assert (is_Some (l_cnt l !! l_next l)) as Hc by (apply (li_owned _ _ Hinv); set_solver).
    apply (li_ctx_addr _ _ Hinv) in Hc. lia.
Qed.

Lemma sole_new_obj p l n :
  sole F G p nullptr l -> p <> nullptr -> l_cnt l !! p = Some n -> n < UINT32_MAX ->
  sole F G p (l_next l) (life_new_obj p n l).
Proof.
  intros [Hinv Href Hp _ _ Hup] Hne Hc Hn. pose proof (li_next _ _ Hinv) as Hpos.
  assert (Hfresh : l_ref l !! l_next l = None) by (eapply fresh_ref; [done|lia]).
  rewrite own_obj_null, (left_id_L ∅ (∪)) in Href. split; try done.
  - by apply inv_new_obj.
  - simpl. rewrite Href. unfold own_obj, nullptr. rewrite decide_False by lia.
    by rewrite insert_union_singleton_l.
  - by rewrite <- Href.
Qed.

Lemma outcome_up cfg p o l p' o' l' : outcome cfg p o l p' o' l' -> up l' = up l.
Proof.
  induction 1 as [|l1 _ [->|[_ ->]]|l1 _ [->|[_ ->]]|l1 n _ [->|[_ ->]]|p' o' l' _ IH]; try done.
  rewrite <- IH. unfold cleaned. destruct (up l') eqn:E; [|done]. rewrite <- E.
  rewrite <- (drop_obj_up o' l'). unfold drop_ctx. by case_match.
Qed.

Lemma sole_outcome cfg l p o l' :
  cc_usePSK cfg = false -> sole F G nullptr nullptr l -> outcome cfg nullptr nullptr l p o l' ->
  sole F G p o l'.
Proof.
  intros Hpsk Hs.
  assert (Hcf : forall q n l1 l2, configured cfg q n l1 l2 -> l2 = l1)
    by (intros q n l1 l2 [->|[E _]]; [done|by rewrite Hpsk in E]).
  induction 1 as [q Hq|l1 Hup Hc|l1 Hup Hc|l1 n Hup Hc Hn Hle|p' o' l' _ IH].
  - by assert (q = nullptr) as -> by by destruct Hq.
  - rewrite (Hcf _ _ _ _ Hc). by apply sole_new_ctx.
  - rewrite (Hcf _ _ _ _ Hc). by apply sole_new_ctx.
  - rewrite (Hcf _ _ _ _ Hc) in *. apply sole_new_obj; [by apply sole_new_ctx| |done|unfold UINT32_MAX; lia].
    pose proof (li_next _ _ (so_inv _ _ _ _ _ Hs)). unfold nullptr. lia.
  - by apply sole_cleaned.
Qed.
End sole.

(** ** Many connections *)
Definition holds (cs : list SCFConnectionImpl) (o q : Z) : Prop :=
  exists c, c ∈ cs /\ m_policyObj c = o /\ o <> nullptr /\ m_policyCtx c = q.

(** A connection without a pre-shared key; an object comes with its context. *)
Definition conn_wf c : Prop :=
  conn_ok c /\ cc_usePSK (m_config c) = false /\ (m_policyObj c <> nullptr -> m_policyCtx c <> nullptr).

Record heap_ok (cs : list SCFConnectionImpl) (l : Life) : Prop := {
  ho_inv : life_inv (list_to_set (ctxs cs)) l;
  ho_ctxs : NoDup (ctxs cs);
  ho_objs : NoDup (objs cs);
  ho_ref : forall o q, l_ref l !! o = Some q <-> holds cs o q;
  ho_conn : forall c, c ∈ cs -> conn_wf c;
  ho_up : ctxs cs <> [] -> up l = true
}.

#[export] Instance heap_ok_perm : Proper ((≡ₚ) ==> (=) ==> iff) heap_ok.
Proof.
  assert (Himp : forall cs cs' l, cs ≡ₚ cs' -> heap_ok cs l -> heap_ok cs' l).
  { intros cs cs' l Hp [Hi Hc Ho Hr Hw Hu].
    assert (Hpc : ctxs cs ≡ₚ ctxs cs') by (unfold ctxs; by rewrite Hp).
    split; [|by rewrite <- Hpc|unfold objs; by rewrite <- Hp| |by setoid_rewrite <- Hp|].
    - replace (list_to_set (ctxs cs')) with (list_to_set (C := gset Z) (ctxs cs)); [done|].
      apply set_eq. intros x. rewrite !elem_of_list_to_set. by rewrite Hpc.
    - intros o q. rewrite Hr. unfold holds. by setoid_rewrite <- Hp.
    - intros Hn. apply Hu. intros E. rewrite E in Hpc. by apply Permutation_nil_l in Hpc. }
  intros cs cs' Hp l ? <-. split; by apply Himp.
Qed.

Lemma own_ctx_set c cs :
  own_ctx (m_policyCtx c) ∪ list_to_set (ctxs cs) =@{gset Z} list_to_set (ctxs (c :: cs)).
Proof.
  unfold own_ctx, ctxs. rewrite handles_cons. case_decide as Hn; case_decide; try done; set_solver.
Qed.

Lemma holds_obj cs o q : holds cs o q -> o ∈ objs cs.
Proof.
  intros (c & Hin & <- & Hn & _). unfold objs, handles. apply list_elem_of_filter. split; [done|].
  by apply list_elem_of_fmap_2.
Qed.

Lemma heap_split c cs l :
  heap_ok (c :: cs) l ->
  sole (list_to_set (ctxs cs)) (delete (m_policyObj c) (l_ref l)) (m_policyCtx c) (m_policyObj c) l /\
  forall o q, delete (m_policyObj c) (l_ref l) !! o = Some q <-> holds cs o q.
Proof.
  intros [Hi Hc Ho Hr Hw Hu].
  assert (Hrest : forall o q, delete (m_policyObj c) (l_ref l) !! o = Some q <-> holds cs o q).
  { intros o q. rewrite lookup_delete_Some, Hr. split.
    - intros [Hne (x & [->|Hin]%elem_of_cons & Hx & Hn & Hq)]; [done|]. by exists x.
    - intros Hh. pose proof (holds_obj _ _ _ Hh) as Hin. destruct Hh as (x & Hx & Hxo & Hn & Hq).
      split; [|exists x; split_and!; [by right|done..]].
      intros E. apply handles_nodup in Ho as [Ho _]. apply Ho; [congruence|]. by rewrite E. }
  split; [|done]. apply handles_nodup in Hc as [Hc1 Hc2]. split.
  - by rewrite own_ctx_set.
  - apply map_eq. intros o. apply option_eq. intros q. unfold own_obj. case_decide as E.
    + rewrite (left_id_L ∅ (∪)), lookup_delete_Some. split; [|by intros [_ ?]]. intros Hq. split; [|done].
      apply Hr in Hq as (x & _ & _ & Hn & _). congruence.
    + rewrite <- insert_union_singleton_l, insert_delete_eq.
      assert (Hown : l_ref l !! m_policyObj c = Some (m_policyCtx c)).
      { apply Hr. exists c. by split_and!; [left|..]. }
      by rewrite insert_id.
  - destruct (decide (m_policyCtx c = nullptr)) as [E|E]; rewrite elem_of_list_to_set; [|by apply Hc1].
    rewrite E. unfold ctxs, handles. rewrite list_elem_of_filter. tauto.
  - apply lookup_delete_eq.
  - by apply (Hw c); left.
  - intros Hn. apply Hu. unfold ctxs. rewrite handles_cons. by rewrite decide_True.
Qed.

Lemma heap_join c cs G l :
  sole (list_to_set (ctxs cs)) G (m_policyCtx c) (m_policyObj c) l ->
  (forall o q, G !! o = Some q <-> holds cs o q) ->
  NoDup (ctxs cs) -> NoDup (objs cs) -> (forall x, x ∈ cs -> conn_wf x) -> conn_ok c ->
  cc_usePSK (m_config c) = false -> (ctxs cs <> [] -> up l = true) -> heap_ok (c :: cs) l.
Proof.
  intros [Hi Hr Hc Ho Hn Hu] HG Hnc Hno Hw Hok Hpsk Hup. split.
  - by rewrite <- own_ctx_set.
  - apply handles_nodup. split; [|done]. intros _ Hin. apply Hc. by apply elem_of_list_to_set.
  - apply handles_nodup. split; [|done]. intros Hne Hin.
    unfold objs, handles in Hin. apply list_elem_of_filter in Hin as [_ (x & Hx & Hin)%list_elem_of_fmap_1].
    assert (Hh : holds cs (m_policyObj c) (m_policyCtx x)) by (by exists x).
    apply HG in Hh. by rewrite Ho in Hh.
  - intros o q. rewrite Hr. unfold own_obj. case_decide as E.
    + rewrite (left_id_L ∅ (∪)), HG. split.
      * intros (x & Hx & ? & ? & ?). exists x. by split_and!; [right|..].
      * intros (x & [->|Hin]%elem_of_cons & Hxo & Hne & Hq); [congruence|]. by exists x.
    + rewrite <- insert_union_singleton_l. split.
      * intros [[<- <-]|[Hne Hq%HG]]%lookup_insert_Some; [exists c; by split_and!; [left|..]|].
        destruct Hq as (x & Hx & ? & ? & ?). exists x. by split_and!; [right|..].
      * intros (x & [->|Hin]%elem_of_cons & Hxo & Hne & Hq).
        -- subst. apply lookup_insert_eq.
        -- assert (Hh : G !! o = Some q) by (apply HG; by exists x).
           rewrite lookup_insert_ne; [done|]. intros Eo. by rewrite Eo, Hh in Ho.
  - intros x [->|Hin]%elem_of_cons; [|by apply Hw]. by split_and!.
  - intros Hne. unfold ctxs in Hne. rewrite handles_cons in Hne. case_decide as E; [by apply Hu|by apply Hup].
Qed.

(** No connection of its own. *)
Lemma heap_sole cs l : heap_ok cs l -> sole (list_to_set (ctxs cs)) (l_ref l) nullptr nullptr l.
Proof.
  intros [Hi Hc Ho Hr Hw Hu]. split; try done.
  - by rewrite own_ctx_null, (left_id_L ∅ (∪)).
  - by rewrite own_obj_null, (left_id_L ∅ (∪)).
  - rewrite elem_of_list_to_set. unfold ctxs, handles. rewrite list_elem_of_filter. tauto.
  - by apply (not_null_ref _ _ Hi).
Qed.

(** Nothing is left when no connection is. *)
Lemma heap_empty l : heap_ok [] l -> l_cnt l = ∅ /\ l_ref l = ∅.
Proof.
  intros [Hi _ _ Hr _ _]. assert (Hrefs : l_ref l = ∅).
  { apply map_empty. intros o. apply eq_None_not_Some. intros [q Hq].
    apply Hr in Hq as (c & Hin & _). by apply not_elem_of_nil in Hin. }
  split; [|done]. apply map_empty. intros p. apply eq_None_not_Some. intros [n Hn].
  destruct (li_cnt _ _ Hi _ _ Hn) as [Hc Hb]. rewrite Hrefs in Hc. unfold refs in Hc.
  rewrite map_filter_empty, map_size_empty in Hc. rewrite decide_False in Hc by set_solver. lia.
Qed.

(** ** Histories *)
Section heap_steps.
Context `{Library} {A : TlsAdaptor} `{!TlsAdaptorSafe A} `{SecureC} `{FileSystem} `{Decryptor}
  `{Uninit} `{FileAlloc}.
Implicit Types (w : World).

(** A connection connects or listens when it has no context. *)
Definition heap_disc (op : ConnOp) c : Prop :=
  match op with OConnect _ _ | OListen _ _ => m_policyCtx c = nullptr | _ => True end.

Inductive heap_reach : list SCFConnectionImpl -> World -> Prop :=
| heap_start : heap_reach [] world0
| heap_init cs w flag settings r w' :
    heap_reach cs w -> SCF_Init flag settings w = Some (r, w') -> heap_reach cs w'
| heap_deinit cs w w' :
    heap_reach cs w -> ctxs cs = [] -> SCF_DeInit w = Some (tt, w') -> heap_reach cs w'
| heap_create cs w cfg r w' :
    heap_reach cs w -> cc_usePSK cfg = false -> Create cfg w = Some (r, w') ->
    heap_reach (option_list r ++ cs) w'
| heap_op cs0 c cs w op out w' :
    heap_reach cs0 w -> cs0 ≡ₚ c :: cs -> heap_disc op c -> run_op op c w = Some (out, w') ->
    heap_reach (out ++ cs) w'.

Lemma heap_ok_pool cs l : heap_ok cs l -> pool_ok cs l.
Proof.
  intros [Hi Hc Ho Hr Hw _]. split_and!; [|done..|].
  - apply Forall_forall. intros c Hin. by apply Hw.
  - exists (list_to_set (ctxs cs)). split_and!; [done|set_solver|]. intros o Hin.
    unfold objs, handles in Hin. apply list_elem_of_filter in Hin as [Hn (c & -> & Hin)%list_elem_of_fmap_1].
    exists (m_policyCtx c). apply Hr. by exists c.
Qed.

(** What [heap_join] asks of the other connections. *)
Lemma heap_tail c cs l :
  heap_ok (c :: cs) l ->
  NoDup (ctxs cs) /\ NoDup (objs cs) /\ (forall x, x ∈ cs -> conn_wf x) /\ conn_wf c /\
  (ctxs cs <> [] -> up l = true).
Proof.
  intros [Hi Hc Ho Hr Hw Hu]. split_and!.
  - by apply handles_nodup in Hc as [_ ?].
  - by apply handles_nodup in Ho as [_ ?].
  - intros x Hin. apply Hw. by right.
  - apply Hw. by left.
  - intros Hn. apply Hu. unfold ctxs in *. rewrite handles_cons. by case_decide.
Qed.

Lemma heap_after c cs l c' l' p o :
  heap_ok (c :: cs) l -> sole (list_to_set (ctxs cs)) (delete (m_policyObj c) (l_ref l)) p o l' ->
  at_ p o (m_config c) c' -> up l' = up l -> heap_ok (c' :: cs) l'.
Proof.
  intros Hp Hs [Hpc Hpo Hcfg Hok] Hup. destruct (heap_split _ _ _ Hp) as [_ HG].
  destruct (heap_tail _ _ _ Hp) as (? & ? & ? & (_ & ? & _) & Hu). rewrite <- Hpc, <- Hpo in Hs.
  eapply heap_join; [done..| |by rewrite Hcfg|by rewrite Hup].
  intros Hst. split; [by apply Hok|]. rewrite Hpo. by apply Hok.
Qed.

Lemma wp_heap_op op c cs w :
  heap_ok (c :: cs) (life_of w) -> heap_disc op c ->
  wp (run_op op c) (fun out w' => heap_ok (out ++ cs) (life_of w')) w.
Proof.
  intros Hp Hd. pose proof (heap_ok_pool _ _ Hp) as Hpool.
  pose proof (pool_owns _ _ _ Hpool) as Hown. pose proof (owns_args _ _ _ _ _ Hown) as Ha.
  destruct (heap_split _ _ _ Hp) as [Hs HG]. destruct (heap_tail _ _ _ Hp) as (Hnc & Hno & Hw & (Hok & Hpsk & Hnull) & Hu).
  assert (Hat : at_ (m_policyCtx c) (m_policyObj c) (m_config c) c) by by apply conn_ok_at.
  assert (Hconn : m_policyCtx c = nullptr -> forall (r : Z * SCFConnectionImpl) w',
    ends (m_config c) (m_policyCtx c) (m_policyObj c) (life_of w) r w' ->
    heap_ok (r.2 :: cs) (life_of w')).
  { intros E [x c'] w' (p & o & Hout & Hat').
    assert (Eo : m_policyObj c = nullptr).
    { destruct (decide (m_policyObj c = nullptr)) as [|Hn]; [done|by apply Hnull in Hn]. }
    rewrite E, Eo in *. pose proof (outcome_up _ _ _ _ _ _ _ Hout) as Hupp.
    eapply heap_after; [exact Hp| |exact Hat'|done]. rewrite Eo. by eapply sole_outcome. }
  destruct op as [host port|host port|u| |]; cbn [run_op heap_disc] in *; apply wp_bind.
  - eapply wp_mono; [by eapply wp_Connect|]. intros r w' He. apply wp_ret. by apply Hconn.
  - eapply wp_mono; [by eapply wp_Listen|]. intros r w' He. apply wp_ret. by apply Hconn.
  - eapply wp_quiet_end; [apply quiet_use|done..|]. intros x c' w' Hl Hat'. apply wp_ret.
    rewrite Hl. eapply heap_after; [exact Hp|exact Hs|exact Hat'|done].
  - eapply wp_mono; [eapply wp_Accept; [by apply (pool_owns_none (c :: cs))|done..]|].
    intros [r c'] w' [-> Hr]. apply wp_ret. simpl in *. pose proof (heap_sole _ _ Hp) as Hs0.
    destruct r as [child|]; simpl.
    + destruct Hr as (p' & o' & Hout & Hat'). pose proof (outcome_up _ _ _ _ _ _ _ Hout) as Hupp.
      destruct Hat' as [Hpc Hpo Hcfg Hok']. simpl in *. rewrite <- Hpc, <- Hpo in Hout.
      eapply heap_join; [by eapply sole_outcome|apply Hp|apply Hp|apply Hp|apply Hp| |by rewrite Hcfg|].
      * intros Hst. split; [by apply Hok'|]. rewrite Hpo. by apply Hok'.
      * intros Hne. rewrite Hupp. by apply Hp.
    + pose proof (sole_outcome _ _ _ _ _ Hpsk Hs0 Hr) as [Hi Href _ _ _ _].
      rewrite own_ctx_null, (left_id_L ∅ (∪)) in Hi. rewrite own_obj_null, (left_id_L ∅ (∪)) in Href.
      pose proof (outcome_up _ _ _ _ _ _ _ Hr) as Hupp.
      destruct Hp as [_ ? ? Hr' ? Hu']. split; [done..| |done|].
      * intros o q. by rewrite Href.
      * intros Hne. rewrite Hupp. by apply Hu'.
  - unfold destroy. apply wp_bind. eapply wp_owned_Cleanup; [done..|].
    intros c' w' Hl _. do 2 apply wp_ret. simpl. pose proof (sole_cleaned _ _ _ Hs) as Hs'.
    rewrite <- Hl in Hs'. destruct Hs' as [Hi Href _ _ _ _].
    rewrite own_ctx_null, (left_id_L ∅ (∪)) in Hi. rewrite own_obj_null, (left_id_L ∅ (∪)) in Href.
    split; [done..| |done|].
    + intros o q. by rewrite Href.
    + intros Hne. rewrite Hl. unfold cleaned. rewrite (Hu Hne). unfold drop_ctx.
      assert (Hup : up (drop_obj (m_policyObj c) (life_of w)) = true) by (rewrite drop_obj_up; by apply Hu).
      by case_match.
Qed.

Lemma heap_flags cs l b : heap_ok cs l -> ctxs cs = [] \/ b = up l -> heap_ok cs (life_set_flags b l).
Proof.
  intros [Hi Hc Ho Hr Hw Hu] Hb. split; try done; [by apply inv_set_flags|].
  intros Hn. unfold up. simpl. destruct Hb as [?| ->]; [done|]. by rewrite Hu.
Qed.

Lemma heap_reach_ok cs w : heap_reach cs w -> heap_ok cs (life_of w).
Proof.
  induction 1 as [|cs w flag settings r w' _ IH Hi|cs w w' _ IH Hc Hd|cs w cfg r w' _ IH Hpsk Hc
                 |cs0 c cs w op out w' _ IH Hp Hdisc Hop].
  - split; [apply inv_start|constructor..| | |done].
    + intros o q. split; [done|]. intros (c & Hin & _). by apply not_elem_of_nil in Hin.
    + intros c Hin. by apply not_elem_of_nil in Hin.
  - pose proof (pool_flags _ _ (heap_ok_pool _ _ IH)) as Hf.
    apply (wp_run (SCF_Init flag settings) (fun _ w' => heap_ok cs (life_of w')) w r w'); [|done].
    eapply wp_SCF_Init; [exact Hf|by intros ? ? ->|]. intros w2 ->.
    destruct IH as [Hi' Hc Ho Hr Hw Hu]. split; try done. by apply inv_set_flags.
  - pose proof (pool_flags _ _ (heap_ok_pool _ _ IH)) as Hf.
    apply (wp_run SCF_DeInit (fun _ w' => heap_ok cs (life_of w')) w tt w'); [|done].
    eapply wp_SCF_DeInit; [exact Hf|]. intros w2 ->. apply heap_flags; [done|by left].
  - apply (wp_run (Create cfg) (fun r w' => heap_ok (option_list r ++ cs) (life_of w')) w r w'); [|done].
    apply wp_bind, wp_lib. intros p _. apply wp_ret. destruct (p =? nullptr); [done|].
    simpl. pose proof (heap_sole _ _ IH) as Hs. eapply heap_join; [exact Hs|apply IH..| |done|apply IH].
    done.
  - rewrite Hp in IH. exact (wp_run _ _ _ _ _ (wp_heap_op op c cs w IH Hdisc) Hop).
Qed.
End heap_steps.

(** *** Counting *)
Lemma refs_none m p : (forall o, m !! o <> Some p) -> refs m p = 0.
Proof.
  intros Hn. unfold refs. replace (filter _ _) with (∅ : gmap Z Z); [by rewrite map_size_empty|].
  symmetry. apply map_empty. intros o. apply map_lookup_filter_None. right. intros q Hq E. simpl in E.
  subst q. by eapply Hn.
Qed.

(** Two connections do not share a context. *)
Lemma same_connection cs c c' :
  NoDup (ctxs cs) -> c ∈ cs -> c' ∈ cs -> m_policyCtx c = m_policyCtx c' ->
  m_policyCtx c <> nullptr -> c = c'.
Proof.
  intros Hnd [cs' Hp]%elem_of_Permutation Hin E Hn. rewrite Hp in Hin.
  apply elem_of_cons in Hin as [->|Hin]; [done|]. exfalso. unfold ctxs in Hnd. rewrite Hp in Hnd.
  apply handles_nodup in Hnd as [Hnot _]. apply Hnot; [done|].
  unfold handles. rewrite list_elem_of_filter. split; [done|]. rewrite E. by apply list_elem_of_fmap_2.
Qed.

Lemma heap_count cs l c n :
  heap_ok cs l -> c ∈ cs -> l_cnt l !! m_policyCtx c = Some n ->
  n = if decide (m_policyObj c = nullptr) then 1 else 2.
Proof.
  intros [Hi Hc Ho Href Hw Hu] Hin Hn. destruct (li_cnt _ _ Hi _ _ Hn) as [-> _].
  assert (Hne : m_policyCtx c <> nullptr).
  { intros E. rewrite E in Hn. by rewrite (not_null_cnt _ _ Hi) in Hn. }
  assert (Hmem : m_policyCtx c ∈@{gset Z} list_to_set (ctxs cs)).
  { rewrite elem_of_list_to_set. unfold ctxs, handles. rewrite list_elem_of_filter.
    split; [done|by apply list_elem_of_fmap_2]. }
  rewrite (decide_True (P := m_policyCtx c ∈@{gset Z} _)) by done. clear Hmem Hn.
  assert (Hone : forall o, l_ref l !! o = Some (m_policyCtx c) -> o = m_policyObj c).
  { intros o (c' & Hin' & <- & _ & E)%Href. by rewrite (same_connection cs c c'). }
  case_decide as E.
  - rewrite refs_none; [done|]. intros o Hl. pose proof (Hone _ Hl) as ->.
    apply Href in Hl as (_ & _ & _ & ? & _). done.
  - assert (Hown : l_ref l !! m_policyObj c = Some (m_policyCtx c)) by (apply Href; by exists c).
    pose proof (refs_delete _ _ _ (m_policyCtx c) Hown) as Hd. rewrite decide_True in Hd by done.
    rewrite refs_none in Hd; [lia|]. intros o [Hno Hl]%lookup_delete_Some. by apply Hone in Hl.
Qed.

Section heap_theorem.
Context `{Library} {A : TlsAdaptor} `{!TlsAdaptorSafe A} `{SecureC} `{FileSystem} `{Decryptor}
  `{Uninit} `{FileAlloc}.
Implicit Types (w : World).

(** The contexts that exist are those of the connections. *)
Lemma heap_live cs w p : heap_ok cs (life_of w) -> live_ctx p w <-> p ∈ ctxs cs.
Proof.
  intros [Hi Hc Ho Href Hw Hu].
  split; [|intros Hp; eapply inv_ctx_live; [done|by apply elem_of_list_to_set]].
  intros [x Hx]. assert (Hl : l_cnt (life_of w) !! p = Some (ctx_refCnt x)) by (apply life_ctx; by exists x).
  destruct (decide (p ∈ ctxs cs)) as [|Hn]; [done|]. exfalso.
  destruct (li_cnt _ _ Hi _ _ Hl) as [Hcnt Hb].
  rewrite decide_False in Hcnt by (by rewrite elem_of_list_to_set).
  rewrite refs_none in Hcnt; [lia|]. intros o (c & Hin & Hco & Hne & Hq)%Href. apply Hn.
  unfold ctxs, handles. rewrite list_elem_of_filter, <- Hq.
  split; [apply (Hw c Hin); congruence|by apply list_elem_of_fmap_2].
Qed.

(** (C7) The heap is what the connections hold. However many connections a process has,
    whatever they did and whatever failed, with the library up or down, over an adaptor that
    keeps its contract ([TlsAdaptorSafe]): the contexts that
    exist are exactly the contexts of the connections, one each, counted once for the
    connection and once for its object; the objects that exist are exactly the objects of
    the connections, each on its connection's context; and without a connection there is
    neither. The owner connects or listens only when a connection has no context, takes the
    library down when none has one, and configures no pre-shared key. *)
Theorem heap_is_what_connections_hold cs w :
  heap_reach cs w ->
  NoDup (ctxs cs) /\ NoDup (objs cs) /\
  (forall p, live_ctx p w <-> p ∈ ctxs cs) /\ (forall o, obj_there o w <-> o ∈ objs cs) /\
  (forall c x, c ∈ cs -> w_ctxs w !! m_policyCtx c = Some x ->
     ctx_refCnt x = if decide (m_policyObj c = nullptr) then 1 else 2) /\
  (forall c o, c ∈ cs -> w_objs w !! m_policyObj c = Some o -> obj_policyCtx o = m_policyCtx c) /\
  (cs = [] -> w_ctxs w = ∅ /\ w_objs w = ∅).
Proof.
  intros Hr%heap_reach_ok. pose proof Hr as [Hi Hc Ho Href Hw Hu].
  assert (Hobj : forall o q, (exists x, w_objs w !! o = Some x /\ obj_policyCtx x = q) <-> holds cs o q)
    by (intros o q; rewrite <- Href; symmetry; apply life_obj).
  split; [done|]. split; [done|]. split_and!.
  - intros p. by apply heap_live.
  - intros o. split.
    + intros [x Hx]. apply (holds_obj _ _ (obj_policyCtx x)), Hobj. by exists x.
    + intros Hin. unfold objs, handles in Hin.
      apply list_elem_of_filter in Hin as [Hn (c & -> & Hin)%list_elem_of_fmap_1].
      assert (Hh : holds cs (m_policyObj c) (m_policyCtx c)) by (by exists c).
      apply Hobj in Hh as (x & Hx & _). by exists x.
  - intros c x Hin Hx. eapply heap_count; [done|done|]. apply life_ctx. by exists x.
  - intros c o Hin Hx.
    assert (Hh : holds cs (m_policyObj c) (obj_policyCtx o)) by (apply Hobj; by exists o).
    apply Href in Hh. assert (Hn : m_policyObj c <> nullptr).
    { intros E. rewrite E in Hh. by rewrite (not_null_ref _ _ Hi) in Hh. }
    assert (Hh' : holds cs (m_policyObj c) (m_policyCtx c)) by (by exists c).
    apply Href in Hh'. congruence.
  - intros ->. destruct (heap_empty _ Hr) as [E1 E2]. simpl in E1, E2.
    split; [by apply fmap_empty_inv in E1|by apply fmap_empty_inv in E2].
Qed.
End heap_theorem.

(** ** Witness: a connected client *)
Section witness.
#[local] Existing Instance RefFileAlloc.

Lemma heap_one : heap_reach [client0] w_created.
Proof.
  refine (heap_create [] w_up client_cfg (Some client0) w_created _ _ _); [|done|by vm_compute].
  refine (heap_init [] world0 SCF_INIT_FLAG_OPENSSL (Some "/usr/lib64"%string) 0 w_up _ _);
    [apply heap_start|by vm_compute].
Qed.

Lemma heap_connected : heap_reach connected.1 connected.2.
Proof.
  pose proof run_connected as Hrun. revert Hrun. generalize connected. intros [out w'] Hrun.
  cbn [fst snd] in *. rewrite <- (app_nil_r out).
  eapply (heap_op _ _ _ _ (OConnect _ _)); [exact heap_one|reflexivity|exact eq_refl|exact Hrun].
Qed.

Lemma heap_is_what_connections_hold_witness :
  ctxs connected.1 = [m_policyCtx conn1] /\ m_policyCtx conn1 <> nullptr /\
  live_ctx (m_policyCtx conn1) connected.2 /\
  exists x, w_ctxs connected.2 !! m_policyCtx conn1 = Some x /\ ctx_refCnt x = 2.
Proof.
  destruct (heap_is_what_connections_hold _ _ heap_connected) as (_ & _ & Hl & _ & Hc & _).
  assert (E : ctxs connected.1 = [m_policyCtx conn1]) by by vm_compute.
  split; [exact E|]. split; [by vm_compute|].
  assert (Hlive : live_ctx (m_policyCtx conn1) connected.2) by (apply Hl; rewrite E; by left).
  split; [exact Hlive|]. destruct Hlive as [x Hx]. exists x. split; [exact Hx|].
  rewrite (Hc conn1 x); [by vm_compute| |exact Hx].
  replace connected.1 with [conn1] by (by vm_compute). by left.
Defined.
End witness.
