(* ===== verification/ConnSpec.v ===== *)
(** * What a security level puts into force

    The composition of [SetupPolicyContext] with the policy API: a connection that has been
    set up has exactly the role, the verification and the policy mode its configuration
    asks for; and what the table of security levels promises. *)
From Stdlib Require Import ZArith Lia Ascii String.
From stdpp Require Import base list fin_maps gmap strings.
From S2P Require Import Prelude Errno Types FileCheck FileCtx Machine OpenSSLCfg.
From S2P Require Import Adaptor Api Conn Lifecycle Config Connection ConnSafe ConnPool.
Open Scope Z_scope.

Section enforced.
Context `{Library} {A : TlsAdaptor} `{!TlsAdaptorSafe A} `{SecureC} `{FileSystem} `{Decryptor}
  `{Uninit} `{FileAlloc}.
Implicit Types (c : SCFConnectionImpl) (w : World).

(** What is asked of the peer's certificate, by the values of [scf_connection.h]: 0 nothing,
    2 and 3 (required, strict) the bits 1, 4 and 8 of [SCF_VERIFY_MODE] - default, peer, fail
    without a certificate -, and 1 (optional) and every other value the bit 1 alone, which
    [scf_def.h] and the adaptor take for a demand too. *)
Definition verify_asked (policy : Z) : Z :=
  match policy with 0 => 0 | 2 | 3 => 13 | _ => 1 end.
(** The policy mode of a level: the middle one for 112 bits only. *)
Definition mode_asked (level : Z) : Z :=
  match level with 0 => SCF_POLICY_MIDDLE | _ => SCF_POLICY_HIGH end.

Lemma MapCertVerifyPolicy_asked policy : MapCertVerifyPolicy policy = verify_asked policy.
Proof. by destruct policy as [|[[]|[]|]|]. Qed.

Lemma level_mode_asked level : sl_policyMode (GetSecurityLevelMapping level) = mode_asked level.
Proof. by destruct level as [|[[[]|[]|]|[[]|[]|]|]|]. Qed.

(** The policy a configuration asks for, recorded in the context [p]. *)
Definition records (cfg : SCFConnectionConfig) (p : Z) (w : World) : Prop :=
  exists x, w_ctxs w !! p = Some x /\ ctx_role x = cc_role cfg /\
    ctx_verifyMode x = verify_asked (cc_certVerifyPolicy cfg) /\
    ctx_policyMode x = mode_asked (cc_securityLevel cfg).

Lemma records_frame cfg p w w' : policy_frame w w' -> records cfg p w -> records cfg p w'.
Proof.
  intros Hf (x & Hx & Hr & Hv & Hm). destruct (frame_ctx _ _ _ _ _ _ Hf Hx) as (x' & Hx' & Heq).
  exists x'. injection Heq as _ Er Ev Em. split_and!; congruence.
Qed.

(** A step of the adaptor keeps the record. *)
Lemma wp_adaptor_step {X} cfg p (P : World -> Prop) (m : M X) w (Q : X -> World -> Prop) :
  safe world_frame P m -> P w -> records cfg p w ->
  (forall x w', records cfg p w' -> Q x w') -> wp m Q w.
Proof.
  intros Hm HP Hr HQ. eapply wp_mono; [by apply Hm|].
  intros x w' Hf%world_policy. apply HQ. by eapply records_frame.
Qed.

Lemma records_live cfg p w : records cfg p w -> live_ctx p w.
Proof. intros (x & Hx & _). by exists x. Qed.

Lemma wp_SetPolicy_records cfg p w :
  live_ctx p w ->
  wp (SCF_SetPolicy p (cc_role cfg) (MapCertVerifyPolicy (cc_certVerifyPolicy cfg))
        (sl_policyMode (GetSecurityLevelMapping (cc_securityLevel cfg))))
    (fun r w' => r = SCF_SUCCESS -> CheckRole (cc_role cfg) = SCF_SUCCESS /\ records cfg p w') w.
Proof.
  intros [x Hx]. unfold SCF_SetPolicy.
  destruct (_ || negb (CheckPolicyMode _ =? _)) eqn:E; [by apply wp_ret|].
  assert (Hrole : CheckRole (cc_role cfg) = SCF_SUCCESS).
  { apply Z.eqb_eq. by destruct (p =? nullptr), (CheckRole (cc_role cfg) =? SCF_SUCCESS). }
  unfold CHECK_RET, CHECK_SCF_INIT, CHECK_SCF_ADAPTOR. apply wp_bind, wp_gets.
  destruct (w_scfInitialized w); [|by apply wp_ret]. apply wp_bind, wp_gets.
  destruct (w_adaptor w); [|by apply wp_ret].
  apply wp_bind. eapply wp_upd_ctx; [done|].
  apply wp_bind. eapply wp_upd_ctx; [apply lookup_insert_eq|].
  apply wp_bind. eapply wp_upd_ctx; [apply lookup_insert_eq|].
  set (w1 := set_ctxs _ _).
  assert (Hrec : records cfg p w1) by (eexists; split; [apply lookup_insert_eq|];
    split_and!; [done|apply MapCertVerifyPolicy_asked|apply level_mode_asked]).
  apply wp_bind. eapply (wp_adaptor_step cfg p); [apply safe_a_InitPolicyByMode|by eapply records_live|done|].
  intros r1 w2 Hr2. destruct (negb (r1 =? SCF_SUCCESS)) eqn:E1.
  { apply wp_ret. intros ->. done. }
  apply wp_bind. eapply (wp_adaptor_step cfg p); [apply safe_a_SetVerifyMode|by eapply records_live|done|].
  intros r2 w3 Hr3. by destruct (negb (r2 =? SCF_SUCCESS)); apply wp_ret.
Qed.

(** A quiet step keeps the record. *)
Lemma wp_quiet_records {X Y} p o cfg (m : Meth X) (f : X -> Meth Y) c w Q :
  quiet p o cfg m -> at_ p o cfg c -> args p o w -> records cfg p w ->
  (forall x c' w', at_ p o cfg c' -> args p o w' -> records cfg p w' -> wp (f x c') Q w') ->
  wp ((m ≫= f) c) Q w.
Proof.
  intros Hm Hat Ha Hr Hf. apply wp_meth_bind. eapply wp_mono; [by apply Hm|].
  intros [x c'] w' [Hfr Hat']. apply Hf; [done| |by eapply records_frame].
  by eapply args_of_life; [apply policy_life_of|].
Qed.

(** No security level uses the mode the application callback needs. *)
Lemma level_not_customer level : sl_policyMode (GetSecurityLevelMapping level) <> SCF_POLICY_CUSTOMER.
Proof. unfold GetSecurityLevelMapping. by repeat case_match. Qed.

Lemma callback_refused cfg p cb arg w :
  records cfg p w ->
  wp (SCF_SetAppVerifyCallback p cb arg) (fun r _ => r <> SCF_SUCCESS) w.
Proof.
  intros (x & Hx & _ & _ & Hm). unfold SCF_SetAppVerifyCallback.
  destruct (p =? nullptr); [by apply wp_ret|]. apply wp_bind. eapply wp_get_ctx; [done|].
  destruct (ctx_role x =? SCF_ROLE_NONE); [by apply wp_ret|].
  unfold CHECK_SCF_INIT. apply wp_bind, wp_gets. destruct (w_scfInitialized w); [|by apply wp_ret].
  rewrite Hm, <- level_mode_asked, (proj2 (Z.eqb_neq _ _) (level_not_customer _)). by apply wp_ret.
Qed.

Lemma configure_rest_callback p cfg ret c w :
  records cfg p w -> cc_appVerifyCb cfg <> nullptr ->
  wp (configure_rest cfg p ret c) (fun r _ => r.1 <> SCF_SUCCESS) w.
Proof.
  intros Hr Hcb. unfold configure_rest.
  destruct (negb (ret =? SCF_SUCCESS)) eqn:E; [apply wp_meth_ret; bools; done|].
  rewrite (proj2 (Z.eqb_neq _ _) Hcb). cbn [negb].
  apply wp_meth_bind, wp_call. eapply wp_mono; [by eapply callback_refused|]. intros r2 w2 Hne.
  simpl. rewrite (proj2 (Z.eqb_neq _ _) Hne). by apply wp_meth_ret.
Qed.

Lemma after_policy_callback p o cfg c w :
  cc_usePSK cfg = false -> p <> nullptr -> at_ p o cfg c -> args p o w -> records cfg p w ->
  cc_appVerifyCb cfg <> nullptr ->
  wp (after_policy cfg p c) (fun r _ => r.1 <> SCF_SUCCESS) w.
Proof.
  intros Hpsk Hn Hat Ha Hr Hcb. unfold after_policy. rewrite Hpsk.
  apply wp_meth_bind, wp_this. cbn [fst snd].
  do 3 (eapply wp_quiet_records; [solve [quiet]|eassumption..|intros ? ? ? ? ? ?]).
  case_match; [apply wp_meth_ret; by bools|]. apply wp_meth_bind, wp_this. cbn [fst snd id].
  eapply wp_quiet_records;
    [apply quiet_call; eapply safe_SetupCipherSuites; eassumption|eassumption..|intros ? ? ? ? ? ?].
  case_match; [apply wp_meth_ret; by bools|].
  eapply wp_quiet_records; [|eassumption..|].
  { apply quiet_bind; [apply quiet_call; eapply safe_SetupCertificates; eassumption|].
    intros. apply quiet_ret. }
  intros. by apply configure_rest_callback.
Qed.

(** (C20) Over an adaptor that keeps its contract ([TlsAdaptorSafe]), for a connection of any
    process that does not use a pre-shared key, a successful
    [SetupPolicyContext] has put the configuration into force: the
    connection holds a context that did not exist before and that records exactly the role,
    the policy mode (middle for the 112-bit level, high for every other) and the verification
    of the certificate policy: none for NONE, the default, peer and fail-without-certificate
    bits for REQUIRED and STRICT, and the default bit alone for OPTIONAL - where the header
    documents that a peer without a certificate is let in, and the default bit demands one.
    It can only succeed when no application verification callback is configured:
    no security level selects the customer mode that callback needs, so setting one up
    always fails. *)
Theorem SetupPolicyContext_enforced cs w c r c' w' :
  pool_reach cs w -> c ∈ cs -> cc_usePSK (m_config c) = false ->
  SetupPolicyContext c w = Some ((r, c'), w') -> r = SCF_SUCCESS ->
  cc_appVerifyCb (m_config c) = nullptr /\
  CheckRole (cc_role (m_config c)) = SCF_SUCCESS /\
  w_ctxs w !! m_policyCtx c' = None /\ records (m_config c) (m_policyCtx c') w'.
Proof.
  intros Hreach Hin Hpsk Hrun Hr. set (cfg := m_config c) in *.
  apply pool_reach_ok in Hreach as Hok. pose proof Hok as (Hconns & _).
  rewrite Forall_forall in Hconns. pose proof (conn_ok_at c (Hconns c Hin)) as Hat.
  apply elem_of_Permutation in Hin as [cs' Hp]. rewrite Hp in Hok.
  apply pool_owns in Hok as Hown. pose proof (owns_args _ _ _ _ _ Hown) as Ha.
  destruct Hown as (owned & Hinv & _).
  enough (Hwp : wp (SetupPolicyContext c) (fun r w' => r.1 = SCF_SUCCESS ->
      cc_appVerifyCb cfg = nullptr /\ CheckRole (cc_role cfg) = SCF_SUCCESS /\
      w_ctxs w !! m_policyCtx r.2 = None /\ records cfg (m_policyCtx r.2) w') w)
    by exact (wp_run _ _ _ _ _ Hwp Hrun Hr).
  eapply wp_SetupPolicyContext_new; [done..|by intros|].
  intros c1 w1 _ L1 At1 Ha1. set (p := w_next w) in *.
  assert (Hfresh : w_ctxs w !! p = None).
  { pose proof (fresh_cnt _ _ Hinv) as Hf. simpl in Hf. by rewrite lookup_fmap, fmap_None in Hf. }
  assert (Hn : p <> nullptr) by (pose proof (li_next _ _ Hinv) as Hpos; simpl in Hpos; unfold nullptr; lia).
  eapply wp_configure_ctx_policy; [done..|]. intros c2 w2 L2 At2.
  pose proof (args_of_life _ _ _ _ L2 Ha1) as Ha2.
  pose proof (safe_SetPolicy p (cc_role cfg) (MapCertVerifyPolicy (cc_certVerifyPolicy cfg))
    (sl_policyMode (GetSecurityLevelMapping (cc_securityLevel cfg))) w2 (proj1 Ha2)) as Hlife.
  pose proof (wp_SetPolicy_records cfg p w2 (proj1 Ha2 Hn)) as Hrec.
  unfold wp in Hlife, Hrec |- *. destruct (SCF_SetPolicy _ _ _ _ _) as [[ret w3]|]; [|done].
  apply life_frame_of in Hlife. pose proof (args_of_life _ _ _ _ Hlife Ha2) as Ha3.
  cbv beta. destruct (negb (ret =? SCF_SUCCESS)) eqn:E; bools; [by intros ?|].
  destruct (Hrec E) as [Hrole Hrec3].
  pose proof (quiet_after_policy p (m_policyObj c) cfg Hn Hpsk c2 w3 At2 Ha3) as Hq.
  assert (Hcb : cc_appVerifyCb cfg <> nullptr ->
            wp (after_policy cfg p c2) (fun r _ => r.1 <> SCF_SUCCESS) w3)
    by (intros; by eapply after_policy_callback).
  unfold wp in Hq, Hcb. fold cfg. destruct (after_policy cfg p c2 w3) as [[[r4 c4] w4]|]; [|done].
  destruct Hq as [Hfr At4]. intros Hr4. simpl in *. rewrite (at_ctx _ _ _ _ At4).
  split_and!; [|done|done|by eapply records_frame].
  destruct (decide (cc_appVerifyCb cfg = nullptr)); [done|]. by destruct Hcb.
Qed.
End enforced.

(** ** Witness: the client of [ConnPool] *)
Section witnesses.
#[local] Existing Instance RefFileAlloc.

Definition set_up : Z * SCFConnectionImpl * World :=
  match SetupPolicyContext client0 w_created with
  | Some (r, c, w') => (r, c, w')
  | None => (0, client0, w_created)
  end.

Lemma SetupPolicyContext_enforced_witness :
  w_ctxs w_created !! m_policyCtx set_up.1.2 = None /\
  records client_cfg (m_policyCtx set_up.1.2) set_up.2.
Proof.
  assert (Hrun : SetupPolicyContext client0 w_created = Some ((set_up.1.1, set_up.1.2), set_up.2))
    by (vm_compute; reflexivity).
  assert (Hr : set_up.1.1 = SCF_SUCCESS) by (vm_compute; reflexivity).
  assert (Hin : client0 ∈ [client0]) by apply list_elem_of_here.
  revert Hrun Hr. generalize set_up. intros [[r c] w'] Hrun Hr. cbn [fst snd] in *.
  exact (proj2 (proj2 (SetupPolicyContext_enforced [client0] w_created client0 r c w' pool_one
                         Hin eq_refl Hrun Hr))).
Defined.
End witnesses.
