(* ===== verification/Socket.v ===== *)
(** * Transports

    [src/include/scf_transport.h] and [src/transport/socket_transport.cpp], with the stub
    [src/transport/urma_transport.cpp]: addresses, options and the state of a TCP socket.
    System calls are external calls of the machine; [errno] is what the environment says it
    is at the moment it is read, so a call in between may have changed it. *)
From Stdlib Require Import ZArith Lia Ascii String.
From stdpp Require Import base list fin_maps gmap strings pretty.
From S2P Require Import Prelude Errno Types Machine.
Open Scope Z_scope.

(** ** The interface (scf_transport.h) *)
Inductive TransportResult : Type :=
| SUCCESS | ERROR | WOULD_BLOCK | CONNECTION_CLOSED | TIMEOUT.
Inductive TransportAddressType : Type := IPv4 | IPv6 | DOMAIN | URMA | CUSTOM.
Inductive TransportProtocol : Type := TCP | UDP | URMA_PROTOCOL | CUSTOM_PROTOCOL.

#[export] Instance TransportResult_dec : EqDecision TransportResult.
Proof. solve_decision. Defined.
#[export] Instance TransportAddressType_dec : EqDecision TransportAddressType.
Proof. solve_decision. Defined.

Record TransportAddress : Type := mkAddress {
  ta_type : TransportAddressType;
  ta_host : string;
  ta_port : Z
}.
Definition no_address : TransportAddress := mkAddress IPv4 EmptyString 0.
Definition addr_IPv4 (host : string) (port : Z) : TransportAddress := mkAddress IPv4 host port.
Definition URMAAddr (addr : string) (port : Z) : TransportAddress := mkAddress URMA addr port.
Definition set_ta_type (t : TransportAddressType) (a : TransportAddress) : TransportAddress :=
  mkAddress t (ta_host a) (ta_port a).

Record TransportConfig : Type := mkTransportConfig {
  tc_nonBlocking : bool;
  tc_sendTimeoutMs : Z;
  tc_recvTimeoutMs : Z;
  tc_connectTimeoutMs : Z;
  tc_sendBufferSize : Z;
  tc_recvBufferSize : Z;
  tc_tcpNoDelay : bool
}.
Definition default_config : TransportConfig := mkTransportConfig true 0 0 5000 0 0 true.

(** ** Constants of the system interface (Linux) *)
Definition AF_INET : Z := 2.
Definition AF_INET6 : Z := 10.
Definition SOCK_STREAM : Z := 1.
Definition EAGAIN : Z := 11.
Definition EPIPE : Z := 32.
Definition ECONNRESET : Z := 104.
Definition ETIMEDOUT : Z := 110.
Definition EINPROGRESS : Z := 115.
Definition SOL_SOCKET : Z := 1.
Definition SO_REUSEADDR : Z := 2.
Definition SO_SNDBUF : Z := 7.
Definition SO_RCVBUF : Z := 8.
Definition SO_RCVTIMEO : Z := 20.
Definition SO_SNDTIMEO : Z := 21.
Definition IPPROTO_TCP : Z := 6.
Definition TCP_NODELAY : Z := 1.
Definition F_GETFL : Z := 3.
Definition F_SETFL : Z := 4.
Definition O_NONBLOCK : Z := 2048.
Definition MSG_NOSIGNAL : Z := 16384.
Definition sockaddr_size : Z := 128.       (* sizeof(struct sockaddr_storage) *)
Definition sockaddr_in_size : Z := 16.
Definition sockaddr_in6_size : Z := 28.

(** Two bytes in host order (little endian) and in network order. *)
Definition byte_of (x : Z) : ascii := ascii_of_N (Z.to_N (x mod 256)).
Definition of_byte (b : ascii) : Z := Z.of_N (N_of_ascii b).
Definition host16 (x : Z) : list ascii := [byte_of x; byte_of (x / 256)].
Definition net16 (x : Z) : list ascii := [byte_of (x / 256); byte_of x].
Definition read_host16 (bs : list ascii) : Z :=
  match bs with a :: b :: _ => of_byte a + 256 * of_byte b | _ => 0 end.
Definition read_net16 (bs : list ascii) : Z :=
  match bs with a :: b :: _ => 256 * of_byte a + of_byte b | _ => 0 end.

(** Write [bs] into the buffer [cells] at [off]. *)
Definition write_at (off : nat) (bs cells : list ascii) : list ascii :=
  take off cells ++ bs ++ drop (off + length bs) cells.

(** The addresses the system hands out: the bytes behind [result->ai_addr] (there are
    [ai_addrlen] of them) and the peer address [accept] stores. *)
Class Resolver : Type := {
  ai_addr : History -> Z -> list ascii;
  peer_addr : History -> list ascii
}.

(** ** The object *)
Record SocketTransport : Type := mkSocket {
  st_fd : Z;
  st_connected : bool;
  st_bound : bool;
  st_localAddr : TransportAddress;
  st_remoteAddr : TransportAddress;
  st_config : TransportConfig;
  st_protocol : TransportProtocol
}.

Definition set_st_fd (v : Z) (t : SocketTransport) : SocketTransport :=
  mkSocket v (st_connected t) (st_bound t) (st_localAddr t) (st_remoteAddr t) (st_config t) (st_protocol t).
Definition set_st_connected (v : bool) (t : SocketTransport) : SocketTransport :=
  mkSocket (st_fd t) v (st_bound t) (st_localAddr t) (st_remoteAddr t) (st_config t) (st_protocol t).
Definition set_st_bound (v : bool) (t : SocketTransport) : SocketTransport :=
  mkSocket (st_fd t) (st_connected t) v (st_localAddr t) (st_remoteAddr t) (st_config t) (st_protocol t).
Definition set_st_localAddr (v : TransportAddress) (t : SocketTransport) : SocketTransport :=
  mkSocket (st_fd t) (st_connected t) (st_bound t) v (st_remoteAddr t) (st_config t) (st_protocol t).
Definition set_st_remoteAddr (v : TransportAddress) (t : SocketTransport) : SocketTransport :=
  mkSocket (st_fd t) (st_connected t) (st_bound t) (st_localAddr t) v (st_config t) (st_protocol t).
Definition set_st_config (v : TransportConfig) (t : SocketTransport) : SocketTransport :=
  mkSocket (st_fd t) (st_connected t) (st_bound t) (st_localAddr t) (st_remoteAddr t) v (st_protocol t).

(** The two constructors. *)
Definition new_socket : SocketTransport :=
  mkSocket (-1) false false no_address no_address default_config TCP.
Definition socket_of_fd (fd : Z) : SocketTransport :=
  mkSocket fd (0 <=? fd) false no_address no_address default_config TCP.

Section socket.
Context `{Library} `{SecureC} {RS : Resolver}.

Definition errno : M Z := lib_out.

Definition MapSocketError : M TransportResult :=
  e ← errno;
  return_if e =? EAGAIN with (mret WOULD_BLOCK) ;;
  return_if (e =? ECONNRESET) || (e =? EPIPE) with (mret CONNECTION_CLOSED) ;;
  return_if e =? ETIMEDOUT with (mret TIMEOUT) ;;
  mret ERROR.

Definition SetNonBlocking (fd : Z) : M TransportResult :=
  flags ← lib sys_fcntl [AInt fd; AInt F_GETFL; AInt 0];
  return_if flags <? 0 with (mret ERROR) ;;
  rc ← lib sys_fcntl [AInt fd; AInt F_SETFL; AInt (Z.lor flags O_NONBLOCK)];
  return_if rc <? 0 with (mret ERROR) ;;
  mret SUCCESS.

(** [setsockopt] with an [int] and with a [struct timeval] of [ms] milliseconds. *)
Definition set_int (fd level opt v : Z) : M Z :=
  lib sys_setsockopt [AInt fd; AInt level; AInt opt; AInt v].
Definition set_timeout (fd opt ms : Z) : M Z :=
  lib sys_setsockopt [AInt fd; AInt SOL_SOCKET; AInt opt; AInt (Z.quot ms 1000);
                      AInt (Z.rem ms 1000 * 1000)].

Definition SetSocketOptions (fd : Z) (config : TransportConfig) : M TransportResult :=
  _ ← (if tc_tcpNoDelay config then set_int fd IPPROTO_TCP TCP_NODELAY 1 else mret 0);
  _ ← (if 0 <? tc_sendTimeoutMs config
       then set_timeout fd SO_SNDTIMEO (tc_sendTimeoutMs config) else mret 0);
  _ ← (if 0 <? tc_recvTimeoutMs config
       then set_timeout fd SO_RCVTIMEO (tc_recvTimeoutMs config) else mret 0);
  _ ← (if 0 <? tc_sendBufferSize config
       then set_int fd SOL_SOCKET SO_SNDBUF (to_int32 (tc_sendBufferSize config)) else mret 0);
  _ ← (if 0 <? tc_recvBufferSize config
       then set_int fd SOL_SOCKET SO_RCVBUF (to_int32 (tc_recvBufferSize config)) else mret 0);
  mret SUCCESS.

(** The result, [sockAddr] and [addrLen]: a host that is not a literal address. *)
Definition ResolveByName (addr : TransportAddress) (sockAddr : list ascii)
    : M (TransportResult * list ascii * Z) :=
  gai ← lib getaddrinfo [AStr (cstr (ta_host addr)); AStr (pretty (ta_port addr));
                         AInt AF_INET; AInt SOCK_STREAM];
  result ← (if gai =? 0 then lib_out else mret nullptr);
  return_if negb (gai =? 0) || (result =? nullptr) with (mret (ERROR, sockAddr, 0)) ;;
  found ← gets (fun w => ai_addr (w_log w) result);
  return_if sockaddr_size <? Z.of_nat (length found)
    with (_ ← lib freeaddrinfo [AInt result]; mret (ERROR, sockAddr, 0)) ;;
  let '(st, sockAddr) := memcpy_s sockAddr sockaddr_size found in
  return_if negb (st =? EOK)
    with (_ ← lib freeaddrinfo [AInt result]; mret (ERROR, sockAddr, 0)) ;;
  _ ← lib freeaddrinfo [AInt result];
  mret (SUCCESS, sockAddr, sockaddr_in_size).

Definition ResolveAddress (addr : TransportAddress) : M (TransportResult * list ascii * Z) :=
  let sockAddr := replicate (Z.to_nat sockaddr_size) NUL in
  match ta_type addr with
  | URMA | CUSTOM => mret (ERROR, sockAddr, 0)
  | IPv4 | DOMAIN =>
      let sockAddr := write_at 0 (host16 AF_INET) sockAddr in
      let sockAddr := write_at 2 (net16 (ta_port addr)) sockAddr in
      rc ← lib inet_pton [AInt AF_INET; AStr (cstr (ta_host addr))];
      if rc =? 1 then
        sin_addr ← lib_bytes nullptr 4;
        mret (SUCCESS, write_at 4 sin_addr sockAddr, sockaddr_in_size)
      else
        ResolveByName addr sockAddr
  | IPv6 =>
      let sockAddr := write_at 0 (host16 AF_INET6) sockAddr in
      let sockAddr := write_at 2 (net16 (ta_port addr)) sockAddr in
      rc ← lib inet_pton [AInt AF_INET6; AStr (cstr (ta_host addr))];
      return_if negb (rc =? 1) with (mret (ERROR, sockAddr, 0)) ;;
      sin6_addr ← lib_bytes nullptr 16;
      mret (SUCCESS, write_at 8 sin6_addr sockAddr, sockaddr_in6_size)
  end.

(** ** Methods *)
Definition Close : Method SocketTransport unit :=
  fd ← this_ st_fd;
  _ ← (if 0 <=? fd then _ ← call (lib sys_close [AInt fd]); update (set_st_fd (-1))
       else mret tt);
  _ ← update (set_st_connected false);
  update (set_st_bound false).

(** [~SocketTransport]. *)
Definition delete_socket (t : SocketTransport) : M unit := _ ← Close t; mret tt.

Definition family_of (addr : TransportAddress) : Z :=
  if decide (ta_type addr = IPv6) then AF_INET6 else AF_INET.

(** [Close(); return result;] *)
Definition close_with (result : TransportResult) : Method SocketTransport TransportResult :=
  _ ← Close; mret result.

Definition Connect (addr : TransportAddress) (config : TransportConfig)
    : Method SocketTransport TransportResult :=
  _ ← update (set_st_config config);
  r ← call (ResolveAddress addr);
  let '(ret, sockAddr, addrLen) := r in
  return_if bool_decide (ret <> SUCCESS) with (mret ret) ;;
  fd ← call (lib sys_socket [AInt (family_of addr); AInt SOCK_STREAM; AInt 0]);
  _ ← update (set_st_fd fd);
  return_if fd <? 0 with (mret ERROR) ;;
  ret ← call (SetSocketOptions fd config);
  return_if bool_decide (ret <> SUCCESS) with (close_with ret) ;;
  ret ← call (SetNonBlocking fd);
  return_if bool_decide (ret <> SUCCESS) with (close_with ret) ;;
  rc ← call (lib sys_connect [AInt fd; ABytes sockAddr; AInt addrLen]);
  e ← call errno;
  return_if (rc <? 0) && negb (e =? EINPROGRESS)
    with (_ ← Close; call MapSocketError) ;;
  _ ← update (set_st_connected true);
  _ ← update (set_st_remoteAddr addr);
  mret SUCCESS.

Definition Bind (addr : TransportAddress) (backlog : Z) : Method SocketTransport TransportResult :=
  r ← call (ResolveAddress addr);
  let '(ret, sockAddr, addrLen) := r in
  return_if bool_decide (ret <> SUCCESS) with (mret ret) ;;
  fd ← call (lib sys_socket [AInt (family_of addr); AInt SOCK_STREAM; AInt 0]);
  _ ← update (set_st_fd fd);
  return_if fd <? 0 with (mret ERROR) ;;
  _ ← call (set_int fd SOL_SOCKET SO_REUSEADDR 1);
  rc ← call (lib sys_bind [AInt fd; ABytes sockAddr; AInt addrLen]);
  return_if rc <? 0 with (close_with ERROR) ;;
  rc ← call (lib sys_listen [AInt fd; AInt backlog]);
  return_if rc <? 0 with (close_with ERROR) ;;
  ret ← call (SetNonBlocking fd);
  return_if bool_decide (ret <> SUCCESS) with (close_with ret) ;;
  _ ← update (set_st_bound true);
  _ ← update (set_st_localAddr addr);
  mret SUCCESS.

(** [inet_ntop] into a zeroed buffer. *)
Definition ntop (family : Z) (addr : list ascii) : M string :=
  p ← lib inet_ntop [AInt family; ABytes addr];
  if p =? nullptr then mret EmptyString else lib_cstring p.

(** The remote address of an accepted connection; [None]: another family. *)
Definition peer_address (clientAddr : list ascii) : M (option TransportAddress) :=
  let family := read_host16 clientAddr in
  let port := read_net16 (drop 2 clientAddr) in
  if family =? AF_INET then
    ip ← ntop AF_INET (take 4 (drop 4 clientAddr));
    mret (Some (set_ta_type IPv4 (addr_IPv4 ip port)))
  else if family =? AF_INET6 then
    ip ← ntop AF_INET6 (take 16 (drop 8 clientAddr));
    mret (Some (set_ta_type IPv6 (addr_IPv4 ip port)))
  else mret None.

(** The new transport, or null. *)
Definition Accept : Method SocketTransport (option SocketTransport) :=
  bound ← this_ st_bound; fd ← this_ st_fd;
  return_if negb bound || (fd <? 0) with (mret None) ;;
  clientFd ← call (lib sys_accept [AInt fd]);
  return_if clientFd <? 0 with (mret None) ;;
  clientAddr ← call (gets (fun w => peer_addr (w_log w)));
  ret ← call (SetNonBlocking clientFd);
  return_if bool_decide (ret <> SUCCESS)
    with (_ ← call (lib sys_close [AInt clientFd]); mret None) ;;
  p ← call (lib op_new [AStr "SocketTransport"]);
  return_if p =? nullptr with (_ ← call (lib sys_close [AInt clientFd]); mret None) ;;
  config ← this_ st_config;
  let transport := set_st_config config (socket_of_fd clientFd) in
  addr ← call (peer_address clientAddr);
  mret (Some (match addr with Some a => set_st_remoteAddr a transport | None => transport end)).

(** The common body of [Send] and [Recv]: the result and what is stored through the
    out-pointer ([outs]: it is not null). *)
Definition transfer (n : Z) (outs : bool) : M (TransportResult * option Z) :=
  if negb outs then fault
  else if 0 <? n then mret (SUCCESS, Some n)
  else if n =? 0 then mret (CONNECTION_CLOSED, Some 0)
  else e ← errno; mret (if e =? EAGAIN then WOULD_BLOCK else ERROR, Some 0).

Definition Send (data : list ascii) (len : Z) (outs : bool)
    : Method SocketTransport (TransportResult * option Z) :=
  fd ← this_ st_fd; connected ← this_ st_connected;
  return_if (fd <? 0) || negb connected with (mret (ERROR, None)) ;;
  n ← call (lib sys_send [AInt fd; ABytes data; AInt len; AInt MSG_NOSIGNAL]);
  call (transfer n outs).

Definition Recv (data len : Z) (outs : bool)
    : Method SocketTransport (TransportResult * option Z) :=
  fd ← this_ st_fd; connected ← this_ st_connected;
  return_if (fd <? 0) || negb connected with (mret (ERROR, None)) ;;
  n ← call (lib sys_recv [AInt fd; AInt data; AInt len; AInt 0]);
  call (transfer n outs).

Definition SetConfig (config : TransportConfig) : Method SocketTransport TransportResult :=
  _ ← update (set_st_config config);
  fd ← this_ st_fd;
  return_if 0 <=? fd with (call (SetSocketOptions fd config)) ;;
  mret SUCCESS.

Definition GetProtocol (t : SocketTransport) : TransportProtocol := st_protocol t.
Definition GetNativeHandle (t : SocketTransport) : Z := st_fd t.
Definition IsConnected (t : SocketTransport) : bool := st_connected t && (0 <=? st_fd t).
Definition GetLocalAddress (t : SocketTransport) : TransportAddress := st_localAddr t.
Definition GetRemoteAddress (t : SocketTransport) : TransportAddress := st_remoteAddr t.

Definition Clone : Method SocketTransport (option SocketTransport) :=
  p ← call (lib op_new [AStr "SocketTransport"]);
  return_if p =? nullptr with (mret None) ;;
  copy ← this_ id;
  mret (Some copy).

(** [SocketTransportFactory::Create]. *)
Definition Create : M (option SocketTransport) :=
  p ← lib op_new [AStr "SocketTransport"];
  mret (if p =? nullptr then None else Some new_socket).
End socket.
