(* ===== verification/SockSafe.v ===== *)
(** * Sockets: descriptors, results and options

    Who holds which file descriptor, over histories of many transports; what a successful
    [Connect] has told the system; the timeouts the options set. *)
From Stdlib Require Import ZArith Lia Ascii String.
From stdpp Require Import base list fin_maps gmap strings pretty.
From S2P Require Import Prelude Errno Types Machine Lifecycle Socket.
Open Scope Z_scope.

(** ** Descriptors of a history *)

(** The descriptor a call hands out, and the one it gives back. *)
Definition opens (e : Event) : option Z :=
  match ev_fn e with
  | sys_socket | sys_accept => if 0 <=? ev_ret e then Some (ev_ret e) else None
  | _ => None
  end.
Definition closes (e : Event) : option Z :=
  match ev_fn e, ev_args e with
  | sys_close, [AInt fd] => Some fd
  | _, _ => None
  end.

(** The descriptors open after a history (the newest call first). *)
Fixpoint open_fds (h : History) : gset Z :=
  match h with
  | [] => ∅
  | e :: h =>
      match opens e, closes e with
      | Some fd, _ => {[fd]} ∪ open_fds h
      | None, Some fd => open_fds h ∖ {[fd]}
      | None, None => open_fds h
      end
  end.

(** Every descriptor that was closed was open. *)
Fixpoint closes_ok (h : History) : Prop :=
  match h with
  | [] => True
  | e :: h => (forall fd, closes e = Some fd -> fd ∈ open_fds h) /\ closes_ok h
  end.

(** The system never hands out a descriptor that is open (POSIX: the lowest that is not). *)
Class FreshFds `{Library} : Prop := fresh_fd : forall h f args,
  f = sys_socket \/ f = sys_accept -> answer h f args ∉ open_fds h.

(** ** Ownership *)
Definition own (t : SocketTransport) : gset Z := if 0 <=? st_fd t then {[st_fd t]} else ∅.

Lemma own_neg t : st_fd t < 0 -> own t = ∅.
Proof. intros E. unfold own. by rewrite (proj2 (Z.leb_gt _ _) E). Qed.

(** The open descriptors are [F] and that of [t]. *)
Definition holds (F : gset Z) (t : SocketTransport) (w : World) : Prop :=
  closes_ok (w_log w) /\ open_fds (w_log w) = F ∪ own t /\ own t ## F.

Section rules.
Context `{Library} {FF : FreshFds} `{SecureC} {RS : Resolver}.
Implicit Types (F : gset Z) (t : SocketTransport) (w : World).

(** A program that neither opens nor closes a descriptor. *)
Definition silent {X} (m : M X) : Prop :=
  forall w, wp m (fun _ w' => open_fds (w_log w') = open_fds (w_log w) /\
                              (closes_ok (w_log w) -> closes_ok (w_log w'))) w.

Lemma silent_ret {X} (x : X) : silent (mret x).
Proof. by intros w. Qed.

Lemma silent_gets {X} (f : World -> X) : silent (gets f).
Proof. by intros w. Qed.

Lemma silent_bind {X Y} (m : M X) (f : X -> M Y) :
  silent m -> (forall x, silent (f x)) -> silent (m ≫= f).
Proof.
  intros Hm Hf w. apply wp_bind. eapply wp_mono; [apply Hm|]. intros x w1 [E1 C1].
  eapply wp_mono; [apply Hf|]. intros y w2 [E2 C2]. split; [congruence|by eauto].
Qed.

Lemma silent_lib f args :
  (forall r, opens (mkEvent f args r) = None /\ closes (mkEvent f args r) = None) ->
  silent (lib f args).
Proof.
  intros Hf w. apply wp_lib. intros r _. simpl. destruct (Hf r) as [-> ->].
  split; [done|]. intros Hc. by split.
Qed.
End rules.

Ltac silent_step :=
  match goal with
  | |- forall _, _ => intro
  | |- silent (mret _) => apply silent_ret
  | |- silent (gets _) => apply silent_gets
  | |- silent (lib_bytes _ _) => apply silent_gets
  | |- silent (lib_cstring _) => apply silent_gets
  | |- silent lib_out => apply silent_gets
  | |- silent errno => apply silent_gets
  | |- silent (lib _ _) => apply silent_lib; by intros
  | |- silent (_ ≫= _) => apply silent_bind; [|intro]
  | |- silent (if ?b then _ else _) => destruct b
  | |- silent (match ?x with _ => _ end) => destruct x
  end.
Ltac silent := repeat silent_step.

Section silent_steps.
Context `{Library} {FF : FreshFds} `{SecureC} {RS : Resolver}.

Lemma silent_MapSocketError : silent MapSocketError.
Proof. unfold MapSocketError. silent. Qed.
Lemma silent_SetNonBlocking fd : silent (SetNonBlocking fd).
Proof. unfold SetNonBlocking. silent. Qed.
Lemma silent_SetSocketOptions fd config : silent (SetSocketOptions fd config).
Proof. unfold SetSocketOptions, set_int, set_timeout. silent. Qed.
Lemma silent_ResolveAddress addr : silent (ResolveAddress addr).
Proof. unfold ResolveAddress, ResolveByName. silent. Qed.
Lemma silent_peer_address a : silent (peer_address a).
Proof. unfold peer_address, ntop. silent. Qed.

(** *** Steps of a method *)
Implicit Types (F : gset Z) (t : SocketTransport) (w : World).

(** A method that, holding [F] beside its own descriptor, returns and still does. *)
Definition keeps {X} (m : Method SocketTransport X) : Prop :=
  forall F t w, holds F t w -> wp (m t) (fun r w' => holds F r.2 w') w.

Lemma keeps_ret {X} (x : X) : keeps (mret x).
Proof. by intros F t w. Qed.

Lemma keeps_bind {X Y} (m : Method SocketTransport X) (f : X -> Method SocketTransport Y) :
  keeps m -> (forall x, keeps (f x)) -> keeps (m ≫= f).
Proof.
  intros Hm Hf F t w Hh. apply wp_meth_bind. eapply wp_mono; [by apply Hm|].
  intros [x t'] w' Hh'. by apply Hf.
Qed.

Lemma keeps_this {X Y} (f : SocketTransport -> X) (k : X -> Method SocketTransport Y) :
  (forall x, keeps (k x)) -> keeps (this_ f ≫= k).
Proof. intros Hk F t w Hh. apply wp_meth_bind, wp_this. by apply Hk. Qed.

Lemma keeps_update f : (forall t, st_fd (f t) = st_fd t) -> keeps (update f).
Proof.
  intros Hf F t w (? & ? & ?). apply wp_update. unfold holds, own. simpl. by rewrite Hf.
Qed.

Lemma keeps_call {X} (m : M X) : silent m -> keeps (call m).
Proof.
  intros Hm F t w (Hc & Ho & Hd). apply wp_call. eapply wp_mono; [apply Hm|].
  intros x w' [E C]. split_and!; [by apply C|by rewrite E|done].
Qed.

(** After [Close] the transport has no descriptor. *)
Lemma Close_gives_back F t w :
  holds F t w -> wp (Close t) (fun r w' => holds F r.2 w' /\ st_fd r.2 < 0) w.
Proof.
  intros (Hc & Ho & Hd). unfold Close. apply wp_meth_bind, wp_this. simpl.
  unfold own in *. destruct (0 <=? st_fd t) eqn:E.
  - apply wp_meth_bind, wp_meth_bind, wp_call, wp_lib. intros r _.
    apply wp_update. simpl. apply wp_meth_bind, wp_update, wp_update. simpl.
    unfold holds, own. simpl. split_and!; [|done| |set_solver|done].
    + intros fd [= <-]. set_solver.
    + set_solver.
  - apply wp_meth_bind, wp_meth_ret, wp_meth_bind, wp_update, wp_update. simpl.
    unfold holds, own. simpl. rewrite E. by apply Z.leb_gt in E.
Qed.

Lemma keeps_Close : keeps Close.
Proof.
  intros F t w Hh. eapply wp_mono; [by apply Close_gives_back|]. by intros r w' [? _].
Qed.
End silent_steps.

Ltac keeps_step :=
  match goal with
  | |- forall _, _ => intro
  | |- keeps (mret _) => apply keeps_ret
  | |- keeps Close => apply keeps_Close
  | |- keeps (this_ _ ≫= _) => apply keeps_this; intro
  | |- keeps (update _) => apply keeps_update; by intros []
  | |- keeps (call (SetNonBlocking _)) => apply keeps_call, silent_SetNonBlocking
  | |- keeps (call (SetSocketOptions _ _)) => apply keeps_call, silent_SetSocketOptions
  | |- keeps (call (ResolveAddress _)) => apply keeps_call, silent_ResolveAddress
  | |- keeps (call MapSocketError) => apply keeps_call, silent_MapSocketError
  | |- keeps (call _) => apply keeps_call; silent
  | |- keeps (close_with _) => unfold close_with
  | |- keeps (_ ≫= _) => apply keeps_bind; [|intro]
  | |- keeps (if ?b then _ else _) => destruct b
  | |- keeps (match ?x with _ => _ end) => destruct x
  end.
Ltac keeps := repeat keeps_step.

(** What the owner of a transport does with it. A descriptor that is open is not
    overwritten: [Connect] and [Bind] are for a transport that has none; and the
    out-pointers are not null. *)
Inductive SockOp : Type :=
| SConnect (addr : TransportAddress) (config : TransportConfig)
| SBind (addr : TransportAddress) (backlog : Z)
| SAccept
| SSend (data : list ascii) (len : Z)
| SRecv (data len : Z)
| SSetConfig (config : TransportConfig)
| SClose
| SDelete.

Definition sock_disciplined (op : SockOp) (t : SocketTransport) : Prop :=
  match op with SConnect _ _ | SBind _ _ => st_fd t < 0 | _ => True end.

(** The descriptors the transports hold. *)
Definition fds (ts : list SocketTransport) : list Z :=
  omap (fun t => if 0 <=? st_fd t then Some (st_fd t) else None) ts.

Section sock_pool.
Context `{Library} {FF : FreshFds} `{SecureC} {RS : Resolver}.
Implicit Types (F : gset Z) (t : SocketTransport) (ts : list SocketTransport) (w : World).

(** The transports that exist after an operation on one. *)
Definition run_sock (op : SockOp) (t : SocketTransport) : M (list SocketTransport) :=
  match op with
  | SConnect addr config => r ← Connect addr config t; mret [r.2]
  | SBind addr backlog => r ← Bind addr backlog t; mret [r.2]
  | SAccept => r ← Accept t; mret (option_list r.1 ++ [r.2])
  | SSend data len => r ← Send data len true t; mret [r.2]
  | SRecv data len => r ← Recv data len true t; mret [r.2]
  | SSetConfig config => r ← SetConfig config t; mret [r.2]
  | SClose => r ← Close t; mret [r.2]
  | SDelete => _ ← delete_socket t; mret []
  end.

Inductive sock_reach : list SocketTransport -> World -> Prop :=
| sock_start : sock_reach [] world0
| sock_create ts w r w' :
    sock_reach ts w -> Create w = Some (r, w') -> sock_reach (option_list r ++ ts) w'
| sock_op ts0 t ts w op out w' :
    sock_reach ts0 w -> ts0 ≡ₚ t :: ts -> sock_disciplined op t ->
    run_sock op t w = Some (out, w') -> sock_reach (out ++ ts) w'.

Definition sock_pool (ts : list SocketTransport) (w : World) : Prop :=
  closes_ok (w_log w) /\ open_fds (w_log w) = list_to_set (fds ts) /\ NoDup (fds ts).

Lemma own_fds t ts : list_to_set (fds (t :: ts)) = list_to_set (fds ts) ∪ own t.
Proof. unfold own. simpl. destruct (0 <=? st_fd t); set_solver. Qed.

Lemma nodup_fds t ts :
  NoDup (fds (t :: ts)) <-> own t ## list_to_set (fds ts) /\ NoDup (fds ts).
Proof.
  unfold own. simpl. destruct (0 <=? st_fd t); [rewrite NoDup_cons|]; set_solver.
Qed.

Lemma sock_pool_cons t ts w :
  sock_pool (t :: ts) w <-> holds (list_to_set (fds ts)) t w /\ NoDup (fds ts).
Proof.
  unfold sock_pool, holds. rewrite nodup_fds, own_fds. naive_solver.
Qed.

#[export] Instance sock_pool_perm : Proper ((≡ₚ) ==> (=) ==> iff) sock_pool.
Proof.
  intros ts ts' Hp w ? <-. assert (Hf : fds ts ≡ₚ fds ts') by (unfold fds; by rewrite Hp).
  assert (Hs : list_to_set (C := gset Z) (fds ts) = list_to_set (fds ts'))
    by (apply set_eq; intros x; rewrite !elem_of_list_to_set; by rewrite Hf).
  unfold sock_pool. by rewrite Hs, Hf.
Qed.

(** [m_fd = ::socket(...)] on a transport without a descriptor. *)
Lemma wp_socket {X} F t args (k : Z -> Method SocketTransport X) Q w :
  holds F t w -> st_fd t < 0 ->
  (forall fd w', holds F (set_st_fd fd t) w' -> wp (k fd (set_st_fd fd t)) Q w') ->
  wp ((fd ← call (lib sys_socket args); _ ← update (set_st_fd fd); k fd) t) Q w.
Proof.
  intros (Hc & Ho & _) Hfd Hk. apply wp_meth_bind, wp_call, wp_lib. intros fd Hans.
  apply wp_meth_bind, wp_update. simpl. apply Hk.
  pose proof (own_neg _ Hfd) as Hown.
  assert (Hfresh : fd ∉ open_fds (w_log w)) by (rewrite Hans; apply fresh_fd; by left).
  rewrite Ho, Hown in Hfresh. unfold holds, own. simpl. unfold opens, closes. simpl.
  destruct (0 <=? fd); (split_and!; [by intros ? [=]|done|rewrite Ho, Hown; set_solver|set_solver]).
Qed.

Lemma holds_Connect F t addr config w :
  holds F t w -> st_fd t < 0 -> wp (Connect addr config t) (fun r w' => holds F r.2 w') w.
Proof.
  intros Hh Hfd. unfold Connect. apply wp_meth_bind, wp_update, wp_meth_bind, wp_call. simpl.
  eapply wp_mono; [apply silent_ResolveAddress|]. intros [[ret sa] len] w1 [E1 C1].
  assert (Hh1 : holds F (set_st_config config t) w1)
    by (destruct Hh as (? & ? & ?); split_and!; [by apply C1|by rewrite E1|done]).
  cbn beta iota. destruct (bool_decide _); [by apply wp_meth_ret|].
  eapply wp_socket; [done|done|]. intros fd w2 Hh2. clear Hh Hh1 E1 C1 Hfd. revert F w2 Hh2.
  generalize (set_st_fd fd (set_st_config config t)). intros t2 F w2 Hh2. revert F t2 w2 Hh2.
  match goal with |- forall F t2 w2, _ -> wp (?m t2) _ w2 => change (keeps m) end. keeps.
Qed.

Lemma holds_Bind F t addr backlog w :
  holds F t w -> st_fd t < 0 -> wp (Bind addr backlog t) (fun r w' => holds F r.2 w') w.
Proof.
  intros Hh Hfd. unfold Bind. apply wp_meth_bind, wp_call. simpl.
  eapply wp_mono; [apply silent_ResolveAddress|]. intros [[ret sa] len] w1 [E1 C1].
  assert (Hh1 : holds F t w1)
    by (destruct Hh as (? & ? & ?); split_and!; [by apply C1|by rewrite E1|done]).
  cbn beta iota. destruct (bool_decide _); [by apply wp_meth_ret|].
  eapply wp_socket; [done|done|]. intros fd w2 Hh2. clear Hh Hh1 E1 C1 Hfd. revert F w2 Hh2.
  generalize (set_st_fd fd t). intros t2 F w2 Hh2. revert F t2 w2 Hh2.
  match goal with |- forall F t2 w2, _ -> wp (?m t2) _ w2 => change (keeps m) end.
  unfold set_int. keeps.
Qed.

Lemma silent_transfer n : silent (transfer n true).
Proof. unfold transfer. simpl. silent. Qed.

Lemma keeps_io op t F w :
  match op with SSend _ _ | SRecv _ _ | SSetConfig _ | SClose => True | _ => False end ->
  holds F t w -> wp (run_sock op t) (fun out w' => exists t', out = [t'] /\ holds F t' w') w.
Proof.
  intros Hop Hh.
  assert (Hone : forall X (m : Method SocketTransport X), keeps m ->
            wp (r ← m t; mret [r.2]) (fun out w' => exists t', out = [t'] /\ holds F t' w') w).
  { intros X m Hm. apply wp_bind. eapply wp_mono; [by apply Hm|]. intros [x t'] w' Hh'.
    apply wp_ret. by exists t'. }
  destruct op; try done; simpl; apply Hone; unfold Send, Recv, SetConfig; keeps;
    apply silent_transfer.
Qed.

(** The two ends of [Accept]. *)
Definition accepted F t (r : option SocketTransport * SocketTransport) (w : World) : Prop :=
  r.2 = t /\
  match r.1 with
  | Some child => holds (F ∪ own t) child w /\ own t ## F
  | None => holds F t w
  end.

(** An accepted descriptor that is given back. *)
Lemma give_back F t fd w :
  0 <= fd -> own t ## F -> holds (F ∪ own t) (socket_of_fd fd) w ->
  wp ((_ ← call (lib sys_close [AInt fd]); mret None) t) (accepted F t) w.
Proof.
  intros E Hd (Hc2 & Ho2 & Hd2). apply wp_meth_bind, wp_call, wp_lib. intros r _.
  apply wp_meth_ret. split; [done|]. unfold own in Ho2, Hd2. simpl in Ho2, Hd2.
  rewrite (proj2 (Z.leb_le _ _) E) in Ho2, Hd2. unfold holds. simpl.
  split_and!; [intros ? [= <-]; set_solver|done| |done]. rewrite Ho2. set_solver.
Qed.

Lemma holds_Accept F t w :
  holds F t w ->
  wp (Accept t) (accepted F t) w.
Proof.
  intros Hh. pose proof Hh as (Hc & Ho & Hd). unfold Accept.
  do 2 apply wp_meth_bind, wp_this. simpl.
  destruct (_ || _); [by apply wp_meth_ret|].
  apply wp_meth_bind, wp_call, wp_lib. intros fd Hans. simpl.
  set (w1 := set_log _ w). assert (Hfresh : fd ∉ F ∪ own t)
    by (rewrite <- Ho, Hans; apply fresh_fd; by right).
  destruct (fd <? 0) eqn:E; bools.
  { apply wp_meth_ret. split; [done|]. unfold holds. simpl. unfold opens, closes. simpl.
    rewrite (proj2 (Z.leb_gt _ _) E). by split_and!; [by intros ? [=]|..]. }
  assert (Hh1 : holds (F ∪ own t) (socket_of_fd fd) w1).
  { unfold holds, own. simpl. unfold opens, closes. simpl. rewrite (proj2 (Z.leb_le _ _) E).
    rewrite Ho. unfold own in Hfresh |- *. split_and!; [by intros ? [=]|done|set_solver|set_solver]. }
  clearbody w1. apply wp_meth_bind, wp_call, wp_gets, wp_meth_bind, wp_call. simpl.
  eapply wp_mono; [apply silent_SetNonBlocking|]. intros ret w2 [E2 C2].
  assert (Hh2 : holds (F ∪ own t) (socket_of_fd fd) w2)
    by (destruct Hh1 as (? & ? & ?); split_and!; [by apply C2|by rewrite E2|done]).
  destruct (bool_decide _); [by apply give_back|].
  apply wp_meth_bind, wp_call, wp_lib. intros p _. simpl.
  assert (Hh3 : holds (F ∪ own t) (socket_of_fd fd) (set_log (mkEvent op_new [AStr "SocketTransport"] p :: w_log w2) w2))
    by (destruct Hh2 as (? & ? & ?); split_and!; [by split|done..]).
  destruct (p =? nullptr); [by apply give_back|].
  apply wp_meth_bind, wp_this, wp_meth_bind, wp_call. simpl.
  eapply wp_mono; [apply silent_peer_address|]. intros addr w4 [E4 C4].
  apply wp_meth_ret. split; [done|]. split; [|done].
  destruct Hh3 as (? & ? & ?). destruct addr; (split_and!; [by apply C4|by rewrite E4|done]).
Qed.

Lemma wp_run_sock op t ts w :
  sock_pool (t :: ts) w -> sock_disciplined op t ->
  wp (run_sock op t) (fun out w' => sock_pool (out ++ ts) w') w.
Proof.
  intros [Hh Hnd]%sock_pool_cons Hdis.
  assert (Hone : forall t' w', holds (list_to_set (fds ts)) t' w' -> sock_pool ([t'] ++ ts) w')
    by (intros; by apply sock_pool_cons).
  destruct op as [addr config|addr backlog| |data len|data len|config| |];
    try (eapply wp_mono; [by apply keeps_io|]; intros out w' (t' & -> & ?); by apply Hone).
  - simpl. apply wp_bind. eapply wp_mono; [by apply holds_Connect|]. intros [r t'] w' ?.
    by apply wp_ret, Hone.
  - simpl. apply wp_bind. eapply wp_mono; [by apply holds_Bind|]. intros [r t'] w' ?.
    by apply wp_ret, Hone.
  - simpl. apply wp_bind. eapply wp_mono; [by apply holds_Accept|].
    intros [r t'] w' [-> Hr]. apply wp_ret. simpl in *. destruct r as [child|]; [|by apply Hone].
    simpl. destruct Hr as [Hr Hd]. apply sock_pool_cons. rewrite own_fds, nodup_fds.
    destruct Hr as (? & ? & ?). by split_and!.
  - simpl. apply wp_bind, wp_bind. eapply wp_mono; [by apply Close_gives_back|].
    intros [[] t'] w' [(Hc & Ho & Hd) Hneg]. do 2 apply wp_ret. simpl.
    split_and!; [done| |done]. rewrite Ho. cbn [snd] in *. rewrite own_neg by done. set_solver.
Qed.

Lemma wp_Create ts w :
  sock_pool ts w -> wp Create (fun r w' => sock_pool (option_list r ++ ts) w') w.
Proof.
  intros (Hc & Ho & Hn). unfold Create. apply wp_bind, wp_lib. intros p _. apply wp_ret.
  assert (Hp : sock_pool ts (set_log (mkEvent op_new [AStr "SocketTransport"] p :: w_log w) w))
    by by split_and!.
  by destruct (p =? nullptr).
Qed.

Lemma sock_reach_pool ts w : sock_reach ts w -> sock_pool ts w.
Proof.
  induction 1 as [|ts w r w' _ IH Hr|ts0 t ts w op out w' _ IH Hp Hd Hr].
  - split_and!; [done|done|constructor].
  - exact (wp_run _ _ _ _ _ (wp_Create _ _ IH) Hr).
  - rewrite Hp in IH. exact (wp_run _ _ _ _ _ (wp_run_sock _ _ _ _ IH Hd) Hr).
Qed.

(** (C25) In every state reached by creating transports and using them with discipline, a
    descriptor was only ever closed while it was open; the open descriptors are exactly the
    ones the live transports hold, each by one transport; and every operation returns. *)
Theorem sockets_own_descriptors ts0 t ts w op :
  sock_reach ts0 w -> ts0 ≡ₚ t :: ts -> sock_disciplined op t ->
  closes_ok (w_log w) /\ open_fds (w_log w) = list_to_set (fds ts0) /\ NoDup (fds ts0) /\
  exists out w', run_sock op t w = Some (out, w') /\ sock_pool (out ++ ts) w'.
Proof.
  intros Hr%sock_reach_pool Hp Hd. pose proof Hr as (Hc & Ho & Hn). split_and!; [done..|].
  rewrite Hp in Hr. pose proof (wp_run_sock _ _ _ _ Hr Hd) as Hw. unfold wp in Hw.
  destruct (run_sock op t w) as [[out w']|]; [|done]. by exists out, w'.
Qed.
End sock_pool.

(** ** Addresses *)
Section addresses.
Context `{Library} `{SecureC} {RS : Resolver}.
Hypothesis bytes_len : forall h p n, length (bytes_at h p n) = Z.to_nat n.
Implicit Types (t : SocketTransport) (w : World).

Lemma of_byte_of x : of_byte (byte_of x) = x mod 256.
Proof.
  unfold of_byte, byte_of. rewrite N_ascii_embedding; pose proof (Z.mod_pos_bound x 256); lia.
Qed.

Lemma read_net16_net16 port bs : 0 <= port < 65536 -> read_net16 (net16 port ++ bs) = port.
Proof.
  intros Hp. simpl. rewrite !of_byte_of. rewrite (Z.mod_small (port / 256)).
  - pose proof (Z.div_mod port 256). lia.
  - split; [apply Z.div_pos; lia|apply Z.div_lt_upper_bound; lia].
Qed.

Lemma length_write_at off bs cells :
  (off + length bs <= length cells)%nat -> length (write_at off bs cells) = length cells.
Proof. intros. unfold write_at. rewrite !length_app, length_take, length_drop. lia. Qed.

(** A resolved address fills the [sockaddr_storage]. *)
Definition resolved (addr : TransportAddress) (r : TransportResult * list ascii * Z) : Prop :=
  r.1.1 = SUCCESS ->
  length r.1.2 = Z.to_nat sockaddr_size /\
  r.2 = if decide (ta_type addr = IPv6) then sockaddr_in6_size else sockaddr_in_size.

Lemma wp_ResolveByName addr sockAddr w :
  ta_type addr <> IPv6 -> length sockAddr = Z.to_nat sockaddr_size ->
  wp (ResolveByName addr sockAddr) (fun r _ => resolved addr r) w.
Proof.
  intros Hty Hlen. unfold ResolveByName. apply wp_bind, wp_lib. intros gai _.
  assert (Hbad : resolved addr (ERROR, sockAddr, 0)) by done.
  apply wp_bind. destruct (gai =? 0); [apply wp_gets|by apply wp_ret].
  set (result := out_value _). destruct (_ || _); [by apply wp_ret|].
  apply wp_bind, wp_gets. set (found := ai_addr _ _).
  destruct (sockaddr_size <? _) eqn:E; bools.
  { apply wp_bind, wp_lib. intros ? _. by apply wp_ret. }
  rewrite memcpy_s_ok by (rewrite ?Hlen; unfold sockaddr_size, SECUREC_MEM_MAX_LEN in *; lia).
  change (negb (EOK =? EOK)) with false. apply wp_bind, wp_lib. intros ? _. apply wp_ret. intros _.
  rewrite decide_False by done. split; [|done]. cbn [fst snd].
  rewrite length_app, length_drop, Hlen. unfold sockaddr_size in *. lia.
Qed.

Lemma wp_ResolveAddress addr w :
  wp (ResolveAddress addr) (fun r _ => resolved addr r) w.
Proof.
  assert (Hpre : forall fam port, length (write_at 2 (net16 port) (write_at 0 (host16 fam)
      (replicate (Z.to_nat sockaddr_size) NUL))) = Z.to_nat sockaddr_size).
  { intros. change (Z.to_nat sockaddr_size) with 128%nat.
    rewrite !length_write_at; rewrite ?length_write_at, ?length_replicate; simpl; lia. }
  unfold ResolveAddress. destruct (ta_type addr) eqn:Hty; try by apply wp_ret.
  all: apply wp_bind, wp_lib; intros rc _; destruct (rc =? 1); cbn [negb].
  all: try (apply wp_ResolveByName; [by rewrite Hty|apply Hpre]).
  all: try by apply wp_ret.
  all: apply wp_bind, wp_gets, wp_ret; intros _; rewrite Hty; cbn [fst snd]; split; [|done].
  all: rewrite length_write_at; rewrite Hpre; [done|rewrite bytes_len; vm_compute; lia].
Qed.

(** *** What [Connect] reports *)
Lemma wp_Close t w : wp (Close t) (fun r _ => st_fd r.2 < 0) w.
Proof.
  unfold Close. apply wp_meth_bind, wp_this. simpl. destruct (0 <=? st_fd t) eqn:E.
  - apply wp_meth_bind, wp_meth_bind, wp_call, wp_lib. intros r _.
    by apply wp_update, wp_meth_bind, wp_update, wp_update.
  - apply wp_meth_bind, wp_meth_ret, wp_meth_bind, wp_update, wp_update. simpl. by bools.
Qed.

Lemma wp_MapSocketError w : wp MapSocketError (fun r w' => r <> SUCCESS /\ w' = w) w.
Proof. unfold MapSocketError. apply wp_bind, wp_gets. by repeat case_match; apply wp_ret. Qed.

Lemma wp_SetSocketOptions fd config w :
  wp (SetSocketOptions fd config) (fun r _ => r = SUCCESS) w.
Proof.
  unfold SetSocketOptions, set_int, set_timeout.
  repeat (apply wp_bind; case_match; [apply wp_lib; intros ? _|apply wp_ret]); by apply wp_ret.
Qed.

Definition nonblocking_on (fd : Z) (h : History) : Prop :=
  exists flags rc h0,
    h = mkEvent sys_fcntl [AInt fd; AInt F_SETFL; AInt (Z.lor flags O_NONBLOCK)] rc
        :: mkEvent sys_fcntl [AInt fd; AInt F_GETFL; AInt 0] flags :: h0 /\
    0 <= flags /\ 0 <= rc.

Lemma wp_SetNonBlocking fd w :
  wp (SetNonBlocking fd) (fun r w' => r = SUCCESS -> nonblocking_on fd (w_log w')) w.
Proof.
  unfold SetNonBlocking. apply wp_bind, wp_lib. intros flags _.
  destruct (flags <? 0) eqn:E; [by apply wp_ret|]. apply wp_bind, wp_lib. intros rc _.
  destruct (rc <? 0) eqn:E2; apply wp_ret; [done|]. intros _. bools. by exists flags, rc, (w_log w).
Qed.

(** The last thing a transport that [Connect] left connected has done. *)
Definition connecting (addr : TransportAddress) (config : TransportConfig)
    (t : SocketTransport) (w : World) : Prop :=
  st_remoteAddr t = addr /\ st_config t = config /\
  exists sockAddr addrLen rc h,
    w_log w = mkEvent sys_connect [AInt (st_fd t); ABytes sockAddr; AInt addrLen] rc :: h /\
    nonblocking_on (st_fd t) h /\ resolved addr (SUCCESS, sockAddr, addrLen) /\
    (0 <= rc \/ out_value (w_log w) = EINPROGRESS).

Definition connect_result (addr : TransportAddress) (config : TransportConfig)
    (r : TransportResult * SocketTransport) (w : World) : Prop :=
  IsConnected r.2 = bool_decide (r.1 = SUCCESS) /\
  (r.1 <> SUCCESS -> st_fd r.2 < 0) /\ (r.1 = SUCCESS -> connecting addr config r.2 w).

Lemma connect_refused addr config ret t w :
  ret <> SUCCESS -> st_fd t < 0 -> connect_result addr config (ret, t) w.
Proof.
  intros Hr Hfd. split_and!; [|done|done]. unfold IsConnected. cbn [fst snd].
  by rewrite (proj2 (Z.leb_gt _ _) Hfd), andb_false_r, bool_decide_eq_false_2.
Qed.

Lemma wp_close_with addr config ret t w :
  ret <> SUCCESS -> wp (close_with ret t) (connect_result addr config) w.
Proof.
  intros Hr. unfold close_with. apply wp_meth_bind. eapply wp_mono; [apply wp_Close|].
  intros [[] t'] w' Hfd. apply wp_meth_ret. by apply connect_refused.
Qed.

Lemma wp_socket_Connect addr config t w :
  st_fd t < 0 -> wp (Connect addr config t) (connect_result addr config) w.
Proof.
  intros Hfd. unfold Connect. apply wp_meth_bind, wp_update, wp_meth_bind, wp_call. simpl.
  eapply wp_mono; [apply wp_ResolveAddress|]. intros [[ret sa] len] w1 Hres. cbn beta iota.
  destruct (bool_decide _) eqn:E; bools; [apply wp_meth_ret; by apply connect_refused|].
  apply wp_meth_bind, wp_call, wp_lib. intros fd _. apply wp_meth_bind, wp_update. cbn [fst snd].
  destruct (fd <? 0) eqn:Ef; bools; [apply wp_meth_ret; by apply connect_refused|].
  apply wp_meth_bind, wp_call. eapply wp_mono; [apply wp_SetSocketOptions|].
  intros ? w2 ->. cbn [fst snd]. rewrite bool_decide_eq_false_2 by auto.
  apply wp_meth_bind, wp_call. eapply wp_mono; [apply wp_SetNonBlocking|].
  intros ret2 w3 Hnb. cbn [fst snd].
  destruct (bool_decide (ret2 <> SUCCESS)) eqn:E2; bools; [by apply wp_close_with|].
  apply wp_meth_bind, wp_call, wp_lib. intros rc _. apply wp_meth_bind, wp_call, wp_gets.
  cbn [fst snd]. destruct (_ && _) eqn:E3.
  { apply wp_meth_bind. eapply wp_mono; [apply wp_Close|]. intros [[] t'] w' Hneg.
    apply wp_call. eapply wp_mono; [apply wp_MapSocketError|]. intros r w4 [Hr _].
    by apply connect_refused. }
  apply wp_meth_bind, wp_update, wp_meth_bind, wp_update, wp_meth_ret. split_and!; [|done|].
  { unfold IsConnected. simpl. by apply Z.leb_le. }
  intros _. split_and!; [done|done|]. exists sa, len, rc, (w_log w3). split_and!; [done| | |].
  - apply Hnb. by destruct (decide (ret2 = SUCCESS)).
  - intros _. apply Hres. by destruct (decide (ret = SUCCESS)).
  - apply andb_false_iff in E3 as [E3|E3]; bools; [by left|right]. done.
Qed.

(** (C26) [Connect], on a transport without a descriptor, returns; it reports success exactly
    when the transport says it is connected, and a failure leaves no descriptor. Success
    means that the descriptor was put into non-blocking mode before the one [connect] on it,
    with a full [sockaddr_storage] and the length of the address family, and that this call
    succeeded or was still in progress. *)
Theorem Connect_exact addr config t w :
  st_fd t < 0 -> wp (Connect addr config t) (connect_result addr config) w.
Proof. apply wp_socket_Connect. Qed.

(** *** Addresses in network form *)
Definition family_type (addr : TransportAddress) : TransportAddressType :=
  if decide (ta_type addr = IPv6) then IPv6 else IPv4.
Definition addr_bytes (addr : TransportAddress) : Z :=
  if decide (ta_type addr = IPv6) then 16 else 4.

(** [peer_address] asks [inet_ntop] for the text of the address at its place. *)
Definition reads_as (sockAddr : list ascii) (family : Z) (raw : list ascii)
    (ty : TransportAddressType) (port : Z) : Prop :=
  forall w, exists a p,
    peer_address sockAddr w =
      Some (Some a, set_log (mkEvent inet_ntop [AInt family; ABytes raw] p :: w_log w) w) /\
    ta_type a = ty /\ ta_port a = port.

Lemma peer_v4 port raw rest :
  0 <= port < 65536 -> length raw = 4%nat ->
  reads_as (host16 AF_INET ++ net16 port ++ raw ++ rest) AF_INET raw IPv4 port.
Proof.
  intros Hp Hraw w. unfold peer_address.
  change (read_host16 _ =? AF_INET) with true. cbn iota.
  change (drop 2 (host16 AF_INET ++ ?l)) with l. rewrite read_net16_net16 by done.
  change (drop 4 (host16 AF_INET ++ net16 port ++ ?l)) with l. rewrite take_app_length' by done.
  unfold ntop, lib, lib_cstring, gets, mbind, M_bind, mret, M_ret. simpl.
  destruct (_ =? nullptr); by do 2 eexists.
Qed.

Lemma peer_v6 port pad raw rest :
  0 <= port < 65536 -> length pad = 4%nat -> length raw = 16%nat ->
  reads_as (host16 AF_INET6 ++ net16 port ++ pad ++ raw ++ rest) AF_INET6 raw IPv6 port.
Proof.
  intros Hp Hpad Hraw w. unfold peer_address.
  change (read_host16 _) with AF_INET6. change (AF_INET6 =? AF_INET) with false.
  change (AF_INET6 =? AF_INET6) with true. cbn iota.
  change (drop 2 (host16 AF_INET6 ++ ?l)) with l. rewrite read_net16_net16 by done.
  replace (take 16 (drop 8 (host16 AF_INET6 ++ net16 port ++ pad ++ raw ++ rest))) with raw.
  - unfold ntop, lib, lib_cstring, gets, mbind, M_bind, mret, M_ret. simpl.
    destruct (_ =? nullptr); by do 2 eexists.
  - change (drop 8 (host16 AF_INET6 ++ net16 port ++ ?l)) with (drop 4 l).
    by rewrite drop_app_length', take_app_length'.
Qed.

(** Round trip of a literal address: what [ResolveAddress] builds for [connect] and
    [bind], read the way [Accept] reads the address of a peer, gives the same family and
    port, and [inet_ntop] is handed exactly the bytes [inet_pton] produced. *)
Theorem resolve_peer_roundtrip addr w :
  ta_type addr <> URMA -> ta_type addr <> CUSTOM -> 0 <= ta_port addr < 65536 ->
  answer (w_log w) inet_pton [AInt (family_of addr); AStr (cstr (ta_host addr))] = 1 ->
  exists sockAddr addrLen w1,
    ResolveAddress addr w = Some ((SUCCESS, sockAddr, addrLen), w1) /\
    reads_as sockAddr (family_of addr) (bytes_at (w_log w1) nullptr (addr_bytes addr))
      (family_type addr) (ta_port addr).
Proof.
  intros Hu Hc Hp Hans. unfold ResolveAddress, family_of, addr_bytes, family_type in *.
  unfold lib, lib_bytes, gets, mbind, M_bind, mret, M_ret.
  destruct (ta_type addr); try done; rewrite ?decide_False, ?decide_True in * by done.
  all: rewrite Hans; cbn [Z.eqb Pos.eqb negb]; do 3 eexists; (split; [reflexivity|]).
  1, 3: by apply peer_v4; [|rewrite bytes_len].
  by apply peer_v6; [|done|rewrite bytes_len].
Qed.
End addresses.

(** ** A system for the witnesses *)

(** Descriptors are fresh, other calls succeed, a peer comes from 10.0.0.1:443. *)
Definition sock_answer (h : History) (f : LibFn) (args : list Arg) : Z :=
  match f with
  | sys_socket | sys_accept => fresh (open_fds h)
  | sys_connect | sys_bind | sys_listen | sys_fcntl | sys_setsockopt | sys_close => 0
  | _ => 1
  end.

#[export] Instance SockLibrary : Library := {|
  answer := sock_answer;
  out_value _ := 0;
  cstring_at _ _ := "10.0.0.1"%string;
  bytes_at _ _ n := replicate (Z.to_nat n) "001"%char;
  asn1_data _ _ := []
|}.

#[export] Instance SockFresh : FreshFds.
Proof. intros h f args [-> | ->]; apply is_fresh. Qed.

Lemma sock_bytes_len h p n : length (bytes_at (Library := SockLibrary) h p n) = Z.to_nat n.
Proof. apply length_replicate. Qed.

#[export] Instance RefResolver : Resolver := {|
  ai_addr _ _ := [];
  peer_addr _ := host16 AF_INET ++ net16 443 ++ replicate 124 NUL
|}.

Definition try_sock {X} (d : X) (m : M X) (w : World) : X * World :=
  match m w with Some r => r | None => (d, w) end.

(** A transport is created, bound, and accepts a connection. *)
Definition created : option SocketTransport * World := try_sock None Create world0.
Definition bound : list SocketTransport * World :=
  try_sock [] (run_sock (SBind (addr_IPv4 "0.0.0.0" 443) 128) new_socket) created.2.
Definition server : SocketTransport := hd new_socket bound.1.
Definition accepted_one : list SocketTransport * World := try_sock [] (run_sock SAccept server) bound.2.
Definition child : SocketTransport := hd new_socket accepted_one.1.

Lemma sockets_own_descriptors_witness :
  sock_reach [child; server] accepted_one.2 /\
  open_fds (w_log accepted_one.2) = {[0; 1]} /\
  exists out w', run_sock SDelete child accepted_one.2 = Some (out, w') /\
                 sock_pool (out ++ [server]) w'.
Proof.
  assert (Hr : sock_reach [child; server] accepted_one.2).
  { refine (sock_op [server] server [] bound.2 SAccept [child; server] _ _ _ I _);
      [|reflexivity|vm_compute; reflexivity].
    refine (sock_op [new_socket] new_socket [] created.2 (SBind (addr_IPv4 "0.0.0.0" 443) 128)
              [server] _ _ _ _ _); [|reflexivity|reflexivity|vm_compute; reflexivity].
    refine (sock_create [] world0 (Some new_socket) _ sock_start _). vm_compute; reflexivity. }
  destruct (sockets_own_descriptors [child; server] child [server] accepted_one.2 SDelete
              Hr (Permutation_refl _) I) as (_ & Ho & _ & Hrun).
  split; [exact Hr|]. split; [|exact Hrun].
  rewrite Ho. vm_compute. reflexivity.
Defined.

Lemma Connect_exact_witness :
  wp (Connect (addr_IPv4 "10.0.0.1" 443) default_config new_socket)
     (connect_result (addr_IPv4 "10.0.0.1" 443) default_config) world0 /\
  IsConnected (try_sock (ERROR, new_socket)
    (Connect (addr_IPv4 "10.0.0.1" 443) default_config new_socket) world0).1.2 = true.
Proof.
  split; [|vm_compute; reflexivity].
  apply (Connect_exact sock_bytes_len). reflexivity.
Defined.

Lemma resolve_peer_roundtrip_witness :
  exists sockAddr addrLen w1,
    ResolveAddress (addr_IPv4 "10.0.0.1" 443) world0 = Some ((SUCCESS, sockAddr, addrLen), w1) /\
    reads_as sockAddr AF_INET (bytes_at (w_log w1) nullptr 4) IPv4 443.
Proof.
  apply (resolve_peer_roundtrip sock_bytes_len
           (addr_IPv4 "10.0.0.1" 443) world0); [discriminate|discriminate|vm_compute; split; congruence|].
  vm_compute. reflexivity.
Defined.
