(* ===== verification/Urma.v ===== *)
(** * The transport interface and its two implementations

    [ITransport] of [src/include/scf_transport.h] as a class of operations with the laws a
    client may rely on; the URMA stub of [src/transport/urma_transport.cpp]; and the proof
    that the stub and the socket transport both keep the laws. *)
From Stdlib Require Import ZArith Lia Ascii String.
From stdpp Require Import base list fin_maps gmap strings.
From S2P Require Import Prelude Types Machine Lifecycle Socket SockSafe.
Open Scope Z_scope.

(** ** The interface *)
Class ITransport (T : Type) : Type := {
  t_GetProtocol : T -> TransportProtocol;
  t_Connect : TransportAddress -> TransportConfig -> Method T TransportResult;
  t_Bind : TransportAddress -> Z -> Method T TransportResult;
  t_Accept : Method T (option T);
  t_Send : list ascii -> Z -> bool -> Method T (TransportResult * option Z);
  t_Recv : Z -> Z -> bool -> Method T (TransportResult * option Z);
  t_Close : Method T unit;
  t_GetNativeHandle : T -> Z;
  t_IsConnected : T -> bool;
  t_GetLocalAddress : T -> TransportAddress;
  t_GetRemoteAddress : T -> TransportAddress;
  t_SetConfig : TransportConfig -> Method T TransportResult;
  t_Clone : Method T (option T)
}.

(** What an implementation promises. *)
Class TransportLaws (T : Type) `{ITransport T} : Prop := {
  law_connect : forall addr config t w, t_GetNativeHandle t < 0 ->
    wp (t_Connect addr config t)
       (fun r _ => t_IsConnected r.2 = bool_decide (r.1 = SUCCESS) /\
                   (r.1 <> SUCCESS -> t_GetNativeHandle r.2 < 0)) w;
  law_close : forall t w,
    wp (t_Close t) (fun r _ => t_IsConnected r.2 = false /\ t_GetNativeHandle r.2 < 0) w;
  law_send : forall data len outs t w, t_IsConnected t = false ->
    wp (t_Send data len outs t) (fun r w' => r.1.1 = ERROR /\ r.2 = t /\ w' = w) w;
  law_recv : forall data len outs t w, t_IsConnected t = false ->
    wp (t_Recv data len outs t) (fun r w' => r.1.1 = ERROR /\ r.2 = t /\ w' = w) w;
  law_config : forall config t w,
    wp (t_SetConfig config t) (fun r _ => r.1 = SUCCESS /\
      t_IsConnected r.2 = t_IsConnected t /\ t_GetNativeHandle r.2 = t_GetNativeHandle t) w;
  law_clone : forall t w,
    wp (t_Clone t) (fun r _ => r.2 = t /\ forall copy, r.1 = Some copy ->
      t_IsConnected copy = t_IsConnected t /\ t_GetNativeHandle copy = t_GetNativeHandle t /\
      t_GetProtocol copy = t_GetProtocol t /\ t_GetRemoteAddress copy = t_GetRemoteAddress t) w
}.

(** ** The URMA stub *)
Record UrmaTransport : Type := mkUrma {
  ut_connected : bool;
  ut_localAddr : TransportAddress;
  ut_remoteAddr : TransportAddress;
  ut_config : TransportConfig
}.
Definition new_urma : UrmaTransport := mkUrma false no_address no_address default_config.
Definition set_ut_connected (b : bool) (t : UrmaTransport) : UrmaTransport :=
  mkUrma b (ut_localAddr t) (ut_remoteAddr t) (ut_config t).
Definition set_ut_config (c : TransportConfig) (t : UrmaTransport) : UrmaTransport :=
  mkUrma (ut_connected t) (ut_localAddr t) (ut_remoteAddr t) c.

Section urma.
Context `{Library}.

Definition GetProtocol (t : UrmaTransport) : TransportProtocol := URMA_PROTOCOL.

Definition Connect (addr : TransportAddress) (config : TransportConfig)
    : Method UrmaTransport TransportResult :=
  _ ← update (set_ut_config config);
  _ ← update (set_ut_connected false);
  mret ERROR.

Definition Bind (addr : TransportAddress) (backlog : Z) : Method UrmaTransport TransportResult :=
  mret ERROR.

Definition Accept : Method UrmaTransport (option UrmaTransport) := mret None.

(** The result and what is stored through the out-pointer, when it is not null. *)
Definition Send (data : list ascii) (len : Z) (outs : bool)
    : Method UrmaTransport (TransportResult * option Z) :=
  return_if negb outs with (mret (ERROR, None)) ;;
  mret (ERROR, Some 0).
Definition Recv (data len : Z) (outs : bool)
    : Method UrmaTransport (TransportResult * option Z) :=
  return_if negb outs with (mret (ERROR, None)) ;;
  mret (ERROR, Some 0).

Definition Close : Method UrmaTransport unit := update (set_ut_connected false).
Definition delete_urma (t : UrmaTransport) : M unit := _ ← Close t; mret tt.

Definition GetNativeHandle (t : UrmaTransport) : Z := -1.
Definition IsConnected (t : UrmaTransport) : bool := ut_connected t.
Definition GetLocalAddress (t : UrmaTransport) : TransportAddress := ut_localAddr t.
Definition GetRemoteAddress (t : UrmaTransport) : TransportAddress := ut_remoteAddr t.

Definition SetConfig (config : TransportConfig) : Method UrmaTransport TransportResult :=
  _ ← update (set_ut_config config); mret SUCCESS.

Definition Clone : Method UrmaTransport (option UrmaTransport) :=
  p ← call (lib op_new [AStr "UrmaTransport"]);
  return_if p =? nullptr with (mret None) ;;
  copy ← this_ id;
  mret (Some copy).

(** [UrmaTransportFactory::Create]. *)
Definition Create : M (option UrmaTransport) :=
  p ← lib op_new [AStr "UrmaTransport"];
  mret (if p =? nullptr then None else Some new_urma).
End urma.

(** ** The implementations *)
#[export] Instance UrmaImpl `{Library} : ITransport UrmaTransport := {|
  t_GetProtocol := GetProtocol; t_Connect := Connect; t_Bind := Bind; t_Accept := Accept;
  t_Send := Send; t_Recv := Recv; t_Close := Close; t_GetNativeHandle := GetNativeHandle;
  t_IsConnected := IsConnected; t_GetLocalAddress := GetLocalAddress;
  t_GetRemoteAddress := GetRemoteAddress; t_SetConfig := SetConfig; t_Clone := Clone
|}.

#[export] Instance SocketImpl `{Library} `{SecureC} `{Resolver} : ITransport SocketTransport := {|
  t_GetProtocol := Socket.GetProtocol; t_Connect := Socket.Connect; t_Bind := Socket.Bind;
  t_Accept := Socket.Accept; t_Send := Socket.Send; t_Recv := Socket.Recv;
  t_Close := Socket.Close; t_GetNativeHandle := Socket.GetNativeHandle;
  t_IsConnected := Socket.IsConnected; t_GetLocalAddress := Socket.GetLocalAddress;
  t_GetRemoteAddress := Socket.GetRemoteAddress; t_SetConfig := Socket.SetConfig;
  t_Clone := Socket.Clone
|}.

#[export] Instance UrmaLaws `{Library} : TransportLaws UrmaTransport.
Proof.
  split; simpl.
  - intros. by apply wp_meth_bind, wp_update, wp_meth_bind, wp_update, wp_meth_ret.
  - intros. by apply wp_update.
  - intros data len [] t w _; by apply wp_meth_ret.
  - intros data len [] t w _; by apply wp_meth_ret.
  - intros. by apply wp_meth_bind, wp_update, wp_meth_ret.
  - intros t w. apply wp_meth_bind, wp_call, wp_lib. intros p _. simpl.
    destruct (p =? nullptr); [by apply wp_meth_ret|].
    apply wp_meth_bind, wp_this, wp_meth_ret. split; [done|]. by intros copy [= <-].
Qed.

Section socket_laws.
Context `{Library} `{SecureC} `{Resolver}.

Lemma unconnected t :
  Socket.IsConnected t = false -> (st_fd t <? 0) || negb (st_connected t) = true.
Proof.
  unfold Socket.IsConnected. intros [E|E]%andb_false_iff.
  - by rewrite E, orb_true_r.
  - apply Z.leb_gt in E. by rewrite (proj2 (Z.ltb_lt _ _) E).
Qed.

Lemma closed_unconnected t : st_fd t < 0 -> Socket.IsConnected t = false.
Proof.
  intros E. unfold Socket.IsConnected. by rewrite (proj2 (Z.leb_gt _ _) E), andb_false_r.
Qed.

#[export] Instance SocketLaws
    (BL : forall h p n, length (bytes_at h p n) = Z.to_nat n) : TransportLaws SocketTransport.
Proof.
  split; cbn [t_Connect t_Close t_Send t_Recv t_SetConfig t_Clone t_GetNativeHandle t_IsConnected
    t_GetProtocol t_GetRemoteAddress SocketImpl].
  - intros addr config t w Hfd. eapply wp_mono; [by apply wp_socket_Connect|]. by intros r w' (? & ? & _).
  - intros t w. eapply wp_mono; [apply wp_Close|]. intros r w' Hfd.
    split; [by apply closed_unconnected|done].
  - intros data len outs t w E. unfold Socket.Send. do 2 apply wp_meth_bind, wp_this. cbn [fst snd].
    rewrite (unconnected _ E). by apply wp_meth_ret.
  - intros data len outs t w E. unfold Socket.Recv. do 2 apply wp_meth_bind, wp_this. cbn [fst snd].
    rewrite (unconnected _ E). by apply wp_meth_ret.
  - intros config t w. unfold Socket.SetConfig. apply wp_meth_bind, wp_update, wp_meth_bind, wp_this.
    cbn [fst snd]. destruct (0 <=? _); [|by apply wp_meth_ret].
    apply wp_call. eapply wp_mono; [apply wp_SetSocketOptions|]. by intros ? w' ->.
  - intros t w. unfold Socket.Clone. apply wp_meth_bind, wp_call, wp_lib. intros p _. simpl.
    destruct (p =? nullptr); [by apply wp_meth_ret|].
    apply wp_meth_bind, wp_this, wp_meth_ret. split; [done|]. by intros copy [= <-].
Qed.
End socket_laws.

(** ** A client of the interface *)
Section client.
Context {T : Type} {I : ITransport T} {L : TransportLaws T}.

(** Close, then try both directions. *)
Definition close_and_use (data : list ascii) (len buf : Z)
    : Method T (TransportResult * TransportResult) :=
  _ ← t_Close;
  s ← t_Send data len true;
  r ← t_Recv buf len true;
  mret (s.1, r.1).

(** Whatever the implementation, a transport that was closed fails both ways, reports
    that it is not connected and has no descriptor; nothing is stored and no call is made
    after the close. *)
Theorem closed_transport_silent data len buf t w :
  wp (close_and_use data len buf t)
     (fun r w' => r.1 = (ERROR, ERROR) /\ t_IsConnected r.2 = false /\
                  t_GetNativeHandle r.2 < 0 /\
                  exists x, t_Close t w = Some (x, w')) w.
Proof.
  unfold close_and_use. apply wp_meth_bind.
  pose proof (law_close t w) as Hc. unfold wp in *.
  destruct (t_Close t w) as [[[[] t'] w']|] eqn:E; [|done]. destruct Hc as [Hn Hh].
  apply wp_meth_bind. eapply wp_mono; [by apply law_send|]. intros [s t1] w1 (Hs & -> & ->).
  apply wp_meth_bind. eapply wp_mono; [by apply law_recv|]. intros [r t2] w2 (Hr & -> & ->).
  apply wp_meth_ret. simpl in *. rewrite Hs, Hr. split_and!; [done..|by exists (tt, t')].
Qed.
End client.

(** An open socket and the stub. *)
Lemma closed_transport_silent_witness :
  wp (close_and_use [] 0 0 child) (fun r _ => r.1 = (ERROR, ERROR)) accepted_one.2 /\
  wp (close_and_use [] 0 0 new_urma) (fun r _ => r.1 = (ERROR, ERROR)) world0 /\
  Socket.IsConnected child = true.
Proof.
  split; [|split; [|vm_compute; reflexivity]].
  - eapply wp_mono; [apply (closed_transport_silent (L := SocketLaws sock_bytes_len))|].
    intros r w' Hr. exact (proj1 Hr).
  - eapply wp_mono; [apply (closed_transport_silent (L := UrmaLaws))|].
    intros r w' Hr. exact (proj1 Hr).
Defined.
