(* ===== verification/Ledger.v ===== *)
(** * What a program has taken and given back

    Accounting for the handles of the loader and of the crypto engines. [balance] counts, in
    a history of calls, how often a handle was handed out minus how often it was given back;
    [moves own m post] says that [m] always returns, and changes the balance of every handle
    by exactly what it owns on return ([post]) less what it owned on entry ([own]). *)
From Stdlib Require Import ZArith Lia Ascii String.
From stdpp Require Import base list gmap strings.
From S2P Require Import Prelude Types Machine.
Open Scope Z_scope.

Inductive Resource : Type :=
| KLib | KCipherCtx | KMdCtx | KPkeyCtx | KPkey | KOsslCtx | KProvider | KEngine.
#[export] Instance resource_dec : EqDecision Resource.
Proof. solve_decision. Defined.

Section books.
Context `{Library}.

Definition engine_name : string := "DefaultSoftwareCryptoEngine".

(** The handle the newest call handed out ([EVP_PKEY_keygen] makes a key when it is given a
    null one), and the handle a call gives back. *)
Definition took (h : History) : option (Resource * Z) :=
  match h with
  | [] => None
  | e :: _ =>
      match ev_fn e, ev_args e with
      | dlopen, _ => Some (KLib, ev_ret e)
      | EVP_CIPHER_CTX_new, _ => Some (KCipherCtx, ev_ret e)
      | EVP_MD_CTX_new, _ => Some (KMdCtx, ev_ret e)
      | EVP_PKEY_CTX_new, _ | EVP_PKEY_CTX_new_id, _ => Some (KPkeyCtx, ev_ret e)
      | EVP_PKEY_new, _ | d2i_PUBKEY, _ => Some (KPkey, ev_ret e)
      | EVP_PKEY_keygen, [_; AInt pkey] =>
          if pkey =? nullptr then Some (KPkey, out_value h) else None
      | OSSL_LIB_CTX_new, _ => Some (KOsslCtx, ev_ret e)
      | OSSL_PROVIDER_load, _ => Some (KProvider, ev_ret e)
      | op_new, [AStr what] =>
          if String.eqb what engine_name then Some (KEngine, ev_ret e) else None
      | _, _ => None
      end
  end.

Definition gave (e : Event) : option (Resource * Z) :=
  match ev_fn e, ev_args e with
  | dlclose, [AInt p] => Some (KLib, p)
  | EVP_CIPHER_CTX_free, [AInt p] => Some (KCipherCtx, p)
  | EVP_MD_CTX_free, [AInt p] => Some (KMdCtx, p)
  | EVP_PKEY_CTX_free, [AInt p] => Some (KPkeyCtx, p)
  | EVP_PKEY_free, [AInt p] => Some (KPkey, p)
  | OSSL_LIB_CTX_free, [AInt p] => Some (KOsslCtx, p)
  | OSSL_PROVIDER_unload, [AInt p] => Some (KProvider, p)
  | op_delete, [AStr what; AInt p] =>
      if String.eqb what engine_name then Some (KEngine, p) else None
  | _, _ => None
  end.

Definition one (x : Resource * Z) (o : option (Resource * Z)) : Z :=
  if decide (o = Some x) then 1 else 0.

Fixpoint balance (x : Resource * Z) (h : History) : Z :=
  match h with
  | [] => 0
  | e :: h' => balance x h' + one x (took h) - one x (gave e)
  end.

Fixpoint count (x : Resource * Z) (own : list (Resource * Z)) : Z :=
  match own with
  | [] => 0
  | y :: own' => one x (Some y) + count x own'
  end.

(** The books balance for an owner of [own]; null is not a handle. *)
Definition owns (own : list (Resource * Z)) (h0 h : History) : Prop :=
  forall x, x.2 <> nullptr -> balance x h = balance x h0 + count x own.

Lemma count_app x own own' : count x (own ++ own') = count x own + count x own'.
Proof. induction own; simpl; lia. Qed.

Lemma one_null x k : x.2 <> nullptr -> one x (Some (k, nullptr)) = 0.
Proof. intros Hx. unfold one. rewrite decide_False; [done|]. by intros [= <-]. Qed.

Lemma one_None x : one x None = 0.
Proof. done. Qed.

(** ** Specifications *)
Definition moves {X} (own : list (Resource * Z)) (m : M X) (post : X -> list (Resource * Z)) : Prop :=
  forall w, wp m (fun r w' => forall x, x.2 <> nullptr ->
    balance x (w_log w') + count x own = balance x (w_log w) + count x (post r)) w.

Implicit Types (own : list (Resource * Z)).

Lemma moves_ret {X} own (r : X) post :
  (forall x, x.2 <> nullptr -> count x own = count x (post r)) -> moves own (mret r) post.
Proof. intros Hc w x Hx. by rewrite Hc. Qed.

Lemma moves_gets {X} own (f : World -> X) : moves own (gets f) (fun _ => own).
Proof. by intros w x Hx. Qed.

Lemma moves_bind {X Y} own (m : M X) (f : X -> M Y) mid post :
  moves own m mid -> (forall x, moves (mid x) (f x) post) -> moves own (m ≫= f) post.
Proof.
  intros Hm Hf w. apply wp_bind. eapply wp_mono; [apply Hm|]. intros a w1 H1.
  eapply wp_mono; [apply Hf|]. intros b w2 H2 x Hx. specialize (H1 x Hx). specialize (H2 x Hx). lia.
Qed.

Lemma moves_pre {X} own own' (m : M X) post :
  (forall x, x.2 <> nullptr -> count x own = count x own') -> moves own' m post -> moves own m post.
Proof.
  intros Hc Hm w. eapply wp_mono; [apply Hm|]. intros r w' Hb x Hx. rewrite Hc by done. by apply Hb.
Qed.

Lemma moves_post {X} own (m : M X) post post' :
  (forall r x, x.2 <> nullptr -> count x (post r) = count x (post' r)) ->
  moves own m post -> moves own m post'.
Proof.
  intros Hc Hm w. eapply wp_mono; [apply Hm|]. intros r w' Hb x Hx. rewrite <- Hc by done. by apply Hb.
Qed.

Lemma moves_frame {X} own y (m : M X) post :
  moves own m post -> moves (y :: own) m (fun r => y :: post r).
Proof.
  intros Hm w. eapply wp_mono; [apply Hm|]. intros r w' Hb x Hx. specialize (Hb x Hx). simpl. lia.
Qed.

Lemma moves_null {X} own k p (m : M X) post :
  p = nullptr -> moves own m post -> moves ((k, p) :: own) m post.
Proof. intros ->. apply moves_pre. intros x Hx. simpl. by rewrite one_null. Qed.

(** A call moves what it takes and gives. *)
Lemma moves_lib own f args t g :
  (forall h r, took (mkEvent f args r :: h) = t r) ->
  (forall r, gave (mkEvent f args r) = g) ->
  moves (option_list g ++ own) (lib f args) (fun r => option_list (t r) ++ own).
Proof.
  intros Ht Hg w. apply wp_lib. intros r _ x _. cbn [w_log set_log balance]. rewrite Ht, Hg.
  destruct (t r), g; simpl; unfold one; repeat case_decide; simplify_eq; try lia; done.
Qed.

Lemma moves_quiet own f args :
  (forall h r, took (mkEvent f args r :: h) = None) -> (forall r, gave (mkEvent f args r) = None) ->
  moves own (lib f args) (fun _ => own).
Proof. intros Ht Hg. by apply (moves_lib own f args (fun _ => None) None). Qed.

Lemma moves_take own f args k :
  (forall h r, took (mkEvent f args r :: h) = Some (k, r)) ->
  (forall r, gave (mkEvent f args r) = None) ->
  moves own (lib f args) (fun r => (k, r) :: own).
Proof. intros Ht Hg. by apply (moves_lib own f args (fun r => Some (k, r)) None). Qed.

Lemma moves_give own f args y :
  (forall h r, took (mkEvent f args r :: h) = None) -> (forall r, gave (mkEvent f args r) = Some y) ->
  moves (y :: own) (lib f args) (fun _ => own).
Proof. intros Ht Hg. by apply (moves_lib own f args (fun _ => None) (Some y)). Qed.

Lemma moves_wp {X} own (m : M X) post w (Q : X -> World -> Prop) :
  moves own m post ->
  (forall r w', (forall x, x.2 <> nullptr ->
     balance x (w_log w') + count x own = balance x (w_log w) + count x (post r)) -> Q r w') ->
  wp m Q w.
Proof. intros Hm HQ. eapply wp_mono; [apply Hm|]. exact HQ. Qed.
End books.

(** Equal counts, up to order and null handles. *)
Ltac same_count :=
  let x := fresh "x" in let Hx := fresh "Hx" in
  intros x Hx; cbn [count app option_list fst snd]; rewrite ?count_app;
  rewrite ?(one_null x) by exact Hx; try lia.

Create HintDb moves.

(** One step of a [moves] goal: the shape of the program decides. *)
Ltac moves_step :=
  match goal with
  | |- forall _, _ => intro
  | |- moves _ (if ?p =? nullptr then _ else _) _ =>
      let E := fresh "E" in destruct (p =? nullptr) eqn:E;
      [apply Z.eqb_eq in E; try (apply (moves_null _ _ _ _ _ E))|clear E]
  | |- moves _ (if ?b then _ else _) _ => destruct b
  | |- moves ?own (mret ?a) ?post =>
      tryif is_evar post then apply (moves_ret own a (fun _ => own)); done
      else (apply moves_ret; solve [same_count])
  | |- moves _ (gets _) _ => apply moves_gets
  | |- moves _ lib_out _ => apply moves_gets
  | |- moves _ (lib_cstring _) _ => apply moves_gets
  | |- moves _ (lib _ _) _ =>
      first [apply moves_quiet; done | apply moves_take; done | apply moves_give; done]
  | |- moves _ _ _ => solve [eauto 2 with moves]
  | |- moves _ (_ ≫= _) _ => eapply moves_bind; [|intro; cbn beta]
  | |- moves _ (match ?x with _ => _ end) _ => destruct x
  end.
Ltac moves := repeat moves_step.
