(* ===== verification/Loader.v ===== *)
(** * Loading libcrypto and libssl

    [src/adaptor/base/dlopen_lib_base.h/.cpp] and [src/adaptor/openssl/lib_crypto_api.cpp],
    [lib_ssl_api.cpp]: two singletons hold the handle of a shared library and one function
    object per symbol ([DlFun], null until the symbol was found; calling a null one throws).
    The tables below list the symbols in the order the code asks for them, and the order in
    which it resets them. *)
From Stdlib Require Import ZArith Lia Ascii String.
From stdpp Require Import base list fin_maps gmap strings.
From S2P Require Import Prelude Errno Types FileCheck Machine OpenSSL Ledger.
Open Scope Z_scope.

Definition SSL_VERSION_3_X : Z := 0x30000000.
Definition RTLD_NOW_GLOBAL : Z := 0x102.     (* RTLD_NOW | RTLD_GLOBAL *)
Definition libCryptoName : string := "libcrypto.so".
Definition libSslName : string := "libssl.so".

(** ** The object: library handle, function cache, function objects, version *)
Record DlLib : Type := mkDlLib {
  libptr_ : Z;
  funCache_ : list Z;
  funs_ : gmap string Z;      (* the function objects that are not null *)
  versionNum_ : Z
}.
Definition no_lib : DlLib := mkDlLib nullptr [] ∅ 0.
Definition set_libptr_ (p : Z) (l : DlLib) : DlLib :=
  mkDlLib p (funCache_ l) (funs_ l) (versionNum_ l).
Definition set_funCache_ (c : list Z) (l : DlLib) : DlLib :=
  mkDlLib (libptr_ l) c (funs_ l) (versionNum_ l).
Definition set_funs_ (m : gmap string Z) (l : DlLib) : DlLib :=
  mkDlLib (libptr_ l) (funCache_ l) m (versionNum_ l).
Definition set_versionNum_ (v : Z) (l : DlLib) : DlLib :=
  mkDlLib (libptr_ l) (funCache_ l) (funs_ l) v.

Section base.
Context `{Library} `{FileSystem}.

Definition SelfDlClose : Method DlLib unit :=
  _ ← update (set_funCache_ []);
  p ← this_ libptr_;
  if negb (p =? nullptr)
  then _ ← call (lib dlclose [AInt p]); update (set_libptr_ nullptr)
  else mret tt.

Definition SelfDlOpen (libPath : string) (mode : Z) : Method DlLib Z :=
  return_if negb (SCF_CheckFilePathAndStat libPath) with (mret SCF_ERRNO_LOAD_LIB) ;;
  p ← call (lib dlopen [AStr libPath; AInt mode]);
  _ ← update (set_libptr_ p);
  return_if p =? nullptr with (mret SCF_ERRNO_LOAD_LIB) ;;
  mret SCF_SUCCESS.

(** Find [funName] and store it in the function object [outFun]. *)
Definition SelfDlSym (funName outFun : string) : Method DlLib Z :=
  p ← this_ libptr_;
  return_if (p =? nullptr) || (slen funName =? 0) with (mret SCF_ERRNO_LOAD_SYMBOL) ;;
  funPtr ← call (lib dlsym [AInt p; AStr funName]);
  return_if funPtr =? nullptr with (mret SCF_ERRNO_LOAD_SYMBOL) ;;
  cache ← this_ funCache_;
  _ ← update (set_funCache_ (cache ++ [funPtr]));
  funs ← this_ funs_;
  _ ← update (set_funs_ (<[outFun := funPtr]> funs));
  mret SCF_SUCCESS.

Definition CheckFunCache : Method DlLib Z :=
  cache ← this_ funCache_;
  mret (if bool_decide (nullptr ∈ cache) then SCF_ERRNO_LOAD_LIB else SCF_SUCCESS).

Definition GetFunCacheSize : Method DlLib nat := this_ (fun l => length (funCache_ l)).

(** [DlFun::operator()]: an exception when the function object is null. *)
Definition dl_call (outFun : string) (f : LibFn) (args : list Arg) : Method DlLib Z :=
  p ← this_ (fun l => funs_ l !! outFun);
  match p with Some _ => call (lib f args) | None => call fault end.

(** [ret |= m1; ret |= m2; ...] *)
Fixpoint or_all (ms : list (Method DlLib Z)) (ret : Z) : Method DlLib Z :=
  match ms with
  | [] => mret ret
  | m :: ms' => r ← m; or_all ms' (Z.lor ret r)
  end.

(** [CONNECTOR_SELF_DLSYM] of each name; [Reset] of each function object. *)
Definition syms (names : list string) : list (Method DlLib Z) := (fun s => SelfDlSym s s) <$> names.
Definition reset (names : list string) : Method DlLib unit :=
  funs ← this_ funs_; update (set_funs_ (foldr delete funs names)).
End base.

(** ** The symbols *)
Definition core_symbols : list string := [
  "OPENSSL_init_crypto"; "X509_STORE_add_cert"; "X509_STORE_add_crl"; "X509_STORE_set_flags";
  "X509_free"; "X509_CRL_free"; "X509_get_version"; "X509_getm_notBefore";
  "X509_getm_notAfter"; "X509_get_serialNumber"; "X509_get0_serialNumber"; "X509_verify_cert";
  "X509_STORE_CTX_get_error"; "OBJ_txt2obj"; "ASN1_OBJECT_free"; "X509_get_ext_by_OBJ";
  "X509_get_ext"; "X509_EXTENSION_get_data"; "ASN1_STRING_get0_data"; "ASN1_STRING_length";
  "d2i_ASN1_UTF8STRING"; "i2d_ASN1_UTF8STRING"; "ASN1_STRING_to_UTF8"; "ASN1_UTF8STRING_free";
  "CRYPTO_free"; "BIO_new_mem_buf"; "BIO_free"; "EVP_PKEY_free"; "ERR_get_error";
  "ERR_error_string"; "ERR_print_errors_cb"]%string.

Definition algorithm_symbols : list string := [
  "EVP_sha256"; "EVP_sha384"; "EVP_aes_128_gcm"; "EVP_aes_256_gcm"; "EVP_aes_128_ccm";
  "EVP_chacha20_poly1305"; "EVP_CIPHER_CTX_new"; "EVP_CIPHER_CTX_free"; "EVP_CIPHER_CTX_ctrl";
  "EVP_EncryptInit_ex"; "EVP_EncryptUpdate"; "EVP_EncryptFinal_ex"; "EVP_DecryptInit_ex";
  "EVP_DecryptUpdate"; "EVP_DecryptFinal_ex"; "EVP_sha512"; "EVP_MD_CTX_new";
  "EVP_MD_CTX_free"; "EVP_DigestInit_ex"; "EVP_DigestUpdate"; "EVP_DigestFinal_ex"]%string.

Definition pkey_symbols : list string := [
  "EVP_PKEY_new"; "EVP_PKEY_CTX_new_id"; "EVP_PKEY_CTX_new"; "EVP_PKEY_CTX_free";
  "EVP_PKEY_keygen_init"; "EVP_PKEY_keygen"; "EVP_PKEY_derive_init";
  "EVP_PKEY_derive_set_peer"; "EVP_PKEY_derive"; "d2i_PUBKEY"; "RAND_bytes";
  "EVP_PKEY_CTX_ctrl"]%string.

Definition pkey_symbols_3 : list string := [
  "EVP_PKEY_CTX_set_ec_paramgen_curve_nid"; "EVP_PKEY_CTX_set_hkdf_md";
  "EVP_PKEY_CTX_set1_hkdf_salt"; "EVP_PKEY_CTX_set1_hkdf_key"; "EVP_PKEY_CTX_set_hkdf_mode";
  "EVP_PKEY_CTX_add1_hkdf_info"; "OSSL_LIB_CTX_new"; "OSSL_LIB_CTX_free"; "OSSL_PROVIDER_load";
  "OSSL_PROVIDER_unload"; "ERR_error_string_n"]%string.

Definition core_resets : list string := [
  "OPENSSL_init_crypto"; "X509_STORE_add_cert"; "X509_STORE_add_crl"; "X509_STORE_set_flags";
  "X509_free"; "X509_CRL_free"; "X509_get_version"; "X509_getm_notBefore";
  "X509_getm_notAfter"; "X509_get_serialNumber"; "X509_get0_serialNumber"; "X509_verify_cert";
  "X509_STORE_CTX_get_error"; "OBJ_txt2obj"; "ASN1_OBJECT_free"; "X509_get_ext_by_OBJ";
  "X509_get_ext"; "X509_EXTENSION_get_data"; "ASN1_STRING_get0_data"; "ASN1_STRING_length";
  "d2i_ASN1_UTF8STRING"; "i2d_ASN1_UTF8STRING"; "ASN1_STRING_to_UTF8"; "ASN1_UTF8STRING_free";
  "CRYPTO_free"; "BIO_new_mem_buf"; "BIO_free"; "EVP_PKEY_free"; "ERR_get_error";
  "ERR_error_string"; "ERR_print_errors_cb"]%string.

Definition algorithm_resets : list string := [
  "EVP_sha256"; "EVP_sha384"; "EVP_aes_128_gcm"; "EVP_aes_256_gcm"; "EVP_aes_128_ccm";
  "EVP_chacha20_poly1305"; "EVP_CIPHER_CTX_new"; "EVP_CIPHER_CTX_free"; "EVP_CIPHER_CTX_ctrl";
  "EVP_EncryptInit_ex"; "EVP_EncryptUpdate"; "EVP_EncryptFinal_ex"; "EVP_DecryptInit_ex";
  "EVP_DecryptUpdate"; "EVP_DecryptFinal_ex"; "EVP_sha512"; "EVP_MD_CTX_new";
  "EVP_MD_CTX_free"; "EVP_DigestInit_ex"; "EVP_DigestUpdate"; "EVP_DigestFinal_ex";
  "EVP_MD_get_size"; "HMAC"]%string.

Definition pkey_resets : list string := [
  "EVP_PKEY_new"; "EVP_PKEY_CTX_new_id"; "EVP_PKEY_CTX_new"; "EVP_PKEY_CTX_free";
  "EVP_PKEY_keygen_init"; "EVP_PKEY_keygen"; "EVP_PKEY_CTX_set_ec_paramgen_curve_nid";
  "EVP_PKEY_derive_init"; "EVP_PKEY_derive_set_peer"; "EVP_PKEY_derive"; "EVP_PKEY_CTX_ctrl";
  "EVP_PKEY_CTX_set_hkdf_md"; "EVP_PKEY_CTX_set1_hkdf_salt"; "EVP_PKEY_CTX_set1_hkdf_key";
  "EVP_PKEY_CTX_set_hkdf_mode"; "EVP_PKEY_CTX_add1_hkdf_info"; "d2i_PUBKEY"; "RAND_bytes";
  "OpenSSL_version_num"; "OSSL_LIB_CTX_new"; "OSSL_LIB_CTX_free"; "OSSL_PROVIDER_load";
  "OSSL_PROVIDER_unload"; "ERR_error_string_n"]%string.

Definition ssl_symbols : list string := [
  "OPENSSL_init_ssl"; "SSL_new"; "SSL_free"; "SSL_connect"; "SSL_accept"; "SSL_get_error";
  "SSL_read_ex"; "SSL_write_ex"; "SSL_shutdown"; "SSL_set_ex_data"; "SSL_get_ex_data";
  "SSL_set_fd"; "SSL_is_init_finished"; "SSL_key_update"; "SSL_get_version"]%string.

Definition ssl_symbols_2 : list string := [
  "SSL_get_certificate"; "SSL_set_verify"]%string.

Definition cipher_symbols : list string := [
  "SSL_CIPHER_find"; "SSL_CIPHER_get_id"]%string.

Definition session_symbols : list string := [
  "SSL_SESSION_new"; "SSL_SESSION_free"; "SSL_SESSION_get0_cipher";
  "SSL_SESSION_set1_master_key"; "SSL_SESSION_set_cipher"; "SSL_SESSION_set_protocol_version";
  "SSL_SESSION_get_protocol_version"]%string.

Definition method_symbols : list string := [
  "TLS_server_method"; "TLS_client_method"]%string.

Definition pem_symbols : list string := [
  "PEM_read_bio_X509"; "PEM_read_bio_X509_CRL"; "PEM_read_bio_PrivateKey"; "PEM_read_X509_CRL"]%string.

Definition stack_symbols : list string := [
  "OPENSSL_sk_num"; "OPENSSL_sk_value"]%string.

Definition ctx_symbols : list string := [
  "SSL_CTX_free"; "SSL_CTX_load_verify_locations"; "SSL_CTX_get_cert_store";
  "SSL_CTX_use_certificate_file"; "SSL_CTX_use_certificate";
  "SSL_CTX_use_certificate_chain_file"; "SSL_CTX_use_PrivateKey_file";
  "SSL_CTX_use_PrivateKey"; "SSL_CTX_set_default_passwd_cb_userdata";
  "SSL_CTX_set_ciphersuites"; "SSL_get_current_cipher"; "SSL_CTX_set_options";
  "SSL_CTX_get_options"; "SSL_CTX_set_cert_verify_callback"; "SSL_CTX_check_private_key";
  "SSL_CTX_set_verify"; "SSL_CTX_set_security_level"; "SSL_CTX_set_psk_find_session_callback";
  "SSL_CTX_set_psk_use_session_callback"; "SSL_CTX_get_ciphers"; "SSL_CTX_ctrl";
  "SSL_CTX_set_default_passwd_cb"]%string.

Definition ssl_resets : list string := [
  "OPENSSL_init_ssl"; "SSL_new"; "SSL_free"; "SSL_connect"; "SSL_accept"; "SSL_get_error";
  "SSL_read_ex"; "SSL_write_ex"; "SSL_shutdown"; "SSL_set_ex_data"; "SSL_get_ex_data";
  "SSL_set_fd"; "SSL_is_init_finished"; "SSL_key_update"; "SSL_get_version";
  "SSL_get_peer_certificate"; "SSL_get_certificate"; "SSL_set_verify"]%string.

Definition cipher_resets : list string := [
  "SSL_CIPHER_find"; "SSL_CIPHER_get_id"]%string.

Definition ctx_resets : list string := [
  "SSL_CTX_new"; "SSL_CTX_new_ex"; "SSL_CTX_free"; "SSL_CTX_load_verify_locations";
  "SSL_CTX_get_cert_store"; "SSL_CTX_use_certificate_file"; "SSL_CTX_use_certificate";
  "SSL_CTX_use_certificate_chain_file"; "SSL_CTX_use_PrivateKey_file";
  "SSL_CTX_use_PrivateKey"; "SSL_CTX_set_default_passwd_cb_userdata";
  "SSL_CTX_set_ciphersuites"; "SSL_get_current_cipher"; "SSL_CTX_set_options";
  "SSL_CTX_get_options"; "SSL_CTX_set_cert_verify_callback"; "SSL_CTX_check_private_key";
  "SSL_CTX_set_verify"; "SSL_CTX_set_security_level"; "SSL_CTX_set_psk_find_session_callback";
  "SSL_CTX_set_psk_use_session_callback"; "SSL_CTX_get_ciphers"; "SSL_CTX_ctrl";
  "SSL_CTX_set_default_passwd_cb"]%string.

Definition session_resets : list string := [
  "SSL_SESSION_new"; "SSL_SESSION_free"; "SSL_SESSION_get0_cipher";
  "SSL_SESSION_set1_master_key"; "SSL_SESSION_set_cipher"; "SSL_SESSION_set_protocol_version";
  "SSL_SESSION_get_protocol_version"]%string.

Definition method_resets : list string := [
  "TLS_server_method"; "TLS_client_method"]%string.

Definition pem_resets : list string := [
  "PEM_read_bio_X509"; "PEM_read_bio_X509_CRL"; "PEM_read_bio_PrivateKey"; "PEM_read_X509_CRL"]%string.

Definition stack_resets : list string := [
  "OPENSSL_sk_num"; "OPENSSL_sk_value"]%string.

(** ** libcrypto *)
Section crypto.
Context `{Library} `{FileSystem}.

Definition LoadCryptoAlgorithmSymbols : Method DlLib Z :=
  version ← this_ versionNum_;
  or_all (syms algorithm_symbols ++
          (if SSL_VERSION_3_X <=? version then syms ["EVP_MD_get_size"%string]
           else [SelfDlSym "EVP_MD_size" "EVP_MD_get_size"]) ++
          syms ["HMAC"%string]) SCF_SUCCESS.

Definition LoadCoreSymbols : Method DlLib Z :=
  or_all (syms core_symbols ++ [LoadCryptoAlgorithmSymbols] ++ syms ["OpenSSL_version"%string])
    SCF_SUCCESS.

Definition LoadPkeySymbols : Method DlLib Z :=
  version ← this_ versionNum_;
  or_all (syms pkey_symbols ++ (if SSL_VERSION_3_X <=? version then syms pkey_symbols_3 else []))
    SCF_SUCCESS.

Definition CryptoLoadAll : Method DlLib Z :=
  ret ← SelfDlSym "OpenSSL_version_num" "OpenSSL_version_num";
  return_if negb (ret =? SCF_SUCCESS) with (mret SCF_ERRNO_LOAD_SYMBOL) ;;
  version ← dl_call "OpenSSL_version_num" OpenSSL_version_num [];
  _ ← update (set_versionNum_ version);
  ret ← or_all [LoadCoreSymbols; LoadPkeySymbols] ret;
  return_if negb (ret =? SCF_SUCCESS) with (mret SCF_ERRNO_LOAD_SYMBOL) ;;
  mret SCF_SUCCESS.

Definition UnloadCryptoAlgorithmSymbols : Method DlLib unit := reset algorithm_resets.
Definition UnloadCoreSymbols : Method DlLib unit :=
  _ ← reset core_resets; _ ← UnloadCryptoAlgorithmSymbols; reset ["OpenSSL_version"%string].
Definition UnloadPkeySymbols : Method DlLib unit :=
  _ ← reset pkey_resets; update (set_versionNum_ 0).
Definition CryptoUnLoadAll : Method DlLib unit := _ ← UnloadCoreSymbols; UnloadPkeySymbols.
Definition CryptoUnInit : Method DlLib unit := _ ← CryptoUnLoadAll; SelfDlClose.

Definition CryptoInit (libPath : string) : Method DlLib Z :=
  _ ← CryptoUnInit;
  ret ← SelfDlOpen (libPath ++ "/" ++ libCryptoName) RTLD_NOW_GLOBAL;
  return_if negb (ret =? SCF_SUCCESS) with (mret ret) ;;
  ret ← CryptoLoadAll;
  return_if negb (ret =? SCF_SUCCESS) with (_ ← CryptoUnInit; mret ret) ;;
  sslRet ← dl_call "OPENSSL_init_crypto" OPENSSL_init_crypto [AInt 0; AInt nullptr];
  return_if negb (sslRet =? SSL_SUCCESS)
    with (_ ← CryptoUnInit; mret SCF_ERRNO_INIT_OPENSSL_CRYPTO) ;;
  mret SCF_SUCCESS.
End crypto.

(** ** libssl *)
Section ssl.
Context `{Library} `{FileSystem}.

Definition LoadCipherSuit : Method DlLib Z := or_all (syms cipher_symbols) SCF_SUCCESS.
Definition LoadCtx : Method DlLib Z :=
  version ← this_ versionNum_;
  or_all (syms ["SSL_CTX_new"%string] ++
          (if SSL_VERSION_3_X <=? version then syms ["SSL_CTX_new_ex"%string] else []) ++
          syms ctx_symbols) SCF_SUCCESS.
Definition LoadSSLObj : Method DlLib Z := or_all (syms session_symbols) SCF_SUCCESS.
Definition LoadTLSMethod : Method DlLib Z := or_all (syms method_symbols) SCF_SUCCESS.
Definition LoadBIO : Method DlLib Z := or_all (syms pem_symbols) SCF_SUCCESS.
Definition LoadStackOpt : Method DlLib Z := or_all (syms stack_symbols) SCF_SUCCESS.

Definition SslLoadAll : Method DlLib Z :=
  r ← SelfDlSym "OpenSSL_version_num" "OpenSSL_version_num";
  return_if negb (r =? SCF_SUCCESS) with (mret SCF_ERRNO_LOAD_SYMBOL) ;;
  version ← dl_call "OpenSSL_version_num" OpenSSL_version_num [];
  _ ← update (set_versionNum_ version);
  ret ← or_all (syms ssl_symbols ++
                [SelfDlSym (if SSL_VERSION_3_X <=? version then "SSL_get1_peer_certificate"
                            else "SSL_get_peer_certificate") "SSL_get_peer_certificate"] ++
                syms ssl_symbols_2 ++
                [LoadCipherSuit; LoadCtx; LoadSSLObj; LoadTLSMethod; LoadBIO; LoadStackOpt])
          SCF_SUCCESS;
  return_if negb (ret =? SCF_SUCCESS) with (mret SCF_ERRNO_LOAD_SYMBOL) ;;
  mret SCF_SUCCESS.

Definition UnLoadCipherSuit : Method DlLib unit := reset cipher_resets.
Definition UnLoadCtx : Method DlLib unit := reset ctx_resets.
Definition UnLoadSSLObj : Method DlLib unit := reset session_resets.
Definition UnLoadTLSMethod : Method DlLib unit := reset method_resets.
Definition UnLoadBIO : Method DlLib unit := reset pem_resets.
Definition UnLoadStackOpt : Method DlLib unit := reset stack_resets.
Definition SslUnLoadAll : Method DlLib unit :=
  _ ← reset ssl_resets; _ ← UnLoadCipherSuit; _ ← UnLoadCtx; _ ← UnLoadSSLObj;
  _ ← UnLoadTLSMethod; _ ← UnLoadBIO; _ ← UnLoadStackOpt;
  update (set_versionNum_ 0).
Definition SslUnInit : Method DlLib unit := _ ← SslUnLoadAll; SelfDlClose.

Definition SslInit (libPath : string) : Method DlLib Z :=
  _ ← SslUnInit;
  ret ← SelfDlOpen (libPath ++ "/" ++ libSslName) RTLD_NOW_GLOBAL;
  return_if negb (ret =? SCF_SUCCESS) with (mret ret) ;;
  ret ← SslLoadAll;
  return_if negb (ret =? SCF_SUCCESS) with (_ ← SslUnInit; mret ret) ;;
  sslRet ← dl_call "OPENSSL_init_ssl" OPENSSL_init_ssl [AInt 0; AInt nullptr];
  return_if negb (sslRet =? SSL_SUCCESS)
    with (_ ← SslUnInit; mret SCF_ERRNO_INIT_OPENSSL_CRYPTO) ;;
  mret SCF_SUCCESS.
End ssl.
