(* ===== verification/LoaderSpec.v ===== *)
(** * Loading is all or nothing

    After [Init] a library is either loaded with every symbol its version needs, or closed
    with its handle given back; no function object ever points into a library that was
    closed, with one exception the code has. *)
From Stdlib Require Import ZArith Lia Ascii String.
From stdpp Require Import base list fin_maps gmap fin_map_dom strings.
From S2P Require Import Prelude Errno Types FileCheck Machine OpenSSL Ledger Loader Lifecycle.
Open Scope Z_scope.

(** ** States of a library *)

(** The symbols that a version of libcrypto and of libssl must have. *)
Definition since_3 (version : Z) (names : list string) : list string :=
  if SSL_VERSION_3_X <=? version then names else [].
Definition crypto_required (version : Z) : list string :=
  ["OpenSSL_version_num"%string] ++ core_symbols ++ algorithm_symbols ++
  ["EVP_MD_get_size"; "HMAC"; "OpenSSL_version"]%string ++ pkey_symbols ++
  since_3 version pkey_symbols_3.
Definition ssl_required (version : Z) : list string :=
  ["OpenSSL_version_num"%string] ++ ssl_symbols ++ ["SSL_get_peer_certificate"%string] ++
  ssl_symbols_2 ++ cipher_symbols ++ ["SSL_CTX_new"%string] ++
  since_3 version ["SSL_CTX_new_ex"%string] ++ ctx_symbols ++ session_symbols ++
  method_symbols ++ pem_symbols ++ stack_symbols.

(** Nothing null among the functions found. *)
Definition well (l : DlLib) : Prop :=
  map_Forall (fun _ p => p <> nullptr) (funs_ l) /\ nullptr ∉ funCache_ l.

Definition loaded (required : Z -> list string) (l : DlLib) : Prop :=
  well l /\ libptr_ l <> nullptr /\ dom (funs_ l) = list_to_set (required (versionNum_ l)).
Definition closed (stale : list string) (l : DlLib) : Prop :=
  well l /\ libptr_ l = nullptr /\ funCache_ l = [] /\ versionNum_ l = 0 /\
  dom (funs_ l) ⊆ list_to_set stale.

Section loads.
Context `{Library} `{FileSystem}.
Implicit Types (l : DlLib) (w : World).

(** The handle [dlopen] gave is in the object, or was given to [dlclose]. *)
Definition handle_moves (l : DlLib) (w : World) (l' : DlLib) (w' : World) : Prop :=
  forall x, x.2 <> nullptr ->
    balance x (w_log w') + one x (Some (KLib, libptr_ l))
    = balance x (w_log w) + one x (Some (KLib, libptr_ l')).

Lemma handle_moves_trans l0 w0 l1 w1 l2 w2 :
  handle_moves l0 w0 l1 w1 -> handle_moves l1 w1 l2 w2 -> handle_moves l0 w0 l2 w2.
Proof. intros H1 H2 x Hx. specialize (H1 x Hx). specialize (H2 x Hx). lia. Qed.

Lemma wp_ret_inv {X} (x : X) (Q : X -> World -> Prop) w : wp (mret x) Q w -> Q x w.
Proof. done. Qed.
Lemma wp_meth_bind_inv {X Y} (m : Method DlLib X) (f : X -> Method DlLib Y) l Q w :
  wp ((m ≫= f) l) Q w -> wp (m l) (fun r w' => wp (f r.1 r.2) Q w') w.
Proof.
  unfold wp, mbind, Method_bind, mbind, M_bind. destruct (m l w) as [[r w']|]; done.
Qed.

(** A step that only looks for symbols: the ones in [names], all of them when it succeeds. *)
Definition tries (ret : Z) (names : Z -> list string) (m : Method DlLib Z) : Prop :=
  forall l w, well l ->
    wp (m l) (fun r w' =>
      handle_moves l w r.2 w' /\ well r.2 /\
      libptr_ r.2 = libptr_ l /\ versionNum_ r.2 = versionNum_ l /\
      dom (funs_ r.2) ⊆ dom (funs_ l) ∪ list_to_set (names (versionNum_ l)) /\
      (r.1 = SCF_SUCCESS -> ret = SCF_SUCCESS /\
         dom (funs_ r.2) = dom (funs_ l) ∪ list_to_set (names (versionNum_ l)))) w.

Lemma tries_sym funName outFun : tries SCF_SUCCESS (fun _ => [outFun]) (SelfDlSym funName outFun).
Proof.
  intros l w Hl. unfold SelfDlSym. apply wp_meth_bind, wp_this. cbn [fst snd].
  destruct (_ || _); [apply wp_meth_ret; split_and!; [done..|set_solver|done]|].
  apply wp_meth_bind, wp_call, wp_lib. intros p _. cbn [fst snd].
  assert (Hmoves : forall l', libptr_ l' = libptr_ l -> handle_moves l w l'
      (set_log (mkEvent dlsym [AInt (libptr_ l); AStr funName] p :: w_log w) w)).
  { intros l' El x Hx. cbn [w_log set_log balance]. rewrite El. simpl. unfold one; simpl; lia. }
  destruct (p =? nullptr) eqn:E; bools.
  { apply wp_meth_ret. split_and!; [by apply Hmoves|done..|set_solver|done]. }
  apply wp_meth_bind, wp_this, wp_meth_bind, wp_update, wp_meth_bind, wp_this,
    wp_meth_bind, wp_update, wp_meth_ret.
  destruct Hl as [Hf Hc]. cbn [fst snd]. split_and!; try done.
  - by apply Hmoves.
  - split; simpl; [by apply map_Forall_insert_2|]. set_solver.
  - simpl. rewrite dom_insert_L. set_solver.
  - intros _. simpl. rewrite dom_insert_L. split; [done|set_solver].
Qed.

(** A run of lookups, and runs one after the other. *)
Definition chunk (names : Z -> list string) (ms : list (Method DlLib Z)) : Prop :=
  forall ret, tries ret names (or_all ms ret).

Lemma wp_or_all_app ms1 ms2 ret l Q w :
  wp (or_all ms1 ret l) (fun r w' => wp (or_all ms2 r.1 r.2) Q w') w ->
  wp (or_all (ms1 ++ ms2) ret l) Q w.
Proof.
  revert ret l w. induction ms1 as [|m ms1 IH]; intros ret l w; simpl; [by intros ?%wp_ret_inv|].
  intros Hw. apply wp_meth_bind. apply wp_meth_bind_inv in Hw. eapply wp_mono; [exact Hw|].
  intros r w'. apply IH.
Qed.

Lemma chunk_nil : chunk (fun _ => []) [].
Proof.
  intros ret l w Hl. apply wp_meth_ret. simpl. split_and!; [done..|set_solver|].
  intros ->. split; [done|set_solver].
Qed.

Lemma chunk_one names m : tries SCF_SUCCESS names m -> chunk names [m].
Proof.
  intros Hm ret l w Hl. apply wp_meth_bind. eapply wp_mono; [by apply Hm|].
  intros [r l1] w1 (M1 & W1 & P1 & V1 & D1 & S1). apply wp_meth_ret. split_and!; try done.
  cbn [fst snd]. intros [-> Hr]%Z.lor_eq_0_iff. split; [done|]. by apply S1.
Qed.

Lemma chunk_app names1 names2 ms1 ms2 :
  chunk names1 ms1 -> chunk names2 ms2 -> chunk (fun v => names1 v ++ names2 v) (ms1 ++ ms2).
Proof.
  intros H1 H2 ret l w Hl. apply wp_or_all_app. eapply wp_mono; [by apply H1|].
  intros [r l1] w1 (M1 & W1 & P1 & V1 & D1 & S1). eapply wp_mono; [by apply (H2 r)|].
  intros [r2 l2] w2 (M2 & W2 & P2 & V2 & D2 & S2). cbn [fst snd] in *. rewrite V1 in *.
  rewrite list_to_set_app_L.
  split_and!; [by eapply handle_moves_trans|done|congruence|congruence| |].
  { clear - D1 D2. set_solver. }
  intros Hr. destruct (S2 Hr) as [Hr1 Hd2]. destruct (S1 Hr1) as [-> Hd1].
  split; [done|]. by rewrite Hd2, Hd1, (assoc_L (∪)).
Qed.

Lemma chunk_cons names1 names2 m ms :
  tries SCF_SUCCESS names1 m -> chunk names2 ms ->
  chunk (fun v => names1 v ++ names2 v) (m :: ms).
Proof. intros Hm. by apply (chunk_app _ _ [m]), chunk_one. Qed.

Lemma chunk_syms names : chunk (fun _ => names) (syms names).
Proof.
  induction names as [|n names IH]; [apply chunk_nil|].
  apply (chunk_cons (fun _ => [n]) (fun _ => names)); [apply tries_sym|done].
Qed.

(** The body may look at the version. *)
Lemma tries_version ret names (m : Z -> Method DlLib Z) :
  (forall v, tries ret (fun _ => names v) (m v)) ->
  tries ret names (version ← this_ versionNum_; m version).
Proof. intros Hm l w Hl. apply wp_meth_bind, wp_this. by apply Hm. Qed.

Lemma tries_table names : tries SCF_SUCCESS (fun _ => names) (or_all (syms names) SCF_SUCCESS).
Proof. apply chunk_syms. Qed.

Lemma chunk_since_3 v names : chunk (fun _ => since_3 v names)
  (if SSL_VERSION_3_X <=? v then syms names else []).
Proof. unfold since_3. case_match; [apply chunk_syms|apply chunk_nil]. Qed.

(** *** The parts of the tables *)
Lemma tries_algorithms :
  tries SCF_SUCCESS (fun _ => algorithm_symbols ++ ["EVP_MD_get_size"%string] ++ ["HMAC"%string])
    LoadCryptoAlgorithmSymbols.
Proof.
  apply (tries_version _ (fun _ => _)). intros v.
  apply (chunk_app (fun _ => _) (fun _ => _ ++ _)); [apply chunk_syms|].
  apply (chunk_app (fun _ => _) (fun _ => _)); [|apply chunk_syms].
  case_match; [apply chunk_syms|]. apply chunk_one, tries_sym.
Qed.

Lemma tries_core :
  tries SCF_SUCCESS (fun _ => core_symbols ++
    (algorithm_symbols ++ ["EVP_MD_get_size"%string] ++ ["HMAC"%string]) ++
    ["OpenSSL_version"%string]) LoadCoreSymbols.
Proof.
  apply (chunk_app (fun _ => _) (fun _ => _ ++ _)); [apply chunk_syms|].
  apply (chunk_app (fun _ => _) (fun _ => _)); [|apply chunk_syms].
  apply chunk_one, tries_algorithms.
Qed.

Lemma tries_pkey :
  tries SCF_SUCCESS (fun v => pkey_symbols ++ since_3 v pkey_symbols_3) LoadPkeySymbols.
Proof.
  apply tries_version. intros v. apply (chunk_app (fun _ => _) (fun _ => _));
    [apply chunk_syms|apply chunk_since_3].
Qed.

Lemma tries_ctx :
  tries SCF_SUCCESS (fun v => ["SSL_CTX_new"%string] ++ since_3 v ["SSL_CTX_new_ex"%string] ++ ctx_symbols)
    LoadCtx.
Proof.
  apply tries_version. intros v. apply (chunk_app (fun _ => _) (fun _ => _ ++ _)); [apply chunk_syms|].
  apply (chunk_app (fun _ => _) (fun _ => _)); [apply chunk_since_3|apply chunk_syms].
Qed.
End loads.

(** ** Closing *)
Section closing.
Context `{Library} `{FileSystem}.
Implicit Types (l : DlLib) (w : World).

(** A step that only resets the function objects in [names]. *)
Definition clears (names : list string) (m : Method DlLib unit) : Prop :=
  forall l w, well l ->
    wp (m l) (fun r w' => w' = w /\ well r.2 /\ libptr_ r.2 = libptr_ l /\
      dom (funs_ r.2) = dom (funs_ l) ∖ list_to_set names) w.

Lemma clears_reset names : clears names (reset names).
Proof.
  intros l w [Hf Hc]. unfold reset. apply wp_meth_bind, wp_this, wp_update. cbn [fst snd].
  set (m := foldr delete (funs_ l) names).
  assert (Hm : map_Forall (fun _ p => p <> nullptr) m /\ dom m = dom (funs_ l) ∖ list_to_set names).
  { unfold m. clear Hc m. induction names as [|n names [IH1 IH2]]; simpl; [split; [done|set_solver]|].
    split; [by apply map_Forall_delete|]. rewrite dom_delete_L, IH2. set_solver. }
  destruct Hm. by split_and!.
Qed.

Lemma clears_bind names1 names2 (m1 : Method DlLib unit) m2 :
  clears names1 m1 -> clears names2 m2 -> clears (names1 ++ names2) (_ ← m1; m2).
Proof.
  intros H1 H2 l w Hl. apply wp_meth_bind. eapply wp_mono; [by apply H1|].
  intros [[] l1] w1 (-> & W1 & P1 & D1). eapply wp_mono; [by apply H2|].
  intros [[] l2] w2 (-> & W2 & P2 & D2). cbn [fst snd] in *. rewrite list_to_set_app_L.
  split_and!; [done..|congruence|]. rewrite D2, D1. set_solver.
Qed.

(** ... and ends by forgetting the version. *)
Definition forgets (names : list string) (m : Method DlLib unit) : Prop :=
  forall l w, well l ->
    wp (m l) (fun r w' => w' = w /\ well r.2 /\ libptr_ r.2 = libptr_ l /\ versionNum_ r.2 = 0 /\
      dom (funs_ r.2) = dom (funs_ l) ∖ list_to_set names) w.

Lemma forgets_update : forgets [] (update (set_versionNum_ 0)).
Proof. intros l w Hl. apply wp_update. split_and!; [done..|]. simpl. set_solver. Qed.

Lemma forgets_bind names1 names2 (m1 : Method DlLib unit) m2 :
  clears names1 m1 -> forgets names2 m2 -> forgets (names1 ++ names2) (_ ← m1; m2).
Proof.
  intros H1 H2 l w Hl. apply wp_meth_bind. eapply wp_mono; [by apply H1|].
  intros [[] l1] w1 (-> & W1 & P1 & D1). eapply wp_mono; [by apply H2|].
  intros [[] l2] w2 (-> & W2 & P2 & V2 & D2). cbn [fst snd] in *. rewrite list_to_set_app_L.
  split_and!; [done..|congruence|done|]. rewrite D2, D1. set_solver.
Qed.

Definition crypto_resets : list string :=
  (core_resets ++ algorithm_resets ++ ["OpenSSL_version"%string]) ++ pkey_resets ++ [].
Definition all_ssl_resets : list string :=
  ssl_resets ++ cipher_resets ++ ctx_resets ++ session_resets ++ method_resets ++
  pem_resets ++ stack_resets ++ [].

(** [UnInit], when the function objects are among [names]. *)
Definition closes_lib (names stale : list string) (m : Method DlLib unit) : Prop :=
  forall l w, well l -> dom (funs_ l) ⊆ list_to_set names ->
    wp (m l) (fun r w' => handle_moves l w r.2 w' /\ closed stale r.2) w.

Lemma closes_SelfDlClose names resets stale (unload : Method DlLib unit) :
  forgets resets unload ->
  forallb (fun x => bool_decide (x ∈ resets) || bool_decide (x ∈ stale)) names = true ->
  closes_lib names stale (_ ← unload; SelfDlClose).
Proof.
  intros Hun Hres l w Hl Hdom. apply wp_meth_bind. eapply wp_mono; [by apply Hun|].
  intros [[] l1] w1 (-> & W1 & P1 & V1 & D1). cbn [fst snd] in *.
  assert (Hsub : dom (funs_ l1) ⊆ list_to_set stale).
  { rewrite D1. intros x [Hx Hn]%elem_of_difference. specialize (Hdom x Hx).
    rewrite elem_of_list_to_set in *. rewrite forallb_forall in Hres.
    specialize (Hres x (proj1 (list_elem_of_In _ _) Hdom)).
    apply orb_true_iff in Hres as [Hr|Hr]; by apply bool_decide_eq_true in Hr. }
  destruct W1 as [Wf Wc]. unfold SelfDlClose. apply wp_meth_bind, wp_update, wp_meth_bind, wp_this.
  cbn [fst snd libptr_ set_funCache_]. rewrite P1. destruct (libptr_ l =? nullptr) eqn:E; bools; cbn [negb].
  - apply wp_meth_ret. split; [|split_and!; simpl; try done; [split; [done|set_solver]|congruence]].
    intros x Hx. simpl. by rewrite P1.
  - apply wp_meth_bind, wp_call, wp_lib. intros r _. apply wp_update.
    split; [|by split_and!; [split; [|set_solver]|..]].
    intros x Hx. cbn [w_log set_log balance]. simpl. rewrite one_null, one_None by done.
    change (gave _) with (Some (KLib, libptr_ l)). lia.
Qed.
End closing.

(** ** Loading *)
Section init.
Context `{Library} `{FileSystem}.
Implicit Types (l : DlLib) (w : World).

Lemma wp_SelfDlOpen path mode l w :
  well l -> libptr_ l = nullptr ->
  wp (SelfDlOpen path mode l)
     (fun r w' => handle_moves l w r.2 w' /\ well r.2 /\ funs_ r.2 = funs_ l /\
        funCache_ r.2 = funCache_ l /\ versionNum_ r.2 = versionNum_ l /\
        if decide (r.1 = SCF_SUCCESS) then libptr_ r.2 <> nullptr else libptr_ r.2 = nullptr) w.
Proof.
  intros Hl Hp. unfold SelfDlOpen. destruct (negb _).
  { apply wp_meth_ret. by split_and!. }
  apply wp_meth_bind, wp_call, wp_lib. intros p _. apply wp_meth_bind, wp_update. cbn [fst snd].
  assert (Hm : handle_moves l w (set_libptr_ p l)
                 (set_log (mkEvent dlopen [AStr path; AInt mode] p :: w_log w) w)).
  { intros x Hx. cbn [w_log set_log balance]. rewrite Hp, one_null by done.
    change (gave _) with (@None (Resource * Z)). change (took _) with (Some (KLib, p)).
    rewrite one_None. simpl. lia. }
  destruct (p =? nullptr) eqn:E; bools; apply wp_meth_ret; by split_and!.
Qed.

(** What [LoadAll] promises [Init]. *)
Definition loads_all (required : Z -> list string) (names stale : list string)
    (m : Method DlLib Z) : Prop :=
  forall l w, well l -> dom (funs_ l) ⊆ list_to_set stale ->
    wp (m l) (fun r w' => handle_moves l w r.2 w' /\ well r.2 /\ libptr_ r.2 = libptr_ l /\
      dom (funs_ r.2) ⊆ list_to_set names /\
      (r.1 = SCF_SUCCESS -> dom (funs_ r.2) = list_to_set (required (versionNum_ r.2)))) w.

(** [Init] of either library. *)
Definition init_lib (UnInit : Method DlLib unit) (LoadAll : Method DlLib Z) (name entry : string)
    (f : LibFn) (libPath : string) : Method DlLib Z :=
  _ ← UnInit;
  ret ← SelfDlOpen (libPath ++ "/" ++ name) RTLD_NOW_GLOBAL;
  return_if negb (ret =? SCF_SUCCESS) with (mret ret) ;;
  ret ← LoadAll;
  return_if negb (ret =? SCF_SUCCESS) with (_ ← UnInit; mret ret) ;;
  sslRet ← dl_call entry f [AInt 0; AInt nullptr];
  return_if negb (sslRet =? SSL_SUCCESS)
    with (_ ← UnInit; mret SCF_ERRNO_INIT_OPENSSL_CRYPTO) ;;
  mret SCF_SUCCESS.

Lemma wp_init_lib required names stale UnInit LoadAll name entry f libPath l w :
  closes_lib names stale UnInit -> loads_all required names stale LoadAll ->
  (forall v, entry ∈ required v) -> (forall h r a, took (mkEvent f a r :: h) = None) ->
  (forall r a, gave (mkEvent f a r) = None) ->
  well l -> dom (funs_ l) ⊆ list_to_set names ->
  wp (init_lib UnInit LoadAll name entry f libPath l)
     (fun r w' => handle_moves l w r.2 w' /\
        if decide (r.1 = SCF_SUCCESS) then loaded required r.2 else closed stale r.2) w.
Proof.
  intros Hun Hload Hentry Ht Hg Hl Hd. unfold init_lib.
  apply wp_meth_bind. eapply wp_mono; [by apply Hun|].
  intros [[] l1] w1 (M1 & W1 & P1 & C1 & V1 & D1). apply wp_meth_bind. cbn [fst snd] in *.
  eapply wp_mono; [by apply wp_SelfDlOpen|].
  intros [ret l2] w2 (M2 & W2 & F2 & C2 & V2 & P2). cbn [fst snd] in *.
  assert (Hclosed : forall (r : Z) l' w', r <> SCF_SUCCESS -> handle_moves l w l' w' -> well l' ->
            dom (funs_ l') ⊆ list_to_set names ->
            wp ((_ ← UnInit; mret r) l') (fun r w' => handle_moves l w r.2 w' /\
              if decide (r.1 = SCF_SUCCESS) then loaded required r.2 else closed stale r.2) w').
  { intros r l' w' Hr M' W' D'. apply wp_meth_bind. eapply wp_mono; [by apply Hun|].
    intros [[] l3] w3 (M3 & C3). apply wp_meth_ret. cbn [fst snd] in *. rewrite decide_False by done.
    split; [by eapply handle_moves_trans|done]. }
  destruct (ret =? SCF_SUCCESS) eqn:E; bools; cbn [negb].
  2:{ apply wp_meth_ret. cbn [fst snd]. rewrite decide_False in * by done.
      split; [by eapply handle_moves_trans|]. rewrite <- F2 in D1. split_and!; try done; congruence. }
  rewrite decide_True in P2 by done. apply wp_meth_bind.
  eapply wp_mono; [apply Hload; [done|by rewrite F2]|].
  intros [ret2 l3] w3 (M3 & W3 & P3 & D3 & S3). cbn [fst snd] in *.
  assert (M03 : handle_moves l w l3 w3) by (do 2 (eapply handle_moves_trans; [done|]); done).
  destruct (ret2 =? SCF_SUCCESS) eqn:E2; bools; cbn [negb]; [|by apply Hclosed].
  specialize (S3 E2). unfold dl_call. apply wp_meth_bind, wp_meth_bind, wp_this. cbn [fst snd].
  assert (Hin : is_Some (funs_ l3 !! entry)).
  { apply elem_of_dom. rewrite S3, elem_of_list_to_set. apply Hentry. }
  destruct Hin as [q ->]. apply wp_call, wp_lib. intros r _. cbn [fst snd].
  set (w4 := set_log _ _). assert (M4 : handle_moves l w l3 w4).
  { eapply handle_moves_trans; [exact M03|]. intros x Hx. cbn [w_log w4 set_log balance].
    rewrite Ht, Hg, !one_None. lia. }
  destruct (r =? SSL_SUCCESS); cbn [negb]; [|by apply Hclosed].
  apply wp_meth_ret. cbn [fst snd]. rewrite decide_True by done. split; [done|].
  split_and!; [done|congruence|done].
Qed.

(** *** The two tables *)

(** [LoadAll]: the version first, then the tables. *)
Lemma loads_all_tables required names stale tables (parts : Z -> list string) entry body :
  (forall version, body version SCF_SUCCESS = or_all (tables version) SCF_SUCCESS) ->
  (forall version, chunk parts (tables version)) ->
  (forall version, required version ≡ₚ entry :: parts version) ->
  (forall version x, x ∈ required version -> x ∈ names) ->
  stale ⊆ [entry] -> entry = "OpenSSL_version_num"%string ->
  loads_all required names stale
    (ret ← SelfDlSym entry entry;
     return_if negb (ret =? SCF_SUCCESS) with (mret SCF_ERRNO_LOAD_SYMBOL) ;;
     version ← dl_call entry OpenSSL_version_num [];
     _ ← update (set_versionNum_ version);
     ret ← body version ret;
     return_if negb (ret =? SCF_SUCCESS) with (mret SCF_ERRNO_LOAD_SYMBOL) ;;
     mret SCF_SUCCESS).
Proof.
  intros Hbody Htab Hreq Hnames Hstale Hentry l w Hl Hd.
  assert (Hsub : forall v x, x ∈ entry :: parts v -> x ∈ names)
    by (intros v x Hx; apply (Hnames v); by rewrite Hreq).
  assert (Hd1 : dom (funs_ l) ∪ list_to_set [entry] = list_to_set [entry]).
  { apply subseteq_union_1_L. etrans; [exact Hd|]. intros x. rewrite !elem_of_list_to_set. apply Hstale. }
  assert (He : entry ∈ names) by (apply (Hsub 0); set_solver).
  apply wp_meth_bind. eapply wp_mono; [by apply tries_sym|].
  intros [ret l1] w1 (M1 & W1 & P1 & V1 & D1 & S1). cbn [fst snd] in *. rewrite Hd1 in D1, S1.
  destruct (ret =? SCF_SUCCESS) eqn:E; bools; cbn [negb].
  2:{ apply wp_meth_ret. split_and!; try done. cbn [fst snd].
      intros x Hx%D1. rewrite elem_of_list_to_set in *. set_solver. }
  destruct (S1 E) as [_ F1]. unfold dl_call. apply wp_meth_bind, wp_meth_bind, wp_this. cbn [fst snd].
  assert (Hin : is_Some (funs_ l1 !! entry)).
  { apply elem_of_dom. rewrite F1. set_solver. }
  destruct Hin as [q ->]. apply wp_call, wp_lib. intros v _. apply wp_meth_bind, wp_update. cbn [fst snd].
  set (w2 := set_log _ w1). assert (M2 : handle_moves l w (set_versionNum_ v l1) w2).
  { intros x Hx. specialize (M1 x Hx). simpl. change (gave _) with (@None (Resource * Z)).
    rewrite !one_None. lia. }
  apply wp_meth_bind. rewrite E, Hbody. eapply wp_mono; [by apply (Htab v SCF_SUCCESS)|].
  intros [ret2 l3] w3 (M3 & W3 & P3 & V3 & D3 & S3). cbn [fst snd funs_ versionNum_ libptr_ set_versionNum_] in *.
  assert (M : handle_moves l w l3 w3) by (by eapply handle_moves_trans).
  assert (Dn : dom (funs_ l3) ⊆ list_to_set names).
  { intros x Hx%D3. rewrite F1 in Hx. rewrite elem_of_list_to_set. apply (Hsub v). set_solver. }
  destruct (ret2 =? SCF_SUCCESS) eqn:E2; bools; cbn [negb]; apply wp_meth_ret; cbn [fst snd];
    (split_and!; [done..|congruence|done|]); [|done].
  intros _. destruct (S3 E2) as [_ ->]. rewrite F1, V3. apply set_eq. intros x.
  rewrite elem_of_list_to_set, Hreq. set_solver.
Qed.

Definition crypto_names : list string := crypto_required SSL_VERSION_3_X.
Definition ssl_names : list string := ssl_required SSL_VERSION_3_X.

Lemma since_3_sub v names : since_3 v names ⊆ names.
Proof. unfold since_3. case_match; set_solver. Qed.

Lemma crypto_required_names v x : x ∈ crypto_required v -> x ∈ crypto_names.
Proof.
  unfold crypto_names, crypto_required. rewrite !elem_of_app. change (since_3 SSL_VERSION_3_X ?l) with l.
  pose proof (since_3_sub v pkey_symbols_3 x). tauto.
Qed.

Lemma ssl_required_names v x : x ∈ ssl_required v -> x ∈ ssl_names.
Proof.
  unfold ssl_names, ssl_required. rewrite !elem_of_app. change (since_3 SSL_VERSION_3_X ?l) with l.
  pose proof (since_3_sub v ["SSL_CTX_new_ex"%string] x). tauto.
Qed.

Definition crypto_parts (v : Z) : list string :=
  (core_symbols ++ (algorithm_symbols ++ ["EVP_MD_get_size"%string] ++ ["HMAC"%string]) ++
   ["OpenSSL_version"%string]) ++ (pkey_symbols ++ since_3 v pkey_symbols_3) ++ [].

Lemma loads_all_crypto : loads_all crypto_required crypto_names [] CryptoLoadAll.
Proof.
  unfold CryptoLoadAll.
  refine (loads_all_tables crypto_required crypto_names [] (fun _ => [LoadCoreSymbols; LoadPkeySymbols])
    crypto_parts "OpenSSL_version_num" (fun _ => or_all [LoadCoreSymbols; LoadPkeySymbols])
    _ _ _ crypto_required_names _ eq_refl).
  - done.
  - intros _. unfold crypto_parts.
    apply (chunk_cons (fun _ => _) (fun v => _ ++ [])); [apply tries_core|].
    apply (chunk_cons (fun v => _ ++ since_3 v _) (fun _ => [])); [apply tries_pkey|apply chunk_nil].
  - intros v. unfold crypto_required, crypto_parts. rewrite app_nil_r, <- !app_assoc. done.
  - set_solver.
Qed.

Definition ssl_parts (v : Z) : list string :=
  ssl_symbols ++ ["SSL_get_peer_certificate"%string] ++ ssl_symbols_2 ++ cipher_symbols ++
  (["SSL_CTX_new"%string] ++ since_3 v ["SSL_CTX_new_ex"%string] ++ ctx_symbols) ++
  session_symbols ++ method_symbols ++ pem_symbols ++ stack_symbols ++ [].
Definition ssl_tables (v : Z) : list (Method DlLib Z) :=
  syms ssl_symbols ++
  [SelfDlSym (if SSL_VERSION_3_X <=? v then "SSL_get1_peer_certificate"
              else "SSL_get_peer_certificate") "SSL_get_peer_certificate"] ++
  syms ssl_symbols_2 ++
  [LoadCipherSuit; LoadCtx; LoadSSLObj; LoadTLSMethod; LoadBIO; LoadStackOpt].

Lemma loads_all_ssl :
  loads_all ssl_required ssl_names ["OpenSSL_version_num"%string] SslLoadAll.
Proof.
  unfold SslLoadAll.
  refine (loads_all_tables ssl_required ssl_names _ ssl_tables ssl_parts "OpenSSL_version_num"
    (fun v _ => or_all (ssl_tables v) SCF_SUCCESS) _ _ _ ssl_required_names _ eq_refl).
  - done.
  - intros v. unfold ssl_parts, ssl_tables.
    apply (chunk_app (fun _ => _) (fun v => _ ++ _ ++ _)); [apply chunk_syms|].
    apply (chunk_app (fun _ => _) (fun v => _ ++ _)); [apply chunk_one, tries_sym|].
    apply (chunk_app (fun _ => _) (fun v => _ ++ _)); [apply chunk_syms|].
    apply (chunk_cons (fun _ => _) (fun v => _ ++ _)); [apply tries_table|].
    apply (chunk_cons (fun v => _ ++ since_3 v _ ++ _) (fun _ => _)); [apply tries_ctx|].
    do 3 (apply (chunk_cons (fun _ => _) (fun _ => _ ++ _)); [apply tries_table|]).
    apply (chunk_cons (fun _ => _) (fun _ => [])); [apply tries_table|apply chunk_nil].
  - intros v. unfold ssl_required, ssl_parts. rewrite app_nil_r, <- !app_assoc. done.
  - set_solver.
Qed.

Lemma closes_crypto : closes_lib crypto_names [] CryptoUnInit.
Proof.
  apply (closes_SelfDlClose _ crypto_resets); [|vm_compute; reflexivity].
  apply forgets_bind; [|apply forgets_bind; [apply clears_reset|apply forgets_update]].
  repeat (apply clears_bind; [apply clears_reset|]). apply clears_reset.
Qed.

Lemma closes_ssl : closes_lib ssl_names ["OpenSSL_version_num"%string] SslUnInit.
Proof.
  apply (closes_SelfDlClose _ all_ssl_resets); [|vm_compute; reflexivity].
  repeat (apply forgets_bind; [apply clears_reset|]). apply forgets_update.
Qed.

(** *** Both libraries *)
Definition crypto_settled l : Prop := loaded crypto_required l \/ closed [] l.
Definition ssl_settled l : Prop := loaded ssl_required l \/ closed ["OpenSSL_version_num"%string] l.

Lemma crypto_settled_names l : crypto_settled l -> well l /\ dom (funs_ l) ⊆ list_to_set crypto_names.
Proof.
  intros [(W & _ & ->)|(W & _ & _ & _ & D)]; (split; [done|]); intros x.
  - rewrite !elem_of_list_to_set. apply crypto_required_names.
  - intros Hx%D%elem_of_list_to_set. exfalso. exact (not_elem_of_nil _ Hx).
Qed.

Lemma ssl_settled_names l : ssl_settled l -> well l /\ dom (funs_ l) ⊆ list_to_set ssl_names.
Proof.
  intros [(W & _ & ->)|(W & _ & _ & _ & D)]; (split; [done|]); intros x.
  - rewrite !elem_of_list_to_set. apply ssl_required_names.
  - intros Hx%D. rewrite elem_of_list_to_set in *. apply elem_of_app; by left.
Qed.

Lemma wp_CryptoInit libPath l w :
  crypto_settled l ->
  wp (CryptoInit libPath l) (fun r w' => handle_moves l w r.2 w' /\
    if decide (r.1 = SCF_SUCCESS) then loaded crypto_required r.2 else closed [] r.2) w.
Proof.
  intros [W D]%crypto_settled_names.
  apply (wp_init_lib _ crypto_names); try done; [apply closes_crypto|apply loads_all_crypto|].
  intros v. apply elem_of_app; right. apply elem_of_app; left. by left.
Qed.

Lemma wp_CryptoUnInit l w :
  crypto_settled l ->
  wp (CryptoUnInit l) (fun r w' => handle_moves l w r.2 w' /\ closed [] r.2) w.
Proof. intros [W D]%crypto_settled_names. by apply closes_crypto. Qed.

Lemma wp_SslInit libPath l w :
  ssl_settled l ->
  wp (SslInit libPath l) (fun r w' => handle_moves l w r.2 w' /\
    if decide (r.1 = SCF_SUCCESS) then loaded ssl_required r.2
    else closed ["OpenSSL_version_num"%string] r.2) w.
Proof.
  intros [W D]%ssl_settled_names.
  apply (wp_init_lib _ ssl_names); try done; [apply closes_ssl|apply loads_all_ssl|].
  intros v. apply elem_of_app; right. apply elem_of_app; left. by left.
Qed.

Lemma wp_SslUnInit l w :
  ssl_settled l ->
  wp (SslUnInit l) (fun r w' => handle_moves l w r.2 w' /\ closed ["OpenSSL_version_num"%string] r.2) w.
Proof. intros [W D]%ssl_settled_names. by apply closes_ssl. Qed.

(** Loading is all or nothing. Whatever state a library is in (loaded, or closed with
    nothing but stale function objects), [Init] returns, and afterwards the library is loaded
    with a handle and exactly the symbols its version needs, none of them null, when it
    reports success, and closed otherwise, whichever step failed; [UnInit] closes it. The
    handle [dlopen] answered is the one the object holds, or was given to [dlclose]. After
    [UnInit] no function object of libcrypto is left; libssl keeps the one of the version. *)
Theorem loading_all_or_nothing libPath l w :
  (loaded crypto_required l \/ closed [] l ->
     wp (CryptoInit libPath l) (fun r w' => handle_moves l w r.2 w' /\
       if decide (r.1 = SCF_SUCCESS) then loaded crypto_required r.2 else closed [] r.2) w /\
     wp (CryptoUnInit l) (fun r w' => handle_moves l w r.2 w' /\ closed [] r.2) w) /\
  (loaded ssl_required l \/ closed ["OpenSSL_version_num"%string] l ->
     wp (SslInit libPath l) (fun r w' => handle_moves l w r.2 w' /\
       if decide (r.1 = SCF_SUCCESS) then loaded ssl_required r.2
       else closed ["OpenSSL_version_num"%string] r.2) w /\
     wp (SslUnInit l) (fun r w' => handle_moves l w r.2 w' /\
       closed ["OpenSSL_version_num"%string] r.2) w).
Proof.
  split; intros Hl; split;
    [by apply wp_CryptoInit|by apply wp_CryptoUnInit|by apply wp_SslInit|by apply wp_SslUnInit].
Qed.
End init.

(** ** Witness: a system where everything is found *)
#[export] Instance DlLibrary : Library := {|
  answer _ f _ := match f with OpenSSL_version_num => 0x30000020 | dlopen => 7 | dlclose => 0 | _ => 1 end;
  out_value _ := 0;
  cstring_at _ _ := EmptyString;
  bytes_at _ _ n := replicate (Z.to_nat n) NUL;
  asn1_data _ _ := []
|}.

Lemma no_lib_closed stale : closed stale no_lib.
Proof. split_and!; [split; [done|apply not_elem_of_nil]|done..|set_solver]. Qed.

(** libcrypto, loaded in that system. *)
Definition demo_lib : DlLib :=
  match CryptoInit "/usr/lib" no_lib world0 with Some (r, _) => r.2 | None => no_lib end.

Lemma demo_loaded : loaded crypto_required demo_lib.
Proof.
  unfold loaded, well. apply (bool_decide_unpack _). vm_compute. exact I.
Qed.

Lemma loading_all_or_nothing_witness :
  closed [] no_lib /\
  wp (CryptoInit "/usr/lib" no_lib) (fun r w' => r.1 = SCF_SUCCESS /\ loaded crypto_required r.2) world0.
Proof.
  split; [apply no_lib_closed|].
  pose proof (proj1 (proj1 (loading_all_or_nothing "/usr/lib" no_lib world0) (or_intror (no_lib_closed [])))) as Hw.
  assert (Hr : match CryptoInit "/usr/lib" no_lib world0 with Some (r, _) => r.1 | None => 1 end = SCF_SUCCESS)
    by (vm_compute; reflexivity).
  unfold wp in *. destruct (CryptoInit "/usr/lib" no_lib world0) as [[r w']|]; [|contradiction].
  destruct Hw as [_ Hw]. rewrite decide_True in Hw by exact Hr. exact (conj Hr Hw).
Defined.
