(* ===== verification/Crypto.v ===== *)
(** * Crypto engines

    [src/include/scf_crypto_engine.h], [src/crypto/default_crypto_engine.cpp] and the version
    wrappers of [src/adaptor/openssl/lib_crypto_api.cpp]. An engine calls libcrypto through
    the function objects of the loader's singleton ([lib_] below): calling one that was not
    loaded throws, which is a fault here. Buffers are addresses; what an operation stores
    through an out-pointer is part of its result ([None]: the pointer was not written). *)
From Stdlib Require Import ZArith Lia Ascii String.
From stdpp Require Import base list fin_maps gmap strings pretty.
From S2P Require Import Prelude Types Machine OpenSSL Ledger Loader.
Open Scope Z_scope.

(** ** Interface types *)
Inductive SymmetricAlgorithm : Type :=
| AES_128_GCM | AES_256_GCM | AES_128_CCM | CHACHA20_POLY1305 | SM4_GCM | SYM_CUSTOM.
Inductive AsymmetricAlgorithm : Type :=
| RSA | ECDSA_P256 | ECDSA_P384 | ECDSA_P521 | EDDSA_25519 | SM2 | ASYM_CUSTOM.
Inductive HashAlgorithm : Type := SHA256 | SHA384 | SHA512 | SM3 | HASH_CUSTOM.
Inductive KeyExchangeAlgorithm : Type := ECDHE | DHE | KEX_PSK | SM2_KEY_EXCHANGE | KEX_CUSTOM.

Record CryptoEngineCapability : Type := mkCapability {
  cap_engineName : string;
  cap_engineVersion : string;
  cap_hardwareVendor : string;
  cap_symmetricAlgos : list SymmetricAlgorithm;
  cap_asymmetricAlgos : list AsymmetricAlgorithm;
  cap_hashAlgos : list HashAlgorithm;
  cap_keyExchangeAlgos : list KeyExchangeAlgorithm;
  cap_hardwareAccelerated : bool;
  cap_supportsAsyncOperation : bool;
  cap_supportsOffload : bool;
  cap_maxConcurrentOps : Z
}.

Record CryptoEngineConfig : Type := mkEngineConfig {
  ec_configFilePath : string;
  ec_devicePath : string;
  ec_sessionPoolSize : Z;
  ec_enableAsyncMode : bool;
  ec_asyncQueueDepth : Z
}.
Definition default_engine_config : CryptoEngineConfig :=
  mkEngineConfig EmptyString EmptyString 16 false 64.

Record CryptoKeyHandle : Type := mkKeyHandle {
  kh_keyId : Z;
  kh_keyLabel : string;
  kh_engineContext : Z
}.

(** ** Constants (openssl_def.h) *)
Definition NID_undef : Z := 0.
Definition NID_X9_62_prime256v1 : Z := 415.
Definition NID_secp384r1 : Z := 715.
Definition NID_secp521r1 : Z := 716.
Definition EVP_PKEY_EC : Z := 408.
Definition EVP_PKEY_HKDF : Z := 1036.
Definition EVP_PKEY_HKDEF_MODE_EXTRACT_ONLY : Z := 1.
Definition EVP_PKEY_HKDEF_MODE_EXPAND_ONLY : Z := 2.
Definition EVP_CTRL_AEAD_SET_IVLEN : Z := 0x9.
Definition EVP_CTRL_AEAD_GET_TAG : Z := 0x10.
Definition EVP_CTRL_AEAD_SET_TAG : Z := 0x11.
Definition EVP_PKEY_OP_PARAMGEN : Z := Z.shiftl 1 1.
Definition EVP_PKEY_OP_KEYGEN : Z := Z.shiftl 1 2.
Definition EVP_PKEY_OP_DERIVE_1_1_1 : Z := Z.shiftl 1 10.
Definition EVP_PKEY_EC_PARAMGEN_CURVE_NID : Z := 0x1001.
Definition EVP_PKEY_HKDF_MD : Z := 0x1003.
Definition EVP_PKEY_HKDF_SALT : Z := 0x1004.
Definition EVP_PKEY_HKDF_KEY : Z := 0x1005.
Definition EVP_PKEY_HKDF_INFO : Z := 0x1006.
Definition EVP_PKEY_HKDF_MODE : Z := 0x1007.
Definition OPENSSL_VERSION : Z := 0.

(** [if (m != SSL_SUCCESS) break;], where a [break] makes the block's result [stop]. *)
Definition must {X} (m : M Z) (stop : X) (k : M X) : M X :=
  rc ← m; if negb (rc =? SSL_SUCCESS) then mret stop else k.
Notation "'must_be_ok' m 'else' stop ;; k" := (must m stop k)
  (at level 10, m at level 99, stop at level 10, k at level 200, only parsing) : scf_scope.

(** The function object behind a libcrypto call. *)
Definition fun_object (f : LibFn) : string :=
  match f with
  | OpenSSL_version => "OpenSSL_version"
  | EVP_aes_128_gcm => "EVP_aes_128_gcm" | EVP_aes_256_gcm => "EVP_aes_256_gcm"
  | EVP_aes_128_ccm => "EVP_aes_128_ccm" | EVP_chacha20_poly1305 => "EVP_chacha20_poly1305"
  | EVP_sha256 => "EVP_sha256" | EVP_sha384 => "EVP_sha384" | EVP_sha512 => "EVP_sha512"
  | EVP_MD_get_size => "EVP_MD_get_size"
  | EVP_CIPHER_CTX_new => "EVP_CIPHER_CTX_new" | EVP_CIPHER_CTX_free => "EVP_CIPHER_CTX_free"
  | EVP_CIPHER_CTX_ctrl => "EVP_CIPHER_CTX_ctrl"
  | EVP_EncryptInit_ex => "EVP_EncryptInit_ex" | EVP_EncryptUpdate => "EVP_EncryptUpdate"
  | EVP_EncryptFinal_ex => "EVP_EncryptFinal_ex"
  | EVP_DecryptInit_ex => "EVP_DecryptInit_ex" | EVP_DecryptUpdate => "EVP_DecryptUpdate"
  | EVP_DecryptFinal_ex => "EVP_DecryptFinal_ex"
  | EVP_MD_CTX_new => "EVP_MD_CTX_new" | EVP_MD_CTX_free => "EVP_MD_CTX_free"
  | EVP_DigestInit_ex => "EVP_DigestInit_ex" | EVP_DigestUpdate => "EVP_DigestUpdate"
  | EVP_DigestFinal_ex => "EVP_DigestFinal_ex" | EVP_HMAC => "HMAC"
  | EVP_PKEY_new => "EVP_PKEY_new" | EVP_PKEY_free => "EVP_PKEY_free"
  | EVP_PKEY_CTX_new => "EVP_PKEY_CTX_new" | EVP_PKEY_CTX_new_id => "EVP_PKEY_CTX_new_id"
  | EVP_PKEY_CTX_free => "EVP_PKEY_CTX_free" | EVP_PKEY_CTX_ctrl => "EVP_PKEY_CTX_ctrl"
  | EVP_PKEY_keygen_init => "EVP_PKEY_keygen_init" | EVP_PKEY_keygen => "EVP_PKEY_keygen"
  | EVP_PKEY_derive_init => "EVP_PKEY_derive_init" | EVP_PKEY_derive => "EVP_PKEY_derive"
  | EVP_PKEY_derive_set_peer => "EVP_PKEY_derive_set_peer"
  | EVP_PKEY_CTX_set_ec_paramgen_curve_nid => "EVP_PKEY_CTX_set_ec_paramgen_curve_nid"
  | EVP_PKEY_CTX_set_hkdf_md => "EVP_PKEY_CTX_set_hkdf_md"
  | EVP_PKEY_CTX_set1_hkdf_salt => "EVP_PKEY_CTX_set1_hkdf_salt"
  | EVP_PKEY_CTX_set1_hkdf_key => "EVP_PKEY_CTX_set1_hkdf_key"
  | EVP_PKEY_CTX_set_hkdf_mode => "EVP_PKEY_CTX_set_hkdf_mode"
  | EVP_PKEY_CTX_add1_hkdf_info => "EVP_PKEY_CTX_add1_hkdf_info"
  | d2i_PUBKEY => "d2i_PUBKEY" | RAND_bytes => "RAND_bytes"
  | OSSL_LIB_CTX_new => "OSSL_LIB_CTX_new" | OSSL_LIB_CTX_free => "OSSL_LIB_CTX_free"
  | OSSL_PROVIDER_load => "OSSL_PROVIDER_load" | OSSL_PROVIDER_unload => "OSSL_PROVIDER_unload"
  | ERR_get_error => "ERR_get_error" | ERR_error_string_n => "ERR_error_string_n"
  | _ => EmptyString
  end%string.

Section engine.
Context `{Library} (lib_ : DlLib).

Definition api (f : LibFn) (args : list Arg) : M Z :=
  match funs_ lib_ !! fun_object f with
  | Some _ => lib f args
  | None => fault
  end.

(** [*p = v] *)
Definition store (p v : Z) : M Z := if p =? nullptr then fault else mret v.

Definition version_3 : bool := SSL_VERSION_3_X <=? versionNum_ lib_.

(** ** Version wrappers (lib_crypto_api.cpp) *)
Definition SetEcParamGenCurveNid (ctx nid : Z) : M Z :=
  return_if version_3 with (api EVP_PKEY_CTX_set_ec_paramgen_curve_nid [AInt ctx; AInt nid]) ;;
  api EVP_PKEY_CTX_ctrl [AInt ctx; AInt EVP_PKEY_EC;
    AInt (Z.lor EVP_PKEY_OP_PARAMGEN EVP_PKEY_OP_KEYGEN);
    AInt EVP_PKEY_EC_PARAMGEN_CURVE_NID; AInt nid; AInt nullptr].
Definition SetHkdfMd (ctx md : Z) : M Z :=
  return_if version_3 with (api EVP_PKEY_CTX_set_hkdf_md [AInt ctx; AInt md]) ;;
  api EVP_PKEY_CTX_ctrl [AInt ctx; AInt (-1); AInt EVP_PKEY_OP_DERIVE_1_1_1;
    AInt EVP_PKEY_HKDF_MD; AInt 0; AInt md].
Definition SetHkdfSalt (ctx salt saltLen : Z) : M Z :=
  return_if version_3 with (api EVP_PKEY_CTX_set1_hkdf_salt [AInt ctx; AInt salt; AInt saltLen]) ;;
  api EVP_PKEY_CTX_ctrl [AInt ctx; AInt (-1); AInt EVP_PKEY_OP_DERIVE_1_1_1;
    AInt EVP_PKEY_HKDF_SALT; AInt saltLen; AInt salt].
Definition SetHkdfKey (ctx key keyLen : Z) : M Z :=
  return_if version_3 with (api EVP_PKEY_CTX_set1_hkdf_key [AInt ctx; AInt key; AInt keyLen]) ;;
  api EVP_PKEY_CTX_ctrl [AInt ctx; AInt (-1); AInt EVP_PKEY_OP_DERIVE_1_1_1;
    AInt EVP_PKEY_HKDF_KEY; AInt keyLen; AInt key].
Definition SetHkdfMode (ctx mode : Z) : M Z :=
  return_if version_3 with (api EVP_PKEY_CTX_set_hkdf_mode [AInt ctx; AInt mode]) ;;
  api EVP_PKEY_CTX_ctrl [AInt ctx; AInt (-1); AInt EVP_PKEY_OP_DERIVE_1_1_1;
    AInt EVP_PKEY_HKDF_MODE; AInt mode; AInt nullptr].
Definition AddHkdfInfo (ctx info infoLen : Z) : M Z :=
  return_if version_3 with (api EVP_PKEY_CTX_add1_hkdf_info [AInt ctx; AInt info; AInt infoLen]) ;;
  api EVP_PKEY_CTX_ctrl [AInt ctx; AInt (-1); AInt EVP_PKEY_OP_DERIVE_1_1_1;
    AInt EVP_PKEY_HKDF_INFO; AInt infoLen; AInt info].

(** ** Algorithms *)
Definition MapSymmetricAlgo (algo : SymmetricAlgorithm) : M Z :=
  match algo with
  | AES_128_GCM => api EVP_aes_128_gcm []
  | AES_256_GCM => api EVP_aes_256_gcm []
  | AES_128_CCM => api EVP_aes_128_ccm []
  | CHACHA20_POLY1305 => api EVP_chacha20_poly1305 []
  | _ => mret nullptr
  end.
Definition MapHashAlgo (algo : HashAlgorithm) : M Z :=
  match algo with
  | SHA256 => api EVP_sha256 []
  | SHA384 => api EVP_sha384 []
  | SHA512 => api EVP_sha512 []
  | _ => mret nullptr
  end.
Definition MapEcNid (algo : AsymmetricAlgorithm) : Z :=
  match algo with
  | ECDSA_P256 => NID_X9_62_prime256v1
  | ECDSA_P384 => NID_secp384r1
  | ECDSA_P521 => NID_secp521r1
  | _ => NID_undef
  end.

(** ** Authenticated encryption *)

(** [if (aad != nullptr && aadLen > 0) { if (Update(...) != SSL_SUCCESS) break; }] *)
Definition update_aad (f : LibFn) (ctx aad aadLen : Z) : M Z :=
  if negb (aad =? nullptr) && (0 <? aadLen)
  then api f [AInt ctx; AInt nullptr; AInt aad; AInt (to_int32 aadLen)]
  else mret SSL_SUCCESS.

(** The block of [EncryptAEAD] on a context: whether it succeeded, and [*ciphertextLen]. *)
Definition encrypt_block (ctx cipher key iv ivLen plaintext plaintextLen aad aadLen
    ciphertext ciphertextLen tag tagLen : Z) : M (bool * option Z) :=
  must_be_ok (api EVP_EncryptInit_ex [AInt ctx; AInt cipher; AInt nullptr; AInt nullptr; AInt nullptr])
    else (false, None) ;;
  must_be_ok (api EVP_CIPHER_CTX_ctrl [AInt ctx; AInt EVP_CTRL_AEAD_SET_IVLEN;
    AInt (to_int32 ivLen); AInt nullptr]) else (false, None) ;;
  must_be_ok (api EVP_EncryptInit_ex [AInt ctx; AInt nullptr; AInt nullptr; AInt key; AInt iv])
    else (false, None) ;;
  must_be_ok (update_aad EVP_EncryptUpdate ctx aad aadLen) else (false, None) ;;
  return_if INT32_MAX <? plaintextLen with (mret (false, None)) ;;
  must_be_ok (api EVP_EncryptUpdate [AInt ctx; AInt ciphertext; AInt plaintext;
    AInt (to_int32 plaintextLen)]) else (false, None) ;;
  outLen ← lib_out;
  len ← store ciphertextLen (wrap64 outLen);
  must_be_ok (api EVP_EncryptFinal_ex [AInt ctx; AInt (ciphertext + outLen)])
    else (false, Some len) ;;
  outLen ← lib_out;
  len ← store ciphertextLen (wrap64 (len + wrap64 outLen));
  must_be_ok (api EVP_CIPHER_CTX_ctrl [AInt ctx; AInt EVP_CTRL_AEAD_GET_TAG;
    AInt (to_int32 tagLen); AInt tag]) else (false, Some len) ;;
  mret (true, Some len).

Definition EncryptAEAD (algo : SymmetricAlgorithm) (key keyLen iv ivLen plaintext plaintextLen
    aad aadLen ciphertext ciphertextLen tag tagLen : Z) : M (bool * option Z) :=
  cipher ← MapSymmetricAlgo algo;
  return_if cipher =? nullptr with (mret (false, None)) ;;
  ctx ← api EVP_CIPHER_CTX_new [];
  return_if ctx =? nullptr with (mret (false, None)) ;;
  r ← encrypt_block ctx cipher key iv ivLen plaintext plaintextLen aad aadLen
        ciphertext ciphertextLen tag tagLen;
  _ ← api EVP_CIPHER_CTX_free [AInt ctx];
  mret r.

Definition decrypt_block (ctx cipher key iv ivLen ciphertext ciphertextLen aad aadLen
    tag tagLen plaintext plaintextLen : Z) : M (bool * option Z) :=
  must_be_ok (api EVP_DecryptInit_ex [AInt ctx; AInt cipher; AInt nullptr; AInt nullptr; AInt nullptr])
    else (false, None) ;;
  must_be_ok (api EVP_CIPHER_CTX_ctrl [AInt ctx; AInt EVP_CTRL_AEAD_SET_IVLEN;
    AInt (to_int32 ivLen); AInt nullptr]) else (false, None) ;;
  must_be_ok (api EVP_DecryptInit_ex [AInt ctx; AInt nullptr; AInt nullptr; AInt key; AInt iv])
    else (false, None) ;;
  must_be_ok (update_aad EVP_DecryptUpdate ctx aad aadLen) else (false, None) ;;
  return_if INT32_MAX <? ciphertextLen with (mret (false, None)) ;;
  must_be_ok (api EVP_DecryptUpdate [AInt ctx; AInt plaintext; AInt ciphertext;
    AInt (to_int32 ciphertextLen)]) else (false, None) ;;
  outLen ← lib_out;
  len ← store plaintextLen (wrap64 outLen);
  must_be_ok (api EVP_CIPHER_CTX_ctrl [AInt ctx; AInt EVP_CTRL_AEAD_SET_TAG;
    AInt (to_int32 tagLen); AInt tag]) else (false, Some len) ;;
  must_be_ok (api EVP_DecryptFinal_ex [AInt ctx; AInt (plaintext + outLen)])
    else (false, Some len) ;;
  outLen ← lib_out;
  len ← store plaintextLen (wrap64 (len + wrap64 outLen));
  mret (true, Some len).

Definition DecryptAEAD (algo : SymmetricAlgorithm) (key keyLen iv ivLen ciphertext ciphertextLen
    aad aadLen tag tagLen plaintext plaintextLen : Z) : M (bool * option Z) :=
  cipher ← MapSymmetricAlgo algo;
  return_if cipher =? nullptr with (mret (false, None)) ;;
  ctx ← api EVP_CIPHER_CTX_new [];
  return_if ctx =? nullptr with (mret (false, None)) ;;
  r ← decrypt_block ctx cipher key iv ivLen ciphertext ciphertextLen aad aadLen
        tag tagLen plaintext plaintextLen;
  _ ← api EVP_CIPHER_CTX_free [AInt ctx];
  mret r.

(** ** Key agreement *)
Definition derive_block (deriveCtx peerKey sharedSecret sharedSecretLen : Z) : M (bool * option Z) :=
  must_be_ok (api EVP_PKEY_derive_init [AInt deriveCtx]) else (false, None) ;;
  must_be_ok (api EVP_PKEY_derive_set_peer [AInt deriveCtx; AInt peerKey]) else (false, None) ;;
  must_be_ok (api EVP_PKEY_derive [AInt deriveCtx; AInt nullptr; AInt 0]) else (false, None) ;;
  secretLen ← lib_out;
  must_be_ok (api EVP_PKEY_derive [AInt deriveCtx; AInt sharedSecret; AInt secretLen])
    else (false, None) ;;
  secretLen ← lib_out;
  len ← store sharedSecretLen secretLen;
  mret (true, Some len).

Definition DeriveECDHSharedSecret (pkey peerKey sharedSecret sharedSecretLen : Z)
    : M (bool * option Z) :=
  deriveCtx ← api EVP_PKEY_CTX_new [AInt pkey; AInt nullptr];
  return_if deriveCtx =? nullptr with (mret (false, None)) ;;
  r ← derive_block deriveCtx peerKey sharedSecret sharedSecretLen;
  _ ← api EVP_PKEY_CTX_free [AInt deriveCtx];
  mret r.

(** [EVP_PKEY_keygen(pctx, &pkey)]: a null key is replaced by the one it makes. *)
Definition keygen (pctx pkey : Z) : M (Z * Z) :=
  rc ← api EVP_PKEY_keygen [AInt pctx; AInt pkey];
  made ← lib_out;
  mret (rc, if pkey =? nullptr then made else pkey).

(** The block of [ECDHKeyAgreement] on a [pctx]: the result, and [pkey] and [peerKey] as the
    block leaves them. *)
Definition agreement_block (pctx pkey nid peerPublicKey peerPublicKeyLen sharedSecret
    sharedSecretLen : Z) : M (bool * option Z * Z * Z) :=
  must_be_ok (api EVP_PKEY_keygen_init [AInt pctx]) else (false, None, pkey, nullptr) ;;
  must_be_ok (SetEcParamGenCurveNid pctx nid) else (false, None, pkey, nullptr) ;;
  g ← keygen pctx pkey;
  let '(rc, pkey) := g in
  return_if negb (rc =? SSL_SUCCESS) with (mret (false, None, pkey, nullptr)) ;;
  peerKey ← api d2i_PUBKEY [AInt nullptr; AInt peerPublicKey; AInt (to_int64 peerPublicKeyLen)];
  return_if peerKey =? nullptr with (mret (false, None, pkey, peerKey)) ;;
  r ← DeriveECDHSharedSecret pkey peerKey sharedSecret sharedSecretLen;
  mret (r, pkey, peerKey).

Definition free_unless_null (f : LibFn) (p : Z) : M unit :=
  if p =? nullptr then mret tt else _ ← api f [AInt p]; mret tt.

Definition ECDHKeyAgreement (algo : AsymmetricAlgorithm) (peerPublicKey peerPublicKeyLen
    sharedSecret sharedSecretLen : Z) : M (bool * option Z) :=
  let nid := MapEcNid algo in
  return_if nid =? NID_undef with (mret (false, None)) ;;
  pkey ← api EVP_PKEY_new [];
  pctx ← api EVP_PKEY_CTX_new_id [AInt EVP_PKEY_EC; AInt nullptr];
  r ← (if pctx =? nullptr then mret (false, None, pkey, nullptr)
       else agreement_block pctx pkey nid peerPublicKey peerPublicKeyLen sharedSecret sharedSecretLen);
  let '(r, pkey, peerKey) := r in
  _ ← free_unless_null EVP_PKEY_free pkey;
  _ ← free_unless_null EVP_PKEY_CTX_free pctx;
  _ ← free_unless_null EVP_PKEY_free peerKey;
  mret r.

(** Stubs. *)
Definition Sign (algo : AsymmetricAlgorithm) (key : CryptoKeyHandle)
    (digest digestLen signature sigLen : Z) : M bool := mret false.
Definition Verify (algo : AsymmetricAlgorithm) (key : CryptoKeyHandle)
    (digest digestLen signature sigLen : Z) : M bool := mret false.

(** ** Digests *)
Definition hash_block (ctx md data dataLen digest : Z) : M (bool * Z) :=
  must_be_ok (api EVP_DigestInit_ex [AInt ctx; AInt md; AInt nullptr]) else (false, 0) ;;
  must_be_ok (api EVP_DigestUpdate [AInt ctx; AInt data; AInt dataLen]) else (false, 0) ;;
  rc ← api EVP_DigestFinal_ex [AInt ctx; AInt digest];
  outLen ← lib_out;
  mret (rc =? SSL_SUCCESS, outLen).

Definition Hash (algo : HashAlgorithm) (data dataLen digest digestLen : Z) : M (bool * option Z) :=
  md ← MapHashAlgo algo;
  return_if md =? nullptr with (mret (false, None)) ;;
  ctx ← api EVP_MD_CTX_new [];
  return_if ctx =? nullptr with (mret (false, None)) ;;
  r ← hash_block ctx md data dataLen digest;
  len ← store digestLen r.2;
  _ ← api EVP_MD_CTX_free [AInt ctx];
  mret (r.1, Some len).

Definition HMAC (algo : HashAlgorithm) (key keyLen data dataLen mac macLen : Z)
    : M (bool * option Z) :=
  return_if INT32_MAX <? keyLen with (mret (false, None)) ;;
  md ← MapHashAlgo algo;
  return_if md =? nullptr with (mret (false, None)) ;;
  result ← api EVP_HMAC [AInt md; AInt key; AInt (to_int32 keyLen); AInt data; AInt dataLen; AInt mac];
  outLen ← lib_out;
  return_if result =? nullptr with (mret (false, None)) ;;
  len ← store macLen outLen;
  mret (true, Some len).

(** ** HKDF *)
Definition extract_block (pctx md salt saltLen ikm ikmLen prk prkLen : Z) : M (bool * option Z) :=
  must_be_ok (api EVP_PKEY_derive_init [AInt pctx]) else (false, None) ;;
  must_be_ok (SetHkdfMd pctx md) else (false, None) ;;
  must_be_ok (SetHkdfSalt pctx salt (to_int32 saltLen)) else (false, None) ;;
  must_be_ok (SetHkdfKey pctx ikm (to_int32 ikmLen)) else (false, None) ;;
  must_be_ok (SetHkdfMode pctx EVP_PKEY_HKDEF_MODE_EXTRACT_ONLY) else (false, None) ;;
  digestSize ← api EVP_MD_get_size [AInt md];
  return_if digestSize <=? 0 with (mret (false, None)) ;;
  must_be_ok (api EVP_PKEY_derive [AInt pctx; AInt prk; AInt digestSize]) else (false, None) ;;
  outLen ← lib_out;
  len ← store prkLen outLen;
  mret (true, Some len).

Definition HKDFExtract (algo : HashAlgorithm) (salt saltLen ikm ikmLen prk prkLen : Z)
    : M (bool * option Z) :=
  md ← MapHashAlgo algo;
  return_if md =? nullptr with (mret (false, None)) ;;
  pctx ← api EVP_PKEY_CTX_new_id [AInt EVP_PKEY_HKDF; AInt nullptr];
  return_if pctx =? nullptr with (mret (false, None)) ;;
  r ← extract_block pctx md salt saltLen ikm ikmLen prk prkLen;
  _ ← api EVP_PKEY_CTX_free [AInt pctx];
  mret r.

Definition expand_block (pctx md prk prkLen info infoLen okm okmLen : Z) : M bool :=
  must_be_ok (api EVP_PKEY_derive_init [AInt pctx]) else false ;;
  must_be_ok (SetHkdfMd pctx md) else false ;;
  must_be_ok (SetHkdfKey pctx prk (to_int32 prkLen)) else false ;;
  must_be_ok (AddHkdfInfo pctx info (to_int32 infoLen)) else false ;;
  must_be_ok (SetHkdfMode pctx EVP_PKEY_HKDEF_MODE_EXPAND_ONLY) else false ;;
  must_be_ok (api EVP_PKEY_derive [AInt pctx; AInt okm; AInt okmLen]) else false ;;
  mret true.

Definition HKDFExpand (algo : HashAlgorithm) (prk prkLen info infoLen okm okmLen : Z) : M bool :=
  md ← MapHashAlgo algo;
  return_if md =? nullptr with (mret false) ;;
  pctx ← api EVP_PKEY_CTX_new_id [AInt EVP_PKEY_HKDF; AInt nullptr];
  return_if pctx =? nullptr with (mret false) ;;
  r ← expand_block pctx md prk prkLen info infoLen okm okmLen;
  _ ← api EVP_PKEY_CTX_free [AInt pctx];
  mret r.

(** ** Random bytes and keys *)
Definition RandomBytes (buffer len : Z) : M bool :=
  return_if INT32_MAX <? len with (mret false) ;;
  rc ← api RAND_bytes [AInt buffer; AInt (to_int32 len)];
  mret (rc =? SSL_SUCCESS).

(** The result and [handle]. *)
Definition ImportKey (keyId keyData keyDataLen : Z) : M (bool * CryptoKeyHandle) :=
  mret (true, mkKeyHandle keyId ("imported_key_" ++ pretty keyId) nullptr).
Definition DestroyKey (handle : CryptoKeyHandle) : M bool := mret true.
End engine.

(** ** The software engine *)
Record DefaultSoftwareCryptoEngine : Type := mkSoftEngine { se_initialized : bool }.
Definition new_soft_engine : DefaultSoftwareCryptoEngine := mkSoftEngine false.

Section software.
Context `{Library} (lib_ : DlLib).

Definition Initialize (config : CryptoEngineConfig) : Method DefaultSoftwareCryptoEngine bool :=
  _ ← update (fun _ => mkSoftEngine true); mret true.
Definition Finalize : Method DefaultSoftwareCryptoEngine unit := update (fun _ => mkSoftEngine false).
Definition delete_soft_engine (e : DefaultSoftwareCryptoEngine) : M unit := _ ← Finalize e; mret tt.
Definition IsInitialized (e : DefaultSoftwareCryptoEngine) : bool := se_initialized e.

Definition GetCapability : M CryptoEngineCapability :=
  p ← api lib_ OpenSSL_version [AInt OPENSSL_VERSION];
  version ← lib_cstring p;
  mret (mkCapability "OpenSSL Software Engine" version "Software"
    [AES_128_GCM; AES_256_GCM; AES_128_CCM; CHACHA20_POLY1305]
    [ECDSA_P256; ECDSA_P384; ECDSA_P521] [SHA256; SHA384; SHA512] [ECDHE]
    false false false 0).

Definition GetProviderContext : Z := nullptr.
Definition IsHardwareAccelerated : bool := false.
Definition GetAcceleratedAlgorithms : string := "none (software only)".

(** [DefaultSoftwareCryptoEngineFactory::Create]; the engine lives at the address. *)
Definition CreateEngine : M Z := lib op_new [AStr engine_name].
End software.
