(* ===== verification/CryptoSpec.v ===== *)
(** * What the software engine promises

    On a loaded library no operation calls a missing function; whatever libcrypto answers,
    every context and key an operation makes is given back before it returns; and what
    [DecryptAEAD] accepts was checked under the caller's tag. *)
From Stdlib Require Import ZArith Lia Ascii String.
From stdpp Require Import base list fin_maps gmap fin_map_dom strings.
From S2P Require Import Prelude Types FileCheck Machine OpenSSL Ledger Loader LoaderSpec Crypto Lifecycle.
Open Scope Z_scope.

(** The functions every supported version has, and the ones only the 3.x series has. *)
Definition always_there (f : LibFn) : bool := bool_decide (fun_object f ∈ crypto_required 0).
Definition there_since_3 (f : LibFn) : bool :=
  bool_decide (fun_object f ∈ crypto_required SSL_VERSION_3_X).

Section engine.
Context `{Library} (lib_ : DlLib) (Hlib : loaded crypto_required lib_).
Implicit Types (own : list (Resource * Z)) (w : World).

Lemma api_found f args : fun_object f ∈ crypto_required (versionNum_ lib_) -> api lib_ f args = lib f args.
Proof.
  intros Hin. destruct Hlib as (_ & _ & Hd). unfold api.
  assert (Hs : is_Some (funs_ lib_ !! fun_object f)).
  { apply elem_of_dom. by rewrite Hd, elem_of_list_to_set. }
  by destruct Hs as [p ->].
Qed.

Lemma api_always f args : always_there f = true -> api lib_ f args = lib f args.
Proof.
  intros Hf%bool_decide_eq_true. apply api_found. unfold crypto_required in *.
  rewrite !elem_of_app in *. change (since_3 0 pkey_symbols_3) with (@nil string) in Hf.
  rewrite elem_of_nil in Hf. tauto.
Qed.

Lemma api_since_3 f args :
  version_3 lib_ = true -> there_since_3 f = true -> api lib_ f args = lib f args.
Proof.
  intros Hv Hf%bool_decide_eq_true. apply api_found. unfold crypto_required, since_3, version_3 in *.
  by rewrite Hv.
Qed.

Lemma moves_api own f args post :
  always_there f = true -> moves own (lib f args) post -> moves own (api lib_ f args) post.
Proof. intros Hf Hm. by rewrite api_always. Qed.

(** A wrapper calls one of two functions. *)
Lemma moves_versions own f g args args' :
  there_since_3 f = true -> always_there g = true ->
  moves own (lib f args) (fun _ => own) -> moves own (lib g args') (fun _ => own) ->
  moves own (if version_3 lib_ then api lib_ f args else api lib_ g args') (fun _ => own).
Proof.
  intros Hf Hg M1 M2. destruct (version_3 lib_) eqn:Hv; [by rewrite api_since_3|by rewrite api_always].
Qed.

Lemma moves_store own p v : p <> nullptr -> moves own (store p v) (fun _ => own).
Proof. intros Hp. unfold store. rewrite (proj2 (Z.eqb_neq _ _) Hp). by apply moves_ret. Qed.

Ltac wrapper := unfold SetEcParamGenCurveNid, SetHkdfMd, SetHkdfSalt, SetHkdfKey, SetHkdfMode, AddHkdfInfo;
  apply moves_versions; [vm_compute; reflexivity..|by apply moves_quiet|by apply moves_quiet].

Lemma moves_SetEcParamGenCurveNid own c n : moves own (SetEcParamGenCurveNid lib_ c n) (fun _ => own).
Proof. wrapper. Qed.
Lemma moves_SetHkdfMd own c n : moves own (SetHkdfMd lib_ c n) (fun _ => own).
Proof. wrapper. Qed.
Lemma moves_SetHkdfSalt own c n k : moves own (SetHkdfSalt lib_ c n k) (fun _ => own).
Proof. wrapper. Qed.
Lemma moves_SetHkdfKey own c n k : moves own (SetHkdfKey lib_ c n k) (fun _ => own).
Proof. wrapper. Qed.
Lemma moves_SetHkdfMode own c n : moves own (SetHkdfMode lib_ c n) (fun _ => own).
Proof. wrapper. Qed.
Lemma moves_AddHkdfInfo own c n k : moves own (AddHkdfInfo lib_ c n k) (fun _ => own).
Proof. wrapper. Qed.
Hint Resolve moves_SetEcParamGenCurveNid moves_SetHkdfMd moves_SetHkdfSalt moves_SetHkdfKey
  moves_SetHkdfMode moves_AddHkdfInfo : moves.

Ltac api_step :=
  match goal with
  | |- moves _ (api _ _ _) _ => apply moves_api; [vm_compute; reflexivity|]
  | |- moves _ (store _ _) _ => apply moves_store; assumption
  | |- moves _ (must _ _ _) _ => unfold must
  | |- moves _ (update_aad _ _ _ _ _) _ => unfold update_aad
  | _ => moves_step
  end.
Ltac api := repeat api_step.

Lemma moves_MapSymmetricAlgo own algo : moves own (MapSymmetricAlgo lib_ algo) (fun _ => own).
Proof. destruct algo; simpl; api. Qed.
Lemma moves_MapHashAlgo own algo : moves own (MapHashAlgo lib_ algo) (fun _ => own).
Proof. destruct algo; simpl; api. Qed.
Hint Resolve moves_MapSymmetricAlgo moves_MapHashAlgo : moves.

Lemma moves_encrypt_block own ctx cipher key iv ivLen pt ptLen aad aadLen ct ctLen tag tagLen :
  ctLen <> nullptr ->
  moves own (encrypt_block lib_ ctx cipher key iv ivLen pt ptLen aad aadLen ct ctLen tag tagLen) (fun _ => own).
Proof. intros Hp. unfold encrypt_block. api. Qed.
Hint Resolve moves_encrypt_block : moves.

Lemma moves_EncryptAEAD algo key keyLen iv ivLen pt ptLen aad aadLen ct ctLen tag tagLen :
  ctLen <> nullptr ->
  moves [] (EncryptAEAD lib_ algo key keyLen iv ivLen pt ptLen aad aadLen ct ctLen tag tagLen) (fun _ => []).
Proof. intros Hp. unfold EncryptAEAD. api. Qed.

Lemma moves_decrypt_block own ctx cipher key iv ivLen ct ctLen aad aadLen tag tagLen pt ptLen :
  ptLen <> nullptr ->
  moves own (decrypt_block lib_ ctx cipher key iv ivLen ct ctLen aad aadLen tag tagLen pt ptLen) (fun _ => own).
Proof. intros Hp. unfold decrypt_block. api. Qed.
Hint Resolve moves_decrypt_block : moves.

Lemma moves_DecryptAEAD algo key keyLen iv ivLen ct ctLen aad aadLen tag tagLen pt ptLen :
  ptLen <> nullptr ->
  moves [] (DecryptAEAD lib_ algo key keyLen iv ivLen ct ctLen aad aadLen tag tagLen pt ptLen) (fun _ => []).
Proof. intros Hp. unfold DecryptAEAD. api. Qed.

Lemma moves_derive_block own c peer secret len :
  len <> nullptr -> moves own (derive_block lib_ c peer secret len) (fun _ => own).
Proof. intros Hp. unfold derive_block. api. Qed.
Hint Resolve moves_derive_block : moves.

Lemma moves_DeriveECDHSharedSecret own pkey peer secret len :
  len <> nullptr -> moves own (DeriveECDHSharedSecret lib_ pkey peer secret len) (fun _ => own).
Proof. intros Hp. unfold DeriveECDHSharedSecret. api. Qed.
Hint Resolve moves_DeriveECDHSharedSecret : moves.

(** A key made by [EVP_PKEY_keygen] takes the place of a null one. *)
Lemma moves_keygen own pctx pkey :
  moves ((KPkey, pkey) :: own) (keygen lib_ pctx pkey) (fun r => (KPkey, r.2) :: own).
Proof.
  unfold keygen. rewrite api_always by (vm_compute; reflexivity). intros w.
  apply wp_bind, wp_lib. intros rc _. apply wp_bind, wp_gets, wp_ret. intros x Hx.
  cbn [w_log set_log balance count fst snd]. set (e := mkEvent _ _ _).
  change (gave e) with (@None (Resource * Z)). rewrite one_None.
  change (took (e :: w_log w)) with
    (if pkey =? nullptr then Some (KPkey, out_value (e :: w_log w)) else None).
  destruct (pkey =? nullptr) eqn:E; bools; [|rewrite one_None; lia].
  subst pkey. rewrite one_null by done. lia.
Qed.

Lemma moves_agreement_block own pctx pkey nid peer peerLen secret len :
  len <> nullptr ->
  moves ((KPkey, pkey) :: own) (agreement_block lib_ pctx pkey nid peer peerLen secret len)
        (fun r => (KPkey, r.1.2) :: (KPkey, r.2) :: own).
Proof.
  intros Hp. unfold agreement_block, must.
  eapply moves_bind; [api|]. intros rc. destruct (negb _); [apply moves_ret; same_count|].
  eapply moves_bind; [api|]. intros rc2. destruct (negb _); [apply moves_ret; same_count|].
  eapply moves_bind; [apply moves_keygen|]. intros [rc3 pkey']. cbn [fst snd].
  destruct (negb _); [apply moves_ret; same_count|].
  eapply moves_bind; [api|]. intros peerKey. cbn beta.
  destruct (peerKey =? nullptr); [apply moves_ret; same_count|].
  eapply moves_bind; [api|]. intros r. apply moves_ret. same_count.
Qed.

Lemma moves_free_unless_null own f k p :
  always_there f = true -> (forall h r, took (mkEvent f [AInt p] r :: h) = None) ->
  (forall r, gave (mkEvent f [AInt p] r) = Some (k, p)) ->
  moves ((k, p) :: own) (free_unless_null lib_ f p) (fun _ => own).
Proof.
  intros Hf Ht Hg. unfold free_unless_null. destruct (p =? nullptr) eqn:E; bools.
  - by apply moves_null, moves_ret.
  - eapply moves_bind; [apply moves_api; [done|by apply moves_give]|]. intros ?. by apply moves_ret.
Qed.

Lemma moves_ECDHKeyAgreement algo peer peerLen secret len :
  len <> nullptr -> moves [] (ECDHKeyAgreement lib_ algo peer peerLen secret len) (fun _ => []).
Proof.
  intros Hp. unfold ECDHKeyAgreement. destruct (_ =? NID_undef); [by apply moves_ret|].
  eapply moves_bind; [api|]. intros pkey. eapply moves_bind; [api|]. intros pctx. cbn beta.
  eapply (moves_bind _ _ _ (fun r => [(KPkey, r.1.2); (KPkeyCtx, pctx); (KPkey, r.2)])).
  - destruct (pctx =? nullptr); [apply moves_ret; same_count|].
    eapply moves_post; [|eapply moves_pre; [|by apply (moves_agreement_block [(KPkeyCtx, pctx)])]];
      [intros r|]; same_count.
  - intros [[r pkey'] peerKey]. cbn [fst snd].
    do 3 (eapply moves_bind; [by apply moves_free_unless_null; [vm_compute; reflexivity|..]|intros []]).
    by apply moves_ret.
Qed.

Lemma moves_hash_block own ctx md data dataLen digest :
  moves own (hash_block lib_ ctx md data dataLen digest) (fun _ => own).
Proof. unfold hash_block. api. Qed.
Hint Resolve moves_hash_block : moves.

Lemma moves_Hash algo data dataLen digest len :
  len <> nullptr -> moves [] (Hash lib_ algo data dataLen digest len) (fun _ => []).
Proof. intros Hp. unfold Hash. api. Qed.

Lemma moves_HMAC algo key keyLen data dataLen mac len :
  len <> nullptr -> moves [] (HMAC lib_ algo key keyLen data dataLen mac len) (fun _ => []).
Proof. intros Hp. unfold HMAC. api. Qed.

Lemma moves_extract_block own c md salt saltLen ikm ikmLen prk len :
  len <> nullptr ->
  moves own (extract_block lib_ c md salt saltLen ikm ikmLen prk len) (fun _ => own).
Proof. intros Hp. unfold extract_block. api. Qed.
Hint Resolve moves_extract_block : moves.

Lemma moves_HKDFExtract algo salt saltLen ikm ikmLen prk len :
  len <> nullptr -> moves [] (HKDFExtract lib_ algo salt saltLen ikm ikmLen prk len) (fun _ => []).
Proof. intros Hp. unfold HKDFExtract. api. Qed.

Lemma moves_expand_block own c md prk prkLen info infoLen okm okmLen :
  moves own (expand_block lib_ c md prk prkLen info infoLen okm okmLen) (fun _ => own).
Proof. unfold expand_block. api. Qed.
Hint Resolve moves_expand_block : moves.

Lemma moves_HKDFExpand algo prk prkLen info infoLen okm okmLen :
  moves [] (HKDFExpand lib_ algo prk prkLen info infoLen okm okmLen) (fun _ => []).
Proof. unfold HKDFExpand. api. Qed.

Lemma moves_RandomBytes buffer len : moves [] (RandomBytes lib_ buffer len) (fun _ => []).
Proof. unfold RandomBytes. api. Qed.

Lemma moves_GetCapability : moves [] (GetCapability lib_) (fun _ => []).
Proof. unfold GetCapability. api. Qed.
End engine.

(** ** All operations *)
Inductive EngineOp : Type :=
| OpEncrypt (algo : SymmetricAlgorithm) (key keyLen iv ivLen plaintext plaintextLen aad aadLen
    ciphertext ciphertextLen tag tagLen : Z)
| OpDecrypt (algo : SymmetricAlgorithm) (key keyLen iv ivLen ciphertext ciphertextLen aad aadLen
    tag tagLen plaintext plaintextLen : Z)
| OpAgree (algo : AsymmetricAlgorithm) (peer peerLen secret secretLen : Z)
| OpSign (algo : AsymmetricAlgorithm) (key : CryptoKeyHandle) (digest digestLen sig sigLen : Z)
| OpVerify (algo : AsymmetricAlgorithm) (key : CryptoKeyHandle) (digest digestLen sig sigLen : Z)
| OpHash (algo : HashAlgorithm) (data dataLen digest digestLen : Z)
| OpHMAC (algo : HashAlgorithm) (key keyLen data dataLen mac macLen : Z)
| OpExtract (algo : HashAlgorithm) (salt saltLen ikm ikmLen prk prkLen : Z)
| OpExpand (algo : HashAlgorithm) (prk prkLen info infoLen okm okmLen : Z)
| OpRandom (buffer len : Z)
| OpImport (keyId keyData keyDataLen : Z)
| OpDestroy (handle : CryptoKeyHandle).

(** The out-pointers an operation writes through without a check are not null. *)
Definition op_ok (op : EngineOp) : Prop :=
  match op with
  | OpEncrypt _ _ _ _ _ _ _ _ _ _ p _ _ | OpDecrypt _ _ _ _ _ _ _ _ _ _ _ _ p
  | OpAgree _ _ _ _ p | OpHash _ _ _ _ p | OpHMAC _ _ _ _ _ _ p | OpExtract _ _ _ _ _ _ p =>
      p <> nullptr
  | _ => True
  end.

(** The result, what was stored through the length pointer, and the key handle. *)
Definition EngineResult : Type := bool * option Z * option CryptoKeyHandle.
Definition with_len (m : M (bool * option Z)) : M EngineResult := r ← m; mret (r, None).
Definition just_ok (m : M bool) : M EngineResult := r ← m; mret (r, None, None).

Section all_ops.
Context `{Library} (lib_ : DlLib) (Hlib : loaded crypto_required lib_).

Definition run_engine (op : EngineOp) : M EngineResult :=
  match op with
  | OpEncrypt a k kl i il p pl d dl c cl t tl =>
      with_len (EncryptAEAD lib_ a k kl i il p pl d dl c cl t tl)
  | OpDecrypt a k kl i il c cl d dl t tl p pl =>
      with_len (DecryptAEAD lib_ a k kl i il c cl d dl t tl p pl)
  | OpAgree a p pl s sl => with_len (ECDHKeyAgreement lib_ a p pl s sl)
  | OpSign a k d dl s sl => just_ok (Sign a k d dl s sl)
  | OpVerify a k d dl s sl => just_ok (Verify a k d dl s sl)
  | OpHash a d dl o ol => with_len (Hash lib_ a d dl o ol)
  | OpHMAC a k kl d dl m ml => with_len (HMAC lib_ a k kl d dl m ml)
  | OpExtract a s sl i il p pl => with_len (HKDFExtract lib_ a s sl i il p pl)
  | OpExpand a p pl i il o ol => just_ok (HKDFExpand lib_ a p pl i il o ol)
  | OpRandom b l => just_ok (RandomBytes lib_ b l)
  | OpImport k d dl => r ← ImportKey k d dl; mret (r.1, None, Some r.2)
  | OpDestroy h => just_ok (DestroyKey h)
  end.

Lemma moves_run_engine op : op_ok op -> moves [] (run_engine op) (fun _ => []).
Proof.
  intros Hop. destruct op; simpl in *; unfold with_len, just_ok;
    (eapply moves_bind; [|intros ?; by apply moves_ret]); cbn beta.
  all: first [by apply moves_EncryptAEAD | by apply moves_DecryptAEAD | by apply moves_ECDHKeyAgreement
    | by apply moves_Hash | by apply moves_HMAC | by apply moves_HKDFExtract | by apply moves_HKDFExpand
    | by apply moves_RandomBytes | by apply moves_ret].
Qed.

(** (C23) On a loaded libcrypto, whatever it answers, every operation of the software engine
    returns: no function object it calls is missing, in either version of the library. And
    it leaves nothing behind: each cipher, digest and key context and each key it made is
    given back exactly once, on every path. *)
Theorem engine_ops_balanced op w :
  op_ok op ->
  wp (run_engine op) (fun _ w' => forall x, x.2 <> nullptr ->
    balance x (w_log w') = balance x (w_log w)) w.
Proof.
  intros Hop. eapply moves_wp; [by apply moves_run_engine|]. intros r w' Hb x Hx.
  specialize (Hb x Hx). simpl in Hb. lia.
Qed.
End all_ops.

(** ** What decryption accepts *)
Section authentic.
Context `{Library} (lib_ : DlLib) (Hlib : loaded crypto_required lib_).

Definition ok_call (f : LibFn) (args : list Arg) : Event := mkEvent f args SSL_SUCCESS.

(** Associated data given with [aadLen] bytes, of which OpenSSL is told [fed]. *)
Definition aad_calls (f : LibFn) (ctx aad aadLen fed : Z) : History :=
  if negb (aad =? nullptr) && (0 <? aadLen)
  then [ok_call f [AInt ctx; AInt nullptr; AInt aad; AInt fed]] else [].

(** The calls of an accepted decryption on a context, the newest first; [conv] is what
    becomes of a length on its way to OpenSSL. *)
Definition decrypt_calls (conv : Z -> Z) (ctx cipher key iv ivLen ciphertext ciphertextLen
    aad aadLen tag tagLen plaintext outLen : Z) : History :=
  [ok_call EVP_DecryptFinal_ex [AInt ctx; AInt (plaintext + outLen)];
   ok_call EVP_CIPHER_CTX_ctrl [AInt ctx; AInt EVP_CTRL_AEAD_SET_TAG; AInt (conv tagLen); AInt tag];
   ok_call EVP_DecryptUpdate [AInt ctx; AInt plaintext; AInt ciphertext; AInt (conv ciphertextLen)]] ++
  aad_calls EVP_DecryptUpdate ctx aad aadLen (conv aadLen) ++
  [ok_call EVP_DecryptInit_ex [AInt ctx; AInt nullptr; AInt nullptr; AInt key; AInt iv];
   ok_call EVP_CIPHER_CTX_ctrl [AInt ctx; AInt EVP_CTRL_AEAD_SET_IVLEN; AInt (conv ivLen); AInt nullptr];
   ok_call EVP_DecryptInit_ex [AInt ctx; AInt cipher; AInt nullptr; AInt nullptr; AInt nullptr]].

(** A call that must succeed: only the branch where it did is left. *)
Lemma wp_must {X} f args (stop : X) (k : M X) (Q : X -> World -> Prop) w :
  always_there f = true -> (forall w', Q stop w') ->
  (forall w', w_log w' = ok_call f args :: w_log w -> wp k Q w') ->
  wp (must (api lib_ f args) stop k) Q w.
Proof.
  intros Hf Hstop Hk. unfold must. rewrite api_always by done. apply wp_bind, wp_lib. intros rc _.
  destruct (rc =? SSL_SUCCESS) eqn:E; bools; cbn [negb]; [|by apply wp_ret].
  apply Hk. by rewrite E.
Qed.

Lemma wp_must_aad {X} f ctx aad aadLen (stop : X) (k : M X) (Q : X -> World -> Prop) w :
  always_there f = true -> (forall w', Q stop w') ->
  (forall w', w_log w' = aad_calls f ctx aad aadLen (to_int32 aadLen) ++ w_log w -> wp k Q w') ->
  wp (must (update_aad lib_ f ctx aad aadLen) stop k) Q w.
Proof.
  intros Hf Hstop Hk. unfold update_aad, aad_calls in *. destruct (_ && _); [by apply wp_must|].
  unfold must. apply wp_bind, wp_ret. by apply Hk.
Qed.

Lemma wp_store {X} p v (k : Z -> M X) Q w : p <> nullptr -> wp (k v) Q w -> wp (store p v ≫= k) Q w.
Proof. intros Hp Hk. unfold store. rewrite (proj2 (Z.eqb_neq _ _) Hp). by apply wp_bind, wp_ret. Qed.

Lemma decrypt_block_accepts ctx cipher key iv ivLen ct ctLen aad aadLen tag tagLen pt ptLen w :
  ptLen <> nullptr ->
  wp (decrypt_block lib_ ctx cipher key iv ivLen ct ctLen aad aadLen tag tagLen pt ptLen)
     (fun r w' => r.1 = true -> ctLen <= INT32_MAX /\ exists outLen,
        w_log w' = decrypt_calls to_int32 ctx cipher key iv ivLen ct ctLen aad aadLen tag tagLen pt outLen
                   ++ w_log w) w.
Proof.
  intros Hp. unfold decrypt_block.
  do 3 (apply wp_must; [vm_compute; reflexivity|done|]; intros ? ?).
  apply wp_must_aad; [vm_compute; reflexivity|done|]; intros ? ?.
  destruct (INT32_MAX <? ctLen) eqn:E; bools; [by apply wp_ret|].
  apply wp_must; [vm_compute; reflexivity|done|]; intros ? ?.
  apply wp_bind, wp_gets. set (outLen := out_value _). apply wp_store; [done|].
  do 2 (apply wp_must; [vm_compute; reflexivity|done|]; intros ? ?).
  apply wp_bind, wp_gets, wp_store; [done|]. apply wp_ret. intros _. split; [done|]. exists outLen.
  unfold decrypt_calls. rewrite <- !app_assoc. simpl. congruence.
Qed.

(** The algorithms the engine supports, by the call that names them. *)
Definition cipher_call (algo : SymmetricAlgorithm) : option LibFn :=
  match algo with
  | AES_128_GCM => Some EVP_aes_128_gcm | AES_256_GCM => Some EVP_aes_256_gcm
  | AES_128_CCM => Some EVP_aes_128_ccm | CHACHA20_POLY1305 => Some EVP_chacha20_poly1305
  | _ => None
  end.

Lemma wp_MapSymmetricAlgo algo (Q : Z -> World -> Prop) w :
  (cipher_call algo = None -> Q nullptr w) ->
  (forall f p w', cipher_call algo = Some f -> w_log w' = mkEvent f [] p :: w_log w -> Q p w') ->
  wp (MapSymmetricAlgo lib_ algo) Q w.
Proof.
  intros Hn Hs. destruct algo; simpl in *; try (by apply wp_ret, Hn);
    (rewrite api_always; [|done|vm_compute; reflexivity]); apply wp_lib; intros p _; by eapply Hs.
Qed.

(** What [DecryptAEAD] has done when it says true, for lengths of any size. *)
Lemma DecryptAEAD_calls algo key keyLen iv ivLen ct ctLen aad aadLen tag tagLen pt ptLen w :
  ptLen <> nullptr ->
  wp (DecryptAEAD lib_ algo key keyLen iv ivLen ct ctLen aad aadLen tag tagLen pt ptLen)
     (fun r w' => r.1 = true -> exists f cipher ctx outLen rc,
        cipher_call algo = Some f /\ cipher <> nullptr /\ ctx <> nullptr /\
        ctLen <= INT32_MAX /\
        w_log w' = mkEvent EVP_CIPHER_CTX_free [AInt ctx] rc ::
          decrypt_calls to_int32 ctx cipher key iv ivLen ct ctLen aad aadLen tag tagLen pt outLen ++
          mkEvent EVP_CIPHER_CTX_new [] ctx :: mkEvent f [] cipher :: w_log w) w.
Proof.
  intros Hp. unfold DecryptAEAD. apply wp_bind. apply wp_MapSymmetricAlgo.
  { intros _. by apply wp_ret. }
  intros f cipher w1 Hf L1. destruct (cipher =? nullptr) eqn:E1; bools; [by apply wp_ret|].
  rewrite !api_always by (done || vm_compute; reflexivity).
  apply wp_bind, wp_lib. intros ctx _. destruct (ctx =? nullptr) eqn:E2; bools; [by apply wp_ret|].
  apply wp_bind. eapply wp_mono; [by apply decrypt_block_accepts|]. intros [ok len] w2 Hok.
  rewrite api_always by (done || vm_compute; reflexivity).
  apply wp_bind, wp_lib. intros rc _. apply wp_ret. intros Hr. destruct (Hok Hr) as [Hlen [outLen L2]].
  exists f, cipher, ctx, outLen, rc. split_and!; [done..|].
  cbn [w_log set_log] in *. by rewrite L2, L1.
Qed.

Definition fits_int (n : Z) : Prop := 0 <= n <= INT32_MAX.

Lemma to_int32_fits n : fits_int n -> to_int32 n = n.
Proof.
  intros [H0 Hn]. unfold to_int32. rewrite wrap32_id by (unfold is_u32, UINT32_MAX, INT32_MAX in *; lia).
  by rewrite (proj2 (Z.leb_le _ _) Hn).
Qed.

(** (C21) For a nonce, associated data and a tag of at most [INT_MAX] bytes, [DecryptAEAD] says
    true only for data that was authenticated. It then supports the algorithm, the ciphertext
    is no longer than [INT_MAX] either, and the code has, in this order and with no call in
    between: set the caller's key and nonce in a fresh context, fed it the associated data (if
    any) and the whole ciphertext in the lengths the caller gave, set the caller's tag, and
    been told by [EVP_DecryptFinal_ex] that the tag is right; after that it only freed the
    context. (A longer length is truncated on its way to OpenSSL.) *)
Theorem DecryptAEAD_authentic algo key keyLen iv ivLen ct ctLen aad aadLen tag tagLen pt ptLen w :
  ptLen <> nullptr -> 0 <= ctLen -> fits_int ivLen -> fits_int aadLen -> fits_int tagLen ->
  wp (DecryptAEAD lib_ algo key keyLen iv ivLen ct ctLen aad aadLen tag tagLen pt ptLen)
     (fun r w' => r.1 = true -> exists f cipher ctx outLen rc,
        cipher_call algo = Some f /\ cipher <> nullptr /\ ctx <> nullptr /\ fits_int ctLen /\
        w_log w' = mkEvent EVP_CIPHER_CTX_free [AInt ctx] rc ::
          decrypt_calls (fun n => n) ctx cipher key iv ivLen ct ctLen aad aadLen tag tagLen pt outLen ++
          mkEvent EVP_CIPHER_CTX_new [] ctx :: mkEvent f [] cipher :: w_log w) w.
Proof.
  intros Hp H0 Hiv Haad Htag. eapply wp_mono; [by apply DecryptAEAD_calls|].
  intros r w' Hr Ht. destruct (Hr Ht) as (f & cipher & ctx & outLen & rc & ? & ? & ? & Hct & ->).
  assert (fits_int ctLen) by by split.
  exists f, cipher, ctx, outLen, rc. split_and!; [done..|].
  unfold decrypt_calls. by rewrite !to_int32_fits by done.
Qed.
End authentic.

(** ** Witnesses: a library of version 3 where every call succeeds *)
Lemma engine_ops_balanced_witness :
  wp (run_engine demo_lib (OpAgree ECDSA_P384 16 97 32 8)) (fun r w' =>
    forall x, x.2 <> nullptr -> balance x (w_log w') = balance x (w_log world0)) world0 /\
  balance (KPkey, 1) [mkEvent EVP_PKEY_new [] 1] = 1.
Proof.
  split; [|vm_compute; reflexivity].
  apply (engine_ops_balanced demo_lib demo_loaded (OpAgree ECDSA_P384 16 97 32 8) world0). simpl. discriminate.
Defined.

Lemma DecryptAEAD_authentic_witness :
  exists r w',
    DecryptAEAD demo_lib AES_256_GCM 16 32 48 12 64 100 0 0 80 16 96 112 world0 = Some (r, w') /\
    r.1 = true /\
    exists f cipher ctx outLen rc, cipher_call AES_256_GCM = Some f /\
      w_log w' = mkEvent EVP_CIPHER_CTX_free [AInt ctx] rc ::
        decrypt_calls (fun n => n) ctx cipher 16 48 12 64 100 0 0 80 16 96 outLen ++
        mkEvent EVP_CIPHER_CTX_new [] ctx :: mkEvent f [] cipher :: w_log world0.
Proof.
  pose proof (DecryptAEAD_authentic demo_lib demo_loaded AES_256_GCM 16 32 48 12 64 100 0 0 80 16 96 112
    world0 ltac:(discriminate) ltac:(lia) ltac:(by split) ltac:(by split) ltac:(by split)) as Hw. unfold wp in Hw.
  assert (Hr : match DecryptAEAD demo_lib AES_256_GCM 16 32 48 12 64 100 0 0 80 16 96 112 world0 with
               | Some (r, _) => r.1 | None => false end = true) by (vm_compute; reflexivity).
  destruct (DecryptAEAD _ _ _ _ _ _ _ _ _ _ _ _ _ _) as [[r w']|]; [|contradiction].
  exists r, w'. split; [reflexivity|]. split; [exact Hr|].
  destruct (Hw Hr) as (f & cipher & ctx & outLen & rc & Hf & _ & _ & _ & Hlog).
  exact (ex_intro _ f (ex_intro _ cipher (ex_intro _ ctx (ex_intro _ outLen (ex_intro _ rc (conj Hf Hlog)))))).
Defined.

(** Associated data of 2^32 bytes: accepted, and OpenSSL was given none of it. *)
Example aad_truncated :
  exists w', DecryptAEAD demo_lib AES_256_GCM 16 32 48 12 64 100 72 4294967296 80 16 96 112 world0
    = Some ((true, Some 0), w') /\
  In (ok_call EVP_DecryptUpdate [AInt 1; AInt nullptr; AInt 72; AInt 0]) (w_log w').
Proof. eexists. split; [by vm_compute|]. vm_compute. tauto. Qed.
