(* ===== verification/Kae.v ===== *)
(** * The KAE provider engine

    [src/crypto/kae_provider_engine.h/.cpp]: an engine that loads the default provider and
    the hardware provider into a library context of its own, for the [SSL_CTX]s that are
    created in it, and delegates direct operations to a software engine it creates on
    demand. *)
From Stdlib Require Import ZArith Lia Ascii String.
From stdpp Require Import base list fin_maps gmap strings.
From S2P Require Import Prelude Types Machine OpenSSL Ledger Loader Crypto.
Open Scope Z_scope.

Record KAEProviderConfig : Type := mkKaeConfig {
  kc_kaeProviderName : string;
  kc_kaeConfigFile : string;
  kc_enableAsyncPolling : bool;
  kc_asyncPollTimeoutMs : Z
}.
Definition default_kae_config : KAEProviderConfig := mkKaeConfig "kae" EmptyString false 100.

(** The fallback engine is its address and, when that is not null, the object there. *)
Record KAEProviderEngine : Type := mkKae {
  m_kaeConfig : KAEProviderConfig;
  m_initialized : bool;
  m_kaeLoaded : bool;
  m_libCtx : Z;
  m_defaultProv : Z;
  m_kaeProv : Z;
  m_fallbackEngine : Z;
  m_fallbackObject : DefaultSoftwareCryptoEngine
}.
Definition new_kae (kaeConfig : KAEProviderConfig) : KAEProviderEngine :=
  mkKae kaeConfig false false nullptr nullptr nullptr nullptr new_soft_engine.

Definition set_kaeConfig (v : KAEProviderConfig) (k : KAEProviderEngine) : KAEProviderEngine :=
  mkKae v (m_initialized k) (m_kaeLoaded k) (m_libCtx k) (m_defaultProv k) (m_kaeProv k)
    (m_fallbackEngine k) (m_fallbackObject k).
Definition set_initialized (v : bool) (k : KAEProviderEngine) : KAEProviderEngine :=
  mkKae (m_kaeConfig k) v (m_kaeLoaded k) (m_libCtx k) (m_defaultProv k) (m_kaeProv k)
    (m_fallbackEngine k) (m_fallbackObject k).
Definition set_kaeLoaded (v : bool) (k : KAEProviderEngine) : KAEProviderEngine :=
  mkKae (m_kaeConfig k) (m_initialized k) v (m_libCtx k) (m_defaultProv k) (m_kaeProv k)
    (m_fallbackEngine k) (m_fallbackObject k).
Definition set_libCtx (v : Z) (k : KAEProviderEngine) : KAEProviderEngine :=
  mkKae (m_kaeConfig k) (m_initialized k) (m_kaeLoaded k) v (m_defaultProv k) (m_kaeProv k)
    (m_fallbackEngine k) (m_fallbackObject k).
Definition set_defaultProv (v : Z) (k : KAEProviderEngine) : KAEProviderEngine :=
  mkKae (m_kaeConfig k) (m_initialized k) (m_kaeLoaded k) (m_libCtx k) v (m_kaeProv k)
    (m_fallbackEngine k) (m_fallbackObject k).
Definition set_kaeProv (v : Z) (k : KAEProviderEngine) : KAEProviderEngine :=
  mkKae (m_kaeConfig k) (m_initialized k) (m_kaeLoaded k) (m_libCtx k) (m_defaultProv k) v
    (m_fallbackEngine k) (m_fallbackObject k).
Definition set_fallbackEngine (v : Z) (k : KAEProviderEngine) : KAEProviderEngine :=
  mkKae (m_kaeConfig k) (m_initialized k) (m_kaeLoaded k) (m_libCtx k) (m_defaultProv k)
    (m_kaeProv k) v (m_fallbackObject k).
Definition set_fallbackObject (v : DefaultSoftwareCryptoEngine) (k : KAEProviderEngine)
    : KAEProviderEngine :=
  mkKae (m_kaeConfig k) (m_initialized k) (m_kaeLoaded k) (m_libCtx k) (m_defaultProv k)
    (m_kaeProv k) (m_fallbackEngine k) v.

Abbreviation Kae := (Method KAEProviderEngine).

Section kae.
Context `{Library} (lib_ : DlLib).

Definition LoadKAEProvider : Kae bool :=
  config ← this_ m_kaeConfig; libCtx ← this_ m_libCtx;
  p ← call (api lib_ OSSL_PROVIDER_load [AInt libCtx; AStr (cstr (kc_kaeProviderName config))]);
  _ ← update (set_kaeProv p);
  if p =? nullptr then
    errCode ← call (api lib_ ERR_get_error []);
    _ ← call (api lib_ ERR_error_string_n [AInt errCode; AInt 256]);
    _ ← update (set_kaeLoaded false);
    mret false
  else
    _ ← update (set_kaeLoaded true);
    mret true.

(** The settings of the configuration. *)
Definition apply_config (config : CryptoEngineConfig) (k : KAEProviderConfig) : KAEProviderConfig :=
  let k := if (slen (ec_configFilePath config) =? 0) then k
           else mkKaeConfig (kc_kaeProviderName k) (ec_configFilePath config)
                  (kc_enableAsyncPolling k) (kc_asyncPollTimeoutMs k) in
  if ec_enableAsyncMode config
  then mkKaeConfig (kc_kaeProviderName k) (kc_kaeConfigFile k) true (ec_asyncQueueDepth config)
  else k.

Definition Initialize (config : CryptoEngineConfig) : Kae bool :=
  initialized ← this_ m_initialized;
  return_if (initialized : bool) with (mret true) ;;
  kaeConfig ← this_ m_kaeConfig;
  _ ← update (set_kaeConfig (apply_config config kaeConfig));
  return_if negb (bool_decide (is_Some (funs_ lib_ !! fun_object OSSL_LIB_CTX_new)))
    with (mret false) ;;
  libCtx ← call (api lib_ OSSL_LIB_CTX_new []);
  _ ← update (set_libCtx libCtx);
  return_if libCtx =? nullptr with (mret false) ;;
  prov ← call (api lib_ OSSL_PROVIDER_load [AInt libCtx; AStr "default"]);
  _ ← update (set_defaultProv prov);
  return_if prov =? nullptr
    with (_ ← call (api lib_ OSSL_LIB_CTX_free [AInt libCtx]);
          _ ← update (set_libCtx nullptr);
          mret false) ;;
  _ ← LoadKAEProvider;
  _ ← update (set_initialized true);
  mret true.

Definition ReleaseFallbackEngine : Kae unit :=
  p ← this_ m_fallbackEngine;
  if negb (p =? nullptr) then
    _ ← update (set_fallbackObject (mkSoftEngine false));
    _ ← call (lib op_delete [AStr engine_name; AInt p]);
    update (set_fallbackEngine nullptr)
  else mret tt.

Definition Finalize : Kae unit :=
  initialized ← this_ m_initialized;
  return_if negb initialized with (mret tt) ;;
  kaeProv ← this_ m_kaeProv;
  _ ← (if negb (kaeProv =? nullptr)
       then _ ← call (api lib_ OSSL_PROVIDER_unload [AInt kaeProv]); update (set_kaeProv nullptr)
       else mret tt);
  defaultProv ← this_ m_defaultProv;
  _ ← (if negb (defaultProv =? nullptr)
       then _ ← call (api lib_ OSSL_PROVIDER_unload [AInt defaultProv]); update (set_defaultProv nullptr)
       else mret tt);
  libCtx ← this_ m_libCtx;
  _ ← (if negb (libCtx =? nullptr)
       then _ ← call (api lib_ OSSL_LIB_CTX_free [AInt libCtx]); update (set_libCtx nullptr)
       else mret tt);
  _ ← ReleaseFallbackEngine;
  _ ← update (set_initialized false);
  update (set_kaeLoaded false).

(** [~KAEProviderEngine]. *)
Definition delete_kae (k : KAEProviderEngine) : M unit := _ ← Finalize k; mret tt.

(** *** Queries *)
Definition IsInitialized (k : KAEProviderEngine) : bool := m_initialized k.
Definition IsKAEProviderLoaded (k : KAEProviderEngine) : bool := m_kaeLoaded k.
Definition GetKAEVersion (k : KAEProviderEngine) : string :=
  if m_kaeLoaded k then "KAE Provider (Kunpeng Hardware Accelerator)" else "KAE not loaded".
Definition GetProviderContext (k : KAEProviderEngine) : Z := m_libCtx k.
Definition IsHardwareAccelerated (k : KAEProviderEngine) : bool := m_kaeLoaded k.
Definition GetAcceleratedAlgorithms (k : KAEProviderEngine) : string :=
  if m_kaeLoaded k then "AES-GCM, AES-CCM, SM3, SM4-GCM, DH, RSA, ECDH, SM2 (Kunpeng KAE)"
  else "none (KAE not loaded, software fallback)".

Definition GetCapability (k : KAEProviderEngine) : CryptoEngineCapability :=
  mkCapability "KAE Provider Engine (Kunpeng)"
    (if m_kaeLoaded k then "KAE Active" else "KAE Inactive (Software Fallback)")
    "Huawei Kunpeng"
    [AES_128_GCM; AES_256_GCM; AES_128_CCM; SM4_GCM] [RSA; ECDSA_P256; ECDSA_P384; SM2]
    [SHA256; SHA384; SHA512; SM3] [ECDHE; DHE; SM2_KEY_EXCHANGE]
    (m_kaeLoaded k) (kc_enableAsyncPolling (m_kaeConfig k) && m_kaeLoaded k) (m_kaeLoaded k)
    (if m_kaeLoaded k then 1024 else 0).

(** *** Direct operations, on the software engine *)
Definition GetFallbackEngine : Kae Z :=
  p ← this_ m_fallbackEngine;
  return_if negb (p =? nullptr) with (mret p) ;;
  p ← call (lib op_new [AStr engine_name]);
  _ ← update (set_fallbackEngine p);
  return_if p =? nullptr with (mret nullptr) ;;
  _ ← update (set_fallbackObject (mkSoftEngine true));
  mret p.

(** [GetFallbackEngine()->op(...)] *)
Definition on_fallback {X} (op : M X) : Kae X :=
  p ← GetFallbackEngine;
  if p =? nullptr then call fault else call op.

Definition EncryptAEAD (algo : SymmetricAlgorithm) (key keyLen iv ivLen plaintext plaintextLen
    aad aadLen ciphertext ciphertextLen tag tagLen : Z) : Kae (bool * option Z) :=
  on_fallback (Crypto.EncryptAEAD lib_ algo key keyLen iv ivLen plaintext plaintextLen
    aad aadLen ciphertext ciphertextLen tag tagLen).
Definition DecryptAEAD (algo : SymmetricAlgorithm) (key keyLen iv ivLen ciphertext ciphertextLen
    aad aadLen tag tagLen plaintext plaintextLen : Z) : Kae (bool * option Z) :=
  on_fallback (Crypto.DecryptAEAD lib_ algo key keyLen iv ivLen ciphertext ciphertextLen
    aad aadLen tag tagLen plaintext plaintextLen).
Definition ECDHKeyAgreement (algo : AsymmetricAlgorithm) (peerPublicKey peerPublicKeyLen
    sharedSecret sharedSecretLen : Z) : Kae (bool * option Z) :=
  on_fallback (Crypto.ECDHKeyAgreement lib_ algo peerPublicKey peerPublicKeyLen
    sharedSecret sharedSecretLen).
Definition Sign (algo : AsymmetricAlgorithm) (key : CryptoKeyHandle)
    (digest digestLen signature sigLen : Z) : Kae bool :=
  on_fallback (Crypto.Sign algo key digest digestLen signature sigLen).
Definition Verify (algo : AsymmetricAlgorithm) (key : CryptoKeyHandle)
    (digest digestLen signature sigLen : Z) : Kae bool :=
  on_fallback (Crypto.Verify algo key digest digestLen signature sigLen).
Definition Hash (algo : HashAlgorithm) (data dataLen digest digestLen : Z) : Kae (bool * option Z) :=
  on_fallback (Crypto.Hash lib_ algo data dataLen digest digestLen).
Definition HMAC (algo : HashAlgorithm) (key keyLen data dataLen mac macLen : Z)
    : Kae (bool * option Z) :=
  on_fallback (Crypto.HMAC lib_ algo key keyLen data dataLen mac macLen).
Definition HKDFExtract (algo : HashAlgorithm) (salt saltLen ikm ikmLen prk prkLen : Z)
    : Kae (bool * option Z) :=
  on_fallback (Crypto.HKDFExtract lib_ algo salt saltLen ikm ikmLen prk prkLen).
Definition HKDFExpand (algo : HashAlgorithm) (prk prkLen info infoLen okm okmLen : Z) : Kae bool :=
  on_fallback (Crypto.HKDFExpand lib_ algo prk prkLen info infoLen okm okmLen).
Definition RandomBytes (buffer len : Z) : Kae bool := on_fallback (Crypto.RandomBytes lib_ buffer len).
Definition ImportKey (keyId keyData keyDataLen : Z) : Kae (bool * CryptoKeyHandle) :=
  on_fallback (Crypto.ImportKey keyId keyData keyDataLen).
Definition DestroyKey (handle : CryptoKeyHandle) : Kae bool := on_fallback (Crypto.DestroyKey handle).

(** [KAEProviderEngineFactory::Create]. *)
Definition CreateKae (config : KAEProviderConfig) : M (option KAEProviderEngine) :=
  p ← lib op_new [AStr "KAEProviderEngine"];
  mret (if p =? nullptr then None else Some (new_kae config)).
End kae.
