(* ===== verification/KaeSpec.v ===== *)
(** * The life of a KAE engine

    Invariant of the engine's handles over any history of its operations, what deleting it
    gives back, and the agreement of its direct operations with the software engine. *)
From Stdlib Require Import ZArith Lia Ascii String.
From stdpp Require Import base list fin_maps gmap fin_map_dom strings.
From S2P Require Import Prelude Types FileCheck Machine OpenSSL Ledger Loader LoaderSpec.
From S2P Require Import Crypto CryptoSpec Kae Lifecycle.
Open Scope Z_scope.

Section kae.
Context `{Library} (lib_ : DlLib) (Hlib : loaded crypto_required lib_).
Implicit Types (k : KAEProviderEngine) (w : World) (own : list (Resource * Z)).

(** ** Operations of the engine *)
Inductive KaeOp : Type :=
| KInitialize (config : CryptoEngineConfig)
| KFinalize
| KUse (op : EngineOp).

Definition kae_ok (op : KaeOp) : Prop := match op with KUse op => op_ok op | _ => True end.

Definition len_result (m : Kae (bool * option Z)) : Kae EngineResult := r ← m; mret (r, None).
Definition ok_result (m : Kae bool) : Kae EngineResult := r ← m; mret (r, None, None).

Definition use_kae (op : EngineOp) : Kae EngineResult :=
  match op with
  | OpEncrypt a k kl i il p pl d dl c cl t tl =>
      len_result (Kae.EncryptAEAD lib_ a k kl i il p pl d dl c cl t tl)
  | OpDecrypt a k kl i il c cl d dl t tl p pl =>
      len_result (Kae.DecryptAEAD lib_ a k kl i il c cl d dl t tl p pl)
  | OpAgree a p pl s sl => len_result (Kae.ECDHKeyAgreement lib_ a p pl s sl)
  | OpSign a k d dl s sl => ok_result (Kae.Sign a k d dl s sl)
  | OpVerify a k d dl s sl => ok_result (Kae.Verify a k d dl s sl)
  | OpHash a d dl o ol => len_result (Kae.Hash lib_ a d dl o ol)
  | OpHMAC a k kl d dl m ml => len_result (Kae.HMAC lib_ a k kl d dl m ml)
  | OpExtract a s sl i il p pl => len_result (Kae.HKDFExtract lib_ a s sl i il p pl)
  | OpExpand a p pl i il o ol => ok_result (Kae.HKDFExpand lib_ a p pl i il o ol)
  | OpRandom b l => ok_result (Kae.RandomBytes lib_ b l)
  | OpImport k d dl => r ← Kae.ImportKey k d dl; mret (r.1, None, Some r.2)
  | OpDestroy h => ok_result (Kae.DestroyKey h)
  end.

Definition run_kae (op : KaeOp) : Kae unit :=
  match op with
  | KInitialize config => _ ← Kae.Initialize lib_ config; mret tt
  | KFinalize => Kae.Finalize lib_
  | KUse op => _ ← use_kae op; mret tt
  end.

(** A use is one call of the software engine, on the fallback. *)
Lemma on_fallback_map {X Y} (m : M X) (f : X -> Y) k w :
  ((r ← on_fallback m; mret (f r)) : Kae Y) k w = on_fallback (r ← m; mret (f r)) k w.
Proof.
  unfold on_fallback, mbind, Method_bind, call, mret, Method_ret, mbind, M_bind, mret, M_ret.
  destruct (GetFallbackEngine k w) as [[[p k'] w']|]; [|done]. cbn [fst snd].
  destruct (p =? nullptr); [done|]. by destruct (m w') as [[r w2]|].
Qed.

Lemma use_kae_run op k w : use_kae op k w = on_fallback (run_engine lib_ op) k w.
Proof. destruct op; apply on_fallback_map. Qed.

(** ** The invariant *)

(** The handles the engine holds. *)
Definition handles k : list (Resource * Z) :=
  [(KOsslCtx, m_libCtx k); (KProvider, m_defaultProv k); (KProvider, m_kaeProv k);
   (KEngine, m_fallbackEngine k)].

Record kae_inv (h0 : History) k w : Prop := {
  ki_owns : owns (handles k) h0 (w_log w);
  ki_on : m_initialized k = true -> version_3 lib_ = true /\ m_libCtx k <> nullptr /\ m_defaultProv k <> nullptr /\
          m_kaeLoaded k = negb (m_kaeProv k =? nullptr);
  ki_off : m_initialized k = false -> m_libCtx k = nullptr /\ m_defaultProv k = nullptr /\
           m_kaeProv k = nullptr /\ m_kaeLoaded k = false
}.

Lemma owns_step own own' h0 w w' :
  owns own h0 (w_log w) ->
  (forall x, x.2 <> nullptr -> balance x (w_log w') + count x own = balance x (w_log w) + count x own') ->
  owns own' h0 (w_log w').
Proof. intros Ho Hs x Hx. specialize (Ho x Hx). specialize (Hs x Hx). lia. Qed.

(** A call on the way: what is owned afterwards. *)
Lemma wp_owns {X Y} h0 own (m : M X) post k (f : X -> Kae Y) Q w :
  moves own m post -> owns own h0 (w_log w) ->
  (forall r w', owns (post r) h0 (w_log w') -> wp (f r k) Q w') ->
  wp ((call m ≫= f) k) Q w.
Proof.
  intros Hm Ho Hf. apply wp_meth_bind, wp_call. eapply moves_wp; [exact Hm|]. intros r w' Hb.
  apply Hf. by eapply owns_step.
Qed.

Lemma moves_take_api own f args r :
  always_there f = true \/ (version_3 lib_ = true /\ there_since_3 f = true) ->
  (forall h p, took (mkEvent f args p :: h) = Some (r, p)) -> (forall p, gave (mkEvent f args p) = None) ->
  moves own (api lib_ f args) (fun p => (r, p) :: own).
Proof.
  intros [Hf|[Hv Hf]] Ht Hg; [rewrite api_always by done|rewrite api_since_3 by done]; by apply moves_take.
Qed.

Lemma moves_give_api own f args y :
  version_3 lib_ = true -> there_since_3 f = true ->
  (forall h p, took (mkEvent f args p :: h) = None) -> (forall p, gave (mkEvent f args p) = Some y) ->
  moves (y :: own) (api lib_ f args) (fun _ => own).
Proof. intros Hv Hf Ht Hg. rewrite api_since_3 by done. by apply moves_give. Qed.

(** The provider functions come together: when one is there the version is 3. *)
Lemma provider_version : is_Some (funs_ lib_ !! fun_object OSSL_LIB_CTX_new) -> version_3 lib_ = true.
Proof.
  intros Hs%elem_of_dom. destruct Hlib as (_ & _ & Hd). rewrite Hd, elem_of_list_to_set in Hs.
  unfold crypto_required, since_3 in Hs. unfold version_3. case_match; [done|].
  exfalso. refine (bool_decide_eq_false_1 _ _ Hs). vm_compute. reflexivity.
Qed.

Lemma owns_count own own' h0 h :
  (forall x, x.2 <> nullptr -> count x own = count x own') -> owns own h0 h -> owns own' h0 h.
Proof. intros Hc Ho x Hx. rewrite <- Hc by done. by apply Ho. Qed.

Lemma inv_new config w : kae_inv (w_log w) (new_kae config) w.
Proof. split; [|done|done]. intros x Hx. simpl. rewrite !one_null by done. lia. Qed.

(** The invariant does not look at the configuration or the fallback object. *)
Lemma inv_same h0 k k' w :
  handles k' = handles k -> m_initialized k' = m_initialized k -> m_kaeLoaded k' = m_kaeLoaded k ->
  kae_inv h0 k w -> kae_inv h0 k' w.
Proof.
  unfold handles. intros [= E1 E2 E3 E4] E5 E6 [Ho Hn Hf].
  split; unfold handles in *; by rewrite ?E1, ?E2, ?E3, ?E4, ?E5, ?E6.
Qed.

Lemma inv_LoadKAEProvider h0 k w :
  version_3 lib_ = true -> m_kaeProv k = nullptr -> owns (handles k) h0 (w_log w) ->
  wp (LoadKAEProvider lib_ k) (fun r w' => owns (handles r.2) h0 (w_log w') /\
     m_libCtx r.2 = m_libCtx k /\ m_defaultProv r.2 = m_defaultProv k /\
     m_kaeLoaded r.2 = negb (m_kaeProv r.2 =? nullptr)) w.
Proof.
  intros Hv Hk Ho. unfold LoadKAEProvider. do 2 apply wp_meth_bind, wp_this. cbn [fst snd].
  eapply wp_owns; [apply moves_take_api; [by right|done|done]|exact Ho|]. intros p w1 Ho1.
  apply wp_meth_bind, wp_update. cbn [fst snd].
  assert (Ho2 : forall b, owns (handles (set_kaeLoaded b (set_kaeProv p k))) h0 (w_log w1)).
  { intros b. refine (owns_count _ _ _ _ _ Ho1). unfold handles. cbn. rewrite Hk. same_count. }
  destruct (p =? nullptr) eqn:E.
  - eapply wp_owns; [apply moves_api; [done|vm_compute; reflexivity|by apply moves_quiet]|apply (Ho2 false)|].
    intros e w2 Ho3. eapply wp_owns; [rewrite api_since_3 by done; by apply moves_quiet|exact Ho3|].
    intros e2 w3 Ho4. apply wp_meth_bind, wp_update, wp_meth_ret. cbn. by rewrite E.
  - apply wp_meth_bind, wp_update, wp_meth_ret. cbn. split_and!; [apply (Ho2 true)|done|done|by rewrite E].
Qed.

Lemma inv_Initialize h0 config k w :
  kae_inv h0 k w -> wp (Initialize lib_ config k) (fun r w' => kae_inv h0 r.2 w') w.
Proof.
  intros Hi. unfold Initialize. apply wp_meth_bind, wp_this. cbn [fst snd].
  destruct (m_initialized k) eqn:Ei; [by apply wp_meth_ret|].
  apply wp_meth_bind, wp_this, wp_meth_bind, wp_update. cbn [fst snd].
  set (k1 := set_kaeConfig _ k). assert (Hi1 : kae_inv h0 k1 w) by by apply (inv_same h0 k).
  assert (Ei1 : m_initialized k1 = false) by done. clearbody k1. clear Hi Ei k.
  destruct (bool_decide (is_Some _)) eqn:Es; [|by apply wp_meth_ret]. cbn [negb].
  apply bool_decide_eq_true, provider_version in Es as Hv. destruct Hi1 as [Ho _ Hoff].
  destruct (Hoff Ei1) as (E1 & E2 & E3 & E4).
  assert (Hfalse : forall k w, owns (handles k) h0 (w_log w) -> m_initialized k = false ->
            m_libCtx k = nullptr -> m_defaultProv k = nullptr -> m_kaeProv k = nullptr ->
            m_kaeLoaded k = false -> kae_inv h0 k w) by (by intros ? ? ? Hf; split; rewrite ?Hf).
  eapply wp_owns; [apply moves_take_api; [by right|done|done]|exact Ho|]. intros libCtx w1 Ho1.
  apply wp_meth_bind, wp_update. cbn [fst snd]. destruct (libCtx =? nullptr) eqn:El; bools.
  { apply wp_meth_ret. apply Hfalse; try done. refine (owns_count _ _ _ _ _ Ho1). unfold handles. cbn.
    rewrite E1, El. same_count. }
  eapply wp_owns; [apply moves_take_api; [by right|done|done]|exact Ho1|]. intros prov w2 Ho2.
  apply wp_meth_bind, wp_update. cbn [fst snd]. destruct (prov =? nullptr) eqn:Ep; bools.
  { assert (Ho3 : owns ((KOsslCtx, libCtx) :: handles k1) h0 (w_log w2)).
    { refine (owns_count _ _ _ _ _ Ho2). rewrite Ep. same_count. }
    eapply wp_owns; [apply moves_give_api; [done|vm_compute; reflexivity|done|done]|exact Ho3|].
    clear Ho3.
    intros r w3 Ho3. apply wp_meth_bind, wp_update, wp_meth_ret. apply Hfalse; try done.
    refine (owns_count _ _ _ _ _ Ho3). unfold handles. cbn. rewrite E1, E2, Ep. same_count. }
  apply wp_meth_bind. eapply wp_mono; [apply inv_LoadKAEProvider; [done|done|]|].
  { refine (owns_count _ _ _ _ _ Ho2). unfold handles. cbn. rewrite E1, E2. same_count. }
  intros [b k2] w3 (Ho3 & L1 & L2 & L3). apply wp_meth_bind, wp_update, wp_meth_ret. cbn in *.
  split; cbn; [exact Ho3|intros _|done]. by rewrite L1, L2.
Qed.

(** Releasing a handle the engine holds, unless it is null. *)
Lemma wp_release {X} h0 own r p f args clear k (rest : unit -> Kae X) Q w :
  version_3 lib_ = true -> there_since_3 f = true ->
  (forall h x, took (mkEvent f args x :: h) = None) ->
  (forall x, gave (mkEvent f args x) = Some (r, p)) ->
  owns ((r, p) :: own) h0 (w_log w) ->
  (p = nullptr -> clear k = k) ->
  (forall w', owns own h0 (w_log w') -> wp (rest tt (clear k)) Q w') ->
  wp (((if negb (p =? nullptr) then _ ← call (api lib_ f args); update clear else mret tt) ≫= rest) k) Q w.
Proof.
  intros Hv Hf Ht Hg Ho Hclear Hrest. apply wp_meth_bind. destruct (p =? nullptr) eqn:E; bools; cbn [negb].
  - apply wp_meth_ret. cbn [fst snd]. rewrite <- (Hclear E). apply Hrest. refine (owns_count _ _ _ _ _ Ho).
    rewrite E. same_count.
  - eapply wp_owns; [by apply moves_give_api|exact Ho|]. intros x w' Ho'. by apply wp_update, Hrest.
Qed.

Lemma inv_Finalize h0 k w :
  kae_inv h0 k w ->
  wp (Finalize lib_ k) (fun r w' => kae_inv h0 r.2 w' /\ m_initialized r.2 = false /\
     m_fallbackEngine r.2 = (if m_initialized k then nullptr else m_fallbackEngine k)) w.
Proof.
  intros Hi. unfold Finalize. apply wp_meth_bind, wp_this. cbn [fst snd].
  destruct (m_initialized k) eqn:Ei; cbn [negb]; [|by apply wp_meth_ret].
  destruct Hi as [Ho Hon _]. destruct (Hon Ei) as (Hv & E1 & E2 & E3). unfold handles in Ho.
  apply wp_meth_bind, wp_this. cbn [fst snd].
  eapply (wp_release h0 [(KOsslCtx, m_libCtx k); (KProvider, m_defaultProv k); (KEngine, m_fallbackEngine k)]
            KProvider); [done|vm_compute; reflexivity|done|done| |by destruct k; cbn; intros ->|].
  { refine (owns_count _ _ _ _ _ Ho). same_count. }
  intros w1 Ho1. apply wp_meth_bind, wp_this. cbn [fst snd].
  eapply (wp_release h0 [(KOsslCtx, m_libCtx k); (KEngine, m_fallbackEngine k)] KProvider);
    [done|vm_compute; reflexivity|done|done| |by destruct k; cbn; intros ->|].
  { refine (owns_count _ _ _ _ _ Ho1). cbn. same_count. }
  intros w2 Ho2. apply wp_meth_bind, wp_this. cbn [fst snd].
  eapply (wp_release h0 [(KEngine, m_fallbackEngine k)] KOsslCtx);
    [done|vm_compute; reflexivity|done|done| |by destruct k; cbn; intros ->|].
  { refine (owns_count _ _ _ _ _ Ho2). cbn. same_count. }
  intros w3 Ho3. apply wp_meth_bind. unfold ReleaseFallbackEngine. apply wp_meth_bind, wp_this.
  cbn [fst snd set_libCtx set_defaultProv set_kaeProv m_fallbackEngine].
  destruct (m_fallbackEngine k =? nullptr) eqn:Ef; bools; cbn [negb].
  - apply wp_meth_ret, wp_meth_bind, wp_update, wp_update. cbn. split; [|done].
    split; cbn; [|done|done]. refine (owns_count _ _ _ _ _ Ho3). unfold handles. cbn. rewrite Ef. same_count.
  - apply wp_meth_bind, wp_update. cbn [fst snd].
    eapply wp_owns; [by apply moves_give|exact Ho3|]. intros x w4 Ho4.
    apply wp_update, wp_meth_bind, wp_update, wp_update. cbn. split; [|done].
    split; cbn; [|done|done]. refine (owns_count _ _ _ _ _ Ho4). unfold handles. cbn. same_count.
Qed.

(** *** Direct operations *)
(** A direct operation of the KAE engine is the same operation of the software engine:
    once there is memory for the fallback, which is created at most once, it makes the same
    calls and returns the same result. Without that memory it dereferences null. *)
Theorem kae_delegates op k w :
  use_kae op k w =
  if m_fallbackEngine k =? nullptr then
    let p := answer (w_log w) op_new [AStr engine_name] in
    let w1 := set_log (mkEvent op_new [AStr engine_name] p :: w_log w) w in
    if p =? nullptr then None
    else r ← run_engine lib_ op w1;
         Some ((r.1, set_fallbackObject (mkSoftEngine true) (set_fallbackEngine p k)), r.2)
  else r ← run_engine lib_ op w; Some ((r.1, k), r.2).
Proof.
  rewrite use_kae_run. unfold on_fallback, GetFallbackEngine, lib, fault, mbind, Method_bind, this_, update,
    call, mret, Method_ret, mbind, M_bind, mret, M_ret. cbn [fst snd].
  destruct (m_fallbackEngine k =? nullptr) eqn:E; cbn [negb].
  - cbn [fst snd]. generalize (answer (w_log w) op_new [AStr engine_name]). intros p.
    destruct (p =? nullptr) eqn:Ep; cbn [fst snd]; rewrite ?Ep; [done|].
    by destruct (run_engine _ _ _) as [[]|].
  - cbn [fst snd]. rewrite E. by destruct (run_engine _ _ _) as [[]|].
Qed.

(** The engine has no software engine yet, and there is no memory for one. *)
Definition no_memory k w : Prop :=
  m_fallbackEngine k = nullptr /\ answer (w_log w) op_new [AStr engine_name] = nullptr.

Lemma inv_run_engine h0 op k w :
  op_ok op -> kae_inv h0 k w ->
  wp (run_engine lib_ op) (fun _ w' => kae_inv h0 k w') w.
Proof.
  intros Hop [Ho Hon Hoff]. eapply moves_wp; [by apply moves_run_engine|]. intros r w2 Hb.
  split; [|done|done].
  intros x Hx. specialize (Ho x Hx). specialize (Hb x Hx). cbn [count fst snd] in *. lia.
Qed.

(** The software engine just created is the engine's. *)
Lemma inv_new_fallback h0 k w :
  kae_inv h0 k w -> m_fallbackEngine k = nullptr ->
  let p := answer (w_log w) op_new [AStr engine_name] in
  p <> nullptr ->
  kae_inv h0 (set_fallbackObject (mkSoftEngine true) (set_fallbackEngine p k))
    (set_log (mkEvent op_new [AStr engine_name] p :: w_log w) w).
Proof.
  intros [Ho Hon Hoff] E p Hn. split; [|done|done]. intros x Hx. specialize (Ho x Hx).
  cbn [w_log set_log balance].
  change (gave _) with (@None (Resource * Z)). change (took _) with (Some (KEngine, p)).
  rewrite one_None. unfold handles in *. cbn in *. rewrite E, one_null in Ho by done. lia.
Qed.

(** A direct operation returns and keeps the invariant, except where there is no memory. *)
Lemma inv_kae_use h0 op k w :
  op_ok op -> kae_inv h0 k w ->
  (use_kae op k w = None /\ no_memory k w) \/
  exists r k' w', use_kae op k w = Some ((r, k'), w') /\ kae_inv h0 k' w' /\ ~ no_memory k w.
Proof.
  intros Hop Hi. rewrite kae_delegates. unfold no_memory.
  destruct (m_fallbackEngine k =? nullptr) eqn:E; bools.
  - cbn zeta. destruct (answer (w_log w) op_new _ =? nullptr) eqn:Ep; bools; [by left|right].
    pose proof (inv_run_engine _ _ _ _ Hop (inv_new_fallback _ _ _ Hi E Ep)) as Hw.
    unfold wp in Hw. destruct (run_engine lib_ op _) as [[r w']|]; [|done].
    eexists _, _, _. split; [done|]. split; [done|]. by intros [_ ?].
  - right. pose proof (inv_run_engine _ _ _ _ Hop Hi) as Hw.
    unfold wp in Hw. destruct (run_engine lib_ op _) as [[r w']|]; [|done].
    eexists _, _, _. split; [done|]. split; [done|]. by intros [? _].
Qed.

(** ** Life *)
Inductive kae_reach (config : KAEProviderConfig) (w0 : World) : KAEProviderEngine -> World -> Prop :=
| kae_start : kae_reach config w0 (new_kae config) w0
| kae_step k w op r k' w' :
    kae_reach config w0 k w -> kae_ok op -> run_kae op k w = Some ((r, k'), w') ->
    kae_reach config w0 k' w'.

(** The same of every operation: only a direct one can fail, and only for lack of memory. *)
Definition starved op k w : Prop := (exists u, op = KUse u) /\ no_memory k w.

Lemma inv_run_kae h0 op k w :
  kae_ok op -> kae_inv h0 k w ->
  (run_kae op k w = None /\ starved op k w) \/
  exists k' w', run_kae op k w = Some ((tt, k'), w') /\ kae_inv h0 k' w' /\ ~ starved op k w.
Proof.
  intros Hop Hi. destruct op as [config| |op]; simpl.
  - pose proof (inv_Initialize h0 config k w Hi) as Hw. unfold wp in Hw. right.
    unfold mbind, Method_bind, mbind, M_bind, mret, Method_ret, mret, M_ret.
    destruct (Initialize lib_ config k w) as [[[r k'] w']|]; [|done].
    exists k', w'. split_and!; [done|done|]. by intros [[u ?] _].
  - pose proof (inv_Finalize h0 k w Hi) as Hw. unfold wp in Hw. right.
    destruct (Finalize lib_ k w) as [[[[] k'] w']|]; [|done]. destruct Hw as [? _].
    exists k', w'. split_and!; [done|done|]. by intros [[u ?] _].
  - unfold mbind, Method_bind, mbind, M_bind, mret, Method_ret, mret, M_ret.
    destruct (inv_kae_use h0 op k w Hop Hi) as [[-> Hn]|(r & k' & w' & -> & Hk & Hn)].
    + left. split; [done|]. split; [by exists op|done].
    + right. exists k', w'. split_and!; [done|done|]. by intros [_ ?].
Qed.

Lemma kae_reach_inv config w0 k w : kae_reach config w0 k w -> kae_inv (w_log w0) k w.
Proof.
  induction 1 as [|k w op r k' w' _ IH Hop Hr]; [apply inv_new|].
  destruct (inv_run_kae _ _ _ _ Hop IH) as [[E _]|(k2 & w2 & E & Hk & _)]; [congruence|].
  rewrite E in Hr. by injection Hr as <- <- <-.
Qed.

(** (C22) Over any history of a KAE engine (initialised, finalised, used, in any order, on a
    library of either version, whatever it answers and whatever the allocator answers). An
    operation returns in every case but one: a direct operation of an engine that has no
    software engine yet, when there is no memory for one, dereferences null. An engine that
    says it is accelerated has a library context with both providers in it, and one that is
    not initialised has none. What is outstanding is exactly what the engine holds, so
    deleting it gives everything back, except the software engine of a KAE engine that was
    used while it was not initialised: that one is never freed. *)
Theorem kae_life config w0 k w op :
  kae_reach config w0 k w -> kae_ok op ->
  (run_kae op k w = None <->
     (exists u, op = KUse u) /\ m_fallbackEngine k = nullptr /\
     answer (w_log w) op_new [AStr engine_name] = nullptr) /\
  (m_initialized k = false -> GetProviderContext k = nullptr /\ IsHardwareAccelerated k = false) /\
  (IsHardwareAccelerated k = true ->
     GetProviderContext k <> nullptr /\ m_defaultProv k <> nullptr /\ m_kaeProv k <> nullptr) /\
  wp (delete_kae lib_ k) (fun _ w' => forall x, x.2 <> nullptr ->
    balance x (w_log w') = balance x (w_log w0) +
      (if m_initialized k then 0 else one x (Some (KEngine, m_fallbackEngine k)))) w.
Proof.
  intros Hr Hop. apply kae_reach_inv in Hr as Hi. split_and!.
  - destruct (inv_run_kae _ _ _ _ Hop Hi) as [[E Hs]|(k2 & w2 & E & _ & Hs)]; [by split|].
    rewrite E. split; [done|]. intros Hx. by destruct Hs.
  - intros E. destruct (ki_off _ _ _ Hi E) as (? & _ & _ & ?). done.
  - intros E. unfold IsHardwareAccelerated in E. destruct (m_initialized k) eqn:Ei.
    + destruct (ki_on _ _ _ Hi Ei) as (_ & ? & ? & El). split_and!; [done..|].
      rewrite E in El. symmetry in El. by bools.
    + destruct (ki_off _ _ _ Hi Ei) as (_ & _ & _ & El). congruence.
  - unfold delete_kae. apply wp_bind. eapply wp_mono; [by apply inv_Finalize|].
    intros [[] k'] w' ([Ho _ Hoff] & Ei & Ef). apply wp_ret. intros x Hx. rewrite (Ho x Hx).
    cbn [fst snd] in *. destruct (Hoff Ei) as (E1 & E2 & E3 & _). unfold handles. cbn.
    rewrite E1, E2, E3, Ef, !one_null by done. destruct (m_initialized k); [rewrite one_null by done|]; lia.
Qed.
End kae.

(** ** Witness: initialised, used, deleted *)
Definition demo_run (op : KaeOp) (kw : KAEProviderEngine * World) : KAEProviderEngine * World :=
  match run_kae demo_lib op kw.1 kw.2 with Some (r, w') => (r.2, w') | None => kw end.
Definition kae_on : KAEProviderEngine * World :=
  demo_run (KInitialize default_engine_config) (new_kae default_kae_config, world0).
Definition kae_used : KAEProviderEngine * World := demo_run (KUse (OpRandom 16 32)) kae_on.

Lemma kae_life_witness :
  IsHardwareAccelerated kae_used.1 = true /\
  GetProviderContext kae_used.1 <> nullptr /\
  wp (delete_kae demo_lib kae_used.1) (fun _ w' => forall x, x.2 <> nullptr ->
    balance x (w_log w') = balance x (w_log world0) +
      (if m_initialized kae_used.1 then 0 else one x (Some (KEngine, m_fallbackEngine kae_used.1)))) kae_used.2.
Proof.
  assert (Hr : kae_reach demo_lib default_kae_config world0 kae_used.1 kae_used.2).
  { refine (kae_step _ _ _ kae_on.1 kae_on.2 (KUse (OpRandom 16 32)) tt _ _ _ I _); [|vm_compute; reflexivity].
    refine (kae_step _ _ _ _ _ (KInitialize default_engine_config) tt _ _ (kae_start _ _ _) I _).
    vm_compute. reflexivity. }
  assert (Hacc : IsHardwareAccelerated kae_used.1 = true) by (vm_compute; reflexivity).
  destruct (kae_life demo_lib demo_loaded default_kae_config world0 kae_used.1 kae_used.2 KFinalize Hr I) as (_ & _ & Hon & Hdel).
  split; [exact Hacc|]. split; [exact (proj1 (Hon Hacc))|exact Hdel].
Defined.
