(* ===== verification/Startup.v ===== *)
(** * Starting up

    The composition of the adaptor with the loader: [OpenSSLAdaptor::Init] and [DeInit]
    ([src/adaptor/openssl/openssl_adaptor.cpp]) over the two library singletons, instead of
    over external calls as in [OpenSSL]; that the two descriptions agree; and that, once the
    adaptor is up, the crypto engines find every function they call and the loader has found
    every function the adaptor's source calls ([adaptor_ssl_calls], [adaptor_crypto_calls],
    read off that source and not off the loader's tables). *)
From Stdlib Require Import ZArith Lia Ascii String.
From stdpp Require Import base list fin_maps gmap strings.
From S2P Require Import Prelude Errno Types FileCheck Machine OpenSSL Ledger Loader LoaderSpec.
From S2P Require Import Crypto CryptoSpec Lifecycle.
Open Scope Z_scope.

(** The singletons. *)
Record Libs : Type := mkLibs { libs_crypto : DlLib; libs_ssl : DlLib }.
Definition no_libs : Libs := mkLibs no_lib no_lib.

(** A method of one of them. *)
Definition on_crypto {X} (m : Method DlLib X) : Method Libs X :=
  fun s => r ← m (libs_crypto s); mret (r.1, mkLibs r.2 (libs_ssl s)).
Definition on_ssl {X} (m : Method DlLib X) : Method Libs X :=
  fun s => r ← m (libs_ssl s); mret (r.1, mkLibs (libs_crypto s) r.2).

(** *** What the adaptor calls

    The function objects [openssl_adaptor.cpp] calls, its macros of [openssl_def.h] and
    [ErrErrorString] unfolded: read off the calls, not off the loader's tables. [SSL_CTX_new_ex]
    is called only where the adaptor finds it. *)
Definition adaptor_ssl_calls : list string := [
  "OPENSSL_sk_num"; "OPENSSL_sk_value"; "PEM_read_X509_CRL"; "PEM_read_bio_PrivateKey";
  "PEM_read_bio_X509"; "PEM_read_bio_X509_CRL"; "SSL_CIPHER_find"; "SSL_CIPHER_get_id";
  "SSL_CTX_check_private_key"; "SSL_CTX_ctrl"; "SSL_CTX_free"; "SSL_CTX_get_cert_store";
  "SSL_CTX_get_ciphers"; "SSL_CTX_get_options"; "SSL_CTX_load_verify_locations";
  "SSL_CTX_new"; "SSL_CTX_set_cert_verify_callback"; "SSL_CTX_set_ciphersuites";
  "SSL_CTX_set_default_passwd_cb"; "SSL_CTX_set_default_passwd_cb_userdata";
  "SSL_CTX_set_options"; "SSL_CTX_set_psk_find_session_callback";
  "SSL_CTX_set_psk_use_session_callback"; "SSL_CTX_set_security_level";
  "SSL_CTX_set_verify"; "SSL_CTX_use_PrivateKey"; "SSL_CTX_use_PrivateKey_file";
  "SSL_CTX_use_certificate"; "SSL_CTX_use_certificate_chain_file";
  "SSL_CTX_use_certificate_file"; "SSL_SESSION_free"; "SSL_SESSION_get0_cipher";
  "SSL_SESSION_get_protocol_version"; "SSL_SESSION_new"; "SSL_SESSION_set1_master_key";
  "SSL_SESSION_set_cipher"; "SSL_SESSION_set_protocol_version"; "SSL_accept";
  "SSL_connect"; "SSL_free"; "SSL_get_certificate"; "SSL_get_current_cipher";
  "SSL_get_error"; "SSL_get_ex_data"; "SSL_get_peer_certificate"; "SSL_get_version";
  "SSL_is_init_finished"; "SSL_key_update"; "SSL_new"; "SSL_read_ex"; "SSL_set_ex_data";
  "SSL_set_fd"; "SSL_set_verify"; "SSL_shutdown"; "SSL_write_ex"; "TLS_client_method";
  "TLS_server_method"]%string.
Definition adaptor_crypto_calls : list string := [
  "ASN1_OBJECT_free"; "ASN1_STRING_get0_data"; "ASN1_STRING_length";
  "ASN1_STRING_to_UTF8"; "ASN1_UTF8STRING_free"; "BIO_free"; "BIO_new_mem_buf";
  "CRYPTO_free"; "ERR_error_string"; "ERR_get_error"; "ERR_print_errors_cb";
  "EVP_PKEY_free"; "EVP_sha256"; "EVP_sha384"; "OBJ_txt2obj"; "X509_CRL_free";
  "X509_EXTENSION_get_data"; "X509_STORE_CTX_get_error"; "X509_STORE_add_cert";
  "X509_STORE_add_crl"; "X509_STORE_set_flags"; "X509_free"; "X509_get0_serialNumber";
  "X509_get_ext"; "X509_get_ext_by_OBJ"; "X509_get_version"; "X509_getm_notAfter";
  "X509_getm_notBefore"; "X509_verify_cert"; "d2i_ASN1_UTF8STRING";
  "i2d_ASN1_UTF8STRING"]%string.

(** A function object holds an address. *)
Definition found (l : DlLib) (f : string) : Prop := exists p, funs_ l !! f = Some p /\ p <> nullptr.

Lemma loaded_found (required : Z -> list string) names l :
  (forall v f, f ∈ required 0 -> f ∈ required v) ->
  forallb (fun f => bool_decide (f ∈ required 0)) names = true ->
  loaded required l -> Forall (found l) names.
Proof.
  intros Hmono Hn ((Hnn & _) & _ & Hd). rewrite forallb_forall in Hn.
  apply Forall_forall. intros f Hf%list_elem_of_In%Hn%bool_decide_eq_true.
  assert (is_Some (funs_ l !! f)) as [p Hp]
    by (by apply elem_of_dom; rewrite Hd, elem_of_list_to_set; apply Hmono).
  exists p. split; [done|]. by apply (Hnn f).
Qed.

Lemma adaptor_ssl_found l : loaded ssl_required l -> Forall (found l) adaptor_ssl_calls.
Proof.
  apply loaded_found; [|vm_compute; reflexivity].
  intros v f. unfold ssl_required. rewrite !elem_of_app. change (since_3 0 _) with (@nil string).
  rewrite elem_of_nil. tauto.
Qed.

Lemma adaptor_crypto_found l : loaded crypto_required l -> Forall (found l) adaptor_crypto_calls.
Proof.
  apply loaded_found; [|vm_compute; reflexivity].
  intros v f. unfold crypto_required. rewrite !elem_of_app. change (since_3 0 _) with (@nil string).
  rewrite elem_of_nil. tauto.
Qed.

Section startup.
Context {Sys : Library} {FS : FileSystem}.
Implicit Types (s : Libs) (w : World).

Definition AdaptorDeInit : Method Libs unit :=
  _ ← call (modify (set_cryptoEngine nullptr));
  _ ← on_crypto CryptoUnInit;
  on_ssl SslUnInit.

Definition AdaptorInit (flag : Z) (settings : option string) : Method Libs Z :=
  match settings with
  | None => mret SCF_ERRNO_LOAD_LIB
  | Some libPath =>
      ret ← on_crypto (CryptoInit libPath);
      return_if negb (ret =? SCF_SUCCESS) with (_ ← AdaptorDeInit; mret ret) ;;
      ret ← on_ssl (SslInit libPath);
      return_if negb (ret =? SCF_SUCCESS) with (_ ← AdaptorDeInit; mret ret) ;;
      mret SCF_SUCCESS
  end.

(** ** States of the pair *)
Definition up s : Prop := loaded crypto_required (libs_crypto s) /\ loaded ssl_required (libs_ssl s).
Definition stale : list string := ["OpenSSL_version_num"%string].
Definition down s : Prop := closed [] (libs_crypto s) /\ closed stale (libs_ssl s).

(** Handles taken and given by both. *)
Definition libs_move s w s' w' : Prop :=
  forall x, x.2 <> nullptr ->
    balance x (w_log w') + count x [(KLib, libptr_ (libs_crypto s)); (KLib, libptr_ (libs_ssl s))]
    = balance x (w_log w) + count x [(KLib, libptr_ (libs_crypto s')); (KLib, libptr_ (libs_ssl s'))].

Lemma libs_move_trans s0 w0 s1 w1 s2 w2 :
  libs_move s0 w0 s1 w1 -> libs_move s1 w1 s2 w2 -> libs_move s0 w0 s2 w2.
Proof. intros H1 H2 x Hx. specialize (H1 x Hx). specialize (H2 x Hx). lia. Qed.

(** Each library is loaded or closed. *)
Definition settled s : Prop := crypto_settled (libs_crypto s) /\ ssl_settled (libs_ssl s).

Lemma down_settled s : down s -> settled s.
Proof. intros [? ?]. by split; right. Qed.

Lemma wp_on_crypto {X} (m : Method DlLib X) (P : X -> DlLib -> Prop) s w :
  wp (m (libs_crypto s)) (fun r w' => handle_moves (libs_crypto s) w r.2 w' /\ P r.1 r.2) w ->
  wp (on_crypto m s) (fun r w' => libs_move s w r.2 w' /\ P r.1 (libs_crypto r.2) /\
                                  libs_ssl r.2 = libs_ssl s) w.
Proof.
  intros Hm. apply wp_bind. eapply wp_mono; [exact Hm|]. intros [x l] w' [Hh HP]. apply wp_ret.
  split; [|done]. intros y Hy. specialize (Hh y Hy). cbn [count libs_crypto libs_ssl fst snd] in *. lia.
Qed.

Lemma wp_on_ssl {X} (m : Method DlLib X) (P : X -> DlLib -> Prop) s w :
  wp (m (libs_ssl s)) (fun r w' => handle_moves (libs_ssl s) w r.2 w' /\ P r.1 r.2) w ->
  wp (on_ssl m s) (fun r w' => libs_move s w r.2 w' /\ P r.1 (libs_ssl r.2) /\
                               libs_crypto r.2 = libs_crypto s) w.
Proof.
  intros Hm. apply wp_bind. eapply wp_mono; [exact Hm|]. intros [x l] w' [Hh HP]. apply wp_ret.
  split; [|done]. intros y Hy. specialize (Hh y Hy). cbn [count libs_crypto libs_ssl fst snd] in *. lia.
Qed.

Lemma wp_AdaptorDeInit s w :
  settled s -> wp (AdaptorDeInit s) (fun r w' => libs_move s w r.2 w' /\ down r.2) w.
Proof.
  intros [Hc Hs]. unfold AdaptorDeInit. apply wp_meth_bind, wp_call, wp_modify. cbn [fst snd].
  apply wp_meth_bind. eapply wp_mono; [by apply (wp_on_crypto _ (fun _ l => closed [] l)), wp_CryptoUnInit|].
  intros [[] s1] w1 (M1 & C1 & E1). cbn [fst snd] in *. rewrite <- E1 in Hs.
  eapply wp_mono; [by apply (wp_on_ssl _ (fun _ l => closed stale l)), wp_SslUnInit|].
  intros [[] s2] w2 (M2 & C2 & E2). cbn [fst snd] in *. split; [|unfold down; by rewrite E2].
  intros x Hx. specialize (M1 x Hx). specialize (M2 x Hx). cbn [w_log set_cryptoEngine] in M1. lia.
Qed.

Lemma wp_AdaptorInit flag libPath s w :
  settled s ->
  wp (AdaptorInit flag (Some libPath) s)
     (fun r w' => libs_move s w r.2 w' /\ if decide (r.1 = SCF_SUCCESS) then up r.2 else down r.2) w.
Proof.
  intros [Hc Hs]. unfold AdaptorInit. apply wp_meth_bind.
  eapply wp_mono; [by eapply (wp_on_crypto _ (fun r l => if decide (r = SCF_SUCCESS) then loaded crypto_required l else closed [] l)),
    wp_CryptoInit|]. intros [rc s1] w1 (M1 & C1 & E1). cbn [fst snd] in *.
  assert (Hdown : forall (r : Z) s' w', r <> SCF_SUCCESS -> libs_move s w s' w' -> settled s' ->
            wp ((_ ← AdaptorDeInit; mret r) s') (fun r w' => libs_move s w r.2 w' /\
              if decide (r.1 = SCF_SUCCESS) then up r.2 else down r.2) w').
  { intros r s' w' Hr M' S'. apply wp_meth_bind. eapply wp_mono; [by apply wp_AdaptorDeInit|].
    intros [[] s2] w2 [M2 D2]. apply wp_meth_ret. cbn [fst snd] in *. rewrite decide_False by done.
    split; [by eapply libs_move_trans|done]. }
  rewrite <- E1 in Hs. destruct (rc =? SCF_SUCCESS) eqn:Ec; bools; cbn [negb].
  2:{ apply Hdown; [done|done|]. split; [|done]. rewrite decide_False in C1 by done. by right. }
  rewrite decide_True in C1 by done. apply wp_meth_bind.
  eapply wp_mono; [by eapply (wp_on_ssl _ (fun r l => if decide (r = SCF_SUCCESS) then loaded ssl_required l else closed stale l)),
    wp_SslInit|]. intros [rs s2] w2 (M2 & C2 & E2). cbn [fst snd] in *.
  assert (M : libs_move s w s2 w2) by by eapply libs_move_trans.
  destruct (rs =? SCF_SUCCESS) eqn:Es; bools; cbn [negb].
  - apply wp_meth_ret. cbn [fst snd]. rewrite decide_True in C2 by done. rewrite decide_True by done.
    unfold up. by rewrite E2.
  - apply Hdown; [done|done|]. rewrite decide_False in C2 by done. split; [rewrite E2; by left|by right].
Qed.

(** The description of [OpenSSL], where loading is an external call, is what this one does:
    in any environment that answers the two calls as the loader would. *)
Lemma Init_agrees (E : Library) flag libPath s w r s' w' wE :
  settled s -> AdaptorInit flag (Some libPath) s w = Some ((r, s'), w') ->
  (forall rc s1 w1, on_crypto (@CryptoInit Sys FS libPath) s w = Some ((rc, s1), w1) ->
     @answer E (w_log wE) LibCrypto_Init [AStr libPath] = rc /\
     forall rs s2 w2, on_ssl (@SslInit Sys FS libPath) s1 w1 = Some ((rs, s2), w2) ->
       @answer E (mkEvent LibCrypto_Init [AStr libPath] rc :: w_log wE) LibSsl_Init [AStr libPath] = rs) ->
  exists wE', @OpenSSL.Init E flag (Some libPath) wE = Some (r, wE') /\
    (r <> SCF_SUCCESS -> w_cryptoEngine wE' = nullptr).
Proof.
  intros [Hc Hs] Hrun HE. unfold AdaptorInit, mbind, Method_bind, mbind, M_bind in Hrun.
  destruct (on_crypto (@CryptoInit Sys FS libPath) s w) as [[[rc s1] w1]|] eqn:E1; [|done].
  destruct (HE rc s1 w1 eq_refl) as [Ec HE2]. cbn [fst snd] in Hrun.
  unfold Init, lib, mbind, M_bind. rewrite Ec. destruct (rc =? SCF_SUCCESS) eqn:Erc; bools; cbn [negb] in *.
  - destruct (on_ssl (@SslInit Sys FS libPath) s1 w1) as [[[rs s2] w2]|] eqn:E2; [|done].
    cbn [w_log set_log fst snd] in *. rewrite (HE2 rs s2 w2 eq_refl).
    destruct (rs =? SCF_SUCCESS) eqn:Ers; bools; cbn [negb] in *.
    + injection Hrun as <- _ _. by eexists.
    + destruct (AdaptorDeInit s2 w2) as [[[[] s3] w3]|]; [|done]. injection Hrun as <- _ _. by eexists.
  - destruct (AdaptorDeInit s1 w1) as [[[[] s3] w3]|]; [|done]. injection Hrun as <- _ _. by eexists.
Qed.

(** (C24) Starting up, with nothing assumed of the system. From any settled state of the two
    libraries the adaptor's [Init] returns. With settings, success means that both libraries
    are loaded, that every function of libssl and libcrypto that the adaptor's source calls
    was found and is not null, and that from then on every operation of the software engine,
    with the out-pointers its caller owes, returns; any failure leaves both libraries closed.
    Null settings are refused and change nothing. The library handles that are open are those
    the two singletons hold. *)
Theorem startup_ready flag settings s w :
  settled s ->
  wp (AdaptorInit flag settings s)
     (fun r w' => libs_move s w r.2 w' /\
        match settings with
        | None => r = (SCF_ERRNO_LOAD_LIB, s)
        | Some _ =>
            if decide (r.1 = SCF_SUCCESS)
            then up r.2 /\ Forall (found (libs_ssl r.2)) adaptor_ssl_calls /\
                 Forall (found (libs_crypto r.2)) adaptor_crypto_calls /\
                 forall op w2, op_ok op -> exists x, run_engine (libs_crypto r.2) op w2 = Some x
            else down r.2
        end) w.
Proof.
  intros Hs. destruct settings as [libPath|]; [|by apply wp_ret].
  eapply wp_mono; [by apply wp_AdaptorInit|]. intros r w' [M Hr]. split; [done|].
  destruct (decide _); [|done]. destruct Hr as [Hc Hl].
  split; [done|]. split; [by apply adaptor_ssl_found|]. split; [by apply adaptor_crypto_found|].
  intros op w2 Hop.
  pose proof (moves_run_engine _ Hc op Hop w2) as Hw. unfold wp in Hw.
  destruct (run_engine _ op w2) as [x|]; [by exists x|done].
Qed.
End startup.

(** ** Witness *)
Lemma no_libs_settled : settled no_libs.
Proof. by split; right; apply no_lib_closed. Qed.

Lemma startup_ready_witness :
  exists r w', AdaptorInit 1 (Some "/usr/lib"%string) no_libs world0 = Some (r, w') /\
    r.1 = SCF_SUCCESS /\ up r.2 /\
    exists x, run_engine (libs_crypto r.2) (OpHash SHA256 16 3 32 8) w' = Some x.
Proof.
  pose proof (startup_ready 1 (Some "/usr/lib"%string) no_libs world0 no_libs_settled) as Hw.
  unfold wp in Hw.
  assert (Hr : match AdaptorInit 1 (Some "/usr/lib"%string) no_libs world0 with
               | Some (r, _) => r.1 | None => 1 end = SCF_SUCCESS) by (vm_compute; reflexivity).
  destruct (AdaptorInit 1 (Some "/usr/lib"%string) no_libs world0) as [[r w']|]; [|contradiction].
  exists r, w'. split; [reflexivity|]. split; [exact Hr|]. destruct Hw as [_ Hw].
  rewrite decide_True in Hw by exact Hr. split; [exact (proj1 Hw)|].
  apply (proj2 (proj2 (proj2 Hw)) (OpHash SHA256 16 3 32 8) w'). simpl. discriminate.
Defined.
