(* ===== verification/Local.v ===== *)
(** * What a step leaves alone

    Partial correctness ([wlp]: if the program returns, the result is right; that it returns
    is shown elsewhere), and the promise that lets components be composed: the adaptor and
    the policy layer make no call on a transport, create and delete no engine, and use an
    engine only while the adaptor holds it. [TlsAdaptorLocal] states it of an adaptor; the
    OpenSSL adaptor keeps it, and so does the API over any adaptor that does. *)
From Stdlib Require Import ZArith Lia Ascii String.
From stdpp Require Import base list fin_maps gmap strings.
From S2P Require Import Prelude Errno Types FileCheck FileCtx Machine OpenSSL OpenSSLCfg.
From S2P Require Import Adaptor Api Conn Lifecycle Config Connection ConnSafe.
Open Scope Z_scope.

(** ** Partial correctness *)
Definition wlp {X} (m : M X) (Q : X -> World -> Prop) (w : World) : Prop :=
  match m w with Some (x, w') => Q x w' | None => True end.

Section wlp_rules.

Lemma wlp_ret {X} (x : X) Q w : Q x w -> wlp (mret x) Q w.
Proof. done. Qed.

Lemma wlp_bind {X Y} (m : M X) (f : X -> M Y) Q w :
  wlp m (fun x w' => wlp (f x) Q w') w -> wlp (m ≫= f) Q w.
Proof. unfold wlp, mbind, M_bind. by destruct (m w) as [[x w']|]. Qed.

Lemma wlp_mono {X} (m : M X) (Q Q' : X -> World -> Prop) w :
  wlp m Q w -> (forall x w', Q x w' -> Q' x w') -> wlp m Q' w.
Proof. unfold wlp. destruct (m w) as [[x w']|]; auto. Qed.

Lemma wlp_true {X} (m : M X) w : wlp m (fun _ _ => True) w.
Proof. unfold wlp. by destruct (m w) as [[]|]. Qed.
Lemma wlp_run {X} (m : M X) (Q : X -> World -> Prop) w x w' :
  wlp m Q w -> m w = Some (x, w') -> Q x w'.
Proof. unfold wlp. intros HQ Hm. by rewrite Hm in HQ. Qed.

Lemma wp_wlp {X} (m : M X) (Q : X -> World -> Prop) w : wp m Q w -> wlp m Q w.
Proof. unfold wp, wlp. by destruct (m w) as [[x w']|]. Qed.

Lemma wlp_lib `{Library} f args Q w :
  (forall r, r = answer (w_log w) f args -> Q r (set_log (mkEvent f args r :: w_log w) w)) ->
  wlp (lib f args) Q w.
Proof. intros HQ. by apply wp_wlp, wp_lib. Qed.

Lemma wlp_meth_bind {S X Y : Type} (m : Method S X) (f : X -> Method S Y) (c : S) Q w :
  wlp (m c) (fun r w' => wlp (f r.1 r.2) Q w') w -> wlp ((m ≫= f) c) Q w.
Proof. apply wlp_bind. Qed.

Lemma wlp_this {S X : Type} (f : S -> X) (c : S) Q w : Q (f c, c) w -> wlp (this_ f c) Q w.
Proof. done. Qed.

Lemma wlp_update {S : Type} f (c : S) (Q : unit * S -> World -> Prop) w : Q (tt, f c) w -> wlp (update f c) Q w.
Proof. done. Qed.

Lemma wlp_call {S X : Type} (m : M X) (c : S) Q w : wlp m (fun x w' => Q (x, c) w') w -> wlp (call m c) Q w.
Proof. intros Hm. by apply wlp_bind. Qed.

Lemma wlp_meth_ret {S X : Type} (x : X) (c : S) Q w : Q (x, c) w -> wlp ((mret x : Method S X) c) Q w.
Proof. done. Qed.
End wlp_rules.

(** ** The calls that belong to transports and engines *)
Definition is_transport (f : LibFn) : bool :=
  match f with
  | transport_Create | transport_SetConfig | transport_Connect | transport_Bind
  | transport_Accept | transport_Close | transport_GetNativeHandle | transport_delete => true
  | _ => false
  end.
Definition is_engine (f : LibFn) : bool :=
  match f with
  | engine_Create | engine_Initialize | engine_Finalize | engine_delete => true
  | _ => false
  end.

(** What is asked of an engine by whoever holds it. *)
Definition asks_engine (f : LibFn) : bool :=
  match f with
  | engine_GetProviderContext | engine_IsHardwareAccelerated
  | engine_GetAcceleratedAlgorithms => true
  | _ => false
  end.

(** A call of the TLS layer while the adaptor holds [engine]. *)
Definition inner (engine : Z) (e : Event) : Prop :=
  is_transport (ev_fn e) = false /\ is_engine (ev_fn e) = false /\
  (asks_engine (ev_fn e) = true -> ev_args e = [AInt engine] /\ engine <> nullptr).

(** A step that only makes such calls; [engine_to]: and leaves the adaptor, which is neither
    created nor deleted, with [e]. *)
Definition inner_log (engine : Z) (h h' : History) : Prop :=
  exists l, h' = l ++ h /\ Forall (inner engine) l.
Definition engine_to (e : Z) (w w' : World) : Prop :=
  inner_log (w_cryptoEngine w) (w_log w) (w_log w') /\ w_cryptoEngine w' = e /\
  w_adaptor w' = w_adaptor w.
(** The adaptor is given [e], and asks it about itself. *)
Definition engine_set (e : Z) (w w' : World) : Prop :=
  inner_log e (w_log w) (w_log w') /\ w_cryptoEngine w' = e /\ w_adaptor w' = w_adaptor w.
Definition local_step (w w' : World) : Prop := engine_to (w_cryptoEngine w) w w'.

Lemma inner_log_refl g h : inner_log g h h.
Proof. by exists []. Qed.

Lemma inner_log_trans g h1 h2 h3 : inner_log g h1 h2 -> inner_log g h2 h3 -> inner_log g h1 h3.
Proof.
  intros (l1 & -> & F1) (l2 & -> & F2). exists (l2 ++ l1). split; [by rewrite app_assoc|].
  by apply Forall_app.
Qed.

#[export] Instance local_preorder : PreOrder local_step.
Proof.
  split; [intros w; split; [apply inner_log_refl|done]|].
  intros w1 w2 w3 (L1 & E1 & A1) (L2 & E2 & A2). rewrite E1 in L2.
  split; [by eapply inner_log_trans|split; congruence].
Qed.

Definition local {X} (m : M X) : Prop := forall w, wlp m (fun _ w' => local_step w w') w.

Section local_rules.
Context `{Library}.

Lemma local_ret {X} (x : X) : local (mret x).
Proof. intros w. apply wlp_ret. reflexivity. Qed.

Lemma local_bind {X Y} (m : M X) (f : X -> M Y) : local m -> (forall x, local (f x)) -> local (m ≫= f).
Proof.
  intros Hm Hf w. apply wlp_bind. eapply wlp_mono; [apply Hm|]. intros x w1 H1.
  eapply wlp_mono; [apply Hf|]. intros y w2 H2. simpl in *. by etransitivity.
Qed.

Lemma local_gets {X} (f : World -> X) : local (gets f).
Proof. intros w. change (local_step w w). reflexivity. Qed.

Lemma local_modify f :
  (forall w, w_log (f w) = w_log w /\ w_cryptoEngine (f w) = w_cryptoEngine w /\
             w_adaptor (f w) = w_adaptor w) -> local (modify f).
Proof. intros Hf w. destruct (Hf w) as [L E]. split; [|done]. rewrite L. apply inner_log_refl. Qed.

Lemma inner_call w f args r :
  inner (w_cryptoEngine w) (mkEvent f args r) ->
  local_step w (set_log (mkEvent f args r :: w_log w) w).
Proof. intros Hi. split; [|done]. exists [mkEvent f args r]. by split; [|constructor]. Qed.

Lemma local_lib f args :
  is_transport f = false -> is_engine f = false -> asks_engine f = false ->
  local (lib f args).
Proof.
  intros Ht He Hf w. apply wlp_lib. intros r _. apply inner_call. split_and!; [done|done|].
  cbn [ev_fn]. congruence.
Qed.

Lemma local_lib_deref f p args :
  is_transport f = false -> is_engine f = false -> asks_engine f = false ->
  local (lib_deref f p args).
Proof. intros Ht He Hf w. unfold lib_deref. destruct (p =? nullptr); [done|by apply local_lib]. Qed.

(** The composition, at one state. *)
Lemma wlp_local_bind {X Y} (m : M X) (f : X -> M Y) w :
  wlp m (fun _ w' => local_step w w') w ->
  (forall x w', local_step w w' -> w_cryptoEngine w' = w_cryptoEngine w ->
     wlp (f x) (fun _ w'' => local_step w' w'') w') ->
  wlp (m ≫= f) (fun _ w' => local_step w w') w.
Proof.
  intros Hm Hf. apply wlp_bind. eapply wlp_mono; [exact Hm|]. intros x w1 S1.
  eapply wlp_mono; [apply (Hf x w1 S1), S1|]. intros y w2 S2. simpl in *. by etransitivity.
Qed.

(** Questions to the engine the adaptor holds. *)
Lemma local_log_engine w :
  w_cryptoEngine w <> nullptr -> wlp (log_engine (w_cryptoEngine w)) (fun _ w' => local_step w w') w.
Proof.
  intros Hn. unfold log_engine. do 2 (apply wlp_bind, wlp_lib; intros ? _). apply wlp_ret.
  split; [|done]. eexists [_; _]. split; [reflexivity|]. by repeat constructor.
Qed.

Lemma local_get_ctx p : local (get_ctx p).
Proof. intros w. unfold wlp, get_ctx. destruct (_ !! p); [reflexivity|done]. Qed.
Lemma local_get_obj p : local (get_obj p).
Proof. intros w. unfold wlp, get_obj. destruct (_ !! p); [reflexivity|done]. Qed.
Lemma local_upd_ctx p f : local (upd_ctx p f).
Proof.
  intros w. unfold wlp, upd_ctx. destruct (_ !! p); [|done].
  split; [apply inner_log_refl|done].
Qed.
Lemma local_upd_obj p f : local (upd_obj p f).
Proof.
  intros w. unfold wlp, upd_obj. destruct (_ !! p); [|done].
  split; [apply inner_log_refl|done].
Qed.
Lemma local_delete_ctx p : local (delete_ctx p).
Proof.
  intros w. unfold wlp, delete_ctx. destruct (_ !! p); [|done].
  split; [apply inner_log_refl|done].
Qed.
Lemma local_delete_obj p : local (delete_obj p).
Proof.
  intros w. unfold wlp, delete_obj. destruct (_ !! p); [|done].
  split; [apply inner_log_refl|done].
Qed.
Lemma local_new_ctx c : local (new_ctx c).
Proof. intros w. split; [apply inner_log_refl|done]. Qed.
Lemma local_new_obj o : local (new_obj o).
Proof. intros w. split; [apply inner_log_refl|done]. Qed.
Lemma local_fault {X} : local (fault (A := X)).
Proof. by intros w. Qed.
End local_rules.

Create HintDb local.

(** One rule of [local], by the shape of the program. *)
Ltac local_step_tac :=
  match goal with
  | |- forall _, _ => intro
  | |- local (let '_ := ?p in _) => destruct p
  | |- local (mret _) => apply local_ret
  | |- local fault => apply local_fault
  | |- local (gets _) => apply local_gets
  | |- local lib_out => apply local_gets
  | |- local (lib_cstring _) => apply local_gets
  | |- local (lib_asn1 _) => apply local_gets
  | |- local (lib_bytes _ _) => apply local_gets
  | |- local (lib _ _) => apply local_lib; done
  | |- local (lib_deref _ _ _) => apply local_lib_deref; done
  | |- local (get_ctx _) => apply local_get_ctx
  | |- local (get_obj _) => apply local_get_obj
  | |- local (upd_ctx _ _) => apply local_upd_ctx
  | |- local (upd_obj _ _) => apply local_upd_obj
  | |- local (delete_ctx _) => apply local_delete_ctx
  | |- local (delete_obj _) => apply local_delete_obj
  | |- local (new_ctx _) => apply local_new_ctx
  | |- local (new_obj _) => apply local_new_obj
  | |- local (_ ≫= _) => apply local_bind; [|intro]
  | |- local (if ?b then _ else _) => destruct b
  | |- local (match ?x with _ => _ end) => destruct x
  | |- local _ => progress eauto with local nocore
  end.
Ltac local := repeat local_step_tac.
Ltac local_now := match goal with |- wlp ?m _ _ => let H := fresh in assert (H : local m) by local; apply H end.

(** ** The promise of an adaptor *)
Class TlsAdaptorLocal (A : TlsAdaptor) : Prop := {
  loc_a_Init flag settings w :
    wlp (a_Init flag settings) (fun _ w' =>
      engine_to (w_cryptoEngine w) w w' \/ engine_to nullptr w w') w;
  loc_a_DeInit w : wlp a_DeInit (fun _ w' => engine_to nullptr w w') w;
  loc_a_SetCryptoEngine e w : wlp (a_SetCryptoEngine e) (fun _ w' => engine_set e w w') w;
  loc_a_FreeSslObj obj : local (a_FreeSslObj obj);
  loc_a_Connect obj : local (a_Connect obj);
  loc_a_Accept obj : local (a_Accept obj);
  loc_a_Read obj d n : local (a_Read obj d n);
  loc_a_Write obj d n : local (a_Write obj d n);
  loc_a_Close obj : local (a_Close obj);
  loc_a_SetFd obj fd : local (a_SetFd obj fd);
  loc_a_KeyUpdate obj t : local (a_KeyUpdate obj t);
  loc_a_GetVersion obj : local (a_GetVersion obj);
  loc_a_GetPeerCert obj : local (a_GetPeerCert obj);
  loc_a_CipherFind obj i : local (a_CipherFind obj i);
  loc_a_FreeSsl ctx : local (a_FreeSsl ctx);
  loc_a_AddCert ctx fc type : local (a_AddCert ctx fc type);
  loc_a_SetKey ctx k : local (a_SetKey ctx k);
  loc_a_SetCipherSuites ctx s : local (a_SetCipherSuites ctx s);
  loc_a_SetProtocolVersion ctx lo hi vs : local (a_SetProtocolVersion ctx lo hi vs);
  loc_a_SetAppVerifyCallback ctx cb arg : local (a_SetAppVerifyCallback ctx cb arg);
  loc_a_SetVerifyMode ctx m : local (a_SetVerifyMode ctx m);
  loc_a_InitPolicyByMode ctx : local (a_InitPolicyByMode ctx);
  loc_a_SetKeyExchangeGroups ctx g : local (a_SetKeyExchangeGroups ctx g);
  loc_a_SessionNew : local a_SessionNew;
  loc_a_SessionFree s : local (a_SessionFree s);
  loc_a_SessionSetMasterKey s k : local (a_SessionSetMasterKey s k);
  loc_a_SessionSetCipher s c n : local (a_SessionSetCipher s c n);
  loc_a_SessionSetProtocolVersion s v : local (a_SessionSetProtocolVersion s v);
  loc_a_FreeCert x : local (a_FreeCert x)
}.
#[export] Hint Resolve loc_a_FreeSslObj loc_a_Connect loc_a_Accept loc_a_Read loc_a_Write
  loc_a_Close loc_a_SetFd loc_a_KeyUpdate loc_a_GetVersion loc_a_GetPeerCert loc_a_CipherFind
  loc_a_FreeSsl loc_a_AddCert loc_a_SetKey loc_a_SetCipherSuites loc_a_SetProtocolVersion
  loc_a_SetAppVerifyCallback loc_a_SetVerifyMode loc_a_InitPolicyByMode
  loc_a_SetKeyExchangeGroups loc_a_SessionNew loc_a_SessionFree loc_a_SessionSetMasterKey
  loc_a_SessionSetCipher loc_a_SessionSetProtocolVersion loc_a_FreeCert : local.

Section openssl_local.
Context `{Library} `{SecureC} `{FileSystem}.

Lemma local_print_errors : local print_errors.
Proof. unfold print_errors. local. Qed.
Lemma local_GetCurrentCert obj : local (GetCurrentCert obj).
Proof. unfold GetCurrentCert. local. Qed.
Lemma local_copy_time t : local (copy_time t).
Proof. unfold copy_time. local. Qed.
Hint Resolve local_print_errors local_GetCurrentCert local_copy_time : local.

Lemma local_LogCertError obj : local (LogCertError obj).
Proof.
  unfold LogCertError, GetCertVersion, GetCertSerialNumber, GetCertStartTime, GetCertEndTime. local.
Qed.
Hint Resolve local_LogCertError : local.

Lemma local_handshake obj role fn : fn = SSL_connect \/ fn = SSL_accept -> local (handshake obj role fn).
Proof. intros [-> | ->]; unfold handshake, HandleTransPortError; local. Qed.

Lemma local_CheckVersion obj : local (CheckVersion obj).
Proof. unfold CheckVersion, SSL_CTX_get_min_proto_version, SSL_CTX_get_max_proto_version. local. Qed.
Lemma local_FreeSsl ctx : local (FreeSsl ctx).
Proof. unfold FreeSsl. local. Qed.
Hint Resolve local_CheckVersion local_FreeSsl : local.

Lemma local_LoadCaChain n sslCtx b : local (LoadCaChain n sslCtx b).
Proof. induction n as [|n IH]; simpl; unfold SSL_CTX_add_extra_chain_cert; local. Qed.
Hint Resolve local_LoadCaChain : local.

Lemma local_AddCert ctx fc type : local (AddCert ctx fc type).
Proof.
  unfold AddCert, AddCaCert, AddCaCertByFile, AddCaCertByBuffer, CertBuffer2X509, AddEeCert,
    AddEeCertByFile, AddEeCertByBuffer, ErrErrorString, LoadEeCert, AddCrl, ReadCrlByFile,
    ReadCrlByBuffer, AddEeChain, AddEeChainByFile, AddEeChainByBuffer, LoadEeCert. local.
Qed.

Lemma local_SetProtocolVersion ctx lo hi vs : local (SetProtocolVersion ctx lo hi vs).
Proof.
  unfold SetProtocolVersion, SSL_CTX_set_min_proto_version, SSL_CTX_set_max_proto_version. local.
Qed.

(** The engine whose provider context is asked for is the one the adaptor holds. *)
Lemma local_new_ssl_ctx logged method : local (new_ssl_ctx logged method).
Proof.
  intros w. unfold new_ssl_ctx. apply wlp_bind. unfold wlp at 1, gets.
  apply wlp_local_bind; [|intros s w1 _ _; by local_now].
  destruct (w_cryptoEngine w =? nullptr) eqn:E; [by apply wlp_ret|]. bools.
  apply wlp_local_bind; [apply wlp_lib; intros r _; by apply inner_call|]. intros provider w1 _ C1.
  destruct (provider =? nullptr); [by apply wlp_ret|].
  apply wlp_local_bind; [by local_now|]. intros loaded w2 _ C2.
  destruct (loaded =? 0); [by apply wlp_ret|].
  apply wlp_local_bind; [by local_now|]. intros s w3 _ C3.
  apply wlp_local_bind; [|intros ? w4 _ _; by apply wlp_ret].
  destruct (logged && _); [|by apply wlp_ret].
  replace (w_cryptoEngine w) with (w_cryptoEngine w3) by congruence. apply local_log_engine. congruence.
Qed.

Lemma local_disable_session_cache c : local (disable_session_cache c).
Proof.
  unfold disable_session_cache, SSL_CTX_set_session_cache_mode, SSL_CTX_get_session_cache_mode.
  local.
Qed.
Lemma local_CalGetSslMethod role : local (CalGetSslMethod role).
Proof. unfold CalGetSslMethod. local. Qed.
Hint Resolve local_SetProtocolVersion local_new_ssl_ctx local_disable_session_cache
  local_CalGetSslMethod : local.

Lemma local_InitPolicyByMode ctx : local (InitPolicyByMode ctx).
Proof. unfold InitPolicyByMode, InitSsl, InitSslCustomer. local. Qed.

Lemma wlp_DeInit w : wlp DeInit (fun _ w' => engine_to nullptr w w') w.
Proof.
  unfold DeInit. apply wlp_bind. unfold wlp at 1, modify. do 2 (apply wlp_bind, wlp_lib; intros ? _).
  apply wlp_ret. split; [|done]. eexists [_; _]. split; [reflexivity|]. repeat constructor; done.
Qed.

Lemma wlp_SetCryptoEngine e w : wlp (SetCryptoEngine e) (fun _ w' => engine_set e w w') w.
Proof.
  unfold SetCryptoEngine. apply wlp_bind. unfold wlp at 1, modify.
  destruct (e =? nullptr) eqn:E; bools; [apply wlp_ret; by split; [apply inner_log_refl|]|].
  apply (local_log_engine (set_cryptoEngine e w)). done.
Qed.

Lemma wlp_Init flag settings w :
  wlp (Init flag settings)
    (fun _ w' => engine_to (w_cryptoEngine w) w w' \/ engine_to nullptr w w') w.
Proof.
  unfold Init. destruct settings as [libPath|]; [|apply wlp_ret; left; by split; [apply inner_log_refl|]].
  apply wlp_bind, wlp_lib. intros rc _. set (w1 := set_log _ _).
  assert (S1 : local_step w w1) by by apply inner_call.
  assert (Hd : forall (r : Z) w1, local_step w w1 -> wlp (_ ← DeInit; mret r)
            (fun _ w' => engine_to (w_cryptoEngine w) w w' \/ engine_to nullptr w w') w1).
  { intros r w2 (L2 & E2 & A2). apply wlp_bind. eapply wlp_mono; [apply wlp_DeInit|].
    intros [] w3 (L3 & E3 & A3). apply wlp_ret. right. rewrite E2 in L3.
    split; [by eapply inner_log_trans|split; [done|congruence]]. }
  destruct (negb _); [by apply Hd|]. apply wlp_bind, wlp_lib. intros rs _. set (w2 := set_log _ w1).
  assert (S2 : local_step w w2) by (etransitivity; [exact S1|by apply inner_call]).
  destruct (negb _); [by apply Hd|]. apply wlp_ret. left. exact S2.
Qed.

#[export] Instance OpenSSLAdaptorLocal : TlsAdaptorLocal OpenSSLAdaptor.
Proof.
  split; intros; cbn [a_Init a_DeInit a_SetCryptoEngine a_FreeSslObj a_Connect a_Accept a_Read
    a_Write a_Close a_SetFd a_KeyUpdate a_GetVersion a_GetPeerCert a_CipherFind a_FreeSsl
    a_AddCert a_SetKey a_SetCipherSuites a_SetProtocolVersion a_SetAppVerifyCallback
    a_SetVerifyMode a_InitPolicyByMode a_SetKeyExchangeGroups a_SessionNew a_SessionFree
    a_SessionSetMasterKey a_SessionSetCipher a_SessionSetProtocolVersion a_FreeCert OpenSSLAdaptor].
  - apply wlp_Init.
  - apply wlp_DeInit.
  - apply wlp_SetCryptoEngine.
  - unfold FreeSslObj. local.
  - apply local_handshake. by left.
  - apply local_handshake. by right.
  - unfold OpenSSL.Read. local.
  - unfold OpenSSL.Write. local.
  - unfold OpenSSL.Close. local.
  - unfold SetFd. local.
  - unfold KeyUpdate. local.
  - unfold GetVersion. local.
  - unfold GetPeerCert. local.
  - unfold CipherFind. local.
  - apply local_FreeSsl.
  - apply local_AddCert.
  - unfold SetKey, SetKeyByFile, SetKeyByBuffer, KeyBuffer2Evp. local.
  - unfold SetCipherSuites. local.
  - apply local_SetProtocolVersion.
  - unfold SetAppVerifyCallback. local.
  - unfold SetVerifyMode. local.
  - apply local_InitPolicyByMode.
  - unfold SetKeyExchangeGroups. local.
  - unfold SessionNew. local.
  - unfold SessionFree. local.
  - unfold SessionSetMasterKey. local.
  - unfold SessionSetCipher. local.
  - unfold SessionSetProtocolVersion. local.
  - unfold FreeCert. local.
Qed.
End openssl_local.

(** ** The API over such an adaptor *)
Section api_local.
Context `{Library} {A : TlsAdaptor} `{!TlsAdaptorLocal A} `{SecureC} `{Decryptor}.

Ltac api := unfold CHECK_RET, CHECK_READY, CHECK_SCF_INIT, CHECK_SCF_ADAPTOR, sys_time; local.

Lemma local_CreatePolicyCtx : local SCF_CreatePolicyCtx.
Proof. unfold SCF_CreatePolicyCtx. api. Qed.
Lemma local_FreePolicyCtx ctx : local (SCF_FreePolicyCtx ctx).
Proof. unfold SCF_FreePolicyCtx. api. Qed.
Lemma local_CreatePolicyObj ctx : local (SCF_CreatePolicyObj ctx).
Proof. unfold SCF_CreatePolicyObj. api. Qed.
Hint Resolve local_FreePolicyCtx : local.
Lemma local_FreePolicyObj obj : local (SCF_FreePolicyObj obj).
Proof. unfold SCF_FreePolicyObj. api. Qed.
Lemma local_SetPolicy ctx role v p : local (SCF_SetPolicy ctx role v p).
Proof. unfold SCF_SetPolicy. api. Qed.
Lemma local_SetAppVerify ctx cb arg : local (SCF_SetAppVerifyCallback ctx cb arg).
Proof. unfold SCF_SetAppVerifyCallback. api. Qed.
Lemma local_SCF_SetCipherSuites ctx s : local (SCF_SetCipherSuites ctx s).
Proof. unfold SCF_SetCipherSuites. api. Qed.
Lemma local_SCF_SetProtocolVersion ctx lo hi vs : local (SCF_SetProtocolVersion ctx lo hi vs).
Proof. unfold SCF_SetProtocolVersion. api. Qed.
Lemma local_SCF_GetProtocolVersion obj : local (SCF_GetProtocolVersion obj).
Proof. unfold SCF_GetProtocolVersion. api. Qed.
Lemma local_SCF_AddCert ctx fc t : local (SCF_AddCert ctx fc t).
Proof. unfold SCF_AddCert. api. Qed.
Lemma local_SCF_SetKey ctx k : local (SCF_SetKey ctx k).
Proof. unfold SCF_SetKey. api. Qed.
Lemma local_SCF_SessionNew : local SCF_SessionNew.
Proof. unfold SCF_SessionNew. api. Qed.
Lemma local_SCF_SessionFree s : local (SCF_SessionFree s).
Proof. unfold SCF_SessionFree. api. Qed.
Lemma local_SCF_SessionSetMasterKey s k n b : local (SCF_SessionSetMasterKey s k n b).
Proof. unfold SCF_SessionSetMasterKey. api. Qed.
Lemma local_SCF_SessionSetCipher s c n : local (SCF_SessionSetCipher s c n).
Proof. unfold SCF_SessionSetCipher. api. Qed.
Lemma local_SCF_SessionSetProtocolVersion s v : local (SCF_SessionSetProtocolVersion s v).
Proof. unfold SCF_SessionSetProtocolVersion. api. Qed.
Lemma local_SCF_CipherFind obj id : local (SCF_CipherFind obj id).
Proof. unfold SCF_CipherFind. api. Qed.
Lemma local_SCF_SetKeyAutoUpdateParam ctx b t n : local (SCF_SetKeyAutoUpdateParam ctx b t n).
Proof. unfold SCF_SetKeyAutoUpdateParam. api. Qed.
Lemma local_SCF_SetFd obj fd : local (SCF_SetFd obj fd).
Proof. unfold SCF_SetFd. api. Qed.
Lemma local_SCF_GetPeerCert obj : local (SCF_GetPeerCert obj).
Proof. unfold SCF_GetPeerCert. api. Qed.
Lemma local_SCF_FreeCert x : local (SCF_FreeCert x).
Proof. unfold SCF_FreeCert. api. Qed.
Lemma local_SCF_SetUserData obj d : local (SCF_SetUserData obj d).
Proof. unfold SCF_SetUserData. api. Qed.
Lemma local_SCF_ObjKeyUpdate obj : local (SCF_ObjKeyUpdate obj).
Proof. unfold SCF_ObjKeyUpdate. api. Qed.
Lemma local_SCF_Connect obj : local (SCF_Connect obj).
Proof. unfold SCF_Connect, establish, freeze_mapping. api. Qed.
Lemma local_SCF_Accept obj : local (SCF_Accept obj).
Proof. unfold SCF_Accept, establish, freeze_mapping. api. Qed.
Lemma local_SCF_Close obj : local (SCF_Close obj).
Proof. unfold SCF_Close. api. Qed.
Lemma local_SCF_Read obj d n b : local (SCF_Read obj d n b).
Proof. unfold SCF_Read. api. Qed.
Lemma local_SCF_Write obj d n b : local (SCF_Write obj d n b).
Proof. unfold SCF_Write, CheckNeedKeyUpdate, CheckTimeInterval. api. Qed.
End api_local.
#[export] Hint Resolve local_CreatePolicyCtx local_FreePolicyCtx local_CreatePolicyObj
  local_FreePolicyObj local_SetPolicy local_SetAppVerify local_SCF_SetCipherSuites
  local_SCF_SetProtocolVersion local_SCF_GetProtocolVersion local_SCF_AddCert local_SCF_SetKey
  local_SCF_SessionNew local_SCF_SessionFree local_SCF_SessionSetMasterKey
  local_SCF_SessionSetCipher local_SCF_SessionSetProtocolVersion local_SCF_CipherFind
  local_SCF_SetKeyAutoUpdateParam local_SCF_SetFd local_SCF_GetPeerCert local_SCF_FreeCert
  local_SCF_SetUserData local_SCF_ObjKeyUpdate local_SCF_Connect local_SCF_Accept
  local_SCF_Close local_SCF_Read local_SCF_Write : local.

(** ** Methods of a connection that stay within a relation

    [R] is what may happen to the process, [same] what the method keeps of the object. *)
Class StepRel (R : World -> World -> Prop) : Prop := {
  sr_preorder : PreOrder R;
  sr_local : forall w w', local_step w w' -> R w w'
}.
#[export] Existing Instance sr_preorder.

#[export] Instance local_step_rel : StepRel local_step.
Proof. by split; [apply _|]. Qed.

Section inert.
Context (R : World -> World -> Prop) `{!StepRel R}.
Context (same : SCFConnectionImpl -> SCFConnectionImpl -> Prop) `{!PreOrder same}.

Definition inert {X} (m : Meth X) : Prop :=
  forall c w, wlp (m c) (fun r w' => R w w' /\ same c r.2) w.

Lemma inert_ret {X} (x : X) : inert (mret x).
Proof. intros c w. apply wlp_meth_ret. split; reflexivity. Qed.

Lemma inert_bind {X Y} (m : Meth X) (f : X -> Meth Y) :
  inert m -> (forall x, inert (f x)) -> inert (m ≫= f).
Proof.
  intros Hm Hf c w. apply wlp_meth_bind. eapply wlp_mono; [apply Hm|]. intros [x c1] w1 [R1 S1].
  eapply wlp_mono; [apply Hf|]. intros [y c2] w2 [R2 S2]. simpl in *. split; by etransitivity.
Qed.

Lemma inert_this {X} (f : SCFConnectionImpl -> X) : inert (this_ f).
Proof. intros c w. apply wlp_this. split; reflexivity. Qed.

Lemma inert_update f : (forall c, same c (f c)) -> inert (update f).
Proof. intros Hf c w. apply wlp_update. split; [reflexivity|apply Hf]. Qed.

Lemma inert_call {X} (m : M X) : (forall w, wlp m (fun _ w' => R w w') w) -> inert (call m).
Proof.
  intros Hm c w. apply wlp_call. eapply wlp_mono; [apply Hm|]. intros x w' Hr.
  split; [done|reflexivity].
Qed.

Lemma inert_local {X} (m : M X) : local m -> inert (call m).
Proof.
  intros Hm. apply inert_call. intros w. eapply wlp_mono; [apply Hm|]. intros x w' ?. by apply sr_local.
Qed.
End inert.

Create HintDb inert.
Ltac inert_step_tac :=
  match goal with
  | |- forall _, _ => intro
  | |- inert _ _ (let '_ := ?p in _) => destruct p
  | |- inert _ _ (mret _) => apply inert_ret; apply _
  | |- inert _ _ (this_ _) => apply inert_this; apply _
  | |- inert _ _ (update _) => apply inert_update; [apply _|by intros []]
  | |- inert _ _ (call _) => apply inert_local; [apply _|apply _|solve [local]]
  | |- inert _ _ (_ ≫= _) => apply inert_bind; [apply _|apply _| |intro]
  | |- inert _ _ (if ?b then _ else _) => destruct b
  | |- inert _ _ (match ?x with _ => _ end) => destruct x
  | |- inert _ _ _ => progress eauto with inert nocore
  end.
Ltac inert := repeat inert_step_tac.

Section setup_local.
Context `{Library} {A : TlsAdaptor} `{!TlsAdaptorLocal A} `{SecureC} `{FileSystem} `{Decryptor}
  `{Uninit} `{FileAlloc}.

Lemma local_add_cert_file ctx type path : local (add_cert_file ctx type path).
Proof. unfold add_cert_file, with_file_ctx, env_at. local. Qed.
Lemma local_set_key_file ctx path password : local (set_key_file ctx path password).
Proof. unfold set_key_file, with_file_ctx, env_at. local. Qed.
Hint Resolve local_add_cert_file local_set_key_file : local.
Lemma local_SetupCertificates c : local (SetupCertificates c).
Proof. unfold SetupCertificates, unless_failed. local. Qed.
Lemma local_SetupCipherSuites c : local (SetupCipherSuites c).
Proof. unfold SetupCipherSuites. local. Qed.
Lemma local_SetupPSK c : local (SetupPSK c).
Proof. unfold SetupPSK. local. Qed.
End setup_local.
#[export] Hint Resolve local_SetupCertificates local_SetupCipherSuites local_SetupPSK : local.
