(* ===== verification/Network.v ===== *)
(** * Connections over sockets

    The composition of the connection object ([Connection]) with the socket transport
    ([Socket]). In [Connection] the methods of a transport are external calls; here they are
    answered by the transports of [src/transport/socket_transport.cpp]: the state of all
    transports and of the operating system under them is computed from the calls made so far
    ([replay]), and [NetLibrary] answers the next call with what the socket transport does in
    that state. Everything else (OpenSSL, the allocator) still answers as it likes. *)
From Stdlib Require Import ZArith Lia Ascii String.
From stdpp Require Import base list fin_maps gmap strings.
From S2P Require Import Prelude Errno Types FileCheck FileCtx Machine Adaptor Api Conn Lifecycle.
From S2P Require Import Config Connection ConnSafe ConnPool Socket SockSafe Local.
Open Scope Z_scope.

(** ** The transports of a process *)

(** What the composition is over: the operating system, which hands out fresh descriptors
    and fills the buffers it is given, and the rest of the outside world. *)
Record Outside : Type := mkOutside {
  os : Library;
  os_resolver : Resolver;
  os_fresh : @FreshFds os;
  os_bytes : forall h p n, length (@bytes_at os h p n) = Z.to_nat n;
  rest : Library
}.

(** The transports by address, the next address, and the state the system calls go to. *)
Record Net : Type := mkNet {
  n_socks : gmap Z SocketTransport;
  n_next : Z;
  n_sys : World
}.
Definition net0 : Net := mkNet ∅ 1 world0.

(** [TransportResult] as the integer a virtual method answers. *)
Definition result_code (r : TransportResult) : Z :=
  match r with
  | SUCCESS => 0 | ERROR => -1 | WOULD_BLOCK => -2 | CONNECTION_CLOSED => -3 | TIMEOUT => -4
  end.

(** [TransportConfig tCfg; tCfg.nonBlocking = true; tCfg.connectTimeoutMs = ms;] *)
Definition conn_transport_config (ms : Z) : TransportConfig :=
  mkTransportConfig true 0 0 ms 0 0 true.

Section net.
Context (O : Outside) {SC : SecureC}.
#[local] Existing Instance os_resolver.

(** A method of the transport at [p]; [None]: a null, deleted or unknown transport. *)
Definition on_sock {X} (n : Net) (p : Z) (m : Method SocketTransport X) (code : X -> Z)
    : option (Net * Z) :=
  match n_socks n !! p with
  | None => None
  | Some t =>
      match m t (n_sys n) with
      | None => None
      | Some ((x, t'), w) => Some (mkNet (<[p := t']> (n_socks n)) (n_next n) w, code x)
      end
  end.

(** A new transport at the next address. *)
Definition place (n : Net) (w : World) (t : option SocketTransport) : Net * Z :=
  match t with
  | None => (mkNet (n_socks n) (n_next n) w, nullptr)
  | Some t => (mkNet (<[n_next n := t]> (n_socks n)) (n_next n + 1) w, n_next n)
  end.

(** One call of a connection on its transport. A factory of the application makes
    transports this composition knows nothing about. *)
Definition net_step (n : Net) (f : LibFn) (args : list Arg) : option (Net * Z) :=
  match f, args with
  | transport_Create, [AInt factory] =>
      if factory =? nullptr then
        match @Socket.Create (os O) (n_sys n) with
        | None => None
        | Some (t, w) => Some (place n w t)
        end
      else None
  | transport_SetConfig, [AInt p; AInt ms] =>
      on_sock n p (@SetConfig (os O) (conn_transport_config ms)) result_code
  | transport_Connect, [AInt p; AStr host; AInt port; AInt ms] =>
      on_sock n p (@Socket.Connect (os O) SC (os_resolver O) (addr_IPv4 host port)
                     (conn_transport_config ms)) result_code
  | transport_Bind, [AInt p; AStr host; AInt port] =>
      on_sock n p (@Bind (os O) SC (os_resolver O) (addr_IPv4 host port) 128) result_code
  | transport_Accept, [AInt p] =>
      match n_socks n !! p with
      | None => None
      | Some t =>
          match @Socket.Accept (os O) (os_resolver O) t (n_sys n) with
          | None => None
          | Some ((child, t'), w) =>
              Some (place (mkNet (<[p := t']> (n_socks n)) (n_next n) w) w child)
          end
      end
  | transport_Close, [AInt p] => on_sock n p (@Socket.Close (os O)) (fun _ => 0)
  | transport_GetNativeHandle, [AInt p] =>
      on_sock n p (this_ Socket.GetNativeHandle) id
  | transport_delete, [AInt p] =>
      match n_socks n !! p with
      | None => None
      | Some t =>
          match @delete_socket (os O) t (n_sys n) with
          | None => None
          | Some (_, w) => Some (mkNet (delete p (n_socks n)) (n_next n) w, 0)
          end
      end
  | _, _ => None
  end.

(** The state after a history of calls; [None]: a call touched a transport that is not
    there. *)
Fixpoint replay (h : History) : option Net :=
  match h with
  | [] => Some net0
  | e :: h =>
      n ← replay h;
      if is_transport (ev_fn e) then fst <$> net_step n (ev_fn e) (ev_args e) else Some n
  end.

(** The environment of a process whose transports are sockets. *)
Definition net_answer (h : History) (f : LibFn) (args : list Arg) : Z :=
  if is_transport f then
    match replay h with
    | Some n => match net_step n f args with Some (_, r) => r | None => 0 end
    | None => 0
    end
  else @answer (rest O) h f args.

Definition NetLibrary : Library := {|
  answer := net_answer;
  out_value := @out_value (rest O);
  cstring_at := @cstring_at (rest O);
  bytes_at := @bytes_at (rest O);
  asn1_data := @asn1_data (rest O)
|}.

(** ** The state the transports are in *)
Definition socks_of (S : gmap Z SocketTransport) : list SocketTransport := snd <$> map_to_list S.

Lemma socks_insert S p t : S !! p = None -> socks_of (<[p := t]> S) ≡ₚ t :: socks_of S.
Proof. intros Hp. unfold socks_of. by rewrite map_to_list_insert. Qed.

Lemma socks_delete S p t : S !! p = Some t -> socks_of S ≡ₚ t :: socks_of (delete p S).
Proof. intros Hp. unfold socks_of. by rewrite <- (map_to_list_delete S p t Hp). Qed.

Lemma socks_update S p t t' :
  S !! p = Some t -> socks_of (<[p := t']> S) ≡ₚ t' :: socks_of (delete p S).
Proof.
  intros Hp. rewrite <- insert_delete_eq. apply socks_insert, lookup_delete_eq.
Qed.

(** The open descriptors are those of the transports, each of one; addresses are fresh. *)
Record net_ok (n : Net) : Prop := {
  no_pool : sock_pool (socks_of (n_socks n)) (n_sys n);
  no_addr : forall p, is_Some (n_socks n !! p) -> 0 < p < n_next n;
  no_next : 0 < n_next n
}.

(** The process is in order, and its transports are [S]. *)
Definition net (S : gmap Z SocketTransport) (w : World) : Prop :=
  exists n, replay (w_log w) = Some n /\ net_ok n /\ n_socks n = S.

(** *** One call *)
#[local] Existing Instance os_fresh.

Lemma wp_net S f args (Q : Z -> gmap Z SocketTransport -> Prop) w :
  is_transport f = true -> net S w ->
  (forall n, net_ok n -> n_socks n = S ->
     exists n' r, net_step n f args = Some (n', r) /\ net_ok n' /\ Q r (n_socks n')) ->
  wp (@lib NetLibrary f args) (fun r w' => exists S', net S' w' /\ Q r S') w.
Proof.
  intros Hf (n & Hr & Hok & HS) Hstep. destruct (Hstep n Hok HS) as (n' & r & Hs & Hok' & HQ).
  apply (wp_lib (H := NetLibrary)). intros r' ->. exists (n_socks n'). cbn [answer NetLibrary].
  unfold net_answer. rewrite Hf, Hr, Hs. split; [|done]. exists n'. cbn [w_log set_log replay ev_fn ev_args].
  rewrite Hr. cbn. by rewrite Hf, Hs.
Qed.

(** An operation of the pool of sockets, as a call. *)
Lemma on_sock_ok {X} n p t (m : Method SocketTransport X) code op (P : X -> SocketTransport -> Prop) :
  net_ok n -> n_socks n !! p = Some t -> sock_disciplined op t ->
  @run_sock (os O) SC (os_resolver O) op t (n_sys n) = (r ← m t; mret [r.2]) (n_sys n) ->
  wlp (m t) (fun r _ => P r.1 r.2) (n_sys n) ->
  exists n' x t', on_sock n p m code = Some (n', code x) /\ net_ok n' /\
    n_socks n' = <[p := t']> (n_socks n) /\ P x t'.
Proof.
  intros [Hp Ha Hn] Ht Hdis Hrun Hm. rewrite (socks_delete _ _ _ Ht) in Hp.
  pose proof (@wp_run_sock (os O) (os_fresh O) SC (os_resolver O) op t
    (socks_of (delete p (n_socks n))) (n_sys n) Hp Hdis) as Hw.
  unfold wp in Hw. unfold wlp in Hm. rewrite Hrun in Hw. unfold mbind, M_bind in Hw. unfold on_sock. rewrite Ht.
  destruct (m t (n_sys n)) as [[[x t'] w']|]; [|done].
  eexists _, x, t'. split; [reflexivity|]. split_and!; [|done|done]. split; cbn [n_socks n_sys n_next].
  - by rewrite (socks_update _ _ _ _ Ht).
  - intros q Hq. apply Ha. destruct (decide (q = p)) as [->|]; [by eexists|].
    by rewrite lookup_insert_ne in Hq.
  - done.
Qed.

(** A new transport. *)
Lemma place_ok S next w t :
  sock_pool (option_list t ++ socks_of S) w -> 0 < next -> (forall p, is_Some (S !! p) -> 0 < p < next) ->
  net_ok (place (mkNet S next w) w t).1 /\
  match t with
  | None => (place (mkNet S next w) w t).2 = nullptr /\ n_socks (place (mkNet S next w) w t).1 = S
  | Some t' => let q := (place (mkNet S next w) w t).2 in
      q <> nullptr /\ S !! q = None /\ n_socks (place (mkNet S next w) w t).1 = <[q := t']> S
  end.
Proof.
  intros Hp Hn Ha. destruct t as [t|]; cbn [place fst snd n_socks n_next n_sys option_list app] in *.
  - assert (Hq : S !! next = None) by (apply eq_None_not_Some; intros Hs%Ha; lia).
    split; [|unfold nullptr; split_and!; [lia|done|done]]. split; cbn [n_socks n_sys n_next].
    + by rewrite socks_insert.
    + intros p Hs. destruct (decide (p = next)) as [->|]; [lia|].
      rewrite lookup_insert_ne in Hs by done. apply Ha in Hs. lia.
    + lia.
  - by split; [split|].
Qed.

Lemma net_not_null S w : net S w -> S !! nullptr = None.
Proof.
  intros (n & _ & Hok & <-). apply eq_None_not_Some. intros Hs%(no_addr _ Hok).
  unfold nullptr in *. lia.
Qed.
(** *** The methods of a transport, as a connection sees them *)
#[local] Instance NL : Library := NetLibrary.
Implicit Types (S : gmap Z SocketTransport) (w : World).

Lemma net_Create S w :
  net S w ->
  wp (@lib NL transport_Create [AInt nullptr]) (fun r w' =>
    r = nullptr /\ net S w' \/ r <> nullptr /\ S !! r = None /\ net (<[r := new_socket]> S) w') w.
Proof.
  intros Hn. eapply wp_mono; [eapply (wp_net S transport_Create _ (fun r S' =>
    r = nullptr /\ S' = S \/ r <> nullptr /\ S !! r = None /\ S' = <[r := new_socket]> S)); [done..|]|].
  - intros n [Hp Ha Hx] <-. cbn [net_step]. rewrite Z.eqb_refl.
    pose proof (@wp_Create (os O) _ (n_sys n) Hp) as Hw. unfold wp in Hw.
    destruct (@Socket.Create (os O) (n_sys n)) as [[t w']|] eqn:Ec; [|done].
    destruct n as [Sn next sys]. cbn [n_socks n_next n_sys] in *.
    destruct (place_ok Sn next w' t Hw Hx Ha) as [Hok Hpl].
    eexists _, _. split; [by rewrite surjective_pairing at 1|]. split; [exact Hok|].
    assert (Hnew : t = None \/ t = Some new_socket).
    { unfold Socket.Create, lib, mbind, M_bind, mret, M_ret in Ec. simpl in Ec.
      injection Ec as <- _. destruct (_ =? _); [by left|by right]. }
    destruct Hnew as [-> | ->]; [by left|right]. by destruct Hpl as (? & ? & ?).
  - intros r w' (S' & Hn' & [(-> & ->)|(? & ? & ->)]); [by left|by right].
Qed.

(** A method that keeps the transport where it is. *)
Lemma net_method {X} S p t f args (m : Method SocketTransport X) code op
    (P : X -> SocketTransport -> Prop) w :
  is_transport f = true -> net S w -> S !! p = Some t -> sock_disciplined op t ->
  (forall n, net_step n f args = on_sock n p m code) ->
  (forall v, @run_sock (os O) SC (os_resolver O) op t v = (r ← m t; mret [r.2]) v) ->
  (forall v, wlp (m t) (fun r _ => P r.1 r.2) v) ->
  wp (@lib NL f args) (fun r w' => exists x t', r = code x /\ P x t' /\ net (<[p := t']> S) w') w.
Proof.
  intros Hf Hn Ht Hd Hs Hrun HP. eapply wp_mono;
    [eapply (wp_net S f args (fun r S' => exists x t', r = code x /\ P x t' /\ S' = <[p := t']> S));
     [done..|]|].
  - intros n Hok <-. destruct (on_sock_ok n p t m code op P Hok Ht Hd (Hrun _) (HP _))
      as (n' & x & t' & Ho & Hok' & HS & HPx).
    exists n', (code x). rewrite Hs. split; [done|]. split; [done|]. by exists x, t'.
  - intros r w' (S' & Hn' & x & t' & -> & HPx & ->). by exists x, t'.
Qed.

Lemma net_SetConfig S p t ms w :
  net S w -> S !! p = Some t ->
  wp (@lib NL transport_SetConfig [AInt p; AInt ms]) (fun _ w' =>
    exists t', st_fd t' = st_fd t /\ net (<[p := t']> S) w') w.
Proof.
  intros Hn Ht. eapply wp_mono; [eapply (net_method S p t _ _ _ _ (SSetConfig (conn_transport_config ms))
    (fun _ t' => st_fd t' = st_fd t)); [done..|reflexivity|reflexivity|]|].
  - intros v. apply wp_wlp. unfold SetConfig. apply wp_meth_bind, wp_update, wp_meth_bind, wp_this. cbn [fst snd].
    destruct (0 <=? _); [|by apply wp_meth_ret].
    apply wp_call. eapply wp_mono; [apply wp_SetSocketOptions|]. by intros ? w' ->.
  - intros r w' (x & t' & _ & ? & ?). by exists t'.
Qed.

Lemma net_Connect S p t host port ms w :
  net S w -> S !! p = Some t -> st_fd t < 0 ->
  wp (@lib NL transport_Connect [AInt p; AStr host; AInt port; AInt ms]) (fun r w' =>
    exists t', (r = TRANSPORT_SUCCESS -> 0 <= st_fd t') /\ net (<[p := t']> S) w') w.
Proof.
  intros Hn Ht Hfd. eapply wp_mono; [eapply (net_method S p t _ _ _ result_code
    (SConnect (addr_IPv4 host port) (conn_transport_config ms))
    (fun x t' => x = SUCCESS -> 0 <= st_fd t')); [done..|reflexivity|reflexivity|]|].
  - intros v. apply wp_wlp. eapply wp_mono; [apply (wp_socket_Connect (os_bytes O)); exact Hfd|].
    intros [x t'] w' (Hc & _ & _). cbn [fst snd] in *. intros ->. rewrite bool_decide_eq_true_2 in Hc by done.
    apply andb_true_iff in Hc as [_ Hc]. by apply Z.leb_le.
  - intros r w' (x & t' & -> & Hx & ?). exists t'. split; [|done]. intros Hr. apply Hx. by destruct x.
Qed.

Lemma net_Bind S p t host port w :
  net S w -> S !! p = Some t -> st_fd t < 0 ->
  wp (@lib NL transport_Bind [AInt p; AStr host; AInt port]) (fun _ w' =>
    exists t', net (<[p := t']> S) w') w.
Proof.
  intros Hn Ht Hfd. eapply wp_mono; [eapply (net_method S p t _ _ _ result_code
    (SBind (addr_IPv4 host port) 128) (fun _ _ => True)); [done..|reflexivity|reflexivity|]|].
  - intros v. unfold wlp. by destruct (Bind _ _ _ v) as [[]|].
  - intros r w' (x & t' & _ & _ & ?). by exists t'.
Qed.

Lemma net_Close S p t w :
  net S w -> S !! p = Some t ->
  wp (@lib NL transport_Close [AInt p]) (fun _ w' => exists t', st_fd t' < 0 /\ net (<[p := t']> S) w') w.
Proof.
  intros Hn Ht. eapply wp_mono; [eapply (net_method S p t _ _ _ (fun _ => 0) SClose
    (fun _ t' => st_fd t' < 0)); [done..|reflexivity|reflexivity|]|].
  - intros v. apply wp_wlp, wp_Close.
  - intros r w' (x & t' & _ & ? & ?). by exists t'.
Qed.

Lemma net_GetNativeHandle S p t w :
  net S w -> S !! p = Some t ->
  wp (@lib NL transport_GetNativeHandle [AInt p]) (fun r w' => r = st_fd t /\ net S w') w.
Proof.
  intros Hn Ht. eapply wp_mono;
    [eapply (wp_net S transport_GetNativeHandle _ (fun r S' => r = st_fd t /\ S' = S)); [done..|]|].
  - intros n Hok <-. cbn [net_step]. unfold on_sock, this_, mret, M_ret. rewrite Ht. cbv beta iota.
    eexists _, _. split; [reflexivity|]. cbn [n_socks]. rewrite insert_id by done.
    split; [|done]. destruct Hok as [Hp Ha Hx]. by split.
  - by intros r w' (S' & Hn' & -> & ->).
Qed.

Lemma net_delete S p t w :
  net S w -> S !! p = Some t ->
  wp (@lib NL transport_delete [AInt p]) (fun _ w' => net (delete p S) w') w.
Proof.
  intros Hn Ht. eapply wp_mono;
    [eapply (wp_net S transport_delete _ (fun _ S' => S' = delete p S)); [done..|]|].
  - intros n [Hp Ha Hx] <-. cbn [net_step]. rewrite Ht. rewrite (socks_delete _ _ _ Ht) in Hp.
    pose proof (@wp_run_sock (os O) (os_fresh O) SC (os_resolver O) SDelete t _ _ Hp I) as Hw.
    unfold wp in Hw. cbn [run_sock] in Hw. unfold mbind at 1, M_bind at 1 in Hw.
    destruct (delete_socket t (n_sys n)) as [[[] w']|]; [|done].
    eexists _, _. split; [reflexivity|]. split; [|done]. split; cbn [n_socks n_sys n_next]; [done| |done].
    intros q Hq. apply Ha. destruct Hq as [x [_ Hq]%lookup_delete_Some]. by exists x.
  - by intros r w' (S' & Hn' & ->).
Qed.

(** An accepted transport is connected. *)
Lemma accepted_descriptor t v :
  wlp (@Socket.Accept (os O) (os_resolver O) t) (fun r _ =>
    r.2 = t /\ forall child, r.1 = Some child -> 0 <= st_fd child) v.
Proof.
  unfold Socket.Accept. apply wlp_meth_bind, wlp_this, wlp_meth_bind, wlp_this. cbn [fst snd].
  destruct (_ || _); [by apply wlp_meth_ret|].
  apply wlp_meth_bind, wlp_call, wlp_lib. intros fd _. cbn [fst snd].
  destruct (fd <? 0) eqn:E; [by apply wlp_meth_ret|]. bools.
  apply wlp_meth_bind, wlp_call, wlp_meth_bind, wlp_call. cbn [fst snd].
  unfold wlp at 1, gets. unfold wlp. destruct (SetNonBlocking fd _) as [[ret w1]|]; [|done].
  cbn [fst snd]. destruct (bool_decide _); [done|].
  apply wlp_meth_bind, wlp_call, wlp_lib. intros p _. cbn [fst snd]. destruct (p =? nullptr); [done|].
  apply wlp_meth_bind, wlp_this, wlp_meth_bind, wlp_call. cbn [fst snd].
  unfold wlp. destruct (peer_address _ _) as [[a w2]|]; [|done]. cbn [fst snd].
  split; [done|]. intros child [= <-]. by destruct a.
Qed.

Lemma net_Accept S p t w :
  net S w -> S !! p = Some t ->
  wp (@lib NL transport_Accept [AInt p]) (fun r w' =>
    r = nullptr /\ net S w' \/
    r <> nullptr /\ S !! r = None /\ exists child, 0 <= st_fd child /\ net (<[r := child]> S) w') w.
Proof.
  intros Hn Ht. eapply wp_mono; [eapply (wp_net S transport_Accept _ (fun r S' =>
    r = nullptr /\ S' = S \/
    r <> nullptr /\ S !! r = None /\ exists child, 0 <= st_fd child /\ S' = <[r := child]> S)); [done..|]|].
  - intros n [Hp Ha Hx] HS. cbn [net_step]. rewrite HS, Ht. rewrite HS in Hp, Ha.
    rewrite (socks_delete _ _ _ Ht) in Hp.
    pose proof (@wp_run_sock (os O) (os_fresh O) SC (os_resolver O) SAccept t _ _ Hp I) as Hw.
    pose proof (accepted_descriptor t (n_sys n)) as Hc.
    unfold wp in Hw. unfold wlp in Hc. cbn [run_sock] in Hw. unfold mbind, M_bind in Hw.
    destruct (Socket.Accept t (n_sys n)) as [[[child t'] w']|]; [|done].
    cbn [fst snd mret M_ret] in *. destruct Hc as [-> Hc]. rewrite insert_id by done.
    assert (Hpool : sock_pool (option_list child ++ socks_of S) w')
      by (rewrite (socks_delete _ _ _ Ht); by rewrite <- app_assoc in Hw).
    destruct (place_ok S (n_next n) w' child Hpool Hx Ha) as [Hok Hpl].
    eexists _, _. split; [by rewrite surjective_pairing at 1|]. split; [exact Hok|].
    destruct child as [child|]; [right|by left].
    destruct Hpl as (? & ? & ?). split; [done|]. split; [done|]. exists child. split; [by apply Hc|done].
  - intros r w' (S' & Hn' & [(-> & ->)|(? & ? & child & ? & ->)]); [by left|right].
    split; [done|]. split; [done|]. by exists child.
Qed.
End net.
