(* ===== verification/NetSafe.v ===== *)
(** * Connections over sockets: what they own

    Over the composition of [Network]: what each method of a connection does to its transport
    and to the descriptors of the process, and the invariant of any number of connections.
    Counterexamples show why the owner must connect once and must not drive the handshake of
    a closed connection. *)
From Stdlib Require Import ZArith Lia Ascii String.
From stdpp Require Import base list fin_maps gmap strings.
From S2P Require Import Prelude Errno Types FileCheck FileCtx Machine Adaptor Api Conn Lifecycle.
From S2P Require Import Config Connection ConnSafe ConnPool Socket SockSafe Local Network.
Open Scope Z_scope.

(** ** What a connection does to its transport *)

(** A step that makes no call on a transport. *)
Definition log_step (w w' : World) : Prop :=
  exists l, w_log w' = l ++ w_log w /\ Forall (fun e => is_transport (ev_fn e) = false) l.

Lemma inner_log_step engine w w' : inner_log engine (w_log w) (w_log w') -> log_step w w'.
Proof.
  intros (l & Hl & Hf). exists l. split; [done|]. eapply Forall_impl; [exact Hf|]. by intros e (? & _).
Qed.

#[export] Instance log_step_rel : StepRel log_step.
Proof.
  split; [split|].
  - intros w. by exists [].
  - intros w1 w2 w3 (l1 & E1 & F1) (l2 & E2 & F2). exists (l2 ++ l1).
    rewrite E2, E1, app_assoc. split; [done|]. by apply Forall_app.
  - intros w w' [Hl _]. by eapply inner_log_step.
Qed.

(** The connection keeps its transport and its configuration; and its state as well. *)
Definition same_transport (c c' : SCFConnectionImpl) : Prop :=
  m_transport c' = m_transport c /\ m_config c' = m_config c.
Definition same_conn (c c' : SCFConnectionImpl) : Prop :=
  same_transport c c' /\ m_state c' = m_state c.
#[export] Instance same_transport_preorder : PreOrder same_transport.
Proof. split; [done|]. intros c1 c2 c3 [? ?] [? ?]. split; congruence. Qed.
#[export] Instance same_conn_preorder : PreOrder same_conn.
Proof. split; [done|]. intros c1 c2 c3 [[? ?] ?] [[? ?] ?]. split; [split|]; congruence. Qed.

(** Connected, or about to be. *)
Definition linked (c : SCFConnectionImpl) : Prop :=
  m_state c = SCF_CONN_CONNECTING \/ m_state c = SCF_CONN_CONNECTED.

Section connections.
Context (O : Outside) {SC : SecureC} {A : TlsAdaptor} `{!TlsAdaptorLocal A} `{FileSystem}
  `{Decryptor} `{Uninit} `{FileAlloc}.
#[local] Instance NetL : Library := NetLibrary O.
Implicit Types (c : SCFConnectionImpl) (w : World) (F S : gmap Z SocketTransport).

Abbreviation net := (net O).

Lemma net_log_step S w w' : log_step w w' -> net S w -> net S w'.
Proof.
  intros (l & Hl & Hf) (n & Hr & Hok). exists n. split; [|done]. rewrite Hl. clear Hl.
  induction Hf as [|e l He Hf IH]; [done|]. cbn [replay app]. rewrite IH. cbn [mbind option_bind].
  by rewrite He.
Qed.

(** Calls of the connection that are not on a transport. *)
Lemma inert_lib same `{!PreOrder same} f args :
  is_transport f = false -> inert log_step same (call (lib f args)).
Proof.
  intros Hf. apply inert_call; [done|]. intros w. apply wlp_lib. intros r _.
  exists [mkEvent f args r]. by split; [|constructor].
Qed.
Lemma inert_SetCryptoEngine same `{!PreOrder same} e :
  inert log_step same (call (a_SetCryptoEngine e)).
Proof.
  apply inert_call; [done|]. intros w. eapply wlp_mono; [apply loc_a_SetCryptoEngine|].
  intros ? w' [Hl _]. by eapply inner_log_step.
Qed.
Lemma inert_log_engine same `{!PreOrder same} e :
  inert log_step same (call (OpenSSL.log_engine e)).
Proof.
  apply inert_call; [done|]. intros w. unfold OpenSSL.log_engine.
  do 2 (apply wlp_bind, wlp_lib; intros ? _). apply wlp_ret. eexists [_; _].
  split; [reflexivity|]. by repeat constructor.
Qed.
Hint Extern 1 (inert log_step _ (call (lib _ _))) => (apply inert_lib; [apply _|done]) : inert.
Hint Extern 1 (inert log_step _ (call (a_SetCryptoEngine _))) =>
  (apply inert_SetCryptoEngine; apply _) : inert.
Hint Extern 1 (inert log_step _ (call (OpenSSL.log_engine _))) =>
  (apply inert_log_engine; apply _) : inert.

Lemma inert_setup_engine : inert log_step same_conn setup_engine.
Proof. unfold setup_engine. inert. Qed.
Lemma inert_configure_ctx : inert log_step same_conn configure_ctx.
Proof. unfold configure_ctx. inert. Qed.
Hint Resolve inert_setup_engine inert_configure_ctx : inert.
Lemma inert_SetupPolicyContext : inert log_step same_conn SetupPolicyContext.
Proof. unfold SetupPolicyContext. inert. Qed.
Lemma inert_HandshakeStep : inert log_step same_transport HandshakeStep.
Proof. unfold HandshakeStep. inert. Qed.

(** *** The transport of one connection beside the transports [F] of the others *)
Definition own_net F p (t : option SocketTransport) w : Prop :=
  match t with
  | None => p = nullptr /\ net F w
  | Some t => p <> nullptr /\ F !! p = None /\ net (<[p := t]> F) w
  end.

(** The transport has a descriptor. *)
Definition up_net F c w : Prop := exists t, own_net F (m_transport c) (Some t) w /\ 0 <= st_fd t.

(** Whatever the connection has is its own; a linked connection has an open descriptor. *)
Definition conn_net F c w : Prop :=
  exists t, own_net F (m_transport c) t w /\ (linked c -> up_net F c w).

Lemma own_log_step F p t w w' : log_step w w' -> own_net F p t w -> own_net F p t w'.
Proof.
  intros Hs. destruct t as [t|]; simpl.
  - intros (? & ? & ?). split_and!; [done..|]. by eapply net_log_step.
  - intros [? ?]. split; [done|]. by eapply net_log_step.
Qed.

Lemma up_log_step F c c' w w' :
  log_step w w' -> m_transport c' = m_transport c -> up_net F c w -> up_net F c' w'.
Proof.
  intros Hs Ht (t & Ho & ?). exists t. rewrite Ht. split; [by eapply own_log_step|done].
Qed.

Lemma up_conn_net F c w : up_net F c w -> conn_net F c w.
Proof. intros Hu. pose proof Hu as (t & Ho & ?). by exists (Some t). Qed.

Lemma own_conn_net F c t w : own_net F (m_transport c) t w -> ~ linked c -> conn_net F c w.
Proof. intros Ho Hl. by exists t. Qed.

Lemma conn_log_step F c c' w w' :
  log_step w w' -> same_conn c c' -> conn_net F c w -> conn_net F c' w'.
Proof.
  intros Hs [[Ht _] Hst] (t & Ho & Hl). exists t. rewrite Ht. split; [by eapply own_log_step|].
  unfold linked in *. rewrite Hst. intros Hk. eapply up_log_step; [done|done|by apply Hl].
Qed.

Lemma own_unlinked F c t w : own_net F (m_transport c) t w -> conn_net F c w -> m_transport c = nullptr -> ~ linked c.
Proof. intros _ (t' & _ & Hl) Hn [Hk|Hk]; destruct Hl as (? & (? & _) & _); unfold linked; auto. Qed.

(** A method that makes no call on the transport keeps all this. *)
Lemma wlp_inert_conn {X} F (m : Meth X) c w :
  inert log_step same_conn m -> conn_net F c w ->
  wlp (m c) (fun r w' => conn_net F r.2 w' /\ same_conn c r.2) w.
Proof.
  intros Hm Hc. eapply wlp_mono; [apply Hm|]. intros r w' [Hs Hk].
  split; [by eapply conn_log_step|done].
Qed.

(** A method that needs the descriptor. *)
Lemma wlp_inert_up {X} F (m : Meth X) c w :
  inert log_step same_transport m -> up_net F c w ->
  wlp (m c) (fun r w' => up_net F r.2 w' /\ same_transport c r.2) w.
Proof.
  intros Hm Hc. eapply wlp_mono; [apply Hm|]. intros r w' [Hs Hk].
  split; [|done]. destruct Hk as [Ht _]. by eapply up_log_step.
Qed.

(** *** The steps that call the transport *)

(** A new connection with the default transport. *)
Definition default_transport c : Prop := cc_transportFactory (m_config c) = nullptr.

Lemma wlp_net_call {X} (m : M X) (Q : X -> World -> Prop) (R : X -> World -> Prop) w :
  wp m R w -> (forall x w', R x w' -> Q x w') -> wlp m Q w.
Proof. intros Hm HQ. apply wp_wlp. by eapply wp_mono. Qed.

Lemma wlp_SetupTransportClient F host port c w :
  net F w -> m_transport c = nullptr -> default_transport c -> ~ linked c ->
  wlp (SetupTransportClient host port c) (fun r w' =>
    m_config r.2 = m_config c /\ conn_net F r.2 w' /\
    if decide (r.1 = SCF_SUCCESS) then up_net F r.2 w' else ~ linked r.2) w.
Proof.
  intros Hn Ht Hf Hl. unfold SetupTransportClient. apply wlp_meth_bind, wlp_this, wlp_meth_bind, wlp_call.
  cbn [fst snd]. unfold default_transport in Hf. rewrite Hf.
  eapply wlp_net_call; [by apply net_Create|]. intros p w1 Hp.
  apply wlp_meth_bind, wlp_update. cbn [fst snd]. destruct Hp as [(-> & Hn1)|(Hp & HF & Hn1)].
  { rewrite Z.eqb_refl. apply wlp_meth_ret. cbn [fst snd]. split; [done|]. split; [|done].
    by apply (own_conn_net F _ None). }
  rewrite (proj2 (Z.eqb_neq _ _) Hp). apply wlp_meth_bind, wlp_call.
  eapply wlp_net_call; [eapply net_SetConfig; [done|apply lookup_insert_eq]|].
  intros ? w2 (t2 & Hfd & Hn2). rewrite insert_insert_eq in Hn2.
  apply wlp_meth_bind, wlp_call. cbn [fst snd].
  eapply wlp_net_call; [eapply net_Connect; [done|apply lookup_insert_eq|by rewrite Hfd]|].
  intros tRet w3 (t3 & Hok & Hn3). rewrite insert_insert_eq in Hn3. cbn [fst snd].
  destruct (tRet =? TRANSPORT_SUCCESS) eqn:E; bools; cbn [negb].
  - apply wlp_meth_bind, wlp_update, wlp_meth_ret. cbn [fst snd].
    assert (Hup : up_net F (set_m_state SCF_CONN_CONNECTING (set_m_transport p c)) w3)
      by (exists t3; split; [by split_and!|by apply Hok]).
    split; [done|]. split; [by apply up_conn_net|by rewrite decide_True].
  - apply wlp_meth_ret. cbn [fst snd]. split; [done|].
    assert (Hl' : ~ linked (set_m_transport p c)) by done.
    split; [|by rewrite decide_False]. apply (own_conn_net F _ (Some t3)); [by split_and!|done].
Qed.

Lemma wlp_SetupTransportServer F host port c w :
  net F w -> m_transport c = nullptr -> default_transport c -> ~ linked c ->
  wlp (SetupTransportServer host port c) (fun r w' =>
    m_config r.2 = m_config c /\ conn_net F r.2 w' /\ ~ linked r.2) w.
Proof.
  intros Hn Ht Hf Hl. unfold SetupTransportServer. apply wlp_meth_bind, wlp_this, wlp_meth_bind, wlp_call.
  cbn [fst snd]. unfold default_transport in Hf. rewrite Hf.
  eapply wlp_net_call; [by apply net_Create|]. intros p w1 Hp.
  apply wlp_meth_bind, wlp_update. cbn [fst snd]. destruct Hp as [(-> & Hn1)|(Hp & HF & Hn1)].
  { rewrite Z.eqb_refl. apply wlp_meth_ret. cbn [fst snd]. split; [done|]. split; [|done].
    by apply (own_conn_net F _ None). }
  rewrite (proj2 (Z.eqb_neq _ _) Hp). apply wlp_meth_bind, wlp_call.
  eapply wlp_net_call; [eapply net_SetConfig; [done|apply lookup_insert_eq]|].
  intros ? w2 (t2 & Hfd & Hn2). rewrite insert_insert_eq in Hn2.
  apply wlp_meth_bind, wlp_call. cbn [fst snd].
  eapply wlp_net_call; [eapply net_Bind; [done|apply lookup_insert_eq|by rewrite Hfd]|].
  intros tRet w3 (t3 & Hn3). rewrite insert_insert_eq in Hn3. cbn [fst snd].
  destruct (negb _).
  - apply wlp_meth_ret. cbn [fst snd]. assert (Hl' : ~ linked (set_m_transport p c)) by done.
    split; [done|]. split; [|done]. apply (own_conn_net F _ (Some t3)); [by split_and!|done].
  - apply wlp_meth_bind, wlp_update, wlp_meth_ret. cbn [fst snd].
    assert (Hl' : ~ linked (set_m_state SCF_CONN_INIT (set_m_transport p c))) by by intros [].
    split; [done|]. split; [|done]. apply (own_conn_net F _ (Some t3)); [by split_and!|done].
Qed.

Lemma wlp_CreatePolicyObj_up F c w :
  up_net F c w ->
  wlp (CreatePolicyObj c) (fun r w' => up_net F r.2 w' /\ same_transport c r.2) w.
Proof.
  intros Hu. unfold CreatePolicyObj.
  assert (Hobj : inert log_step same_transport
            (ctx ← this_ m_policyCtx; obj ← call (SCF_CreatePolicyObj ctx);
             _ ← update (set_m_policyObj obj); mret obj)) by inert.
  pose proof (wlp_inert_up F _ c w Hobj Hu) as Hw. revert Hw.
  unfold wlp, call, this_, update, mbind, Method_bind, mret, Method_ret, mbind, M_bind, mret, M_ret.
  cbv beta iota. cbn [fst snd]. destruct (SCF_CreatePolicyObj _ w) as [[obj w1]|]; [|done].
  cbn [fst snd]. intros [Hu1 Hs1]. destruct (obj =? nullptr); [done|].
  set (c1 := set_m_policyObj obj c) in *. clearbody c1.
  pose proof Hu1 as (t & (Hp & HF & Hn) & Hfd).
  pose proof (net_GetNativeHandle O _ _ _ _ Hn (lookup_insert_eq F (m_transport c1) t)) as Hg.
  unfold wp in Hg. destruct (lib transport_GetNativeHandle _ w1) as [[fd w2]|]; [|done].
  destruct Hg as [-> Hn2]. cbn [fst snd].
  assert (Hu2 : up_net F c1 w2) by (exists t; by split_and!).
  destruct (_ <? 0); [done|].
  pose proof (local_SCF_SetFd obj (st_fd t) w2) as Hset. unfold wlp in Hset.
  destruct (SCF_SetFd _ _ w2) as [[ret w3]|]; [|done]. apply sr_local in Hset. cbn [fst snd].
  destruct (negb _); (split; [by eapply up_log_step|done]).
Qed.

(** The transport is closed, deleted. *)
Lemma wlp_close_transport F p t w :
  own_net F p (Some t) w ->
  wlp (lib transport_Close [AInt p]) (fun _ w' => exists t', own_net F p (Some t') w') w.
Proof.
  intros (Hp & HF & Hn). eapply wlp_net_call; [by eapply net_Close; [|apply lookup_insert_eq]|].
  intros r w' (t' & _ & Hn'). rewrite insert_insert_eq in Hn'. by exists t'.
Qed.

Lemma wlp_delete_transport F p t w :
  own_net F p (Some t) w -> wlp (lib transport_delete [AInt p]) (fun _ w' => net F w') w.
Proof.
  intros (Hp & HF & Hn). eapply wlp_net_call; [by eapply net_delete; [|apply lookup_insert_eq]|].
  intros r w'. by rewrite delete_insert_id.
Qed.

Lemma own_some F p t w : p <> nullptr -> own_net F p t w -> exists t', own_net F p (Some t') w.
Proof. destruct t as [t|]; [by exists t|]. by intros ? [? ?]. Qed.

(** A step beside the transport. *)
Lemma wlp_own_bind {X Y} F t (m : Meth X) (f : X -> Meth Y) c w Q :
  inert log_step same_transport m -> own_net F (m_transport c) t w ->
  (forall x c' w', same_transport c c' -> own_net F (m_transport c') t w' -> wlp (f x c') Q w') ->
  wlp ((m ≫= f) c) Q w.
Proof.
  intros Hm Ho Hf. apply wlp_meth_bind. eapply wlp_mono; [apply Hm|]. intros [x c'] w' [Hl Hs].
  apply Hf; [done|]. destruct Hs as [-> _]. by eapply own_log_step.
Qed.

Lemma wlp_Close_net F c w :
  conn_net F c w ->
  wlp (Connection.Close c) (fun r w' => conn_net F r.2 w' /\ same_transport c r.2) w.
Proof.
  intros Hc. unfold Connection.Close. apply wlp_meth_bind, wlp_this. cbn [fst snd].
  destruct (_ || _); [by apply wlp_meth_ret|].
  destruct Hc as (t & Ho & _). eapply wlp_own_bind; [inert|done|]. intros _ c1 w1 S1 O1.
  apply wlp_meth_bind, wlp_this. cbn [fst snd].
  eapply wlp_own_bind; [inert|done|]. intros ret c2 w2 S2 O2.
  apply wlp_meth_bind, wlp_this. cbn [fst snd]. apply wlp_meth_bind.
  assert (Hend : forall w3 t3, own_net F (m_transport c2) t3 w3 ->
    wlp ((_ ← update (set_m_state SCF_CONN_CLOSED); _ ← update (set_m_handshakeDone false); mret ret) c2)
      (fun r w' => conn_net F r.2 w' /\ same_transport c r.2) w3).
  { intros w3 t3 O3. apply wlp_meth_bind, wlp_update, wlp_meth_bind, wlp_update, wlp_meth_ret.
    cbn [fst snd]. split; [|by etransitivity; [exact S1|]].
    apply (own_conn_net F _ t3); [done|by intros []]. }
  destruct (m_transport c2 =? nullptr) eqn:E; bools; cbn [negb].
  - apply wlp_meth_ret. by eapply Hend.
  - destruct (own_some _ _ _ _ E O2) as [t' O2']. apply wlp_call.
    eapply wlp_mono; [by eapply wlp_close_transport|]. intros r w3 [t3 O3]. by eapply Hend.
Qed.

(** After [Cleanup] the transport is gone. *)
Definition gone F c (r : unit * SCFConnectionImpl) w : Prop :=
  net F w /\ m_transport r.2 = nullptr /\ m_state r.2 = SCF_CONN_CLOSED /\ m_config r.2 = m_config c.

Lemma wlp_Cleanup_net F c w : conn_net F c w -> wlp (Cleanup c) (gone F c) w.
Proof.
  intros Hc. unfold Cleanup. apply wlp_meth_bind, wlp_this. cbn [fst snd]. apply wlp_meth_bind.
  match goal with |- wlp (?m c) _ _ => assert (Hcl : wlp (m c) (fun r w' =>
    conn_net F r.2 w' /\ same_transport c r.2) w) end.
  { destruct (_ || _); [by apply wlp_Close_net|by apply wlp_meth_ret]. }
  eapply wlp_mono; [exact Hcl|]. intros [r1 c1] w1 [(t & O1 & _) S1]. cbn [fst snd] in *. clear Hcl Hc.
  eapply wlp_own_bind; [inert|exact O1|]. intros obj c2 w2 S2 O2.
  eapply wlp_own_bind; [inert|exact O2|]. intros ? c3 w3 S3 O3.
  eapply wlp_own_bind; [inert|exact O3|]. intros ctx c4 w4 S4 O4.
  eapply wlp_own_bind; [inert|exact O4|]. intros ? c5 w5 S5 O5.
  assert (G5 : m_config c5 = m_config c)
    by (destruct S1, S2, S3, S4, S5; congruence).
  clear S1 S2 S3 S4 S5. apply wlp_meth_bind, wlp_this. cbn [fst snd]. apply wlp_meth_bind.
  assert (Hend : forall c6 w6, own_net F (m_transport c6) None w6 -> m_config c6 = m_config c ->
    wlp ((engine ← this_ m_cryptoEngine;
          owns ← this_ m_ownsCryptoEngine;
          _ ← (if negb (engine =? nullptr) && owns
               then up ← call (gets w_adaptor);
                    _ ← (if (up : bool) then call (a_SetCryptoEngine nullptr) else mret tt);
                    _ ← call (lib engine_Finalize [AInt engine]);
                    _ ← call (lib engine_delete [AInt engine]);
                    _ ← update (set_m_cryptoEngine nullptr);
                    update (set_m_ownsCryptoEngine false)
               else mret tt);
          update (set_m_state SCF_CONN_CLOSED)) c6) (gone F c) w6).
  { intros c6 w6 O6 G6. eapply wlp_own_bind; [inert|exact O6|]. intros engine c7 w7 S7 O7.
    eapply wlp_own_bind; [inert|exact O7|]. intros owns c8 w8 S8 O8.
    eapply wlp_own_bind; [inert|exact O8|]. intros ? c9 w9 S9 [T9 N9].
    apply wlp_update. split_and!; [done|done|done|]. destruct S7, S8, S9. simpl. congruence. }
  destruct (m_transport c5 =? nullptr) eqn:E; bools; cbn [negb].
  - apply wlp_meth_ret. cbn [fst snd]. apply Hend; [|done].
    destruct t; [by destruct O5|done].
  - destruct (own_some _ _ _ _ E O5) as [t5 O5']. apply wlp_meth_bind, wlp_call.
    eapply wlp_mono; [by eapply wlp_close_transport|]. intros ? w6 [t6 O6]. cbn [fst snd].
    apply wlp_meth_bind, wlp_call. eapply wlp_mono; [by eapply wlp_delete_transport|].
    intros ? w7 N7. apply wlp_update. by apply Hend.
Qed.

(** *** The public methods *)

Lemma gone_conn_net F c r w : gone F c r w -> conn_net F r.2 w.
Proof.
  intros (Hn & Ht & Hs & _). apply (own_conn_net F _ None); [by split|].
  unfold linked. rewrite Hs. by intros [].
Qed.

(** Set the error state, clean up and report. *)
Lemma wlp_fail_net F ret c w :
  conn_net F c w ->
  wlp ((_ ← update (set_m_state SCF_CONN_ERROR); _ ← Cleanup; mret ret) c)
    (fun (r : Z * SCFConnectionImpl) w' => conn_net F r.2 w' /\ m_config r.2 = m_config c) w.
Proof.
  intros (t & Ho & _). apply wlp_meth_bind, wlp_update. cbn [fst snd]. apply wlp_meth_bind.
  eapply wlp_mono; [apply (wlp_Cleanup_net F); apply (own_conn_net F _ t); [exact Ho|by intros []]|].
  intros r w' Hg. apply wlp_meth_ret. split; [by eapply gone_conn_net|]. by destruct Hg as (_ & _ & _ & ?).
Qed.

Lemma not_linked F c w : conn_net F c w -> m_transport c = nullptr -> ~ linked c /\ net F w.
Proof.
  intros (t & Ho & Hl) Ht. rewrite Ht in Ho. destruct t as [t|]; [by destruct Ho|].
  destruct Ho as [_ Hn]. split; [|done]. intros Hk. destruct (Hl Hk) as (t' & (Hp & _) & _). done.
Qed.

(** Steps 1 and 2 of [Connect] and [Listen]: the policy, for a connection without transport. *)
Lemma wlp_policy_first F c w :
  conn_net F c w -> m_transport c = nullptr ->
  wlp (SetupPolicyContext c) (fun r w' => net F w' /\ m_transport r.2 = nullptr /\
    m_config r.2 = m_config c /\ ~ linked r.2) w.
Proof.
  intros Hc Ht. eapply wlp_mono;
    [apply (wlp_inert_conn F _ c w inert_SetupPolicyContext Hc)|].
  intros r w' [Hc' [[T G] _]]. destruct (not_linked _ _ _ Hc') as [? ?]; [by rewrite T|].
  split_and!; [done|congruence|done|done].
Qed.

Lemma wlp_Connect_net F host port c w :
  conn_net F c w -> m_transport c = nullptr -> default_transport c ->
  wlp (Connection.Connect host port c)
    (fun r w' => conn_net F r.2 w' /\ m_config r.2 = m_config c) w.
Proof.
  intros Hc Ht Hd. unfold Connection.Connect. apply wlp_meth_bind.
  eapply wlp_mono; [by apply (wlp_policy_first F)|]. intros [ret c1] w1 (N1 & T1 & G1 & L1).
  cbn [fst snd] in *. destruct (negb _).
  { apply wlp_meth_bind, wlp_update, wlp_meth_ret. cbn [fst snd]. split; [|done].
    apply (own_conn_net F _ None); [by split|by intros []]. }
  apply wlp_meth_bind. eapply wlp_mono;
    [apply (wlp_SetupTransportClient F); [done|done|unfold default_transport; by rewrite G1|done]|].
  intros [ret2 c2] w2 (G2 & C2 & U2). cbn [fst snd] in *. rewrite <- G1, <- G2.
  destruct (ret2 =? SCF_SUCCESS) eqn:E; bools; cbn [negb]; [|by apply wlp_fail_net].
  rewrite decide_True in U2 by done. apply wlp_meth_bind.
  eapply wlp_mono; [by apply wlp_CreatePolicyObj_up|]. intros [ret3 c3] w3 [U3 [T3 G3]].
  cbn [fst snd] in *. rewrite <- G3.
  destruct (negb _); [apply wlp_fail_net; by apply up_conn_net|].
  eapply wlp_mono; [apply (wlp_inert_up F _ _ _ inert_HandshakeStep U3)|].
  intros r w4 [U4 [_ G4]]. split; [by apply up_conn_net|done].
Qed.

Lemma wlp_Listen_net F host port c w :
  conn_net F c w -> m_transport c = nullptr -> default_transport c ->
  wlp (Listen host port c)
    (fun r w' => conn_net F r.2 w' /\ m_config r.2 = m_config c) w.
Proof.
  intros Hc Ht Hd. unfold Listen. apply wlp_meth_bind.
  eapply wlp_mono; [by apply (wlp_policy_first F)|]. intros [ret c1] w1 (N1 & T1 & G1 & L1).
  cbn [fst snd] in *. destruct (negb _).
  { apply wlp_meth_bind, wlp_update, wlp_meth_ret. cbn [fst snd]. split; [|done].
    apply (own_conn_net F _ None); [by split|by intros []]. }
  apply wlp_meth_bind. eapply wlp_mono;
    [apply (wlp_SetupTransportServer F); [done|done|unfold default_transport; by rewrite G1|done]|].
  intros [ret2 c2] w2 (G2 & (t & O2 & _) & U2). cbn [fst snd] in *. rewrite <- G1, <- G2.
  destruct (negb _); [|apply wlp_meth_ret; split; [by apply (own_conn_net F _ t)|done]].
  apply wlp_meth_bind, wlp_update, wlp_meth_ret. cbn [fst snd]. split; [|done].
  apply (own_conn_net F _ t); [done|by intros []].
Qed.

Lemma wlp_accept_child_net F c w :
  up_net F c w ->
  wlp (accept_child c) (fun r w' => up_net F r.2 w' /\ m_config r.2 = m_config c) w.
Proof.
  intros Hu. unfold accept_child. apply wlp_meth_bind.
  eapply wlp_mono; [apply inert_SetupPolicyContext|]. intros [ret c1] w1 [L1 [[T1 G1] _]].
  cbn [fst snd] in *. apply (up_log_step F c c1 w w1 L1 T1) in Hu as U1. rewrite <- G1.
  destruct (negb _); [by apply wlp_meth_ret|]. apply wlp_meth_bind.
  eapply wlp_mono; [by apply wlp_CreatePolicyObj_up|]. intros [ret2 c2] w2 [U2 [T2 G2]].
  cbn [fst snd] in *. rewrite <- G2. destruct (negb _); [by apply wlp_meth_ret|]. apply wlp_meth_bind.
  eapply wlp_mono; [apply (wlp_inert_up F _ _ _ inert_HandshakeStep U2)|].
  intros [ret3 c3] w3 [U3 [T3 G3]]. cbn [fst snd] in *. rewrite <- G3.
  assert (Hin : inert log_step same_transport (return_if (ret3 =? SCF_SSL_ERR_WANT_READ) ||
      (ret3 =? SCF_SSL_ERR_WANT_WRITE) with (_ ← update (set_m_state SCF_CONN_CONNECTING); mret true) ;;
    return_if negb (ret3 =? SCF_SUCCESS) with (mret false) ;;
    _ ← update (set_m_state SCF_CONN_CONNECTED); _ ← update (set_m_handshakeDone true); mret true)) by inert.
  eapply wlp_mono; [apply (wlp_inert_up F _ _ _ Hin U3)|]. by intros r w4 [? [_ ?]].
Qed.

(** What [Accept] leaves: the listener, as it was, and perhaps a new connection beside it. *)
Definition accepted_net F c (r : option SCFConnectionImpl * SCFConnectionImpl) w : Prop :=
  r.2 = c /\
  match r.1 with
  | None => conn_net F c w
  | Some c' => m_config c' = m_config c /\ m_transport c <> nullptr /\
      exists t, F !! m_transport c = None /\ conn_net (<[m_transport c := t]> F) c' w /\
                (linked c -> 0 <= st_fd t)
  end.

Lemma wlp_Accept_net F c w :
  conn_net F c w -> wlp (Connection.Accept c) (accepted_net F c) w.
Proof.
  intros Hc. unfold Connection.Accept. do 2 apply wlp_meth_bind, wlp_this. cbn [fst snd].
  destruct (negb _ || _) eqn:E; [by apply wlp_meth_ret|]. bools.
  pose proof Hc as (t0 & O0 & Hl). destruct t0 as [t|]; [|by destruct O0]. destruct O0 as (Hp & HF & Hn).
  assert (Hfd : linked c -> 0 <= st_fd t).
  { intros (t' & (_ & _ & n' & Hr' & _ & Hs') & Hk)%Hl. destruct Hn as (n & Hr & _ & Hs).
    rewrite Hr in Hr'. injection Hr' as <-. rewrite Hs in Hs'.
    apply (f_equal (lookup (m_transport c))) in Hs'. rewrite !lookup_insert_eq in Hs'.
    by injection Hs' as ->. }
  assert (Hback : forall w', net (<[m_transport c := t]> F) w' -> conn_net F c w').
  { intros w' N'. exists (Some t). split; [by split_and!|]. intros Hk. exists t. split; [by split_and!|auto]. }
  set (F' := <[m_transport c := t]> F) in *. apply wlp_meth_bind, wlp_call.
  eapply wlp_net_call; [eapply net_Accept; [exact Hn|apply lookup_insert_eq]|].
  intros q w1 Hq. cbn [fst snd]. destruct Hq as [(-> & N1)|(Hq & HF' & child & Hcf & N1)].
  { rewrite Z.eqb_refl. apply wlp_meth_ret. split; [done|]. by apply Hback. }
  rewrite (proj2 (Z.eqb_neq _ _) Hq). apply wlp_meth_bind, wlp_this, wlp_meth_bind, wlp_call, wlp_lib.
  intros addr _. cbn [fst snd].
  assert (O1 : own_net F' q (Some child) (set_log (mkEvent op_new [AStr "SCFConnectionImpl"] addr :: w_log w1) w1)).
  { split_and!; [done|done|]. eapply net_log_step; [|exact N1]. eexists [_]. by split; [|constructor]. }
  destruct (addr =? nullptr).
  { apply wlp_meth_bind, wlp_call. eapply wlp_mono; [by eapply wlp_close_transport|].
    intros ? w2 [t2 O2]. apply wlp_meth_bind, wlp_call. eapply wlp_mono; [by eapply wlp_delete_transport|].
    intros ? w3 N3. apply wlp_meth_ret. split; [done|]. by apply Hback. }
  apply wlp_meth_bind, wlp_this. cbn [fst snd]. apply wlp_meth_bind, wlp_call. unfold wlp at 1, gets.
  cbn [fst snd]. apply wlp_meth_bind.
  match goal with |- wlp (?m c) _ _ => assert (Hin : inert log_step eq m) by inert end.
  eapply wlp_mono; [apply Hin|]. intros [[] c0] w2 [L2 <-]. cbn [fst snd].
  apply (own_log_step _ _ _ _ _ L2) in O1. apply wlp_meth_bind, wlp_call.
  match goal with |- wlp (accept_child ?n) _ _ => set (newConn := n) end.
  assert (Hnew : m_transport newConn = q /\ m_config newConn = m_config c)
    by (unfold newConn; by destruct (negb (m_cryptoEngine c =? nullptr))).
  destruct Hnew as [Tn Gn]. rewrite <- Tn in O1.
  eapply wlp_mono; [apply (wlp_accept_child_net F'); by exists child|].
  intros [keep c3] w3 [U3 G3]. cbn [fst snd] in *. destruct keep.
  - apply wlp_meth_ret. split; [done|]. cbn [fst]. split; [congruence|]. split; [done|].
    exists t. split; [done|]. split; [by apply up_conn_net|done].
  - unfold destroy. apply wlp_meth_bind, wlp_call, wlp_bind.
    eapply wlp_mono; [by apply wlp_Cleanup_net, up_conn_net|]. intros r w4 (N4 & _).
    apply wlp_ret, wlp_meth_ret. split; [done|]. by apply Hback.
Qed.

(** The handshake is driven on a linked connection only, or on one without a TLS object, where
    it does nothing: after [Close] the TLS object still knows the number of the descriptor
    that was closed. *)
Definition use_ok (u : UseOp) c : Prop :=
  match u with UHandshakeStep => linked c \/ m_policyObj c = nullptr | _ => True end.

Lemma wlp_GetNativeHandle_net F c w :
  conn_net F c w -> wlp (Connection.GetNativeHandle c) (fun r w' => conn_net F r.2 w' /\ m_config r.2 = m_config c) w.
Proof.
  intros Hc. unfold Connection.GetNativeHandle. apply wlp_meth_bind, wlp_this. cbn [fst snd].
  destruct (m_transport c =? nullptr) eqn:E; bools; cbn [negb]; [by apply wlp_meth_ret|].
  pose proof Hc as (t0 & O0 & Hl). destruct t0 as [t|]; [|by destruct O0]. destruct O0 as (Hp & HF & Hn).
  apply wlp_call. eapply wlp_net_call; [eapply net_GetNativeHandle; [exact Hn|apply lookup_insert_eq]|].
  intros r w' [_ N']. split; [|done]. exists (Some t). split; [by split_and!|].
  intros (t' & (_ & _ & n' & Hr' & _ & Hs') & Hk)%Hl. destruct Hn as (n & Hr & _ & Hs).
  rewrite Hr in Hr'. injection Hr' as <-. rewrite Hs in Hs'.
  apply (f_equal (lookup (m_transport c))) in Hs'. rewrite !lookup_insert_eq in Hs'.
  injection Hs' as ->. exists t'. by split_and!.
Qed.

Lemma wlp_use_net F u c w :
  conn_net F c w -> use_ok u c ->
  wlp (use u c) (fun r w' => conn_net F r.2 w' /\ m_config r.2 = m_config c) w.
Proof.
  intros Hc Hu.
  assert (Hin : forall X (m : Meth X), inert log_step same_conn m ->
    wlp (ignore m c) (fun r w' => conn_net F r.2 w' /\ m_config r.2 = m_config c) w).
  { intros X m Hm. unfold ignore. apply wlp_meth_bind.
    eapply wlp_mono; [by apply (wlp_inert_conn F)|]. intros r w' [? [[_ ?] _]]. by apply wlp_meth_ret. }
  destruct u; cbn [use].
  - unfold ignore. apply wlp_meth_bind. destruct Hu as [Hk|Hno].
    + destruct Hc as (t & _ & Hl).
      eapply wlp_mono; [apply (wlp_inert_up F _ _ _ inert_HandshakeStep (Hl Hk))|].
      intros r w' [? [_ ?]]. apply wlp_meth_ret. split; [by apply up_conn_net|done].
    + unfold HandshakeStep. apply wlp_meth_bind, wlp_this. cbn [fst snd]. rewrite Hno. by do 2 apply wlp_meth_ret.
  - unfold ignore. apply wlp_meth_bind. eapply wlp_mono; [by apply (wlp_Close_net F)|].
    intros r w' [? [_ ?]]. by apply wlp_meth_ret.
  - apply Hin. unfold Connection.Read. inert.
  - apply Hin. unfold Connection.Write. inert.
  - apply Hin. unfold GetTLSVersion. inert.
  - apply Hin. unfold GetPeerCertificate. inert.
  - unfold ignore. apply wlp_meth_bind. eapply wlp_mono; [by apply (wlp_GetNativeHandle_net F)|].
    intros r w' ?. by apply wlp_meth_ret.
  - apply Hin. unfold TriggerKeyUpdate. inert.
  - assert (Hs : inert log_step same_conn (SetUserData userData)) by (unfold SetUserData; inert).
    eapply wlp_mono; [by apply (wlp_inert_conn F)|]. by intros r w' [? [[_ ?] _]].
Qed.

(** *** Many connections *)

(** The transports that exist are those the connections hold, each held by one. *)
Record held_by (cs : list SCFConnectionImpl) S : Prop := {
  hb_nodup : NoDup (handles m_transport cs);
  hb_dom : dom S = list_to_set (handles m_transport cs);
  hb_conn : forall c, c ∈ cs -> default_transport c /\
    (linked c -> exists t, S !! m_transport c = Some t /\ 0 <= st_fd t)
}.

#[export] Instance held_by_perm : Proper ((≡ₚ) ==> (=) ==> iff) held_by.
Proof.
  assert (Himp : forall cs cs' S, cs ≡ₚ cs' -> held_by cs S -> held_by cs' S).
  { intros cs cs' S Hp [Hn Hd Hc]. split; [by rewrite <- Hp| |by setoid_rewrite <- Hp].
    rewrite Hd. apply set_eq. intros x. rewrite !elem_of_list_to_set. by rewrite Hp. }
  intros cs cs' Hp S ? <-. split; by apply Himp.
Qed.

Lemma held_split c cs S w :
  held_by (c :: cs) S -> net S w -> exists F, conn_net F c w /\ held_by cs F.
Proof.
  intros [Hn Hd Hc] HS. pose proof (net_not_null O S w HS) as Hz.
  apply handles_nodup in Hn as [Hnot Hn]. destruct (Hc c (list_elem_of_here _ _)) as [_ Hl].
  assert (Hrest : forall c', c' ∈ cs -> default_transport c' /\ (linked c' ->
    exists t, S !! m_transport c' = Some t /\ 0 <= st_fd t)) by (intros; apply Hc; by right).
  rewrite handles_cons in Hd. destruct (decide (m_transport c <> nullptr)) as [Hp|Hp].
  - assert (Hin : is_Some (S !! m_transport c)) by (apply elem_of_dom; set_solver).
    destruct Hin as [t Ht]. exists (delete (m_transport c) S). split.
    + assert (Ho : own_net (delete (m_transport c) S) (m_transport c) (Some t) w).
      { split_and!; [done|apply lookup_delete_eq|]. rewrite insert_delete_eq. by rewrite insert_id. }
      exists (Some t). split; [done|]. intros (t' & Ht' & Hfd)%Hl. exists t. split; [done|congruence].
    + split; [done| |].
      * rewrite dom_delete_L, Hd. specialize (Hnot Hp). set_solver.
      * intros c' Hc'. destruct (Hrest c' Hc') as [? Hl']. split; [done|].
        intros (t' & Ht' & ?)%Hl'. exists t'. split; [|done]. rewrite lookup_delete_ne; [done|].
        intros Heq. apply (Hnot Hp). unfold handles. apply list_elem_of_filter. split; [done|].
        rewrite Heq. by apply list_elem_of_fmap_2.
  - assert (Hp' : m_transport c = nullptr) by (destruct (decide (m_transport c = nullptr)); tauto).
    exists S. split.
    + exists None. split; [by split|]. intros (t & Ht & _)%Hl. rewrite Hp' in Ht. congruence.
    + split; [done|done|done].
Qed.

Lemma held_join F c cs w :
  conn_net F c w -> default_transport c -> held_by cs F -> exists S, held_by (c :: cs) S /\ net S w.
Proof.
  intros (t & Ho & Hl) Hd [Hn HF Hc]. destruct t as [t|].
  - destruct Ho as (Hp & Hnone & HN). exists (<[m_transport c := t]> F). split; [|done].
    assert (Hnot : m_transport c ∉ handles m_transport cs).
    { intros Hin. apply not_elem_of_dom in Hnone. apply Hnone. rewrite HF.
      by apply elem_of_list_to_set. }
    split.
    + apply handles_nodup. by split.
    + rewrite handles_cons, decide_True by done. rewrite dom_insert_L, HF. set_solver.
    + intros c' [->|Hc']%elem_of_cons.
      * split; [done|]. intros (t' & (_ & _ & n' & Hr' & _ & Hs') & Hfd)%Hl.
        exists t'. split; [|done]. destruct HN as (n & Hr & _ & Hs). rewrite Hr in Hr'.
        injection Hr' as <-. rewrite <- Hs, Hs'. apply lookup_insert_eq.
      * destruct (Hc c' Hc') as [? Hl']. split; [done|]. intros (t' & Ht' & ?)%Hl'.
        exists t'. split; [|done]. rewrite lookup_insert_ne; [done|]. intros Heq. congruence.
  - destruct Ho as [Hp HN]. exists F. split; [|done]. split.
    + apply handles_nodup. by split.
    + rewrite handles_cons, decide_False by tauto. done.
    + intros c' [->|Hc']%elem_of_cons; [|by apply Hc]. split; [done|].
      intros (t' & (? & _) & _)%Hl. done.
Qed.

(** Which operations the owner of a connection may use: it connects or listens when it has
    no transport, and drives the handshake of a linked connection, or of one that has no TLS
    object. *)
Definition op_ok (op : ConnOp) c : Prop :=
  match op with
  | OConnect _ _ | OListen _ _ => m_transport c = nullptr
  | OUse u => use_ok u c
  | OAccept | ODestroy => True
  end.

(** The histories of such a process. *)
Inductive net_reach : list SCFConnectionImpl -> World -> Prop :=
| net_start : net_reach [] world0
| net_init cs w flag settings r w' :
    net_reach cs w -> SCF_Init flag settings w = Some (r, w') -> net_reach cs w'
| net_deinit cs w w' :
    net_reach cs w -> SCF_DeInit w = Some (tt, w') -> net_reach cs w'
| net_create cs w cfg r w' :
    net_reach cs w -> cc_transportFactory cfg = nullptr -> Connection.Create cfg w = Some (r, w') ->
    net_reach (option_list r ++ cs) w'
| net_op cs0 c cs w op out w' :
    net_reach cs0 w -> cs0 ≡ₚ c :: cs -> op_ok op c -> run_op op c w = Some (out, w') ->
    net_reach (out ++ cs) w'.

Lemma net_reach_pool cs w : net_reach cs w -> pool_reach cs w.
Proof. induction 1; by econstructor. Qed.

(** Initialisation makes no call on a transport. *)
Definition logs {X} (m : M X) : Prop := forall w, wlp m (fun _ w' => log_step w w') w.

Lemma logs_bind {X Y} (m : M X) (f : X -> M Y) : logs m -> (forall x, logs (f x)) -> logs (m ≫= f).
Proof.
  intros Hm Hf w. apply wlp_bind. eapply wlp_mono; [apply Hm|]. intros x w1 S1.
  eapply wlp_mono; [apply Hf|]. intros y w2 S2. simpl in *. by etransitivity.
Qed.
Lemma logs_modify f : (forall w, w_log (f w) = w_log w) -> logs (modify f).
Proof. intros Hf w. exists []. by split; [apply Hf|]. Qed.
Lemma logs_ret {X} (x : X) : logs (mret x).
Proof. intros w. by exists []. Qed.
Lemma logs_gets {X} (f : World -> X) : logs (gets f).
Proof. intros w. by exists []. Qed.
Lemma logs_Init flag settings : logs (a_Init flag settings).
Proof.
  intros w. eapply wlp_mono; [apply loc_a_Init|]. intros ? w' [[? _]|[? _]]; by eapply inner_log_step.
Qed.
Lemma logs_DeInit : logs a_DeInit.
Proof. intros w. eapply wlp_mono; [apply loc_a_DeInit|]. intros ? w' [? _]; by eapply inner_log_step. Qed.

Ltac logs := repeat first
  [ apply logs_Init | apply logs_DeInit | apply logs_ret | apply logs_gets
  | apply logs_modify; done | apply logs_bind; [|intro]
  | match goal with |- logs (if ?b then _ else _) => destruct b end ].

Lemma logs_SCF_Init flag settings : logs (SCF_Init flag settings).
Proof.
  unfold SCF_Init, SCFInitInner, RegisterTlsAdaptor. logs.
Qed.
Lemma logs_SCF_DeInit : logs SCF_DeInit.
Proof.
  unfold SCF_DeInit, SCFDeInitInner, UnRegisterTlsAdaptor. logs.
Qed.

Lemma wlp_op_net op c cs S w :
  net S w -> held_by (c :: cs) S -> op_ok op c ->
  wlp (run_op op c) (fun out w' => exists S', held_by (out ++ cs) S' /\ net S' w') w.
Proof.
  intros HS Hb Hop. destruct (hb_conn _ _ Hb c (list_elem_of_here _ _)) as [Hd _].
  destruct (held_split _ _ _ _ Hb HS) as (F & Hc & HF).
  assert (Hone : forall (X : Type) (m : M (X * SCFConnectionImpl)),
    wlp m (fun r w' => conn_net F r.2 w' /\ m_config r.2 = m_config c) w ->
    wlp (r ← m; mret [r.2]) (fun out w' => exists S', held_by (out ++ cs) S' /\ net S' w') w).
  { intros X m Hm. apply wlp_bind. eapply wlp_mono; [exact Hm|]. intros r w' [Hc' Hg]. apply wlp_ret.
    eapply held_join; [exact Hc'| |exact HF]. unfold default_transport. by rewrite Hg. }
  destruct op as [host port|host port|u| |]; cbn [run_op op_ok] in *.
  - by apply Hone, wlp_Connect_net.
  - by apply Hone, wlp_Listen_net.
  - by apply Hone, wlp_use_net.
  - apply wlp_bind. eapply wlp_mono; [by apply (wlp_Accept_net F)|].
    intros [child c'] w' [Hsame Hr]. cbn [fst snd] in *. subst c'. apply wlp_ret.
    destruct child as [child|]; cbn [option_list app].
    + destruct Hr as (Hg & Hp & t & HFp & Hch & Hfd).
      eapply (held_join (<[m_transport c := t]> F)); [exact Hch|unfold default_transport; by rewrite Hg|].
      destruct HF as [Hn HF Hcs]. split.
      * apply handles_nodup. split; [|done]. intros _ Hin. apply not_elem_of_dom in HFp.
        apply HFp. rewrite HF. by apply elem_of_list_to_set.
      * rewrite handles_cons, decide_True by done. rewrite dom_insert_L, HF. set_solver.
      * intros c' [->|Hc']%elem_of_cons.
        -- split; [done|]. intros Hk. exists t. split; [apply lookup_insert_eq|auto].
        -- destruct (Hcs c' Hc') as [? Hl']. split; [done|]. intros (t' & Ht' & ?)%Hl'.
           exists t'. split; [|done]. rewrite lookup_insert_ne; [done|]. intros Heq. congruence.
    + by eapply held_join.
  - unfold destroy. apply wlp_bind, wlp_bind. eapply wlp_mono; [by apply wlp_Cleanup_net|].
    intros r w' (N & _). apply wlp_ret, wlp_ret. by exists F.
Qed.

Lemma net_reach_held cs w : net_reach cs w -> exists S, held_by cs S /\ net S w.
Proof.
  induction 1 as [|cs w flag settings r w' _ IH Hi|cs w w' _ IH Hd|cs w cfg r w' _ IH Hf Hc
                 |cs0 c cs w op out w' _ IH Hp Hop Hrun].
  - exists ∅. split; [split; [constructor|done|intros c Hc; inversion Hc]|].
    exists net0. split; [done|]. split; [|done].
    split; cbn [net0 n_socks n_sys n_next]; [|by intros p [? ?]|lia].
    split_and!; [done|done|constructor].
  - destruct IH as (S & Hb & HN). exists S. split; [done|].
    eapply net_log_step; [|exact HN]. exact (wlp_run _ _ _ _ _ (logs_SCF_Init flag settings w) Hi).
  - destruct IH as (S & Hb & HN). exists S. split; [done|].
    eapply net_log_step; [|exact HN]. exact (wlp_run _ _ _ _ _ (logs_SCF_DeInit w) Hd).
  - destruct IH as (S & Hb & HN). unfold Connection.Create, lib, mbind, M_bind, mret, M_ret in Hc.
    injection Hc as <- <-.
    set (w1 := set_log _ w).
    assert (N1 : net S w1) by (eapply net_log_step; [|exact HN]; eexists [_]; by split; [|constructor]).
    destruct (_ =? nullptr); [by exists S|]. cbn [option_list app].
    eapply (held_join S); [|exact Hf|exact Hb].
    apply (own_conn_net S _ None); [by split|by intros []].
  - destruct IH as (S & Hb & HN). rewrite Hp in Hb.
    exact (wlp_run _ _ _ _ _ (wlp_op_net op c cs S w HN Hb Hop) Hrun).
Qed.

(** *** The composition *)

End connections.

(** ** Witnesses: two clients over the system of [SockSafe] *)
Section witnesses.
#[local] Existing Instance RefFileAlloc.

Definition ref_outside : Outside := mkOutside SockLibrary RefResolver SockFresh sock_bytes_len RefLibrary.
#[local] Instance RefNet : Library := NetLibrary ref_outside.
#[local] Instance NetSslMemory : SslMemory (H := RefNet).
Proof. intros h args. change (1 <> nullptr). done. Qed.

(** Run a program that returns. *)
Definition try {X} (d : X) (m : M X) (w : World) : X * World :=
  match m w with Some r => r | None => (d, w) end.

Definition net_up : World := (try 0 (SCF_Init SCF_INIT_FLAG_OPENSSL (Some "/usr/lib64"%string)) world0).2.
Definition net_one : World := (try None (Connection.Create client_cfg) net_up).2.
Definition linked_one : list SCFConnectionImpl * World :=
  try [] (run_op (OConnect "10.0.0.1" 443) client0) net_one.
Definition first : SCFConnectionImpl := hd client0 linked_one.1.
Definition descriptors (w : World) : list Z :=
  match replay ref_outside (w_log w) with
  | Some n => elements (open_fds (w_log (n_sys n)))
  | None => [-1]
  end.

Lemma net_reach_one : net_reach ref_outside [client0] net_one.
Proof.
  refine (net_create ref_outside [] net_up client_cfg (Some client0) net_one _ eq_refl _); [|vm_compute; reflexivity].
  refine (net_init ref_outside [] world0 SCF_INIT_FLAG_OPENSSL (Some "/usr/lib64"%string) 0 net_up (net_start ref_outside) _).
  vm_compute; reflexivity.
Qed.

Lemma run_linked :
  run_op (OConnect "10.0.0.1" 443) client0 net_one = Some (linked_one.1, linked_one.2).
Proof. vm_compute; reflexivity. Qed.

Lemma net_reach_linked : net_reach ref_outside linked_one.1 linked_one.2.
Proof.
  pose proof run_linked as Hrun. revert Hrun. generalize linked_one. intros [out w'] Hrun.
  cbn [fst snd] in *. rewrite <- (app_nil_r out).
  exact (net_op ref_outside _ client0 [] _ (OConnect "10.0.0.1" 443) _ _ net_reach_one
           (Permutation_refl _) eq_refl Hrun).
Qed.


(** *** Why the discipline is needed *)

(** [HandshakeStep] does not look at the state: after [Close] it runs the handshake on the
    number of a descriptor that is closed, and a connection without a descriptor reports
    that it is connected. *)
Definition closed_one : list SCFConnectionImpl * World :=
  try [] (run_op (OUse UClose) first) linked_one.2.
Definition revived_one : list SCFConnectionImpl * World :=
  try [] (run_op (OUse UHandshakeStep) (hd client0 closed_one.1)) closed_one.2.

Example handshake_after_close :
  GetState (hd client0 closed_one.1) = SCF_CONN_CLOSED /\ descriptors closed_one.2 = [] /\
  GetState (hd client0 revived_one.1) = SCF_CONN_CONNECTED /\
  Connection.IsConnected (hd client0 revived_one.1) = true /\ descriptors revived_one.2 = [].
Proof. split_and!; vm_compute; reflexivity. Qed.

(** [Connect] does not look at the transport: a second call overwrites it, and deleting the
    connection leaves the first descriptor open. *)
Definition connected_twice : list SCFConnectionImpl * World :=
  try [] (run_op (OConnect "10.0.0.1" 443) first) linked_one.2.

Example second_connect_leaks :
  descriptors connected_twice.2 = [1; 0] /\
  descriptors (try [] (run_op ODestroy (hd client0 connected_twice.1)) connected_twice.2).2 = [0].
Proof. split; vm_compute; reflexivity. Qed.
End witnesses.
