(* ===== verification/Engines.v ===== *)
(** * The crypto engines of connections

    Who owns which engine, over any number of connections: a connection creates an engine
    and injects it into the adaptor, shares it with the connections it accepts, and deletes
    it; the adaptor keeps a pointer to it and asks it for a provider context whenever a
    context is set up, and the questions its log lines ask. *)
From Stdlib Require Import ZArith Lia Ascii String.
From stdpp Require Import base list fin_maps gmap strings.
From S2P Require Import Prelude Errno Types FileCheck FileCtx Machine Adaptor Api Conn Lifecycle.
From S2P Require Import Config Connection ConnSafe ConnPool Local.
Open Scope Z_scope.

(** ** Engines of a history *)

(** The engine a call creates, the one it deletes, the one it is made on. *)
Definition creates (e : Event) : option Z :=
  match ev_fn e with
  | engine_Create => if ev_ret e =? nullptr then None else Some (ev_ret e)
  | _ => None
  end.
Definition deletes (e : Event) : option Z :=
  match ev_fn e, ev_args e with engine_delete, [AInt p] => Some p | _, _ => None end.
Definition method_on (e : Event) : option Z :=
  match ev_fn e, ev_args e with
  | engine_Initialize, [AInt p] | engine_Finalize, [AInt p] | engine_delete, [AInt p]
  | engine_GetProviderContext, [AInt p] | engine_IsHardwareAccelerated, [AInt p]
  | engine_GetAcceleratedAlgorithms, [AInt p] => Some p
  | _, _ => None
  end.

(** The engines that exist after a history (the newest call first). *)
Fixpoint engines (h : History) : gset Z :=
  match h with
  | [] => ∅
  | e :: h =>
      match creates e, deletes e with
      | Some p, _ => {[p]} ∪ engines h
      | None, Some p => engines h ∖ {[p]}
      | None, None => engines h
      end
  end.

(** Every method of an engine was called on one that existed, deletion included. *)
Fixpoint calls_ok (h : History) : Prop :=
  match h with
  | [] => True
  | e :: h => (forall p, method_on e = Some p -> p ∈ engines h) /\ calls_ok h
  end.

(** A factory never answers the address of an engine that exists. *)
Class FreshEngines `{Library} : Prop := fresh_engine : forall h args,
  answer h engine_Create args ∉ engines h.

(** The engines the process has are [E]; the adaptor holds one of them, or none. *)
Record engines_are (E : gset Z) (w : World) : Prop := {
  ea_ok : calls_ok (w_log w);
  ea_live : engines (w_log w) = E;
  ea_adaptor : w_cryptoEngine w <> nullptr -> w_cryptoEngine w ∈ E;
  ea_down : w_adaptor w = false -> w_cryptoEngine w = nullptr
}.

(** A step that creates and deletes no engine, and uses only the adaptor's. *)
Definition bystander (engine : Z) (e : Event) : Prop :=
  is_engine (ev_fn e) = false /\
  (asks_engine (ev_fn e) = true -> ev_args e = [AInt engine] /\ engine <> nullptr).
Definition eng_step (w w' : World) : Prop :=
  (exists l, w_log w' = l ++ w_log w /\ Forall (bystander (w_cryptoEngine w)) l) /\
  w_cryptoEngine w' = w_cryptoEngine w /\ w_adaptor w' = w_adaptor w.

#[export] Instance eng_step_rel : StepRel eng_step.
Proof.
  split; [split|].
  - intros w. split; [by exists []|done].
  - intros w1 w2 w3 ((l1 & E1 & F1) & C1 & A1) ((l2 & E2 & F2) & C2 & A2). rewrite C1 in F2.
    split; [|split; congruence]. exists (l2 ++ l1). rewrite E2, E1, app_assoc. split; [done|].
    by apply Forall_app.
  - intros w w' ((l & Hl & Hf) & Hc & Ha). split; [|done]. exists l. split; [done|].
    eapply Forall_impl; [exact Hf|]. by intros e (_ & ? & ?).
Qed.

Lemma bystander_event engine e :
  bystander engine e ->
  creates e = None /\ deletes e = None /\ (forall p, method_on e = Some p -> p = engine /\ engine <> nullptr).
Proof.
  destruct e as [f args r]. intros [Hf Hg]. unfold creates, deletes, method_on. cbn [ev_fn ev_args ev_ret] in *.
  destruct f; try done; split_and!; try done;
    intros p; destruct (Hg eq_refl) as [-> Hn]; by intros [= <-].
Qed.

Lemma engines_eng_step E w w' : eng_step w w' -> engines_are E w -> engines_are E w'.
Proof.
  intros ((l & Hl & Hf) & Hc & Ha) [Hok Hlive Had Hdown].
  assert (Hlog : calls_ok (w_log w') /\ engines (w_log w') = E).
  { rewrite Hl. clear Hl. induction Hf as [|e l He Hf IH]; [done|]. destruct IH as [IHok IHlive].
    destruct (bystander_event _ _ He) as (E1 & E2 & Hm). cbn [app calls_ok engines]. rewrite E1, E2.
    split; [|done]. split; [|done]. intros p [-> Hn]%Hm. rewrite IHlive. by apply Had. }
  destruct Hlog as [? ?]. split; [done|done|by rewrite Hc|]. rewrite Hc, Ha. done.
Qed.

(** ** One connection beside the engines [F] of the others *)
Definition own_engine (c : SCFConnectionImpl) : gset Z :=
  if m_ownsCryptoEngine c then {[m_cryptoEngine c]} else ∅.

Record eng (F : gset Z) (c : SCFConnectionImpl) (w : World) : Prop := {
  en_are : engines_are (F ∪ own_engine c) w;
  en_own : m_ownsCryptoEngine c = true -> m_cryptoEngine c <> nullptr /\ m_cryptoEngine c ∉ F;
  en_shared : m_ownsCryptoEngine c = false -> m_cryptoEngine c <> nullptr -> m_cryptoEngine c ∈ F
}.

Definition same_engine (c c' : SCFConnectionImpl) : Prop :=
  m_cryptoEngine c' = m_cryptoEngine c /\ m_ownsCryptoEngine c' = m_ownsCryptoEngine c.
#[export] Instance same_engine_preorder : PreOrder same_engine.
Proof. split; [done|]. intros c1 c2 c3 [? ?] [? ?]. split; congruence. Qed.

(** An engine the connection owns stays its own. *)
Definition keeps_engine (c c' : SCFConnectionImpl) : Prop :=
  m_ownsCryptoEngine c = true -> same_engine c c'.

Lemma eng_inert F c c' w w' : eng_step w w' -> same_engine c c' -> eng F c w -> eng F c' w'.
Proof.
  intros Hs [He Ho] [Ha Hown Hsh]. split.
  - unfold own_engine. rewrite He, Ho. by eapply engines_eng_step.
  - by rewrite He, Ho.
  - by rewrite He, Ho.
Qed.

Lemma eng_live F c w : eng F c w -> m_cryptoEngine c <> nullptr -> m_cryptoEngine c ∈ F ∪ own_engine c.
Proof.
  intros [_ Ho Hs] Hn. unfold own_engine. destruct (m_ownsCryptoEngine c); [set_solver|].
  apply elem_of_union_l. by apply Hs.
Qed.

Section engines.
Context `{Library} {FE : FreshEngines} {A : TlsAdaptor} `{!TlsAdaptorLocal A} `{SecureC}
  `{FileSystem} `{Decryptor} `{Uninit} `{FileAlloc}.
Implicit Types (c : SCFConnectionImpl) (cs : list SCFConnectionImpl) (w : World) (F E : gset Z).

Lemma inert_eng_lib same `{!PreOrder same} f args :
  is_engine f = false -> asks_engine f = false -> inert eng_step same (call (lib f args)).
Proof.
  intros Hf Hg. apply inert_call; [done|]. intros w. apply wlp_lib. intros r _. split; [|done].
  exists [mkEvent f args r]. split; [done|]. constructor; [|constructor]. split; [done|]. cbn [ev_fn].
  congruence.
Qed.
Hint Extern 1 (inert eng_step _ (call (lib _ _))) => (apply inert_eng_lib; [apply _|done|done]) : inert.

Lemma wlp_eng_bind {X Y} F (m : Meth X) (f : X -> Meth Y) c w Q :
  inert eng_step same_engine m -> eng F c w ->
  (forall x c' w', same_engine c c' -> eng F c' w' -> wlp (f x c') Q w') ->
  wlp ((m ≫= f) c) Q w.
Proof.
  intros Hm He Hf. apply wlp_meth_bind. eapply wlp_mono; [apply Hm|]. intros [x c'] w' [Hl Hs].
  apply Hf; [done|]. by eapply eng_inert.
Qed.

Lemma wlp_eng_end {X} F (m : Meth X) c w :
  inert eng_step same_engine m -> eng F c w ->
  wlp (m c) (fun r w' => eng F r.2 w' /\ keeps_engine c r.2) w.
Proof.
  intros Hm He. eapply wlp_mono; [apply Hm|]. intros [x c'] w' [Hl Hs].
  split; [by eapply eng_inert|by intros ?].
Qed.

Lemma engines_SetCryptoEngine E e w :
  engines_are E w -> (e <> nullptr -> e ∈ E) -> w_adaptor w = true ->
  wlp (a_SetCryptoEngine e) (fun _ w' => engines_are E w' /\ w_cryptoEngine w' = e /\
    w_adaptor w' = true) w.
Proof.
  intros He Hin Hup. eapply wlp_mono; [apply loc_a_SetCryptoEngine|]. intros ? w' ((l & Hl & Hf) & Hc & Ha).
  split; [|split; congruence].
  assert (Hgiven : engines_are E (set_cryptoEngine e w)).
  { destruct He as [Hok Hlive _ _]. split; [done|done|done|cbn; congruence]. }
  apply (engines_eng_step E (set_cryptoEngine e w)); [|done]. split; [|done]. exists l. split; [done|].
  eapply Forall_impl; [exact Hf|]. by intros e' (_ & ? & ?).
Qed.

(** A new engine, its initialisation, its deletion. *)
Lemma engines_Create E args w :
  engines_are E w ->
  wlp (lib engine_Create args) (fun p w' => p = nullptr /\ engines_are E w' \/
    p <> nullptr /\ (p ∉ E) /\ engines_are ({[p]} ∪ E) w' /\ w_cryptoEngine w' = w_cryptoEngine w) w.
Proof.
  intros [Hok Hlive Had Hdown]. apply wlp_lib. intros p Hans. destruct (p =? nullptr) eqn:E1; bools.
  - left. split; [done|]. split; [by split|cbn; unfold creates; cbn; by rewrite E1|done|done].
  - right. split; [done|]. assert (Hp : p ∉ E) by (rewrite Hans, <- Hlive; apply fresh_engine).
    split; [done|]. split; [|done]. split; [by split| |intros; set_solver|done].
    cbn [w_log set_log engines creates ev_fn ev_ret]. rewrite (proj2 (Z.eqb_neq _ _) E1). by rewrite Hlive.
Qed.

Lemma engines_method E f p w :
  engines_are E w -> p ∈ E ->
  f = engine_Initialize \/ f = engine_Finalize \/ asks_engine f = true ->
  wlp (lib f [AInt p]) (fun _ w' => engines_are E w' /\ w_cryptoEngine w' = w_cryptoEngine w /\
                                    w_adaptor w' = w_adaptor w) w.
Proof.
  intros [Hok Hlive Had Hdown] Hp Hf. apply wlp_lib. intros r _. split; [|done].
  assert (Hm : forall args r, creates (mkEvent f args r) = None /\ deletes (mkEvent f args r) = None)
    by (destruct Hf as [->|[->|Hf]]; [done..|by destruct f]).
  destruct (Hm [AInt p] r) as [Hc Hd]. split; [|cbn; by rewrite Hc, Hd|done|done].
  split; [|done]. intros q Hq. rewrite Hlive. enough (q = p) as -> by done.
  unfold method_on in Hq. cbn in Hq. by destruct f; try done; injection Hq as <-.
Qed.

(** The log line of a connection about its own engine. *)
Lemma engines_log_engine E p w :
  engines_are E w -> p ∈ E ->
  wlp (OpenSSL.log_engine p) (fun _ w' => engines_are E w') w.
Proof.
  intros He Hp. unfold OpenSSL.log_engine.
  apply wlp_bind. eapply wlp_mono; [apply (engines_method E); [done|done|by right; right]|].
  intros ? w1 (A1 & _). apply wlp_bind.
  eapply wlp_mono; [apply (engines_method E); [done|done|by right; right]|].
  intros ? w2 (A2 & _). by apply wlp_ret.
Qed.

Lemma engines_delete E p w :
  engines_are E w -> p ∈ E -> w_cryptoEngine w <> p ->
  wlp (lib engine_delete [AInt p]) (fun _ w' => engines_are (E ∖ {[p]}) w') w.
Proof.
  intros [Hok Hlive Had Hdown] Hp Hne. apply wlp_lib. intros r _. split.
  - split; [|done]. cbn. rewrite Hlive. by intros ? [= <-].
  - cbn. by rewrite Hlive.
  - cbn [w_cryptoEngine set_log]. intros Hn. specialize (Had Hn). set_solver.
  - done.
Qed.

Lemma eng_null F c w : eng F c w -> m_cryptoEngine c = nullptr -> m_ownsCryptoEngine c = false.
Proof. intros [_ Ho _] Hn. destruct (m_ownsCryptoEngine c); [|done]. by destruct Ho. Qed.

Lemma own_none c : m_ownsCryptoEngine c = false -> own_engine c = ∅.
Proof. unfold own_engine. by intros ->. Qed.

(** *** Methods *)
Definition eng_post {X} F c (r : X * SCFConnectionImpl) w : Prop := eng F r.2 w /\ keeps_engine c r.2.

Lemma wlp_setup_engine F c w : eng F c w -> wlp (setup_engine c) (eng_post F c) w.
Proof.
  intros He. unfold setup_engine. apply wlp_meth_bind, wlp_this. cbn [fst snd].
  destruct (m_cryptoEngine c =? nullptr) eqn:E; bools.
  - pose proof (eng_null _ _ _ He E) as Hno. pose proof (en_are _ _ _ He) as Ha.
    rewrite (own_none _ Hno), union_empty_r_L in Ha.
    assert (Hkeep : forall c', keeps_engine c c') by (intros c' Ho; congruence).
    apply wlp_meth_bind, wlp_this, wlp_meth_bind, wlp_call. cbn [fst snd].
    eapply wlp_mono; [by apply engines_Create|]. intros p w1 Hp. cbn [fst snd].
    apply wlp_meth_bind, wlp_update. cbn [fst snd].
    destruct Hp as [(-> & A1)|(Hp & HpF & A1 & U1)].
    { rewrite Z.eqb_refl. apply wlp_meth_ret. split; [|apply Hkeep].
      split; cbn [own_engine]; [|by cbn; rewrite Hno|done].
      unfold own_engine. cbn. rewrite Hno. by rewrite union_empty_r_L. }
    rewrite (proj2 (Z.eqb_neq _ _) Hp). apply wlp_meth_bind, wlp_call.
    eapply wlp_mono; [apply (engines_method ({[p]} ∪ F) engine_Initialize p); [exact A1|set_solver|by left]|].
    intros ok w2 (A2 & C2 & U2). cbn [fst snd]. destruct (ok =? 0).
    + assert (Hnp : w_cryptoEngine w2 <> p).
      { rewrite C2, U1. intros <-. by apply HpF, (ea_adaptor _ _ Ha). }
      apply wlp_meth_bind, wlp_call. eapply wlp_mono; [eapply engines_delete; [exact A2|set_solver|done]|].
      intros ? w3 A3. apply wlp_meth_bind, wlp_update, wlp_meth_ret. split; [|apply Hkeep].
      replace (({[p]} ∪ F) ∖ {[p]}) with F in A3 by set_solver.
      split; unfold own_engine; cbn; rewrite Hno; [by rewrite union_empty_r_L|done|done].
    + apply wlp_meth_bind, wlp_update. cbn [fst snd]. apply wlp_meth_bind, wlp_call.
      unfold wlp at 1, gets. cbn [fst snd].
      set (c3 := set_m_ownsCryptoEngine true (set_m_cryptoEngine p c)).
      assert (Hc3 : forall w', engines_are ({[p]} ∪ F) w' -> eng F c3 w').
      { intros w' A'. split; unfold own_engine; cbn; [by rewrite union_comm_L|done|done]. }
      destruct (w_adaptor w2) eqn:Eu; cbn [negb]; [|apply wlp_meth_ret; split; [by apply Hc3|apply Hkeep]].
      apply wlp_meth_bind, wlp_call.
      eapply wlp_mono; [apply (engines_SetCryptoEngine ({[p]} ∪ F)); [exact A2|set_solver|exact Eu]|].
      intros ? w4 (A4 & _). apply wlp_meth_bind, wlp_call.
      eapply wlp_mono; [apply (engines_log_engine ({[p]} ∪ F)); [done|set_solver]|].
      intros ? w5 A5. apply wlp_meth_ret. split; [by apply Hc3|apply Hkeep].
  - apply wlp_meth_bind, wlp_call. unfold wlp at 1, gets. cbn [fst snd]. apply wlp_meth_bind.
    assert (Hend : forall w', engines_are (F ∪ own_engine c) w' -> eng_post F c (@None Z, c) w').
    { intros w' A'. split; [|by intros ?]. destruct He. by split. }
    destruct (w_adaptor w) eqn:Eu.
    + apply wlp_call. eapply wlp_mono; [apply engines_SetCryptoEngine;
        [apply (en_are _ _ _ He)|intros _; by apply eng_live with (w := w)|exact Eu]|].
      intros ? w2 (A2 & _). apply wlp_meth_ret. by apply Hend.
    + apply wlp_meth_ret, wlp_meth_ret. apply Hend, (en_are _ _ _ He).
Qed.

Lemma inert_eng_configure_ctx : inert eng_step same_engine configure_ctx.
Proof. unfold configure_ctx. inert. Qed.
Lemma inert_eng_SetupTransportClient host port :
  inert eng_step same_engine (SetupTransportClient host port).
Proof. unfold SetupTransportClient. inert. Qed.
Lemma inert_eng_SetupTransportServer host port :
  inert eng_step same_engine (SetupTransportServer host port).
Proof. unfold SetupTransportServer. inert. Qed.
Lemma inert_eng_CreatePolicyObj : inert eng_step same_engine CreatePolicyObj.
Proof. unfold CreatePolicyObj. inert. Qed.
Lemma inert_eng_HandshakeStep : inert eng_step same_engine HandshakeStep.
Proof. unfold HandshakeStep. inert. Qed.
Lemma inert_eng_Close : inert eng_step same_engine Close.
Proof. unfold Close. inert. Qed.
Hint Resolve inert_eng_configure_ctx inert_eng_SetupTransportClient inert_eng_SetupTransportServer
  inert_eng_CreatePolicyObj inert_eng_HandshakeStep inert_eng_Close : inert.

Lemma keeps_trans c c1 c2 : keeps_engine c c1 -> keeps_engine c1 c2 -> keeps_engine c c2.
Proof.
  intros K1 K2 Ho. destruct (K1 Ho) as [E1 O1]. destruct (K2 ltac:(congruence)) as [E2 O2].
  split; congruence.
Qed.

Lemma same_keeps c c' : same_engine c c' -> keeps_engine c c'.
Proof. by intros ? ?. Qed.

(** The rest of a method after one that kept its promise. *)
Lemma eng_post_bind {X Y} F c (m : Meth X) (f : X -> Meth Y) w :
  wlp (m c) (eng_post F c) w ->
  (forall x c' w', eng F c' w' -> wlp (f x c') (eng_post F c') w') ->
  wlp ((m ≫= f) c) (eng_post F c) w.
Proof.
  intros Hm Hf. apply wlp_meth_bind. eapply wlp_mono; [exact Hm|]. intros [x c'] w' [He K].
  eapply wlp_mono; [by apply Hf|]. intros [y c2] w2 [He2 K2]. split; [done|]. by eapply keeps_trans.
Qed.

Lemma eng_post_inert {X} F (m : Meth X) c w :
  inert eng_step same_engine m -> eng F c w -> wlp (m c) (eng_post F c) w.
Proof. intros Hm He. by apply wlp_eng_end. Qed.

Lemma wlp_eng_SetupPolicyContext F c w :
  eng F c w -> wlp (SetupPolicyContext c) (eng_post F c) w.
Proof.
  intros He. unfold SetupPolicyContext. apply eng_post_bind; [by apply wlp_setup_engine|].
  intros early c' w' He'. apply eng_post_inert; [inert|done].
Qed.

Lemma wlp_eng_Listen host port F c w : eng F c w -> wlp (Listen host port c) (eng_post F c) w.
Proof.
  intros He. unfold Listen. apply eng_post_bind; [by apply wlp_eng_SetupPolicyContext|].
  intros ret c' w' He'. apply eng_post_inert; [inert|done].
Qed.

(** [Cleanup] deletes the engine the connection owns, and takes it from the adaptor first. *)
Lemma wlp_eng_Cleanup F c w :
  eng F c w -> wlp (Cleanup c) (fun r w' => eng F r.2 w' /\ m_ownsCryptoEngine r.2 = false) w.
Proof.
  intros He. unfold Cleanup. do 8 (eapply wlp_eng_bind; [inert|eassumption|]; clear He; intros ? ? ? _ He).
  apply wlp_meth_bind, wlp_this, wlp_meth_bind, wlp_this. cbn [fst snd]. apply wlp_meth_bind.
  match goal with He : eng F ?c0 ?w0 |- _ => rename c0 into c1; rename w0 into w1 end.
  assert (Hend : forall (c2 : SCFConnectionImpl) w2, eng F c2 w2 -> m_ownsCryptoEngine c2 = false ->
    wlp (update (set_m_state SCF_CONN_CLOSED) c2)
      (fun r w' => eng F r.2 w' /\ m_ownsCryptoEngine r.2 = false) w2).
  { intros c2 w2 He2 Ho. apply wlp_update. split; [|done].
    apply (eng_inert F c2 _ w2 w2); [reflexivity|by split|exact He2]. }
  destruct (m_ownsCryptoEngine c1) eqn:Eo.
  - destruct (en_own _ _ _ He Eo) as [Hn HF]. rewrite (proj2 (Z.eqb_neq _ _) Hn). cbn [negb andb].
    set (e := m_cryptoEngine c1) in *. pose proof (en_are _ _ _ He) as Ha.
    unfold own_engine in Ha. rewrite Eo in Ha. fold e in Ha.
    apply wlp_meth_bind, wlp_call. unfold wlp at 1, gets. cbn [fst snd]. apply wlp_meth_bind.
    assert (Hfin : forall w2, engines_are (F ∪ {[e]}) w2 -> w_cryptoEngine w2 = nullptr ->
      wlp ((_ ← call (lib engine_Finalize [AInt e]);
            _ ← call (lib engine_delete [AInt e]);
            _ ← update (set_m_cryptoEngine nullptr);
            update (set_m_ownsCryptoEngine false)) c1)
        (fun r w' => wlp (update (set_m_state SCF_CONN_CLOSED) r.2)
          (fun r w' => eng F r.2 w' /\ m_ownsCryptoEngine r.2 = false) w') w2).
    { intros w2 A2 C2. apply wlp_meth_bind, wlp_call.
      eapply wlp_mono; [apply (engines_method (F ∪ {[e]}) engine_Finalize e); [exact A2|set_solver|right; by left]|].
      intros ? w3 (A3 & C3 & _). apply wlp_meth_bind, wlp_call.
      eapply wlp_mono; [apply (engines_delete (F ∪ {[e]}) e); [exact A3|set_solver|]|].
      { rewrite C3, C2. congruence. }
      intros ? w4 A4. apply wlp_meth_bind, wlp_update, wlp_update. cbn [fst snd]. apply Hend; [|done].
      replace ((F ∪ {[e]}) ∖ {[e]}) with F in A4 by set_solver.
      split; unfold own_engine; cbn; [by rewrite union_empty_r_L|done|done]. }
    destruct (w_adaptor w1) eqn:Eu.
    + apply wlp_call. eapply wlp_mono; [apply (engines_SetCryptoEngine (F ∪ {[e]})); [exact Ha|done|exact Eu]|].
      intros ? w2 (A2 & C2 & _). by apply Hfin.
    + apply wlp_meth_ret. apply Hfin; [exact Ha|]. by apply (ea_down _ _ Ha).
  - rewrite andb_false_r. apply wlp_meth_ret. by apply Hend.
Qed.

Lemma wlp_eng_Connect host port F c w :
  eng F c w -> wlp (Connect host port c) (fun r w' => eng F r.2 w') w.
Proof.
  intros He. unfold Connect.
  assert (Hfail : forall (ret : Z) c' w', eng F c' w' ->
    wlp ((_ ← update (set_m_state SCF_CONN_ERROR); _ ← Cleanup; mret ret) c') (fun r w' => eng F r.2 w') w').
  { intros ret c' w' He'. eapply wlp_eng_bind; [inert|exact He'|]. intros ? c2 w2 _ He2.
    apply wlp_meth_bind. eapply wlp_mono; [by apply wlp_eng_Cleanup|]. intros [[] c3] w3 [He3 _].
    by apply wlp_meth_ret. }
  apply wlp_meth_bind. eapply wlp_mono; [by apply wlp_eng_SetupPolicyContext|].
  intros [ret c1] w1 [He1 _]. cbn [fst snd] in *. destruct (negb _).
  { eapply wlp_eng_bind; [inert|exact He1|]. intros. by apply wlp_meth_ret. }
  eapply wlp_eng_bind; [inert|exact He1|]. intros ret2 c2 w2 _ He2.
  destruct (negb _); [by apply Hfail|].
  eapply wlp_eng_bind; [inert|exact He2|]. intros ret3 c3 w3 _ He3.
  destruct (negb _); [by apply Hfail|].
  eapply wlp_mono; [apply (wlp_eng_end F _ c3 w3 inert_eng_HandshakeStep He3)|]. by intros r w' [? _].
Qed.

(** An accepted connection shares the engine of the listener, or makes its own. *)
Definition accepted_eng F c (r : option SCFConnectionImpl * SCFConnectionImpl) w : Prop :=
  r.2 = c /\
  match r.1 with
  | None => eng F c w
  | Some c' => eng (F ∪ own_engine c) c' w
  end.

Lemma eng_again F c w w' : eng F c w -> engines_are (F ∪ own_engine c) w' -> eng F c w'.
Proof. intros [_ Ho Hs] Ha. by split. Qed.

Lemma wlp_eng_accept_child F c w :
  eng F c w -> wlp (accept_child c) (fun r w' => eng F r.2 w') w.
Proof.
  intros He. unfold accept_child. apply wlp_meth_bind.
  eapply wlp_mono; [by apply wlp_eng_SetupPolicyContext|]. intros [ret c1] w1 [He1 _]. cbn [fst snd] in *.
  match goal with |- wlp (?m c1) _ _ => assert (Hin : inert eng_step same_engine m) by inert end.
  eapply wlp_mono; [apply (wlp_eng_end _ _ _ _ Hin He1)|]. by intros r w2 [? _].
Qed.

Lemma wlp_eng_Accept F c w : eng F c w -> wlp (Accept c) (accepted_eng F c) w.
Proof.
  intros He. unfold Accept. do 2 apply wlp_meth_bind, wlp_this. cbn [fst snd].
  destruct (negb _ || _); [by apply wlp_meth_ret|].
  assert (Hstep : forall f args (k : Z -> Meth (option SCFConnectionImpl)) w',
    is_engine f = false -> asks_engine f = false -> eng F c w' ->
    (forall r w2, eng F c w2 -> wlp (k r c) (accepted_eng F c) w2) ->
    wlp ((call (lib f args) ≫= k) c) (accepted_eng F c) w').
  { intros f args k w' Hf Hg He' Hk. apply wlp_meth_bind.
    eapply wlp_mono; [apply (inert_eng_lib eq f args Hf Hg)|]. intros [r c'] w2 [Hs Heq]. cbn [fst snd] in *.
    subst c'. apply Hk. eapply eng_inert; [exact Hs|reflexivity|done]. }
  apply Hstep; [done|done|done|]. intros ct w1 He1.
  destruct (ct =? nullptr); [by apply wlp_meth_ret|].
  apply wlp_meth_bind, wlp_this. cbn [fst snd]. apply Hstep; [done|done|done|]. intros p w2 He2.
  destruct (p =? nullptr).
  { apply Hstep; [done|done|done|]. intros ? w3 He3. apply Hstep; [done|done|done|].
    intros ? w4 He4. by apply wlp_meth_ret. }
  apply wlp_meth_bind, wlp_this. cbn [fst snd]. apply wlp_meth_bind, wlp_call. unfold wlp at 1, gets.
  cbn [fst snd]. apply wlp_meth_bind.
  match goal with |- wlp (?m c) _ _ => assert (Hset : wlp (m c) (fun r w' => r.2 = c /\ eng F c w') w2) end.
  { destruct (m_cryptoEngine c =? nullptr) eqn:En; bools; [by apply wlp_meth_ret|].
    destruct (w_adaptor w2) eqn:Eu; [|by apply wlp_meth_ret]. apply wlp_call.
    eapply wlp_mono; [apply engines_SetCryptoEngine; [apply (en_are _ _ _ He2)|intros _|exact Eu]|].
    - by apply eng_live with (w := w2).
    - intros ? w3 (A3 & _). split; [done|]. by eapply eng_again. }
  eapply wlp_mono; [exact Hset|]. intros [[] c0] w3 [Heq He3]. cbn [fst snd] in *. subst c0.
  apply wlp_meth_bind, wlp_call.
  match goal with |- wlp (accept_child ?n) _ _ => set (newConn := n) end.
  assert (Hn : eng (F ∪ own_engine c) newConn w3).
  { assert (Hown : m_ownsCryptoEngine newConn = false)
      by (unfold newConn; by destruct (negb (m_cryptoEngine c =? nullptr))).
    assert (Heng : m_cryptoEngine newConn = m_cryptoEngine c).
    { unfold newConn. destruct (m_cryptoEngine c =? nullptr) eqn:En; bools; [by rewrite En|done]. }
    split; [rewrite (own_none _ Hown), union_empty_r_L; apply (en_are _ _ _ He3)|congruence|].
    intros _. rewrite Heng. by apply eng_live with (w := w3). }
  clearbody newConn.
  eapply wlp_mono; [by apply (wlp_eng_accept_child _ _ _ Hn)|]. intros [keep c4] w4 He4. cbn [fst snd] in *.
  destruct keep; [by apply wlp_meth_ret|].
  unfold destroy. apply wlp_meth_bind, wlp_call, wlp_bind.
  eapply wlp_mono; [by apply wlp_eng_Cleanup|]. intros [[] c5] w5 [He5 Ho5].
  apply wlp_ret, wlp_meth_ret. split; [done|]. cbn [fst snd] in *. pose proof (en_are _ _ _ He5) as A5.
  rewrite (own_none _ Ho5), union_empty_r_L in A5. by eapply eng_again.
Qed.

Lemma wlp_eng_use F u c w : eng F c w -> wlp (use u c) (eng_post F c) w.
Proof.
  intros He. apply eng_post_inert; [|done].
  destruct u; unfold use, ignore, Read, Write, GetTLSVersion, GetPeerCertificate, GetNativeHandle,
    TriggerKeyUpdate, SetUserData; inert.
Qed.

(** ** Many connections *)

(** The engines the connections own. *)
Definition owned (cs : list SCFConnectionImpl) : list Z :=
  m_cryptoEngine <$> filter (fun c => m_ownsCryptoEngine c = true) cs.

Record engs (cs : list SCFConnectionImpl) w : Prop := {
  es_are : engines_are (list_to_set (owned cs)) w;
  es_nodup : NoDup (owned cs);
  es_conn : forall c, c ∈ cs ->
    (m_ownsCryptoEngine c = true -> m_cryptoEngine c <> nullptr) /\
    (m_cryptoEngine c <> nullptr -> m_cryptoEngine c ∈ owned cs)
}.

Lemma owned_cons c cs :
  owned (c :: cs) = if m_ownsCryptoEngine c then m_cryptoEngine c :: owned cs else owned cs.
Proof.
  unfold owned. rewrite filter_cons. destruct (m_ownsCryptoEngine c); [by rewrite decide_True|by rewrite decide_False].
Qed.

Lemma owned_set c cs : list_to_set (owned (c :: cs)) =@{gset Z} list_to_set (owned cs) ∪ own_engine c.
Proof. rewrite owned_cons. unfold own_engine. destruct (m_ownsCryptoEngine c); set_solver. Qed.

#[export] Instance engs_perm : Proper ((≡ₚ) ==> (=) ==> iff) engs.
Proof.
  assert (Himp : forall cs cs' w, cs ≡ₚ cs' -> engs cs w -> engs cs' w).
  { intros cs cs' w Hp [Ha Hn Hc]. assert (Ho : owned cs ≡ₚ owned cs') by (unfold owned; by rewrite Hp).
    split; [|by rewrite <- Ho|].
    2:{ intros c Hin. rewrite <- Hp in Hin. destruct (Hc c Hin) as [? Hs]. split; [done|].
        intros Hne. rewrite <- Ho. by apply Hs. }
    replace (list_to_set (owned cs')) with (list_to_set (C := gset Z) (owned cs)); [done|].
    apply set_eq. intros x. rewrite !elem_of_list_to_set. by rewrite Ho. }
  intros cs cs' Hp w ? <-. split; by apply Himp.
Qed.

Lemma engs_split c cs w :
  engs (c :: cs) w -> eng (list_to_set (owned cs)) c w /\ NoDup (owned cs).
Proof.
  intros [Ha Hn Hc]. rewrite owned_set in Ha. rewrite owned_cons in Hn.
  destruct (Hc c (list_elem_of_here _ _)) as [Ho Hs]. rewrite owned_cons in Hs.
  destruct (m_ownsCryptoEngine c) eqn:E.
  - apply NoDup_cons in Hn as [Hnot Hn]. split; [|done]. split; [done| |congruence].
    intros _. split; [by apply Ho|by rewrite elem_of_list_to_set].
  - split; [|done]. split; [done|congruence|]. intros _ Hne. apply elem_of_list_to_set. by apply Hs.
Qed.

Lemma engs_join c cs w :
  eng (list_to_set (owned cs)) c w -> NoDup (owned cs) ->
  (forall c', c' ∈ cs -> (m_ownsCryptoEngine c' = true -> m_cryptoEngine c' <> nullptr) /\
     (m_cryptoEngine c' <> nullptr -> m_cryptoEngine c' ∈ owned (c :: cs))) ->
  engs (c :: cs) w.
Proof.
  intros [Ha Ho Hs] Hn Hc. split.
  - by rewrite owned_set.
  - rewrite owned_cons. destruct (m_ownsCryptoEngine c); [|done]. apply NoDup_cons. split; [|done].
    destruct (Ho eq_refl) as [_ Hnot]. by rewrite elem_of_list_to_set in Hnot.
  - intros c' [->|Hin]%elem_of_cons; [|by apply Hc]. split; [by intros [? _]%Ho|].
    intros Hne. rewrite owned_cons. destruct (m_ownsCryptoEngine c) eqn:E; [by left|].
    apply (elem_of_list_to_set (C := gset Z)). by apply Hs.
Qed.

(** Whoever shares the engine of a connection is gone before it is deleted, and before it
    connects (a failed [Connect] deletes the engine). *)
Definition eng_ok (op : ConnOp) c cs : Prop :=
  match op with
  | OConnect _ _ | ODestroy =>
      m_ownsCryptoEngine c = true -> forall c', c' ∈ cs -> m_cryptoEngine c' <> m_cryptoEngine c
  | _ => True
  end.

Inductive eng_reach : list SCFConnectionImpl -> World -> Prop :=
| eng_start : eng_reach [] world0
| eng_init cs w flag settings r w' :
    eng_reach cs w -> SCF_Init flag settings w = Some (r, w') -> eng_reach cs w'
| eng_deinit cs w w' :
    eng_reach cs w -> SCF_DeInit w = Some (tt, w') -> eng_reach cs w'
| eng_create cs w cfg r w' :
    eng_reach cs w -> Create cfg w = Some (r, w') -> eng_reach (option_list r ++ cs) w'
| eng_op cs0 c cs w op out w' :
    eng_reach cs0 w -> cs0 ≡ₚ c :: cs -> eng_ok op c cs -> run_op op c w = Some (out, w') ->
    eng_reach (out ++ cs) w'.

Lemma eng_reach_pool cs w : eng_reach cs w -> pool_reach cs w.
Proof. induction 1; by econstructor. Qed.

(** The others keep an engine that is there. *)
Lemma engs_others c c' cs w :
  engs (c :: cs) w ->
  keeps_engine c c' \/
  (m_ownsCryptoEngine c = true -> forall x, x ∈ cs -> m_cryptoEngine x <> m_cryptoEngine c) ->
  forall x, x ∈ cs -> (m_ownsCryptoEngine x = true -> m_cryptoEngine x <> nullptr) /\
     (m_cryptoEngine x <> nullptr -> m_cryptoEngine x ∈ owned (c' :: cs)).
Proof.
  intros He Hk x Hx. destruct (es_conn _ _ He x) as [Ho Hs]; [by right|]. split; [done|].
  intros Hne%Hs. rewrite owned_cons in Hne. rewrite owned_cons.
  destruct (m_ownsCryptoEngine c) eqn:E.
  - apply elem_of_cons in Hne as [Heq|Hne]; [|destruct (m_ownsCryptoEngine c'); [by right|done]].
    destruct Hk as [Hk|Hk]; [|by destruct (Hk eq_refl x Hx)].
    destruct (Hk E) as [E1 E2]. rewrite E2, E. rewrite E1, Heq. by left.
  - destruct (m_ownsCryptoEngine c'); [by right|done].
Qed.

Lemma wlp_op_eng op c cs w :
  engs (c :: cs) w -> eng_ok op c cs ->
  wlp (run_op op c) (fun out w' => engs (out ++ cs) w') w.
Proof.
  intros He Hop. destruct (engs_split _ _ _ He) as [Hc Hn].
  assert (Hkeep : forall (X : Type) (m : M (X * SCFConnectionImpl)),
    wlp m (eng_post (list_to_set (owned cs)) c) w ->
    wlp (r ← m; mret [r.2]) (fun out w' => engs (out ++ cs) w') w).
  { intros X m Hm. apply wlp_bind. eapply wlp_mono; [exact Hm|]. intros r w' [Hc' Hk]. apply wlp_ret.
    apply engs_join; [done|done|]. eapply engs_others; [exact He|by left]. }
  destruct op as [host port|host port|u| |]; cbn [run_op eng_ok] in *.
  - apply wlp_bind. eapply wlp_mono; [by eapply wlp_eng_Connect|]. intros r w' Hc'. apply wlp_ret.
    apply engs_join; [done|done|]. eapply engs_others; [exact He|by right].
  - by apply Hkeep, wlp_eng_Listen.
  - by apply Hkeep, wlp_eng_use.
  - apply wlp_bind. eapply wlp_mono; [by eapply wlp_eng_Accept|].
    intros [child c'] w' [Hsame Hr]. cbn [fst snd] in *. subst c'. apply wlp_ret.
    assert (Hk : keeps_engine c c) by done.
    destruct child as [child|]; cbn [option_list app].
    + rewrite <- owned_set in Hr. apply engs_join; [done|by apply (es_nodup _ _ He)|].
      intros x Hx. destruct (es_conn _ _ He x Hx) as [Ho Hs]. split; [done|]. intros Hne%Hs.
      rewrite owned_cons. destruct (m_ownsCryptoEngine child); [by right|done].
    + apply engs_join; [done|done|]. eapply engs_others; [exact He|by left].
  - unfold destroy. apply wlp_bind, wlp_bind. eapply wlp_mono; [by eapply wlp_eng_Cleanup|].
    intros [[] c'] w' [He' Ho']. apply wlp_ret, wlp_ret. cbn [fst snd app] in *.
    pose proof (en_are _ _ _ He') as Ha. rewrite (own_none _ Ho'), union_empty_r_L in Ha.
    split; [done|done|]. intros x Hx.
    destruct (engs_others c c' cs w He (or_intror Hop) x Hx) as [? Hs]. split; [done|].
    intros Hne%Hs. rewrite owned_cons, Ho' in Hne. done.
Qed.

(** Initialisation of the library: the adaptor loses its engine when it goes. *)
Lemma engines_forget E w w' :
  engines_are E w -> engine_to (w_cryptoEngine w) w w' \/ engine_to nullptr w w' -> engines_are E w'.
Proof.
  intros Ha [Hs|((l & Hl & Hf) & Hc & Hu)].
  - eapply engines_eng_step; [|exact Ha]. by apply sr_local.
  - assert (Hs : eng_step w (set_cryptoEngine (w_cryptoEngine w) (set_adaptor (w_adaptor w) w'))).
    { split; [|done]. exists l. split; [done|]. eapply Forall_impl; [exact Hf|]. by intros e' (_ & ? & ?). }
    destruct (engines_eng_step _ _ _ Hs Ha) as [Hok Hlive _ _]. by split.
Qed.

Lemma engines_Init E flag settings w :
  engines_are E w -> wlp (SCF_Init flag settings) (fun _ w' => engines_are E w') w.
Proof.
  intros Ha. unfold SCF_Init, SCFInitInner, RegisterTlsAdaptor.
  apply wlp_bind. unfold wlp at 1, gets. destruct (w_scfInitialized w) eqn:Ei; [by apply wlp_ret|].
  destruct (negb _); [by apply wlp_ret|]. do 2 apply wlp_bind. unfold wlp at 1, gets. rewrite Ei.
  apply wlp_bind, wlp_bind. unfold wlp at 1, gets.
  destruct (w_isTlsInit w); [by repeat (apply wlp_ret || apply wlp_bind)|].
  destruct (flag =? SCF_INIT_FLAG_OPENSSL); [|by repeat (apply wlp_ret || apply wlp_bind)].
  apply wlp_bind. eapply wlp_mono; [apply loc_a_Init|]. intros ret w1 S1.
  apply (engines_forget E) in S1; [|exact Ha]. destruct (ret =? SCF_SUCCESS) eqn:E1; bools; cbn [negb].
  - unfold wlp, modify, mbind, M_bind, mret, M_ret. cbn. destruct S1 as [? ? ? ?].
    subst ret. cbn. by split.
  - apply wlp_ret. rewrite (proj2 (Z.eqb_neq _ _) E1). cbn [negb]. apply wlp_ret.
    rewrite (proj2 (Z.eqb_neq _ _) E1). by apply wlp_ret.
Qed.

Lemma engines_DeInit E w :
  engines_are E w -> wlp SCF_DeInit (fun _ w' => engines_are E w') w.
Proof.
  intros Ha. unfold SCF_DeInit, SCFDeInitInner, UnRegisterTlsAdaptor.
  assert (Hflag : forall (m : M unit) f, wlp m (fun _ w' => engines_are E w') w ->
    (forall w', engines_are E w' -> engines_are E (f w')) ->
    wlp (_ ← m; modify f) (fun _ w' => engines_are E w') w).
  { intros m f Hm Hf. apply wlp_bind. eapply wlp_mono; [exact Hm|]. intros ? w' A'. by apply Hf. }
  apply wlp_bind. unfold wlp at 1, gets. destruct (w_scfInitialized w) eqn:Ei; cbn [negb]; [|by apply wlp_ret].
  apply Hflag; [|by intros w' []]. apply wlp_bind. unfold wlp at 1, gets. rewrite Ei. cbn [negb].
  apply Hflag; [|by intros w' []]. do 2 (apply wlp_bind; unfold wlp at 1, gets).
  destruct (negb _ || _); [by apply wlp_ret|].
  apply wlp_bind. eapply wlp_mono; [apply loc_a_DeInit|]. intros ? w1 S1.
  assert (Hz : w_cryptoEngine w1 = nullptr) by by destruct S1 as (_ & ? & _).
  destruct (engines_forget E w w1 Ha (or_intror S1)) as [? ? ? ?].
  unfold wlp, modify, mbind, M_bind. by split.
Qed.

Lemma eng_reach_engs cs w : eng_reach cs w -> engs cs w.
Proof.
  induction 1 as [|cs w flag settings r w' _ IH Hi|cs w w' _ IH Hd|cs w cfg r w' _ IH Hc
                 |cs0 c cs w op out w' _ IH Hp Hop Hrun].
  - split; [by split|constructor|intros c Hc; inversion Hc].
  - destruct IH as [Ha Hn Hs]. split; [|done|done].
    exact (wlp_run _ _ _ _ _ (engines_Init _ flag settings w Ha) Hi).
  - destruct IH as [Ha Hn Hs]. split; [|done|done].
    exact (wlp_run _ _ _ _ _ (engines_DeInit _ w Ha) Hd).
  - unfold Create, lib, mbind, M_bind, mret, M_ret in Hc. injection Hc as <- <-.
    destruct IH as [Ha Hn Hs]. set (w1 := set_log _ w).
    assert (A1 : engines_are (list_to_set (owned cs)) w1).
    { eapply engines_eng_step; [|exact Ha]. split; [|done]. eexists [_]. split; [reflexivity|].
      by repeat constructor. }
    destruct (_ =? nullptr); [by split|]. cbn [option_list app].
    apply engs_join; [|done|].
    + split; [by rewrite own_none, union_empty_r_L|done|done].
    + intros x Hx. destruct (Hs x Hx) as [? Hx']. split; [done|]. by intros ?%Hx'.
  - rewrite Hp in IH. exact (wlp_run _ _ _ _ _ (wlp_op_eng op c cs w IH Hop) Hrun).
Qed.

(** (C9) Engines outlive their users. However many connections a process has, whatever they
    did and whatever initialisation failed, with the rule that the connections which share
    an engine are gone before its owner connects or is deleted: every method of an engine
    that the adaptor and the connections call - initialisation, finalisation, the request for
    a provider context, the two questions the log lines ask, deletion - was called on one
    that existed (a new engine gets an address no living one has), and none was deleted twice; the engines that exist are exactly those the live
    connections own, each owned by one; the engine of every connection exists; the adaptor
    holds one of them or none; and when the last connection is gone no engine is left and
    the adaptor holds none. *)
Theorem engines_outlive_users cs w :
  eng_reach cs w ->
  calls_ok (w_log w) /\ NoDup (owned cs) /\ engines (w_log w) = list_to_set (owned cs) /\
  (forall c, c ∈ cs -> m_cryptoEngine c <> nullptr -> m_cryptoEngine c ∈ engines (w_log w)) /\
  (w_cryptoEngine w <> nullptr -> w_cryptoEngine w ∈ engines (w_log w)) /\
  (cs = [] -> engines (w_log w) = ∅ /\ w_cryptoEngine w = nullptr).
Proof.
  intros Hr. destruct (eng_reach_engs _ _ Hr) as [[Hok Hlive Had Hdown] Hn Hc].
  split; [done|]. split; [done|]. split; [done|]. rewrite Hlive. split_and!; [|done|].
  - intros c Hin Hne. apply elem_of_list_to_set. by apply (Hc c Hin).
  - intros ->. split; [done|]. destruct (decide (w_cryptoEngine w = nullptr)) as [|Hne]; [done|].
    specialize (Had Hne). change (w_cryptoEngine w ∈ (∅ : gset Z)) in Had. set_solver.
Qed.
End engines.

(** ** Witness: a listener and a connection it accepted *)
Section witnesses.
#[local] Existing Instance RefFileAlloc.

(** Engines are fresh; every other call answers as in [RefLibrary]. *)
Definition eng_answer (h : History) (f : LibFn) (args : list Arg) : Z :=
  match f with engine_Create => fresh ({[nullptr]} ∪ engines h) | _ => ref_answer h f args end.
#[local] Instance EngLibrary : Library := {|
  answer := eng_answer;
  out_value _ := 1000;
  cstring_at _ _ := "TLSv1.3"%string;
  bytes_at _ _ n := replicate (Z.to_nat n) "?"%char;
  asn1_data _ _ := []
|}.
#[local] Instance EngFresh : FreshEngines.
Proof. intros h args Hin. apply (is_fresh ({[nullptr]} ∪ engines h)). set_solver. Qed.

Definition step_ {X} (d : X) (m : M X) (w : World) : X * World :=
  match m w with Some r => r | None => (d, w) end.

Definition server_cfg : SCFConnectionConfig :=
  conn_config SCF_SECURITY_128BIT SCF_ROLE_SERVER EmptyString EmptyString EmptyString
    SCF_CERT_VERIFY_NONE EmptyString [] false.
Definition listener0 : SCFConnectionImpl := new_connection server_cfg.
Definition eng_up : World := (step_ 0 (SCF_Init SCF_INIT_FLAG_OPENSSL (Some "/usr/lib64"%string)) world0).2.
Definition eng_made : World := (step_ None (Create server_cfg) eng_up).2.
Definition listening : list SCFConnectionImpl * World :=
  step_ [] (run_op (OListen EmptyString 443) listener0) eng_made.
Definition listener : SCFConnectionImpl := hd listener0 listening.1.
Definition both : list SCFConnectionImpl * World := step_ [] (run_op OAccept listener) listening.2.
Definition child : SCFConnectionImpl := hd listener0 both.1.

Lemma eng_reach_made : eng_reach [listener0] eng_made.
Proof.
  refine (eng_create [] eng_up server_cfg (Some listener0) eng_made _ _); [|vm_compute; reflexivity].
  refine (eng_init [] world0 SCF_INIT_FLAG_OPENSSL (Some "/usr/lib64"%string) 0 eng_up eng_start _).
  vm_compute; reflexivity.
Qed.

Lemma run_listening :
  run_op (OListen EmptyString 443) listener0 eng_made = Some ([listener], listening.2).
Proof. vm_compute; reflexivity. Qed.
Lemma run_both : run_op OAccept listener listening.2 = Some ([child; listener], both.2).
Proof. vm_compute; reflexivity. Qed.

Lemma eng_reach_both : eng_reach [child; listener] both.2.
Proof.
  pose proof run_listening as H1. pose proof run_both as H2. revert H1 H2.
  generalize both.2 listening.2 child listener. intros w2 w1 ch l H1 H2.
  assert (R1 : eng_reach [l] w1)
    by exact (eng_op _ listener0 [] _ (OListen EmptyString 443) [l] _ eng_reach_made (Permutation_refl _) I H1).
  exact (eng_op _ l [] _ OAccept [ch; l] _ R1 (Permutation_refl _) I H2).
Qed.

Lemma engines_outlive_users_witness :
  m_cryptoEngine child = 1 /\ m_ownsCryptoEngine child = false /\
  owned [child; listener] = [1] /\ 1 ∈ engines (w_log both.2).
Proof.
  assert (He : m_cryptoEngine child = 1) by (vm_compute; reflexivity).
  split; [exact He|]. split; [vm_compute; reflexivity|]. split; [vm_compute; reflexivity|].
  destruct (engines_outlive_users [child; listener] both.2 eng_reach_both) as (_ & _ & _ & Hc & _).
  rewrite <- He. apply Hc; [apply list_elem_of_here|]. rewrite He. discriminate.
Defined.

(** *** Why the rule is needed *)

(** [Accept] shares the engine of the listener without counting its users: when the listener
    is deleted first, a connection that is connected is left with a deleted engine, in whose
    provider context its TLS context lives. *)
Definition orphaned : list SCFConnectionImpl * World := step_ [] (run_op ODestroy listener) both.2.

Example engine_of_child_deleted :
  GetState child = SCF_CONN_CONNECTED /\ m_cryptoEngine child <> nullptr /\
  orphaned.1 = [] /\ elements (engines (w_log both.2)) = [m_cryptoEngine child] /\
  elements (engines (w_log orphaned.2)) = [] /\
  existsb (fun e => match ev_fn e, ev_args e with
    | engine_GetProviderContext, [AInt p] => p =? m_cryptoEngine child | _, _ => false end)
    (w_log both.2) = true.
Proof. split_and!; try (vm_compute; reflexivity). vm_compute. discriminate. Qed.

(** When that connection connects again, it hands the deleted engine to the adaptor once more,
    and the log lines ask it the two questions. *)
Definition reconnected : World := (step_ [] (run_op (OConnect "127.0.0.1" 443) child) orphaned.2).2.

Example deleted_engine_is_asked :
  existsb (fun k => match drop k (w_log reconnected) with
    | e :: h =>
        match ev_fn e, ev_args e with
        | engine_IsHardwareAccelerated, [AInt p] =>
            (p =? m_cryptoEngine child) && bool_decide (elements (engines h) = [])
        | _, _ => false
        end
    | [] => false
    end) (seq 0 (length (w_log reconnected))) = true.
Proof. vm_compute; reflexivity. Qed.
End witnesses.
