(* ===== verification/Typing.v ===== *)
(** * The types the state keeps

    What the C++ types of the fields leave open: the enumerations hold values from a list, the
    limits of key renewal are in range, the counters fit their width, and the tables of the
    access control are in order, in every context and object a process has, whatever calls
    it made. No discipline is asked of the client; a call that would be undefined behaviour
    has no next state. [TlsAdaptorTyped] is what the adaptor promises for it. *)
From Stdlib Require Import ZArith Lia Ascii String.
From stdpp Require Import base list fin_maps gmap strings.
From S2P Require Import Prelude Errno Types PolicyMatcher Rbac RbacInv FileCheck FileCtx Machine.
From S2P Require Import OpenSSL OpenSSLCfg Adaptor Api Conn Lifecycle Local.
Open Scope Z_scope.

(** ** Well-typed states *)

(** The values of the enumerations, written out from their declarations ([scf_def.h]): a role
    is NONE, CLIENT or SERVER, a policy mode HIGH, MIDDLE or CUSTOMER. A verification mode is
    NONE, DEFAULT, or any number with the bit of PEER (2): the other bits are not looked at. *)
Definition policy_ok (role verifyMode policyMode : Z) : bool :=
  bool_decide (role ∈ [0; 1; 2]) &&
  (bool_decide (verifyMode ∈ [0; 1]) || Z.testbit verifyMode 2) &&
  bool_decide (policyMode ∈ [0; 1; 2]).
(** A year of seconds; 1000 bytes to what 64 bits hold. *)
Definition update_limits_ok (time traffic : Z) : bool :=
  (1 <=? time) && (time <=? 31536000) && (1000 <=? traffic) && (traffic <=? 18446744073709551615).

(** What [SCF_SetPolicy] lets through. *)
Lemma checked_policy_ok role verifyMode policyMode :
  CheckRole role = SCF_SUCCESS -> CheckVerifyMode verifyMode = SCF_SUCCESS ->
  CheckPolicyMode policyMode = SCF_SUCCESS -> policy_ok role verifyMode policyMode = true.
Proof.
  intros Hr Hv Hm. unfold policy_ok. rewrite !andb_true_iff, orb_true_iff, !bool_decide_eq_true.
  rewrite !elem_of_cons. unfold CheckRole in Hr. unfold CheckVerifyMode in Hv. unfold CheckPolicyMode in Hm.
  split_and!.
  - destruct (_ || _) eqn:E in Hr; [|done]. apply orb_true_iff in E as [E|E]; bools; tauto.
  - destruct (_ || _ || _) eqn:E in Hv; [|done].
    apply orb_true_iff in E as [[E|E]%orb_true_iff|E]; bools; [tauto..|]. right.
    apply (f_equal (fun x => Z.testbit x 2)) in E. rewrite Z.land_spec in E.
    change (Z.testbit SCF_VERIFY_PEER 2) with true in E. by rewrite andb_true_r in E.
  - destruct (_ || _ || _) eqn:E in Hm; [|done].
    apply orb_true_iff in E as [[E|E]%orb_true_iff|E]; bools; tauto.
Qed.

Record ctx_typed (c : SCFPolicyCtx) : Prop := {
  ct_refCnt : is_u32 (ctx_refCnt c);
  ct_policy : policy_ok (ctx_role c) (ctx_verifyMode c) (ctx_policyMode c) = true;
  ct_limits : update_limits_ok (ctx_keyUpdateTime c) (ctx_keyUpdateTraffic c) = true;
  ct_rbac : rbac_wf c
}.

Record obj_typed (o : SCFPolicyObj) : Prop := {
  ot_policy : policy_ok (obj_role o) (obj_verifyMode o) (obj_policyMode o) = true;
  ot_limits : update_limits_ok (kui_timeInterval (obj_keyUpdateInfo o))
                (kui_trafficThreshold (obj_keyUpdateInfo o)) = true;
  ot_total : is_u64 (kui_totalSizeOfWriteData (obj_keyUpdateInfo o));
  ot_last : is_u64 (kui_lastKeyUpdateTime (obj_keyUpdateInfo o));
  ot_count : is_u32 (kui_totalKeyUpdateCnt (obj_keyUpdateInfo o));
  ot_fd : -1 <= obj_fd o
}.

Definition typed (w : World) : Prop :=
  map_Forall (fun _ => ctx_typed) (w_ctxs w) /\ map_Forall (fun _ => obj_typed) (w_objs w).

(** A program that keeps the state well typed. *)
Definition keeps {X} (m : M X) : Prop := forall w, typed w -> wlp m (fun _ w' => typed w') w.

Section keeps_rules.
Context `{Library}.

Lemma ty_ret {X} (x : X) : keeps (mret x).
Proof. by intros w Hw. Qed.

Lemma ty_bind {X Y} (m : M X) (f : X -> M Y) : keeps m -> (forall x, keeps (f x)) -> keeps (m ≫= f).
Proof.
  intros Hm Hf w Hw. apply wlp_bind. eapply wlp_mono; [by apply Hm|]. intros x w1 H1. by apply Hf.
Qed.

Lemma keeps_gets {X} (f : World -> X) : keeps (gets f).
Proof. by intros w Hw. Qed.

Lemma keeps_modify f :
  (forall w, w_ctxs (f w) = w_ctxs w /\ w_objs (f w) = w_objs w) -> keeps (modify f).
Proof. intros Hf w [Hc Ho]. destruct (Hf w) as [Ec Eo]. split; [by rewrite Ec|by rewrite Eo]. Qed.

Lemma ty_lib f args : keeps (lib f args).
Proof. intros w Hw. by apply wlp_lib. Qed.

Lemma ty_lib_deref f p args : keeps (lib_deref f p args).
Proof. unfold lib_deref. destruct (p =? nullptr); [by intros w Hw|apply ty_lib]. Qed.

Lemma keeps_get_ctx {Y} p (f : SCFPolicyCtx -> M Y) :
  (forall c, ctx_typed c -> keeps (f c)) -> keeps (get_ctx p ≫= f).
Proof.
  intros Hf w Hw. apply wlp_bind. unfold wlp at 1, get_ctx. destruct (w_ctxs w !! p) eqn:E; [|done].
  apply Hf; [|done]. by eapply (proj1 Hw).
Qed.

Lemma keeps_get_obj {Y} p (f : SCFPolicyObj -> M Y) :
  (forall o, obj_typed o -> keeps (f o)) -> keeps (get_obj p ≫= f).
Proof.
  intros Hf w Hw. apply wlp_bind. unfold wlp at 1, get_obj. destruct (w_objs w !! p) eqn:E; [|done].
  apply Hf; [|done]. by eapply (proj2 Hw).
Qed.

Lemma keeps_upd_ctx p f : (forall c, ctx_typed c -> ctx_typed (f c)) -> keeps (upd_ctx p f).
Proof.
  intros Hf w [Hc Ho]. unfold wlp, upd_ctx. destruct (w_ctxs w !! p) eqn:E; [|done].
  split; [|done]. apply map_Forall_insert_2; [|done]. by eapply Hf, Hc.
Qed.

Lemma keeps_upd_obj p f : (forall o, obj_typed o -> obj_typed (f o)) -> keeps (upd_obj p f).
Proof.
  intros Hf w [Hc Ho]. unfold wlp, upd_obj. destruct (w_objs w !! p) eqn:E; [|done].
  split; [done|]. apply map_Forall_insert_2; [|done]. by eapply Hf, Ho.
Qed.

Lemma keeps_delete_ctx p : keeps (delete_ctx p).
Proof.
  intros w [Hc Ho]. unfold wlp, delete_ctx. destruct (w_ctxs w !! p); [|done].
  split; [by apply map_Forall_delete|done].
Qed.
Lemma keeps_delete_obj p : keeps (delete_obj p).
Proof.
  intros w [Hc Ho]. unfold wlp, delete_obj. destruct (w_objs w !! p); [|done].
  split; [done|by apply map_Forall_delete].
Qed.
Lemma keeps_new_ctx c : ctx_typed c -> keeps (new_ctx c).
Proof. intros Hc w [? ?]. split; [by apply map_Forall_insert_2|done]. Qed.
Lemma keeps_new_obj o : obj_typed o -> keeps (new_obj o).
Proof. intros Ho w [? ?]. split; [done|by apply map_Forall_insert_2]. Qed.
Lemma keeps_fault {X} : keeps (fault (A := X)).
Proof. by intros w Hw. Qed.

(** [gettimeofday] fills a 64-bit clock. *)
Lemma keeps_sys_time {Y} (f : Z * Z -> M Y) :
  (forall now, is_u64 now.2 -> keeps (f now)) -> keeps (sys_time ≫= f).
Proof.
  intros Hf w Hw. apply wlp_bind. unfold sys_time. apply wlp_bind, wlp_lib. intros r _.
  apply wlp_bind. unfold wlp at 1, lib_out, gets. apply wlp_ret, Hf; [|done]. cbn [snd].
  destruct (r =? 0); [apply wrap64_range|unfold is_u64, UINT64_MAX; lia].
Qed.
End keeps_rules.

Lemma rbac_wf_ext c c' :
  ctx_policyRuleMap c' = ctx_policyRuleMap c -> ctx_nextPolicyRuleId c' = ctx_nextPolicyRuleId c ->
  ctx_nodeRoleMap c' = ctx_nodeRoleMap c -> rbac_wf c -> rbac_wf c'.
Proof. intros Hr Hn Hm [? ?]. split; [by apply (rules_wf_ext c)|by apply (nodes_wf_ext c)]. Qed.

(** The fields one write leaves as they were. *)
Ltac typed_fields :=
  let x := fresh "x" in let T := fresh "T" in
  intros x T; destruct T; split; first [assumption | by apply (rbac_wf_ext x) | idtac].

Create HintDb keeps.
Ltac keeps_step :=
  match goal with
  | |- forall _, _ => intro
  | |- keeps (if ?b then _ else _) => destruct b eqn:?
  | |- keeps (let '_ := ?p in _) => destruct p eqn:?
  | |- keeps (mret _) => apply ty_ret
  | |- keeps fault => apply keeps_fault
  | |- keeps (gets _) => apply keeps_gets
  | |- keeps lib_out => apply keeps_gets
  | |- keeps (lib_cstring _) => apply keeps_gets
  | |- keeps (lib_asn1 _) => apply keeps_gets
  | |- keeps (lib_bytes _ _) => apply keeps_gets
  | |- keeps (lib _ _) => apply ty_lib
  | |- keeps (lib_deref _ _ _) => apply ty_lib_deref
  | |- keeps (upd_ctx _ _) => apply keeps_upd_ctx; [solve [typed_fields]]
  | |- keeps (upd_obj _ _) => apply keeps_upd_obj; [solve [typed_fields]]
  | |- keeps (delete_ctx _) => apply keeps_delete_ctx
  | |- keeps (delete_obj _) => apply keeps_delete_obj
  | |- keeps (sys_time ≫= _) => apply keeps_sys_time; intros ? ?
  | |- keeps (get_ctx _ ≫= _) => apply keeps_get_ctx; intros ? ?
  | |- keeps (get_obj _ ≫= _) => apply keeps_get_obj; intros ? ?
  | |- keeps (_ ≫= _) => apply ty_bind; [|intro]
  | |- keeps (match ?x with _ => _ end) => destruct x
  | |- keeps _ => progress eauto with keeps nocore
  end.
Ltac keeps := repeat keeps_step.

(** ** The promise of an adaptor *)
Class TlsAdaptorTyped (A : TlsAdaptor) : Prop := {
  ty_a_Init flag settings : keeps (a_Init flag settings);
  ty_a_DeInit : keeps a_DeInit;
  ty_a_FreeSslObj obj : keeps (a_FreeSslObj obj);
  ty_a_Connect obj : keeps (a_Connect obj);
  ty_a_Accept obj : keeps (a_Accept obj);
  ty_a_Read obj d n : keeps (a_Read obj d n);
  ty_a_Write obj d n : keeps (a_Write obj d n);
  ty_a_Close obj : keeps (a_Close obj);
  ty_a_SetFd obj fd : 0 <= fd -> keeps (a_SetFd obj fd);
  ty_a_KeyUpdate obj t : keeps (a_KeyUpdate obj t);
  ty_a_GetVersion obj : keeps (a_GetVersion obj);
  ty_a_GetPeerCert obj : keeps (a_GetPeerCert obj);
  ty_a_GetCurrentCert obj : keeps (a_GetCurrentCert obj);
  ty_a_CipherFind obj i : keeps (a_CipherFind obj i);
  ty_a_FreeSsl ctx : keeps (a_FreeSsl ctx);
  ty_a_AddCert ctx fc type : keeps (a_AddCert ctx fc type);
  ty_a_SetKey ctx k : keeps (a_SetKey ctx k);
  ty_a_SetCipherSuites ctx s : keeps (a_SetCipherSuites ctx s);
  ty_a_GetCipherSuites ctx d n : keeps (a_GetCipherSuites ctx d n);
  ty_a_SetProtocolVersion ctx lo hi vs : keeps (a_SetProtocolVersion ctx lo hi vs);
  ty_a_SetAppVerifyCallback ctx cb arg : keeps (a_SetAppVerifyCallback ctx cb arg);
  ty_a_CheckPrivateKey ctx : keeps (a_CheckPrivateKey ctx);
  ty_a_SetVerifyMode ctx m : keeps (a_SetVerifyMode ctx m);
  ty_a_InitPolicyByMode ctx : keeps (a_InitPolicyByMode ctx);
  ty_a_SetPskFindSessionCallback ctx cb : keeps (a_SetPskFindSessionCallback ctx cb);
  ty_a_SetPskUseSessionCallback ctx cb : keeps (a_SetPskUseSessionCallback ctx cb)
}.
#[export] Hint Resolve ty_a_Init ty_a_DeInit ty_a_FreeSslObj ty_a_Connect ty_a_Accept ty_a_Read
  ty_a_Write ty_a_Close ty_a_KeyUpdate ty_a_GetVersion ty_a_GetPeerCert ty_a_GetCurrentCert
  ty_a_CipherFind ty_a_FreeSsl ty_a_AddCert ty_a_SetKey ty_a_SetCipherSuites
  ty_a_GetCipherSuites ty_a_SetProtocolVersion ty_a_SetAppVerifyCallback ty_a_CheckPrivateKey
  ty_a_SetVerifyMode ty_a_InitPolicyByMode ty_a_SetPskFindSessionCallback
  ty_a_SetPskUseSessionCallback : keeps.

Section openssl_typed.
Context `{Library} `{SecureC} `{FileSystem}.

Lemma keeps_print_errors : keeps print_errors.
Proof. unfold print_errors. keeps. Qed.
Lemma keeps_GetCurrentCert obj : keeps (GetCurrentCert obj).
Proof. unfold GetCurrentCert. keeps. Qed.
Lemma keeps_copy_time t : keeps (copy_time t).
Proof. unfold copy_time. keeps. Qed.
Hint Resolve keeps_print_errors keeps_GetCurrentCert keeps_copy_time : keeps.

Lemma keeps_LogCertError obj : keeps (LogCertError obj).
Proof.
  unfold LogCertError, GetCertVersion, GetCertSerialNumber, GetCertStartTime, GetCertEndTime. keeps.
Qed.
Hint Resolve keeps_LogCertError : keeps.
Lemma keeps_handshake obj role fn : keeps (handshake obj role fn).
Proof. unfold handshake, HandleTransPortError. keeps. Qed.
Lemma keeps_CheckVersion obj : keeps (CheckVersion obj).
Proof. unfold CheckVersion, SSL_CTX_get_min_proto_version, SSL_CTX_get_max_proto_version. keeps. Qed.
Lemma keeps_FreeSsl ctx : keeps (FreeSsl ctx).
Proof. unfold FreeSsl. keeps. Qed.
Lemma keeps_LoadCaChain n sslCtx b : keeps (LoadCaChain n sslCtx b).
Proof. induction n as [|n IH]; simpl; unfold SSL_CTX_add_extra_chain_cert; keeps. Qed.
Lemma keeps_DeInit : keeps DeInit.
Proof. unfold DeInit. keeps. Qed.
Hint Resolve keeps_CheckVersion keeps_FreeSsl keeps_LoadCaChain keeps_DeInit : keeps.

Lemma keeps_AddCert ctx fc type : keeps (AddCert ctx fc type).
Proof.
  unfold AddCert, AddCaCert, AddCaCertByFile, AddCaCertByBuffer, CertBuffer2X509, AddEeCert,
    AddEeCertByFile, AddEeCertByBuffer, ErrErrorString, LoadEeCert, AddCrl, ReadCrlByFile,
    ReadCrlByBuffer, AddEeChain, AddEeChainByFile, AddEeChainByBuffer, LoadEeCert. keeps.
Qed.

Lemma keeps_SetProtocolVersion ctx lo hi vs : keeps (SetProtocolVersion ctx lo hi vs).
Proof.
  unfold SetProtocolVersion, SSL_CTX_set_min_proto_version, SSL_CTX_set_max_proto_version. keeps.
Qed.
Hint Resolve keeps_SetProtocolVersion : keeps.

Lemma keeps_InitPolicyByMode ctx : keeps (InitPolicyByMode ctx).
Proof.
  unfold InitPolicyByMode, InitSsl, InitSslCustomer, new_ssl_ctx, log_engine, CalGetSslMethod,
    disable_session_cache, SSL_CTX_set_session_cache_mode, SSL_CTX_get_session_cache_mode. keeps.
Qed.

Lemma keeps_SetFd obj fd : 0 <= fd -> keeps (SetFd obj fd).
Proof.
  intros Hfd. unfold SetFd. keeps. apply keeps_upd_obj. typed_fields. cbn. lia.
Qed.

Lemma keeps_KeyUpdate obj t : keeps (KeyUpdate obj t).
Proof.
  unfold KeyUpdate. keeps. apply keeps_upd_obj. typed_fields; cbn; unfold is_u64, UINT64_MAX; lia.
Qed.

Lemma keeps_get_ciphers_loop n : forall i stack data, keeps (get_ciphers_loop n i stack data).
Proof. induction n as [|n IH]; simpl; keeps. Qed.
Hint Resolve keeps_get_ciphers_loop : keeps.

#[export] Instance OpenSSLAdaptorTyped : TlsAdaptorTyped OpenSSLAdaptor.
Proof.
  split; intros; cbn [a_Init a_DeInit a_FreeSslObj a_Connect a_Accept a_Read a_Write a_Close
    a_SetFd a_KeyUpdate a_GetVersion a_GetPeerCert a_GetCurrentCert a_CipherFind a_FreeSsl
    a_AddCert a_SetKey a_SetCipherSuites a_GetCipherSuites a_SetProtocolVersion
    a_SetAppVerifyCallback a_CheckPrivateKey a_SetVerifyMode a_InitPolicyByMode
    a_SetPskFindSessionCallback a_SetPskUseSessionCallback OpenSSLAdaptor];
    first [ apply keeps_handshake | by apply keeps_SetFd | apply keeps_KeyUpdate
          | apply keeps_AddCert | apply keeps_InitPolicyByMode
          | unfold Init, FreeSslObj, OpenSSL.Read, OpenSSL.Write, OpenSSL.Close, GetVersion,
              GetPeerCert, CipherFind, SetKey, SetKeyByFile, SetKeyByBuffer, KeyBuffer2Evp,
              SetCipherSuites, GetCipherSuites, SetAppVerifyCallback, CheckPrivateKey,
              SetVerifyMode, SetPskFindSessionCallback, SetPskUseSessionCallback; keeps ].
Qed.
End openssl_typed.

(** ** Every handler keeps the types *)
Lemma new_policy_ctx_typed : ctx_typed new_policy_ctx.
Proof.
  split; [unfold is_u32, UINT32_MAX; cbn; lia|reflexivity|reflexivity|apply new_ctx_wf].
Qed.

(** The access control writes its tables only. *)
Lemma run_op_typed e op c : op_ok op -> ctx_typed c -> ctx_typed (run_op e op c).1.2.
Proof.
  intros Hok T. assert (Hw : rbac_wf (run_op e op c).1.2) by (apply run_op_wf; [done|apply T]).
  assert (Hs : ctx_refCnt (run_op e op c).1.2 = ctx_refCnt c /\
    policy_of (run_op e op c).1.2 = policy_of c /\
    ctx_keyUpdateTime (run_op e op c).1.2 = ctx_keyUpdateTime c /\
    ctx_keyUpdateTraffic (run_op e op c).1.2 = ctx_keyUpdateTraffic c).
  { destruct op as [s t rt act eff|id|n role|n| |b].
    - by destruct (run_op_Add e c s t rt act eff) as [(_ & -> & _)|(_ & -> & _)].
    - by destruct (run_op_Remove e c id) as [_ [-> | ->]].
    - by destruct (run_op_Set e c n role) as [_ [-> |(_ & _ & _ & _ & ->)]].
    - by destruct (run_op_RemoveNode e c n) as [_ [-> |(_ & _ & ->)]].
    - done.
    - by destruct (run_op_Enable e c b) as [_ [-> | ->]]. }
  destruct Hs as (E1 & [= _ E2 E3 E4] & E5 & E6), T.
  split; [by rewrite E1|by rewrite E2, E3, E4|by rewrite E5, E6|done].
Qed.

Lemma wrap32_u32 x : is_u32 (wrap32 x).
Proof. unfold is_u32, UINT32_MAX, wrap32. pose proof (Z.mod_pos_bound x (2^32)). lia. Qed.

Lemma account_traffic_u64 total traffic n : is_u64 (account_traffic total traffic n).2.
Proof. unfold account_traffic. destruct (_ || _); apply wrap64_range. Qed.

Lemma upd_kui_typed f :
  (forall k, kui_timeInterval (f k) = kui_timeInterval k /\
             kui_trafficThreshold (f k) = kui_trafficThreshold k) ->
  (forall k, is_u64 (kui_totalSizeOfWriteData k) -> is_u64 (kui_totalSizeOfWriteData (f k))) ->
  (forall k, is_u64 (kui_lastKeyUpdateTime k) -> is_u64 (kui_lastKeyUpdateTime (f k))) ->
  (forall k, is_u32 (kui_totalKeyUpdateCnt k) -> is_u32 (kui_totalKeyUpdateCnt (f k))) ->
  forall o, obj_typed o -> obj_typed (upd_kui f o).
Proof.
  intros Hl Ht Hn Hc o []. destruct (Hl (obj_keyUpdateInfo o)) as [E1 E2].
  split; cbn [upd_kui obj_keyUpdateInfo set_obj_keyUpdateInfo obj_role obj_verifyMode
    obj_policyMode obj_fd]; try done; [by rewrite E1, E2|by apply Ht|by apply Hn|by apply Hc].
Qed.

Section api_typed.
Context `{Library} {A : TlsAdaptor} `{!TlsAdaptorTyped A} `{SecureC} `{Decryptor}.

Ltac api := unfold CHECK_RET, CHECK_READY, CHECK_SCF_INIT, CHECK_SCF_ADAPTOR; keeps.
Ltac kui := apply keeps_upd_obj, upd_kui_typed; try done; intros; cbn;
  try (unfold is_u64, UINT64_MAX; lia).

Lemma keeps_FreePolicyCtx ctx : keeps (SCF_FreePolicyCtx ctx).
Proof.
  unfold SCF_FreePolicyCtx. api. apply keeps_upd_ctx. match goal with T : ctx_typed _ |- _ => pose proof (ct_refCnt _ T) end.
  typed_fields. bools. unfold is_u32 in *. cbn. lia.
Qed.
Hint Resolve keeps_FreePolicyCtx : keeps.

Lemma keeps_CreatePolicyCtx : keeps SCF_CreatePolicyCtx.
Proof. unfold SCF_CreatePolicyCtx. api. apply keeps_new_ctx, new_policy_ctx_typed. Qed.

Lemma keeps_CreatePolicyObj ctx : keeps (SCF_CreatePolicyObj ctx).
Proof.
  unfold SCF_CreatePolicyObj. api.
  - apply keeps_upd_ctx. typed_fields. apply wrap32_u32.
  - apply keeps_new_obj. match goal with T : ctx_typed _ |- _ => destruct T end.
    split; cbn; try done; unfold is_u64, is_u32, UINT64_MAX, UINT32_MAX; lia.
Qed.

Lemma keeps_FreePolicyObj obj : keeps (SCF_FreePolicyObj obj).
Proof. unfold SCF_FreePolicyObj. api. Qed.
Lemma keeps_CheckNeedKeyUpdate obj n : keeps (CheckNeedKeyUpdate obj n).
Proof.
  unfold CheckNeedKeyUpdate, CheckTimeInterval. api; kui.
  match goal with E : account_traffic ?a ?b ?c = _ |- _ =>
    pose proof (account_traffic_u64 a b c) as Hu; rewrite E in Hu end. done.
Qed.
Hint Resolve keeps_CreatePolicyCtx keeps_CreatePolicyObj keeps_FreePolicyObj
  keeps_CheckNeedKeyUpdate : keeps.

Lemma keeps_SCF_SetPolicy ctx role v m : keeps (SCF_SetPolicy ctx role v m).
Proof.
  unfold SCF_SetPolicy. api;
    rewrite !orb_false_iff, !negb_false_iff in Heqb; destruct Heqb as [[[_ Hr] Hv] Hm]; bools;
    pose proof (checked_policy_ok _ _ _ Hr Hv Hm) as Hok;
    apply keeps_upd_ctx; typed_fields; cbn; unfold policy_ok in *; rewrite !andb_true_iff in *; tauto.
Qed.

(** The two limits are written one after the other, when both are in range. *)
Lemma keeps_SetKeyAutoUpdateParam ctx b t n : keeps (SCF_SetKeyAutoUpdateParam ctx b t n).
Proof.
  unfold SCF_SetKeyAutoUpdateParam. api;
    match goal with E : (_ || _) = false |- _ => rewrite !orb_false_iff, !Z.ltb_ge in E end;
    unfold MIN_KEY_UPDATE_TIME, MAX_KEY_UPDATE_TIME, MIN_KEY_UPDATE_TRAFFIC, MAX_KEY_UPDATE_TRAFFIC,
      UINT64_MAX in *;
    apply keeps_upd_ctx; typed_fields; unfold update_limits_ok in *; cbn;
    rewrite !andb_true_iff, !Z.leb_le in *; lia.
Qed.

Lemma keeps_ObjKeyUpdate obj : keeps (SCF_ObjKeyUpdate obj).
Proof. unfold SCF_ObjKeyUpdate. api; kui. apply wrap32_u32. Qed.

Lemma keeps_establish obj method : (forall o, keeps (method o)) -> keeps (establish obj method).
Proof.
  intros Hm. unfold establish, freeze_mapping. api.
Qed.

Lemma keeps_SCF_SetFd obj fd : keeps (SCF_SetFd obj fd).
Proof.
  unfold SCF_SetFd. api. apply ty_a_SetFd. 
  match goal with E : (_ || _) = false |- _ => apply orb_false_iff in E as [_ Hf] end.
  by apply Z.ltb_ge in Hf.
Qed.
Hint Resolve keeps_SCF_SetPolicy keeps_SetKeyAutoUpdateParam keeps_ObjKeyUpdate keeps_establish
  keeps_SCF_SetFd : keeps.

Lemma keeps_SCF_Init flag settings : keeps (SCF_Init flag settings).
Proof.
  unfold SCF_Init, SCFInitInner, RegisterTlsAdaptor. api; by apply keeps_modify.
Qed.
Lemma keeps_SCF_DeInit : keeps SCF_DeInit.
Proof.
  unfold SCF_DeInit, SCFDeInitInner, UnRegisterTlsAdaptor. api; by apply keeps_modify.
Qed.
Hint Resolve keeps_SCF_Init keeps_SCF_DeInit : keeps.

Lemma keeps_exec c : keeps (exec c).
Proof.
  destruct c; unfold exec, discard, SCF_GetPolicy, SCF_SetAppVerifyCallback,
    SCF_SetCipherSuites, SCF_GetCipherSuites, SCF_SetProtocolVersion, SCF_GetProtocolVersion,
    SCF_AddCert, SCF_SetKey, SCF_CheckPrivateKey, SCF_SetPskFindSessionCallback,
    SCF_SetPskUseSessionCallback, SCF_GetKeyAutoUpdateParam, SCF_GetKeyUpdateInfo,
    SCF_GetCurrentCert, SCF_GetPeerCert, SCF_SetUserData, SCF_GetUserData, SCF_CipherFind,
    SCF_Connect, SCF_Accept, SCF_Close, SCF_Read, SCF_Write; api.
Qed.

(** ** Histories of calls, the access control included *)
Inductive typed_reach : World -> Prop :=
| typed_start : typed_reach world0
| typed_call w c r w' : typed_reach w -> exec c w = Some (r, w') -> typed_reach w'
| typed_rbac w e op p c :
    typed_reach w -> op_ok op -> w_ctxs w !! p = Some c ->
    typed_reach (set_ctxs (<[p := (run_op e op c).1.2]> (w_ctxs w)) w).

(** (C11) Every state is well typed, over an adaptor that keeps the types of what it is given
    ([TlsAdaptorTyped]; the OpenSSL one does). In whatever order an undisciplined client makes the 33
    calls of the API and the operations of the access control, with whatever arguments, every
    context and object it has at any time holds a declared role and policy mode; a
    verification mode that is NONE, DEFAULT or has the bit of PEER set (whatever its other
    bits: those are not checked, so it need not be a declared combination); limits of key
    renewal within the documented range (1 second to a year, at least 1000 bytes); counters
    and times that fit their unsigned type; a descriptor of at least -1; and tables of rules
    and node roles in order. *)
Theorem states_well_typed w :
  typed_reach w ->
  map_Forall (fun _ => ctx_typed) (w_ctxs w) /\ map_Forall (fun _ => obj_typed) (w_objs w).
Proof.
  induction 1 as [|w c r w' _ IH Hc|w e op p c _ [IHc IHo] Hok Hp].
  - split; apply map_Forall_empty.
  - exact (wlp_run _ _ _ _ _ (keeps_exec c w IH) Hc).
  - split; [|done]. apply map_Forall_insert_2; [|done]. apply run_op_typed; [done|by eapply IHc].
Qed.
End api_typed.

(** A verification mode that no combination of the enumerators gives is accepted. *)
Example undeclared_mode_accepted :
  CheckVerifyMode 0xFFFFFFFF = SCF_SUCCESS /\
  (fun c => ctx_verifyMode c) <$> (w_ctxs (after (exec (CSetPolicy 1 SCF_ROLE_CLIENT 0xFFFFFFFF SCF_POLICY_HIGH)) w_one) !! 1)
    = Some 0xFFFFFFFF.
Proof. split; vm_compute; reflexivity. Qed.

(** ** Witness: limits out of range are refused, those in range are kept *)
Section witness.
Definition w_mapped : World :=
  set_ctxs (<[1 := (run_op env_up (OpSetNodeRoleMapping "n1" SCF_RBAC_ROLE_MASTER)
                      new_policy_ctx).1.2]> (w_ctxs w_one)) w_one.
Definition w_limits : World :=
  after (exec (CSetKeyAutoUpdateParam 1 true 60 5000)) w_mapped.
Definition w_refused : World :=
  after (exec (CSetKeyAutoUpdateParam 1 true 0 5000)) w_limits.
Definition w_obj : World := after (exec (CCreatePolicyObj 1)) w_refused.

Lemma typed_reach_obj : typed_reach w_obj.
Proof.
  refine (typed_call w_refused (CCreatePolicyObj 1) 2 w_obj _ _); [|by vm_compute].
  refine (typed_call w_limits (CSetKeyAutoUpdateParam 1 true 0 5000) SCF_SSL_ERR_SET_UPDATE_PARAM
            w_refused _ _); [|by vm_compute].
  refine (typed_call w_mapped (CSetKeyAutoUpdateParam 1 true 60 5000) 0 w_limits _ _); [|by vm_compute].
  apply typed_rbac; [|by vm_compute|by vm_compute].
  refine (typed_call w_up CCreatePolicyCtx 1 w_one _ _); [|by vm_compute].
  refine (typed_call world0 up_call 0 w_up _ _); [|by vm_compute].
  apply typed_start.
Qed.

Lemma states_well_typed_witness :
  exists c o, w_ctxs w_obj !! 1 = Some c /\ w_objs w_obj !! 2 = Some o /\
    ctx_typed c /\ obj_typed o /\ kui_timeInterval (obj_keyUpdateInfo o) = 60.
Proof.
  destruct (states_well_typed _ typed_reach_obj) as [Hc Ho].
  destruct (w_ctxs w_obj !! 1) as [c|] eqn:Ec; [|exact (False_rect _ (ltac:(vm_compute in Ec; discriminate)))].
  destruct (w_objs w_obj !! 2) as [o|] eqn:Eo; [|exact (False_rect _ (ltac:(vm_compute in Eo; discriminate)))].
  exists c, o. split; [done|]. split; [done|]. split; [by eapply Hc|]. split; [by eapply Ho|].
  vm_compute in Eo. by injection Eo as <-.
Defined.
End witness.
