(* ===== verification/Callbacks.v ===== *)
(** * Callbacks of the application

    The two singletons that hold the application's functions: the logger
    ([src/common/utils/custom_logger.cpp], [custom_logger.h]) and the cryptographic helper
    ([src/common/utils/crypto_util.cpp]), with the entry points of [src/callback/]. Functions
    are addresses; what the application's function at an address does is a parameter. *)
From Stdlib Require Import ZArith Lia Ascii String.
From stdpp Require Import base list strings pretty.
From S2P Require Import Prelude Errno Types FileCheck FileCtx.
Open Scope Z_scope.

(** ** The logger *)
Inductive LogLevel : Type :=
| LOG_LEVEL_TRACE | LOG_LEVEL_DEBUG | LOG_LEVEL_INFO | LOG_LEVEL_WARN | LOG_LEVEL_ERROR
| LOG_LEVEL_CRITICAL.
Definition log_level (l : LogLevel) : Z :=
  match l with
  | LOG_LEVEL_TRACE => 0 | LOG_LEVEL_DEBUG => 1 | LOG_LEVEL_INFO => 2 | LOG_LEVEL_WARN => 3
  | LOG_LEVEL_ERROR => 4 | LOG_LEVEL_CRITICAL => 5
  end.

(** One call of a logging function of the application: its address, the level, the text. *)
Record Delivery : Type := mkDelivery { dl_fn : Z; dl_level : Z; dl_msg : string }.

(** Both singletons, and what the logging functions were called with, the newest first. *)
Record Callbacks : Type := mkCallbacks {
  log_function_ : Z;
  cb_decryptFunction_ : Z;
  cb_encryptFunction_ : Z;
  cb_delivered : list Delivery
}.
Definition callbacks0 : Callbacks := mkCallbacks nullptr nullptr nullptr [].

Definition set_log_function_ (f : Z) (c : Callbacks) : Callbacks :=
  mkCallbacks f (cb_decryptFunction_ c) (cb_encryptFunction_ c) (cb_delivered c).
Definition set_decryptFunction_ (f : Z) (c : Callbacks) : Callbacks :=
  mkCallbacks (log_function_ c) f (cb_encryptFunction_ c) (cb_delivered c).
Definition set_encryptFunction_ (f : Z) (c : Callbacks) : Callbacks :=
  mkCallbacks (log_function_ c) (cb_decryptFunction_ c) f (cb_delivered c).
Definition deliver (d : Delivery) (c : Callbacks) : Callbacks :=
  mkCallbacks (log_function_ c) (cb_decryptFunction_ c) (cb_encryptFunction_ c)
    (d :: cb_delivered c).

Definition Logger_SetExternalLogFunction (func : Z) (c : Callbacks) : Callbacks :=
  return_if func =? nullptr with set_log_function_ nullptr c ;;
  set_log_function_ func c.

(** The function receives the text as a C string. *)
Definition Log (level : Z) (oss : string) (c : Callbacks) : Callbacks :=
  if negb (log_function_ c =? nullptr)
  then deliver (mkDelivery (log_function_ c) level (buf_cstr (bytes oss ++ [NUL]))) c
  else c.

(** [strrchr(path, '/')]: what follows the last slash. *)
Fixpoint after_slash (path : string) : option string :=
  match path with
  | EmptyString => None
  | String ch rest =>
      match after_slash rest with
      | Some name => Some name
      | None => if Ascii.eqb ch "/" then Some rest else None
      end
  end.
Definition CCSEC_LOG_FILENAME (file : string) : string := default file (after_slash file).

Definition CCSEC_LOG (file : string) (line : Z) (level : LogLevel) (args : string)
    (c : Callbacks) : Callbacks :=
  let oss := ("[CCSEC " ++ CCSEC_LOG_FILENAME file ++ ":" ++ pretty line ++ "] " ++ args)%string in
  Log (log_level level) oss c.

(** The call is announced to the function that was registered before. *)
Definition SetExternalLogFunction (func : Z) (c : Callbacks) : Callbacks :=
  let c := CCSEC_LOG "src/callback/logger_callback.cpp" 21 LOG_LEVEL_INFO
             "|SetExternalLogFunction|START|||set external log function" c in
  Logger_SetExternalLogFunction func c.

(** ** Encryption and decryption of passwords *)
Definition SetExternalDecryptFunction (func : Z) (c : Callbacks) : Callbacks :=
  set_decryptFunction_ (if func =? nullptr then nullptr else func) c.
Definition SetExternalEncryptFunction (func : Z) (c : Callbacks) : Callbacks :=
  set_encryptFunction_ (if func =? nullptr then nullptr else func) c.

(** What the function of the application at an address answers: whether it succeeded, and
    what it leaves in the vector it is given. *)
Class AppFunctions : Type := app_function : Z -> list ascii -> bool * list ascii.

Section crypto_util.
Context `{AppFunctions}.

(** [fn != nullptr && fn(content, len, out)]; the vector on return. *)
Definition crypt_with (fn : Z) (content : list ascii) : bool * list ascii :=
  if negb (fn =? nullptr) then app_function fn content else (false, []).
Definition CryptoUtil_Encrypt (content : list ascii) (c : Callbacks) : bool * list ascii :=
  crypt_with (cb_encryptFunction_ c) content.
Definition CryptoUtil_Decrypt (content : list ascii) (c : Callbacks) : bool * list ascii :=
  crypt_with (cb_decryptFunction_ c) content.

(** The decryption callback as the file contexts see it. *)
Definition decryptor_of (c : Callbacks) : Decryptor := {|
  decryptFunction_ := Some (fun content => CryptoUtil_Decrypt content c)
|}.
End crypto_util.

(** ** Histories of calls *)
Inductive CbCall : Type :=
| CbSetLog (func : Z)
| CbSetDecrypt (func : Z)
| CbSetEncrypt (func : Z)
| CbLog (file : string) (line : Z) (level : LogLevel) (args : string).

Definition run_cb (c : Callbacks) (call : CbCall) : Callbacks :=
  match call with
  | CbSetLog f => SetExternalLogFunction f c
  | CbSetDecrypt f => SetExternalDecryptFunction f c
  | CbSetEncrypt f => SetExternalEncryptFunction f c
  | CbLog file line level args => CCSEC_LOG file line level args c
  end.
Definition run_cbs (h : list CbCall) : Callbacks := foldl run_cb callbacks0 h.

(** ** Specification: the last registration counts *)
Definition last_set (sets : CbCall -> option Z) (h : list CbCall) : Z :=
  default nullptr (last (omap sets h)).
Definition sets_log (c : CbCall) : option Z := match c with CbSetLog f => Some f | _ => None end.
Definition sets_decrypt (c : CbCall) : option Z := match c with CbSetDecrypt f => Some f | _ => None end.
Definition sets_encrypt (c : CbCall) : option Z := match c with CbSetEncrypt f => Some f | _ => None end.

(** The level and text of the message a call sends. *)
Definition message (c : CbCall) : option (Z * string) :=
  match c with
  | CbSetLog _ => Some (2, "[CCSEC logger_callback.cpp:21] |SetExternalLogFunction|START|||set external log function"%string)
  | CbLog file line level args => Some (log_level level,
      buf_cstr (bytes ("[CCSEC " ++ CCSEC_LOG_FILENAME file ++ ":" ++ pretty line ++ "] " ++ args) ++ [NUL]))
  | _ => None
  end.

(** Each message goes to the function registered last before it, the oldest first. *)
Fixpoint deliveries (before : list CbCall) (h : list CbCall) : list Delivery :=
  match h with
  | [] => []
  | c :: h =>
      match message c with
      | Some (level, msg) =>
          if last_set sets_log before =? nullptr then deliveries (before ++ [c]) h
          else mkDelivery (last_set sets_log before) level msg :: deliveries (before ++ [c]) h
      | None => deliveries (before ++ [c]) h
      end
  end.

(** ** The singletons implement it *)
Lemma last_set_snoc sets h c :
  last_set sets (h ++ [c]) = match sets c with Some f => f | None => last_set sets h end.
Proof.
  unfold last_set. rewrite omap_app. cbn. destruct (sets c); [by rewrite last_snoc|].
  by rewrite app_nil_r.
Qed.

Lemma run_cbs_snoc h c : run_cbs (h ++ [c]) = run_cb (run_cbs h) c.
Proof. unfold run_cbs. by rewrite foldl_app. Qed.

Lemma nullptr_id f : (if f =? nullptr then nullptr else f) = f.
Proof. by destruct (Z.eqb_spec f nullptr) as [->|]. Qed.

Lemma Log_keeps level oss c :
  log_function_ (Log level oss c) = log_function_ c /\
  cb_decryptFunction_ (Log level oss c) = cb_decryptFunction_ c /\
  cb_encryptFunction_ (Log level oss c) = cb_encryptFunction_ c.
Proof. unfold Log. by destruct (negb _). Qed.

(** The three functions in force are the ones registered last. *)
Lemma run_cb_current c call :
  log_function_ (run_cb c call) = default (log_function_ c) (sets_log call) /\
  cb_decryptFunction_ (run_cb c call) = default (cb_decryptFunction_ c) (sets_decrypt call) /\
  cb_encryptFunction_ (run_cb c call) = default (cb_encryptFunction_ c) (sets_encrypt call).
Proof.
  destruct call as [f|f|f|file line level args]; cbn [run_cb sets_log sets_decrypt sets_encrypt default].
  - unfold SetExternalLogFunction, Logger_SetExternalLogFunction, CCSEC_LOG.
    match goal with |- context [Log ?l ?o c] => destruct (Log_keeps l o c) as (_ & Hd & He) end.
    destruct (Z.eqb_spec f nullptr) as [->|]; by split_and!.
  - unfold SetExternalDecryptFunction. by rewrite nullptr_id.
  - unfold SetExternalEncryptFunction. by rewrite nullptr_id.
  - apply Log_keeps.
Qed.

Lemma run_cbs_current h :
  log_function_ (run_cbs h) = last_set sets_log h /\
  cb_decryptFunction_ (run_cbs h) = last_set sets_decrypt h /\
  cb_encryptFunction_ (run_cbs h) = last_set sets_encrypt h.
Proof.
  induction h as [|c h IH] using rev_ind; [done|]. destruct IH as (E1 & E2 & E3).
  rewrite run_cbs_snoc. destruct (run_cb_current (run_cbs h) c) as (-> & -> & ->).
  rewrite !last_set_snoc, <- E1, <- E2, <- E3.
  split_and!; [by destruct (sets_log c)|by destruct (sets_decrypt c)|by destruct (sets_encrypt c)].
Qed.

Lemma run_cb_delivered c call :
  cb_delivered (run_cb c call) =
  match message call with
  | Some (level, msg) =>
      if log_function_ c =? nullptr then cb_delivered c
      else mkDelivery (log_function_ c) level msg :: cb_delivered c
  | None => cb_delivered c
  end.
Proof.
  destruct call as [f|f|f|file line level args]; try done; cbn [run_cb message].
  - unfold SetExternalLogFunction, Logger_SetExternalLogFunction, CCSEC_LOG, Log.
    by destruct (log_function_ c =? nullptr), (f =? nullptr).
  - unfold CCSEC_LOG, Log. by destruct (log_function_ c =? nullptr).
Qed.

Lemma deliveries_snoc h : forall before c,
  deliveries before (h ++ [c]) = deliveries before h ++ deliveries (before ++ h) [c].
Proof.
  induction h as [|x h IH]; intros before c; [by rewrite app_nil_r|].
  cbn [app deliveries]. rewrite IH, <- app_assoc. cbn [app].
  destruct (message x) as [[level msg]|]; [|done]. by destruct (_ =? _).
Qed.

Lemma run_cbs_delivered h : rev (cb_delivered (run_cbs h)) = deliveries [] h.
Proof.
  induction h as [|c h IH] using rev_ind; [done|].
  rewrite run_cbs_snoc, run_cb_delivered, deliveries_snoc, <- IH. cbn [app deliveries].
  rewrite (proj1 (run_cbs_current h)).
  destruct (message c) as [[level msg]|]; [|by rewrite app_nil_r].
  destruct (_ =? _); [by rewrite app_nil_r|done].
Qed.

Section passwords.
Context `{AppFunctions} `{SecureC} `{Uninit}.

(** The last registration counts. After any sequence of registrations and messages,
    the messages sent so far reached exactly the logging function that was registered last
    before each of them, in order, and none when that one was null; and the encrypted
    password of a file context is decrypted by the function registered last: without one it
    is refused and the context stays as it was, what the function left in its vector being
    released; with one that answers a text the call is the
    same as setting that text. *)
Theorem last_registration_counts h e fc p len :
  rev (cb_delivered (run_cbs h)) = deliveries [] h /\
  let set pwd n cipher := @SCF_FileCtxSetPwd _ (decryptor_of (run_cbs h)) _ e (Some fc) (Some pwd) n cipher in
  (g_scfInitialized e = true -> len <> 0 ->
   match crypt_with (last_set sets_decrypt h) (take (Z.to_nat len) p) with
   | (false, q) => set p len true = (SCF_ERROR, Some fc, [q])
   | (true, q) => q <> [] -> set p len true = set q (Z.of_nat (length q)) false
   end).
Proof.
  split; [apply run_cbs_delivered|]. intros set Hinit Hlen. unfold set. clear set.
  destruct (run_cbs_current h) as (_ & Hd & _).
  assert (Hdec : @Decrypt (decryptor_of (run_cbs h)) (take (Z.to_nat len) p) =
    crypt_with (last_set sets_decrypt h) (take (Z.to_nat len) p)) by (rewrite <- Hd; reflexivity).
  unfold SCF_FileCtxSetPwd. rewrite Hinit. cbn [negb].
  rewrite (proj2 (Z.eqb_neq len 0) Hlen), Hdec.
  destruct (crypt_with _ _) as [[] q]; [|done]. intros Hq.
  rewrite (proj2 (Z.eqb_neq (Z.of_nat (length q)) 0)) by (destruct q; [done|cbn; lia]).
  by rewrite Nat2Z.id, take_ge by lia.
Qed.
End passwords.

(** ** Witness: two loggers, two decryption functions *)
Section witness.
(** Function 7 reverses, function 8 refuses. *)
Definition demo_functions : AppFunctions := fun f content =>
  if f =? 7 then (true, rev content) else (false, []).
Definition demo_calls : list CbCall :=
  [ CbLog "a.cpp" 1 LOG_LEVEL_ERROR "nobody listens";
    CbSetLog 5; CbSetDecrypt 8; CbLog "src/b.cpp" 12 LOG_LEVEL_WARN "first";
    CbSetLog 6; CbSetDecrypt 7; CbLog "c.cpp" 3 LOG_LEVEL_INFO "second"; CbSetLog 0 ].

Lemma last_registration_counts_witness :
  deliveries [] demo_calls = rev (cb_delivered (run_cbs demo_calls)) /\
  (dl_fn <$> deliveries [] demo_calls) = [5; 5; 6; 6] /\
  @SCF_FileCtxSetPwd _ (@decryptor_of demo_functions (run_cbs demo_calls)) _ env_up
    (Some empty_file_ctx) (Some (bytes "terces")) 6 true =
  @SCF_FileCtxSetPwd _ (@decryptor_of demo_functions (run_cbs demo_calls)) _ env_up
    (Some empty_file_ctx) (Some (bytes "secret")) 6 false.
Proof.
  destruct (@last_registration_counts demo_functions _ _ demo_calls env_up empty_file_ctx
    (bytes "terces") 6) as [Hd Hp].
  split; [by rewrite Hd|]. split; [by vm_compute|].
  specialize (Hp eq_refl ltac:(lia)).
  change (crypt_with (last_set sets_decrypt demo_calls) (take (Z.to_nat 6) (bytes "terces")))
    with (true, bytes "secret") in Hp.
  by apply Hp.
Defined.
End witness.
