(* ===== verification/Sample.v ===== *)
(** * The sample programs of the connection object

    [sample/client_main_new.cpp] and [sample/server_main_new.cpp]: the documented use of
    [SCFConnection], as programs over the model of the library. Buffers and string literals
    are addresses; output is not modelled. Only one program has a loop of its own without a
    bound, [TestNonBlockingClient]: it carries fuel and answers [None] while still running. *)
From Stdlib Require Import ZArith Lia Ascii String.
From stdpp Require Import base list fin_maps gmap strings.
From S2P Require Import Prelude Errno Types FileCheck FileCtx Machine.
From S2P Require Import Adaptor Api Conn Lifecycle Config Connection.
Open Scope Z_scope.

(** [std::atoi]: blanks, a sign, digits. *)
Definition isspace (c : ascii) : bool :=
  let n := N_of_ascii c in ((n =? 32) || ((9 <=? n) && (n <=? 13)))%N.
Definition isdigit (c : ascii) : bool :=
  let n := N_of_ascii c in ((48 <=? n) && (n <=? 57))%N.
Fixpoint digits (acc : Z) (s : string) : Z :=
  match s with
  | String c s => if isdigit c then digits (acc * 10 + Z.of_N (N_of_ascii c) - 48) s else acc
  | EmptyString => acc
  end.
Fixpoint atoi (s : string) : Z :=
  match s with
  | EmptyString => 0
  | String c rest =>
      if isspace c then atoi rest
      else if Ascii.eqb c "-" then - digits 0 rest
      else if Ascii.eqb c "+" then digits 0 rest
      else digits 0 s
  end.

Section sample.
Context `{Library} {A : TlsAdaptor} `{SecureC} `{FileSystem} `{Decryptor} `{Uninit} `{FileAlloc}.
(** The addresses of a string literal and of a buffer on the stack. *)
Context (literal buffer : Z).

(** [ret] and the counter the method was given, 0 when it was not written. *)
Definition counted_io (r : Z * option Z) : Z * Z := (r.1, default 0 r.2).

(** ** client_main_new.cpp *)

(** The configuration of [TestClientNewAPI]. *)
Definition client_new_config : SCFConnectionConfig :=
  conn_config SCF_SECURITY_128BIT SCF_ROLE_CLIENT "/etc/scf/certs/ca.pem"
    "/etc/scf/certs/client.pem" "/etc/scf/certs/client-key.pem" SCF_CERT_VERIFY_REQUIRED
    EmptyString [] false.

Definition TestClientNewAPI (serverHost : string) (serverPort : Z) : M bool :=
  ret ← SCF_Init SCF_INIT_FLAG_OPENSSL None;
  return_if negb (ret =? SCF_SUCCESS) with (mret false) ;;
  conn ← Create client_new_config;
  match conn with
  | None => _ ← SCF_DeInit; mret false
  | Some conn =>
      r ← Connect serverHost serverPort conn;
      let '(ret, conn) := r in
      return_if negb (ret =? SCF_SUCCESS)
        with (_ ← destroy conn; _ ← SCF_DeInit; mret false) ;;
      r ← GetTLSVersion conn;
      let '(_, conn) := r in
      r ← Write literal 19 true conn;
      let '(_, conn) := r in
      r ← Read buffer 4096 true conn;
      let '(_, conn) := r in
      r ← Close conn;
      let '(_, conn) := r in
      _ ← destroy conn;
      _ ← SCF_DeInit;
      mret true
  end.

Definition TestClientConvenienceAPI (serverHost : string) (serverPort : Z) : M bool :=
  _ ← SCF_Init SCF_INIT_FLAG_OPENSSL None;
  conn ← SCF_NewClientConnection SCF_SECURITY_128BIT "/etc/scf/certs/ca.pem";
  match conn with
  | None => _ ← SCF_DeInit; mret false
  | Some conn =>
      r ← Connect serverHost serverPort conn;
      let '(_, conn) := r in
      r ← Read buffer 1024 true conn;
      let '(io, conn) := r in
      let '(_, n) := counted_io io in
      r ← Close conn;
      let '(_, conn) := r in
      _ ← destroy conn;
      _ ← SCF_DeInit;
      mret (0 <? n)
  end.

Definition TestPSKClient (serverHost : string) (serverPort : Z) : M bool :=
  _ ← SCF_Init SCF_INIT_FLAG_OPENSSL None;
  conn ← SCF_NewPSKConnection SCF_SECURITY_128BIT SCF_ROLE_CLIENT "psk-client-id"
           (bytes "my-secret-psk-key-v1");
  match conn with
  | None => _ ← SCF_DeInit; mret false
  | Some conn =>
      r ← Connect serverHost serverPort conn;
      let '(_, conn) := r in
      r ← Write literal 16 true conn;
      let '(_, conn) := r in
      r ← Close conn;
      let '(_, conn) := r in
      _ ← destroy conn;
      _ ← SCF_DeInit;
      mret true
  end.

(** What both servers do with a connection they accepted; [always]: answer even if nothing
    was received. *)
Definition serve (always : bool) (len : Z) (client : SCFConnectionImpl) : M unit :=
  r ← GetTLSVersion client;
  let '(_, client) := r in
  r ← Read buffer 4096 true client;
  let '(io, client) := r in
  let '(ret, _) := counted_io io in
  r ← (if always || (ret =? SCF_SUCCESS)
       then Write literal len true client else mret ((SCF_SUCCESS, None), client));
  let '(_, client) := r in
  r ← Close client;
  let '(_, client) := r in
  destroy client.

(** [TestServerNewAPI] of the client's file: one connection. *)
Definition TestServerNewAPI_once (listenPort : Z) : M bool :=
  _ ← SCF_Init SCF_INIT_FLAG_OPENSSL None;
  listener ← SCF_NewServerConnection SCF_SECURITY_128BIT "/etc/scf/certs/server.pem"
               "/etc/scf/certs/server-key.pem" EmptyString;
  match listener with
  | None => _ ← SCF_DeInit; mret false
  | Some listener =>
      r ← Listen "0.0.0.0" listenPort listener;
      let '(ret, listener) := r in
      return_if negb (ret =? SCF_SUCCESS)
        with (_ ← destroy listener; _ ← SCF_DeInit; mret false) ;;
      r ← Accept listener;
      let '(clientConn, listener) := r in
      _ ← match clientConn with Some client => serve true 18 client | None => mret tt end;
      r ← Close listener;
      let '(_, listener) := r in
      _ ← destroy listener;
      _ ← SCF_DeInit;
      mret true
  end.

(** *** The event loop *)

(** [while (ret == WANT_READ || ret == WANT_WRITE) { GetNativeHandle; HandshakeStep }] *)
Fixpoint poll_handshake (fuel : nat) (ret : Z) : Meth (option Z) :=
  if (ret =? SCF_SSL_ERR_WANT_READ) || (ret =? SCF_SSL_ERR_WANT_WRITE) then
    match fuel with
    | O => mret None
    | S fuel =>
        _ ← GetNativeHandle;
        ret ← HandshakeStep;
        poll_handshake fuel ret
    end
  else mret (Some ret).

(** The answer, and the connection while the program is still running. *)
Definition TestNonBlockingClient (fuel : nat) (serverHost : string) (serverPort : Z)
    : M (option bool * list SCFConnectionImpl) :=
  _ ← SCF_Init SCF_INIT_FLAG_OPENSSL None;
  conn ← SCF_NewClientConnection SCF_SECURITY_128BIT "/etc/scf/certs/ca.pem";
  match conn with
  | None => fault
  | Some conn =>
      r ← Connect serverHost serverPort conn;
      let '(ret, conn) := r in
      r ← poll_handshake fuel ret conn;
      let '(ret, conn) := r in
      match ret with
      | None => mret (None, [conn])
      | Some ret =>
          return_if negb (ret =? SCF_SUCCESS)
            with (_ ← destroy conn; _ ← SCF_DeInit; mret (Some false, [])) ;;
          r ← Close conn;
          let '(_, conn) := r in
          _ ← destroy conn;
          _ ← SCF_DeInit;
          mret (Some true, [])
      end
  end.

Definition TestCustomTransport : M bool :=
  _ ← SCF_Init SCF_INIT_FLAG_OPENSSL None;
  _ ← SCF_DeInit;
  mret true.

(** [main(argc, argv)] of the client: the exit code. *)
Definition client_new_main (argv : list string) : M Z :=
  match argv with
  | _ :: host :: port :: _ =>
      ok ← TestClientNewAPI host (wrap16 (atoi port));
      mret (if (ok : bool) then 0 else 2)
  | _ => mret 1
  end.

(** ** server_main_new.cpp *)
Definition kMaxAcceptIterations : nat := 10.

Fixpoint accept_loop (n : nat) : Meth unit :=
  match n with
  | O => mret tt
  | S n =>
      client ← Accept;
      _ ← match client with Some client => call (serve false 22 client) | None => mret tt end;
      accept_loop n
  end.

Definition TestServerNewAPI (listenPort : Z) : M bool :=
  _ ← SCF_Init SCF_INIT_FLAG_OPENSSL None;
  listener ← SCF_NewServerConnection SCF_SECURITY_128BIT "/etc/scf/certs/server.pem"
               "/etc/scf/certs/server-key.pem" EmptyString;
  match listener with
  | None => _ ← SCF_DeInit; mret false
  | Some listener =>
      r ← Listen "0.0.0.0" listenPort listener;
      let '(ret, listener) := r in
      return_if negb (ret =? SCF_SUCCESS)
        with (_ ← destroy listener; _ ← SCF_DeInit; mret false) ;;
      r ← accept_loop kMaxAcceptIterations listener;
      let '(_, listener) := r in
      r ← Close listener;
      let '(_, listener) := r in
      _ ← destroy listener;
      _ ← SCF_DeInit;
      mret true
  end.

Definition server_new_main (argv : list string) : M Z :=
  match argv with
  | _ :: port :: _ =>
      ok ← TestServerNewAPI (wrap16 (atoi port));
      mret (if (ok : bool) then 0 else 2)
  | _ => mret 1
  end.
End sample.
