(* ===== verification/SampleSpec.v ===== *)
(** * What the sample programs show

    The sample programs of the connection object obey the rules the theorems on connections
    ask of an owner, so those theorems apply to them: whatever OpenSSL, the network and the
    allocator answer they return and leave neither context, object, engine nor descriptor.
    [ClientHistory] is the interface: a kind of histories closed under the steps of a
    disciplined client; [ConnPool], [ConnHeap], [Engines] and [NetSafe] are instances. *)
From Stdlib Require Import ZArith Lia Ascii String.
From stdpp Require Import base list fin_maps gmap strings.
From S2P Require Import Prelude Errno Types FileCheck FileCtx Machine.
From S2P Require Import Socket SockSafe Adaptor Api Conn Lifecycle Config Connection.
From S2P Require Import ConnSafe ConnPool ConnHeap Local Network NetSafe Engines Sample.
Open Scope Z_scope.

Implicit Types (c : SCFConnectionImpl) (cs : list SCFConnectionImpl).

(** ** The interface *)

(** The rules for an operation on [c] beside the connections [cs]. *)
Definition disciplined_op (op : ConnOp) c cs : Prop :=
  op_ok op c /\ eng_ok op c cs /\ heap_disc op c.

(** A configuration over sockets; [psk]: pre-shared keys are allowed. *)
Definition plain (psk : bool) (cfg : SCFConnectionConfig) : Prop :=
  cc_transportFactory cfg = nullptr /\ (psk = false -> cc_usePSK cfg = false).

Class ClientHistory `{Library} `{TlsAdaptor} `{SecureC} `{FileSystem} `{Decryptor} `{Uninit}
    `{FileAlloc} (psk : bool) (R : list SCFConnectionImpl -> World -> Prop) : Prop := {
  ch_pool cs w : R cs w -> pool_reach cs w;
  ch_init cs w flag settings r w' : R cs w -> SCF_Init flag settings w = Some (r, w') -> R cs w';
  ch_deinit w w' : R [] w -> SCF_DeInit w = Some (tt, w') -> R [] w';
  ch_create cs w cfg r w' :
    R cs w -> plain psk cfg -> Create cfg w = Some (r, w') -> R (option_list r ++ cs) w';
  ch_op cs0 c cs w op out w' :
    R cs0 w -> cs0 ≡ₚ c :: cs -> disciplined_op op c cs -> run_op op c w = Some (out, w') ->
    R (out ++ cs) w'
}.

Section instances.
Context `{Library} {A : TlsAdaptor} `{!TlsAdaptorSafe A} `{SecureC} `{FileSystem} `{Decryptor}
  `{Uninit} `{FileAlloc}.

#[export] Instance pool_client psk : ClientHistory psk pool_reach.
Proof. by split; intros; [|by econstructor..]. Qed.

#[export] Instance eng_client psk : ClientHistory psk eng_reach.
Proof.
  split; intros; [by apply eng_reach_pool|by econstructor..|].
  match goal with D : disciplined_op _ _ _ |- _ => destruct D as (_ & ? & _) end. by econstructor.
Qed.

Lemma heap_reach_pool cs w : heap_reach cs w -> pool_reach cs w.
Proof. induction 1; by econstructor. Qed.

#[export] Instance heap_client : ClientHistory false heap_reach.
Proof.
  split; intros; [by apply heap_reach_pool|by econstructor..| |].
  - match goal with P : plain _ _ |- _ => destruct P as [_ Hp] end.
    eapply heap_create; [done|by apply Hp|done].
  - match goal with D : disciplined_op _ _ _ |- _ => destruct D as (_ & _ & ?) end. by econstructor.
Qed.
End instances.

Section net_instance.
Context (O : Outside) {SC : SecureC} {A : TlsAdaptor} `{FileSystem} `{Decryptor} `{Uninit}
  `{FileAlloc}.

#[export] Instance net_client psk :
  @ClientHistory (NetLibrary O) A SC _ _ _ _ psk (@net_reach O SC A _ _ _ _).
Proof.
  split; intros; [by eapply net_reach_pool|by econstructor..| |].
  - match goal with P : plain _ _ |- _ => destruct P as [? _] end. by eapply net_create.
  - match goal with D : disciplined_op _ _ _ |- _ => destruct D as (? & _ & _) end. by eapply net_op.
Qed.
End net_instance.

(** ** Steps of a client *)
Section steps.
Context `{Library} {A : TlsAdaptor} `{!TlsAdaptorSafe A} `{SecureC} `{FileSystem} `{Decryptor}
  `{Uninit} `{FileAlloc}.
Context (psk : bool) (R : list SCFConnectionImpl -> World -> Prop) `{!ClientHistory psk R}.
Context (R_engs : forall cs w, R cs w -> engs cs w).
Implicit Types (w : World).

Lemma history_flags cs w : R cs w -> flags (w_scfInitialized w) (life_of w).
Proof. intros Hr%ch_pool%pool_reach_ok. by apply (pool_flags cs). Qed.

(** A run that exists and whose end is known. *)
Lemma wp_end {X} (m : M X) (Q : X -> World -> Prop) w :
  wp m (fun _ _ => True) w -> (forall x w', m w = Some (x, w') -> Q x w') -> wp m Q w.
Proof. unfold wp. destruct (m w) as [[x w']|]; [|done]. intros _ HQ. by apply HQ. Qed.

(** The library is down. *)
Definition library_down w : Prop :=
  w_scfInitialized w = false /\ w_isTlsInit w = false /\ w_adaptor w = false.

(** The programs start with the library down; a failed start leaves it down. *)
Lemma wp_init w :
  R [] w -> library_down w ->
  wp (SCF_Init SCF_INIT_FLAG_OPENSSL None) (fun r w' => R [] w' /\ (r <> SCF_SUCCESS -> library_down w')) w.
Proof.
  intros Hr Hd.
  assert (Hi : wp (SCF_Init SCF_INIT_FLAG_OPENSSL None) (fun r w' => r <> SCF_SUCCESS -> library_down w') w).
  { eapply wp_SCF_Init; [by eapply history_flags|intros r w' Hl _|done].
    destruct Hd as (Di & Dt & Da). split; [|split].
    - transitivity (w_scfInitialized w); [exact (f_equal l_init Hl)|done].
    - transitivity (w_isTlsInit w); [exact (f_equal l_tls Hl)|done].
    - transitivity (w_adaptor w); [exact (f_equal l_adaptor Hl)|done]. }
  eapply wp_mono; [apply (wp_with_run _ _ _ Hi)|]. intros r w' [? Hrun].
  split; [by eapply ch_init|done].
Qed.

Lemma wp_deinit w : R [] w -> wp SCF_DeInit (fun _ w' => R [] w' /\ library_down w') w.
Proof.
  intros Hr. assert (Hd : wp SCF_DeInit (fun _ w' => library_down w') w).
  { eapply wp_SCF_DeInit; [by eapply history_flags|]. intros w' Hl.
    by split; [exact (f_equal l_init Hl)|split; [exact (f_equal l_tls Hl)|exact (f_equal l_adaptor Hl)]]. }
  eapply wp_mono; [apply (wp_with_run _ _ _ Hd)|]. intros [] w' [? Hrun].
  split; [by eapply ch_deinit|done].
Qed.

Lemma wp_create cs w cfg (Q : option SCFConnectionImpl -> World -> Prop) :
  R cs w -> plain psk cfg -> (forall w', R cs w' -> Q None w') ->
  (forall w', R (new_connection cfg :: cs) w' -> Q (Some (new_connection cfg)) w') ->
  wp (Create cfg) Q w.
Proof.
  intros Hr Hp Hnone Hsome.
  assert (Hc : wp (Create cfg) (fun r w' => r = None \/ r = Some (new_connection cfg)) w).
  { apply wp_bind, wp_lib. intros p _. apply wp_ret. destruct (p =? nullptr); [by left|by right]. }
  eapply wp_mono; [apply (wp_with_run _ _ _ Hc)|]. intros r w' [Hcase Hrun].
  apply (ch_create cs) in Hrun; [|done..]. destruct Hcase as [-> | ->]; [by apply Hnone|by apply Hsome].
Qed.

(** An operation of a connection: it returns, and the history goes on. *)
Lemma wp_op op c cs w :
  R (c :: cs) w -> disciplined_op op c cs -> wp (run_op op c) (fun out w' => R (out ++ cs) w') w.
Proof.
  intros Hr Hd. apply wp_end; [|by intros out w' Hrun; eapply ch_op].
  pose proof (ch_pool _ _ Hr) as Hp%pool_reach_ok. eapply wp_mono; [by eapply wp_run_op|done].
Qed.

(** The same for a method that [run_op] wraps. *)
Lemma wp_wrapped {X} (m : M X) (f : X -> list SCFConnectionImpl) op c cs w :
  run_op op c w = (x ← m; mret (f x)) w -> R (c :: cs) w -> disciplined_op op c cs ->
  wp m (fun x w' => R (f x ++ cs) w') w.
Proof.
  intros Hrun Hr Hd. pose proof (wp_op op c cs w Hr Hd) as Hwp. unfold wp in *. rewrite Hrun in Hwp.
  unfold mbind, M_bind in Hwp. by destruct (m w) as [[x w']|].
Qed.

Lemma wp_conn_connect host port c w :
  R [c] w -> m_transport c = nullptr -> m_policyCtx c = nullptr ->
  wp (Connect host port c) (fun r w' => R [r.2] w') w.
Proof.
  intros Hr Ht Hp. apply (wp_wrapped _ (fun r => [r.2]) (OConnect host port) c []); [done..|].
  split; [done|split; [|done]]. intros _ x Hx. by apply not_elem_of_nil in Hx.
Qed.

Lemma wp_conn_listen host port c w :
  R [c] w -> m_transport c = nullptr -> m_policyCtx c = nullptr ->
  wp (Listen host port c) (fun r w' => R [r.2] w') w.
Proof. intros Hr Ht Hp. by apply (wp_wrapped _ (fun r => [r.2]) (OListen host port) c []). Qed.

Lemma wp_conn_use {X} (m : Meth X) u c cs w :
  use u = ignore m -> use_ok u c -> R (c :: cs) w -> wp (m c) (fun r w' => R (r.2 :: cs) w') w.
Proof.
  intros Hu Hok Hr. apply (wp_wrapped (m c) (fun r => [r.2]) (OUse u) c cs); [|done|by split].
  cbn [run_op]. rewrite Hu. unfold ignore, mbind, M_bind, Method_bind, mret, M_ret, Method_ret.
  cbv beta. unfold mbind, M_bind. by destruct (m c w) as [[[x c'] w']|].
Qed.

(** A method that may be called at any time, and the rest of the program. *)
Lemma wp_then_use u {X Y} (m : Meth X) (f : X * SCFConnectionImpl -> M Y) c cs w Q :
  use u = ignore m -> use_ok u c -> R (c :: cs) w ->
  (forall x c' w', R (c' :: cs) w' -> wp (f (x, c')) Q w') -> wp (m c ≫= f) Q w.
Proof.
  intros Hu Hok Hr Hf. apply wp_bind. eapply wp_mono; [by eapply wp_conn_use|].
  intros [x c'] w' Hr'. by apply Hf.
Qed.

Lemma wp_conn_accept c w :
  R [c] w -> wp (Accept c) (fun r w' => r.2 = c /\ R (option_list r.1 ++ [c]) w') w.
Proof.
  intros Hr.
  assert (Hsame : wp (Accept c) (fun r _ => r.2 = c) w).
  { pose proof (ch_pool _ _ Hr) as Hp%pool_reach_ok. pose proof (pool_owns _ _ _ Hp) as Hown.
    pose proof Hp as [Hok _]. apply Forall_cons in Hok as [Hok _].
    eapply wp_mono; [eapply wp_Accept;
      [by apply (pool_owns_none [c])|by apply conn_ok_at|by eapply owns_args]|]. by intros r w' [? _]. }
  assert (Hrun : wp (Accept c) (fun r w' => R (option_list r.1 ++ [r.2]) w') w).
  { eapply wp_mono; [apply (wp_wrapped _ (fun r => option_list r.1 ++ [r.2]) OAccept c [])|];
      [done|done|by split|]. intros r w' Hr'. cbv beta in Hr'. by rewrite app_nil_r in Hr'. }
  unfold wp in *. destruct (Accept c w) as [[r w']|]; [|done]. split; [done|]. by rewrite Hsame in Hrun.
Qed.

(** Whoever is left shares no engine with the connection that goes. *)
Definition engine_free c cs : Prop :=
  m_ownsCryptoEngine c = true -> forall x, x ∈ cs -> m_cryptoEngine x <> m_cryptoEngine c.

Lemma wp_conn_destroy c cs w :
  R (c :: cs) w -> engine_free c cs -> wp (destroy c) (fun _ w' => R cs w') w.
Proof. intros Hr He. by apply (wp_wrapped _ (fun _ => []) ODestroy c cs). Qed.

Lemma engine_free_alone c : engine_free c [].
Proof. intros _ x Hx. by apply not_elem_of_nil in Hx. Qed.

(** A listener whose engine is its own shares it with no connection that owns one. *)
Definition own_or_none c : Prop := m_cryptoEngine c <> nullptr -> m_ownsCryptoEngine c = true.

Lemma listener_own c w : R [c] w -> own_or_none c.
Proof.
  intros Hr Hn. destruct (es_conn _ _ (R_engs _ _ Hr) c (list_elem_of_here _ _)) as [_ Hs].
  specialize (Hs Hn). rewrite owned_cons in Hs. destruct (m_ownsCryptoEngine c); [done|].
  by apply not_elem_of_nil in Hs.
Qed.

Lemma engine_free_child c l w : R [c; l] w -> own_or_none l -> engine_free c [l].
Proof.
  intros Hr Hl Ho x ->%list_elem_of_singleton E. pose proof (R_engs _ _ Hr) as [_ Hn Hc].
  destruct (Hc c (list_elem_of_here _ _)) as [Hne _]. specialize (Hne Ho).
  rewrite owned_cons, Ho, owned_cons, Hl in Hn by congruence. apply NoDup_cons in Hn as [Hn _].
  apply Hn. rewrite E. by left.
Qed.
End steps.

(** ** Driving the handshake *)

(** The codes that ask for another step. *)
Definition wants (ret : Z) : bool :=
  (ret =? SCF_SSL_ERR_WANT_READ) || (ret =? SCF_SSL_ERR_WANT_WRITE).

(** What matters here is the object a method leaves in the connection, not its effects. *)
Definition any_step (_ _ : World) : Prop := True.
#[export] Instance any_step_rel : StepRel any_step.
Proof. by repeat split. Qed.
Definition same_obj c c' : Prop := m_policyObj c' = m_policyObj c.
#[export] Instance same_obj_preorder : PreOrder same_obj.
Proof. split; [done|]. intros c1 c2 c3 E1 E2. unfold same_obj in *. congruence. Qed.

Lemma wlp_skip {X Y} (m : Meth X) (f : X -> Meth Y) c w Q :
  (forall x c' w', wlp (f x c') Q w') -> wlp ((m ≫= f) c) Q w.
Proof.
  intros Hf. apply wlp_meth_bind. eapply wlp_mono; [apply wlp_true|]. by intros [x c'] w' _.
Qed.
Lemma wp_and_wlp {X} (m : M X) (P Q : X -> World -> Prop) w :
  wp m P w -> wlp m Q w -> wp m (fun x w' => P x w' /\ Q x w') w.
Proof. unfold wp, wlp. by destruct (m w) as [[x w']|]. Qed.

Section handshakes.
Context `{Library} {A : TlsAdaptor} `{!TlsAdaptorLocal A} `{SecureC} `{FileSystem} `{Decryptor}
  `{Uninit} `{FileAlloc}.
Implicit Types (w : World).

Lemma inert_any_call {X} same `{!PreOrder same} (m : M X) : inert any_step same (call m).
Proof. apply inert_call; [done|]. intros w. apply wlp_true. Qed.
#[local] Hint Extern 1 (inert any_step _ (call _)) => (apply inert_any_call; apply _) : inert.

Lemma inert_obj_setup_engine : inert any_step same_obj setup_engine.
Proof. unfold setup_engine. inert. Qed.
Lemma inert_obj_configure_ctx : inert any_step same_obj configure_ctx.
Proof. unfold configure_ctx. inert. Qed.
#[local] Hint Resolve inert_obj_setup_engine inert_obj_configure_ctx : inert.
Lemma inert_obj_SetupPolicyContext : inert any_step same_obj SetupPolicyContext.
Proof. unfold SetupPolicyContext. inert. Qed.

(** A step that asks for another leaves the connection connecting. *)
Lemma wlp_HandshakeStep_wants c w :
  wlp (HandshakeStep c) (fun r _ => wants r.1 = true -> linked r.2) w.
Proof.
  unfold HandshakeStep. apply wlp_meth_bind, wlp_this. cbn [fst snd].
  destruct (_ =? nullptr); [by apply wlp_meth_ret|]. do 2 (apply wlp_skip; intros ? ? ?).
  destruct (_ =? SCF_SUCCESS) eqn:E; bools.
  - do 4 (apply wlp_skip; intros ? ? ?). apply wlp_meth_ret. by subst.
  - destruct (_ || _) eqn:Ew; apply wlp_meth_bind, wlp_update, wlp_meth_ret; cbn [fst snd].
    + intros _. by left.
    + unfold wants. congruence.
Qed.

(** [Cleanup] leaves no object. *)
Lemma wlp_Cleanup_obj c w : wlp (Cleanup c) (fun r _ => m_policyObj r.2 = nullptr) w.
Proof.
  unfold Cleanup. do 2 (apply wlp_skip; intros ? ? ?). apply wlp_meth_bind, wlp_this. cbn [fst snd].
  assert (Hrest : forall (m : Meth unit) c1 w1, inert any_step same_obj m -> m_policyObj c1 = nullptr ->
    wlp (m c1) (fun r _ => m_policyObj r.2 = nullptr) w1).
  { intros m c1 w1 Hm Hc. eapply wlp_mono; [apply Hm|]. intros r w2 [_ Hs]. by rewrite <- Hc. }
  apply wlp_meth_bind. destruct (_ =? nullptr) eqn:E; bools; cbn [negb].
  - apply wlp_meth_ret. apply Hrest; [inert|done].
  - apply wlp_skip; intros ? ? ?. apply wlp_update. apply Hrest; [inert|done].
Qed.

(** [GetNativeHandle] changes nothing of the connection. *)
Definition same_link c c' : Prop := m_state c' = m_state c /\ m_policyObj c' = m_policyObj c.
#[export] Instance same_link_preorder : PreOrder same_link.
Proof. split; [done|]. intros c1 c2 c3 [? ?] [? ?]. split; congruence. Qed.
Lemma inert_GetNativeHandle : inert any_step same_link GetNativeHandle.
Proof. unfold GetNativeHandle. inert. Qed.

(** The handshake of a connection just connected may be driven while it asks for it. *)
Lemma wlp_Connect_wants host port c w :
  m_policyObj c = nullptr ->
  wlp (Connect host port c)
    (fun r _ => wants r.1 = true -> linked r.2 \/ m_policyObj r.2 = nullptr) w.
Proof.
  intros Ho. unfold Connect.
  assert (Hfail : forall (ret : Z) c' w',
    wlp ((_ ← update (set_m_state SCF_CONN_ERROR); _ ← Cleanup; mret ret) c')
      (fun r _ => wants r.1 = true -> linked r.2 \/ m_policyObj r.2 = nullptr) w').
  { intros ret c' w'. apply wlp_skip; intros ? ? ?. apply wlp_meth_bind.
    eapply wlp_mono; [apply wlp_Cleanup_obj|]. intros [[] c2] w2 Hc2. apply wlp_meth_ret. by right. }
  apply wlp_meth_bind. eapply wlp_mono; [apply inert_obj_SetupPolicyContext|].
  intros [ret c1] w1 [_ Hs]. cbn [fst snd] in *. destruct (negb _).
  { apply wlp_meth_bind, wlp_update, wlp_meth_ret. right. by rewrite <- Ho. }
  apply wlp_skip; intros ? ? ?. destruct (negb _); [apply Hfail|].
  apply wlp_skip; intros ? ? ?. destruct (negb _); [apply Hfail|].
  eapply wlp_mono; [apply wlp_HandshakeStep_wants|]. intros r w2 Hw Hr. left. by apply Hw.
Qed.
End handshakes.

(** ** The programs *)
Section programs.
Context `{Library} {A : TlsAdaptor} `{!TlsAdaptorSafe A} `{!TlsAdaptorLocal A} `{SecureC}
  `{FileSystem} `{Decryptor} `{Uninit} `{FileAlloc}.
Context (psk : bool) (R : list SCFConnectionImpl -> World -> Prop) `{!ClientHistory psk R}.
Context (R_engs : forall cs w, R cs w -> engs cs w) (literal buffer : Z).
Implicit Types (w : World).

(** No connection, and the library down: before a program, and after it. *)
Definition stopped w : Prop := R [] w /\ library_down w.

Lemma wp_quit (b : bool) w : R [] w -> wp (_ ← SCF_DeInit; mret b) (fun _ w' => stopped w') w.
Proof. intros Hr. apply wp_bind. eapply wp_mono; [by eapply (wp_deinit psk R)|]. intros [] w' ?. by apply wp_ret. Qed.

Lemma wp_drop (b : bool) c w :
  R [c] w -> wp (_ ← destroy c; _ ← SCF_DeInit; mret b) (fun _ w' => stopped w') w.
Proof.
  intros Hr. apply wp_bind. eapply wp_mono; [eapply (wp_conn_destroy psk R); [done|apply engine_free_alone]|].
  intros [] w' Hr'. by apply wp_quit.
Qed.

(** Starting, when the program looks at the code or does not. *)
Lemma wp_start {X} (f : Z -> M X) (Q : X -> World -> Prop) w :
  stopped w ->
  (forall r w', R [] w' -> (r <> SCF_SUCCESS -> library_down w') -> wp (f r) Q w') ->
  wp (SCF_Init SCF_INIT_FLAG_OPENSSL None ≫= f) Q w.
Proof.
  intros [Hr Hd] Hf. apply wp_bind. eapply wp_mono; [by eapply (wp_init psk R)|]. intros r w' [? ?]. by apply Hf.
Qed.

Lemma wp_new {X} cfg (f : option SCFConnectionImpl -> M X) (Q : X -> World -> Prop) w :
  R [] w -> plain psk cfg -> (forall w', R [] w' -> wp (f None) Q w') ->
  (forall w', R [new_connection cfg] w' -> wp (f (Some (new_connection cfg))) Q w') ->
  wp (Create cfg ≫= f) Q w.
Proof. intros Hr Hp Hn Hs. apply wp_bind. by eapply (wp_create psk R). Qed.

(** The next statement is a call of method [u] on the connection. *)
Ltac then_use u := eapply (wp_then_use psk R u); [exact eq_refl|exact I|eassumption|];
  let Hr := fresh "Hr" in intros ? ? ? Hr; cbv beta iota.

Lemma wp_TestClientNewAPI host port w :
  stopped w -> wp (TestClientNewAPI literal buffer host port) (fun _ w' => stopped w') w.
Proof.
  intros Hw. unfold TestClientNewAPI. apply wp_start; [done|]. intros r w1 R1 D1.
  destruct (r =? SCF_SUCCESS) eqn:E; cbn [negb]; bools; [|by apply wp_ret; split; [|apply D1]].
  apply wp_new; [done|done|intros w2 R2; by apply wp_quit|]. intros w2 R2.
  apply wp_bind. eapply wp_mono; [by eapply (wp_conn_connect psk R)|]. intros [ret c] w3 R3. cbn [fst snd] in *.
  destruct (negb _); [by apply wp_drop|].
  then_use UGetTLSVersion. then_use (UWrite literal 19 true). then_use (URead buffer 4096 true).
  then_use UClose. by apply wp_drop.
Qed.

Lemma wp_TestClientConvenienceAPI host port w :
  stopped w -> wp (TestClientConvenienceAPI buffer host port) (fun _ w' => stopped w') w.
Proof.
  intros Hw. unfold TestClientConvenienceAPI. apply wp_start; [done|]. intros r w1 R1 _.
  apply wp_new; [done|done|intros w2 R2; by apply wp_quit|]. intros w2 R2.
  apply wp_bind. eapply wp_mono; [by eapply (wp_conn_connect psk R)|]. intros [ret c] w3 R3. cbn [fst snd] in *.
  then_use (URead buffer 1024 true). destruct (counted_io _) as [? n].
  then_use UClose. by apply wp_drop.
Qed.

Lemma wp_TestPSKClient host port w :
  psk = true -> stopped w -> wp (TestPSKClient literal host port) (fun _ w' => stopped w') w.
Proof.
  intros Hpsk Hw. unfold TestPSKClient. apply wp_start; [done|]. intros r w1 R1 _.
  apply wp_new; [done|split; [done|congruence]|intros w2 R2; by apply wp_quit|]. intros w2 R2.
  apply wp_bind. eapply wp_mono; [by eapply (wp_conn_connect psk R)|]. intros [ret c] w3 R3. cbn [fst snd] in *.
  then_use (UWrite literal 16 true). then_use UClose. by apply wp_drop.
Qed.

Lemma wp_TestCustomTransport w : stopped w -> wp TestCustomTransport (fun _ w' => stopped w') w.
Proof. intros Hw. unfold TestCustomTransport. apply wp_start; [done|]. intros r w1 R1 _. by apply wp_quit. Qed.

(** Serving an accepted connection: only the listener is left. *)
Lemma wp_serve always len c l w :
  R [c; l] w -> own_or_none l ->
  wp (serve literal buffer always len c) (fun _ w' => R [l] w') w.
Proof.
  intros Hr Hl. unfold serve. then_use UGetTLSVersion. then_use (URead buffer 4096 true).
  destruct (counted_io _) as [ret n]. apply wp_bind.
  match goal with |- wp ?m _ ?v => assert (Hw : wp m (fun r w' => R (r.2 :: [l]) w') v) end.
  { destruct (_ || _); [|by apply wp_ret]. eapply (wp_conn_use psk R); [exact (@eq_refl _ (use (UWrite literal len true)))|done|done]. }
  eapply wp_mono; [exact Hw|]. intros [? c2] w2 R2. cbn [fst snd] in *. then_use UClose.
  eapply (wp_conn_destroy psk R); [done|]. by eapply engine_free_child.
Qed.

(** Accepting, serving, and going on with the listener. *)
Definition serve_one (always : bool) (len : Z) (client : option SCFConnectionImpl) : M unit :=
  match client with Some c => serve literal buffer always len c | None => mret tt end.

Lemma wp_serve_one always len l w :
  R [l] w ->
  wp (r ← Accept l; _ ← serve_one always len r.1; mret r.2) (fun l' w' => R [l'] w') w.
Proof.
  intros Hr. apply wp_bind. eapply wp_mono; [by eapply (wp_conn_accept psk R)|].
  intros [client l'] w1 [E R1]. cbn [fst snd] in *. subst l'. apply wp_bind.
  destruct client as [c|]; cbn [option_list app serve_one] in *; [|by do 2 apply wp_ret].
  eapply wp_mono; [apply wp_serve; [exact R1|by eapply (listener_own R)]|]. intros [] w2 R2. by apply wp_ret.
Qed.

Lemma wp_accept_loop n l w :
  R [l] w -> wp (accept_loop literal buffer n l) (fun r w' => R [r.2] w') w.
Proof.
  revert l w. induction n as [|n IH]; intros l w Hr; [by apply wp_meth_ret|].
  cbn [accept_loop]. pose proof (wp_serve_one false 22 l w Hr) as Hone.
  apply wp_meth_bind. unfold wp in Hone |- *. unfold mbind, M_bind in Hone.
  destruct (Accept l w) as [[[client l1] w1]|]; [|done]. cbn [fst snd] in *.
  apply wp_meth_bind.
  assert (Hc : wp ((match client with
                    | Some client => call (serve literal buffer false 22 client)
                    | None => mret tt
                    end : Meth unit) l1) (fun r w' => R [r.2] w') w1).
  { destruct client as [c|]; [|by apply wp_meth_ret]. apply wp_call. unfold wp in *. cbn [serve_one] in Hone.
    destruct (serve _ _ _ _ _ w1) as [[]|]; done. }
  eapply wp_mono; [exact Hc|]. intros [[] l2] w2 R2. by apply IH.
Qed.

(** What a server does once its listener is there. *)
Lemma wp_listening (loop : Meth unit) port l w :
  (forall l w, R [l] w -> wp (loop l) (fun r w' => R [r.2] w') w) ->
  R [l] w -> m_transport l = nullptr -> m_policyCtx l = nullptr ->
  wp (r ← Listen "0.0.0.0" port l;
      let '(ret, listener) := r in
      return_if negb (ret =? SCF_SUCCESS)
        with (_ ← destroy listener; _ ← SCF_DeInit; mret false) ;;
      r ← loop listener;
      let '(_, listener) := r in
      r ← Close listener;
      let '(_, listener) := r in
      _ ← destroy listener;
      _ ← SCF_DeInit;
      mret true) (fun _ w' => stopped w') w.
Proof.
  intros Hloop Hr Ht Hp. apply wp_bind. eapply wp_mono; [by eapply (wp_conn_listen psk R)|].
  intros [ret l1] w1 R1. cbn [fst snd] in *. destruct (negb _); [by apply wp_drop|].
  apply wp_bind. eapply wp_mono; [by apply Hloop|]. intros [[] l2] w2 R2. cbn [fst snd] in *.
  then_use UClose. by apply wp_drop.
Qed.

Lemma wp_TestServerNewAPI port w :
  stopped w -> wp (TestServerNewAPI literal buffer port) (fun _ w' => stopped w') w.
Proof.
  intros Hw. unfold TestServerNewAPI. apply wp_start; [done|]. intros r w1 R1 _.
  apply wp_new; [done|done|intros w2 R2; by apply wp_quit|]. intros w2 R2.
  apply wp_listening; [|done..]. intros l w3. apply wp_accept_loop.
Qed.

Lemma wp_TestServerNewAPI_once port w :
  stopped w -> wp (TestServerNewAPI_once literal buffer port) (fun _ w' => stopped w') w.
Proof.
  intros Hw. unfold TestServerNewAPI_once. apply wp_start; [done|]. intros r w1 R1 _.
  apply wp_new; [done|done|intros w2 R2; by apply wp_quit|]. intros w2 R2.
  apply wp_bind. eapply wp_mono; [by eapply (wp_conn_listen psk R)|]. intros [ret l] w3 R3. cbn [fst snd] in *.
  destruct (negb _); [by apply wp_drop|].
  apply wp_bind. eapply wp_mono; [by eapply (wp_conn_accept psk R)|].
  intros [client l'] w4 [E R4]. cbn [fst snd] in *. subst l'. apply wp_bind.
  assert (Hs : wp (serve_one true 18 client) (fun _ w' => R [l] w') w4).
  { destruct client as [c|]; [|by apply wp_ret]. apply wp_serve; [done|by eapply (listener_own R)]. }
  eapply wp_mono; [exact Hs|]. intros [] w5 R5. then_use UClose. by apply wp_drop.
Qed.

(** *** The event loop *)
Lemma wp_poll_handshake fuel ret c w :
  R [c] w -> (wants ret = true -> linked c \/ m_policyObj c = nullptr) ->
  wp (poll_handshake fuel ret c) (fun r w' => R [r.2] w') w.
Proof.
  revert ret c w. induction fuel as [|fuel IH]; intros ret c w Hr Hw; cbn [poll_handshake];
    fold (wants ret); destruct (wants ret); try by apply wp_meth_ret.
  apply wp_meth_bind. eapply wp_mono; [eapply wp_and_wlp;
    [by apply (wp_conn_use psk R GetNativeHandle UGetNativeHandle)
    |apply (inert_GetNativeHandle c w)]|].
  intros [fd c1] w1 [R1 (_ & Es & Eo)]. cbn [fst snd] in *.
  assert (Hok : use_ok UHandshakeStep c1) by (destruct (Hw eq_refl) as [Hk|Hk]; [left; unfold linked; by rewrite Es|right; congruence]).
  apply wp_meth_bind. eapply wp_mono; [eapply wp_and_wlp;
    [by apply (wp_conn_use psk R HandshakeStep UHandshakeStep)|apply wlp_HandshakeStep_wants]|].
  intros [ret2 c2] w2 [R2 Hk]. cbn [fst snd] in *. apply IH; [done|]. intros ?. left. by apply Hk.
Qed.

(** The program has ended, or still runs with its one connection. *)
Definition at_rest (r : option bool * list SCFConnectionImpl) w : Prop :=
  match r.1 with
  | Some _ => r.2 = [] /\ stopped w
  | None => exists c, r.2 = [c] /\ R [c] w
  end.

Lemma wp_TestNonBlockingClient fuel host port w :
  (forall h args, answer h op_new args <> nullptr) -> stopped w ->
  wp (TestNonBlockingClient fuel host port) at_rest w.
Proof.
  intros Hnew Hw. unfold TestNonBlockingClient. apply wp_start; [done|]. intros r w1 R1 _.
  apply wp_bind. unfold SCF_NewClientConnection.
  match goal with |- wp (Create ?g) _ _ => set (cfg := g) end.
  assert (Hc : wp (Create cfg) (fun r w' => r = Some (new_connection cfg) /\ R [new_connection cfg] w') w1).
  { eapply wp_mono; [apply (wp_and_wlp _
      (fun r w' => r = Some (new_connection cfg) -> R [new_connection cfg] w')
      (fun r _ => r = Some (new_connection cfg)))|].
    - by eapply (wp_create psk R).
    - apply wlp_bind, wlp_lib. intros p ->. apply wlp_ret. by rewrite (proj2 (Z.eqb_neq _ _) (Hnew _ _)).
    - intros r' w' [HR ->]. split; [done|by apply HR]. }
  eapply wp_mono; [exact Hc|]. intros ? w2 [-> R2]. cbv beta iota. apply wp_bind.
  eapply wp_mono; [eapply wp_and_wlp;
    [by eapply (wp_conn_connect psk R)|by apply wlp_Connect_wants]|].
  intros [ret c] w3 [R3 Hk]. cbn [fst snd] in *. apply wp_bind.
  eapply wp_mono; [by apply wp_poll_handshake|]. intros [[ret2|] c2] w4 R4; cbn [fst snd] in *;
    [|apply wp_ret; by exists c2].
  assert (Hend : forall b c w, R [c] w ->
    wp (_ ← destroy c; _ ← SCF_DeInit; mret (Some b, [])) at_rest w).
  { intros b c3 w5 R5. pose proof (wp_drop b c3 w5 R5) as Hd. unfold wp, mbind, M_bind in *.
    destruct (destroy c3 w5) as [[[] w6]|]; [|done]. by destruct (SCF_DeInit w6) as [[[] w7]|]. }
  destruct (negb _); [by apply Hend|]. then_use UClose. by apply Hend.
Qed.
End programs.

(** ** What they leave *)

(** A history of two kinds at once. *)
#[export] Instance client_and `{Library} `{TlsAdaptor} `{SecureC} `{FileSystem} `{Decryptor}
    `{Uninit} `{FileAlloc} psk R1 R2 :
  ClientHistory psk R1 -> ClientHistory psk R2 -> ClientHistory psk (fun cs w => R1 cs w /\ R2 cs w).
Proof.
  intros [p1 i1 d1 c1 o1] [_ i2 d2 c2 o2]. split.
  - intros cs w [HR _]. by apply p1.
  - intros cs w flag settings r w' [HR1 HR2] Hrun. split; [by eapply i1|by eapply i2].
  - intros w w' [HR1 HR2] Hrun. split; [by eapply d1|by eapply d2].
  - intros cs w cfg r w' [HR1 HR2] Hp Hrun. split; [by eapply c1|by eapply c2].
  - intros cs0 c cs w op out w' [HR1 HR2] Hp Hd Hrun. split; [by eapply o1|by eapply o2].
Qed.

Section samples.
Context (O : Outside) {SC : SecureC} {A : TlsAdaptor}.
#[local] Instance NetS : Library := NetLibrary O.
Context `{!TlsAdaptorSafe A} `{!TlsAdaptorLocal A} {FE : FreshEngines}
  `{FileSystem} `{Decryptor} `{Uninit} `{FileAlloc}.
Implicit Types (w : World).

(** The library is down; no engine, no transport and no descriptor is left. *)
Definition nothing_left w : Prop :=
  library_down w /\ engines (w_log w) = ∅ /\ w_cryptoEngine w = nullptr /\
  exists n, replay O (w_log w) = Some n /\ n_socks n = ∅ /\
    closes_ok (w_log (n_sys n)) /\ open_fds (w_log (n_sys n)) = ∅.

(** Neither a context nor an object is left. *)
Definition heap_empty_now w : Prop := w_ctxs w = ∅ /\ w_objs w = ∅.

Definition reach_psk cs w : Prop := net_reach O cs w /\ eng_reach cs w.
Definition reach_all cs w : Prop := reach_psk cs w /\ heap_reach cs w.

#[local] Instance client_psk psk : ClientHistory psk reach_psk.
Proof. apply client_and; apply _. Qed.
#[local] Instance client_all : ClientHistory false reach_all.
Proof. apply client_and; apply _. Qed.

Lemma engs_psk cs w : reach_psk cs w -> engs cs w.
Proof. intros [_ He]. by apply eng_reach_engs. Qed.
Lemma engs_all cs w : reach_all cs w -> engs cs w.
Proof. intros [Hr _]. by apply engs_psk. Qed.

Lemma start_psk : stopped reach_psk world0.
Proof. split; [split; constructor|done]. Qed.
Lemma start_all : stopped reach_all world0.
Proof. split; [split; [split|]; constructor|done]. Qed.

Lemma stopped_psk w : stopped reach_psk w -> nothing_left w.
Proof.
  intros [[Hn He] Hd]. split; [done|]. destruct (eng_reach_engs _ _ He) as [[Hok Hlive Had _] _ _].
  split; [done|]. split.
  - destruct (decide (w_cryptoEngine w = nullptr)) as [|Hne]; [done|].
    specialize (Had Hne). by apply not_elem_of_empty in Had.
  - destruct (net_reach_held _ _ _ Hn) as (S & Hb & n & Hrep & [(Hc & Ho & _) _ _] & <-).
    exists n. pose proof (hb_dom _ _ Hb) as HS. change (dom (n_socks n) = ∅) in HS.
    apply dom_empty_iff_L in HS. rewrite HS in Ho. by split_and!.
Qed.

Lemma stopped_all w : stopped reach_all w -> nothing_left w /\ heap_empty_now w.
Proof.
  intros [[Hr Hh] Hd]. split; [by apply stopped_psk|].
  destruct (heap_empty _ (heap_reach_ok _ _ Hh)) as [E1 E2].
  split; [by apply fmap_empty_inv in E1|by apply fmap_empty_inv in E2].
Qed.

(** The programs that use no pre-shared key, with literals and buffers at any address. *)
Definition programs (literal buffer : Z) (host : string) (port : Z) : list (M bool) :=
  [TestClientNewAPI literal buffer host port; TestClientConvenienceAPI buffer host port;
   TestServerNewAPI_once literal buffer port; TestServerNewAPI literal buffer port;
   TestCustomTransport].

Lemma wp_ends {X} (m : M X) :
  wp m (fun _ w => stopped reach_all w) world0 -> wp m (fun _ w => nothing_left w /\ heap_empty_now w) world0.
Proof. intros Hm. eapply wp_mono; [exact Hm|]. intros x w. apply stopped_all. Qed.

(** [main]: a usage error, or what the program answers. *)
Lemma wp_main (m : M bool) :
  wp m (fun _ w => stopped reach_all w) world0 ->
  wp (ok ← m; mret (if (ok : bool) then 0 else 2)) (fun code w =>
    code ∈ [0; 1; 2] /\ nothing_left w /\ heap_empty_now w) world0.
Proof.
  intros Hm%wp_ends. apply wp_bind. eapply wp_mono; [exact Hm|]. intros ok w Hw. apply wp_ret.
  split; [destruct ok; set_solver|done].
Qed.

Lemma wp_usage :
  wp (mret 1) (fun code w => code ∈ [0; 1; 2] /\ nothing_left w /\ heap_empty_now w) world0.
Proof. apply wp_ret. split; [set_solver|apply stopped_all, start_all]. Qed.

End samples.

(** ** Witnesses *)
Section witnesses.
#[local] Existing Instance RefFileAlloc.

(** Sockets over the system of [SockSafe], engines and the rest as in [Engines]. *)
Definition outside0 : Outside := mkOutside SockLibrary RefResolver SockFresh sock_bytes_len EngLibrary.
#[local] Instance SampleNet : Library := NetLibrary outside0.
#[local] Instance SampleSslMemory : SslMemory (H := SampleNet).
Proof. intros h args. change (1 <> nullptr). done. Qed.
#[local] Instance SampleFresh : FreshEngines.
Proof. intros h args. exact (EngFresh h args). Qed.

(** An adaptor like [A] that knows where its library is when it is not told. *)
Definition with_path (path : string) (A : TlsAdaptor) : TlsAdaptor := {|
  a_Init := fun flag settings => @a_Init A flag (Some (default path settings));
  a_DeInit := @a_DeInit A; a_FreeSslObj := @a_FreeSslObj A;
  a_Connect := @a_Connect A; a_Accept := @a_Accept A; a_Read := @a_Read A; a_Write := @a_Write A;
  a_Close := @a_Close A; a_SetFd := @a_SetFd A; a_KeyUpdate := @a_KeyUpdate A; a_GetVersion := @a_GetVersion A;
  a_GetPeerCert := @a_GetPeerCert A; a_GetCurrentCert := @a_GetCurrentCert A;
  a_CipherFind := @a_CipherFind A; a_FreeSsl := @a_FreeSsl A; a_AddCert := @a_AddCert A; a_SetKey := @a_SetKey A;
  a_SetCipherSuites := @a_SetCipherSuites A; a_SetProtocolVersion := @a_SetProtocolVersion A;
  a_SetAppVerifyCallback := @a_SetAppVerifyCallback A; a_CheckPrivateKey := @a_CheckPrivateKey A;
  a_SetVerifyMode := @a_SetVerifyMode A; a_InitPolicyByMode := @a_InitPolicyByMode A;
  a_SetPskFindSessionCallback := @a_SetPskFindSessionCallback A;
  a_SetPskUseSessionCallback := @a_SetPskUseSessionCallback A;
  a_SessionNew := @a_SessionNew A; a_SessionSetMasterKey := @a_SessionSetMasterKey A;
  a_SessionSetCipher := @a_SessionSetCipher A; a_SessionGetCipher := @a_SessionGetCipher A;
  a_SessionFreeCipher := @a_SessionFreeCipher A; a_FreeBuffer := @a_FreeBuffer A;
  a_SessionSetProtocolVersion := @a_SessionSetProtocolVersion A;
  a_SessionGetProtocolVersion := @a_SessionGetProtocolVersion A; a_SessionFree := @a_SessionFree A;
  a_GetCertVersion := @a_GetCertVersion A; a_GetCertStartTime := @a_GetCertStartTime A;
  a_GetCertEndTime := @a_GetCertEndTime A; a_GetCertSerialNumber := @a_GetCertSerialNumber A;
  a_GetCertExtensionByOid := @a_GetCertExtensionByOid A; a_GetCipherSuites := @a_GetCipherSuites A;
  a_FreeCert := @a_FreeCert A; a_SetKeyExchangeGroups := @a_SetKeyExchangeGroups A;
  a_SetCryptoEngine := @a_SetCryptoEngine A
|}.
Lemma with_path_safe path A : TlsAdaptorSafe A -> TlsAdaptorSafe (with_path path A).
Proof. destruct 1. by split; intros; simpl; auto. Qed.
Lemma with_path_local path A : TlsAdaptorLocal A -> TlsAdaptorLocal (with_path path A).
Proof. destruct 1. by split; intros; simpl; auto. Qed.

#[local] Definition Located : TlsAdaptor := with_path "/usr/lib64" OpenSSLAdaptor.
#[local] Instance LocatedSafe : TlsAdaptorSafe Located.
Proof. apply with_path_safe, _. Qed.
#[local] Instance LocatedLocal : TlsAdaptorLocal Located.
Proof. apply with_path_local, _. Qed.

(** The client runs through and answers true; its calls are in the log. *)
Definition client_run : option (bool * World) :=
  @TestClientNewAPI SampleNet Located _ _ _ _ _ 1 2 "10.0.0.1" 443 world0.
Definition connected_to (w : World) : list Z :=
  omap (fun e => match ev_fn e with transport_Connect => Some (ev_ret e) | _ => None end) (w_log w).
Definition handshakes (w : World) : list Z :=
  omap (fun e => match ev_fn e with SSL_connect => Some (ev_ret e) | _ => None end) (w_log w).
Definition created (w : World) : list Z := omap creates (w_log w).


(** *** The samples and the OpenSSL adaptor

    The samples call [SCF_Init(SCF_INIT_FLAG_OPENSSL, nullptr)]; the OpenSSL adaptor wants
    settings. The first client stops there; the client with a pre-shared key does not look
    at the code and answers true, without a single handshake. *)
Lemma SCF_Init_no_settings `{Library} `{SecureC} `{FileSystem} w :
  library_down w -> SCF_Init SCF_INIT_FLAG_OPENSSL None w = Some (SCF_ERRNO_LOAD_LIB, w).
Proof.
  intros (Hi & Ht & Ha). unfold SCF_Init, SCFInitInner, RegisterTlsAdaptor.
  unfold mbind, M_bind, gets, mret, M_ret. rewrite Hi. cbn. rewrite Hi. cbn. rewrite Ht. reflexivity.
Qed.

Example samples_never_start :
  @TestClientNewAPI SampleNet OpenSSLAdaptor _ _ _ _ _ 1 2 "10.0.0.1" 443 world0 = Some (false, world0) /\
  exists w, @TestPSKClient SampleNet OpenSSLAdaptor _ _ _ _ _ 1 "10.0.0.1" 443 world0 = Some (true, w) /\
    connected_to w = [] /\ handshakes w = [].
Proof. split; [vm_compute; reflexivity|]. vm_compute. eexists. split_and!; reflexivity. Qed.
End witnesses.
