(* ===== verification/Progress.v ===== *)
(** * The handshake makes progress

    The non-blocking client polls its handshake for as long as it is asked to. Whether it
    ends depends on the peer: [Settles] says that after some number of rounds OpenSSL no
    longer asks for another, and then the loop, and the program, end; with a peer that stays
    silent they never do. *)
From Stdlib Require Import ZArith Lia Ascii String.
From stdpp Require Import base list fin_maps gmap strings.
From S2P Require Import Prelude Errno Types FileCheck FileCtx Machine OpenSSL Adaptor Api Conn.
From S2P Require Import Lifecycle Config Connection ConnSafe ConnPool Local Network NetSafe Engines.
From S2P Require Import Sample SampleSpec.
Open Scope Z_scope.

Implicit Types (c : SCFConnectionImpl) (cs : list SCFConnectionImpl).

(** ** Rounds *)

(** The handshake calls made on a TLS object since it was created. *)
Fixpoint rounds (ssl : Z) (h : History) : nat :=
  match h with
  | [] => 0
  | e :: h =>
      match ev_fn e, ev_args e with
      | SSL_connect, [AInt p] | SSL_accept, [AInt p] =>
          if p =? ssl then S (rounds ssl h) else rounds ssl h
      | SSL_new, _ => if ev_ret e =? ssl then 0 else rounds ssl h
      | _, _ => rounds ssl h
      end
  end.
Definition tries (obj : Z) (w : World) : nat :=
  match w_objs w !! obj with Some o => rounds (obj_sslCtx o) (w_log w) | None => 0 end.

(** The outside world: after [k] rounds on a TLS object the peer has answered, and OpenSSL
    asks for no other. *)
Class Settles `{Library} (k : nat) : Prop := settles : forall h ssl ret,
  (k <= rounds ssl h)%nat ->
  answer h SSL_get_error [AInt ssl; AInt ret] <> SSL_ERROR_WANT_READ /\
  answer h SSL_get_error [AInt ssl; AInt ret] <> SSL_ERROR_WANT_WRITE.

(** What a handshake step of an adaptor promises: it asks for another only if it made a
    round on the object, one of the first. *)
Definition one_round (k : nat) (obj ret : Z) (w w' : World) : Prop :=
  wants ret = true -> (tries obj w < tries obj w' < k)%nat.
Class Settling (A : TlsAdaptor) (k : nat) : Prop := {
  settling_Connect obj w : wlp (a_Connect obj) (fun ret w' => one_round k obj ret w w') w;
  settling_Accept obj w : wlp (a_Accept obj) (fun ret w' => one_round k obj ret w w') w
}.

(** ** The OpenSSL adaptor keeps the promise *)
Section openssl.
Context `{Library} `{SecureC} `{FileSystem} {k : nat} `{!Settles k}.

Lemma wlp_handshake_round obj role fn w :
  fn = SSL_connect \/ fn = SSL_accept ->
  wlp (handshake obj role fn) (fun ret w' => one_round k obj ret w w') w.
Proof.
  intros Hfn. unfold handshake. destruct (obj =? nullptr); [by apply wlp_ret|].
  apply wlp_bind. unfold wlp at 1, get_obj. destruct (w_objs w !! obj) as [o|] eqn:Ho; [|done].
  destruct (_ =? nullptr); [by apply wlp_ret|]. destruct (negb _); [by apply wlp_ret|].
  set (ssl := obj_sslCtx o). apply wlp_bind.
  match goal with |- wlp ?m _ _ => assert (Hset : wlp m (fun _ w' => w_log w' = w_log w /\
    exists o', w_objs w' !! obj = Some o' /\ obj_sslCtx o' = ssl) w) end.
  { destruct (obj_isSetRole o); [by apply wlp_ret; split; [|exists o]|]. unfold wlp, upd_obj. rewrite Ho.
    split; [done|]. eexists. split; [apply lookup_insert_eq|done]. }
  eapply wlp_mono; [exact Hset|]. intros [] w1 (E1 & o1 & Ho1 & Es1).
  apply wlp_bind, wlp_lib. intros r _. set (w2 := set_log _ w1).
  assert (E2 : rounds ssl (w_log w2) = S (tries obj w)).
  { unfold tries. rewrite Ho. cbn [w2 w_log set_log rounds ev_fn ev_args]. rewrite E1, Z.eqb_refl.
    by destruct Hfn as [-> | ->]. }
  destruct (r =? SSL_SUCCESS); [by apply wlp_ret|].
  apply wlp_bind, wlp_lib. intros e He. set (w3 := set_log _ w2).
  assert (E3 : tries obj w3 = S (tries obj w)).
  { rewrite <- E2. unfold tries at 1. change (w_objs w3) with (w_objs w1). by rewrite Ho1, Es1. }
  assert (Hround : e = SSL_ERROR_WANT_READ \/ e = SSL_ERROR_WANT_WRITE ->
    forall ret, one_round k obj ret w w3).
  { intros Hw ret _. rewrite E3. split; [lia|]. destruct (decide (k <= rounds ssl (w_log w2))%nat) as [Hk|]; [|lia].
    destruct (settles (w_log w2) ssl r Hk) as [? ?]. exfalso. destruct Hw as [Hw|Hw]; congruence. }
  unfold HandleTransPortError. destruct (e =? SSL_ERROR_WANT_READ) eqn:Er; bools; [apply wlp_ret, Hround; by left|].
  destruct (e =? SSL_ERROR_WANT_WRITE) eqn:Ew; bools; [apply wlp_ret, Hround; by right|].
  apply wlp_bind. eapply wlp_mono; [apply wlp_true|]. intros [] w4 _. apply wlp_bind. unfold wlp at 1, gets.
  apply wlp_bind. eapply wlp_mono; [apply wlp_true|]. intros [] w5 _. by apply wlp_ret.
Qed.

#[export] Instance OpenSSLSettling : Settling OpenSSLAdaptor k.
Proof. split; intros; apply wlp_handshake_round; auto. Qed.
End openssl.

(** ** Over any adaptor that keeps it *)
Section progress.
Context `{Library} {A : TlsAdaptor} {k : nat} `{!Settling A k} `{SecureC} `{FileSystem}
  `{Decryptor} `{Uninit} `{FileAlloc}.
Implicit Types (w : World).

Lemma wlp_establish obj (method : Z -> M Z) w :
  (forall obj w, wlp (method obj) (fun ret w' => one_round k obj ret w w') w) ->
  wlp (establish obj method) (fun ret w' => one_round k obj ret w w') w.
Proof.
  intros Hm. unfold establish. destruct (obj =? nullptr); [by apply wlp_ret|].
  apply wlp_bind. unfold wlp at 1, get_obj. destruct (w_objs w !! obj) as [o|]; [|done].
  destruct (_ =? SCF_ROLE_NONE); [by apply wlp_ret|].
  unfold CHECK_RET, CHECK_SCF_INIT, CHECK_SCF_ADAPTOR.
  apply wlp_bind. unfold wlp at 1, gets. destruct (w_scfInitialized w); cbn [negb]; [|by apply wlp_ret].
  apply wlp_bind. unfold wlp at 1, gets. destruct (w_adaptor w); cbn [negb]; [|by apply wlp_ret].
  apply wlp_bind. eapply wlp_mono; [apply Hm|]. intros ret w1 Hr1.
  destruct (ret =? SCF_SUCCESS) eqn:E; bools; [|by apply wlp_ret].
  apply wlp_bind. eapply wlp_mono; [apply wlp_true|]. intros o2 w2 _.
  apply wlp_bind. eapply wlp_mono; [apply wlp_true|]. intros ? w3 _. by apply wlp_ret.
Qed.

(** What a step tells the loop. *)
Definition stepped c w (r : Z * SCFConnectionImpl) w' : Prop :=
  one_round k (m_policyObj c) r.1 w w' /\ same_obj c r.2 /\
  (r.1 = SCF_SUCCESS -> IsConnected r.2 = true) /\
  (wants r.1 = false -> r.1 <> SCF_SUCCESS ->
   m_state r.2 = SCF_CONN_ERROR \/ r.1 = SCF_ERRNO_NULL_INPUT).

Lemma wlp_HandshakeStep_round c w : wlp (HandshakeStep c) (stepped c w) w.
Proof.
  unfold HandshakeStep. apply wlp_meth_bind, wlp_this. cbn [fst snd].
  destruct (_ =? nullptr); [by apply wlp_meth_ret; split_and!; [..|by right]|].
  apply wlp_meth_bind, wlp_this, wlp_meth_bind. cbn [fst snd].
  match goal with |- wlp (?m c) _ _ =>
    assert (Hc : wlp (m c) (fun r w' => r.2 = c /\ one_round k (m_policyObj c) r.1 w w') w) end.
  { destruct (m_isServer c); apply wlp_call; cbn [fst snd];
      (eapply wlp_mono; [apply wlp_establish; intros|]).
    - apply settling_Accept.
    - by intros ret w1 ?.
    - apply settling_Connect.
    - by intros ret w1 ?. }
  eapply wlp_mono; [exact Hc|]. intros [ret c1] w1 [Hc1 Hr1]. cbn [fst snd] in *. subst c1.
  destruct (ret =? SCF_SUCCESS) eqn:E; bools.
  - subst ret. apply wlp_meth_bind, wlp_update, wlp_meth_bind, wlp_update. cbn [fst snd].
    set (c2 := set_m_state _ _). assert (Hk : IsConnected c2 = true /\ same_obj c c2) by done. clearbody c2.
    apply wlp_meth_bind, wlp_call. eapply wlp_mono; [apply wlp_true|]. intros ver w2 _. cbn [fst snd].
    destruct Hk as [Hk Hs].
    apply wlp_meth_bind. destruct ver as [v|]; [apply wlp_update|]; repeat apply wlp_meth_ret;
      by split_and!; cbn [fst snd].
  - destruct (_ || _) eqn:Ew; apply wlp_meth_bind, wlp_update, wlp_meth_ret; cbn [fst snd];
      fold (wants ret) in Ew; split_and!; cbn [fst snd]; try done; [congruence|by left].
Qed.

Lemma poll_done fuel ret : wants ret = false -> poll_handshake fuel ret = mret (Some ret).
Proof. intros Hw. destruct fuel; cbn [poll_handshake]; fold (wants ret); by rewrite Hw. Qed.

(** More fuel changes nothing once the loop ends. *)
Lemma poll_more n fuel ret c w ret' c' w' :
  poll_handshake fuel ret c w = Some ((Some ret', c'), w') ->
  poll_handshake (fuel + n) ret c w = Some ((Some ret', c'), w').
Proof.
  revert ret c w. induction fuel as [|fuel IH]; intros ret c w.
  - destruct (wants ret) eqn:Ew; [|by rewrite !poll_done].
    cbn [poll_handshake]. fold (wants ret). by rewrite Ew.
  - cbn [poll_handshake Nat.add]. fold (wants ret). destruct (wants ret); [|done].
    unfold mbind, Method_bind, mbind, M_bind. destruct (GetNativeHandle c w) as [[[fd c1] w1]|]; [|done].
    cbn [fst snd]. destruct (HandshakeStep c1 w1) as [[[ret2 c2] w2]|]; [|done]. cbn [fst snd]. apply IH.
Qed.

(** The loop ends within [k] rounds, with the answer of the last step. *)
Lemma wlp_poll_ends fuel ret c w :
  (k < fuel + tries (m_policyObj c) w)%nat -> (wants ret = true -> (0 < fuel)%nat) ->
  wlp (poll_handshake fuel ret c) (fun r w' => exists ret',
    r.1 = Some ret' /\ wants ret' = false /\
    (wants ret = true -> (ret' = SCF_SUCCESS -> IsConnected r.2 = true) /\
     (ret' <> SCF_SUCCESS -> m_state r.2 = SCF_CONN_ERROR \/ ret' = SCF_ERRNO_NULL_INPUT))) w.
Proof.
  revert ret c w. induction fuel as [|fuel IH]; intros ret c w Hk Hf; cbn [poll_handshake];
    fold (wants ret); destruct (wants ret) eqn:Ew; try (by apply wlp_meth_ret; eexists).
  { specialize (Hf eq_refl). lia. }
  apply wlp_meth_bind.
  assert (Hh : wlp (GetNativeHandle c) (fun r w' => r.2 = c /\ tries (m_policyObj c) w' = tries (m_policyObj c) w) w).
  { unfold GetNativeHandle. apply wlp_meth_bind, wlp_this. cbn [fst snd].
    destruct (negb _); [|by apply wlp_meth_ret]. by apply wlp_call, wlp_lib. }
  eapply wlp_mono; [exact Hh|]. intros [fd c1] w1 [Hc1 Hr1]. cbn [fst snd] in *. subst c1.
  apply wlp_meth_bind. eapply wlp_mono; [apply wlp_HandshakeStep_round|].
  intros [ret2 c2] w2 (Hround & Hsame & Hok & Herr). cbn [fst snd] in *.
  destruct (wants ret2) eqn:E2.
  - destruct (Hround E2) as [Hlt Hle]. unfold same_obj in Hsame. eapply wlp_mono; [apply IH; rewrite ?Hsame; lia|].
    intros r w3 (ret' & ? & ? & Hr'). exists ret'. split_and!; [done..|]. intros _. by apply Hr'.
  - rewrite (poll_done _ _ E2). apply wlp_meth_ret. exists ret2. split_and!; [done..|]. intros _.
    split; [done|by apply Herr].
Qed.

(** Every step returns, beside any other connections. *)
Lemma wp_pool_use `{!TlsAdaptorSafe A} {X} (m : Meth X) u c cs w :
  use u = ignore m -> pool_ok (c :: cs) (life_of w) ->
  wp (m c) (fun r w' => pool_ok (r.2 :: cs) (life_of w')) w.
Proof.
  intros Hu Hp. pose proof (wp_run_op (OUse u) c cs w Hp) as Hw. cbn [run_op] in Hw. rewrite Hu in Hw.
  unfold ignore, mbind, M_bind, Method_bind, mret, M_ret, Method_ret, wp in *. cbv beta in Hw.
  unfold mbind, M_bind in Hw. by destruct (m c w) as [[[x c'] w']|].
Qed.

Lemma wp_poll_returns `{!TlsAdaptorSafe A} fuel ret c cs w :
  pool_ok (c :: cs) (life_of w) -> wp (poll_handshake fuel ret c) (fun _ _ => True) w.
Proof.
  revert ret c w. induction fuel as [|fuel IH]; intros ret c w Hp; cbn [poll_handshake];
    fold (wants ret); destruct (wants ret); try by apply wp_meth_ret.
  apply wp_meth_bind. eapply wp_mono; [by eapply (wp_pool_use GetNativeHandle UGetNativeHandle)|].
  intros [fd c1] w1 Hp1. apply wp_meth_bind.
  eapply wp_mono; [by eapply (wp_pool_use HandshakeStep UHandshakeStep)|].
  intros [ret2 c2] w2 Hp2. cbn [fst snd] in *. by apply IH.
Qed.

(** The program ends with the loop. *)
Lemma wlp_TestNonBlockingClient_ends fuel host port w :
  (k < fuel)%nat -> wlp (TestNonBlockingClient fuel host port) (fun r _ => is_Some r.1) w.
Proof.
  intros Hk. unfold TestNonBlockingClient.
  do 2 (apply wlp_bind; eapply wlp_mono; [apply wlp_true|]; intros ? ? _).
  match goal with |- wlp (match ?r with _ => _ end) _ _ => destruct r as [conn|] end; [|done].
  apply wlp_bind. eapply wlp_mono; [apply wlp_true|]. intros [ret c] w1 _.
  apply wlp_bind. eapply wlp_mono; [apply wlp_poll_ends; [lia|intros _; lia]|].
  intros [r c2] w2 (ret' & Hr & _). cbn [fst] in Hr. subst r.
  destruct (negb _); repeat (apply wlp_bind; eapply wlp_mono; [apply wlp_true|]; intros ? ? _).
  - by apply wlp_ret.
  - match goal with |- wlp (let '_ := ?p in _) _ _ => destruct p end.
    repeat (apply wlp_bind; eapply wlp_mono; [apply wlp_true|]; intros ? ? _). by apply wlp_ret.
Qed.

(** (C13) The handshake makes progress. If the peer answers within [k] rounds, then, over an
    adaptor that keeps its contracts (the OpenSSL adaptor does while [SSL_new] finds memory),
    on any connection of any process and from any code: the polling loop of the non-blocking
    client ends, [k + 1] iterations are enough and more change nothing; it ends with a code
    that asks for nothing; if it polled at all, success means that the connection is
    connected, and any other code that it is in the error state or has no object. And if
    [new] never answers null, the program itself, in a fresh process, ends with its
    connection deleted (when the allocation of the connection fails it dereferences null). *)
Theorem handshake_progress `{!TlsAdaptorSafe A} `{!TlsAdaptorLocal A} :
  (forall cs w c ret, pool_reach cs w -> c ∈ cs ->
   exists ret' c' w',
     (forall n, poll_handshake (S k + n) ret c w = Some ((Some ret', c'), w')) /\
     wants ret' = false /\
     (wants ret = true ->
       (ret' = SCF_SUCCESS -> IsConnected c' = true) /\
       (ret' <> SCF_SUCCESS -> m_state c' = SCF_CONN_ERROR \/ ret' = SCF_ERRNO_NULL_INPUT))) /\
  ((forall h args, answer h op_new args <> nullptr) -> forall host port,
   exists ok w', TestNonBlockingClient (S k) host port world0 = Some ((Some ok, []), w')).
Proof.
  split.
  - intros cs w c ret Hr%pool_reach_ok [cs' Hp]%elem_of_Permutation. rewrite Hp in Hr.
    pose proof (wp_poll_returns (S k) ret _ _ _ Hr) as Hw.
    pose proof (wlp_poll_ends (S k) ret c w ltac:(lia) ltac:(lia)) as He. unfold wp, wlp in *.
    destruct (poll_handshake (S k) ret c w) as [[[r c'] w']|] eqn:Hrun; [|done].
    destruct He as (ret' & Hret & ? & ?). cbn [fst snd] in *. subst r. exists ret', c', w'.
    split_and!; [|done..]. intros n. by apply poll_more.
  - intros Hnew host port. assert (Hs : stopped pool_reach world0) by (split; [constructor|done]).
    pose proof (wp_TestNonBlockingClient false pool_reach (S k) host port world0 Hnew Hs) as Hw.
    pose proof (wlp_TestNonBlockingClient_ends (S k) host port world0 ltac:(lia)) as He. unfold wp, wlp in *.
    destruct (TestNonBlockingClient _ _ _ _) as [[[r cs] w']|]; [|done].
    destruct He as [ok Hok]. cbn [fst] in Hok. subst r. destruct Hw as [Hcs _]. cbn [snd] in Hcs. subst cs.
    by exists ok, w'.
Qed.
End progress.

(** ** With a peer that stays silent *)
Section silent.
Context `{Library} `{SecureC} `{FileSystem} `{Decryptor} `{Uninit} `{FileAlloc}.
Context (silent_connect : forall h args, answer h SSL_connect args <> SSL_SUCCESS)
        (silent_error : forall h args, answer h SSL_get_error args = SSL_ERROR_WANT_READ).
Implicit Types (w : World).

(** A client in the middle of its handshake. *)
Definition asking c w : Prop :=
  m_isServer c = false /\ m_policyObj c <> nullptr /\
  w_scfInitialized w = true /\ w_adaptor w = true /\
  exists o, w_objs w !! m_policyObj c = Some o /\ obj_sslCtx o <> nullptr /\ obj_role o = SCF_ROLE_CLIENT.

Lemma wp_connect_asking obj o w :
  obj <> nullptr -> w_objs w !! obj = Some o -> obj_sslCtx o <> nullptr -> obj_role o = SCF_ROLE_CLIENT ->
  wp (a_Connect obj) (fun ret w' => ret = SCF_SSL_ERR_WANT_READ /\
    w_scfInitialized w' = w_scfInitialized w /\ w_adaptor w' = w_adaptor w /\
    exists o', w_objs w' !! obj = Some o' /\ obj_sslCtx o' <> nullptr /\ obj_role o' = SCF_ROLE_CLIENT) w.
Proof.
  intros Hp Ho Hs Hr. apply Z.eqb_neq in Hp as Hpb, Hs as Hsb.
  cbn [a_Connect OpenSSLAdaptor]. unfold OpenSSL.Connect, handshake. rewrite Hpb.
  apply wp_bind, (wp_get_obj _ o); [done|]. rewrite Hsb, Hr. cbn [negb Z.eqb].
  apply wp_bind.
  assert (Hend : forall w1, w_scfInitialized w1 = w_scfInitialized w -> w_adaptor w1 = w_adaptor w ->
    (exists o', w_objs w1 !! obj = Some o' /\ obj_sslCtx o' <> nullptr /\ obj_role o' = SCF_ROLE_CLIENT) ->
    wp (ret ← lib SSL_connect [AInt (obj_sslCtx o)];
        return_if ret =? SSL_SUCCESS with (mret SCF_SUCCESS) ;;
        ret ← lib SSL_get_error [AInt (obj_sslCtx o); AInt ret];
        HandleTransPortError obj ret) (fun ret w' => ret = SCF_SSL_ERR_WANT_READ /\
      w_scfInitialized w' = w_scfInitialized w /\ w_adaptor w' = w_adaptor w /\
      exists o', w_objs w' !! obj = Some o' /\ obj_sslCtx o' <> nullptr /\ obj_role o' = SCF_ROLE_CLIENT) w1).
  { intros w1 Hi Ha Hx. apply wp_bind, wp_lib. intros r ->. rewrite (proj2 (Z.eqb_neq _ _) (silent_connect _ _)).
    apply wp_bind, wp_lib. intros e ->. rewrite silent_error. by apply wp_ret. }
  destruct (obj_isSetRole o).
  - apply wp_ret. apply Hend; [done..|]. by exists o.
  - apply (wp_upd_obj _ o); [done|]. apply Hend; [done..|]. eexists. split; [apply lookup_insert_eq|done].
Qed.

Lemma wp_HandshakeStep_asking c w :
  asking c w ->
  wp (HandshakeStep c) (fun r w' => r.1 = SCF_SSL_ERR_WANT_READ /\ asking r.2 w') w.
Proof.
  intros (Hs & Hp & Hi & Ha & o & Ho & Hssl & Hr). apply Z.eqb_neq in Hp as Hpb.
  unfold HandshakeStep. apply wp_meth_bind, wp_this. cbn [fst snd]. rewrite Hpb.
  apply wp_meth_bind, wp_this, wp_meth_bind. cbn [fst snd]. rewrite Hs. apply wp_call.
  unfold SCF_Connect, establish. rewrite Hpb. apply wp_bind, (wp_get_obj _ o); [done|]. rewrite Hr.
  cbn [Z.eqb]. unfold CHECK_RET, CHECK_SCF_INIT, CHECK_SCF_ADAPTOR.
  apply wp_bind, wp_gets. rewrite Hi. cbn [negb]. apply wp_bind, wp_gets. rewrite Ha. cbn [negb].
  apply wp_bind. eapply wp_mono; [by eapply wp_connect_asking|].
  intros ret w1 (-> & Hi1 & Ha1 & Ho1). apply wp_ret. cbn [fst snd].
  apply wp_meth_bind, wp_update, wp_meth_ret. split; [done|]. unfold asking. cbn. by rewrite Hi1, Ha1.
Qed.

(** The loop has no bound of its own: with such a peer it runs for ever (the timeout of the
    configuration is not applied, as its documentation says). *)
Lemma handshake_for_ever fuel c w :
  asking c w ->
  exists c' w', poll_handshake fuel SCF_SSL_ERR_WANT_READ c w = Some ((None, c'), w').
Proof.
  intros Hc. enough (Hw : wp (poll_handshake fuel SCF_SSL_ERR_WANT_READ c) (fun r _ => r.1 = None) w).
  { unfold wp in Hw. destruct (poll_handshake _ _ c w) as [[[r c'] w']|]; [|done].
    cbn in Hw. subst r. by exists c', w'. }
  revert c w Hc. induction fuel as [|fuel IH]; intros c w Hc; [by apply wp_meth_ret|].
  cbn [poll_handshake]. change (SCF_SSL_ERR_WANT_READ =? SCF_SSL_ERR_WANT_READ) with true. cbn [orb].
  apply wp_meth_bind.
  assert (Hg : wp (GetNativeHandle c) (fun r w' => asking r.2 w') w).
  { unfold GetNativeHandle. apply wp_meth_bind, wp_this. cbn [fst snd].
    destruct (negb _); [|by apply wp_meth_ret]. by apply wp_call, wp_lib. }
  eapply wp_mono; [exact Hg|]. intros [fd c1] w1 Hc1. cbn [fst snd] in *.
  apply wp_meth_bind. eapply wp_mono; [by apply wp_HandshakeStep_asking|].
  intros [ret c2] w2 [Hret Hc2]. cbn [fst snd] in *. subst ret. by apply IH.
Qed.
End silent.

(** ** Witness: a peer that answers in the third round *)
Section witness.
#[local] Existing Instance RefFileAlloc.

Definition slow_answer (h : History) (f : LibFn) (args : list Arg) : Z :=
  match f, args with
  | SSL_connect, [AInt ssl] => if (rounds ssl h <? 2)%nat then -1 else 1
  | SSL_get_error, [AInt ssl; _] => if (rounds ssl h <? 3)%nat then SSL_ERROR_WANT_READ else 1
  | _, _ => ref_answer h f args
  end.
#[local] Instance SlowPeer : Library := {|
  answer := slow_answer;
  out_value _ := 1000;
  cstring_at _ _ := "TLSv1.3"%string;
  bytes_at _ _ n := replicate (Z.to_nat n) "?"%char;
  asn1_data _ _ := []
|}.
#[local] Instance SlowSslMemory : SslMemory (H := SlowPeer).
Proof. done. Qed.
#[local] Instance SlowSettles : Settles 3.
Proof.
  intros h ssl ret Hk. cbn [answer SlowPeer slow_answer].
  rewrite (proj2 (Nat.ltb_ge _ _) Hk). by split.
Qed.

Definition slow_up : World := (step_ 0 (SCF_Init SCF_INIT_FLAG_OPENSSL (Some "/usr/lib64"%string)) world0).2.
Definition slow_made : World := (step_ None (Create client_cfg) slow_up).2.
Definition asked : list SCFConnectionImpl * World :=
  step_ [] (run_op (OConnect "10.0.0.1" 443) client0) slow_made.
Definition asker : SCFConnectionImpl := hd client0 asked.1.

Lemma run_asked : run_op (OConnect "10.0.0.1" 443) client0 slow_made = Some ([asker], asked.2).
Proof. vm_compute; reflexivity. Qed.

Lemma pool_asked : pool_reach [asker] asked.2.
Proof.
  pose proof run_asked as Hrun. revert Hrun. generalize asker asked.2. intros c w Hrun.
  refine (pool_op _ client0 [] _ (OConnect "10.0.0.1" 443) [c] w _ (Permutation_refl _) Hrun).
  refine (pool_create [] slow_up client_cfg (Some client0) slow_made _ _); [|vm_compute; reflexivity].
  refine (pool_init [] world0 SCF_INIT_FLAG_OPENSSL (Some "/usr/lib64"%string) 0 slow_up pool_start _).
  vm_compute; reflexivity.
Qed.

(** Asked twice, connected in the third round. *)
Lemma handshake_progress_witness :
  GetState asker = SCF_CONN_CONNECTING /\ tries (m_policyObj asker) asked.2 = 1%nat /\
  exists c' w', IsConnected c' = true /\ tries (m_policyObj asker) w' = 3%nat /\
    forall n, poll_handshake (4 + n) SCF_SSL_ERR_WANT_READ asker asked.2 = Some ((Some SCF_SUCCESS, c'), w').
Proof.
  split; [vm_compute; reflexivity|].
  destruct (handshake_progress (k := 3)) as [Hp _].
  destruct (Hp [asker] asked.2 asker SCF_SSL_ERR_WANT_READ pool_asked (list_elem_of_here _ _))
    as (ret' & c' & w' & Hrun & _ & Hok).
  destruct Hok as [Hok _]; [reflexivity|].
  assert (Hend : exists c2 w2, poll_handshake (4 + 0) SCF_SSL_ERR_WANT_READ asker asked.2 =
    Some ((Some SCF_SUCCESS, c2), w2) /\ tries (m_policyObj asker) w2 = 3%nat)
    by (vm_compute; do 2 eexists; split; reflexivity).
  destruct Hend as (c2 & w2 & Hrun2 & Ht). rewrite (Hrun 0%nat) in Hrun2. injection Hrun2 as E1 E2 E3.
  split; [vm_compute; reflexivity|]. exists c', w'.
  split; [by apply Hok|]. split; [by rewrite E3|]. intros n. rewrite <- E1. apply Hrun.
Defined.
End witness.
