(* ===== verification/Threads.v ===== *)
(** * Threads under mutexes

    A small theory of threads that share a state whose parts are each guarded by a mutex
    ([std::lock_guard] around a block): what a thread does between locking and unlocking is
    a program of single accesses ([code]), and the accesses of different threads interleave
    in any order. The main results are that every interleaving is one in which each guarded
    block runs at once ([blocks_are_atomic]), that no schedule gets stuck and that none runs
    for ever, and that a call which reads answers what its blocks saw at moments of the
    schedule, in their order ([replay_at_moments]). *)
From Stdlib Require Import ZArith Lia Wellfounded.
From stdpp Require Import base list relations.
From S2P Require Import Prelude.

(** ** Guarded blocks

    A program of accesses to a guarded state: an access reads it and may write it ([w]), and
    the rest of the program depends on the state read. *)
Inductive code (S X : Type) : Type :=
| Done (x : X)
| Access (w : S -> S) (k : S -> code S X).
Arguments Done {S X} x.
Arguments Access {S X} w k.

(** The block run at once. *)
Fixpoint run_code {S X} (c : code S X) (s : S) : S * X :=
  match c with
  | Done x => (s, x)
  | Access w k => run_code (k s) (w s)
  end.

Fixpoint code_bind {S X Y} (c : code S X) (k : X -> code S Y) : code S Y :=
  match c with
  | Done x => k x
  | Access w c => Access w (fun s => code_bind (c s) k)
  end.

Declare Scope code_scope.
Delimit Scope code_scope with code.
Bind Scope code_scope with code.
Notation "'let*' x := c 'in' k" := (code_bind c (fun x => k))
  (at level 10, x pattern, k at level 200) : code_scope.

Definition load {S X} (f : S -> X) : code S X := Access id (fun s => Done (f s)).
Definition store {S} (f : S -> S) : code S unit := Access f (fun _ => Done tt).

Lemma run_code_bind {S X Y} (c : code S X) (k : X -> code S Y) s :
  run_code (code_bind c k) s = run_code (k (run_code c s).2) (run_code c s).1.
Proof.
  revert s. induction c as [x|w c IH]; intros s; [done|]. simpl. apply IH.
Qed.

(** ** The shared state *)

(** What each mutex guards, and the atomic variables beside them. *)
Class Guarded (S : Type) : Type := {
  Lock : Type;
  lock_dec : EqDecision Lock;
  part : Lock -> Type;
  get : forall l, S -> part l;
  put : forall l, part l -> S -> S;
  Atoms : Type;
  atoms : S -> Atoms;
  put_atoms : Atoms -> S -> S
}.
#[export] Existing Instance lock_dec.

Class GuardedLaws (S : Type) `{Guarded S} : Prop := {
  get_put l v s : get l (put l v s) = v;
  get_put_ne l l' v s : l <> l' -> get l (put l' v s) = get l s;
  put_put l v v' s : put l v (put l v' s) = put l v s;
  put_get l s : put l (get l s) s = s;
  put_comm l l' v v' s : l <> l' -> put l v (put l' v' s) = put l' v' (put l v s);
  get_put_atoms l a s : get l (put_atoms a s) = get l s;
  atoms_put l v s : atoms (put l v s) = atoms s;
  put_atoms_put l v a s : put_atoms a (put l v s) = put l v (put_atoms a s)
}.

(** ** Threads *)
Section threads.
Context {S : Type} `{Guarded S}.

(** The call of an operation: it ends, or runs a guarded block, or accesses an atomic
    variable. *)
Inductive prog (R : Type) : Type :=
| Ret (r : R)
| Block (l : Lock) (Y : Type) (c : code (part l) Y) (k : Y -> prog R)
| Atomic (Y : Type) (f : Atoms -> Atoms * Y) (k : Y -> prog R).

(** A thread, between blocks or inside one. *)
Inductive thread (R : Type) : Type :=
| Outside (p : prog R)
| Inside (l : Lock) (Y : Type) (c : code (part l) Y) (k : Y -> prog R).
Arguments Ret {R}. Arguments Block {R}. Arguments Atomic {R}.
Arguments Outside {R}. Arguments Inside {R}.

Definition holds {R} (t : thread R) : option Lock :=
  match t with Outside _ => None | Inside l _ _ _ => Some l end.
Definition free {R} (ts : list (thread R)) (l : Lock) : bool :=
  forallb (fun t => negb (bool_decide (holds t = Some l))) ts.

(** One step of a thread beside [ts]: take a free mutex, access, release, access an atomic
    variable. [None]: it cannot. *)
Definition thread_step {R} (ts : list (thread R)) (t : thread R) (s : S) : option (thread R * S) :=
  match t with
  | Outside (Ret _) => None
  | Outside (Block l Y c k) => if free ts l then Some (Inside l Y c k, s) else None
  | Outside (Atomic Y f k) =>
      match f (atoms s) with (a, y) => Some (Outside (k y), put_atoms a s) end
  | Inside l Y (Done y) k => Some (Outside (k y), s)
  | Inside l Y (Access w c) k => Some (Inside l Y (c (get l s)) k, put l (w (get l s)) s)
  end.

Inductive step {R} : list (thread R) * S -> list (thread R) * S -> Prop :=
| step_thread ts s i t t' s' :
    ts !! i = Some t -> thread_step ts t s = Some (t', s') -> step (ts, s) (<[i := t']> ts, s').

(** The same, with every block at once. *)
Definition prog_step {R} (p : prog R) (s : S) : option (prog R * S) :=
  match p with
  | Ret _ => None
  | Block l Y c k => match run_code c (get l s) with (v, y) => Some (k y, put l v s) end
  | Atomic Y f k => match f (atoms s) with (a, y) => Some (k y, put_atoms a s) end
  end.

Inductive block_step {R} : list (prog R) * S -> list (prog R) * S -> Prop :=
| step_block ps s i p p' s' :
    ps !! i = Some p -> prog_step p s = Some (p', s') -> block_step (ps, s) (<[i := p']> ps, s').

(** A call alone. *)
Fixpoint solo {R} (p : prog R) (s : S) : S * R :=
  match p with
  | Ret r => (s, r)
  | Block l Y c k => match run_code c (get l s) with (v, y) => solo (k y) (put l v s) end
  | Atomic Y f k => match f (atoms s) with (a, y) => solo (k y) (put_atoms a s) end
  end.

(** Run by a scheduler: the indices of the threads that step. *)
Fixpoint schedule {R} (order : list nat) (st : list (thread R) * S) : list (thread R) * S :=
  match order with
  | [] => st
  | i :: order =>
      match st.1 !! i with
      | None => schedule order st
      | Some t =>
          match thread_step st.1 t st.2 with
          | None => schedule order st
          | Some (t', s') => schedule order (<[i := t']> st.1, s')
          end
      end
  end.

Lemma schedule_steps {R} order (st : list (thread R) * S) : rtc step st (schedule order st).
Proof.
  revert st. induction order as [|i order IH]; intros [ts s]; [reflexivity|]. cbn [schedule fst snd].
  destruct (ts !! i) as [t|] eqn:Ht; [|apply IH].
  destruct (thread_step ts t s) as [[t' s']|] eqn:Hs; [|apply IH].
  eapply rtc_l; [by econstructor|apply IH].
Qed.
End threads.
Arguments prog S {_} R. Arguments thread S {_} R.
Arguments Ret {S _ R} r. Arguments Block {S _ R} l {Y} c k. Arguments Atomic {S _ R Y} f k.
Arguments Outside {S _ R} p. Arguments Inside {S _ R} l {Y} c k.

(** ** Every interleaving is one of whole blocks *)
Section atomicity.
Context {S : Type} `{GuardedLaws S} {R : Type}.
Implicit Types (t : thread S R) (ts : list (thread S R)) (s : S).

(** A mutex is held by one thread at most. *)
Fixpoint mutex ts : Prop :=
  match ts with
  | [] => True
  | t :: ts => (forall l, holds t = Some l -> free ts l = true) /\ mutex ts
  end.

(** What the threads inside a block will make of the state, and where each will be then. *)
Definition finished_part t s : S :=
  match t with
  | Outside _ => s
  | Inside l c _ => put l (run_code c (get l s)).1 s
  end.
Definition finished s t : prog S R :=
  match t with
  | Outside p => p
  | Inside l c k => k (run_code c (get l s)).2
  end.
Fixpoint finish_all ts s : S :=
  match ts with
  | [] => s
  | t :: ts => finished_part t (finish_all ts s)
  end.
Definition blocks_done (st : list (thread S R) * S) : list (prog S R) * S :=
  (finished st.2 <$> st.1, finish_all st.1 st.2).

Lemma free_cons l t ts : free (R := R) (t :: ts) l = true <-> holds t <> Some l /\ free ts l = true.
Proof. cbn [free forallb]. rewrite andb_true_iff, negb_true_iff, bool_decide_eq_false. done. Qed.
Lemma free_app l (l1 l2 : list (thread S R)) : free (l1 ++ l2) l = true <-> free l1 l = true /\ free l2 l = true.
Proof. unfold free. by rewrite forallb_app, andb_true_iff. Qed.

Lemma get_finished_part l t s : holds t <> Some l -> get l (finished_part t s) = get l s.
Proof.
  destruct t as [p|l' Y c k]; [done|]. cbn [holds finished_part]. intros Hl. apply get_put_ne.
  congruence.
Qed.

Lemma finished_part_put l v t s :
  holds t <> Some l -> finished_part t (put l v s) = put l v (finished_part t s).
Proof.
  destruct t as [p|l' Y c k]; [done|]. cbn [holds finished_part]. intros Hl.
  assert (l <> l') by congruence. rewrite (get_put_ne l' l) by done. by rewrite put_comm.
Qed.

Lemma get_finish_all l ts s : free ts l = true -> get l (finish_all ts s) = get l s.
Proof.
  induction ts as [|t ts IH]; [done|]. intros [Ht Ha]%free_cons. cbn [finish_all].
  by rewrite get_finished_part, IH.
Qed.

Lemma finish_all_put l v ts s :
  free ts l = true -> finish_all ts (put l v s) = put l v (finish_all ts s).
Proof.
  induction ts as [|t ts IH]; [done|]. intros [Ht Ha]%free_cons. cbn [finish_all].
  by rewrite IH, finished_part_put.
Qed.

Lemma finish_all_put_atoms a ts s : finish_all ts (put_atoms a s) = put_atoms a (finish_all ts s).
Proof.
  induction ts as [|[p|l Y c k] ts IH]; cbn [finish_all finished_part]; rewrite ?IH; [done..|].
  by rewrite get_put_atoms, put_atoms_put.
Qed.

Lemma atoms_finish_all ts s : atoms (finish_all ts s) = atoms s.
Proof.
  induction ts as [|[p|l Y c k] ts IH]; cbn [finish_all finished_part]; rewrite ?atoms_put; done.
Qed.

(** A thread can be finished last. *)
Lemma finish_last l1 t l2 s :
  (forall l, holds t = Some l -> free l1 l = true) ->
  finish_all (l1 ++ t :: l2) s = finished_part t (finish_all (l1 ++ l2) s).
Proof.
  destruct t as [p|l Y c k]; intros Ha; induction l1 as [|t l1 IH]; cbn; try done.
  - f_equal. by apply IH.
  - specialize (Ha l eq_refl). apply free_cons in Ha as [Ht Ha]. cbn in IH.
    rewrite IH by (intros ? [= <-]; done). rewrite finished_part_put by done.
    by rewrite get_finished_part by done.
Qed.

(** What a thread will answer depends on the part it holds only. *)
Lemma finished_elsewhere l ts s s' :
  free ts l = true -> (forall l', l' <> l -> get l' s' = get l' s) ->
  finished s' <$> ts = finished s <$> ts.
Proof.
  intros Hf Hg. induction ts as [|t ts IH]; [done|]. apply free_cons in Hf as [Ht Hf].
  cbn. rewrite (IH Hf). f_equal. destruct t as [p|l' Y c k]; [done|]. cbn in *.
  rewrite Hg; [done|congruence].
Qed.

Lemma mutex_split l1 t l2 :
  mutex (l1 ++ t :: l2) <->
  mutex (l1 ++ l2) /\ forall l, holds t = Some l -> free (l1 ++ l2) l = true.
Proof.
  induction l1 as [|t1 l1 IH]; cbn [app mutex]; [naive_solver|]. rewrite IH.
  repeat setoid_rewrite free_app. setoid_rewrite free_cons. split.
  - intros (H1 & Hm & H2). split_and!; [|done|].
    + intros l Hl. by destruct (H1 l Hl) as (? & ? & ?).
    + intros l Hl. split; [|by apply free_app, H2]. intros Hl1. by destruct (H1 l Hl1) as (? & ? & ?).
  - intros ((H1 & Hm) & H2). split_and!; [|done|].
    + intros l Hl. destruct (H1 l Hl). split_and!; [done| |done]. intros Hl'. by destruct (H2 l Hl').
    + intros l Hl. apply free_app. by destruct (H2 l Hl) as [_ ?].
Qed.

Lemma step_split ts s ts' s' :
  step (ts, s) (ts', s') -> exists l1 t l2 t',
    ts = l1 ++ t :: l2 /\ ts' = l1 ++ t' :: l2 /\ thread_step ts t s = Some (t', s').
Proof.
  inversion 1 as [? ? i t t' ? Ht Hs]; subst.
  exists (take i ts), t, (drop (Datatypes.S i) ts), t'. split; [by rewrite take_drop_middle|].
  split; [|done]. apply insert_take_drop. by eapply lookup_lt_Some.
Qed.

Lemma block_step_split (l1 l2 : list (prog S R)) p p' s s' :
  prog_step p s = Some (p', s') -> block_step (l1 ++ p :: l2, s) (l1 ++ p' :: l2, s').
Proof.
  intros Hp. replace (l1 ++ p' :: l2) with (<[length l1 := p']> (l1 ++ p :: l2)).
  - econstructor; [|done]. by rewrite list_lookup_middle.
  - by rewrite insert_app_r_alt, Nat.sub_diag by lia.
Qed.

Lemma mutex_outside (ps : list (prog S R)) : mutex (Outside <$> ps).
Proof. induction ps; [done|]. by split. Qed.

Lemma step_mutex ts s ts' s' : step (ts, s) (ts', s') -> mutex ts -> mutex ts'.
Proof.
  intros (l1 & t & l2 & t' & -> & -> & Ht)%step_split [Hm Hl]%mutex_split. apply mutex_split.
  split; [done|]. destruct t as [[r|l Y c k|Y f k]|l Y [y|w c] k]; cbn [thread_step] in Ht.
  - done.
  - destruct (free _ l) eqn:Hf; [|done]. injection Ht as <- <-. intros l' [= <-].
    apply free_app in Hf as [? Hf]. apply free_cons in Hf as [_ ?]. by apply free_app.
  - destruct (f (atoms s)). by injection Ht as <- <-.
  - by injection Ht as <- <-.
  - injection Ht as <- <-. apply Hl.
Qed.

(** A step of the threads is a step of whole blocks, or none. *)
Lemma step_blocks ts s ts' s' :
  mutex ts -> step (ts, s) (ts', s') ->
  rtc block_step (blocks_done (ts, s)) (blocks_done (ts', s')).
Proof.
  intros Hm Hs. pose proof (step_mutex _ _ _ _ Hs Hm) as Hm'.
  apply step_split in Hs as (l1 & t & l2 & t' & -> & -> & Ht).
  apply mutex_split in Hm as [_ Hl]. apply mutex_split in Hm' as [_ Hl'].
  assert (Hb : forall l, holds t = Some l -> free l1 l = true) by (by intros l [??]%Hl%free_app).
  assert (Hb' : forall l, holds t' = Some l -> free l1 l = true) by (by intros l [??]%Hl'%free_app).
  unfold blocks_done. cbn [fst snd]. rewrite !finish_last, !fmap_app, !fmap_cons by done.
  destruct t as [[r|l Y c k|Y f k]|l Y [y|w c] k]; cbn [thread_step] in Ht; cbn [holds] in *.
  - done.
  - destruct (free _ l); [|done]. injection Ht as <- <-. specialize (Hl' l eq_refl).
    apply rtc_once, block_step_split. cbn. by rewrite get_finish_all, (surjective_pairing (run_code _ _)).
  - destruct (f (atoms s)) as [a y] eqn:Hf. injection Ht as <- <-. rewrite finish_all_put_atoms.
    rewrite !(list_fmap_ext (finished (put_atoms a s)) (finished s)).
    + apply rtc_once, block_step_split. cbn. by rewrite atoms_finish_all, Hf.
    + intros _ [p|l Y' c k'] _; [done|]. cbn. by rewrite get_put_atoms.
    + intros _ [p|l Y' c k'] _; [done|]. cbn. by rewrite get_put_atoms.
  - injection Ht as <- <-. specialize (Hl l eq_refl). cbn. by rewrite put_get.
  - injection Ht as <- <-. specialize (Hl l eq_refl). apply free_app in Hl as Hf. destruct Hf.
    rewrite finish_all_put by done. cbn. rewrite get_finish_all, !get_put, put_put by done.
    rewrite !(finished_elsewhere l _ s (put l _ s)) by (try done; intros; by apply get_put_ne). done.
Qed.

(** Whatever the interleaving, the threads are where they could be had every block run at
    once. *)
Lemma blocks_are_atomic ps s ts s' :
  rtc step (Outside <$> ps, s) (ts, s') -> rtc block_step (ps, s) (blocks_done (ts, s')).
Proof.
  intros Hr. apply proj1 with (B := mutex ts). revert Hr. generalize (mutex_outside ps).
  replace (ps, s) with (blocks_done (Outside <$> ps, s)).
  - generalize (Outside <$> ps). intros ts0 Hm Hr. remember (ts0, s) as st eqn:E.
    remember (ts, s') as st' eqn:E'. revert ts0 s Hm E ts s' E'.
    induction Hr as [st|st [ts1 s1] st' Hs Hr IH]; intros; subst.
    + injection E' as -> ->. done.
    + pose proof (step_mutex _ _ _ _ Hs Hm) as Hm1. destruct (IH _ _ Hm1 eq_refl _ _ eq_refl).
      split; [|done]. etrans; [by apply step_blocks|done].
  - unfold blocks_done. cbn. f_equal.
    + induction ps; [done|]. cbn. by f_equal.
    + by induction ps.
Qed.
End atomicity.

(** ** Schedules end, with every call returned *)
Section ending.
Context {S : Type} `{Guarded S} {R : Type}.
Implicit Types (t : thread S R) (ts : list (thread S R)) (s : S).

(** Some thread takes a step, whatever the state. *)
Definition moves t t' : Prop := exists ts s s', thread_step ts t s = Some (t', s').
Definition some_moves ts ts' : Prop :=
  exists l1 t l2 t', ts = l1 ++ t :: l2 /\ ts' = l1 ++ t' :: l2 /\ moves t t'.

Lemma inside_ends l Y (c : code (part l) Y) (k : Y -> prog S R) :
  (forall y, Acc (flip moves) (Outside (k y))) -> Acc (flip moves) (Inside l c k).
Proof.
  intros Hk. induction c as [y|w c IH]; constructor; intros t (? & ? & ? & Ht); cbn in Ht;
    by injection Ht as <- <-.
Qed.

Lemma thread_ends t : Acc (flip moves) t.
Proof.
  assert (Hp : forall p : prog S R, Acc (flip moves) (Outside p)).
  { intros p. induction p as [r|l Y c k IH|Y f k IH]; constructor;
      intros t' (ts & s & s' & Ht); cbn in Ht.
    - done.
    - destruct (free ts l); [|done]. injection Ht as <- <-. by apply inside_ends.
    - destruct (f (atoms s)). by injection Ht as <- <-. }
  destruct t; [done|]. by apply inside_ends.
Qed.

Lemma some_moves_cons t ts us :
  some_moves (t :: ts) us ->
  (exists t', us = t' :: ts /\ moves t t') \/ (exists ts', us = t :: ts' /\ some_moves ts ts').
Proof.
  intros ([|t1 l1] & u & l2 & u' & [= -> ->] & -> & Hm); [by left; exists u'|right].
  exists (l1 ++ u' :: l2). split; [done|]. by exists l1, u, l2, u'.
Qed.

Lemma threads_end ts : Acc (flip some_moves) ts.
Proof.
  induction ts as [|t ts IH]; [constructor; intros us ([|] & ? & ? & ? & [=] & _)|].
  revert ts IH. induction (thread_ends t) as [t _ IHt]. intros ts Hts. induction Hts as [ts Hts IHts].
  constructor. intros us [(t' & -> & Hm)|(ts' & -> & Hm)]%some_moves_cons.
  - apply IHt; [done|by constructor].
  - by apply IHts.
Qed.

(** No schedule runs for ever. *)
Lemma schedules_end (st : list (thread S R) * S) : Acc (flip step) st.
Proof.
  destruct st as [ts s]. revert s. induction (threads_end ts) as [ts _ IH]. intros s. constructor.
  intros [ts' s'] Hs. apply IH. inversion Hs as [? ? i t t' ? Ht Hm]; subst.
  exists (take i ts), t, (drop (Datatypes.S i) ts), t'. split_and!.
  - by rewrite take_drop_middle.
  - apply insert_take_drop. by eapply lookup_lt_Some.
  - by exists ts, s, s'.
Qed.

Definition returned t : bool := match t with Outside (Ret _) => true | _ => false end.

(** No schedule gets stuck before every thread has returned. *)
Lemma no_deadlock ts s : forallb returned ts = true \/ exists st', step (ts, s) st'.
Proof.
  destruct (forallb returned ts) eqn:Er; [by left|right].
  assert (Hstep : forall i t, ts !! i = Some t -> is_Some (thread_step ts t s) ->
    exists st', step (ts, s) st') by (intros i t Hi [[t' s'] ?]; eexists; by econstructor).
  destruct (decide (Exists (fun t => holds t <> None) ts)) as [He|Hn].
  - apply Exists_exists in He as (t & [i Hi]%list_elem_of_lookup & Ht). apply (Hstep i t Hi).
    destruct t as [p|l Y [y|w c] k]; [done|by eexists..].
  - assert (Hf : forall l, free ts l = true).
    { intros l. apply forallb_forall. intros t Ht%list_elem_of_In. rewrite bool_decide_false; [done|].
      intros E. apply Hn, Exists_exists. exists t. by rewrite E. }
    apply not_true_iff_false in Er. rewrite forallb_forall in Er.
    destruct (decide (Exists (fun t => returned t = false) ts)) as [He|Ha].
    + apply Exists_exists in He as (t & [i Hi]%list_elem_of_lookup & Ht). apply (Hstep i t Hi).
      destruct t as [[r|l Y c k|Y f k]|l Y [y|w c] k]; cbn; rewrite ?Hf; try done.
      destruct (f (atoms s)). by eexists.
    + exfalso. apply Er. intros t Ht%list_elem_of_In. destruct (returned t) eqn:E; [done|].
      exfalso. apply Ha, Exists_exists. by exists t.
Qed.
End ending.

(** ** What a call sees when others run beside it *)
Section replay.
Context {S : Type} `{Guarded S} {R : Type}.
Implicit Types (p : prog S R) (ps : list (prog S R)) (s : S).

(** The call after its first blocks ran at these states. *)
Fixpoint replay p (at_ : list S) : prog S R :=
  match at_ with
  | [] => p
  | s :: at_ =>
      match prog_step p s with
      | None => p
      | Some (p', _) => replay p' at_
      end
  end.

(** Moments in this order, from [lo] to [hi]. *)
Fixpoint moments (lo : nat) (ns : list nat) (hi : nat) : Prop :=
  match ns with
  | [] => (lo <= hi)%nat
  | n :: ns => (lo <= n)%nat /\ moments n ns hi
  end.

Lemma moments_le lo ns hi : moments lo ns hi -> (lo <= hi)%nat.
Proof. revert lo. induction ns as [|n ns IH]; intros lo; cbn; [done|]. intros [? ?%IH]. lia. Qed.

Lemma moments_weaken lo lo' ns hi : (lo <= lo')%nat -> moments lo' ns hi -> moments lo ns hi.
Proof. destruct ns; cbn; [lia|]. intros ? []. split; [lia|done]. Qed.

Lemma moments_later lo ns hi :
  moments lo ns hi -> moments (Datatypes.S lo) (Datatypes.S <$> ns) (Datatypes.S hi).
Proof. revert lo. induction ns as [|n ns IH]; intros lo; cbn; [lia|]. intros [? ?]. split; [lia|by apply IH]. Qed.

Lemma replay_ret r at_ : replay (Ret r) at_ = Ret r.
Proof. by destruct at_. Qed.

End replay.

Section binding.
Context {S : Type} `{Guarded S}.
Implicit Types (s : S).

(** A call inside a call. *)
Fixpoint prog_bind {X Y} (p : prog S X) (k : X -> prog S Y) : prog S Y :=
  match p with
  | Ret x => k x
  | Block l c k' => Block l c (fun y => prog_bind (k' y) k)
  | Atomic f k' => Atomic f (fun y => prog_bind (k' y) k)
  end.

Lemma solo_bind {X Y} (p : prog S X) (k : X -> prog S Y) s :
  solo (prog_bind p k) s = solo (k (solo p s).2) (solo p s).1.
Proof.
  revert s. induction p as [x|l Z c k' IH|Z f k' IH]; intros s; cbn; [done| |].
  - destruct (run_code c (get l s)). apply IH.
  - destruct (f (atoms s)). apply IH.
Qed.

(** A call that has one effect at most. *)
Definition one_effect {X} (p : prog S X) : Prop :=
  match p with
  | Ret _ => True
  | Block l c k => forall y, exists x, k y = Ret x
  | Atomic f k => forall y, exists x, k y = Ret x
  end.

Lemma one_effect_bind {X Y} (p : prog S X) (k : X -> prog S Y) :
  one_effect p -> (forall x, exists y, k x = Ret y) -> one_effect (prog_bind p k).
Proof.
  destruct p as [x|l Z c k'|Z f k']; cbn; intros Hp Hk; [by destruct (Hk x) as [y ->]| |];
    intros y; destruct (Hp y) as [x ->]; apply Hk.
Qed.

Lemma replay_bind_ret {X Y} (p : prog S X) (g : X -> Y) at_ v :
  replay (prog_bind p (fun x => Ret (g x))) at_ = Ret v -> exists x, replay p at_ = Ret x /\ v = g x.
Proof.
  revert p. induction at_ as [|s at_ IH]; intros p; destruct p as [x|l Z c k|Z f k]; cbn; try done.
  - intros [= <-]. by exists x.
  - intros [= <-]. by exists x.
  - destruct (run_code c (get l s)). apply IH.
  - destruct (f (atoms s)). apply IH.
Qed.

(** A query inside a call sees one state of those the call runs at. *)
Lemma replay_query (at_ : nat -> S) {X Y} (p : prog S X) (f : S -> X) (k : X -> prog S Y) lo ns hi v :
  one_effect p -> (forall s, solo p s = (s, f s)) ->
  replay (prog_bind p k) (at_ <$> ns) = Ret v -> moments lo ns hi ->
  exists n ns', (lo <= n)%nat /\ moments n ns' hi /\ replay (k (f (at_ n))) (at_ <$> ns') = Ret v.
Proof.
  intros Hp Hf Hr Hw. destruct p as [x|l Z c k'|Z g k'].
  - exists lo, ns. specialize (Hf (at_ lo)). by injection Hf as <-.
  - destruct ns as [|n ns]; [done|]. exists n, ns. destruct Hw as [Hs Hw].
    split_and!; [done|done|]. specialize (Hf (at_ n)). cbn in *.
    destruct (run_code c (get l (at_ n))) as [u y]. destruct (Hp y) as [x Hx]. rewrite Hx in Hf, Hr.
    cbn in Hf. by injection Hf as _ <-.
  - destruct ns as [|n ns]; [done|]. exists n, ns. destruct Hw as [Hs Hw].
    split_and!; [done|done|]. specialize (Hf (at_ n)). cbn in *.
    destruct (g (atoms (at_ n))) as [u y]. destruct (Hp y) as [x Hx]. rewrite Hx in Hf, Hr.
    cbn in Hf. by injection Hf as _ <-.
Qed.
End binding.
Notation "'call*' x := p 'in' k" := (prog_bind p (fun x => k))
  (at level 10, x pattern, k at level 200) : code_scope.

(** ** A thread of a schedule

    What a thread has become is its program replayed at states of this very schedule: those
    of the moments at which it took a mutex or accessed an atomic variable. *)
Section moments.
Context {S : Type} `{GuardedLaws S} {R : Type}.
Implicit Types (t : thread S R) (ts : list (thread S R)) (s : S).

(** A thread inside a block is not disturbed by the steps of the others. *)
Lemma others_keep ts s i j t tj tj' s' :
  mutex ts -> ts !! i = Some t -> ts !! j = Some tj -> i <> j ->
  thread_step ts tj s = Some (tj', s') -> finished s' t = finished s t.
Proof.
  intros Hm Hi Hj Hne Hs. destruct t as [p|l Y c k]; [done|]. cbn.
  assert (Hother : holds tj <> Some l).
  { rewrite <- (take_drop_middle ts i _ Hi) in Hm. apply mutex_split in Hm as [_ Hl].
    specialize (Hl l eq_refl). unfold free in Hl. rewrite forallb_forall in Hl.
    specialize (Hl tj). rewrite negb_true_iff, bool_decide_eq_false in Hl. apply Hl.
    apply list_elem_of_In, list_elem_of_lookup.
    apply lookup_lt_Some in Hi as Hlen. destruct (decide (j < i)%nat).
    - exists j. rewrite lookup_app_l by (rewrite length_take; lia). by rewrite lookup_take_lt.
    - exists (j - 1)%nat. rewrite lookup_app_r by (rewrite length_take; lia).
      rewrite length_take, lookup_drop. rewrite <- Hj. f_equal. lia. }
  assert (Hg : get l s' = get l s); [|by rewrite Hg].
  destruct tj as [[r|l' Y' c' k'|Y' f k']|l' Y' [y|w c'] k']; cbn in Hs.
  - done.
  - destruct (free ts l'); [|done]. by injection Hs as _ <-.
  - destruct (f (atoms s)). injection Hs as _ <-. apply get_put_atoms.
  - by injection Hs as _ <-.
  - injection Hs as _ <-. apply get_put_ne. cbn in Hother. congruence.
Qed.

(** A step of the thread itself replays one state, or none. *)
Lemma own_step ts s t t' s' :
  thread_step ts t s = Some (t', s') ->
  finished s' t' = finished s t \/ exists s1, prog_step (finished s t) s = Some (finished s' t', s1).
Proof.
  destruct t as [[r|l Y c k|Y f k]|l Y [y|w c] k]; cbn [thread_step].
  - done.
  - destruct (free ts l); [|done]. intros [= <- <-]. right. cbn.
    destruct (run_code c (get l s)) as [v y]. by eexists.
  - destruct (f (atoms s)) as [a y] eqn:Ef. intros [= <- <-]. right. cbn. rewrite Ef. by eexists.
  - intros [= <- <-]. by left.
  - intros [= <- <-]. left. cbn. by rewrite get_put.
Qed.

Lemma replay_at_moments order ts s i t t' :
  mutex ts -> ts !! i = Some t -> (schedule order (ts, s)).1 !! i = Some t' ->
  exists ns, moments 0 ns (length order) /\
    finished (schedule order (ts, s)).2 t' =
    replay (finished s t) ((fun n => (schedule (take n order) (ts, s)).2) <$> ns).
Proof.
  revert ts s t. induction order as [|j order IH]; intros ts s t Hm Hi Hend.
  { cbn in *. rewrite Hi in Hend. injection Hend as <-. exists []. cbn. split; [lia|done]. }
  assert (Hstay : forall st1 t1, mutex st1.1 -> st1.1 !! i = Some t1 ->
    (forall n, schedule (take (Datatypes.S n) (j :: order)) (ts, s) = schedule (take n order) st1) ->
    schedule (j :: order) (ts, s) = schedule order st1 ->
    exists ns, moments 0 ns (length order) /\
      finished (schedule (j :: order) (ts, s)).2 t' =
      replay (finished st1.2 t1)
        ((fun n => (schedule (take n (j :: order)) (ts, s)).2) <$> (Datatypes.S <$> ns))).
  { intros [ts1 s1] t1 Hm1 Hi1 Ht Hrun. cbn [fst snd] in *. rewrite Hrun in *.
    destruct (IH ts1 s1 t1 Hm1 Hi1 Hend) as (ns & Hns & Hf). exists ns. split; [done|].
    rewrite Hf, <- list_fmap_compose. f_equal. apply list_fmap_ext. intros _ n _. cbn.
    by rewrite <- Ht. }
  assert (Hdone : forall p ns, moments 0 ns (length order) ->
    finished (schedule (j :: order) (ts, s)).2 t' =
      replay p ((fun n => (schedule (take n (j :: order)) (ts, s)).2) <$> (Datatypes.S <$> ns)) ->
    p = finished s t \/ (exists s1, prog_step (finished s t) s = Some (p, s1)) ->
    exists ns, moments 0 ns (length (j :: order)) /\
      finished (schedule (j :: order) (ts, s)).2 t' =
      replay (finished s t) ((fun n => (schedule (take n (j :: order)) (ts, s)).2) <$> ns)).
  { intros p ns Hns%moments_later Hf [-> |(s1 & Hp)].
    - exists (Datatypes.S <$> ns). split; [by apply (moments_weaken 0 1); [lia|]|done].
    - exists (0%nat :: (Datatypes.S <$> ns)). split; [cbn; split; [lia|by apply (moments_weaken 0 1); [lia|]]|].
      cbn [fmap list_fmap take schedule replay snd] in *. by rewrite Hp. }
  destruct (ts !! j) as [tj|] eqn:Hj.
  2: { destruct (Hstay (ts, s) t Hm Hi) as (ns & Hns & Hf).
       { intros n. cbn. by rewrite Hj. }
       { cbn. by rewrite Hj. }
       apply (Hdone _ _ Hns Hf). by left. }
  destruct (thread_step ts tj s) as [[tj' s1]|] eqn:Hs.
  2: { destruct (Hstay (ts, s) t Hm Hi) as (ns & Hns & Hf).
       { intros n. cbn. by rewrite Hj, Hs. }
       { cbn. by rewrite Hj, Hs. }
       apply (Hdone _ _ Hns Hf). by left. }
  assert (Hm1 : mutex (<[j := tj']> ts)) by (eapply step_mutex; [|exact Hm]; by econstructor).
  assert (Hrun1 : forall n, schedule (take (Datatypes.S n) (j :: order)) (ts, s)
    = schedule (take n order) (<[j := tj']> ts, s1)) by (intros n; cbn; by rewrite Hj, Hs).
  assert (Hrun : schedule (j :: order) (ts, s) = schedule order (<[j := tj']> ts, s1))
    by (cbn; by rewrite Hj, Hs).
  destruct (decide (i = j)) as [<-|Hne].
  - rewrite Hi in Hj. injection Hj as <-.
    destruct (Hstay (<[i := tj']> ts, s1) tj') as (ns & Hns & Hf); [done| |done|done|].
    { apply list_lookup_insert_eq. by eapply lookup_lt_Some. }
    apply (Hdone _ _ Hns Hf). by apply (own_step ts).
  - destruct (Hstay (<[j := tj']> ts, s1) t) as (ns & Hns & Hf); [done| |done|done|].
    { cbn. by rewrite list_lookup_insert_ne by congruence. }
    apply (Hdone _ _ Hns Hf). left. by apply (others_keep ts s i j t tj tj').
Qed.
End moments.

(** ** A part that nobody changes any more *)
Section keeping.
Context {S : Type} `{GuardedLaws S} (l : Lock) (v : part l).

(** While the part is [v], the block leaves it. *)
Fixpoint code_keeps {l' X} (c : code (part l') X) : Prop :=
  match c with
  | Done _ => True
  | Access w k => forall s, get l s = v ->
      get l (put l' (w (get l' s)) s) = v /\ code_keeps (k (get l' s))
  end.
Fixpoint prog_keeps {X} (p : prog S X) : Prop :=
  match p with
  | Ret _ => True
  | Block l' c k => code_keeps c /\ forall y, prog_keeps (k y)
  | Atomic f k => forall y, prog_keeps (k y)
  end.
Definition thread_keeps {X} (t : thread S X) : Prop :=
  match t with
  | Outside p => prog_keeps p
  | Inside l' c k => code_keeps c /\ forall y, prog_keeps (k y)
  end.

Lemma code_keeps_ne l' {X} (c : code (part l') X) : l' <> l -> code_keeps c.
Proof.
  intros Hne. induction c as [x|w c IH]; [done|]. intros s Hs. split; [|apply IH].
  by rewrite get_put_ne.
Qed.

Lemma prog_keeps_bind {X Y} (p : prog S X) (k : X -> prog S Y) :
  prog_keeps p -> (forall x, prog_keeps (k x)) -> prog_keeps (prog_bind p k).
Proof. intros Hp Hk. induction p; cbn in *; naive_solver. Qed.

Lemma thread_step_keeps {X} ts (t t' : thread S X) s s' :
  thread_keeps t -> get l s = v -> thread_step ts t s = Some (t', s') ->
  thread_keeps t' /\ get l s' = v.
Proof.
  destruct t as [[r|l' Y c k|Y f k]|l' Y [y|w c] k]; cbn; intros Ht Hs.
  - done.
  - destruct (free ts l'); [|done]. by intros [= <- <-].
  - destruct (f (atoms s)). intros [= <- <-]. split; [apply Ht|by rewrite get_put_atoms].
  - intros [= <- <-]. split; [apply Ht|done].
  - intros [= <- <-]. destruct Ht as [Hc Hk]. by destruct (Hc s Hs).
Qed.

Lemma schedule_keeps {X} order (ts : list (thread S X)) s :
  Forall thread_keeps ts -> get l s = v -> get l (schedule order (ts, s)).2 = v.
Proof.
  revert ts s. induction order as [|j order IH]; intros ts s Ht Hs; [done|]. cbn [schedule fst snd].
  destruct (ts !! j) as [tj|] eqn:Hj; [|by apply IH].
  destruct (thread_step ts tj s) as [[tj' s1]|] eqn:Hstep; [|by apply IH].
  eapply thread_step_keeps in Hstep as [? ?]; [|by eapply Forall_lookup_1|done].
  apply IH; [by apply Forall_insert|done].
Qed.
End keeping.

(** ** Threads that make calls *)
Section calls.
Context {S : Type} `{GuardedLaws S} {Op A : Type} (impl : Op -> prog S A) (run : Op -> S -> S * A).
Context (implements : forall op s, solo (impl op) s = run op s).
Implicit Types (s : S) (ops : list Op).

(** One thread: its calls one after the other; the answers so far are [rs]. *)
Fixpoint in_turn ops (rs : list A) : prog S (list A) :=
  match ops with
  | [] => Ret rs
  | op :: ops => prog_bind (impl op) (fun r => in_turn ops (rs ++ [r]))
  end.

(** Calls alone, one after the other. *)
Fixpoint alone ops s : S * list A :=
  match ops with
  | [] => (s, [])
  | op :: ops =>
      let '(s1, r) := run op s in let '(s2, rs) := alone ops s1 in (s2, r :: rs)
  end.

(** The calls of several threads, in some order: who called, and the answer. *)
Fixpoint in_order (h : list (nat * Op)) s : S * list (nat * A) :=
  match h with
  | [] => (s, [])
  | (i, op) :: h =>
      let '(s1, r) := run op s in let '(s2, rs) := in_order h s1 in (s2, (i, r) :: rs)
  end.
Definition of_thread {X} (i : nat) (h : list (nat * X)) : list X :=
  map snd (List.filter (fun e => Nat.eqb e.1 i) h).

#[local] Arguments of_thread : simpl never.

(** Threads about to make their calls, and threads that have returned from them. *)
Definition start (callss : list (list Op)) s : list (thread S (list A)) * S :=
  ((fun ops => Outside (in_turn ops [])) <$> callss, s).
Definition returned_with (rss : list (list A)) s : list (thread S (list A)) * S :=
  ((fun rs => Outside (Ret rs)) <$> rss, s).

Lemma returned_with_inj rss s rss' s' :
  returned_with rss s = returned_with rss' s' -> rss = rss' /\ s = s'.
Proof.
  unfold returned_with. intros [= E ->]. split; [|done]. revert rss' E.
  induction rss as [|rs rss IH]; intros [|rs' rss']; cbn; try done. intros [= -> E]. f_equal. by apply IH.
Qed.

Lemma returned_stuck rss s st' : ~ step (returned_with rss s) st'.
Proof.
  unfold returned_with. inversion 1 as [? ? i t t' s' Ht Hs]; subst. rewrite list_lookup_fmap in Ht.
  destruct (rss !! i); [|done]. by injection Ht as <-.
Qed.

(** A state where nothing can move is one where every call has returned. *)
Lemma stuck_returned (st : list (thread S (list A)) * S) :
  (forall st', ~ step st st') -> exists rss, st = returned_with rss st.2.
Proof.
  destruct st as [ts s]. intros Hn. destruct (no_deadlock ts s) as [Hr|[st' Hs]]; [|by destruct (Hn st')].
  cut (exists rss, ts = (fun rs => Outside (Ret rs)) <$> rss); [intros [rss ->]; by exists rss|].
  clear Hn. induction ts as [|t ts IH]; [by exists []|]. cbn in Hr. apply andb_true_iff in Hr as [Ht Hr].
  destruct (IH Hr) as [rss ->]. destruct t as [[rs| |]|]; try done. by exists (rs :: rss).
Qed.

Lemma keeps_in_turn l (v : part l) ops rs :
  (forall op, prog_keeps l v (impl op)) -> prog_keeps l v (in_turn ops rs).
Proof.
  intros Hk. revert rs. induction ops as [|op ops IH]; intros rs; [done|].
  apply prog_keeps_bind; [apply Hk|]. intros x. apply IH.
Qed.

Lemma of_thread_app {X} i (h1 h2 : list (nat * X)) :
  of_thread i (h1 ++ h2) = of_thread i h1 ++ of_thread i h2.
Proof. unfold of_thread. by rewrite List.filter_app, map_app. Qed.

Lemma of_thread_same {X} i (xs : list X) : of_thread i (pair i <$> xs) = xs.
Proof.
  unfold of_thread. induction xs as [|x xs IH]; [done|]. cbn. rewrite Nat.eqb_refl. cbn. by f_equal.
Qed.
Lemma of_thread_other {X} i j (xs : list X) : i <> j -> of_thread i (pair j <$> xs) = [].
Proof.
  intros Hn. unfold of_thread. induction xs as [|x xs IH]; [done|]. cbn.
  by rewrite (proj2 (Nat.eqb_neq j i)) by done.
Qed.
Lemma of_thread_none {X} i n (h : list (nat * X)) :
  Forall (fun e => (e.1 < n)%nat) h -> (n <= i)%nat -> of_thread i h = [].
Proof.
  intros Hf Hi. unfold of_thread. induction Hf as [|[j x] h Hj Hf IH]; [done|]. cbn in *.
  by rewrite (proj2 (Nat.eqb_neq j i)) by lia.
Qed.

Lemma in_order_app h1 h2 s :
  in_order (h1 ++ h2) s =
  ((in_order h2 (in_order h1 s).1).1, (in_order h1 s).2 ++ (in_order h2 (in_order h1 s).1).2).
Proof.
  revert s. induction h1 as [|[i op] h1 IH]; intros s; cbn; [by destruct (in_order h2 s)|].
  destruct (run op s) as [s1 r]. rewrite IH. by destruct (in_order h1 s1).
Qed.

Lemma in_order_alone i ops s :
  in_order (pair i <$> ops) s = ((alone ops s).1, pair i <$> (alone ops s).2).
Proof.
  revert s. induction ops as [|op ops IH]; intros s; cbn; [done|].
  destruct (run op s) as [s1 r]. rewrite IH. by destruct (alone ops s1).
Qed.

Lemma in_order_ids n h s :
  Forall (fun e => (e.1 < n)%nat) h -> Forall (fun e => (e.1 < n)%nat) (in_order h s).2.
Proof.
  intros Hf. revert s. induction Hf as [|[i op] h Hi Hf IH]; intros s; cbn; [constructor|].
  destruct (run op s) as [s1 r]. specialize (IH s1). destruct (in_order h s1).
  by constructor.
Qed.

(** A thread that has returned made only calls without effects from here on. *)
Lemma in_turn_returned ops rs rs' :
  in_turn ops rs = Ret rs' -> exists ans, rs' = rs ++ ans /\ forall s, alone ops s = (s, ans).
Proof.
  revert rs. induction ops as [|op ops IH]; intros rs; cbn.
  - intros [= <-]. exists []. by rewrite app_nil_r.
  - destruct (impl op) as [r| |] eqn:Ei; [|done..]. cbn. intros (ans & -> & Ha)%IH.
    exists (r :: ans). split; [by rewrite <- app_assoc|]. intros s. cbn.
    rewrite <- implements, Ei. cbn. by rewrite Ha.
Qed.

(** The next effect of a thread completes its next calls. *)
Lemma in_turn_step ops rs s p' s' :
  (forall op, one_effect (impl op)) -> prog_step (in_turn ops rs) s = Some (p', s') ->
  exists pre post ans,
    ops = pre ++ post /\ alone pre s = (s', ans) /\ p' = in_turn post (rs ++ ans).
Proof.
  intros H1. revert rs. induction ops as [|op ops IH]; intros rs; cbn; [done|].
  pose proof (H1 op) as Hop. destruct (impl op) as [r|l Y c k|Y f k] eqn:Ei; cbn in *.
  - intros (pre & post & ans & -> & Ha & ->)%IH. exists (op :: pre), post, (r :: ans). cbn.
    rewrite <- implements, Ei. cbn. rewrite Ha. by rewrite <- app_assoc.
  - destruct (run_code c (get l s)) as [v y] eqn:Er. intros [= <- <-]. destruct (Hop y) as [x Hx].
    exists [op], ops, [x]. cbn. rewrite <- implements, Ei. cbn. by rewrite Er, Hx.
  - destruct (f (atoms s)) as [a y] eqn:Er. intros [= <- <-]. destruct (Hop y) as [x Hx].
    exists [op], ops, [x]. cbn. rewrite <- implements, Ei. cbn. by rewrite Er, Hx.
Qed.

(** What a history owes to threads that have [todo] left and end with [rss]. *)
Definition explains (h : list (nat * Op)) s (todo : list (list Op * list A)) (rss : list (list A)) s' :
    Prop :=
  (in_order h s).1 = s' /\ length todo = length rss /\
  Forall (fun e => (e.1 < length todo)%nat) h /\
  forall i t rs, todo !! i = Some t -> rss !! i = Some rs ->
    of_thread i h = t.1 /\ rs = t.2 ++ of_thread i (in_order h s).2.

Lemma explains_returned todo rss s :
  (fun t => in_turn t.1 t.2) <$> todo = Ret <$> rss -> exists h, explains h s todo rss s.
Proof.
  revert rss. induction todo as [|[ops rs] todo IH] using rev_ind; intros rss E.
  - exists []. destruct rss; [|done]. split_and!; [done..|]. by intros i t rs Hi.
  - destruct rss as [|rs' rss _] using rev_ind; [by destruct todo|].
    rewrite !fmap_app in E. apply app_inj_2 in E as [E [= Er]]; [|done].
    apply in_turn_returned in Er as (ans & -> & Ha). destruct (IH _ E) as (h & Hs & _ & Hf & Hi).
    assert (Hlen : length todo = length rss) by (by apply (f_equal length) in E; rewrite !length_fmap in E).
    exists (h ++ (pair (length todo) <$> ops)). split_and!.
    + rewrite in_order_app, in_order_alone, Hs. cbn. by rewrite Ha.
    + rewrite !length_app. cbn. lia.
    + rewrite length_app. apply Forall_app. split; [eapply Forall_impl; [done|]; cbn; lia|].
      apply Forall_fmap, Forall_true. cbn. lia.
    + intros i t rs0 Ht Hr. rewrite in_order_app, in_order_alone, Hs. cbn. rewrite Ha. cbn.
      rewrite !of_thread_app. destruct (decide (i = length todo)) as [->|Hn].
      * rewrite list_lookup_middle in Ht by done. injection Ht as <-.
        rewrite Hlen, list_lookup_middle in Hr by done. injection Hr as <-.
        rewrite !of_thread_same, (of_thread_none _ _ h Hf) by done.
        by rewrite (of_thread_none _ (length todo)) by (done || by apply in_order_ids).
      * assert (i < length todo)%nat.
        { apply lookup_lt_Some in Ht. rewrite length_app in Ht. cbn in Ht. lia. }
        rewrite lookup_app_l in Ht by done. rewrite lookup_app_l in Hr by lia.
        destruct (Hi _ _ _ Ht Hr) as [-> ->]. by rewrite !of_thread_other, !app_nil_r.
Qed.

Lemma explains_step j ops rs pre post ans s s1 todo h rss s' :
  todo !! j = Some (ops, rs) -> ops = pre ++ post -> alone pre s = (s1, ans) ->
  explains h s1 (<[j := (post, rs ++ ans)]> todo) rss s' ->
  explains ((pair j <$> pre) ++ h) s todo rss s'.
Proof.
  intros Hj -> Ha (Hs & Hlen & Hf & Hi). rewrite length_insert in Hf, Hlen. pose proof (lookup_lt_Some _ _ _ Hj).
  split_and!.
  - by rewrite in_order_app, in_order_alone, Ha.
  - done.
  - apply Forall_app. split; [|done]. apply Forall_fmap, Forall_true. done.
  - intros i t rs0 Ht Hr. rewrite in_order_app, in_order_alone, Ha. cbn. rewrite !of_thread_app.
    destruct (decide (i = j)) as [->|Hn].
    + rewrite Hj in Ht. injection Ht as <-. rewrite !of_thread_same.
      destruct (Hi j (post, rs ++ ans) rs0) as [-> ->]; [by apply list_lookup_insert_eq|done|].
      cbn. by rewrite <- app_assoc.
    + rewrite !of_thread_other by done. apply Hi; [|done]. by rewrite list_lookup_insert_ne by done.
Qed.

Lemma explained todo s rss s' :
  (forall op, one_effect (impl op)) ->
  rtc block_step ((fun t => in_turn t.1 t.2) <$> todo, s) (Ret <$> rss, s') ->
  exists h, explains h s todo rss s'.
Proof.
  intros H1 Hr. remember (_, s) as st eqn:E. remember (_, s') as st' eqn:E'.
  revert todo s E E'. induction Hr as [st|st st1 st' Hs Hr IH]; intros todo s -> E'.
  - injection E' as E <-. by apply explains_returned.
  - inversion Hs as [? ? j p p' s1 Hj Hp]; subst. rewrite list_lookup_fmap in Hj.
    destruct (todo !! j) as [[ops rs]|] eqn:Ht; [|done]. injection Hj as <-.
    apply in_turn_step in Hp as (pre & post & ans & Hops & Ha & ->); [|done].
    destruct (IH (<[j := (post, rs ++ ans)]> todo) s1) as [h Hh]; [by rewrite list_fmap_insert|done|].
    eexists. by eapply explains_step.
Qed.

(** Threads of calls with one effect each: whatever the interleaving of their accesses, the
    answers and the state are those of the calls made one at a time, in some order that keeps
    each thread's own. *)
Lemma calls_are_atomic opss s rss s' :
  (forall op, one_effect (impl op)) ->
  rtc step (start opss s) (returned_with rss s') ->
  exists h, (in_order h s).1 = s' /\
    forall i, of_thread i h = default [] (opss !! i) /\
              of_thread i (in_order h s).2 = default [] (rss !! i).
Proof.
  unfold start, returned_with. intros H1 Hr.
  assert (Hb : rtc block_step ((fun ops => in_turn ops []) <$> opss, s) (Ret <$> rss, s')).
  { replace (Ret <$> rss, s') with (blocks_done (((fun rs => Outside (Ret rs)) <$> rss), s')).
    - apply blocks_are_atomic. by rewrite <- list_fmap_compose.
    - unfold blocks_done. cbn. rewrite <- list_fmap_compose. f_equal. clear. by induction rss. }
  destruct (explained ((fun ops => (ops, [])) <$> opss) s rss s') as (h & Hs & Hlen & Hf & Hi);
    [done| |].
  - by rewrite <- list_fmap_compose.
  - rewrite length_fmap in Hf, Hlen. exists h. split; [done|]. intros i.
    destruct (opss !! i) as [ops|] eqn:Ho.
    + destruct (lookup_lt_is_Some_2 rss i) as [rs Hrs]; [rewrite <- Hlen; by eapply lookup_lt_Some|].
      rewrite Hrs. destruct (Hi i (ops, []) rs) as [-> ->]; [by rewrite list_lookup_fmap, Ho|done|done].
    + apply lookup_ge_None in Ho. rewrite (lookup_ge_None_2 rss) by lia. cbn.
      split; [by eapply of_thread_none|]. eapply of_thread_none; [by apply in_order_ids|done].
Qed.
End calls.
