(* ===== verification/RbacThreads.v ===== *)
(** * Access control under threads

    The locks of [src/scf/policy/auth/rbac/rbac.cpp]: every handler of Rbac.v written as the
    accesses it makes while it holds [nodeRoleMapMutex] or [policyRuleMutex], and the atomic
    load and store of [rbacEnabled], as programs of Threads.v. Module [Locked] holds them.
    Alone, each is its handler ([solo_call]); under threads the calls are atomic except
    [SCF_CheckResourcePermission], which reads the flag, the mapping and the rules at three
    moments of the schedule ([context_at]). *)
From Stdlib Require Import ZArith Lia Ascii String.
From stdpp Require Import base list fin_maps gmap strings relations.
From S2P Require Import Prelude Errno Types PolicyMatcher Rbac RbacInv RbacSpec Threads.
Open Scope Z_scope.
Open Scope code_scope.

(** ** What the locks guard

    [nodeRoleMapFrozen] is an atomic, but every access to it is under [nodeRoleMapMutex]. *)
Inductive RbacLock : Type := nodeRoleMapMutex | policyRuleMutex.
#[export] Instance RbacLock_eq_dec : EqDecision RbacLock.
Proof. solve_decision. Defined.

Record NodeRoles : Type := { nodeRoleMap : gmap string Z; nodeRoleMapFrozen : bool }.
Record PolicyRules : Type := { policyRuleMap : list (Z * SCF_PolicyRule); nextPolicyRuleId : Z }.

Definition guarded_part (l : RbacLock) : Type :=
  match l with nodeRoleMapMutex => NodeRoles | policyRuleMutex => PolicyRules end.
Definition guarded_get (l : RbacLock) (c : SCFPolicyCtx) : guarded_part l :=
  match l with
  | nodeRoleMapMutex =>
      {| nodeRoleMap := ctx_nodeRoleMap c; nodeRoleMapFrozen := ctx_nodeRoleMapFrozen c |}
  | policyRuleMutex =>
      {| policyRuleMap := ctx_policyRuleMap c; nextPolicyRuleId := ctx_nextPolicyRuleId c |}
  end.
Definition guarded_put (l : RbacLock) : guarded_part l -> SCFPolicyCtx -> SCFPolicyCtx :=
  match l with
  | nodeRoleMapMutex => fun v c =>
      set_ctx_nodeRoleMapFrozen (nodeRoleMapFrozen v) (set_ctx_nodeRoleMap (nodeRoleMap v) c)
  | policyRuleMutex => fun v c =>
      set_ctx_nextPolicyRuleId (nextPolicyRuleId v) (set_ctx_policyRuleMap (policyRuleMap v) c)
  end.

#[export] Instance policy_ctx_guarded : Guarded SCFPolicyCtx := {|
  Lock := RbacLock;
  part := guarded_part;
  get := guarded_get;
  put := guarded_put;
  Atoms := bool;
  atoms := ctx_rbacEnabled;
  put_atoms := set_ctx_rbacEnabled
|}.

#[export] Instance policy_ctx_guarded_laws : GuardedLaws SCFPolicyCtx.
Proof.
  split; intros; repeat match goal with l : Lock |- _ => destruct l end;
    repeat match goal with v : part _ |- _ => destruct v | s : SCFPolicyCtx |- _ => destruct s end;
    done.
Qed.

(** ** The handlers as programs *)
Module Locked.
Section locked.
Context {Cert : Type} `{CertReader Cert} `{SecureC} `{HashOrder}.
Abbreviation Prog := (prog SCFPolicyCtx).

Definition nodes_section {X} (body : code NodeRoles X) : Prog X :=
  Block (S := SCFPolicyCtx) nodeRoleMapMutex body Ret.
Definition rules_section {X} (body : code PolicyRules X) : Prog X :=
  Block (S := SCFPolicyCtx) policyRuleMutex body Ret.

Definition set_nodeRoleMap m (n : NodeRoles) : NodeRoles :=
  {| nodeRoleMap := m; nodeRoleMapFrozen := nodeRoleMapFrozen n |}.
Definition set_policyRuleMap m (r : PolicyRules) : PolicyRules :=
  {| policyRuleMap := m; nextPolicyRuleId := nextPolicyRuleId r |}.
Definition set_nextPolicyRuleId n (r : PolicyRules) : PolicyRules :=
  {| policyRuleMap := policyRuleMap r; nextPolicyRuleId := n |}.

Definition FreezeNodeRoleMapping : Prog Z :=
  nodes_section
    (let* _ := store (fun n => {| nodeRoleMap := nodeRoleMap n; nodeRoleMapFrozen := true |}) in
     Done SCF_SUCCESS).

(** The role found, if any. *)
Definition GetMappingRole (nodeId : option string) (role : Z) : Prog (Z * Z) :=
  return_if negb (IsValidNodeId nodeId) with Ret (SCF_ERRNO_RBAC_ROLE_UNKNOWN, role) ;;
  nodes_section
    (let* it := load (fun n => nodeRoleMap n !! default EmptyString nodeId) in
     match it with
     | None => Done (SCF_ERRNO_RBAC_ROLE_UNKNOWN, role)
     | Some r => Done (SCF_SUCCESS, r)
     end).

Definition SCF_SetNodeRoleMapping (e : Env) (nodeId : string) (role : Z) : Prog Z :=
  return_if negb (IsValidNodeId (Some nodeId)) || negb (IsValidRole role)
    with Ret SCF_ERRNO_INVALID_PARAM ;;
  return_if negb (g_scfInitialized e) with Ret SCF_ERRNO_NOT_INIT ;;
  nodes_section
    (let* frozen := load nodeRoleMapFrozen in
     return_if frozen with Done SCF_ERRNO_RBAC_MAP_FROZEN ;;
     let* it := load (fun n => nodeRoleMap n !! nodeId) in
     let* full := match it with
            | None => load (fun n => MAX_NODE_ROLE_MAP_SIZE <=? map_size (nodeRoleMap n))
            | Some _ => Done false
            end in
     return_if (full : bool) with Done SCF_ERRNO_RBAC_MAP_FULL ;;
     return_if negb (alloc e 0) with Done SCF_ERRNO_MEM_ALLOC ;;
     let* _ := store (fun n => set_nodeRoleMap (<[nodeId := role]> (nodeRoleMap n)) n) in
     Done SCF_SUCCESS).

Definition SCF_RemoveNodeRoleMapping (e : Env) (nodeId : string) : Prog Z :=
  return_if negb (IsValidNodeId (Some nodeId)) with Ret SCF_ERRNO_INVALID_PARAM ;;
  return_if negb (g_scfInitialized e) with Ret SCF_ERRNO_NOT_INIT ;;
  nodes_section
    (let* frozen := load nodeRoleMapFrozen in
     return_if frozen with Done SCF_ERRNO_RBAC_MAP_FROZEN ;;
     let* it := load (fun n => nodeRoleMap n !! nodeId) in
     match it with
     | None => Done SCF_ERRNO_RBAC_MAP_NOT_FOUND
     | Some _ =>
         let* _ := store (fun n => set_nodeRoleMap (delete nodeId (nodeRoleMap n)) n) in
         Done SCF_SUCCESS
     end).

Definition SCF_IsMasterNode (e : Env) (nodeId : string) (isMaster : bool) : Prog (Z * bool) :=
  return_if negb (IsValidNodeId (Some nodeId)) with Ret (SCF_ERRNO_INVALID_PARAM, isMaster) ;;
  return_if negb (g_scfInitialized e) with Ret (SCF_ERRNO_NOT_INIT, isMaster) ;;
  nodes_section
    (let* it := load (fun n => nodeRoleMap n !! nodeId) in
     match it with
     | None => Done (SCF_ERRNO_RBAC_MAP_NOT_FOUND, false)
     | Some r => Done (SCF_SUCCESS, r =? SCF_RBAC_ROLE_MASTER)
     end).

(** The walk of the table writes the caller's rows and reads the table once. *)
Definition SCF_ListMasterNodes (e : Env) (rows : list (list ascii)) (listCap : Z) (n0 : Z)
    : Prog (Z * list (list ascii) * Z) :=
  return_if listCap =? 0 with Ret (SCF_ERRNO_INVALID_PARAM, rows, n0) ;;
  return_if negb (g_scfInitialized e) with Ret (SCF_ERRNO_NOT_INIT, rows, n0) ;;
  nodes_section
    (let* m := load nodeRoleMap in
     Done (list_masters_loop (hash_order m) listCap rows 0)).

(** [SCF_EnableRbac]: a store to an atomic, without a lock. *)
Definition SCF_EnableRbac (e : Env) (enable : bool) : Prog Z :=
  return_if negb (g_scfInitialized e) with Ret SCF_ERRNO_NOT_INIT ;;
  Atomic (S := SCFPolicyCtx) (fun _ => (enable, tt)) (fun _ => Ret SCF_SUCCESS).

(** [None]: [std::bad_alloc]. *)
Definition InsertPolicyRule (e : Env) (rule : SCF_PolicyRule)
    : code PolicyRules (option (Z * SCF_PolicyRule)) :=
  let* items := load policyRuleMap in
  return_if existsb (fun item => IsSamePolicyRuleKey item.2 rule) items
    with Done (Some (SCF_ERRNO_RBAC_POLICY_DUPLICATE, rule)) ;;
  let* size := load (fun r => OMap.size (policyRuleMap r)) in
  let* next := load nextPolicyRuleId in
  return_if (MAX_POLICY_RULE_SIZE <=? size) || (next =? 0)
    with Done (Some (SCF_ERRNO_RBAC_POLICY_FULL, rule)) ;;
  let* next := load nextPolicyRuleId in
  let rule := set_rule_ruleId next rule in
  return_if negb (alloc e 1) with Done None ;;
  let* found := load (fun r => OMap.find (rule_ruleId rule) (policyRuleMap r)) in
  match found with
  | Some _ => Done (Some (SCF_ERRNO_RBAC_POLICY_FULL, rule))
  | None =>
      let* _ := store (fun r =>
        set_policyRuleMap (OMap.emplace (rule_ruleId rule) rule (policyRuleMap r)).1 r) in
      let* _ := store (fun r => set_nextPolicyRuleId
        (if nextPolicyRuleId r =? UINT32_MAX then 0 else wrap32 (nextPolicyRuleId r + 1)) r) in
      Done (Some (SCF_SUCCESS, rule))
  end.

Definition SCF_AddPolicyRule (e : Env) (subject target : string)
    (resourceTypeBitmap actionBitmap effect ruleId : Z) : Prog (Z * Z) :=
  return_if negb (IsValidNodeId (Some subject))
            || negb (IsValidNodeId (Some target) || streq target "*")
            || negb (IsValidBitmap resourceTypeBitmap SCF_RES_TYPE_ALL)
            || negb (IsValidBitmap actionBitmap
                       (Z.lor SCF_RES_ACTION_APPLY SCF_RES_ACTION_RELEASE))
            || negb (IsValidPolicyEffect effect)
    with Ret (SCF_ERRNO_RBAC_POLICY_INVALID, ruleId) ;;
  return_if negb (g_scfInitialized e) with Ret (SCF_ERRNO_NOT_INIT, ruleId) ;;
  return_if negb (alloc e 0) with Ret (SCF_ERRNO_MEM_ALLOC, ruleId) ;;
  let rule := mkPolicyRule 0 subject target resourceTypeBitmap actionBitmap effect in
  rules_section
    (let* inserted := InsertPolicyRule e rule in
     match inserted with
     | None => Done (SCF_ERRNO_MEM_ALLOC, ruleId)
     | Some (ret, rule) =>
         return_if negb (ret =? SCF_SUCCESS) with Done (ret, ruleId) ;;
         Done (SCF_SUCCESS, rule_ruleId rule)
     end).

Definition SCF_RemovePolicyRule (e : Env) (ruleId : Z) : Prog Z :=
  return_if ruleId =? 0 with Ret SCF_ERRNO_INVALID_PARAM ;;
  return_if negb (g_scfInitialized e) with Ret SCF_ERRNO_NOT_INIT ;;
  rules_section
    (let* found := load (fun r => OMap.find ruleId (policyRuleMap r)) in
     match found with
     | None => Done SCF_ERRNO_RBAC_POLICY_NOT_FOUND
     | Some _ =>
         let* _ := store (fun r => set_policyRuleMap (OMap.erase ruleId (policyRuleMap r)) r) in
         Done SCF_SUCCESS
     end).

Definition SCF_ListPolicyRules (e : Env) (rules : list SCF_PolicyRule) (ruleCap n0 : Z)
    : Prog (Z * list SCF_PolicyRule * Z) :=
  return_if ruleCap =? 0 with Ret (SCF_ERRNO_INVALID_PARAM, rules, n0) ;;
  return_if negb (g_scfInitialized e) with Ret (SCF_ERRNO_NOT_INIT, rules, n0) ;;
  rules_section
    (let* items := load policyRuleMap in
     let '(ok, out, n) := list_rules_loop e items ruleCap rules 0 in
     Done (if ok : bool then SCF_SUCCESS else SCF_ERRNO_MEM_ALLOC, out, n)).

Definition role_from_mapping (mappingNodeId : option string) (role src : Z) : Prog (Z * Z * Z) :=
  call* (ret, role) := GetMappingRole mappingNodeId role in
  return_if negb (ret =? SCF_SUCCESS) with Ret (SCF_ERRNO_RBAC_ROLE_UNKNOWN, role, src) ;;
  Ret (SCF_SUCCESS, role, SCF_RBAC_ROLE_SRC_MAPPING).

(** The certificate is read outside the locks. *)
Definition SCF_GetNodeRbacRole (e : Env) (cert : option Cert) (nodeId : option string)
    (role src : Z) : Prog (Z * Z * Z) :=
  return_if bool_decide (cert = None) && bool_decide (nodeId = None)
    with Ret (SCF_ERRNO_NULL_INPUT, role, src) ;;
  return_if bool_decide (nodeId <> None) && negb (IsValidNodeId nodeId)
    with Ret (SCF_ERRNO_INVALID_PARAM, role, src) ;;
  return_if negb (g_scfInitialized e) with Ret (SCF_ERRNO_NOT_INIT, role, src) ;;
  let role := SCF_RBAC_ROLE_UNKNOWN in
  let src := SCF_RBAC_ROLE_SRC_NONE in
  match cert with
  | None => role_from_mapping nodeId role src
  | Some _ =>
      let certNodeId := replicate (Z.to_nat MAX_NODE_ID_LEN) NUL in
      let '(certRoleRet, certRole) :=
        SCF_GetCertRbacRole e cert (Some SCF_RBAC_ROLE_UNKNOWN) in
      return_if negb (certRoleRet =? SCF_SUCCESS)
                && negb (certRoleRet =? SCF_ERRNO_CERT_ROLE_EXT_ABSENT)
        with Ret (certRoleRet, role, src) ;;
      let '(certNodeIdRet, certNodeId, _) :=
        SCF_GetCertNodeId e cert (Some certNodeId) MAX_NODE_ID_LEN (Some 0) in
      return_if negb (certNodeIdRet =? SCF_SUCCESS)
                && negb (certNodeIdRet =? SCF_ERRNO_CERT_NODE_ID_ABSENT)
        with Ret (certNodeIdRet, role, src) ;;
      let mappingNodeId :=
        if certNodeIdRet =? SCF_SUCCESS then buf_cstr <$> certNodeId else nodeId in
      return_if certRoleRet =? SCF_SUCCESS
        with Ret (SCF_SUCCESS, default role certRole, SCF_RBAC_ROLE_SRC_CERT) ;;
      role_from_mapping mappingNodeId role src
  end.

Definition ResolveLocalIdentity (e : Env) (localCert : Cert) (localNodeId : list ascii)
    (localNodeIdSize role : Z) : Prog (Z * list ascii * Z) :=
  let '(ret, buf, _) :=
    SCF_GetCertNodeId e (Some localCert) (Some localNodeId) localNodeIdSize (Some 0) in
  return_if negb (ret =? SCF_SUCCESS) with Ret (ret, default localNodeId buf, role) ;;
  call* (ret, role, _) :=
    SCF_GetNodeRbacRole e (Some localCert) None role SCF_RBAC_ROLE_SRC_NONE in
  Ret (ret, default localNodeId buf, role).

Definition GetCustomPolicyEffect (request : PolicyMatchRequest) (effect : Z) : Prog (bool * Z) :=
  rules_section
    (let* items := load policyRuleMap in
     let '(matched, eff) := MatchPolicyRule items request (Some effect) in
     Done (matched, default effect eff)).

(** [rbacEnabled.load()]. *)
Definition rbacEnabled_load : Prog bool :=
  Atomic (S := SCFPolicyCtx) (Y := bool) (fun enabled => (enabled, enabled)) Ret.

Definition SCF_CheckResourcePermission (e : Env) (localCert : Cert) (targetNodeId : string)
    (resourceType action : Z) : Prog Z :=
  return_if negb (IsValidNodeId (Some targetNodeId)) || negb (IsSingleResourceType resourceType)
            || negb (IsSingleResourceAction action)
    with Ret SCF_ERRNO_INVALID_PARAM ;;
  return_if negb (g_scfInitialized e) with Ret SCF_ERRNO_NOT_INIT ;;
  call* enabled := rbacEnabled_load in
  return_if negb enabled with Ret SCF_ERRNO_RBAC_DISABLED ;;
  let localNodeId := replicate (Z.to_nat MAX_NODE_ID_LEN) NUL in
  call* (ret, localNodeId, role) :=
    ResolveLocalIdentity e localCert localNodeId MAX_NODE_ID_LEN SCF_RBAC_ROLE_UNKNOWN in
  return_if negb (ret =? SCF_SUCCESS) with Ret ret ;;
  let request := mkRequest (buf_cstr localNodeId) targetNodeId resourceType action in
  call* (matched, effect) := GetCustomPolicyEffect request SCF_POLICY_EFFECT_DENY in
  return_if matched
    with Ret (if effect =? SCF_POLICY_EFFECT_ALLOW then SCF_SUCCESS
              else SCF_ERRNO_RBAC_DENIED) ;;
  Ret (CheckDefaultResourcePermission role (buf_cstr localNodeId) targetNodeId).
End locked.
End Locked.

(** ** Calls

    The calls that take one lock once, or none. *)
Section calls.
Context {Cert : Type} `{CertReader Cert} `{SecureC} `{HashOrder}.

Inductive rbac_call : Type :=
| CallAdmin (op : rbac_op)
| CallIsMasterNode (nodeId : string) (isMaster : bool)
| CallListMasterNodes (nodeIdList : list (list ascii)) (listCap actualCount : Z)
| CallListPolicyRules (rules : list SCF_PolicyRule) (ruleCap actualCount : Z)
| CallGetNodeRbacRole (cert : option Cert) (nodeId : option string) (role src : Z).

Inductive rbac_answer : Type :=
| AnsCode (ret ruleId : Z)
| AnsBool (ret : Z) (isMaster : bool)
| AnsRows (ret : Z) (nodeIdList : list (list ascii)) (actualCount : Z)
| AnsRules (ret : Z) (rules : list SCF_PolicyRule) (actualCount : Z)
| AnsRole (ret role src : Z).

(** The call as the handlers of Rbac.v run it, alone. *)
Definition run_call (call : Env * rbac_call) (c : SCFPolicyCtx) : SCFPolicyCtx * rbac_answer :=
  let e := call.1 in
  match call.2 with
  | CallAdmin op => let '(ret, c', id) := run_op e op c in (c', AnsCode ret id)
  | CallIsMasterNode id b =>
      let '(ret, b') := SCF_IsMasterNode e (Some c) (Some id) (Some b) in
      (c, AnsBool ret (default b b'))
  | CallListMasterNodes rows cap n =>
      let '(ret, rows', n') := SCF_ListMasterNodes e (Some c) (Some rows) cap (Some n) in
      (c, AnsRows ret (default rows rows') (default n n'))
  | CallListPolicyRules rules cap n =>
      let '(ret, rules', n') := SCF_ListPolicyRules e (Some c) (Some rules) cap (Some n) in
      (c, AnsRules ret (default rules rules') (default n n'))
  | CallGetNodeRbacRole cert id role src =>
      let '(ret, role', src') := SCF_GetNodeRbacRole e (Some c) cert id (Some role) (Some src) in
      (c, AnsRole ret (default role role') (default src src'))
  end.

(** The call with its locks. *)
Definition locked_op (e : Env) (op : rbac_op) : prog SCFPolicyCtx rbac_answer :=
  match op with
  | OpAddPolicyRule subject target rt act eff =>
      call* (ret, id) := Locked.SCF_AddPolicyRule e subject target rt act eff 0 in Ret (AnsCode ret id)
  | OpRemovePolicyRule id => call* ret := Locked.SCF_RemovePolicyRule e id in Ret (AnsCode ret 0)
  | OpSetNodeRoleMapping nodeId role =>
      call* ret := Locked.SCF_SetNodeRoleMapping e nodeId role in Ret (AnsCode ret 0)
  | OpRemoveNodeRoleMapping nodeId =>
      call* ret := Locked.SCF_RemoveNodeRoleMapping e nodeId in Ret (AnsCode ret 0)
  | OpFreezeNodeRoleMapping => call* ret := Locked.FreezeNodeRoleMapping in Ret (AnsCode ret 0)
  | OpEnableRbac b => call* ret := Locked.SCF_EnableRbac e b in Ret (AnsCode ret 0)
  end.

Definition locked_call (call : Env * rbac_call) : prog SCFPolicyCtx rbac_answer :=
  let e := call.1 in
  match call.2 with
  | CallAdmin op => locked_op e op
  | CallIsMasterNode id b =>
      call* (ret, b) := Locked.SCF_IsMasterNode e id b in Ret (AnsBool ret b)
  | CallListMasterNodes rows cap n =>
      call* (ret, rows, n) := Locked.SCF_ListMasterNodes e rows cap n in Ret (AnsRows ret rows n)
  | CallListPolicyRules rules cap n =>
      call* (ret, rules, n) := Locked.SCF_ListPolicyRules e rules cap n in
      Ret (AnsRules ret rules n)
  | CallGetNodeRbacRole cert id role src =>
      call* (ret, role, src) := Locked.SCF_GetNodeRbacRole e cert id role src in
      Ret (AnsRole ret role src)
  end.

(** The same, and the permission check. *)
Inductive policy_call : Type :=
| OneLock (call : rbac_call)
| CallCheckResourcePermission (cert : Cert) (targetNodeId : string) (resourceType action : Z).

Definition locked_policy_call (call : Env * policy_call) : prog SCFPolicyCtx rbac_answer :=
  match call.2 with
  | OneLock one => locked_call (call.1, one)
  | CallCheckResourcePermission crt target rt act =>
      call* ret := Locked.SCF_CheckResourcePermission call.1 crt target rt act in
      Ret (AnsCode ret 0)
  end.

(** ** Alone, a locked call is its handler *)

Lemma set_enabled_same (c : SCFPolicyCtx) : set_ctx_rbacEnabled (ctx_rbacEnabled c) c = c.
Proof. by destruct c. Qed.

Lemma solo_rules {X} (body : code PolicyRules X) c :
  solo (Locked.rules_section body) c =
  let res := run_code body (guarded_get policyRuleMutex c) in
  (guarded_put policyRuleMutex res.1 c, res.2).
Proof. cbn. by destruct (run_code body _). Qed.

Lemma solo_Insert e rule c :
  let res := run_code (Locked.InsertPolicyRule e rule) (guarded_get policyRuleMutex c) in
  InsertPolicyRule e c rule =
    (fun '(ret, r) => (ret, guarded_put policyRuleMutex res.1 c, r)) <$> res.2 /\
  (res.2 = None -> guarded_put policyRuleMutex res.1 c = c).
Proof.
  unfold InsertPolicyRule, Locked.InsertPolicyRule. cbn.
  destruct (existsb _ _); cbn; [by destruct c|].
  destruct (_ || _)%bool; cbn; [by destruct c|].
  destruct (alloc e 1); cbn; [|by destruct c].
  unfold OMap.emplace. destruct (OMap.find _ _) eqn:Ef; cbn; [by destruct c|].
  rewrite Ef. cbn. by destruct c.
Qed.

Lemma solo_op e op c : solo (locked_op e op) c = run_call (e, CallAdmin op) c.
Proof.
  unfold run_call, run_op, locked_op. cbn [fst snd]. destruct op as [s t rt act eff|id|id role|id| |b].
  - unfold SCF_AddPolicyRule, Locked.SCF_AddPolicyRule. rewrite solo_bind.
    destruct (_ || _ || _ || _ || _)%bool; [done|]. destruct (g_scfInitialized e); [|done].
    destruct (alloc e 0); [|done]. cbn [negb].
    rewrite solo_rules, run_code_bind. pose proof (solo_Insert e (mkPolicyRule 0 s t rt act eff) c) as [-> Hn].
    destruct (run_code (Locked.InsertPolicyRule e _) _) as [v [[ret r]|]]; cbn in *.
    + by destruct (ret =? SCF_SUCCESS).
    + by rewrite Hn.
  - unfold SCF_RemovePolicyRule, Locked.SCF_RemovePolicyRule. destruct c, (id =? 0); [done|].
    destruct (g_scfInitialized e); [|done]. cbn. by destruct (OMap.find _ _).
  - unfold SCF_SetNodeRoleMapping, Locked.SCF_SetNodeRoleMapping.
    destruct c as [????????????? frozen], (_ || _)%bool; [done|].
    destruct (g_scfInitialized e); [|done]. cbn. destruct frozen; cbn; [done|].
    destruct (_ !! id) eqn:El; cbn.
    + by destruct (alloc e 0).
    + destruct (_ <=? _); cbn; [done|]. by destruct (alloc e 0).
  - unfold SCF_RemoveNodeRoleMapping, Locked.SCF_RemoveNodeRoleMapping.
    destruct c as [????????????? frozen], (negb _); [done|].
    destruct (g_scfInitialized e); [|done]. cbn. destruct frozen; cbn; [done|].
    by destruct (_ !! id).
  - by destruct c.
  - unfold SCF_EnableRbac, Locked.SCF_EnableRbac. by destruct (g_scfInitialized e).
Qed.

Lemma solo_mapping id role src c :
  solo (Locked.role_from_mapping id role src) c =
  (c, let '(ret, role', src') := role_from_mapping c id role src in
      (ret, default role role', default src src')).
Proof.
  unfold role_from_mapping, Locked.role_from_mapping, GetMappingRole, Locked.GetMappingRole.
  destruct c, (negb _); [done|]. cbn. by destruct (_ !! _).
Qed.

Lemma solo_node_role e cert id role src c :
  solo (Locked.SCF_GetNodeRbacRole e cert id role src) c =
  (c, let '(ret, role', src') := SCF_GetNodeRbacRole e (Some c) cert id (Some role) (Some src) in
      (ret, default role role', default src src')).
Proof.
  unfold SCF_GetNodeRbacRole, Locked.SCF_GetNodeRbacRole.
  destruct (_ && _)%bool; [done|]. destruct (_ && _)%bool; [done|].
  destruct (g_scfInitialized e); [|done]. cbn [negb].
  assert (Hm : forall id, solo (Locked.role_from_mapping id SCF_RBAC_ROLE_UNKNOWN SCF_RBAC_ROLE_SRC_NONE) c
    = (c, let '(ret, role', src') :=
            role_from_mapping c id SCF_RBAC_ROLE_UNKNOWN SCF_RBAC_ROLE_SRC_NONE in
          (ret, default role role', default src src'))).
  { intros id'. rewrite solo_mapping. unfold role_from_mapping.
    destruct (GetMappingRole c id' _) as [ret r]. by destruct (negb _). }
  destruct cert as [crt|]; [|apply Hm].
  destruct (SCF_GetCertRbacRole e _ _) as [r1 role1] eqn:Er. destruct (_ && _)%bool; [done|].
  destruct (SCF_GetCertNodeId e _ _ _ _) as [[r2 id2] n2]. destruct (_ && _)%bool; [done|].
  destruct (r1 =? SCF_SUCCESS) eqn:E1; [|apply Hm]. bools. subst r1. cbn.
  destruct role1; [done|]. exfalso. revert Er. unfold SCF_GetCertRbacRole.
  repeat (destruct (negb _); [done|]). destruct (GetCertExtensionByOid _ _).
  repeat (destruct (_ =? _); [done|]). destruct (negb _); [by intros [= ->]|].
  by repeat (destruct (streq _ _); [done|]).
Qed.

Lemma solo_resolve e crt buf n role c :
  solo (Locked.ResolveLocalIdentity e crt buf n role) c =
  (c, ResolveLocalIdentity e c crt buf n role).
Proof.
  unfold ResolveLocalIdentity, Locked.ResolveLocalIdentity.
  destruct (SCF_GetCertNodeId e _ _ _ _) as [[r2 id2] n2]. destruct (negb _); [done|].
  rewrite solo_bind, solo_node_role. cbn [fst snd].
  by destruct (SCF_GetNodeRbacRole _ _ _ _ _ _) as [[? ?] ?].
Qed.

Lemma solo_load c : solo Locked.rbacEnabled_load c = (c, ctx_rbacEnabled c).
Proof. cbn. by rewrite set_enabled_same. Qed.

Lemma solo_custom request effect c :
  solo (Locked.GetCustomPolicyEffect request effect) c =
  (c, GetCustomPolicyEffect c request effect).
Proof.
  unfold Locked.GetCustomPolicyEffect, GetCustomPolicyEffect. rewrite solo_rules, run_code_bind.
  cbn -[MatchPolicyRule]. destruct (MatchPolicyRule _ _ _). by destruct c.
Qed.

Lemma solo_call call c : solo (locked_call call) c = run_call call c.
Proof.
  destruct call as [e [op|id b|rows cap n|rules cap n|crt id role src]].
  - apply solo_op.
  - unfold run_call, locked_call, SCF_IsMasterNode, Locked.SCF_IsMasterNode. cbn [fst snd].
    destruct c, (negb _); [done|]. destruct (negb _); [done|]. cbn. by destruct (_ !! _).
  - unfold run_call, locked_call, SCF_ListMasterNodes, Locked.SCF_ListMasterNodes. cbn [fst snd].
    destruct c, (cap =? 0); [done|]. destruct (negb _); [done|]. cbn.
    by destruct (list_masters_loop _ _ _ _) as [[? ?] ?].
  - unfold run_call, locked_call, SCF_ListPolicyRules, Locked.SCF_ListPolicyRules. cbn [fst snd].
    destruct c, (cap =? 0); [done|]. destruct (negb _); [done|]. cbn.
    by destruct (list_rules_loop _ _ _ _ _) as [[? ?] ?].
  - unfold run_call, locked_call. cbn [fst snd]. rewrite solo_bind, solo_node_role. cbn [fst snd].
    by destruct (SCF_GetNodeRbacRole _ _ _ _ _ _) as [[? ?] ?].
Qed.

(** ** One lock, one effect *)

Lemma mapping_one_effect id role src : one_effect (Locked.role_from_mapping id role src).
Proof.
  unfold Locked.role_from_mapping, Locked.GetMappingRole. destruct (negb _); [done|].
  cbn. intros [ret r]. destruct (negb _); by eexists.
Qed.

Lemma node_role_one_effect e cert id role src :
  one_effect (Locked.SCF_GetNodeRbacRole e cert id role src).
Proof.
  unfold Locked.SCF_GetNodeRbacRole. do 2 (destruct (_ && _)%bool; [done|]).
  destruct (negb _); [done|]. destruct cert; [|apply mapping_one_effect].
  destruct (SCF_GetCertRbacRole _ _ _). destruct (_ && _)%bool; [done|].
  destruct (SCF_GetCertNodeId _ _ _ _ _) as [[? ?] ?]. destruct (_ && _)%bool; [done|].
  destruct (_ =? _); [done|apply mapping_one_effect].
Qed.

Lemma resolve_one_effect e crt buf n role :
  one_effect (Locked.ResolveLocalIdentity e crt buf n role).
Proof.
  unfold Locked.ResolveLocalIdentity. destruct (SCF_GetCertNodeId _ _ _ _ _) as [[? ?] ?].
  destruct (negb _); [done|]. apply one_effect_bind; [apply node_role_one_effect|].
  intros [[? ?] ?]. by eexists.
Qed.

Lemma custom_one_effect request effect : one_effect (Locked.GetCustomPolicyEffect request effect).
Proof. cbn. by eauto. Qed.

Lemma load_one_effect : one_effect Locked.rbacEnabled_load.
Proof. cbn. by eauto. Qed.

Lemma call_one_effect call : one_effect (locked_call call).
Proof.
  destruct call as [e [op|id b|rows cap n|rules cap n|crt id role src]]; unfold locked_call; cbn [fst snd].
  - unfold locked_op; destruct op; apply one_effect_bind; try (intros []; by eexists);
      try (intros; by eexists).
    + unfold Locked.SCF_AddPolicyRule. repeat case_match; cbn; by eauto.
    + unfold Locked.SCF_RemovePolicyRule. repeat case_match; cbn; by eauto.
    + unfold Locked.SCF_SetNodeRoleMapping. repeat case_match; cbn; by eauto.
    + unfold Locked.SCF_RemoveNodeRoleMapping. repeat case_match; cbn; by eauto.
    + unfold Locked.SCF_EnableRbac. repeat case_match; cbn; by eauto.
  - apply one_effect_bind; [|intros []; by eexists].
    unfold Locked.SCF_IsMasterNode. repeat case_match; cbn; by eauto.
  - apply one_effect_bind; [|intros [[] ?]; by eexists].
    unfold Locked.SCF_ListMasterNodes. repeat case_match; cbn; by eauto.
  - apply one_effect_bind; [|intros [[] ?]; by eexists].
    unfold Locked.SCF_ListPolicyRules. repeat case_match; cbn; by eauto.
  - apply one_effect_bind; [apply node_role_one_effect|intros [[] ?]; by eexists].
Qed.

(** ** A frozen mapping is left alone

    On a mapping that is frozen every block under [nodeRoleMapMutex] only reads. *)
Section frozen.
Context (v : NodeRoles) (Hv : nodeRoleMapFrozen v = true).
Abbreviation keeps := (prog_keeps (S := SCFPolicyCtx) nodeRoleMapMutex v).

Lemma rules_keep {X} (body : code PolicyRules X) : keeps (Locked.rules_section body).
Proof. split; [by apply code_keeps_ne|done]. Qed.

Lemma load_keeps {X Y} (f : NodeRoles -> X) (k : X -> code NodeRoles Y) :
  code_keeps (S := SCFPolicyCtx) (l' := nodeRoleMapMutex) nodeRoleMapMutex v (k (f v)) ->
  code_keeps (S := SCFPolicyCtx) (l' := nodeRoleMapMutex) nodeRoleMapMutex v (code_bind (load f) k).
Proof. intros Hk s Hs. cbn in *. rewrite Hs. split; [by destruct v|done]. Qed.

Lemma nodes_keep {X} (body : code NodeRoles X) :
  code_keeps (S := SCFPolicyCtx) (l' := nodeRoleMapMutex) nodeRoleMapMutex v body ->
  keeps (Locked.nodes_section body).
Proof. by split. Qed.

Lemma mapping_keeps id role src : keeps (Locked.role_from_mapping id role src).
Proof.
  apply prog_keeps_bind; [|intros []; by case_match].
  unfold Locked.GetMappingRole. case_match; [done|]. apply nodes_keep, load_keeps. by case_match.
Qed.

Lemma node_role_keeps e cert id role src : keeps (Locked.SCF_GetNodeRbacRole e cert id role src).
Proof.
  unfold Locked.SCF_GetNodeRbacRole. do 2 (destruct (_ && _)%bool; [done|]).
  destruct (negb _); [done|]. destruct cert; [|apply mapping_keeps].
  destruct (SCF_GetCertRbacRole _ _ _). destruct (_ && _)%bool; [done|].
  destruct (SCF_GetCertNodeId _ _ _ _ _) as [[? ?] ?]. destruct (_ && _)%bool; [done|].
  destruct (_ =? _); [done|apply mapping_keeps].
Qed.

Lemma op_keeps e op : keeps (locked_op e op).
Proof.
  destruct op; apply prog_keeps_bind; try done; try (by intros []).
  - unfold Locked.SCF_AddPolicyRule. repeat (case_match; [done|]). apply rules_keep.
  - unfold Locked.SCF_RemovePolicyRule. repeat (case_match; [done|]). apply rules_keep.
  - unfold Locked.SCF_SetNodeRoleMapping. repeat (case_match; [done|]).
    apply nodes_keep, load_keeps. by rewrite Hv.
  - unfold Locked.SCF_RemoveNodeRoleMapping. repeat (case_match; [done|]).
    apply nodes_keep, load_keeps. by rewrite Hv.
  - apply nodes_keep. intros s Hs. split; [|done].
    pose proof Hv as Hf. rewrite <- Hs in Hf |- *. destruct s. cbn in *. by rewrite Hf.
  - unfold Locked.SCF_EnableRbac. by case_match.
Qed.

Lemma check_keeps e crt target rt act :
  keeps (Locked.SCF_CheckResourcePermission e crt target rt act).
Proof.
  unfold Locked.SCF_CheckResourcePermission. repeat (case_match; [done|]).
  apply prog_keeps_bind; [done|]. intros enabled. case_match; [done|].
  apply prog_keeps_bind.
  - unfold Locked.ResolveLocalIdentity. destruct (SCF_GetCertNodeId _ _ _ _ _) as [[? ?] ?].
    case_match; [done|]. apply prog_keeps_bind; [apply node_role_keeps|by intros [[] ?]].
  - intros [[] ?]. case_match; [done|]. apply prog_keeps_bind; [apply rules_keep|].
    intros []. by case_match.
Qed.

Lemma call_keeps call : keeps (locked_policy_call call).
Proof.
  destruct call as [e [[op|id b|rows cap n|rules cap n|crt id role src]|crt target rt act]];
    unfold locked_policy_call, locked_call; cbn [fst snd]; [apply op_keeps|..]; apply prog_keeps_bind;
    try done; try (by intros []); try (by intros [[] ?]).
  - unfold Locked.SCF_IsMasterNode. repeat (case_match; [done|]). apply nodes_keep, load_keeps.
    by case_match.
  - unfold Locked.SCF_ListMasterNodes. repeat (case_match; [done|]). by apply nodes_keep, load_keeps.
  - unfold Locked.SCF_ListPolicyRules. repeat (case_match; [done|]). apply rules_keep.
  - apply node_role_keeps.
  - apply check_keeps.
Qed.
End frozen.

(** ** The calls are atomic *)

(** (C14) The administrative and the query calls of the access control - every call on it but
    the permission check [SCF_CheckResourcePermission], for which this does not hold - on one
    policy context from any number of threads, each running its accesses
    under the locks the handlers take, interleaved in any order: no schedule runs for ever or
    gets stuck before every call has returned; and then the answers and the context are those
    of the same calls made one at a time, in some order that keeps every thread's own. *)
Theorem rbac_calls_atomic (callss : list (list (Env * rbac_call))) (c : SCFPolicyCtx) :
  Acc (flip step) (start locked_call callss c) /\
  forall st, rtc step (start locked_call callss c) st -> (forall st', ~ step st st') ->
    exists rss c' h, st = returned_with rss c' /\
      (in_order run_call h c).1 = c' /\
      forall i, of_thread i h = default [] (callss !! i) /\
                of_thread i (in_order run_call h c).2 = default [] (rss !! i).
Proof.
  split; [apply schedules_end|]. intros st Hr [rss E]%stuck_returned.
  destruct (calls_are_atomic locked_call run_call solo_call callss c rss st.2 call_one_effect)
    as [h Hh]; [by rewrite <- E|]. by exists rss, st.2, h.
Qed.

(** The context a permission check has read: the flag, the mapping and the rules of three
    moments. *)
Definition seen (flag roles rules : SCFPolicyCtx) : SCFPolicyCtx :=
  set_ctx_rbacEnabled (ctx_rbacEnabled flag)
    (guarded_put nodeRoleMapMutex (guarded_get nodeRoleMapMutex roles) rules).

Lemma replay_check (at_ : nat -> SCFPolicyCtx) e crt target rt act ns hi r :
  replay (Locked.SCF_CheckResourcePermission e crt target rt act) (at_ <$> ns) = Ret r ->
  moments 0 ns hi ->
  exists n1 n2 n3, (n1 <= n2 <= n3)%nat /\ (n3 <= hi)%nat /\
    r = SCF_CheckResourcePermission e (Some (seen (at_ n1) (at_ n2) (at_ n3))) (Some crt)
          (Some target) rt act.
Proof.
  intros Hr Hw. pose proof (moments_le _ _ _ Hw) as Hend.
  unfold Locked.SCF_CheckResourcePermission in Hr. unfold SCF_CheckResourcePermission.
  destruct (_ || _)%bool; [rewrite replay_ret in Hr; injection Hr as <-; by exists 0%nat, 0%nat, 0%nat|].
  destruct (g_scfInitialized e); cbn [negb] in *;
    [|rewrite replay_ret in Hr; injection Hr as <-; by exists 0%nat, 0%nat, 0%nat].
  eapply replay_query in Hr as (n1 & ns1 & Hc1 & Hw1 & Hr);
    [|apply load_one_effect|apply solo_load|exact Hw].
  pose proof (moments_le _ _ _ Hw1) as Hend1. cbn [ctx_rbacEnabled seen set_ctx_rbacEnabled].
  destruct (ctx_rbacEnabled (at_ n1)) eqn:Hen; cbn [negb] in *;
    [|rewrite replay_ret in Hr; injection Hr as <-; exists n1, n1, n1; cbn; by rewrite Hen].
  eapply replay_query in Hr as (n2 & ns2 & Hc2 & Hw2 & Hr);
    [|apply resolve_one_effect|intros; apply solo_resolve|exact Hw1].
  pose proof (moments_le _ _ _ Hw2) as Hend2.
  assert (Hres : forall c3, ResolveLocalIdentity e (seen (at_ n1) (at_ n2) c3) crt
      (replicate (Z.to_nat MAX_NODE_ID_LEN) NUL) MAX_NODE_ID_LEN SCF_RBAC_ROLE_UNKNOWN =
    ResolveLocalIdentity e (at_ n2) crt
      (replicate (Z.to_nat MAX_NODE_ID_LEN) NUL) MAX_NODE_ID_LEN SCF_RBAC_ROLE_UNKNOWN) by done.
  destruct (ResolveLocalIdentity e (at_ n2) _ _ _ _) as [[ret id] role] eqn:Er.
  cbv beta in Hr. rewrite Er in Hr. destruct (negb (ret =? SCF_SUCCESS)) eqn:Eret.
  { rewrite replay_ret in Hr. injection Hr as <-. exists n1, n2, n2. split; [done|]. split; [done|].
    cbn [ctx_rbacEnabled seen set_ctx_rbacEnabled]. by rewrite Hen, Hres, Eret. }
  eapply replay_query in Hr as (n3 & ns3 & Hc3 & Hw3 & Hr);
    [|apply custom_one_effect|intros; apply solo_custom|exact Hw2].
  exists n1, n2, n3. split; [done|]. split; [by eapply moments_le|].
  cbn [ctx_rbacEnabled seen set_ctx_rbacEnabled]. rewrite Hen, Hres, Eret. cbn [negb].
  change (GetCustomPolicyEffect (seen (at_ n1) (at_ n2) (at_ n3)))
    with (GetCustomPolicyEffect (at_ n3)).
  destruct (GetCustomPolicyEffect (at_ n3) _ _) as [m eff] eqn:Ec. cbv beta in Hr.
  rewrite Ec in Hr.
  by destruct m; rewrite replay_ret in Hr; injection Hr as <-.
Qed.

Lemma start_mutex callss :
  mutex ((fun ops => Outside (in_turn locked_policy_call ops [])) <$> callss).
Proof.
  replace (_ <$> callss) with (Outside <$> ((fun ops => in_turn locked_policy_call ops []) <$> callss))
    by (by rewrite <- list_fmap_compose). apply mutex_outside.
Qed.

(** The context of a schedule after its first [n] steps. *)
Definition context_at callss c (order : list nat) (n : nat) : SCFPolicyCtx :=
  (schedule (take n order) (start locked_policy_call callss c)).2.

(** (C16) A permission check beside any calls of other threads: whatever the schedule, when
    the check has returned there are three moments of this schedule, in this order, such that
    the check answered what it would answer alone on a context with the enabled flag that the
    shared context had at the first, the role mapping it had at the second and the rules it
    had at the third. On a mapping that was frozen before, this is the context as it was at
    the last moment but for the flag, which was read at the first. *)
Theorem check_reads_three_moments callss c order i e crt target rt act r :
  let at_ := context_at callss c order in
  callss !! i = Some [(e, CallCheckResourcePermission crt target rt act)] ->
  (schedule order (start locked_policy_call callss c)).1 !! i = Some (Outside (Ret [AnsCode r 0])) ->
  exists n1 n2 n3, (n1 <= n2 <= n3)%nat /\ (n3 <= length order)%nat /\
    r = SCF_CheckResourcePermission e (Some (seen (at_ n1) (at_ n2) (at_ n3))) (Some crt)
          (Some target) rt act /\
    (ctx_nodeRoleMapFrozen c = true ->
     seen (at_ n1) (at_ n2) (at_ n3) = set_ctx_rbacEnabled (ctx_rbacEnabled (at_ n1)) (at_ n3)).
Proof.
  intros at_ Hi Hend. unfold start in Hend.
  eapply replay_at_moments in Hend as (ns & Hns & Hat);
    [|apply start_mutex|by rewrite list_lookup_fmap, Hi].
  cbn [finished in_turn] in Hat. symmetry in Hat.
  apply (replay_bind_ret _ (fun r => [] ++ [r])) in Hat as (a & Hat & Ea).
  apply (replay_bind_ret _ (fun ret => AnsCode ret 0)) in Hat as (ret & Hat & ->).
  injection Ea as <-.
  eapply (replay_check at_) in Hat as (n1 & n2 & n3 & Hn & Hle & Hr); [|exact Hns].
  exists n1, n2, n3. split_and!; [lia|lia|done|done|]. intros Hf.
  assert (Hkeep : forall n, guarded_get nodeRoleMapMutex (at_ n) = guarded_get nodeRoleMapMutex c).
  { intros n. apply (@schedule_keeps _ policy_ctx_guarded _ nodeRoleMapMutex); [|done].
    apply Forall_fmap, Forall_true. intros calls. cbn. apply keeps_in_turn. intros call.
    by apply call_keeps. }
  unfold seen. rewrite (Hkeep n2), <- (Hkeep n3). by destruct (at_ n3).
Qed.
End calls.

(** ** Concrete interleavings *)

Abbreviation ex_call := (@rbac_call ExCert).
Definition ex_add : ex_call :=
  CallAdmin (OpAddPolicyRule "nodeA" "nodeB" SCF_RES_TYPE_FD SCF_RES_ACTION_APPLY
    SCF_POLICY_EFFECT_ALLOW).

(** Two threads add the same rule; the second one meets the lock taken. *)
Definition ex_threads : list (list (Env * ex_call)) :=
  [ [(env_up, ex_add); (env_up, CallIsMasterNode "nodeA" false)];
    [(env_up, ex_add); (env_up, CallAdmin (OpSetNodeRoleMapping "nodeA" SCF_RBAC_ROLE_MASTER))] ].
Definition ex_order : list nat := mjoin (replicate 24 [1; 0; 1]%nat).
Definition ex_answers : list (list rbac_answer) :=
  [ [AnsCode SCF_ERRNO_RBAC_POLICY_DUPLICATE 0; AnsBool SCF_SUCCESS true];
    [AnsCode SCF_SUCCESS 1; AnsCode SCF_SUCCESS 0] ].
Definition ex_final : SCFPolicyCtx :=
  (schedule ex_order (start locked_call ex_threads new_policy_ctx)).2.

Lemma ex_run : rtc step (start locked_call ex_threads new_policy_ctx) (returned_with ex_answers ex_final).
Proof.
  replace (returned_with ex_answers ex_final)
    with (schedule ex_order (start locked_call ex_threads new_policy_ctx)) by (by vm_compute).
  apply schedule_steps.
Qed.

Lemma rbac_calls_atomic_witness :
  exists h : list (nat * (Env * ex_call)), (in_order run_call h new_policy_ctx).1 = ex_final /\
    of_thread 0 (in_order run_call h new_policy_ctx).2
    = [AnsCode SCF_ERRNO_RBAC_POLICY_DUPLICATE 0; AnsBool SCF_SUCCESS true] /\
    of_thread 1 (in_order run_call h new_policy_ctx).2 = [AnsCode SCF_SUCCESS 1; AnsCode SCF_SUCCESS 0].
Proof.
  destruct (proj2 (rbac_calls_atomic ex_threads new_policy_ctx) _ ex_run)
    as (rss & c' & h & E & Hs & Hi); [intros st'; apply returned_stuck|].
  apply returned_with_inj in E as [<- <-].
  exists h. split; [exact Hs|]. split; [exact (proj2 (Hi 0%nat))|exact (proj2 (Hi 1%nat))].
Defined.

(** A check and, beside it, an administrator who withdraws a rule. *)
Abbreviation ex_policy_call := (@policy_call ExCert).
Definition ex_check (crt : ExCert) : Env * ex_policy_call :=
  (env_up, CallCheckResourcePermission crt "nodeC" SCF_RES_TYPE_NUMA SCF_RES_ACTION_APPLY).
Definition ex_admin (op : rbac_op) : Env * ex_policy_call := (env_up, OneLock (CallAdmin op)).
Definition ex_check_threads : list (list (Env * ex_policy_call)) :=
  [ [ex_check ex_cert_slave]; [ex_admin (OpRemovePolicyRule 2)] ].

Lemma ex_check_run :
  (schedule [0; 1; 1; 1; 1; 0; 0; 0]%nat (start locked_policy_call ex_check_threads ex_ctx)).1 !! 0%nat
  = Some (Outside (Ret [AnsCode SCF_ERRNO_RBAC_DENIED 0])).
Proof. by vm_compute. Qed.

Lemma check_reads_three_moments_witness :
  ctx_nodeRoleMapFrozen ex_ctx = true /\
  exists n1 n3, (n1 <= n3 <= 8)%nat /\
    let at_ := context_at ex_check_threads ex_ctx [0; 1; 1; 1; 1; 0; 0; 0]%nat in
    SCF_ERRNO_RBAC_DENIED = SCF_CheckResourcePermission env_up
      (Some (set_ctx_rbacEnabled (ctx_rbacEnabled (at_ n1)) (at_ n3))) (Some ex_cert_slave)
      (Some "nodeC"%string) SCF_RES_TYPE_NUMA SCF_RES_ACTION_APPLY.
Proof.
  split; [by vm_compute|].
  destruct (check_reads_three_moments ex_check_threads ex_ctx [0; 1; 1; 1; 1; 0; 0; 0]%nat 0 env_up
    ex_cert_slave "nodeC" SCF_RES_TYPE_NUMA SCF_RES_ACTION_APPLY SCF_ERRNO_RBAC_DENIED eq_refl
    ex_check_run) as (n1 & n2 & n3 & [H1 H2] & H3 & Hr & Hf).
  exists n1, n3. split; [split; [by etrans|exact H3]|]. cbv zeta in *.
  rewrite <- Hf; [exact Hr|by vm_compute].
Defined.

(** Before the freeze the check is not atomic. A MASTER whom a rule denies is made SLAVE and
    the rule withdrawn: no state in between allows the access, yet a check beside it, having
    read the old role and the new rules, grants it. *)
Definition ex_demote : list (Env * rbac_op) :=
  [(env_up, OpSetNodeRoleMapping "nodeA" SCF_RBAC_ROLE_SLAVE); (env_up, OpRemovePolicyRule 1)].
Definition ex_denied : SCFPolicyCtx := run_ops
  [ (env_up, OpEnableRbac true);
    (env_up, OpSetNodeRoleMapping "nodeA" SCF_RBAC_ROLE_MASTER);
    (env_up, OpAddPolicyRule "nodeA" "*" SCF_RES_TYPE_ALL 3 SCF_POLICY_EFFECT_DENY) ]
  new_policy_ctx.
Definition ex_asks (c : SCFPolicyCtx) : Z :=
  SCF_CheckResourcePermission env_up (Some c) (Some ex_cert) (Some "nodeC"%string)
    SCF_RES_TYPE_NUMA SCF_RES_ACTION_APPLY.

Example check_is_not_atomic :
  ((fun n => ex_asks (run_ops (take n ex_demote) ex_denied)) <$> [0; 1; 2]%nat)
    = [SCF_ERRNO_RBAC_DENIED; SCF_ERRNO_RBAC_DENIED; SCF_ERRNO_RBAC_DENIED] /\
  (schedule ([0; 0; 0; 0] ++ replicate 20 1 ++ replicate 20 0)%nat
    (start locked_policy_call
      [[ex_check ex_cert]; (fun call => (call.1, OneLock (CallAdmin call.2))) <$> ex_demote]
      ex_denied)).1
    = [ Outside (Ret [AnsCode SCF_SUCCESS 0]);
        Outside (Ret [AnsCode SCF_SUCCESS 0; AnsCode SCF_SUCCESS 0]) ].
Proof. split; by vm_compute. Qed.
