(* ===== verification/RefCount.v ===== *)
(** * The reference count under threads

    [refCnt] of a policy context is a [std::atomic<uint32_t>]: [SCF_CreatePolicyObj]
    (src/scf/connection/obj.cpp) adds one, [SCF_FreePolicyCtx] (src/scf/policy/policy.cpp)
    takes one off in a [compare_exchange_weak] loop and deletes the context when it took the
    last. Threads run these calls one access at a time, in any order; a weak exchange may
    fail spuriously. The guards before the loop (a null pointer, the library down) are in
    Api.v and Conn.v. The caller's side of the contract is that a call is made by a thread
    that owns a reference: the context's first one, or that of an object. *)
From Stdlib Require Import ZArith Lia.
From stdpp Require Import base list relations.
From S2P Require Import Prelude.
Open Scope Z_scope.

(** ** Threads and the context *)

(** Where a thread is; in every place but [Idle] its next step accesses the context. *)
Inductive place : Type :=
| Idle
| Creating
| Copying
| Loading
| Trying (expected : Z)
| FreeingSsl
| Deleting.
#[export] Instance place_eq_dec : EqDecision place.
Proof. solve_decision. Defined.

Record holder : Type := { owned : nat; at_place : place }.

(** [deletions]: how often the context was deleted. *)
Record counted : Type := { refCnt : Z; deletions : nat }.
Definition alive (s : counted) : bool := (deletions s =? 0)%nat.

Definition set_refCnt n (s : counted) : counted := {| refCnt := n; deletions := deletions s |}.

(** What happens to a thread: it makes a call, or goes on with one; [spurious] is the weak
    exchange failing for no reason. *)
Inductive happening : Type := CallCreate | CallFree | GoOn (spurious : bool).

(** The tail of the loop: [while (expected > 0)], and the error return behind it. *)
Definition try_again (t : holder) (expected : Z) : holder :=
  {| owned := owned t; at_place := if 0 <? expected then Trying expected else Idle |}.

(** One access of a thread. *)
Definition access (h : happening) (t : holder) (s : counted) : option (holder * counted) :=
  let goto p := {| owned := owned t; at_place := p |} in
  match at_place t, h with
  | Idle, CallCreate => if (0 <? owned t)%nat then Some (goto Creating, s) else None
  | Idle, CallFree => if (0 <? owned t)%nat then Some (goto Loading, s) else None
  | Creating, GoOn _ =>
      Some ({| owned := Datatypes.S (owned t); at_place := Copying |}, set_refCnt (wrap32 (refCnt s + 1)) s)
  | Copying, GoOn _ => Some (goto Idle, s)
  | Loading, GoOn _ => Some (try_again t (refCnt s), s)
  | Trying expected, GoOn spurious =>
      if (refCnt s =? expected) && negb spurious
      then Some ({| owned := pred (owned t);
                    at_place := if 1 <? expected then Idle else FreeingSsl |},
                 set_refCnt (expected - 1) s)
      else Some (try_again t (refCnt s), s)
  | FreeingSsl, GoOn _ => Some (goto Deleting, s)
  | Deleting, GoOn _ =>
      Some (goto Idle, {| refCnt := refCnt s; deletions := Datatypes.S (deletions s) |})
  | _, _ => None
  end.

(** The references a thread needs where it is. *)
Definition needs (p : place) : nat :=
  match p with Creating | Copying | Loading | Trying _ => 1 | _ => 0 end.

Definition state : Type := list holder * counted.

(** A thread goes on, or hands a reference it does not need to another. *)
Inductive share_step : state -> state -> Prop :=
| share_access ts s i h t t' s' :
    ts !! i = Some t -> access h t s = Some (t', s') -> share_step (ts, s) (<[i := t']> ts, s')
| share_hand_over ts s i j t u :
    i <> j -> ts !! i = Some t -> ts !! j = Some u -> (needs (at_place t) < owned t)%nat ->
    share_step (ts, s)
      (<[i := {| owned := pred (owned t); at_place := at_place t |}]>
        (<[j := {| owned := Datatypes.S (owned u); at_place := at_place u |}]> ts), s).

Definition total (ts : list holder) : nat := sum_list_with owned ts.

(** Fewer references than the counter can count. *)
Definition counts_step (st st' : state) : Prop :=
  share_step st st' /\ Z.of_nat (total st'.1) <= UINT32_MAX.

(** A new context, its reference owned by the first of [n + 1] threads. *)
Definition created (n : nat) : state :=
  ({| owned := 1; at_place := Idle |} :: replicate n {| owned := 0; at_place := Idle |},
   {| refCnt := 1; deletions := 0 |}).

(** ** The invariant *)

Definition ends (t : holder) : nat :=
  match at_place t with FreeingSsl | Deleting => 1 | _ => 0 end.
Definition ending (ts : list holder) : nat := sum_list_with ends ts.

(** The counter counts the references; and there is a reference, or one thread about to
    delete, or one deletion. *)
Record counted_ok (st : state) : Prop := {
  co_count : refCnt st.2 = Z.of_nat (total st.1);
  co_one : (Nat.min 1 (total st.1) + ending st.1 + deletions st.2 = 1)%nat;
  co_needs : forall i t, st.1 !! i = Some t -> (needs (at_place t) <= owned t)%nat
}.

Lemma sum_insert (f : holder -> nat) ts i t t' :
  ts !! i = Some t -> (sum_list_with f (<[i := t']> ts) + f t = sum_list_with f ts + f t')%nat.
Proof.
  revert i. induction ts as [|u ts IH]; intros [|i]; simpl; try done.
  - intros [= ->]. lia.
  - intros Hi. specialize (IH _ Hi). lia.
Qed.

Lemma sum_elem (f : holder -> nat) ts i t : ts !! i = Some t -> (f t <= sum_list_with f ts)%nat.
Proof.
  revert i. induction ts as [|u ts IH]; intros [|i]; simpl; try done.
  - intros [= ->]. lia.
  - intros Hi. specialize (IH _ Hi). lia.
Qed.

Lemma created_ok n : counted_ok (created n).
Proof.
  assert (Hz : forall f, f {| owned := 0; at_place := Idle |} = 0%nat ->
    sum_list_with f (replicate n {| owned := 0; at_place := Idle |}) = 0%nat).
  { intros f Hf. induction n; cbn; [done|]. by rewrite Hf, IHn. }
  split; cbn [created fst snd].
  - unfold total. simpl. rewrite Hz by done. done.
  - unfold total, ending. simpl. rewrite !Hz by done. done.
  - intros [|i] t; cbn; [intros [= <-]; cbn; lia|]. intros [-> _]%lookup_replicate. cbn. lia.
Qed.

Lemma needs_insert (ts : list holder) (i : nat) t' :
  (forall (i : nat) t, ts !! i = Some t -> (needs (at_place t) <= owned t)%nat) ->
  (needs (at_place t') <= owned t')%nat ->
  forall (j : nat) u, <[i := t']> ts !! j = Some u -> (needs (at_place u) <= owned u)%nat.
Proof.
  intros Hn Ht j u. rewrite list_lookup_insert_Some. intros [(_ & <- & _)|[_ Hu]]; [done|].
  by eapply Hn.
Qed.

(** One access, the other threads owning [n] references. *)
Lemma access_sums h t s t' s' n e :
  access h t s = Some (t', s') -> (needs (at_place t) <= owned t)%nat ->
  refCnt s = Z.of_nat (owned t + n) ->
  (Nat.min 1 (owned t + n) + (ends t + e) + deletions s = 1)%nat ->
  Z.of_nat (owned t' + n) <= UINT32_MAX ->
  (needs (at_place t') <= owned t')%nat /\ refCnt s' = Z.of_nat (owned t' + n) /\
  (Nat.min 1 (owned t' + n) + (ends t' + e) + deletions s' = 1)%nat.
Proof.
  destruct t as [own p]. unfold access, try_again, ends. cbn [owned at_place]. intros Ha.
  destruct p, h; try discriminate Ha;
    repeat match type of Ha with context [if ?b then _ else _] => destruct b eqn:? end;
    try discriminate Ha; injection Ha as <- <-; rewrite ?Nat.ltb_lt in *; bools;
    cbn [owned at_place needs refCnt deletions set_refCnt]; intros;
    rewrite ?wrap32_id by (unfold is_u32; lia); split_and!; lia.
Qed.

Lemma access_ok ts s i h t t' s' :
  counted_ok (ts, s) -> ts !! i = Some t -> access h t s = Some (t', s') ->
  Z.of_nat (total (<[i := t']> ts)) <= UINT32_MAX -> counted_ok (<[i := t']> ts, s').
Proof.
  intros [Hc H1 Hn] Hi Ha. cbn [fst snd] in *. unfold total, ending in *.
  pose proof (sum_insert owned ts i t t' Hi). pose proof (sum_insert ends ts i t t' Hi).
  pose proof (sum_elem owned ts i t Hi). pose proof (sum_elem ends ts i t Hi). intros Hr.
  destruct (access_sums h t s t' s' (sum_list_with owned ts - owned t)
    (sum_list_with ends ts - ends t) Ha (Hn i t Hi)) as (Hneed & Hc' & H1'); [lia..|].
  split; cbn [fst snd]; unfold total, ending; [lia|lia|by apply needs_insert].
Qed.

Lemma hand_over_ok ts s i j t u :
  counted_ok (ts, s) -> i <> j -> ts !! i = Some t -> ts !! j = Some u ->
  (needs (at_place t) < owned t)%nat ->
  counted_ok
    (<[i := {| owned := pred (owned t); at_place := at_place t |}]>
      (<[j := {| owned := Datatypes.S (owned u); at_place := at_place u |}]> ts), s).
Proof.
  intros [Hc H1 Hn] Hij Hi Hj Ht. cbn [fst snd] in *. unfold total, ending in *.
  set (u' := {| owned := Datatypes.S (owned u); at_place := at_place u |}).
  set (t' := {| owned := pred (owned t); at_place := at_place t |}).
  assert (Hi' : <[j := u']> ts !! i = Some t) by (by rewrite list_lookup_insert_ne).
  pose proof (sum_insert owned _ i t t' Hi'). pose proof (sum_insert ends _ i t t' Hi').
  pose proof (sum_insert owned ts j u u' Hj). pose proof (sum_insert ends ts j u u' Hj).
  assert (owned t' = pred (owned t) /\ owned u' = Datatypes.S (owned u) /\ ends t' = ends t /\
    ends u' = ends u) as (? & ? & ? & ?) by done.
  pose proof (Hn j u Hj). split; cbn [fst snd]; unfold total, ending; [lia|lia|].
  apply needs_insert; [apply needs_insert; [done|cbn; lia]|cbn; lia].
Qed.

Lemma counts_step_ok st st' : counted_ok st -> counts_step st st' -> counted_ok st'.
Proof.
  intros Hok [Hs Hr]. inversion Hs; subst; [by eapply access_ok|by apply hand_over_ok].
Qed.

Lemma counts_steps_ok st st' : counted_ok st -> rtc counts_step st st' -> counted_ok st'.
Proof. intros Hok. induction 1 as [|st st1 st' Hs _ IH]; [done|]. apply IH. by eapply counts_step_ok. Qed.

(** ** What the threads may rely on *)

(** (C8) From a new context, whatever threads that own references do, in any interleaving
    of their accesses: no thread is in a call on a deleted context, so nothing is accessed
    after the deletion; the context is deleted at most once; it is alive, its counter the
    number of references, while one is owned; the error return for a counter at zero is never
    taken; and when no reference is left and no call is running, the context is deleted. *)
Theorem no_access_after_delete n ts s :
  rtc counts_step (created n) (ts, s) ->
  (forall i t, ts !! i = Some t -> at_place t <> Idle -> alive s = true) /\
  (deletions s <= 1)%nat /\
  ((0 < total ts)%nat -> alive s = true /\ refCnt s = Z.of_nat (total ts)) /\
  (forall i t h t' s', ts !! i = Some t -> access h t s = Some (t', s') ->
    (at_place t = Loading \/ exists expected, at_place t = Trying expected) -> 0 < refCnt s) /\
  ((forall i t, ts !! i = Some t -> at_place t = Idle) -> total ts = 0%nat -> deletions s = 1%nat).
Proof.
  intros Hr. pose proof (counts_steps_ok _ _ (created_ok n) Hr) as [Hc H1 Hn]. cbn [fst snd] in *.
  assert (Hal : (0 < total ts + ending ts)%nat -> alive s = true).
  { intros ?. apply Nat.eqb_eq. lia. }
  assert (Hbusy : forall i t, ts !! i = Some t -> at_place t <> Idle -> (0 < needs (at_place t) + ends t)%nat).
  { intros i [own p] _. unfold ends. destruct p; cbn; try done; lia. }
  assert (Hle : forall i t, ts !! i = Some t -> (needs (at_place t) <= total ts /\ ends t <= ending ts)%nat).
  { intros i t Hi. pose proof (Hn i t Hi). pose proof (sum_elem owned ts i t Hi).
    pose proof (sum_elem ends ts i t Hi). unfold total, ending. lia. }
  split_and!.
  - intros i t Hi Hp. pose proof (Hbusy i t Hi Hp). pose proof (Hle i t Hi). apply Hal. lia.
  - lia.
  - intros ?. split; [apply Hal; lia|done].
  - intros i t h t' s' Hi _ Hp. pose proof (Hle i t Hi) as [Hneed _].
    destruct Hp as [Hp|[expected Hp]]; rewrite Hp in Hneed; cbn in Hneed; lia.
  - intros Hidle Ht. assert (ending ts = 0%nat); [|lia]. unfold ending. clear -Hidle.
    induction ts as [|t ts IH]; [done|]. simpl. rewrite (IH (fun i => Hidle (Datatypes.S i))).
    unfold ends. by rewrite (Hidle 0%nat t eq_refl).
Qed.

(** The accesses of one thread. *)
Fixpoint accesses (hs : list happening) (t : holder) (s : counted) : option (holder * counted) :=
  match hs with
  | [] => Some (t, s)
  | h :: hs => match access h t s with Some (t, s) => accesses hs t s | None => None end
  end.

(** Alone, [SCF_FreePolicyCtx] is the one decrement of Api.v, after any number of spurious
    failures, and the deletion when the count was one. *)
Lemma free_alone own n k :
  0 < n ->
  accesses ([CallFree; GoOn false] ++ replicate k (GoOn true) ++
            GoOn false :: if n =? 1 then [GoOn false; GoOn false] else [])
    {| owned := Datatypes.S own; at_place := Idle |} {| refCnt := n; deletions := 0 |}
  = Some ({| owned := own; at_place := Idle |},
          {| refCnt := n - 1; deletions := if n =? 1 then 1 else 0 |}).
Proof.
  intros Hn. assert (Hlt : (0 <? n) = true) by lia. cbn. unfold try_again. rewrite Hlt. cbn.
  induction k as [|k IH]; cbn.
  - rewrite Z.eqb_refl. cbn. destruct (n =? 1) eqn:E; bools; [by subst n|].
    by replace (1 <? n) with true by lia.
  - rewrite andb_false_r. unfold try_again. cbn. rewrite Hlt. exact IH.
Qed.

(** ** A race for the last reference

    The owner of the context makes an object, hands it to another thread, and both drop
    their references: the exchange of the first fails once, the second deletes. *)
Definition ex_race : list (nat * happening) :=
  [ (0, CallCreate); (0, GoOn false); (0, GoOn false) ]%nat.
Definition ex_drop : list (nat * happening) :=
  [ (0, CallFree); (1, CallFree); (0, GoOn false); (1, GoOn false); (1, GoOn false);
    (0, GoOn false); (0, GoOn true); (0, GoOn false); (0, GoOn false); (0, GoOn false) ]%nat.

Fixpoint happen (hs : list (nat * happening)) (st : state) : option state :=
  match hs with
  | [] => Some st
  | (i, h) :: hs =>
      t ← st.1 !! i; '(t', s') ← access h t st.2;
      let st' := (<[i := t']> st.1, s') in
      if Z.of_nat (total st'.1) <=? UINT32_MAX then happen hs st' else None
  end.

Lemma happen_steps hs st st' : happen hs st = Some st' -> rtc counts_step st st'.
Proof.
  revert st. induction hs as [|[i h] hs IH]; intros [ts s]; cbn; [by intros [= ->]|].
  destruct (ts !! i) as [t|] eqn:Hi; cbn; [|done].
  destruct (access h t s) as [[t' s']|] eqn:Ha; cbn; [|done].
  destruct (_ <=? _) eqn:Hr; [|done]. bools. intros Hh%IH.
  eapply rtc_l; [|exact Hh]. split; [by econstructor|done].
Qed.

Lemma no_access_after_delete_witness :
  exists ts s, rtc counts_step (created 1) (ts, s) /\ total ts = 0%nat /\ deletions s = 1%nat.
Proof.
  assert (Hr : rtc counts_step (created 1)
    ([{| owned := 0; at_place := Idle |}; {| owned := 0; at_place := Idle |}],
     {| refCnt := 0; deletions := 1 |})).
  { etrans; [apply (happen_steps ex_race); by vm_compute|].
    etrans; [apply rtc_once; split; [|]|].
    { apply (share_hand_over _ _ 0 1); [done|reflexivity|reflexivity|cbn; lia]. }
    { by vm_compute. }
    apply (happen_steps ex_drop). by vm_compute. }
  eexists _, _. split; [exact Hr|]. split; [by vm_compute|].
  destruct (no_access_after_delete 1 _ _ Hr) as (_ & _ & _ & _ & Hd). apply Hd; [|by vm_compute].
  by intros [|[|]] t [= <-].
Defined.
