(* ===== verification/CSample.v ===== *)
(** * The sample programs of the C API

    [sample/client_main.cpp], [sample/server_main.cpp] and their TCP helpers
    ([test_utils/test_tcp_client.cpp], [test_tcp_server.cpp], [test_tcp_common.cpp]): a client
    and a server that agree on a pre-shared key, connect and exchange data; and the same
    exchange without TLS ([client_main_tcp.cpp], [server_main_tcp.cpp]). Output, clocks and
    waiting have no effect here. A program works on its globals and ends, is still looping
    when its fuel for the loops without a bound is spent, or dies of [std::bad_alloc]. *)
From Stdlib Require Import ZArith Lia Ascii String.
From stdpp Require Import base list fin_maps gmap strings.
From S2P Require Import Prelude Errno Types FileCheck FileCtx Machine.
From S2P Require Import Adaptor Api Conn.
Open Scope Z_scope.

(** ** Constants *)
Definition TEST_MAXLOOPS : Z := 1000.
Definition TEST_READ_RETRY_MAX_CNT : Z := 20000.
Definition NN_OK : Z := 0.
Definition NN_NEW_OBJECT_FAILED : Z := 102.
Definition NN_OOB_LISTEN_SOCKET_ERROR : Z := 124.
Definition NN_OOB_CLIENT_SOCKET_ERROR : Z := 128.
Definition ConnectResp_OK : Z := 0.
Definition OOB_DEFAULT_LISTEN_BACKLOG : Z := 65535.
Definition RW_LEN : Z := 1024.
Definition sizeof_TestTcpConnection : Z := 16.
Definition DATA_BUF_LEN : Z := 4096.
Definition ID_LEN : Z := 11.
Definition PSK_LEN : Z := 14.
Definition g_idPskSha256 : list ascii := bytes "idPskSha256".
Definition g_idPskSha384 : list ascii := bytes "idPskSha384".
Definition g_pskPlainSha256 : list ascii := bytes "pskPlainSha256".
Definition g_pskPlainSha384 : list ascii := bytes "pskPlainSha384".

(** Constants of the socket interface (Linux). *)
Definition AF_INET : Z := 2.
Definition SOCK_STREAM : Z := 1.
Definition SOL_SOCKET : Z := 1.
Definition SO_REUSEADDR : Z := 2.
Definition SO_RCVTIMEO : Z := 20.
Definition IPPROTO_TCP : Z := 6.
Definition TCP_NODELAY : Z := 1.
Definition TCP_SYNCNT : Z := 7.
Definition F_GETFL : Z := 3.
Definition F_SETFL : Z := 4.
Definition O_NONBLOCK : Z := 2048.
Definition EINTR : Z := 4.
Definition POLLIN : Z := 1.
Definition EAGAIN : Z := 11.

(** ** Programs *)

Inductive outcome (A : Type) : Type :=
| Ended (a : A)
| Looping
| BadAlloc.
Arguments Ended {A} a. Arguments Looping {A}. Arguments BadAlloc {A}.

(** [TestTcpConnection]: its address and [mFD] ([mListenPort] is never read). *)
Record TestTcpConnection : Type := mkTcpConnection { conn_at : Z; mFD : Z }.
Definition GetFd (c : TestTcpConnection) : Z := mFD c.

(** [g_client] or [g_server], [g_clientObj] or [g_serverObj], and [g_conn]. *)
Record Globals : Type := mkGlobals { g_ctx : Z; g_obj : Z; g_conn : option TestTcpConnection }.
Definition globals0 : Globals := mkGlobals nullptr nullptr None.
Definition set_g_ctx v (g : Globals) : Globals := mkGlobals v (g_obj g) (g_conn g).
Definition set_g_obj v (g : Globals) : Globals := mkGlobals (g_ctx g) v (g_conn g).
Definition set_g_conn v (g : Globals) : Globals := mkGlobals (g_ctx g) (g_obj g) v.

Definition Prg (A : Type) : Type := Globals -> M (outcome A * Globals).
#[global] Typeclasses Opaque Prg.
#[export] Instance Prg_ret : MRet Prg := fun A a g => mret (Ended a, g).
#[export] Instance Prg_bind : MBind Prg := fun A B f m g w =>
  match m g w with
  | Some ((Ended a, g'), w') => f a g' w'
  | Some ((Looping, g'), w') => Some ((Looping, g'), w')
  | Some ((BadAlloc, g'), w') => Some ((BadAlloc, g'), w')
  | None => None
  end.

Definition call {A} (m : M A) : Prg A := fun g => a ← m; mret (Ended a, g).
Definition globals : Prg Globals := fun g => mret (Ended g, g).
Definition put_globals (f : Globals -> Globals) : Prg unit := fun g => mret (Ended tt, f g).
Definition looping {A} : Prg A := fun g => mret (Looping, g).

(** ** test_tcp_common.cpp *)

(** [std::stringstream >> uint16_t] (libstdc++): blanks, a sign, digits; a negative number
    wraps around. The number and what is left. *)
Definition blank (c : ascii) : bool :=
  let n := N_of_ascii c in ((n =? 32) || ((9 <=? n) && (n <=? 13)))%N.
Definition digit (c : ascii) : option Z :=
  let n := N_of_ascii c in
  if ((48 <=? n) && (n <=? 57))%N then Some (Z.of_N n - 48) else None.
Fixpoint skip_blanks (s : string) : string :=
  match s with
  | String c s' => if blank c then skip_blanks s' else s
  | EmptyString => s
  end.
Fixpoint get_digits (acc : Z) (any : bool) (s : string) : option (Z * string) :=
  match s with
  | String c s' =>
      match digit c with
      | Some d => get_digits (acc * 10 + d) true s'
      | None => if any then Some (acc, s) else None
      end
  | EmptyString => if any then Some (acc, s) else None
  end.
Definition get_number (negative : bool) (s : string) : option (Z * string) :=
  match get_digits 0 false s with
  | Some (v, rest) =>
      return_if 65535 <? v with None ;;
      Some (if negative then wrap16 (- v) else v, rest)
  | None => None
  end.
Definition get_u16 (s : string) : option (Z * string) :=
  match skip_blanks s with
  | String "-" s' => get_number true s'
  | String "+" s' => get_number false s'
  | s' => get_number false s'
  end.

(** The code, and the port when it was written. *)
Definition ParsePort (portStr : string) : Z * option Z :=
  match get_u16 portStr with
  | Some (port, EmptyString) => (SCF_SUCCESS, Some port)
  | Some (port, _) => (SCF_ERROR, Some port)
  | None => (SCF_ERROR, None)
  end.

Section csample.
Context `{Library} {A : TlsAdaptor} `{SecureC} `{Decryptor}.

(** [fd] on return. *)
Definition SafeCloseFd (fd : Z) : M Z :=
  return_if fd <? 0 with (mret fd) ;;
  _ ← lib sys_close [AInt fd];
  mret (-1).

(** A stub. *)
Definition SetNonBlock (fd : Z) : M Z := mret NN_OK.

(** ** test_tcp_client.cpp *)

(** The loop of [ConnectWithFd]: it goes round again only while [errno] is [EINTR]. [None]:
    not connected; [Some]: the code to return at once. *)
Fixpoint connect_loop (fuel : nat) (ip : string) (port tmpFD : Z) : Prg (option (Z * Z)) :=
  match fuel with
  | O => looping
  | S fuel =>
      rc ← call (lib sys_connect [AInt tmpFD; AStr ip; AInt (wrap16 port)]);
      r ← (if rc =? 0 then
             result ← call (lib sys_recv [AInt tmpFD; AStr "connectStatus"; AInt 2; AInt 0]);
             connectStatus ← call lib_out;
             if (0 <? result) && (connectStatus =? ConnectResp_OK) then
               nb ← call (SetNonBlock tmpFD);
               return_if negb (nb =? NN_OK)
                 with (_ ← call (SafeCloseFd tmpFD);
                       mret (Some (NN_OOB_CLIENT_SOCKET_ERROR, -1))) ;;
               mret (Some (NN_OK, tmpFD))
             else mret None
           else mret None);
      match r with
      | Some _ => mret r
      | None =>
          errno ← call lib_out;
          return_if errno =? EINTR with (connect_loop fuel ip port tmpFD) ;;
          mret None
      end
  end.

(** The code and [fd]. *)
Definition ConnectWithFd (fuel : nat) (ip : string) (port fd : Z) : Prg (Z * Z) :=
  tmpFD ← call (lib sys_socket [AInt AF_INET; AInt SOCK_STREAM; AInt 0]);
  return_if tmpFD <? 0 with (mret (NN_OOB_CLIENT_SOCKET_ERROR, fd)) ;;
  _ ← call (lib sys_setsockopt [AInt tmpFD; AInt IPPROTO_TCP; AInt TCP_NODELAY; AInt 1]);
  _ ← call (lib sys_setsockopt [AInt tmpFD; AInt IPPROTO_TCP; AInt TCP_SYNCNT; AInt 1]);
  _ ← call (lib sys_setsockopt [AInt tmpFD; AInt SOL_SOCKET; AInt SO_RCVTIMEO; AInt 1000; AInt 0]);
  r ← connect_loop fuel ip port tmpFD;
  match r with
  | Some (ret, fd') => mret (ret, if ret =? NN_OK then fd' else fd)
  | None =>
      _ ← call (SafeCloseFd tmpFD);
      mret (NN_OOB_CLIENT_SOCKET_ERROR, fd)
  end.

(** [TestTcpClient::Connect] with [g_conn]. *)
Definition TcpClient_Connect (fuel : nat) (ip : string) (port : Z) : Prg Z :=
  r ← ConnectWithFd fuel ip port (-1);
  let '(result, fd) := r in
  return_if negb (result =? NN_OK) with (mret result) ;;
  p ← call (lib op_new [AInt sizeof_TestTcpConnection]);
  return_if p =? nullptr
    with (_ ← put_globals (set_g_conn None);
          _ ← call (SafeCloseFd fd);
          mret NN_NEW_OBJECT_FAILED) ;;
  _ ← put_globals (set_g_conn (Some (mkTcpConnection p fd)));
  mret NN_OK.

(** ** test_tcp_server.cpp *)

Record TestTcpServer : Type := mkServer {
  mListenIP : string;
  mListenPort : Z;
  mListenFD : Z;
  mAcceptFD : Z;
  mThreadStarted : bool;
  mAccepted : bool;
  mNeedStop : bool;
  mStarted : bool
}.
Definition new_server (ip : string) (port : Z) : TestTcpServer :=
  mkServer ip port (-1) (-1) false false false false.
Definition set_mListenFD v (t : TestTcpServer) : TestTcpServer :=
  mkServer (mListenIP t) (mListenPort t) v (mAcceptFD t) (mThreadStarted t) (mAccepted t)
    (mNeedStop t) (mStarted t).
Definition set_accepted fd (t : TestTcpServer) : TestTcpServer :=
  mkServer (mListenIP t) (mListenPort t) (mListenFD t) fd (mThreadStarted t) true
    (mNeedStop t) (mStarted t).
Definition set_mThreadStarted b (t : TestTcpServer) : TestTcpServer :=
  mkServer (mListenIP t) (mListenPort t) (mListenFD t) (mAcceptFD t) b (mAccepted t)
    (mNeedStop t) (mStarted t).
Definition set_mStarted b (t : TestTcpServer) : TestTcpServer :=
  mkServer (mListenIP t) (mListenPort t) (mListenFD t) (mAcceptFD t) (mThreadStarted t)
    (mAccepted t) (mNeedStop t) b.
Definition set_mNeedStop b (t : TestTcpServer) : TestTcpServer :=
  mkServer (mListenIP t) (mListenPort t) (mListenFD t) (mAcceptFD t) (mThreadStarted t)
    (mAccepted t) b (mStarted t).

(** The code and [socketFD]. *)
Definition CreateAndConfigSocket (socketFD : Z) : M (Z * Z) :=
  tmpFD ← lib sys_socket [AInt AF_INET; AInt SOCK_STREAM; AInt 0];
  return_if tmpFD <? 0 with (mret (NN_OOB_LISTEN_SOCKET_ERROR, socketFD)) ;;
  value ← lib sys_fcntl [AInt tmpFD; AInt F_GETFL; AInt 0];
  return_if value =? -1
    with (_ ← SafeCloseFd tmpFD; mret (NN_OOB_LISTEN_SOCKET_ERROR, socketFD)) ;;
  rc ← lib sys_fcntl [AInt tmpFD; AInt F_SETFL; AInt (Z.lor value O_NONBLOCK)];
  return_if rc =? -1
    with (_ ← SafeCloseFd tmpFD; mret (NN_OOB_LISTEN_SOCKET_ERROR, socketFD)) ;;
  ret ← lib sys_setsockopt [AInt tmpFD; AInt SOL_SOCKET; AInt SO_REUSEADDR; AInt 1];
  return_if ret <? 0
    with (_ ← SafeCloseFd tmpFD; mret (NN_OOB_LISTEN_SOCKET_ERROR, socketFD)) ;;
  mret (NN_OK, tmpFD).

Definition BindAndListenCommon (t : TestTcpServer) (socketFD : Z) : M Z :=
  ret ← lib sys_bind [AInt socketFD; AStr (mListenIP t); AInt (mListenPort t)];
  return_if ret <? 0 with (_ ← SafeCloseFd socketFD; mret NN_OOB_LISTEN_SOCKET_ERROR) ;;
  ret ← lib sys_listen [AInt socketFD; AInt OOB_DEFAULT_LISTEN_BACKLOG];
  return_if ret <? 0 with (_ ← SafeCloseFd socketFD; mret NN_OOB_LISTEN_SOCKET_ERROR) ;;
  mret NN_OK.

Definition CreateAndStartSocket (t : TestTcpServer) : M (Z * TestTcpServer) :=
  r ← CreateAndConfigSocket 0;
  let '(ret, socketFD) := r in
  return_if negb (ret =? NN_OK) with (mret (ret, t)) ;;
  ret ← BindAndListenCommon t socketFD;
  mret (ret, if ret =? NN_OK then set_mListenFD socketFD t else t).

Definition DealConnectInThread (fd : Z) (t : TestTcpServer) : M TestTcpServer :=
  _ ← lib sys_send [AInt fd; AInt ConnectResp_OK; AInt 2; AInt 0];
  nb ← SetNonBlock fd;
  return_if negb (nb =? NN_OK) with (_ ← SafeCloseFd fd; mret t) ;;
  mret (set_accepted fd t).

(** One round of the loop of [RunInThread]; [false]: the thread ends. *)
Definition accept_round (t : TestTcpServer) : M (bool * TestTcpServer) :=
  return_if mNeedStop t with (mret (false, t)) ;;
  rc ← lib sys_poll [AInt (mListenFD t); AInt POLLIN; AInt 500];
  errno ← lib_out;
  return_if (rc <? 0) && negb (errno =? EINTR) with (mret (false, t)) ;;
  return_if rc =? 0 with (mret (true, t)) ;;
  fd ← lib sys_accept [AInt (mListenFD t)];
  return_if fd <? 0 with (mret (true, t)) ;;
  _ ← lib sys_setsockopt [AInt fd; AInt IPPROTO_TCP; AInt TCP_NODELAY; AInt 1];
  t ← DealConnectInThread fd t;
  mret (true, t).

(** The accepting thread runs beside the main one, which looks at it only where it waits:
    there it makes as many rounds as the scheduler says. *)
Fixpoint rounds (n : nat) (alive : bool) (t : TestTcpServer) : M (bool * TestTcpServer) :=
  match n with
  | O => mret (alive, t)
  | S n =>
      return_if negb alive with (mret (alive, t)) ;;
      r ← accept_round t;
      rounds n r.1 r.2
  end.

Context (scheduler : History -> nat).
Definition wait (alive : bool) (t : TestTcpServer) : M (bool * TestTcpServer) :=
  h ← gets w_log;
  rounds (scheduler h) alive t.

(** The code, whether the thread is alive, and the server. *)
Definition TcpServer_Start (t : TestTcpServer) : M (Z * bool * TestTcpServer) :=
  return_if mStarted t with (mret (NN_OK, true, t)) ;;
  r ← CreateAndStartSocket t;
  let '(ret, t) := r in
  return_if negb (ret =? NN_OK) with (mret (ret, false, t)) ;;
  mret (NN_OK, true, set_mStarted true (set_mThreadStarted true t)).

Fixpoint wait_accepted (n : nat) (alive : bool) (t : TestTcpServer) : M (bool * TestTcpServer) :=
  match n with
  | O => mret (alive, t)
  | S n =>
      return_if mAccepted t with (mret (alive, t)) ;;
      r ← wait alive t;
      wait_accepted n r.1 r.2
  end.

(** The descriptor, and the thread and the server after the wait. *)
Definition GetAcceptFd (alive : bool) (t : TestTcpServer) : M (Z * bool * TestTcpServer) :=
  r ← wait_accepted (Z.to_nat TEST_READ_RETRY_MAX_CNT) alive t;
  let '(alive, t) := r in
  mret (mAcceptFD t, alive, t).

(** The join waits for the round under way; the next one sees [mNeedStop]. *)
Definition TcpServer_Stop (alive : bool) (t : TestTcpServer) : M TestTcpServer :=
  return_if negb (mStarted t) with (mret t) ;;
  r ← wait alive t;
  let '(alive, t) := r in
  let t := set_mNeedStop true t in
  r ← rounds 1 alive t;
  let '(_, t) := r in
  fd ← SafeCloseFd (mListenFD t);
  mret (set_mStarted false (set_mListenFD fd t)).

(** ** The handshake and the data (both mains) *)

(** [while (... && err == SCF_SSL_ERR_WANT_WRITE)]: the first code that is not that. *)
Fixpoint spin_want_write (fuel : nat) (method : M Z) : Prg Z :=
  match fuel with
  | O => looping
  | S fuel =>
      ret ← call method;
      return_if negb (ret =? SCF_SUCCESS) && (ret =? SCF_SSL_ERR_WANT_WRITE)
        with (spin_want_write fuel method) ;;
      mret ret
  end.

Fixpoint bare_rounds (n : nat) (fuel : nat) (method : M Z) (want abortCtr : Z) : Prg Z :=
  match n with
  | O => looping
  | S n =>
      ret ← spin_want_write fuel method;
      let failed := negb (ret =? SCF_SUCCESS) && negb (ret =? SCF_SSL_ERR_WANT_READ) in
      return_if negb (want =? SCF_SUCCESS) && (ret =? want) with (mret 0) ;;
      return_if failed with (mret 0) ;;
      let abortCtr := abortCtr + 1 in
      return_if abortCtr =? TEST_MAXLOOPS with (mret 0) ;;
      return_if negb (ret =? SCF_SUCCESS) with (bare_rounds n fuel method want abortCtr) ;;
      mret 1
  end.

Definition CreateClientBareSslConnection (fuel : nat) (clientSSL want : Z) : Prg Z :=
  return_if clientSSL =? nullptr with (mret 0) ;;
  bare_rounds (Z.to_nat TEST_MAXLOOPS) fuel (SCF_Connect clientSSL) want 0.
Definition CreateServerBareSslConnection (fuel : nat) (serverSSL want : Z) : Prg Z :=
  bare_rounds (Z.to_nat TEST_MAXLOOPS) fuel (SCF_Accept serverSSL) want 0.

(** [SCFRead]: again while nothing was read; only failures are counted. *)
Fixpoint read_rounds (fuel : nat) (obj data dataLen ret readLen retryCnt : Z) : Prg (Z * Z) :=
  if (readLen =? 0) && (retryCnt <? TEST_READ_RETRY_MAX_CNT) then
    match fuel with
    | O => looping
    | S fuel =>
        r ← call (SCF_Read obj data dataLen true);
        let '(ret, n) := r in
        let readLen := default readLen n in
        read_rounds fuel obj data dataLen ret readLen
          (if negb (ret =? SCF_SUCCESS) then retryCnt + 1 else retryCnt)
    end
  else mret (ret, readLen).
Definition SCFRead (fuel : nat) (obj data dataLen : Z) : Prg (Z * Z) :=
  read_rounds fuel obj data dataLen SCF_ERROR 0 0.

(** [new uint8_t[n]]. *)
Definition new_array (n : Z) : Prg Z := fun g =>
  p ← lib op_new [AInt n];
  mret (if p =? nullptr then BadAlloc else Ended p, g).
Definition delete_array (p : Z) : Prg unit := call (_ ← lib op_delete [AInt p]; mret tt).

Definition ClientSSLReadWrite (fuel : nat) (rwLen : Z) : Prg unit :=
  g ← globals;
  dataCW ← new_array DATA_BUF_LEN;
  dataCR ← new_array DATA_BUF_LEN;
  let dataCLen := Z.min DATA_BUF_LEN rwLen in
  _ ← SCFRead fuel (g_obj g) dataCR DATA_BUF_LEN;
  _ ← call (SCF_Write (g_obj g) dataCW dataCLen true);
  _ ← delete_array dataCW;
  delete_array dataCR.

Definition ServerSslReadWrite (fuel : nat) (rwLen : Z) : Prg unit :=
  g ← globals;
  dataSW ← new_array DATA_BUF_LEN;
  dataSR ← new_array DATA_BUF_LEN;
  let dataSLen := Z.min DATA_BUF_LEN rwLen in
  _ ← call (SCF_Write (g_obj g) dataSW dataSLen true);
  _ ← SCFRead fuel (g_obj g) dataSR DATA_BUF_LEN;
  _ ← delete_array dataSW;
  delete_array dataSR.

Fixpoint repeat_io (n : nat) (io : Prg unit) : Prg unit :=
  match n with O => mret tt | S n => _ ← io; repeat_io n io end.

(** ** Plain TCP *)

(** The loop of [Send]; at least a byte goes each time, so [bufLen] rounds are enough. *)
Fixpoint send_loop (fuel : nat) (fd buf bufLen totalSent writeLen : Z) : Prg (Z * Z) :=
  if totalSent <? bufLen then
    match fuel with
    | O => looping
    | S fuel =>
        writeLen ← call (lib sys_send [AInt fd; AInt (buf + totalSent);
                                       AInt (bufLen - totalSent); AInt 0]);
        return_if writeLen <=? 0 with (mret (NN_OOB_CLIENT_SOCKET_ERROR, writeLen)) ;;
        send_loop fuel fd buf bufLen (totalSent + writeLen) writeLen
    end
  else mret (NN_OK, writeLen).

(** The code and [writeLen]. *)
Definition TcpClient_Send (fd buf bufLen writeLen : Z) : Prg (Z * Z) :=
  send_loop (Z.to_nat bufLen) fd buf bufLen 0 writeLen.
Definition TcpServer_Send (fd buf bufLen writeLen : Z) : Prg (Z * Z) :=
  send_loop (Z.to_nat bufLen) fd buf bufLen 0 writeLen.

(** The loop of [Recv]: a round reads a byte at least, or counts. *)
Fixpoint recv_loop (fuel : nat) (fd buf bufLen ret readLen retryCnt : Z) : Prg (Z * Z) :=
  if (readLen <? bufLen) && (retryCnt <? TEST_READ_RETRY_MAX_CNT) then
    match fuel with
    | O => looping
    | S fuel =>
        currentRead ← call (lib sys_recv [AInt fd; AInt (buf + readLen);
                                          AInt (bufLen - readLen); AInt 0]);
        return_if currentRead =? 0 with (mret (NN_OOB_CLIENT_SOCKET_ERROR, readLen)) ;;
        if currentRead <? 0 then
          errno ← call lib_out;
          return_if negb (errno =? EAGAIN) with (mret (NN_OOB_CLIENT_SOCKET_ERROR, readLen)) ;;
          recv_loop fuel fd buf bufLen ret readLen (retryCnt + 1)
        else recv_loop fuel fd buf bufLen NN_OK (readLen + currentRead) retryCnt
    end
  else mret (ret, readLen).

(** The code and [readLen]. *)
Definition TcpClient_Recv (fd buf bufLen : Z) : Prg (Z * Z) :=
  recv_loop (Z.to_nat (bufLen + TEST_READ_RETRY_MAX_CNT)) fd buf bufLen
    NN_OOB_CLIENT_SOCKET_ERROR 0 0.
Definition TcpServer_Recv (fd buf bufLen : Z) : Prg (Z * Z) :=
  recv_loop (Z.to_nat (bufLen + TEST_READ_RETRY_MAX_CNT)) fd buf bufLen
    NN_OOB_CLIENT_SOCKET_ERROR 0 0.

Definition ClientTcpReadWrite (fd rwLen : Z) : Prg unit :=
  dataCW ← new_array DATA_BUF_LEN;
  dataCR ← new_array DATA_BUF_LEN;
  let dataCLen := Z.min DATA_BUF_LEN rwLen in
  _ ← TcpClient_Recv fd dataCR DATA_BUF_LEN;
  _ ← TcpClient_Send fd dataCW dataCLen 0;
  _ ← delete_array dataCW;
  delete_array dataCR.

Definition ServerTcpReadWrite (fd rwLen : Z) : Prg unit :=
  dataSW ← new_array DATA_BUF_LEN;
  dataSR ← new_array DATA_BUF_LEN;
  let dataSLen := Z.min DATA_BUF_LEN rwLen in
  _ ← TcpServer_Send fd dataSW dataSLen 0;
  _ ← TcpServer_Recv fd dataSR DATA_BUF_LEN;
  _ ← delete_array dataSW;
  delete_array dataSR.

(** ** The pre-shared key callbacks *)

(** The code and [*session] when it was written; [session] is not null. *)
Definition TEST_PskCreateSession (psk : option (list ascii)) (pskLen cipherSuite : Z)
    : M (Z * option Z) :=
  sess ← SCF_SessionNew;
  return_if sess =? nullptr with (mret (SCF_ERRNO_MEM_ALLOC, None)) ;;
  r ← SCF_SessionSetMasterKey sess psk pskLen false;
  let '(ret, _) := r in
  return_if negb (ret =? SCF_SUCCESS) with (_ ← SCF_SessionFree sess; mret (ret, None)) ;;
  ret ← SCF_SessionSetCipher sess cipherSuite 2;
  return_if negb (ret =? SCF_SUCCESS) with (_ ← SCF_SessionFree sess; mret (ret, None)) ;;
  ret ← SCF_SessionSetProtocolVersion sess (Some SCF_SSL_VERSION_TLS13_STR);
  return_if negb (ret =? SCF_SUCCESS) with (_ ← SCF_SessionFree sess; mret (ret, None)) ;;
  mret (ret, Some sess).

Definition tls13Aes128GcmSha256Id : list ascii := [ascii_of_N 19; ascii_of_N 1].
Definition tls13Aes256GcmSha384Id : list ascii := [ascii_of_N 19; ascii_of_N 2].

(** [outs]: none of [id], [idLen] and [session] is null. The code, [*id] and [*idLen] when
    they were written, and [*session] when it was. *)
Definition TEST_SetPskUseSessionImpl (g_sslCipherSuite obj hashAlgo : Z) (outs : bool)
    : M (Z * option (list ascii * Z) * option Z) :=
  return_if (obj =? nullptr) || negb outs with (mret (SCF_ERRNO_NULL_INPUT, None, None)) ;;
  let hashAlgo :=
    if hashAlgo =? SCF_CRYPT_MD_UNKNOWN then
      if g_sslCipherSuite =? SCF_SSL_AES_256_GCM_SHA384
      then SCF_CRYPT_MD_SHA384 else SCF_CRYPT_MD_SHA256
    else hashAlgo in
  if hashAlgo =? SCF_CRYPT_MD_SHA256 then
    cipherSuite ← SCF_CipherFind obj (Some tls13Aes128GcmSha256Id);
    r ← TEST_PskCreateSession (Some g_pskPlainSha256) PSK_LEN cipherSuite;
    mret (r.1, Some (g_idPskSha256, ID_LEN), r.2)
  else if hashAlgo =? SCF_CRYPT_MD_SHA384 then
    cipherSuite ← SCF_CipherFind obj (Some tls13Aes256GcmSha384Id);
    r ← TEST_PskCreateSession (Some g_pskPlainSha384) PSK_LEN cipherSuite;
    mret (r.1, Some (g_idPskSha384, ID_LEN), r.2)
  else mret (SCF_SSL_ERR_PSK_CB_HASH, None, None).

Inductive TestPskIDType : Type :=
| TEST_PSK_ID_MISMATCH
| TEST_PSK_ID_PLAIN_SHA256
| TEST_PSK_ID_PLAIN_SHA384.

(** [memcmp] of the first [n] bytes. *)
Definition same_bytes (a b : list ascii) (n : Z) : bool :=
  bool_decide (take (Z.to_nat n) a = take (Z.to_nat n) b).

Definition TEST_SetGetPskAuthType (identity : list ascii) (identityLen : Z) : TestPskIDType :=
  return_if (identityLen =? ID_LEN) && same_bytes identity g_idPskSha256 identityLen
    with TEST_PSK_ID_PLAIN_SHA256 ;;
  return_if (identityLen =? ID_LEN) && same_bytes identity g_idPskSha384 identityLen
    with TEST_PSK_ID_PLAIN_SHA384 ;;
  TEST_PSK_ID_MISMATCH.

Definition TEST_SetPskFindSessionImpl (obj : Z) (identity : option (list ascii))
    (identityLen : Z) (session : bool) : M (Z * option Z) :=
  match identity with
  | None => mret (SCF_ERRNO_NULL_INPUT, None)
  | Some id =>
      return_if (obj =? nullptr) || (identityLen =? 0) || negb session
        with (mret (SCF_ERRNO_NULL_INPUT, None)) ;;
      match TEST_SetGetPskAuthType id identityLen with
      | TEST_PSK_ID_PLAIN_SHA256 =>
          cipherSuite ← SCF_CipherFind obj (Some tls13Aes128GcmSha256Id);
          TEST_PskCreateSession (Some g_pskPlainSha256) PSK_LEN cipherSuite
      | TEST_PSK_ID_PLAIN_SHA384 =>
          cipherSuite ← SCF_CipherFind obj (Some tls13Aes256GcmSha384Id);
          TEST_PskCreateSession (Some g_pskPlainSha384) PSK_LEN cipherSuite
      | TEST_PSK_ID_MISMATCH => mret (SCF_SSL_ERR_PSK_MISMATCH, None)
      end
  end.

(** ** The programs *)

(** [InitClient] and [InitServer] differ in the role. *)
Definition init_sample (role flag : Z) (settings : string) : Prg bool :=
  ret ← call (SCF_Init flag (Some settings));
  return_if negb (ret =? SCF_SUCCESS) with (mret false) ;;
  ctx ← call SCF_CreatePolicyCtx;
  _ ← put_globals (set_g_ctx ctx);
  return_if ctx =? nullptr with (_ ← call SCF_DeInit; mret false) ;;
  ret ← call (SCF_SetPolicy ctx role SCF_VERIFY_DEFAULT SCF_POLICY_HIGH);
  return_if negb (ret =? SCF_SUCCESS)
    with (_ ← call (SCF_FreePolicyCtx ctx);
          _ ← put_globals (set_g_ctx nullptr);
          _ ← call SCF_DeInit;
          mret false) ;;
  mret true.
Definition InitClient := init_sample SCF_ROLE_CLIENT.
Definition InitServer := init_sample SCF_ROLE_SERVER.

(** [delete g_conn]: the destructor of [TestTcpConnection] closes nothing. *)
Definition delete_conn : Prg unit :=
  g ← globals;
  _ ← match g_conn g with
      | Some c => call (_ ← lib op_delete [AInt (conn_at c)]; mret tt)
      | None => mret tt
      end;
  put_globals (set_g_conn None).

(** [FreeGlobalConnAndClientObj] and [FreeGlobalConnAndServerObj]. *)
Definition free_globals : Prg unit :=
  _ ← delete_conn;
  g ← globals;
  obj ← call (SCF_FreePolicyObj (g_obj g));
  _ ← put_globals (set_g_obj obj);
  ctx ← call (SCF_FreePolicyCtx (g_ctx g));
  put_globals (set_g_ctx ctx).

(** The cipher suites, the version and the callback, which is what the two differ in, and
    the object. *)
Definition configure_sample (suites : list Z) (set_callback : Z -> M Z) : Prg bool :=
  g ← globals;
  ret ← call (SCF_SetCipherSuites (g_ctx g) (Some suites));
  return_if negb (ret =? SCF_SUCCESS) with (mret false) ;;
  ret ← call (SCF_SetProtocolVersion (g_ctx g) SCF_SSL_VERSION_TLS13 SCF_SSL_VERSION_TLS13 None);
  return_if negb (ret =? SCF_SUCCESS) with (mret false) ;;
  ret ← call (set_callback (g_ctx g));
  return_if negb (ret =? SCF_SUCCESS) with (mret false) ;;
  obj ← call (SCF_CreatePolicyObj (g_ctx g));
  _ ← put_globals (set_g_obj obj);
  return_if obj =? nullptr with (mret false) ;;
  mret true.

(** The address of a callback. *)
Context (callback : Z).

Definition TestClient (fuel : nat) (suites : list Z) (serverIp : string) (port : Z) : Prg bool :=
  ok ← configure_sample suites (fun ctx => SCF_SetPskUseSessionCallback ctx callback);
  return_if negb ok with (mret false) ;;
  ret ← TcpClient_Connect fuel serverIp port;
  return_if negb (ret =? NN_OK) with (mret false) ;;
  g ← globals;
  let fdClient := from_option GetFd (-1) (g_conn g) in
  return_if fdClient <? 0 with (mret false) ;;
  ret ← call (SCF_SetFd (g_obj g) fdClient);
  return_if negb (ret =? SCF_SUCCESS) with (mret false) ;;
  ret ← CreateClientBareSslConnection fuel (g_obj g) SCF_SUCCESS;
  return_if negb (ret =? 1) with (mret false) ;;
  _ ← ClientSSLReadWrite fuel RW_LEN;
  _ ← repeat_io (Z.to_nat TEST_MAXLOOPS) (ClientSSLReadWrite fuel RW_LEN);
  mret true.

(** [TestServer] from the start of the TCP server on; the thread and the server at the
    return, where the destructor stops them. *)
Definition serve_tcp (fuel : nat) (t : TestTcpServer) : Prg (bool * (bool * TestTcpServer)) :=
  r ← call (TcpServer_Start t);
  let '(ret, alive, t) := r in
  return_if negb (ret =? NN_OK) with (mret (false, (alive, t))) ;;
  r ← call (GetAcceptFd alive t);
  let '(fdServer, alive, t) := r in
  return_if fdServer <? 0 with (mret (false, (alive, t))) ;;
  g ← globals;
  ret ← call (SCF_SetFd (g_obj g) fdServer);
  return_if negb (ret =? SCF_SUCCESS) with (mret (false, (alive, t))) ;;
  ret ← CreateServerBareSslConnection fuel (g_obj g) SCF_SUCCESS;
  return_if negb (ret =? 1) with (mret (false, (alive, t))) ;;
  _ ← ServerSslReadWrite fuel RW_LEN;
  _ ← repeat_io (Z.to_nat TEST_MAXLOOPS) (ServerSslReadWrite fuel RW_LEN);
  mret (true, (alive, t)).

Definition TestServer (fuel : nat) (suites : list Z) (serverIp : string) (port : Z) : Prg bool :=
  ok ← configure_sample suites (fun ctx => SCF_SetPskFindSessionCallback ctx callback);
  return_if negb ok with (mret false) ;;
  r ← serve_tcp fuel (new_server serverIp port);
  let '(ok, (alive, t)) := r in
  _ ← call (TcpServer_Stop alive t);
  mret ok.

(** [TestTcpClient] and [TestTcpServer] of the programs without TLS. *)
Definition run_TestTcpClient (fuel : nat) (serverIp : string) (port : Z) : Prg bool :=
  ret ← TcpClient_Connect fuel serverIp port;
  return_if negb (ret =? NN_OK) with (mret false) ;;
  g ← globals;
  let fdClient := from_option GetFd (-1) (g_conn g) in
  return_if fdClient <? 0 with (mret false) ;;
  _ ← ClientTcpReadWrite fdClient RW_LEN;
  _ ← repeat_io (Z.to_nat TEST_MAXLOOPS) (ClientTcpReadWrite fdClient RW_LEN);
  mret true.

(** Up to the destructor of the server. *)
Definition exchange_tcp (t : TestTcpServer) : Prg (bool * (bool * TestTcpServer)) :=
  r ← call (TcpServer_Start t);
  let '(ret, alive, t) := r in
  return_if negb (ret =? NN_OK) with (mret (false, (alive, t))) ;;
  r ← call (GetAcceptFd alive t);
  let '(fdServer, alive, t) := r in
  return_if fdServer <? 0 with (mret (false, (alive, t))) ;;
  _ ← ServerTcpReadWrite fdServer RW_LEN;
  _ ← repeat_io (Z.to_nat TEST_MAXLOOPS) (ServerTcpReadWrite fdServer RW_LEN);
  mret (true, (alive, t)).

Definition run_TestTcpServer (serverIp : string) (port : Z) : Prg bool :=
  r ← exchange_tcp (new_server serverIp port);
  let '(ok, (alive, t)) := r in
  _ ← call (TcpServer_Stop alive t);
  mret ok.

(** Both mains; [argv] after the name of the program. *)
Definition sample_main (init : Z -> string -> Prg bool)
    (test : list Z -> string -> Z -> Prg bool) (argv : list string) : Prg Z :=
  match argv with
  | [tlsFlag; libPath; serverIp; portStr] =>
      match ParsePort portStr with
      | (ret, Some port) =>
          return_if negb (ret =? SCF_SUCCESS) with (mret 1) ;;
          return_if negb (streq tlsFlag "openssl") with (mret 1) ;;
          ok ← init SCF_INIT_FLAG_OPENSSL libPath;
          return_if negb ok with (mret 0) ;;
          _ ← test [SCF_SSL_AES_256_GCM_SHA384] serverIp port;
          _ ← free_globals;
          _ ← call SCF_DeInit;
          mret 0
      | _ => mret 1
      end
  | _ => mret 1
  end.

Definition client_main (fuel : nat) : list string -> Prg Z :=
  sample_main InitClient (TestClient fuel).
Definition server_main (fuel : nat) : list string -> Prg Z :=
  sample_main InitServer (TestServer fuel).

Definition tcp_main (test : string -> Z -> Prg bool) (argv : list string) : Prg Z :=
  match argv with
  | [serverIp; portStr] =>
      match ParsePort portStr with
      | (ret, Some port) =>
          return_if negb (ret =? SCF_SUCCESS) with (mret 1) ;;
          _ ← test serverIp port;
          _ ← delete_conn;
          mret 0
      | _ => mret 1
      end
  | _ => mret 1
  end.
Definition client_tcp_main (fuel : nat) : list string -> Prg Z := tcp_main (run_TestTcpClient fuel).
Definition server_tcp_main : list string -> Prg Z := tcp_main run_TestTcpServer.
End csample.
