(* ===== verification/CSampleSafe.v ===== *)
(** * Runs of the samples of the C API

    Over any adaptor that keeps its contract: the programs touch no freed memory, end in a
    [Polite] environment, and what is left is what their globals name ([pw]: [wp] for a
    program; [still]: a part that creates and frees nothing; [owns]: the heap of a program). *)
From Stdlib Require Import ZArith Lia Ascii String.
From stdpp Require Import base list fin_maps gmap strings.
From S2P Require Import Prelude Errno Types FileCheck FileCtx Machine OpenSSL OpenSSLCfg.
From S2P Require Import Adaptor Api Conn Lifecycle Resources ConnSafe Local CSample.
Open Scope Z_scope.

(** ** An environment in which the programs end *)
Section polite.
Context `{Library} {A : TlsAdaptor}.

(** The hypotheses under which every loop without a bound is left: the handshake does not ask
    for a write, a successful read brings a byte, no signal interrupts the connection attempt,
    and there is memory. *)
Record Polite (fuel : nat) : Prop := {
  pl_fuel : (Z.to_nat TEST_READ_RETRY_MAX_CNT < fuel)%nat;
  pl_connect o w r w' : a_Connect o w = Some (r, w') -> r <> SCF_SSL_ERR_WANT_WRITE;
  pl_accept o w r w' : a_Accept o w = Some (r, w') -> r <> SCF_SSL_ERR_WANT_WRITE;
  pl_read o d n w r w' : a_Read o d n w = Some ((SCF_SUCCESS, r), w') -> exists k, r = Some k /\ k <> 0;
  pl_errno h : out_value h <> EINTR;
  pl_new h args : answer h op_new args <> nullptr
}.
End polite.

(** ** Runs of a program *)
Section runs.
Context `{Library} {A : TlsAdaptor} `{!TlsAdaptorSafe A} `{SecureC} `{Decryptor}.
Context (fuel : nat).

(** The program does not fault, and where it ends [Q] holds; it ends if the environment is
    polite. *)
Definition pw {X} (m : Prg X) (Q : X -> Globals -> World -> Prop) (g : Globals) (w : World) : Prop :=
  wp (m g) (fun r w' => match r.1 with Ended x => Q x r.2 w' | _ => ~ Polite fuel end) w.

Lemma pw_ret {X} (x : X) Q g w : Q x g w -> pw (mret x) Q g w.
Proof. intros HQ. by apply wp_ret. Qed.

Lemma pw_bind {X Y} (m : Prg X) (f : X -> Prg Y) Q g w :
  pw m (fun x g' w' => pw (f x) Q g' w') g w -> pw (m ≫= f) Q g w.
Proof.
  unfold pw, wp. unfold mbind, Prg_bind. destruct (m g w) as [[[[x| |] g'] w']|]; cbn; done.
Qed.

Lemma pw_mono {X} (m : Prg X) (Q Q' : X -> Globals -> World -> Prop) g w :
  pw m Q g w -> (forall x g' w', Q x g' w' -> Q' x g' w') -> pw m Q' g w.
Proof. intros Hm HQ. eapply wp_mono; [exact Hm|]. intros [[x| |] g'] w'; cbn; auto. Qed.

Lemma pw_call {X} (m : M X) Q g w : wp m (fun x w' => Q x g w') w -> pw (call m) Q g w.
Proof. intros Hm. apply wp_bind. eapply wp_mono; [exact Hm|]. intros x w' HQ. by apply wp_ret. Qed.

Lemma pw_globals Q g w : Q g g w -> pw globals Q g w.
Proof. intros HQ. by apply wp_ret. Qed.
Lemma pw_put f Q g w : Q tt (f g) w -> pw (put_globals f) Q g w.
Proof. intros HQ. by apply wp_ret. Qed.

Lemma pw_new_array n Q g w :
  (forall p w', life_of w' = life_of w -> Q p g w') -> pw (new_array n) Q g w.
Proof.
  intros HQ. apply wp_bind, wp_lib. intros p Hp. apply wp_ret.
  destruct (p =? nullptr) eqn:E; cbn; [|by apply HQ].
  bools. intros Hpol. subst. by apply (pl_new _ Hpol (w_log w) [AInt n]).
Qed.

(** *** Programs that leave lifetimes alone *)

Lemma ctx_arg_life c w w' : life_of w' = life_of w -> ctx_arg c w -> ctx_arg c w'.
Proof. intros Hl. by apply stable_ctx_arg, life_frame_of. Qed.
Lemma obj_arg_life o w w' : life_of w' = life_of w -> obj_arg o w -> obj_arg o w'.
Proof. intros Hl. by apply stable_obj_arg, life_frame_of. Qed.

(** The handles in the globals. *)
Definition handles (c o : Z) (g : Globals) (w : World) : Prop :=
  g_ctx g = c /\ g_obj g = o /\ ctx_arg c w /\ obj_arg o w.

Definition mild {X} (c o : Z) (m : M X) : Prop :=
  forall w, ctx_arg c w -> obj_arg o w -> wp m (fun _ w' => life_of w' = life_of w) w.
Definition still {X} (c o : Z) (m : Prg X) : Prop :=
  forall g w, handles c o g w ->
    pw m (fun _ g' w' => handles c o g' w' /\ life_of w' = life_of w) g w.

Lemma handles_life c o g w w' : life_of w' = life_of w -> handles c o g w -> handles c o g w'.
Proof.
  intros Hl (? & ? & ? & ?). split_and!; [done..|by apply (ctx_arg_life _ _ _ Hl)|by apply (obj_arg_life _ _ _ Hl)].
Qed.

Lemma mild_lib c o f args : mild c o (lib f args).
Proof. intros w _ _. by apply wp_lib. Qed.
Lemma mild_gets {X} c o (f : World -> X) : mild c o (gets f).
Proof. intros w _ _. by apply wp_gets. Qed.
Lemma mild_ret {X} c o (x : X) : mild c o (mret x).
Proof. intros w _ _. by apply wp_ret. Qed.
Lemma mild_bind {X Y} c o (m : M X) (f : X -> M Y) :
  mild c o m -> (forall x, mild c o (f x)) -> mild c o (m ≫= f).
Proof.
  intros Hm Hf w Hc Ho. apply wp_bind. eapply wp_mono; [by apply Hm|]. intros x w1 Hl1.
  eapply wp_mono; [apply Hf; [exact (ctx_arg_life _ _ _ Hl1 Hc)|exact (obj_arg_life _ _ _ Hl1 Ho)]|].
  intros y w2 Hl2. by rewrite Hl2.
Qed.

Lemma mild_exec c o call_ :
  lifetime_call call_ = false -> (forall p, call_ctx call_ = Some p -> p = c) ->
  (forall p, call_obj call_ = Some p -> p = o) ->
  (forall p fc t, call_ = CAddCert p fc t -> t <> SCF_CERT_TYPE_EE_CHAIN) ->
  mild c o (exec call_).
Proof.
  intros Hl Hc Ho Ht w Hca Hoa. eapply wp_mono.
  - apply use_call_safe; [done|]. split_and!; [by intros p ->%Hc|by intros p ->%Ho|done].
  - intros r w' Hf. by apply life_frame_of.
Qed.

Lemma mild_discard {X} c o (m : M X) : mild c o (discard m) -> mild c o m.
Proof.
  intros Hm w Hc Ho. specialize (Hm w Hc Ho). unfold wp, discard, mbind, M_bind in *.
  by destruct (m w) as [[x w']|].
Qed.

Lemma still_ret {X} c o (x : X) : still c o (mret x).
Proof. intros g w Hh. by apply pw_ret. Qed.
Lemma still_bind {X Y} c o (m : Prg X) (f : X -> Prg Y) :
  still c o m -> (forall x, still c o (f x)) -> still c o (m ≫= f).
Proof.
  intros Hm Hf g w Hh. apply pw_bind. eapply pw_mono; [by apply Hm|].
  intros x g1 w1 [Hh1 Hl1]. eapply pw_mono; [by apply Hf|]. intros y g2 w2 [Hh2 Hl2].
  split; [done|by rewrite Hl2].
Qed.
Lemma still_call {X} c o (m : M X) : mild c o m -> still c o (call m).
Proof.
  intros Hm g w Hh. apply pw_call. destruct (Hh) as (_ & _ & ? & ?).
  eapply wp_mono; [by apply Hm|]. intros x w' Hl. split; [exact (handles_life _ _ _ _ _ Hl Hh)|done].
Qed.
Lemma still_globals {X} c o (f : Globals -> Prg X) :
  (forall g, g_ctx g = c -> g_obj g = o -> still c o (f g)) -> still c o (globals ≫= f).
Proof. intros Hf g w Hh. apply pw_bind, pw_globals. destruct (Hh) as (? & ? & _). by apply Hf. Qed.
Lemma still_conn c o v : still c o (put_globals (set_g_conn v)).
Proof. intros g w (? & ? & ? & ?). apply pw_put. by split. Qed.
Lemma still_new_array c o n : still c o (new_array n).
Proof. intros g w Hh. apply pw_new_array. intros p w' Hl. split; [exact (handles_life _ _ _ _ _ Hl Hh)|done]. Qed.

(** *** The loops *)

Lemma mild_wlp {X} c o (m : M X) (P : X -> Prop) g w (Q : X -> Globals -> World -> Prop) :
  mild c o m -> (forall w, wlp m (fun x _ => P x) w) -> handles c o g w ->
  (forall x w', P x -> handles c o g w' -> life_of w' = life_of w -> Q x g w') ->
  pw (call m) Q g w.
Proof.
  intros Hm HP Hh HQ. apply pw_call. pose proof Hh as (_ & _ & Hc & Ho).
  specialize (Hm w Hc Ho). specialize (HP w). unfold wp, wlp in *.
  destruct (m w) as [[x w']|]; [|done]. apply HQ; [done|exact (handles_life _ _ _ _ _ Hm Hh)|done].
Qed.

Definition settles (m : M Z) : Prop :=
  forall w, wlp m (fun r _ => r = SCF_SSL_ERR_WANT_WRITE -> ~ Polite fuel) w.

Lemma still_looping {X} c o : ~ Polite fuel -> still c o (looping (A := X)).
Proof. intros Hn g w Hh. by apply wp_ret. Qed.

Lemma still_spin c o n (m : M Z) :
  (n = O -> ~ Polite fuel) -> mild c o m -> settles m -> still c o (spin_want_write n m).
Proof.
  intros Hn Hm Hs. induction n as [|n IH]; [by apply still_looping, Hn|].
  intros g w Hh. simpl. apply pw_bind. eapply mild_wlp; [exact Hm|exact Hs|exact Hh|].
  intros r w' Hr Hh' Hl. destruct (_ && _) eqn:E; bools; [|by apply pw_ret].
  eapply pw_mono; [apply IH; [|exact Hh']|].
  - intros _. by apply Hr.
  - intros x g' w2 [? ?]. split; [done|congruence].
Qed.

Lemma still_bare_rounds c o n k (m : M Z) want :
  (0 < n)%nat -> Z.of_nat n + k = TEST_MAXLOOPS -> (fuel = O -> ~ Polite fuel) ->
  mild c o m -> settles m -> still c o (bare_rounds n fuel m want k).
Proof.
  intros Hn Hk Hf Hm Hs. revert k Hn Hk. induction n as [|n IH]; intros k Hn Hk; [lia|].
  cbn [bare_rounds]. apply still_bind; [by apply still_spin|intros r].
  repeat (case_match; [by apply still_ret|]). case_match; [|by apply still_ret].
  bools. apply IH; lia.
Qed.

Lemma settles_establish obj (method : Z -> M Z) :
  (forall o w r w', method o w = Some (r, w') -> r = SCF_SSL_ERR_WANT_WRITE -> ~ Polite fuel) ->
  settles (establish obj method).
Proof.
  intros Hm w. unfold establish. destruct (obj =? nullptr); [by apply wlp_ret|].
  apply wlp_bind. unfold wlp at 1, get_obj. destruct (w_objs w !! obj) as [o|]; [|done].
  destruct (_ =? SCF_ROLE_NONE); [by apply wlp_ret|].
  unfold CHECK_RET, CHECK_SCF_INIT, CHECK_SCF_ADAPTOR.
  apply wlp_bind. unfold wlp at 1, gets. destruct (w_scfInitialized w); [|by apply wlp_ret].
  apply wlp_bind. unfold wlp at 1, gets. destruct (w_adaptor w); [|by apply wlp_ret].
  apply wlp_bind. unfold wlp at 1. destruct (method obj w) as [[r w1]|] eqn:E; [|done].
  destruct (r =? SCF_SUCCESS); [|apply wlp_ret; by eapply Hm].
  apply wlp_bind. eapply wlp_mono; [apply wlp_true|]. intros ? ? _.
  apply wlp_bind. eapply wlp_mono; [apply wlp_true|]. intros ? ? _. by apply wlp_ret.
Qed.

Lemma settles_Connect o : settles (SCF_Connect o).
Proof. apply settles_establish. intros o' w r w' Hr Hw Hp. by apply (pl_connect _ Hp _ _ _ _ Hr). Qed.
Lemma settles_Accept o : settles (SCF_Accept o).
Proof. apply settles_establish. intros o' w r w' Hr Hw Hp. by apply (pl_accept _ Hp _ _ _ _ Hr). Qed.

(** A successful read of nothing is what the loop of [SCFRead] does not count. *)
Definition reads_more (r : Z * option Z) : Prop :=
  r.1 = SCF_SUCCESS -> default 0 r.2 = 0 -> ~ Polite fuel.

Lemma Read_reads_more o d n outs w : wlp (SCF_Read o d n outs) (fun r _ => reads_more r) w.
Proof.
  unfold SCF_Read. destruct (_ || _); [by apply wlp_ret|].
  apply wlp_bind. unfold wlp at 1, get_obj. destruct (w_objs w !! o) as [x|]; [|done].
  destruct (_ =? SCF_ROLE_NONE); [by apply wlp_ret|].
  unfold CHECK_SCF_INIT, CHECK_SCF_ADAPTOR.
  apply wlp_bind. unfold wlp at 1, gets. destruct (w_scfInitialized w); [|by apply wlp_ret].
  apply wlp_bind. unfold wlp at 1, gets. destruct (w_adaptor w); [|by apply wlp_ret].
  unfold wlp. destruct (a_Read o d n w) as [[[r k] w1]|] eqn:E; [|done].
  intros Hr Hk Hp. cbn in Hr, Hk. subst r.
  by destruct (pl_read _ Hp _ _ _ _ _ _ E) as (j & -> & Hj).
Qed.
End runs.

(** *** The parts of the programs that create and free nothing *)

Ltac mild_step :=
  match goal with
  | |- forall _, _ => intro
  | |- mild _ _ (mret _) => apply mild_ret
  | |- mild _ _ (gets _) => apply mild_gets
  | |- mild _ _ lib_out => apply mild_gets
  | |- mild _ _ (lib _ _) => apply mild_lib
  | |- mild _ _ _ => solve [auto 2 with mild]
  | |- mild _ _ (_ ≫= _) => apply mild_bind
  | |- mild _ _ (if ?b then _ else _) => destruct b
  | |- mild _ _ (let '_ := ?x in _) => destruct x
  end.
Ltac mild := repeat mild_step.

Ltac still_step :=
  match goal with
  | |- forall _, _ => intro
  | |- still _ _ _ (mret _) => apply still_ret
  | |- still _ _ _ (call _) => apply still_call; mild
  | |- still _ _ _ (put_globals (set_g_conn _)) => apply still_conn
  | |- still _ _ _ (new_array _) => apply still_new_array
  | |- still _ _ _ (delete_array _) => apply still_call; mild
  | |- still _ _ _ (globals ≫= _) =>
      let Hc := fresh "Hgc" in let Ho := fresh "Hgo" in
      apply still_globals; intros ? Hc Ho; rewrite ?Hc, ?Ho
  | |- still _ _ _ _ => solve [eauto 4 with still]
  | |- still _ _ _ (_ ≫= _) => apply still_bind
  | |- still _ _ _ (if ?b then _ else _) => destruct b
  | |- still _ _ _ (match ?x with _ => _ end) => destruct x
  end.
Ltac still := repeat still_step.

Create HintDb mild.
Create HintDb still.

Section sessions.
Context `{Library} {A : TlsAdaptor} `{!TlsAdaptorSafe A} `{SecureC} `{Decryptor}.
Context (fuel : nat) (scheduler : History -> nat) (c o : Z).

Lemma no_fuel : fuel = O -> ~ Polite fuel.
Proof. intros Hf [Hp _ _ _ _ _]. lia. Qed.

Lemma mild_SafeCloseFd fd : mild c o (SafeCloseFd fd).
Proof. unfold SafeCloseFd. mild. Qed.
Hint Resolve mild_SafeCloseFd : mild.

Lemma mild_CreateAndConfigSocket fd : mild c o (CreateAndConfigSocket fd).
Proof. unfold CreateAndConfigSocket. mild. Qed.
Lemma mild_BindAndListenCommon t fd : mild c o (BindAndListenCommon t fd).
Proof. unfold BindAndListenCommon. mild. Qed.
Hint Resolve mild_CreateAndConfigSocket mild_BindAndListenCommon : mild.
Lemma mild_CreateAndStartSocket t : mild c o (CreateAndStartSocket t).
Proof. unfold CreateAndStartSocket. mild. Qed.
Hint Resolve mild_CreateAndStartSocket : mild.
Lemma mild_TcpServer_Start t : mild c o (TcpServer_Start t).
Proof. unfold TcpServer_Start. mild. Qed.

Lemma mild_DealConnectInThread fd t : mild c o (DealConnectInThread fd t).
Proof. unfold DealConnectInThread, SetNonBlock. mild. Qed.
Hint Resolve mild_DealConnectInThread : mild.
Lemma mild_accept_round t : mild c o (accept_round t).
Proof. unfold accept_round. mild. Qed.
Hint Resolve mild_accept_round : mild.
Lemma mild_rounds n alive t : mild c o (rounds n alive t).
Proof. revert alive t. induction n; intros; simpl; mild. Qed.
Hint Resolve mild_rounds : mild.
Lemma mild_wait alive t : mild c o (wait scheduler alive t).
Proof. unfold wait. mild. Qed.
Hint Resolve mild_wait : mild.
Lemma mild_wait_accepted n alive t : mild c o (wait_accepted scheduler n alive t).
Proof. revert alive t. induction n; intros; simpl; mild. Qed.
Lemma mild_GetAcceptFd alive t : mild c o (GetAcceptFd scheduler alive t).
Proof. unfold GetAcceptFd. apply mild_bind; [apply mild_wait_accepted|]. mild. Qed.
Lemma mild_TcpServer_Stop alive t : mild c o (TcpServer_Stop scheduler alive t).
Proof. unfold TcpServer_Stop. mild. Qed.

Lemma mild_SetFd fd : mild c o (SCF_SetFd o fd).
Proof. by apply (mild_exec c o (CSetFd o fd)); intros; simplify_eq/=. Qed.
Lemma mild_Connect : mild c o (SCF_Connect o).
Proof. by apply (mild_exec c o (CConnect o)); intros; simplify_eq/=. Qed.
Lemma mild_Accept : mild c o (SCF_Accept o).
Proof. by apply (mild_exec c o (CAccept o)); intros; simplify_eq/=. Qed.
Lemma mild_Read d n : mild c o (SCF_Read o d n true).
Proof. by apply mild_discard, (mild_exec c o (CRead o d n true)); intros; simplify_eq/=. Qed.
Lemma mild_Write d n : mild c o (SCF_Write o d n true).
Proof. by apply mild_discard, (mild_exec c o (CWrite o d n true)); intros; simplify_eq/=. Qed.
Lemma mild_SetCipherSuites l : mild c o (SCF_SetCipherSuites c l).
Proof. by apply (mild_exec c o (CSetCipherSuites c l)); intros; simplify_eq/=. Qed.
Lemma mild_SetProtocolVersion lo hi vs : mild c o (SCF_SetProtocolVersion c lo hi vs).
Proof. by apply (mild_exec c o (CSetProtocolVersion c lo hi vs)); intros; simplify_eq/=. Qed.
Lemma mild_UseSession cb : mild c o (SCF_SetPskUseSessionCallback c cb).
Proof. by apply (mild_exec c o (CSetPskUseSessionCallback c cb)); intros; simplify_eq/=. Qed.
Lemma mild_FindSession cb : mild c o (SCF_SetPskFindSessionCallback c cb).
Proof. by apply (mild_exec c o (CSetPskFindSessionCallback c cb)); intros; simplify_eq/=. Qed.
Hint Resolve mild_TcpServer_Start mild_GetAcceptFd mild_TcpServer_Stop mild_SetFd mild_Connect
  mild_Accept mild_Read mild_Write mild_SetCipherSuites mild_SetProtocolVersion : mild.

(** A round that reads nothing counts towards the limit, or the peer sent an empty record. *)
Lemma still_read_rounds n d len ret readLen k :
  (readLen = 0 -> TEST_READ_RETRY_MAX_CNT - k <= Z.of_nat n \/ ~ Polite fuel) ->
  still fuel c o (read_rounds n o d len ret readLen k).
Proof.
  revert ret readLen k. induction n as [|n IH]; intros ret readLen k Hn; cbn [read_rounds];
    destruct (_ && _) eqn:E; bools; [|apply still_ret| |apply still_ret].
  - subst readLen. apply still_looping. destruct (Hn eq_refl) as [|Hp]; [lia|done].
  - intros g w Hh. apply pw_bind. eapply mild_wlp; [apply mild_Read|apply Read_reads_more|exact Hh|].
    intros [r m] w' Hr Hh' Hl. cbn iota beta. cbv zeta.
    eapply pw_mono; [apply IH; [|exact Hh']|].
    + subst readLen. intros H0'. destruct (Hn eq_refl) as [Hk|Hp]; [|by right].
      destruct (r =? SCF_SUCCESS) eqn:Er; cbn [negb]; bools; [right; by apply Hr|left; lia].
    + intros x g' w2 [? ?]. split; [done|congruence].
Qed.

Lemma still_SCFRead d len : still fuel c o (SCFRead fuel o d len).
Proof.
  apply still_read_rounds. intros _. destruct (decide (Z.to_nat TEST_READ_RETRY_MAX_CNT < fuel)%nat).
  - left. lia.
  - right. by intros [].
Qed.

Lemma still_connect_loop n fd ip port :
  (n = O -> ~ Polite fuel) -> still fuel c o (connect_loop n ip port fd).
Proof.
  intros Hn. induction n as [|n IH]; [by apply still_looping, Hn|]. cbn [connect_loop].
  apply still_bind; [still|intros rc].
  apply still_bind; [unfold SetNonBlock; still|intros [r|]; [apply still_ret|]].
  intros g w Hh. apply pw_bind.
  apply (mild_wlp fuel c o lib_out (fun e => e = EINTR -> ~ Polite fuel)); [apply mild_gets| |exact Hh|].
  - intros w1. unfold wlp, lib_out, gets. intros He Hp. by apply (pl_errno _ Hp (w_log w1)).
  - intros e w' He Hh' Hl. destruct (e =? EINTR) eqn:E; bools; [|by apply pw_ret].
    eapply pw_mono; [apply IH; [by intros _; apply He|exact Hh']|].
    intros x g' w2 [? ?]. split; [done|congruence].
Qed.

Lemma still_ConnectWithFd ip port fd : still fuel c o (ConnectWithFd fuel ip port fd).
Proof.
  unfold ConnectWithFd. still_step; [still|intro]. still_step; [still|].
  do 3 (still_step; [still|intro]). still_step; [by apply still_connect_loop, no_fuel|].
  intros [[? ?]|]; still.
Qed.
Hint Resolve still_ConnectWithFd still_SCFRead : still.

Lemma still_TcpClient_Connect ip port : still fuel c o (TcpClient_Connect fuel ip port).
Proof. unfold TcpClient_Connect. still. Qed.
Hint Resolve still_TcpClient_Connect : still.

Lemma handshake_fuel : Z.of_nat (Z.to_nat TEST_MAXLOOPS) + 0 = TEST_MAXLOOPS /\
  (0 < Z.to_nat TEST_MAXLOOPS)%nat.
Proof. by vm_compute; split; [|lia]. Qed.

Lemma still_client_handshake want : still fuel c o (CreateClientBareSslConnection fuel o want).
Proof.
  unfold CreateClientBareSslConnection. destruct (o =? nullptr); [apply still_ret|].
  apply still_bare_rounds;
    [apply handshake_fuel|apply handshake_fuel|apply no_fuel|apply mild_Connect|apply settles_Connect].
Qed.
Lemma still_server_handshake want : still fuel c o (CreateServerBareSslConnection fuel o want).
Proof.
  apply still_bare_rounds;
    [apply handshake_fuel|apply handshake_fuel|apply no_fuel|apply mild_Accept|apply settles_Accept].
Qed.

Lemma still_ClientSSLReadWrite n : still fuel c o (ClientSSLReadWrite fuel n).
Proof. unfold ClientSSLReadWrite. still. Qed.
Lemma still_ServerSslReadWrite n : still fuel c o (ServerSslReadWrite fuel n).
Proof. unfold ServerSslReadWrite. still. Qed.
(** Each round of [Send] sends a byte at least, each round of [Recv] reads one or counts. *)
Lemma still_send_loop n fd buf len sent k :
  len - sent <= Z.of_nat n -> still fuel c o (send_loop n fd buf len sent k).
Proof.
  revert sent k. induction n as [|n IH]; intros sent k Hn; cbn [send_loop];
    destruct (sent <? len) eqn:E; bools; try apply still_ret; [lia|].
  apply still_bind; [still|intros m]. destruct (m <=? 0) eqn:Em; bools; [apply still_ret|].
  apply IH. lia.
Qed.
Lemma still_recv_loop n fd buf len ret k retry :
  len - k + (TEST_READ_RETRY_MAX_CNT - retry) <= Z.of_nat n ->
  still fuel c o (recv_loop n fd buf len ret k retry).
Proof.
  revert ret k retry. induction n as [|n IH]; intros ret k retry Hn; cbn [recv_loop];
    destruct (_ && _) eqn:E; bools; try apply still_ret; [lia|].
  apply still_bind; [still|intros m]. destruct (m =? 0) eqn:Ez; bools; [apply still_ret|].
  destruct (m <? 0) eqn:Em; bools; [|apply IH; lia].
  apply still_bind; [still|intros e]. destruct (negb _); [apply still_ret|]. apply IH. lia.
Qed.
Lemma still_ClientTcpReadWrite fd n : still fuel c o (ClientTcpReadWrite fd n).
Proof.
  unfold ClientTcpReadWrite, TcpClient_Recv, TcpClient_Send.
  do 2 (apply still_bind; [still|intros ?]).
  apply still_bind; [apply still_recv_loop; unfold DATA_BUF_LEN, TEST_READ_RETRY_MAX_CNT; lia|intros _].
  apply still_bind; [apply still_send_loop; lia|intros _]. still.
Qed.
Lemma still_ServerTcpReadWrite fd n : still fuel c o (ServerTcpReadWrite fd n).
Proof.
  unfold ServerTcpReadWrite, TcpServer_Recv, TcpServer_Send.
  do 2 (apply still_bind; [still|intros ?]).
  apply still_bind; [apply still_send_loop; lia|intros _].
  apply still_bind; [apply still_recv_loop; unfold DATA_BUF_LEN, TEST_READ_RETRY_MAX_CNT; lia|intros _].
  still.
Qed.
Lemma still_delete_conn : still fuel c o delete_conn.
Proof. unfold delete_conn. still. Qed.
Lemma still_repeat_io n io : still fuel c o io -> still fuel c o (repeat_io n io).
Proof. intros Hio. induction n; simpl; still. Qed.
Hint Resolve still_client_handshake still_server_handshake still_ClientSSLReadWrite
  still_ServerSslReadWrite still_repeat_io : still.

End sessions.

(** *** Setting up and tearing down *)

(** The library is up or down, and all there is, is what the globals name. *)
Definition owns (up : bool) (g : Globals) (w : World) : Prop :=
  (exists n, life_of w = mkLife
    (if g_ctx g =? nullptr then ∅ else {[g_ctx g := if g_obj g =? nullptr then 1 else 2]})
    (if g_obj g =? nullptr then ∅ else {[g_obj g := g_ctx g]})
    n up up up /\ 0 < n) /\
  (g_obj g <> nullptr -> g_ctx g <> nullptr).

Lemma owns_life up g g' w w' :
  life_of w' = life_of w -> g_ctx g' = g_ctx g -> g_obj g' = g_obj g -> owns up g w -> owns up g' w'.
Proof. intros Hl Hc Ho Hw. unfold owns. rewrite Hl, Hc, Ho. exact Hw. Qed.

Lemma owns_flags up g w : owns up g w -> flags up (life_of w).
Proof. intros [(n & -> & _) _]. by split_and!. Qed.

Lemma owns_ctx up g w : owns up g w -> g_ctx g <> nullptr ->
  exists x, w_ctxs w !! g_ctx g = Some x /\ ctx_refCnt x = (if g_obj g =? nullptr then 1 else 2).
Proof.
  intros [(n & Hw & _) _] Hc. apply life_ctx. rewrite Hw. simpl.
  rewrite (proj2 (Z.eqb_neq _ _) Hc). by rewrite lookup_singleton_eq.
Qed.

Lemma owns_obj up g w : owns up g w -> g_obj g <> nullptr ->
  exists x, w_objs w !! g_obj g = Some x /\ obj_policyCtx x = g_ctx g.
Proof.
  intros [(n & Hw & _) _] Ho. apply life_obj. rewrite Hw. simpl.
  rewrite (proj2 (Z.eqb_neq _ _) Ho). by rewrite lookup_singleton_eq.
Qed.

Lemma owns_handles up g w : owns up g w -> handles (g_ctx g) (g_obj g) g w.
Proof.
  intros Hw. split_and!; [done..| |].
  - intros Hc. destruct (owns_ctx _ _ _ Hw Hc) as (x & ? & _). by exists x.
  - intros Ho. destruct (owns_obj _ _ _ Hw Ho) as (x & Hx & Hp).
    destruct (owns_ctx _ _ _ Hw (proj2 Hw Ho)) as (y & Hy & _).
    exists x. split; [done|]. rewrite Hp. by exists y.
Qed.

Section setup.
Context `{Library} {A : TlsAdaptor} `{!TlsAdaptorSafe A} `{SecureC} `{Decryptor}.
Context (fuel : nat).
#[local] Abbreviation pw := (pw fuel).

Lemma pw_mild {X} up (m : M X) (Q : X -> Globals -> World -> Prop) g w :
  mild (g_ctx g) (g_obj g) m -> owns up g w ->
  (forall x w', owns up g w' -> Q x g w') -> pw (call m) Q g w.
Proof.
  intros Hm Hw HQ. apply pw_call. destruct (owns_handles _ _ _ Hw) as (_ & _ & Hc & Ho).
  eapply wp_mono; [by apply Hm|]. intros x w' Hl. apply HQ. by apply (owns_life _ _ _ _ _ Hl eq_refl eq_refl).
Qed.

Lemma pw_still {X} up (m : Prg X) (Q : X -> Globals -> World -> Prop) g w :
  still fuel (g_ctx g) (g_obj g) m -> owns up g w ->
  (forall x g' w', owns up g' w' -> g_ctx g' = g_ctx g -> Q x g' w') -> pw m Q g w.
Proof.
  intros Hm Hw HQ. eapply pw_mono; [apply Hm; by eapply owns_handles|].
  intros x g' w' [(Hc & Ho & _) Hl]. apply HQ; [|done]. by apply (owns_life _ _ _ _ _ Hl Hc Ho).
Qed.

Lemma pw_DeInit up g w (Q : unit -> Globals -> World -> Prop) :
  owns up g w -> (forall w', owns false g w' -> Q tt g w') -> pw (call SCF_DeInit) Q g w.
Proof.
  intros Hw HQ. apply pw_call. eapply wp_SCF_DeInit; [by eapply owns_flags|].
  intros w' Hl. apply HQ. destruct Hw as [(n & Hn & Hpos) Ho]. split; [|done].
  exists n. by rewrite Hl, Hn.
Qed.

(** The object goes first, then the context. *)
Lemma wp_free_object g w (Q : Z -> World -> Prop) :
  owns true g w -> (forall r w', owns true (set_g_obj nullptr g) w' -> Q r w') ->
  wp (SCF_FreePolicyObj (g_obj g)) Q w.
Proof.
  intros Hw HQ. destruct (decide (g_obj g = nullptr)) as [E|Ho].
  { rewrite E. apply wp_ret, HQ. destruct g. simpl in *. by subst. }
  destruct (owns_obj _ _ _ Hw Ho) as (x & Hx & Hp).
  destruct (owns_ctx _ _ _ Hw (proj2 Hw Ho)) as (y & Hy & Hn).
  rewrite (proj2 (Z.eqb_neq _ _) Ho) in Hn.
  destruct (owns_flags _ _ _ Hw) as (? & _ & ?).
  eapply wp_SCF_FreePolicyObj; rewrite ?Hp; [done|done|by apply (proj2 Hw)|done|lia|done|done|].
  intros r w' Hl. apply HQ. destruct Hw as [(n & Hw & Hpos) Hc]. split; [|done].
  exists n. rewrite Hl, Hw. unfold release. rewrite Hn. split; [|done]. simpl.
  rewrite (proj2 (Z.eqb_neq _ _) Ho), (proj2 (Z.eqb_neq _ _) (Hc Ho)).
  unfold life_set_ref, life_set_cnt. simpl. f_equal.
  - apply insert_singleton_eq.
  - apply delete_singleton_eq.
Qed.

Lemma wp_free_context g w (Q : Z -> World -> Prop) :
  owns true g w -> g_obj g = nullptr -> (forall r w', owns true globals0 w' -> Q r w') ->
  wp (SCF_FreePolicyCtx (g_ctx g)) Q w.
Proof.
  intros Hw Ho HQ. destruct (decide (g_ctx g = nullptr)) as [E|Hc].
  { rewrite E. apply wp_ret, HQ. destruct Hw as [Hw _]. rewrite E, Ho in Hw. by split. }
  destruct (owns_ctx _ _ _ Hw Hc) as (y & Hy & Hn). rewrite Ho in Hn. simpl in Hn.
  destruct (owns_flags _ _ _ Hw) as (? & _ & ?).
  eapply wp_SCF_FreePolicyCtx; [done|done|lia|done|done|].
  intros r w' Hl. apply HQ. split; [|done]. destruct Hw as [(n & Hw & Hpos) _].
  exists n. rewrite Hl, Hw. unfold release. rewrite Hn. split; [|done]. simpl.
  rewrite Ho, (proj2 (Z.eqb_neq _ _) Hc). unfold life_set_cnt. simpl. f_equal.
  apply delete_singleton_eq.
Qed.

Lemma wp_init_owned flag settings w :
  owns false globals0 w ->
  wp (SCF_Init flag settings) (fun r w' =>
    exists up, owns up globals0 w' /\ (up = true -> r = SCF_SUCCESS)) w.
Proof.
  intros Hw. eapply wp_SCF_Init; [by eapply owns_flags|..].
  - intros r w' Hl. exists false. split; [|done]. by apply (owns_life _ _ _ _ _ Hl eq_refl eq_refl).
  - intros w' Hl. exists true. split; [|done]. destruct Hw as [(n & Hn & Hpos) Ho].
    split; [|done]. exists n. by rewrite Hl, Hn.
Qed.

Lemma wp_create_context up w :
  owns up globals0 w ->
  wp SCF_CreatePolicyCtx (fun ctx w' => ctx = nullptr /\ owns up globals0 w' \/
    up = true /\ ctx <> nullptr /\ owns true (set_g_ctx ctx globals0) w') w.
Proof.
  intros Hw. apply wp_SCF_CreatePolicyCtx.
  - intros w' Hl. left. split; [done|]. by apply (owns_life _ _ _ _ _ Hl eq_refl eq_refl).
  - intros w' Hup Hl. right. destruct (owns_flags _ _ _ Hw) as (Hi & _ & _). simpl in Hi.
    rewrite Hi in Hup. destruct up; [|done].
    destruct Hw as [(n & Hn & Hpos) _]. simpl in Hn.
    assert (Hnext : w_next w = n) by by apply (f_equal l_next) in Hn.
    assert (Hnn : w_next w <> nullptr) by (unfold nullptr; lia).
    split_and!; [done..|]. split; [|done].
    exists (n + 1). split; [|lia]. rewrite Hl, Hn, Hnext. cbn -[Z.add nullptr].
    rewrite (proj2 (Z.eqb_neq n nullptr)) by congruence.
    unfold life_set_next, life_set_cnt. simpl. by rewrite insert_empty.
Qed.

Lemma wp_create_object g w :
  owns true g w -> g_ctx g <> nullptr -> g_obj g = nullptr ->
  wp (SCF_CreatePolicyObj (g_ctx g)) (fun obj w' => owns true (set_g_obj obj g) w') w.
Proof.
  intros Hw Hc Ho. destruct (owns_ctx _ _ _ Hw Hc) as (x & Hx & Hn). rewrite Ho in Hn. simpl in Hn.
  eapply wp_SCF_CreatePolicyObj; [exact Hx|rewrite Hn; unfold UINT32_MAX; lia|..].
  - intros w' Hl. exact (owns_life true g (set_g_obj nullptr g) w w' Hl eq_refl (eq_sym Ho) Hw).
  - intros w' Hl. destruct Hw as [(n & Hw & Hpos) _].
    assert (Hnext : w_next w = n) by by apply (f_equal l_next) in Hw.
    assert (Hnn : n <> nullptr) by (unfold nullptr; lia).
    split; [|done]. exists (n + 1). split; [|lia].
    rewrite Hl, Hw, Hn, Hnext, Ho. cbn -[Z.add nullptr].
    rewrite (proj2 (Z.eqb_neq n nullptr) Hnn), (proj2 (Z.eqb_neq _ nullptr) Hc), Z.eqb_refl.
    unfold life_set_next, life_set_ref, life_set_cnt. simpl. f_equal.
    unfold singletonM, map_singleton. apply insert_insert_eq.
Qed.

Lemma pw_init_sample role flag settings w (Q : bool -> Globals -> World -> Prop) :
  owns false globals0 w ->
  (forall g w', owns false globals0 w' -> Q false g w') ->
  (forall g w', owns true g w' -> g_ctx g <> nullptr -> g_obj g = nullptr -> Q true g w') ->
  pw (init_sample role flag settings) Q globals0 w.
Proof.
  intros Hw Hbad Hgood. unfold init_sample. apply pw_bind, pw_call.
  eapply wp_mono; [by apply wp_init_owned|].
  intros r w1 (up & Hw1 & Hr). destruct (negb _) eqn:Er; bools.
  { apply pw_ret. destruct up; [by rewrite Hr in Er|by apply Hbad]. }
  apply pw_bind, pw_call. eapply wp_mono; [by apply wp_create_context|].
  intros ctx w2 [[-> Hw2]|(-> & Hc & Hw2)]; apply pw_bind, pw_put.
  { rewrite Z.eqb_refl. apply pw_bind. eapply pw_DeInit; [exact Hw2|].
    intros w3 Hw3. by apply pw_ret, Hbad. }
  rewrite (proj2 (Z.eqb_neq _ _) Hc). apply pw_bind.
  eapply (pw_mild true); [|exact Hw2|].
  { apply (mild_exec _ _ (CSetPolicy ctx role SCF_VERIFY_DEFAULT SCF_POLICY_HIGH));
      by intros; simplify_eq/=. }
  intros ret w3 Hw3. destruct (negb _); [|by apply pw_ret, Hgood].
  apply pw_bind, pw_call, (wp_free_context _ _ _ Hw3); [done|]. intros r' w4 Hw4.
  apply pw_bind, pw_put, pw_bind. eapply pw_DeInit; [exact Hw4|].
  intros w5 Hw5. by apply pw_ret, Hbad.
Qed.

Lemma pw_configure suites (set_callback : Z -> M Z) g w (Q : bool -> Globals -> World -> Prop) :
  (forall c o, mild c o (set_callback c)) -> owns true g w ->
  g_ctx g <> nullptr -> g_obj g = nullptr ->
  (forall ok g' w', owns true g' w' -> Q ok g' w') ->
  pw (configure_sample suites set_callback) Q g w.
Proof.
  intros Hcb Hw Hc Ho HQ. unfold configure_sample. apply pw_bind, pw_globals.
  apply pw_bind. eapply pw_mild; [apply mild_SetCipherSuites|exact Hw|]. intros r1 w1 Hw1.
  destruct (negb _); [by apply pw_ret, HQ|].
  apply pw_bind. eapply pw_mild; [apply mild_SetProtocolVersion|exact Hw1|]. intros r2 w2 Hw2.
  destruct (negb _); [by apply pw_ret, HQ|].
  apply pw_bind. eapply pw_mild; [apply Hcb|exact Hw2|]. intros r3 w3 Hw3.
  destruct (negb _); [by apply pw_ret, HQ|].
  apply pw_bind, pw_call. eapply wp_mono; [by apply wp_create_object|].
  intros obj w4 Hw4. apply pw_bind, pw_put. destruct (obj =? nullptr); by apply pw_ret, HQ.
Qed.

Lemma pw_free_globals g w (Q : unit -> Globals -> World -> Prop) :
  owns true g w -> (forall g' w', owns true globals0 w' -> Q tt g' w') -> pw free_globals Q g w.
Proof.
  intros Hw HQ. unfold free_globals. apply pw_bind.
  eapply pw_still; [apply still_delete_conn|exact Hw|]. intros [] g0 w0 Hw0 _.
  apply pw_bind, pw_globals, pw_bind, pw_call, (wp_free_object g0); [exact Hw0|]. intros r w1 Hw1.
  apply pw_bind, pw_put, pw_bind, pw_call, (wp_free_context _ _ _ Hw1); [done|].
  intros r' w2 Hw2. by apply pw_put, HQ.
Qed.

Context (scheduler : History -> nat) (callback : Z).
Hint Resolve mild_TcpServer_Start mild_GetAcceptFd mild_TcpServer_Stop mild_SetFd : mild.
Hint Resolve still_TcpClient_Connect still_client_handshake still_server_handshake
  still_ClientSSLReadWrite still_ServerSslReadWrite still_repeat_io : still.

Definition test_ends (test : list Z -> string -> Z -> Prg bool) : Prop :=
  forall suites ip port g w (Q : bool -> Globals -> World -> Prop),
    owns true g w -> g_ctx g <> nullptr -> g_obj g = nullptr ->
    (forall ok g' w', owns true g' w' -> Q ok g' w') -> pw (test suites ip port) Q g w.

Lemma TestClient_ends : test_ends (TestClient callback fuel).
Proof.
  intros suites ip port g w Q Hw Hc Ho HQ. unfold TestClient. apply pw_bind.
  apply pw_configure; [intros; apply mild_UseSession|done..|]. intros ok g1 w1 Hw1.
  eapply pw_still; [|exact Hw1|intros; by apply HQ]. still.
Qed.

Lemma still_serve_tcp t c o : still fuel c o (serve_tcp scheduler fuel t).
Proof. unfold serve_tcp. still. Qed.
Hint Resolve still_serve_tcp : still.

Lemma TestServer_ends : test_ends (TestServer scheduler callback fuel).
Proof.
  intros suites ip port g w Q Hw Hc Ho HQ. unfold TestServer. apply pw_bind.
  apply pw_configure; [intros; apply mild_FindSession|done..|]. intros ok g1 w1 Hw1.
  eapply pw_still; [|exact Hw1|intros; by apply HQ]. still.
Qed.

Lemma pw_main role test argv w :
  owns false globals0 w -> test_ends test ->
  pw (sample_main (init_sample role) test argv) (fun _ _ w' => owns false globals0 w') globals0 w.
Proof.
  intros Hw Ht. unfold sample_main.
  destruct argv as [|? [|? [|? [|? [|]]]]]; try by apply pw_ret.
  destruct (ParsePort _) as [ret [port|]]; [|by apply pw_ret].
  destruct (negb _); [by apply pw_ret|]. destruct (negb _); [by apply pw_ret|].
  apply pw_bind, pw_init_sample; [done|by intros; apply pw_ret|]. intros g1 w1 Hw1 Hc Ho.
  apply pw_bind, Ht; [done..|]. intros ok g2 w2 Hw2.
  apply pw_bind, (pw_free_globals g2); [done|]. intros g3 w3 Hw3.
  apply pw_bind. apply pw_call. eapply wp_SCF_DeInit; [by eapply owns_flags|].
  intros w4 Hl. apply pw_ret. destruct Hw3 as [(n & Hn & Hpos) Ho3]. split; [|done].
  exists n. by rewrite Hl, Hn.
Qed.
End setup.

Lemma still_run_TestTcpClient `{Library} {A : TlsAdaptor} fuel ip port c o :
  still fuel c o (run_TestTcpClient fuel ip port).
Proof.
  unfold run_TestTcpClient. apply still_bind; [apply still_TcpClient_Connect|intros ret].
  destruct (negb _); [apply still_ret|]. apply still_globals. intros g _ _. cbv zeta.
  destruct (_ <? 0); [apply still_ret|]. apply still_bind; [apply still_ClientTcpReadWrite|intros _].
  apply still_bind; [apply still_repeat_io, still_ClientTcpReadWrite|intros _; apply still_ret].
Qed.
Lemma still_run_TestTcpServer `{Library} {A : TlsAdaptor} scheduler fuel ip port c o :
  still fuel c o (run_TestTcpServer scheduler ip port).
Proof.
  unfold run_TestTcpServer, exchange_tcp.
  apply still_bind; [|intros [ok [alive t]]; apply still_bind;
    [apply still_call, mild_TcpServer_Stop|intros _; apply still_ret]].
  apply still_bind; [apply still_call, mild_TcpServer_Start|intros [[ret alive] t]].
  destruct (negb _); [apply still_ret|].
  apply still_bind; [apply still_call, mild_GetAcceptFd|intros [[fd alive'] t']].
  destruct (_ <? 0); [apply still_ret|]. apply still_bind; [apply still_ServerTcpReadWrite|intros _].
  apply still_bind; [apply still_repeat_io, still_ServerTcpReadWrite|intros _; apply still_ret].
Qed.
Lemma still_tcp_main `{Library} {A : TlsAdaptor} fuel test argv c o :
  (forall ip port, still fuel c o (test ip port)) -> still fuel c o (tcp_main test argv).
Proof.
  intros Ht. unfold tcp_main. destruct argv as [|ip [|port [|]]]; try apply still_ret.
  destruct (ParsePort port) as [ret [p|]]; [|apply still_ret].
  destruct (negb _); [apply still_ret|].
  apply still_bind; [apply Ht|intros _].
  apply still_bind; [apply still_delete_conn|intros _; apply still_ret].
Qed.

Lemma owns_start : owns false globals0 world0.
Proof. split; [|done]. exists 1. split; [|lia]. unfold life_of. simpl. by rewrite !fmap_empty. Qed.
