(* ===== verification/CSampleSpec.v ===== *)
(** * What the samples of the C API show

    Whatever OpenSSL, the network and the scheduler do, the programs touch no freed memory;
    when they end they leave no context, no object, no OpenSSL handle, no buffer and the
    library down ([c_samples_leave_nothing]); they do end when the peer neither blocks a
    handshake for ever nor sends empty records; the two pre-shared-key callbacks agree
    ([psk_samples_agree]); the port on the command line is read back, and a minus sign wraps
    around ([ParsePort_ports]).

    On top of the runs ([CSampleSafe]), the books of a program over OpenSSL: triples
    ([phoare]) about what it owns ([puses], [cuses], [releases], [clean]). *)
From Stdlib Require Import ZArith Lia Ascii String.
From stdpp Require Import base list fin_maps gmap strings pretty.
From S2P Require Import Prelude Errno Types FileCheck FileCtx Machine OpenSSL OpenSSLCfg.
From S2P Require Import Adaptor Api Conn Lifecycle Resources ConnSafe Local CSample CSampleSafe.
Open Scope Z_scope.

(** ** The books of a program over OpenSSL *)
Create HintDb puses.
Ltac run_prog Hr := cbv [mret Prg_ret globals put_globals looping] in Hr; run_prim Hr.

Section books.
Context `{Library} `{SecureC} `{FileSystem} `{Decryptor}.
Context (scheduler : History -> nat) (callback : Z).
Implicit Types (own : list Handle).

(** A triple: from [P], where the program ends, [Q]. *)
Definition phoare {X} (P : Globals -> World -> Prop) (m : Prg X) (Q : X -> Globals -> World -> Prop) : Prop :=
  forall g, hoare (P g) (m g) (fun r w => match r.1 with Ended x => Q x r.2 w | _ => True end).

Lemma phoare_bind {X Y} P (m : Prg X) (f : X -> Prg Y) R Q :
  phoare P m R -> (forall x, phoare (R x) (f x) Q) -> phoare P (m ≫= f) Q.
Proof.
  intros Hm Hf g w r w' Hw. unfold mbind, Prg_bind.
  destruct (m g w) as [[[o g1] w1]|] eqn:E; [|done].
  specialize (Hm g w _ _ Hw E). cbn in Hm. destruct o as [x| |]; [|by intros [= <- <-]..].
  by apply Hf.
Qed.
Lemma phoare_ret {X} P (x : X) (Q : X -> Globals -> World -> Prop) :
  (forall g w, P g w -> Q x g w) -> phoare P (mret x) Q.
Proof. intros HQ g w r w' Hw Hr. run_prog Hr. by apply HQ. Qed.
Lemma phoare_put P f (Q : unit -> Globals -> World -> Prop) :
  (forall g w, P g w -> Q tt (f g) w) -> phoare P (put_globals f) Q.
Proof. intros HQ g w r w' Hw Hr. run_prog Hr. by apply HQ. Qed.
Lemma phoare_globals P (Q : Globals -> Globals -> World -> Prop) :
  (forall g w, P g w -> Q g g w) -> phoare P globals Q.
Proof. intros HQ g w r w' Hw Hr. run_prog Hr. by apply HQ. Qed.
Lemma phoare_weaken {X} (P P' : Globals -> World -> Prop) (m : Prg X) (Q Q' : X -> Globals -> World -> Prop) :
  phoare P' m Q' -> (forall g w, P g w -> P' g w) -> (forall x g w, Q' x g w -> Q x g w) -> phoare P m Q.
Proof.
  intros Hm HP HQ g. eapply hoare_weaken; [apply Hm|apply HP|].
  intros [[x| |] g'] w; cbn; auto.
Qed.
Lemma phoare_call {X} (P : Globals -> World -> Prop) (m : M X) Q :
  (forall g, hoare (P g) m (fun x => Q x g)) -> phoare P (call m) Q.
Proof.
  intros Hm g. eapply hoare_bind; [apply Hm|]. intros x w r w' Hw Hr. run_prog Hr. exact Hw.
Qed.

(** With [g_conn] as it is: the program keeps it, and where it ends it owns [post]. *)
Definition books (c : option TestTcpConnection) own (g : Globals) (w : World) : Prop :=
  g_conn g = c /\ acct own w.
Definition puses {X} own (m : Prg X) (post : X -> list Handle) : Prop :=
  forall c, phoare (books c own) m (fun x => books c (post x)).

Lemma puses_at {X} own (m : Prg X) post g (Q : X -> Globals -> World -> Prop) :
  puses own m post -> (forall x g' w, g_conn g' = g_conn g -> acct (post x) w -> Q x g' w) ->
  hoare (acct own) (m g) (fun r w => match r.1 with Ended x => Q x r.2 w | _ => True end).
Proof.
  intros Hm HQ. eapply hoare_weaken; [apply (Hm (g_conn g))|by split|].
  intros [[x| |] g'] w; cbn; [intros []; by apply HQ|done..].
Qed.

Lemma puses_ret {X} own (x : X) : puses own (mret x) (fun _ => own).
Proof. intros c. by apply phoare_ret. Qed.
Lemma puses_bind {X Y} own (m : Prg X) (f : X -> Prg Y) mid post :
  puses own m mid -> (forall x, puses (mid x) (f x) post) -> puses own (m ≫= f) post.
Proof. intros Hm Hf c. eapply phoare_bind; [apply Hm|]. intros x. apply Hf. Qed.
Lemma puses_call {X} own (m : M X) post : uses own m post -> puses own (call m) post.
Proof. intros Hm c. apply phoare_call. intros g w x w' [Hg Hw] Hr. split; [done|by eapply Hm]. Qed.
Lemma puses_globals own : puses own globals (fun _ => own).
Proof. intros c. by apply phoare_globals. Qed.
Lemma puses_put own f : (forall g, g_conn (f g) = g_conn g) -> puses own (put_globals f) (fun _ => own).
Proof. intros Hf c. apply phoare_put. intros g w [Hg Hw]. split; [by rewrite Hf|done]. Qed.
Lemma puses_looping {X} own post : puses own (looping (A := X)) post.
Proof. intros c g w r w' Hw Hr. by run_prog Hr. Qed.
Lemma puses_new_array own n : puses own (new_array n) (fun p => (KMem, p) :: own).
Proof.
  intros c g w r w' [Hg Hw]. unfold new_array, mbind, M_bind.
  destruct (lib op_new _ w) as [[p w1]|] eqn:E; [|done].
  pose proof (uses_new own KMem op_new [AInt n] ltac:(done) ltac:(done) w p w1 Hw E) as Ha.
  intros Hr. run_prog Hr. by destruct (p =? nullptr).
Qed.
Lemma uses_delete p own : uses ((KMem, p) :: own) (_ ← lib op_delete [AInt p]; mret tt) (fun _ => own).
Proof. uses. Qed.
Lemma puses_delete_array own p : puses ((KMem, p) :: own) (delete_array p) (fun _ => own).
Proof. apply puses_call, uses_delete. Qed.
Lemma puses_delete_under own p q :
  puses ((KMem, q) :: (KMem, p) :: own) (delete_array p) (fun _ => (KMem, q) :: own).
Proof.
  apply puses_call. eapply uses_pre; [apply same_own_swap|]. eapply uses_bind; [by apply uses_free|].
  intros ?. by apply uses_ret.
Qed.

Lemma uses_call own call_ :
  (forall p fc t, call_ <> CAddCert p fc t) -> (forall obj, call_ <> CGetPeerCert obj) ->
  uses own (exec call_) (fun _ => own).
Proof.
  intros Hc Hp. eapply hoare_weaken;
    [apply (uses_exec own call_); intros p fc t E; by destruct (Hc p fc t)|done|].
  intros r w. by destruct call_ as []; try (by destruct (Hp obj)).
Qed.

Lemma uses_discard {X} own (m : M X) : uses own (discard m) (fun _ => own) -> uses own m (fun _ => own).
Proof.
  intros Hm w x w' Hw Hr. apply (Hm w 0 w' Hw). unfold discard, mbind, M_bind. by rewrite Hr.
Qed.

Lemma uses_sample_Read own o d n outs : uses own (SCF_Read o d n outs) (fun _ => own).
Proof. by apply uses_discard, (uses_call own (CRead o d n outs)). Qed.
Lemma uses_sample_Write own o d n outs : uses own (SCF_Write o d n outs) (fun _ => own).
Proof. by apply uses_discard, (uses_call own (CWrite o d n outs)). Qed.
Lemma uses_sample_SetFd own o fd : uses own (SCF_SetFd o fd) (fun _ => own).
Proof. by apply (uses_call own (CSetFd o fd)). Qed.
Lemma uses_sample_Connect own o : uses own (SCF_Connect o) (fun _ => own).
Proof. by apply (uses_call own (CConnect o)). Qed.
Lemma uses_sample_Accept own o : uses own (SCF_Accept o) (fun _ => own).
Proof. by apply (uses_call own (CAccept o)). Qed.
Lemma uses_sample_SetPolicy own c r v p : uses own (SCF_SetPolicy c r v p) (fun _ => own).
Proof. by apply (uses_call own (CSetPolicy c r v p)). Qed.
Lemma uses_sample_SetCipherSuites own c l : uses own (SCF_SetCipherSuites c l) (fun _ => own).
Proof. by apply (uses_call own (CSetCipherSuites c l)). Qed.
Lemma uses_sample_SetProtocolVersion own c lo hi vs :
  uses own (SCF_SetProtocolVersion c lo hi vs) (fun _ => own).
Proof. by apply (uses_call own (CSetProtocolVersion c lo hi vs)). Qed.
Lemma uses_sample_UseSession own c cb : uses own (SCF_SetPskUseSessionCallback c cb) (fun _ => own).
Proof. by apply (uses_call own (CSetPskUseSessionCallback c cb)). Qed.
Lemma uses_sample_FindSession own c cb : uses own (SCF_SetPskFindSessionCallback c cb) (fun _ => own).
Proof. by apply (uses_call own (CSetPskFindSessionCallback c cb)). Qed.
Hint Resolve uses_SCF_Init uses_SCF_DeInit uses_SCF_CreatePolicyCtx uses_SCF_FreePolicyCtx
  uses_SCF_CreatePolicyObj uses_SCF_FreePolicyObj uses_sample_Read uses_sample_Write
  uses_sample_SetFd uses_sample_Connect uses_sample_Accept uses_sample_SetPolicy
  uses_sample_SetCipherSuites uses_sample_SetProtocolVersion uses_sample_UseSession
  uses_sample_FindSession : uses.

Ltac puses_step :=
  match goal with
  | |- forall _, _ => intro
  | |- puses _ (mret _) _ => apply puses_ret
  | |- puses _ (call _) _ => apply puses_call; uses
  | |- puses _ globals _ => apply puses_globals
  | |- puses _ (put_globals _) _ => apply puses_put; done
  | |- puses _ looping _ => apply puses_looping
  | |- puses _ (new_array _) _ => apply puses_new_array
  | |- puses _ (delete_array _) _ => first [apply puses_delete_array | apply puses_delete_under]
  | |- puses _ _ _ => solve [eauto 3 with puses]
  | |- puses _ (_ ≫= _) _ => eapply puses_bind; [|intro; cbn beta]
  | |- puses _ (if ?b then _ else _) _ => destruct b
  | |- puses _ (match ?x with _ => _ end) _ => destruct x
  end.
Ltac puses := repeat puses_step.

Lemma uses_SafeCloseFd own fd : uses own (SafeCloseFd fd) (fun _ => own).
Proof. unfold SafeCloseFd. uses. Qed.
Hint Resolve uses_SafeCloseFd : uses.
Lemma uses_CreateAndStartSocket own t : uses own (CreateAndStartSocket t) (fun _ => own).
Proof. unfold CreateAndStartSocket, CreateAndConfigSocket, BindAndListenCommon. uses. Qed.
Hint Resolve uses_CreateAndStartSocket : uses.
Lemma uses_TcpServer_Start own t : uses own (TcpServer_Start t) (fun _ => own).
Proof. unfold TcpServer_Start. uses. Qed.
Lemma uses_accept_round own t : uses own (accept_round t) (fun _ => own).
Proof. unfold accept_round, DealConnectInThread, SetNonBlock. uses. Qed.
Hint Resolve uses_accept_round : uses.
Lemma uses_rounds own n alive t : uses own (rounds n alive t) (fun _ => own).
Proof. revert alive t. induction n; intros; simpl; uses. Qed.
Hint Resolve uses_rounds : uses.
Lemma uses_wait own alive t : uses own (wait scheduler alive t) (fun _ => own).
Proof. unfold wait. uses. Qed.
Hint Resolve uses_wait : uses.
Lemma uses_wait_accepted own n alive t : uses own (wait_accepted scheduler n alive t) (fun _ => own).
Proof. revert alive t. induction n; intros; simpl; uses. Qed.
Hint Resolve uses_wait_accepted : uses.
Lemma uses_GetAcceptFd own alive t : uses own (GetAcceptFd scheduler alive t) (fun _ => own).
Proof. unfold GetAcceptFd. eapply uses_bind; [apply uses_wait_accepted|]. intros []. uses. Qed.
Lemma uses_TcpServer_Stop own alive t : uses own (TcpServer_Stop scheduler alive t) (fun _ => own).
Proof. unfold TcpServer_Stop. uses. Qed.
Hint Resolve uses_TcpServer_Start uses_GetAcceptFd uses_TcpServer_Stop : uses.

Lemma puses_connect_loop own n ip port fd :
  puses own (connect_loop n ip port fd) (fun _ => own).
Proof.
  induction n as [|n IH]; cbn [connect_loop]; [apply puses_looping|].
  eapply (puses_bind _ _ _ (fun _ => own)); [puses|intros rc].
  eapply (puses_bind _ _ _ (fun _ => own)); [unfold SetNonBlock; puses|intros [?|]; puses].
Qed.
Hint Resolve puses_connect_loop : puses.
Lemma puses_ConnectWithFd own n ip port fd : puses own (ConnectWithFd n ip port fd) (fun _ => own).
Proof. unfold ConnectWithFd. puses. Qed.
Hint Resolve puses_ConnectWithFd : puses.
Lemma puses_spin own n (m : M Z) : uses own m (fun _ => own) -> puses own (spin_want_write n m) (fun _ => own).
Proof. intros Hm. induction n; cbn [spin_want_write]; puses. Qed.
Hint Resolve puses_spin : puses.
Lemma puses_bare_rounds own n fuel (m : M Z) want k :
  uses own m (fun _ => own) -> puses own (bare_rounds n fuel m want k) (fun _ => own).
Proof. intros Hm. revert k. induction n; intros k; cbn [bare_rounds]; puses. Qed.
Lemma puses_client_handshake own fuel o want :
  puses own (CreateClientBareSslConnection fuel o want) (fun _ => own).
Proof.
  unfold CreateClientBareSslConnection. destruct (_ =? _); [apply puses_ret|].
  apply puses_bare_rounds, uses_sample_Connect.
Qed.
Lemma puses_server_handshake own fuel o want :
  puses own (CreateServerBareSslConnection fuel o want) (fun _ => own).
Proof. apply puses_bare_rounds, uses_sample_Accept. Qed.

Lemma puses_read_rounds own fuel o d n ret len k :
  puses own (read_rounds fuel o d n ret len k) (fun _ => own).
Proof.
  revert ret len k. induction fuel; intros ret len k; cbn [read_rounds]; destruct (_ && _); puses.
Qed.
Lemma puses_SCFRead own fuel o d n : puses own (SCFRead fuel o d n) (fun _ => own).
Proof. apply puses_read_rounds. Qed.
Hint Resolve puses_SCFRead : puses.
Lemma puses_ClientSSLReadWrite own fuel n : puses own (ClientSSLReadWrite fuel n) (fun _ => own).
Proof. unfold ClientSSLReadWrite. puses. Qed.
Lemma puses_ServerSslReadWrite own fuel n : puses own (ServerSslReadWrite fuel n) (fun _ => own).
Proof. unfold ServerSslReadWrite. puses. Qed.
Lemma puses_send_loop own n fd buf len sent k : puses own (send_loop n fd buf len sent k) (fun _ => own).
Proof. revert sent k. induction n; intros sent k; cbn [send_loop]; puses. Qed.
Lemma puses_recv_loop own n fd buf len ret k retry :
  puses own (recv_loop n fd buf len ret k retry) (fun _ => own).
Proof.
  revert ret k retry. induction n; intros ret k retry; cbn [recv_loop]; destruct (_ && _); puses.
Qed.
Hint Resolve puses_send_loop puses_recv_loop : puses.
Lemma puses_ClientTcpReadWrite own fd n : puses own (ClientTcpReadWrite fd n) (fun _ => own).
Proof. unfold ClientTcpReadWrite, TcpClient_Recv, TcpClient_Send. puses. Qed.
Lemma puses_ServerTcpReadWrite own fd n : puses own (ServerTcpReadWrite fd n) (fun _ => own).
Proof. unfold ServerTcpReadWrite, TcpServer_Recv, TcpServer_Send. puses. Qed.
Lemma puses_repeat_io own n io : puses own io (fun _ => own) -> puses own (repeat_io n io) (fun _ => own).
Proof. intros Hio. induction n; cbn [repeat_io]; puses. Qed.
Hint Resolve puses_client_handshake puses_server_handshake
  puses_ClientSSLReadWrite puses_ServerSslReadWrite puses_ClientTcpReadWrite
  puses_ServerTcpReadWrite puses_repeat_io : puses.

Lemma puses_configure own suites (set_callback : Z -> M Z) :
  (forall c, uses own (set_callback c) (fun _ => own)) ->
  puses own (configure_sample suites set_callback) (fun _ => own).
Proof. intros Hcb. unfold configure_sample. puses. Qed.
Lemma puses_serve_tcp own fuel t : puses own (serve_tcp scheduler fuel t) (fun _ => own).
Proof. unfold serve_tcp. puses. Qed.
Lemma puses_exchange_tcp own t : puses own (exchange_tcp scheduler t) (fun _ => own).
Proof. unfold exchange_tcp. puses. Qed.
Lemma puses_init own role flag settings : puses own (init_sample role flag settings) (fun _ => own).
Proof. unfold init_sample. puses. Qed.
Hint Resolve puses_serve_tcp puses_exchange_tcp puses_init : puses.

(** *** The connection object *)

Definition conn_own (g : Globals) : list Handle :=
  match g_conn g with Some c => [(KMem, conn_at c)] | None => [] end.

(** From no connection; where the program ends, it owns the one in [g_conn]. *)
Definition cuses {X} (m : Prg X) : Prop :=
  phoare (books None []) m (fun _ g => acct (conn_own g)).

Lemma cuses_before {X Y} (m : Prg X) (f : X -> Prg Y) :
  puses [] m (fun _ => []) -> (forall x, cuses (f x)) -> cuses (m ≫= f).
Proof. intros Hm Hf. by eapply phoare_bind; [apply Hm|]. Qed.
Lemma cuses_after {X Y} (m : Prg X) (f : X -> Prg Y) :
  cuses m -> (forall x own, puses own (f x) (fun _ => own)) -> cuses (m ≫= f).
Proof.
  intros Hm Hf. eapply phoare_bind; [exact Hm|]. intros x g.
  apply (puses_at (conn_own g) (f x) (fun _ => conn_own g) g (fun _ g' => acct (conn_own g'))); [apply Hf|].
  intros y g' w Hg Ha. unfold conn_own. by rewrite Hg.
Qed.
Lemma cuses_puses {X} (m : Prg X) : puses [] m (fun _ => []) -> cuses m.
Proof.
  intros Hm. eapply phoare_weaken; [apply (Hm None)|done|].
  intros x g w [Hg Hw]. unfold conn_own. by rewrite Hg.
Qed.

Lemma cuses_TcpClient_Connect n ip port : cuses (TcpClient_Connect n ip port).
Proof.
  unfold TcpClient_Connect. apply cuses_before; [apply puses_ConnectWithFd|intros [ret fd]].
  destruct (negb _); [apply cuses_puses; puses|].
  eapply phoare_bind.
  { apply (puses_call [] _ (fun p => [(KMem, p)])). by apply (uses_new [] KMem). }
  intros p. cbn beta. destruct (p =? nullptr) eqn:Ep; bools.
  - subst p. apply (phoare_bind _ _ _ (fun _ => books None [])).
    + apply phoare_put. intros g w [_ Hw%acct_null]. by split.
    + intros x. apply (cuses_puses (_ ← call (SafeCloseFd fd); mret NN_NEW_OBJECT_FAILED)). puses.
  - apply (phoare_bind _ _ _ (fun _ g => acct (conn_own g))); [|intros x; by apply phoare_ret].
    apply phoare_put. by intros g w [_ Hw].
Qed.

(** A program that gives back the connection object with all else. *)
Definition releases {X} (m : Prg X) : Prop :=
  phoare (fun g => acct (conn_own g)) m (fun _ _ => acct []).

Lemma releases_delete_conn : releases delete_conn.
Proof.
  unfold delete_conn. eapply phoare_bind.
  { apply (phoare_globals _ (fun g g' w => g' = g /\ acct (conn_own g) w)). by split. }
  intros g. eapply (phoare_bind _ _ _ (fun _ _ => acct [])); [|intros x; by apply phoare_put].
  unfold conn_own. destruct (g_conn g) as [c|]; [|apply phoare_ret; by intros ? ? []].
  apply phoare_call. intros g' w x w' [_ Hw]. by apply (uses_delete (conn_at c)).
Qed.
Lemma releases_bind {X Y} (m : Prg X) (f : X -> Prg Y) :
  releases m -> (forall x, puses [] (f x) (fun _ => [])) -> releases (m ≫= f).
Proof.
  intros Hm Hf. eapply phoare_bind; [exact Hm|]. intros x g.
  by apply (puses_at [] (f x) (fun _ => []) g (fun _ _ => acct [])).
Qed.
Lemma releases_free_globals : releases free_globals.
Proof. apply releases_bind; [apply releases_delete_conn|]. puses. Qed.

Definition clean {X} (m : Prg X) : Prop := phoare (books None []) m (fun _ _ => acct []).

Lemma clean_test {X Y} (m : Prg X) (f : X -> Prg Y) :
  cuses m -> (forall x, releases (f x)) -> clean (m ≫= f).
Proof. intros Hm Hf. by eapply phoare_bind; [exact Hm|]. Qed.
Lemma clean_before {X Y} (m : Prg X) (f : X -> Prg Y) :
  puses [] m (fun _ => []) -> (forall x, clean (f x)) -> clean (m ≫= f).
Proof. intros Hm Hf. by eapply phoare_bind; [apply Hm|]. Qed.
Lemma clean_ret {X} (x : X) : clean (mret x).
Proof. apply phoare_ret. by intros g w []. Qed.

Lemma cuses_TestClient fuel suites ip port : cuses (TestClient callback fuel suites ip port).
Proof.
  unfold TestClient. apply cuses_before; [apply puses_configure; uses|intros ok].
  destruct (negb ok); [apply cuses_puses, puses_ret|].
  apply cuses_after; [apply cuses_TcpClient_Connect|intros ret own]. puses.
Qed.
Lemma cuses_TestServer fuel suites ip port : cuses (TestServer scheduler callback fuel suites ip port).
Proof.
  apply cuses_puses. unfold TestServer.
  eapply puses_bind; [apply puses_configure; uses|intros ?; cbn beta]. puses.
Qed.
Lemma cuses_run_TestTcpClient fuel ip port : cuses (run_TestTcpClient fuel ip port).
Proof.
  unfold run_TestTcpClient. apply cuses_after; [apply cuses_TcpClient_Connect|intros ret own; cbn beta].
  puses.
Qed.
Lemma cuses_run_TestTcpServer ip port : cuses (run_TestTcpServer scheduler ip port).
Proof. apply cuses_puses. unfold run_TestTcpServer. puses. Qed.

Lemma clean_main role test argv :
  (forall suites ip port, cuses (test suites ip port)) ->
  clean (sample_main (init_sample role) test argv).
Proof.
  intros Ht. unfold sample_main.
  destruct argv as [|? [|? [|? [|? [|]]]]]; try apply clean_ret.
  destruct (ParsePort _) as [ret [port|]]; [|apply clean_ret].
  destruct (negb _); [apply clean_ret|]. destruct (negb _); [apply clean_ret|].
  apply clean_before; [apply puses_init|intros ok]. destruct (negb ok); [apply clean_ret|].
  apply clean_test; [apply Ht|intros _].
  apply releases_bind; [apply releases_free_globals|]. puses.
Qed.
Lemma clean_tcp_main test argv :
  (forall ip port, cuses (test ip port)) -> clean (tcp_main test argv).
Proof.
  intros Ht. unfold tcp_main. destruct argv as [|? [|? [|]]]; try apply clean_ret.
  destruct (ParsePort _) as [ret [port|]]; [|apply clean_ret].
  destruct (negb _); [apply clean_ret|].
  apply clean_test; [apply Ht|intros _].
  apply releases_bind; [apply releases_delete_conn|]. puses.
Qed.
End books.

(** ** The books of the pre-shared key callbacks *)
Section callbacks.
Context `{Library} `{!SslMemory} `{SecureC} `{FileSystem} `{Decryptor}.
Implicit Types (own : list Handle).

(** The session a callback hands to OpenSSL, which it owns on return; it hands one over only
    with success. *)
Definition session_of (sess : option Z) : list Handle :=
  match sess with Some s => [(KSess, s)] | None => [] end.
Definition hands_over own (r : Z * option Z) (w : World) : Prop :=
  acct (session_of r.2 ++ own) w /\ (r.1 <> SCF_SUCCESS -> r.2 = None).

Definition ready (w : World) : Prop := w_scfInitialized w = true /\ w_adaptor w = true.
Definition acct_ready own (w : World) : Prop := acct own w /\ ready w.

Lemma hoare_ready {X} own (m : M X) :
  uses own m (fun _ => own) -> safe policy_frame (fun _ => True) m ->
  hoare (acct_ready own) m (fun _ => acct_ready own).
Proof.
  intros Hu Hs w r w' [Ha [Hi Hd]] Hr. split; [by eapply Hu|].
  pose proof (Hs w I) as Hw. unfold wp in Hw. rewrite Hr in Hw.
  destruct Hw as [_ _ _ E1 _ E2]. split; congruence.
Qed.

(** A session is only made while the library is up. *)
Lemma hoare_SessionNew own :
  hoare (acct own) SCF_SessionNew (fun s w => acct ((KSess, s) :: own) w /\ (s <> nullptr -> ready w)).
Proof.
  intros w s w' Ha Hr. split; [by eapply uses_SCF_SessionNew|]. revert Hr.
  unfold SCF_SessionNew, CHECK_READY, CHECK_SCF_INIT, CHECK_SCF_ADAPTOR, mbind, M_bind, gets.
  destruct (w_scfInitialized w) eqn:Ei; cbn [negb]; [|by intros [= <- _]].
  destruct (w_adaptor w) eqn:Ea; cbn [negb]; [|by intros [= <- _]].
  by intros [= _ <-].
Qed.

(** Giving it back, the library being up. *)
Lemma hoare_SessionFree {X} own s (x : X) (Q : X -> World -> Prop) :
  s <> nullptr -> (forall w, acct own w -> Q x w) ->
  hoare (acct_ready ((KSess, s) :: own)) (_ ← SCF_SessionFree s; mret x) Q.
Proof.
  intros Hs HQ w r w' [Ha [Hi Hd]]. unfold mbind at 1, M_bind at 1.
  destruct (SCF_SessionFree s w) as [[q w1]|] eqn:E; [|done]. intros Hr. run_prim Hr. apply HQ.
  pose proof (uses_SCF_SessionFree own s w q _ Ha E) as Hacct.
  enough (q = nullptr) as -> by exact Hacct. revert E.
  unfold SCF_SessionFree, CHECK_READY, CHECK_SCF_INIT, CHECK_SCF_ADAPTOR, mbind, M_bind, gets.
  rewrite (proj2 (Z.eqb_neq _ _) Hs), Hi, Hd. cbn [negb]. destruct (a_SessionFree s w) as [[? ?]|]; [|done].
  by intros [= <- _].
Qed.

Lemma hoare_PskCreateSession own psk pskLen cipherSuite :
  hoare (acct own) (TEST_PskCreateSession psk pskLen cipherSuite) (hands_over own).
Proof.
  destruct (safe_sessions (fun _ => True)) as (_ & _ & Hkey & Hver & Hcip).
  unfold TEST_PskCreateSession. eapply hoare_bind; [apply hoare_SessionNew|]. intros sess.
  destruct (sess =? nullptr) eqn:Es; bools.
  { subst sess. intros w r w' [Ha%acct_null _] Hr. run_prim Hr. by split. }
  eapply (hoare_weaken _ (acct_ready ((KSess, sess) :: own)) _ _ (hands_over own));
    [|intros w [Ha Hr]; split; [done|by apply Hr]|done].
  assert (Hback : forall ret, ret <> SCF_SUCCESS -> hoare (acct_ready ((KSess, sess) :: own))
    (_ ← SCF_SessionFree sess; mret (ret, None)) (hands_over own))
    by (intros ret Hret; apply hoare_SessionFree; [done|]; intros w Ha; by split).
  eapply hoare_bind; [apply hoare_ready; [apply uses_SessionSetMasterKey|apply Hkey]|]. intros [ret keys].
  destruct (ret =? SCF_SUCCESS) eqn:E1; bools; [|by apply Hback]. cbn [negb].
  eapply hoare_bind; [apply hoare_ready; [apply uses_SessionSetCipher|apply Hcip]|]. intros ret2.
  destruct (ret2 =? SCF_SUCCESS) eqn:E2; bools; [|by apply Hback]. cbn [negb].
  eapply hoare_bind; [apply hoare_ready; [apply uses_SessionSetProtocolVersion|apply Hver]|]. intros ret3.
  destruct (ret3 =? SCF_SUCCESS) eqn:E3; bools; [|by apply Hback]. cbn [negb].
  intros w r w' [Ha _] Hr. run_prim Hr. subst ret3. by split.
Qed.

Lemma uses_sample_CipherFind own obj id : uses own (SCF_CipherFind obj id) (fun _ => own).
Proof. by apply (uses_call own (CCipherFind obj id)). Qed.

Lemma use_callback_books suite obj hashAlgo outs own :
  hoare (acct own) (TEST_SetPskUseSessionImpl suite obj hashAlgo outs)
    (fun r : Z * option (list ascii * Z) * option Z => hands_over own (r.1.1, r.2)).
Proof.
  assert (Hend : forall id psk cipher, hoare (acct own)
    (r ← TEST_PskCreateSession psk PSK_LEN cipher; mret (r.1, Some (id, ID_LEN), r.2))
    (fun r : Z * option (list ascii * Z) * option Z => hands_over own (r.1.1, r.2))).
  { intros id psk cipher. eapply hoare_bind; [apply hoare_PskCreateSession|]. intros [ret sess] w r w' Hr Hm.
    run_prim Hm. exact Hr. }
  unfold TEST_SetPskUseSessionImpl. destruct (_ || _); [intros w r w' Ha Hr; run_prim Hr; by split|].
  destruct (_ =? SCF_CRYPT_MD_SHA256); [|destruct (_ =? SCF_CRYPT_MD_SHA384)].
  - eapply hoare_bind; [apply uses_sample_CipherFind|]. intros cipher. apply Hend.
  - eapply hoare_bind; [apply uses_sample_CipherFind|]. intros cipher. apply Hend.
  - intros w r w' Ha Hr. run_prim Hr. by split.
Qed.

Lemma find_callback_books obj identity len session own :
  hoare (acct own) (TEST_SetPskFindSessionImpl obj identity len session) (hands_over own).
Proof.
  unfold TEST_SetPskFindSessionImpl. destruct identity as [id|]; [|intros w r w' Ha Hr; run_prim Hr; by split].
  destruct (_ || _); [intros w r w' Ha Hr; run_prim Hr; by split|].
  destruct (TEST_SetGetPskAuthType id len); [intros w r w' Ha Hr; run_prim Hr; by split|..];
    (eapply hoare_bind; [apply uses_sample_CipherFind|]; intros cipher; apply hoare_PskCreateSession).
Qed.
End callbacks.

(** ** The two programs *)
Section programs.
Context `{Library} `{!SslMemory} `{SecureC} `{FileSystem} `{Decryptor}.
Context (scheduler : History -> nat) (callback : Z) (fuel : nat).

(** The library is down, no context and no object is left, and every handle and every array
    handed out was given back exactly once. *)
Definition all_returned (w : World) : Prop :=
  w_scfInitialized w = false /\ w_isTlsInit w = false /\ w_adaptor w = false /\
  w_ctxs w = ∅ /\ w_objs w = ∅ /\
  forall k p, p <> nullptr -> credit (k, p) (w_log w) = 0.

Lemma owns_nothing w : owns false globals0 w -> acct [] w -> all_returned w.
Proof.
  intros [(n & Hw & _) _] Ha. cbn in Hw.
  assert (Hc : w_ctxs w = ∅) by (apply (fmap_empty_inv ctx_refCnt), (f_equal l_cnt Hw)).
  assert (Ho : w_objs w = ∅) by (apply (fmap_empty_inv obj_policyCtx), (f_equal l_ref Hw)).
  split_and!; [exact (f_equal l_init Hw)|exact (f_equal l_tls Hw)|exact (f_equal l_adaptor Hw)
              |done|done|].
  intros k p Hp. rewrite (ac_sum _ _ Ha (k, p) Hp). unfold Resources.held. rewrite Hc, Ho.
  by destruct k.
Qed.

(** What is promised of a program. *)
Definition ends_well (m : Prg Z) : Prop :=
  wp (m globals0) (fun r w => match r.1 with Ended _ => all_returned w | _ => ~ Polite fuel end) world0.

Lemma ends_well_of (m : Prg Z) :
  pw fuel m (fun _ _ w => owns false globals0 w) globals0 world0 -> clean m -> ends_well m.
Proof.
  intros Hp Hc. specialize (Hc globals0 world0). unfold pw, ends_well, wp in *.
  destruct (m globals0 world0) as [[[r g] w]|]; [|done].
  specialize (Hc _ _ (conj eq_refl acct_start) eq_refl). cbn in *. destruct r; [by apply owns_nothing|done..].
Qed.

Lemma main_ends role test argv :
  test_ends fuel test -> (forall suites ip port, cuses (test suites ip port)) ->
  ends_well (sample_main (init_sample role) test argv).
Proof. intros Ht Hc. apply ends_well_of; [apply (pw_main fuel), Ht; apply owns_start|by apply clean_main]. Qed.

Lemma tcp_main_ends test argv :
  (forall ip port, still fuel nullptr nullptr (test ip port)) ->
  (forall ip port, cuses (test ip port)) -> ends_well (tcp_main test argv).
Proof.
  intros Ht Hc. apply ends_well_of; [|by apply clean_tcp_main].
  eapply pw_mono; [apply (still_tcp_main fuel test argv nullptr nullptr Ht)|].
  { by apply (owns_handles false globals0), owns_start. }
  intros code g w [_ Hl]. by apply (owns_life _ _ _ _ _ Hl eq_refl eq_refl), owns_start.
Qed.

(** The four programs. *)
Definition c_samples : list (list string -> Prg Z) :=
  [client_main callback fuel; server_main scheduler callback fuel;
   client_tcp_main fuel; server_tcp_main scheduler].

(** (C15) The samples of the C API leave nothing. Whatever OpenSSL, the sockets, the
    allocator and the scheduler of the accepting thread do, except that [SSL_new] never
    answers null (the adaptor does not check it), and whatever the arguments: from a fresh
    process the client and the server, with TLS and without, touch no freed or null context,
    object or connection; where one ends - also when a step failed halfway - the library is
    down, no context and no object is left, and every handle of the books (contexts, SSL
    objects, sessions, certificates, keys, buffers, files) and the connection object was given
    back exactly once; and each ends, unless memory for a buffer runs out, the handshake
    blocks on a write, the peer sends empty records or a signal interrupts the connection
    attempt. The pre-shared-key callbacks, which OpenSSL runs inside a handshake, are not
    steps of these runs; of each, called in any state, on every path: the one session it makes
    it hands to OpenSSL together with success, or has freed, and nothing else is left over. *)
Theorem c_samples_leave_nothing :
  (forall (argv : list string) (main : list string -> Prg Z), main ∈ c_samples ->
    exists r g w, main argv globals0 world0 = Some ((r, g), w) /\
      (forall code, r = Ended code -> all_returned w) /\
      (Polite fuel -> exists code, r = Ended code)) /\
  (forall suite obj hashAlgo outs own,
    hoare (acct own) (TEST_SetPskUseSessionImpl suite obj hashAlgo outs)
      (fun r : Z * option (list ascii * Z) * option Z => hands_over own (r.1.1, r.2))) /\
  (forall obj identity len session own,
    hoare (acct own) (TEST_SetPskFindSessionImpl obj identity len session) (hands_over own)).
Proof.
  split; [|split; intros; [apply use_callback_books|apply find_callback_books]]. intros argv main Hmain.
  assert (Hw : ends_well (main argv)).
  { unfold c_samples in Hmain. rewrite !elem_of_cons in Hmain.
    destruct Hmain as [->|[->|[->|[->|Hnil]]]]; [..|by apply elem_of_nil in Hnil].
    - apply main_ends; [apply TestClient_ends|intros; apply cuses_TestClient].
    - apply main_ends; [apply TestServer_ends|intros; apply cuses_TestServer].
    - apply tcp_main_ends; [intros; apply still_run_TestTcpClient|intros; apply cuses_run_TestTcpClient].
    - apply tcp_main_ends; [intros; apply still_run_TestTcpServer|intros; apply cuses_run_TestTcpServer]. }
  unfold ends_well, wp in Hw. destruct (main argv globals0 world0) as [[[r g] w]|]; [|done].
  exists r, g, w. split; [done|]. split.
  - by intros code ->.
  - intros Hp. destruct r as [code| |]; [by exists code|by destruct (Hw Hp)..].
Qed.
End programs.

(** ** The port on the command line *)

Lemma digit_char n : (n < 10)%N -> digit (pretty_N_char n) = Some (Z.of_N n).
Proof.
  intros Hn. destruct n as [|p]; [done|].
  do 4 (destruct p as [p|p|]; try done; try lia).
Qed.

Lemma get_digits_pretty n any s :
  (0 < n)%N -> get_digits 0 any (pretty_N_go n s) = get_digits (Z.of_N n) true s.
Proof.
  revert any s. induction (N.lt_wf_0 n) as [n _ IH]; intros any s Hn.
  rewrite pretty_N_go_step by done.
  assert (Hd : digit (pretty_N_char (n mod 10)) = Some (Z.of_N (n mod 10)))
    by (apply digit_char, N.mod_lt; lia).
  pose proof (N.div_mod n 10 ltac:(lia)) as Hdm.
  destruct (N.eq_dec (n / 10)%N 0%N) as [E|E].
  - rewrite E, pretty_N_go_0. cbn [get_digits]. rewrite Hd. rewrite E in Hdm.
    by rewrite Hdm at 2.
  - rewrite IH; [|apply N.div_lt; lia|by apply N.neq_0_lt_0]. cbn [get_digits]. rewrite Hd. f_equal. lia.
Qed.

Lemma pretty_head (n : N) : exists c s, pretty n = String c s /\ is_Some (digit c).
Proof.
  assert (Hgo : forall s, (0 < n)%N -> exists c t, pretty_N_go n s = String c t /\ is_Some (digit c)).
  { induction (N.lt_wf_0 n) as [n _ IH]. intros s Hn. rewrite pretty_N_go_step by done.
    destruct (N.eq_dec (n / 10)%N 0%N) as [E|E]; [|apply IH; [apply N.div_lt; lia|by apply N.neq_0_lt_0]].
    rewrite E, pretty_N_go_0. eexists _, _. split; [done|].
    rewrite digit_char; [by eexists|apply N.mod_lt; lia]. }
  unfold pretty, pretty_N. destruct (decide (n = 0)%N); [by eexists _, _; split|apply Hgo; lia].
Qed.

(** Digits, read as the stream does. *)
Lemma get_digits_all (n : N) : get_digits 0 false (pretty n) = Some (Z.of_N n, ""%string).
Proof.
  unfold pretty, pretty_N. destruct (decide (n = 0)%N) as [->|Hn]; [done|].
  rewrite get_digits_pretty by lia. done.
Qed.

Lemma get_number_pretty negative n :
  get_number negative (pretty n) = if 65535 <? Z.of_N n then None
    else Some (if negative then wrap16 (- Z.of_N n) else Z.of_N n, ""%string).
Proof. unfold get_number. by rewrite get_digits_all. Qed.

(** A digit is no blank and no sign. *)
Lemma get_u16_digits c s : is_Some (digit c) -> get_u16 (String c s) = get_number false (String c s).
Proof.
  intros [d Hd]. unfold get_u16.
  assert (Hb : blank c = false)
    by (destruct c as [[] [] [] [] [] [] [] []]; vm_compute in Hd |- *; congruence).
  cbn [skip_blanks]. rewrite Hb.
  destruct c as [[] [] [] [] [] [] [] []]; try reflexivity; by vm_compute in Hd.
Qed.

Lemma get_u16_cases s : exists negative s', get_u16 s = get_number negative s'.
Proof.
  unfold get_u16. destruct (skip_blanks s) as [|c s']; [by eexists _, _|].
  destruct c as [[] [] [] [] [] [] [] []]; by eexists _, _.
Qed.

Lemma get_digits_nonneg acc any s v rest :
  0 <= acc -> get_digits acc any s = Some (v, rest) -> 0 <= v.
Proof.
  revert acc any. induction s as [|c s IH]; intros acc any Ha; cbn [get_digits].
  - destruct any; [|done]. by intros [= <- _].
  - destruct (digit c) as [d|] eqn:E.
    + apply IH. unfold digit in E. destruct (_ && _)%N eqn:Ed; [|done].
      apply andb_prop in Ed as [Ed%N.leb_le _]. injection E as <-. lia.
    + destruct any; [|done]. by intros [= <- _].
Qed.

Lemma get_number_range negative s v rest : get_number negative s = Some (v, rest) -> 0 <= v <= 65535.
Proof.
  unfold get_number. destruct (get_digits _ _ _) as [[n r]|] eqn:E; [|done].
  apply get_digits_nonneg in E; [|done]. destruct (65535 <? n) eqn:Eb; [done|]. bools.
  intros [= <- _]. unfold wrap16. destruct negative; [|lia].
  pose proof (Z.mod_pos_bound (- n) (2 ^ 16) ltac:(lia)). lia.
Qed.

(** The port on the command line. Every port in decimal notation is read back; a
    number above 65535 is refused; whatever is accepted is a port; and a number after a
    minus sign is accepted, modulo 2^16. *)
Theorem ParsePort_ports :
  (forall n : N, ParsePort (pretty n) =
     if 65535 <? Z.of_N n then (SCF_ERROR, None) else (SCF_SUCCESS, Some (Z.of_N n))) /\
  (forall n : N, Z.of_N n <= 65535 ->
     ParsePort ("-" ++ pretty n) = (SCF_SUCCESS, Some (wrap16 (- Z.of_N n)))) /\
  (forall s port, ParsePort s = (SCF_SUCCESS, Some port) -> 0 <= port <= 65535).
Proof.
  split_and!.
  - intros n. destruct (pretty_head n) as (c & s & E & Hc). unfold ParsePort.
    rewrite E, get_u16_digits by done. rewrite <- E, get_number_pretty. by destruct (65535 <? _).
  - intros n Hn. unfold ParsePort. change (get_u16 ("-" ++ pretty n)) with (get_number true (pretty n)).
    rewrite get_number_pretty. destruct (65535 <? _) eqn:E; [bools; lia|done].
  - intros s port. unfold ParsePort. destruct (get_u16_cases s) as (b & s' & ->).
    destruct (get_number b s') as [[v rest]|] eqn:E; [|done]. apply get_number_range in E.
    destruct rest; [|done]. by intros [= <-].
Qed.


Lemma ParsePort_ports_witness :
  ParsePort "4433" = (SCF_SUCCESS, Some 4433) /\ ParsePort "-1" = (SCF_SUCCESS, Some 65535) /\
  ParsePort "65536" = (SCF_ERROR, None) /\ ParsePort "443x" = (SCF_ERROR, Some 443) /\
  0 <= 4433 <= 65535.
Proof.
  destruct ParsePort_ports as (Hport & Hminus & Hrange).
  split; [exact (Hport 4433%N)|]. split; [exact (Hminus 1%N ltac:(done))|].
  split; [exact (Hport 65536%N)|]. split; [reflexivity|].
  apply (Hrange "4433"%string). reflexivity.
Defined.

(** ** The pre-shared key callbacks *)
Section psk.
Context `{Library} {A : TlsAdaptor} `{SecureC} `{Decryptor}.

(** The hash algorithms a handshake may ask the client's callback for. *)
Definition hash_served (hashAlgo : Z) : Prop :=
  hashAlgo = SCF_CRYPT_MD_UNKNOWN \/ hashAlgo = SCF_CRYPT_MD_SHA256 \/
  hashAlgo = SCF_CRYPT_MD_SHA384.

(** Eleven bytes that are one of the two names. *)
Definition known_identity (identity : list ascii) (len : Z) : bool :=
  (len =? ID_LEN) &&
  (bool_decide (take 11 identity = g_idPskSha256) || bool_decide (take 11 identity = g_idPskSha384)).

Lemma auth_type_spec identity len :
  match TEST_SetGetPskAuthType identity len with
  | TEST_PSK_ID_MISMATCH => known_identity identity len = false
  | _ => known_identity identity len = true
  end.
Proof.
  unfold TEST_SetGetPskAuthType, known_identity, same_bytes.
  destruct (len =? ID_LEN) eqn:E; bools; [subst len|done].
  change (take (Z.to_nat ID_LEN) g_idPskSha256) with g_idPskSha256.
  change (take (Z.to_nat ID_LEN) g_idPskSha384) with g_idPskSha384.
  change (Z.to_nat ID_LEN) with 11%nat. cbn [andb].
  destruct (bool_decide (_ = g_idPskSha256)); [done|]. by destruct (bool_decide _).
Qed.

(** What the client's callback does once it knows the names. *)
Lemma use_run {X} (m : M X) (f : X -> M (Z * option Z)) (i : list ascii * Z) w r identity sess w' :
  (x ← m; s ← f x; (mret (s.1, Some i, s.2) : M _)) w = Some ((r, identity, sess), w') ->
  identity = Some i /\ (x ← m; f x) w = Some ((r, sess), w').
Proof.
  unfold mbind, M_bind. destruct (m w) as [[x w1]|]; [|done].
  destruct (f x w1) as [[[r1 s1] w2]|]; [|done]. unfold mret, M_ret. cbn.
  by intros [= <- <- <- <-].
Qed.

(** The identity belongs to the hash, and the server's callback goes the client's way. *)
Lemma use_find suite obj hash w r identity sess w' :
  obj <> nullptr ->
  TEST_SetPskUseSessionImpl suite obj hash true w = Some ((r, identity, sess), w') ->
  (identity = None /\ ~ hash_served hash /\ r = SCF_SSL_ERR_PSK_CB_HASH /\ sess = None /\ w' = w) \/
  (hash_served hash /\ exists id len, identity = Some (id, len) /\
     TEST_SetPskFindSessionImpl obj (Some id) len true w = Some ((r, sess), w')).
Proof.
  intros Ho. unfold TEST_SetPskUseSessionImpl, TEST_SetPskFindSessionImpl.
  rewrite (proj2 (Z.eqb_neq _ _) Ho). cbn [orb negb].
  set (h := if hash =? SCF_CRYPT_MD_UNKNOWN then _ else hash).
  assert (Hserved : hash_served hash <-> h = SCF_CRYPT_MD_SHA256 \/ h = SCF_CRYPT_MD_SHA384).
  { unfold hash_served, h. destruct (hash =? SCF_CRYPT_MD_UNKNOWN) eqn:E; bools; [|by intuition].
    destruct (_ =? SCF_SSL_AES_256_GCM_SHA384); intuition. }
  clearbody h. destruct (h =? SCF_CRYPT_MD_SHA256) eqn:E1; bools.
  { intros [-> Hrun]%use_run. right. split; [by apply Hserved; left|].
    exists g_idPskSha256, ID_LEN. by split. }
  destruct (h =? SCF_CRYPT_MD_SHA384) eqn:E2; bools.
  { intros [-> Hrun]%use_run. right. split; [by apply Hserved; right|].
    exists g_idPskSha384, ID_LEN. by split. }
  cbv [mret M_ret]. intros [= <- <- <- <-]. left. split_and!; [done| |done..].
  by intros [?|?]%Hserved.
Qed.

(** (C29) The two callbacks agree. Whatever the client's callback is asked, from the same
    state the server's callback, given the identity the client's answered, makes the same
    calls, ends in the same state with the same code and the same session - the same cipher
    suite and the same key -; the client's callback names an identity for every hash it
    knows; and an identity that is not one of the two names is refused without a call. *)
Theorem psk_samples_agree :
  (forall suite obj hash w r id len sess w',
     TEST_SetPskUseSessionImpl suite obj hash true w = Some ((r, Some (id, len), sess), w') ->
     TEST_SetPskFindSessionImpl obj (Some id) len true w = Some ((r, sess), w')) /\
  (forall suite obj hash w r identity sess w', obj <> nullptr ->
     TEST_SetPskUseSessionImpl suite obj hash true w = Some ((r, identity, sess), w') ->
     (identity = None <-> ~ hash_served hash) /\
     (identity = None -> r = SCF_SSL_ERR_PSK_CB_HASH /\ sess = None /\ w' = w)) /\
  (forall obj identity len w, obj <> nullptr -> len <> 0 -> known_identity identity len = false ->
     TEST_SetPskFindSessionImpl obj (Some identity) len true w =
       Some ((SCF_SSL_ERR_PSK_MISMATCH, None), w)).
Proof.
  split_and!.
  - intros suite obj hash w r id len sess w' Hrun.
    destruct (decide (obj = nullptr)) as [->|Ho]; [done|].
    destruct (use_find _ _ _ _ _ _ _ _ Ho Hrun) as [[? _]|(_ & id' & len' & E & Hfind)]; [done|].
    by injection E as -> ->.
  - intros suite obj hash w r identity sess w' Ho Hrun.
    destruct (use_find _ _ _ _ _ _ _ _ Ho Hrun) as [(-> & Hn & -> & -> & ->)|(Hs & id & len & -> & _)];
      split; done.
  - intros obj identity len w Ho Hl Hk. unfold TEST_SetPskFindSessionImpl.
    rewrite (proj2 (Z.eqb_neq _ _) Ho), (proj2 (Z.eqb_neq _ 0) Hl). cbn [orb negb].
    pose proof (auth_type_spec identity len) as Ht.
    destruct (TEST_SetGetPskAuthType _ _); rewrite Hk in Ht; done.
Qed.
End psk.

(** ** Witnesses *)
Section witnesses.
(** A peer that is there: the connection is accepted, its first two bytes say yes, and the
    client's thread is scheduled once at each wait. *)
Definition peer_answer (h : History) (f : LibFn) (args : list Arg) : Z :=
  match f with sys_connect => 0 | _ => ref_answer h f args end.
Definition peer_out (h : History) : Z :=
  match h with e :: _ => match ev_fn e with sys_recv => ConnectResp_OK | _ => 1000 end | [] => 0 end.
#[local] Instance PeerLibrary : Library := {|
  answer := peer_answer;
  out_value := peer_out;
  cstring_at := @cstring_at RefLibrary;
  bytes_at := @bytes_at RefLibrary;
  asn1_data := @asn1_data RefLibrary
|}.
#[local] Instance PeerSslMemory : SslMemory (H := PeerLibrary).
Proof. done. Qed.

Definition enough : nat := S (Z.to_nat TEST_READ_RETRY_MAX_CNT).
Definition sample_argv : list string := ["openssl"; "/usr/lib64"; "127.0.0.1"; "4433"]%string.
Definition one_round (_ : History) : nat := 1.

Lemma handshake_settles obj role fn w :
  (forall h args, peer_answer h fn args = SSL_SUCCESS) ->
  wlp (handshake obj role fn) (fun r _ => r <> SCF_SSL_ERR_WANT_WRITE) w.
Proof.
  intros Hfn. unfold handshake. destruct (obj =? nullptr); [by apply wlp_ret|].
  apply wlp_bind. unfold wlp at 1, get_obj. destruct (w_objs w !! obj) as [o|]; [|done].
  destruct (_ =? nullptr); [by apply wlp_ret|]. destruct (negb _); [by apply wlp_ret|].
  apply wlp_bind. eapply wlp_mono; [apply wlp_true|]. intros ? w1 _.
  apply wlp_bind. unfold wlp at 1. cbv [lib answer PeerLibrary]. rewrite Hfn.
  rewrite Z.eqb_refl. by apply wlp_ret.
Qed.

Lemma Read_gives o d n w r w' :
  Read o d n w = Some ((SCF_SUCCESS, r), w') -> r = Some 1000.
Proof.
  enough (Hw : wlp (Read o d n) (fun x _ => x.1 = SCF_SUCCESS -> x.2 = Some 1000) w).
  { intros Hr. unfold wlp in Hw. rewrite Hr in Hw. by apply Hw. }
  unfold Read. destruct (o =? nullptr); [by apply wlp_ret|].
  apply wlp_bind. unfold wlp at 1, get_obj. destruct (w_objs w !! o) as [x|]; [|done].
  destruct (_ =? nullptr); [by apply wlp_ret|].
  apply wlp_bind. unfold wlp at 1. cbv [lib]. apply wlp_bind. unfold wlp at 1.
  cbv [lib_out gets]. cbn -[wrap32 wlp]. by apply wlp_ret.
Qed.

Lemma polite_peer : Polite (A := OpenSSLAdaptor) enough.
Proof.
  split.
  - unfold enough. lia.
  - intros o w r w' Hr. pose proof (handshake_settles o SCF_ROLE_CLIENT SSL_connect w) as Hw.
    unfold wlp in Hw. cbn in Hr. unfold Connect in Hr. rewrite Hr in Hw. by apply Hw.
  - intros o w r w' Hr. pose proof (handshake_settles o SCF_ROLE_SERVER SSL_accept w) as Hw.
    unfold wlp in Hw. cbn in Hr. unfold Accept in Hr. rewrite Hr in Hw. by apply Hw.
  - intros o d n w r w' Hr. exists 1000. split; [|done]. by apply (Read_gives o d n w r w').
  - intros [|e h]; [done|]. cbn. by destruct (ev_fn e).
  - done.
Qed.

(** The code a program ended with, and how many reads and writes of a session it made. *)
Definition exchanged (r : option ((outcome Z * Globals) * World)) : option (Z * nat) :=
  match r with
  | Some ((Ended code, _), w) =>
      Some (code, length (omap (fun e => match ev_fn e with
        | SSL_read_ex | SSL_write_ex => Some tt | _ => None end) (w_log w)))
  | _ => None
  end.
Definition client_run : option ((outcome Z * Globals) * World) :=
  client_main (A := OpenSSLAdaptor) 1 enough sample_argv globals0 world0.

Lemma c_samples_leave_nothing_witness :
  exchanged client_run = Some (0, 2002%nat) /\
  exists code g w, client_run = Some ((Ended code, g), w) /\ all_returned w.
Proof.
  split; [by vm_compute|].
  destruct (c_samples_leave_nothing one_round 1 enough) as [Hmain _].
  destruct (Hmain sample_argv (client_main (A := OpenSSLAdaptor) 1 enough) (list_elem_of_here _ _))
    as (r & g & w & Hrun & Hend & Hpol).
  destruct (Hpol polite_peer) as [code ->]. exists code, g, w. split; [exact Hrun|by apply (Hend code)].
Defined.

Example server_session :
  exchanged (server_main (A := OpenSSLAdaptor) one_round 1 enough sample_argv globals0 world0) =
  Some (0, 2002%nat).
Proof. by vm_compute. Qed.

End witnesses.

(** An object with an [SSL]; its address is 2. *)
Definition w_secured : World :=
  after (exec (CSetFd 2 7)) (after (exec (CCreatePolicyObj 1))
    (after (exec (CSetPolicy 1 SCF_ROLE_CLIENT SCF_VERIFY_DEFAULT SCF_POLICY_HIGH)) w_one)).

Lemma psk_samples_agree_witness :
  exists w, TEST_SetPskUseSessionImpl SCF_SSL_AES_256_GCM_SHA384 2 SCF_CRYPT_MD_UNKNOWN true w_secured =
    Some ((SCF_SUCCESS, Some (g_idPskSha384, 11), Some 1), w) /\
  TEST_SetPskFindSessionImpl 2 (Some g_idPskSha384) 11 true w_secured = Some ((SCF_SUCCESS, Some 1), w) /\
  TEST_SetPskFindSessionImpl 2 (Some (bytes "idPskSha512")) 11 true w_secured =
    Some ((SCF_SSL_ERR_PSK_MISMATCH, None), w_secured).
Proof.
  destruct psk_samples_agree as (Hag & _ & Hmis).
  assert (Hrun : exists w, TEST_SetPskUseSessionImpl SCF_SSL_AES_256_GCM_SHA384 2 SCF_CRYPT_MD_UNKNOWN true
    w_secured = Some ((SCF_SUCCESS, Some (g_idPskSha384, 11), Some 1), w)) by (vm_compute; eexists; reflexivity).
  destruct Hrun as [w Hrun]. exists w. split; [exact Hrun|]. split; [by apply (Hag _ _ _ _ _ _ _ _ _ Hrun)|].
  by apply Hmis.
Defined.
